(* ===== verification/_CoqProject ===== *)
-Q . S2P
Prelude.v
Wire.v
Cstring.v
Libubox.v
LibuboxModel.v
Ids.v
State.v
MsgBuf.v
Frame.v
SendSpec.v
Stream.v
Wf.v
WfOps.v
Registry.v
Acl.v
Reply.v
Event.v
Obj.v
AclLoad.v
Proto.v
Main.v
AclSpec.v
Bus.v
ReplySpec.v
RegistrySpec.v
EventSpec.v
AclLoadSpec.v
ObjSpec.v
ProtoSpec.v
HandlerSpec.v
ClientSpec.v
MainSpec.v
RxSpec.v
Daemon.v
Demo.v
Startup.v
DaemonThms.v
EventThms.v
BusThms.v
RxTxThms.v
ProtoThms.v
CoreThms.v
LibState.v
LibIo.v
LibCalls.v
LibReq.v
LibObj.v
LibMain.v
LibConn.v
LibDemo.v
LibIoSpec.v
LibIoThms.v
LibReqSpec.v
LibReqThms.v
LibObjThms.v
LibAclThms.v
LibConnThms.v
LibLoops.v
LibSafe.v
EndToEnd.v
BlobMsg.v
BlobMsgModel.v
Count.v
ProgLib.v
Cli.v
CliThms.v
ExServer.v
ExClient.v
ExThms.v
LuaApi.v
LuaConv.v
LuaData.v
LuaFormat.v
LuaParse.v
LuaModel.v
LuaBind.v
LuaRun.v
LuaLoad.v
LuaDemo.v
Findings.v
