(* ===== verification/Prelude.v ===== *)
(** * Verification of ubus

    ubus is the message bus of OpenWrt.  The daemon [ubusd] accepts clients on a
    Unix socket; clients publish objects with methods, call each other's
    methods through the daemon, subscribe to objects, listen to events and
    monitor the traffic; access rules from JSON files decide who may do what.
    The library [libubus] is the clients' side: it frames and sends messages,
    matches answers to requests, dispatches calls to the program's objects and
    reconnects.  [ubus] is the command line client, a program of the library;
    the Lua binding and the two examples are others.  This development models
    all of them and proves what makes them correct.

    ** How the code is modelled

    C code becomes functions of the type [stm S A] (below): state passing with
    [None] for undefined behaviour - a load from a pointer that is not live, a
    node unlinked that is not linked, an access out of bounds.  Structures are
    records in a heap per type ([gmap ptr]), so aliasing, freeing and reference
    counts are explicit; lists are lists of pointers in the order of the C list.
    Fixed-width integers are [Z] with the wrap-around written out.  A C string
    is a [string], a blob the bytes its pointer points to.  The kernel is part of
    the state: scripts of the answers to come from [sendmsg], [recvmsg], memory
    allocation, random numbers and the clock, and a record of what was written,
    passed and closed; theorems quantify over all scripts, so over all partial,
    interrupted and failing calls.

    Two fields are not variables of the code: [events_sent] of [ubusd] counts the
    events and [wait_seen] of [cli_state] keeps the paths that
    [wait_check_object] has seen.  They are written next to the code they are
    about and never read; theorems refer to them.

    libubox (AVL trees, versioned lists, blobs) is not part of the repository:
    [Libubox.v] has its operations as classes [AvlLib] and [BlobLib], and the
    documented behaviour that theorems use as the classes [AvlLaws], [BlobLaws]
    and [BlobViewLaws] (a payload can be viewed as the attributes it was built
    from); [LibuboxModel.v] is an instance that satisfies them, used by the
    concrete runs.  The user database, [stat], [glob] and the JSON reader are
    inputs, and so are [usock], [fcntl] and what [uloop] reports.  [BlobMsg.v] adds what
    readers of whole messages rely on ([BlobWalk], [BlobMsgLaws]: the fields of a
    rendered message, in order and found by name), with its instance in
    [BlobMsgModel.v].

    ** The daemon

    - [Wire.v]: message types, attributes, status codes, the header's byte order
      ([src/ubusmsg.h]).  [Cstring.v]: [strcmp], [atoi], [getopt] and
      [ubus_strmatch_len] ([src/ubus_common.h]), and the lemma behind every scan
      over sorted strings that stops early.
    - [Ids.v] ([src/ubusd_id.c]); [State.v]: the structures of [src/ubusd.h] and
      [src/ubusd_obj.h] and the global state [ubusd].
    - [MsgBuf.v] ([src/ubusd.c], [src/ubusd_monitor.c]): reference counted
      messages, transmit queues, partial writes, monitors.
    - [Registry.v], [Obj.v] ([src/ubusd_obj.c]): types, objects, subscriptions.
    - [Acl.v], [AclLoad.v] ([src/ubusd_acl.c]): the check, credentials, loading.
    - [Event.v] ([src/ubusd_event.c]); [Reply.v], [Proto.v]
      ([src/ubusd_proto.c]): helpers, every handler, dispatch, clients.
    - [Main.v] ([src/ubusd_main.c]): [client_cb], accepting, disconnecting.
    - [Daemon.v]: the daemon as a transition system, whose events are start-up, a
      callback of the event loop, a reload of the rules, a change of the kernel's
      scripts; [reachable] states.
    - [Startup.v] ([main] and the SIGHUP pipe of [src/ubusd_main.c]): the process
      around the bus - options, socket, order of start-up, signals.

    [Frame.v], [SendSpec.v], [Stream.v] (ownership of messages and the byte
    stream a client will see), [Wf.v], [WfOps.v] (the registry's well-formedness)
    and the files named [...Spec.v] hold the specifications of the operations;
    [inv] is the invariant of the whole daemon.  [Bus.v] is the abstract bus: users,
    named objects, subscriptions, patterns, monitors and grants, without buffers,
    trees, queues or pointers, and the steps a client may cause.  [Demo.v] is a
    concrete run that supplies the inputs of the witnesses.

    What the theorems show: every event from every reachable state runs to its end
    without undefined behaviour and refines a transition of the abstract bus
    ([bus_refined], [no_undefined_behaviour]); a client cannot touch what belongs to
    others, nor obtain what the rules do not grant ([client_isolated],
    [client_permitted]), and takes exactly its own with it when it leaves
    ([disconnect_forgets]); the early exits of the scans are exact
    ([acl_check_exact], [event_delivery_exact], [lookup_prefix_exact]); loading rules
    gives the grants of the trusted files ([access_after_load]); reception and
    transmission keep message boundaries and byte streams ([RxTxThms.v]); trees,
    lists, reference counts and queue lengths are exact ([DaemonThms.v]); handlers answer as they should on every path
    ([ProtoThms.v]), where a message for a client is appended to the bytes it will
    read unless it is [refused] more - its connection is being given up, an
    allocation fails, its queue has no room; identifiers are fresh
    ([CoreThms.v]); the rules are loaded before the first client is served, and no
    SIGHUP is lost, even one that arrives while the callback runs ([Startup.v]).

    ** The client library

    - [LibState.v]: the structures of [src/libubus.h] and the file-level
      variables, as one [ubus_context] with heaps and socket.  The library's own
      callbacks are enumerated; the program's are the parameter [program] of the
      class [Program] ([LibCalls.v]), code that may do anything to the state,
      including calls of the library; its own variables are the class
      [ProgMem].
    - [LibIo.v] ([src/libubus-io.c]): writing, reading, header check, message
      buffer.  [LibCalls.v], [LibReq.v] ([src/libubus-req.c],
      [src/libubus-acl.c] and callbacks): starting, completing and aborting
      requests, matching answers, notifications, the cache of access rules.
      [LibObj.v] ([src/libubus-obj.c], [src/libubus-sub.c]): incoming calls,
      notifications and events.  [LibMain.v] ([src/libubus.c]): dispatch, the
      queue of deferred messages, waiting, and the functions programs call.
      [LibConn.v]: connecting, reconnecting, channels, automatic connections,
      shutdown.
    - [LibIoSpec.v], [LibReqSpec.v]: specifications.  [LibDemo.v]: a concrete
      program, for the witnesses.

    What the theorems show: messages are sent and read whole, whatever the kernel
    does, and what one end sends the other reads ([LibIoThms.v]); a STATUS message
    completes exactly its request, and a notification completes when everybody
    awaited has answered ([LibReqThms.v]); calls go to the first method of their
    name and are answered with the handler's status ([LibObjThms.v]); every
    announced change of the rules is followed by a query ([LibAclThms.v]);
    reconnecting is exact about success and leaves no stale id
    ([LibConnThms.v]); the loops end for programs whose callbacks do not feed them
    ([LibLoops.v]), also when callbacks call the library again to any depth
    ([lib_at]); whatever callbacks keep of the program's variables the library
    keeps ([mem_by]); the list of waiting requests,
    many of them local variables, never holds a dead or an answered one
    ([LibSafe.v]).

    [EndToEnd.v] puts library and daemon together: a call goes from the caller's
    library through the daemon to the handler in another program, and the
    handler's status comes back to the caller's request.

    ** The command line client

    [Cli.v] ([src/cli.c]) is an instance of [Program]: the seven commands, the
    callbacks with what they print, the options.  The JSON functions of libubox
    are the class [JsonLib]; [uloop_run] takes the events to come as a list, whose
    end is the signal that ends the program.  [CliThms.v]: what the daemon reports
    to a monitor is what is printed, filtered as the options say; [ubus wait_for]
    succeeds only when every object it was given has been listed or announced; the
    library's loops end for this program; whole runs of the program.  [ProgLib.v] is what this
    program shares with the next ones: texts of the status codes
    ([ubus_strerror]), [ubus_free], the loop over the events of [uloop].

    ** The examples

    [Count.v] ([src/examples/count.c]): the text of the counting test, its two
    loops over 32-bit counters and the buffer; the size is exact as long as it
    does not wrap ([count_to_number_exact]).  [ExServer.v], [ExClient.v]
    ([src/examples/server.c], [src/examples/client.c]): both programs with their
    callbacks and timers.  [ExThms.v]: the client counts within its limits and the
    server validates exactly the right text ([count_validated]); runs against a daemon's messages.

    ** The Lua binding

    [LuaApi.v]: the interpreter as classes [LuaNum] and [LuaVM] with laws (exact
    integers below 2^53; tables as finite maps with the interpreter's own order of
    traversal), and the stack operations of its C interface, which end, raise an
    error or are undefined.  [LuaConv.v], [LuaBind.v] ([src/lua/ubus.c]): the
    conversion of messages, and the functions and callbacks of the module as a
    program of the library; what Lua functions do is the parameter [script].
    [LuaData.v]: the data a program can send and which value is such data;
    [LuaFormat.v], [LuaParse.v]: both directions, and that data that can be sent
    survives the bus ([lua_roundtrip]).  [LuaRun.v]: a call of a registered method runs its
    function on the data of the message and keeps the stack balanced
    ([lua_method_dispatch]).  [LuaLoad.v]: a table of methods becomes an object
    with exactly these methods, without leaving the allocated arrays, whichever
    allocation fails ([lua_object_methods]).  [LuaModel.v] is an instance of the
    interpreter; [LuaDemo.v] runs a program that registers an object and answers
    a call.

    ** Fuel

    Loops that are not structural take fuel from the state: the length of the
    kernel's script they consume, plus the queue they empty.  [daemon_loops_end]
    and [library_loops_end] show that from this amount on more makes no
    difference.  A finished script means a closed connection, so a run is as long
    as its script.  Conversion in the Lua binding takes the depth of the data as
    fuel (a table that contains itself overflows the C stack), and a traversal as
    many turns as the table has entries.  The loop that empties the SIGHUP pipe
    takes the bytes in it and the signals still to come.  Only [flush_loop] can
    run out: a
    program whose completion callbacks start more requests than it declares
    ([flush_restarts]) makes [ubus_flush_requests] run on, which the model counts
    as undefined.

    ** Not modelled

    The fuzzing harness, which only feeds functions that are modelled; log
    messages.  In the library: two contexts in one program; the memory of the
    context itself; that a callback's message pointer aliases the message buffer,
    which a nested call overwrites (callbacks get the bytes); [poll], which only
    waits; the arming of [pending_timer] (it may fire at any time).  The readers
    of attribute payloads ([blob_get_u32], [blob_get_int8]) are total: a read
    beyond an attribute that is shorter than its type, which [ubus_policy] lets
    pass for two attributes, is not undefined in the model.  The reference count
    of an object type has no upper bound (an [int] in the code, so 2^31 objects of
    one type would overflow it).  In the Lua binding: coroutines ([state] is [L]), metatables of
    arguments, garbage collection, errors that a callback lets escape into the
    library ([undefined]); the [blob_buf] of a connection is a value, since no Lua
    function runs between formatting and sending while the socket is registered
    with [uloop].  Messages are at most 1 MiB, as the build sets
    [UBUS_MAX_MSGLEN].

    [Findings.v] holds runs that show behaviour the code should not have. *)

From stdpp Require Import base gmap strings list fin_maps sorting.
From Stdlib Require Import ZArith Lia.

#[export] Set Default Goal Selector "!".

Declare Scope ubus_scope.
Delimit Scope ubus_scope with ubus.

(** ** Machine integers

    A [w]-bit unsigned integer is a [Z] in [0, 2^w); the conversions C applies
    are written out with these wrap-around functions (LP64: [size_t] has 64
    bits). *)

Definition u8 (z : Z) : Z := z mod 2 ^ 8.
Definition u16 (z : Z) : Z := z mod 2 ^ 16.
Definition u32 (z : Z) : Z := z mod 2 ^ 32.
Definition size_t (z : Z) : Z := z mod 2 ^ 64.
Definition ssize_t (z : Z) : Z := (z + 2 ^ 63) mod 2 ^ 64 - 2 ^ 63.

Lemma u32_small z : (0 <= z < 2 ^ 32)%Z -> u32 z = z.
Proof. apply Z.mod_small. Qed.

Lemma u16_small z : (0 <= z < 2 ^ 16)%Z -> u16 z = z.
Proof. apply Z.mod_small. Qed.

Lemma size_t_small z : (0 <= z < 2 ^ 64)%Z -> size_t z = z.
Proof. apply Z.mod_small. Qed.

Lemma ssize_t_small z : (- 2 ^ 63 <= z < 2 ^ 63)%Z -> ssize_t z = z.
Proof. intros H. unfold ssize_t. rewrite Z.mod_small by lia. lia. Qed.

(** ** Stateful code with undefined behaviour

    [stm S A] is code that runs on a state [S] and either returns an [A] and a
    new state or runs into undefined behaviour ([None]): it dereferences a
    pointer that is not live, or unlinks a node that is not linked. *)

Definition stm (S A : Type) : Type := S -> option (A * S).

#[export] Instance stm_ret S : MRet (stm S) := fun A a s => Some (a, s).
#[export] Instance stm_bind S : MBind (stm S) :=
  fun A B k m s => match m s with Some (a, s') => k a s' | None => None end.

Definition undefined {S A} : stm S A := fun _ => None.
Definition gets {S A} (f : S -> A) : stm S A := fun s => Some (f s, s).
Definition modify {S} (f : S -> S) : stm S unit := fun s => Some (tt, f s).

(** C's [if (c) stmt;] *)
Definition when {S} (c : bool) (m : stm S unit) : stm S unit :=
  if c then m else mret tt.

(** A condition the C code relies on without testing it: an access is in
    bounds. *)
Definition assert {S} (b : bool) : stm S unit := if b then mret tt else undefined.

(** [list_for_each_entry(x, l) body], the [_safe] variant included: the next
    node is read before the body runs, so the loop follows the sequence the
    list had when the loop started. *)
Fixpoint for_each {S A} (l : list A) (body : A -> stm S unit) : stm S unit :=
  match l with
  | [] => mret tt
  | x :: l => body x ;; for_each l body
  end.

(** A loop whose body may leave it ([break], [return r]): [Some r] stops. *)
Fixpoint for_until {S A R} (l : list A) (body : A -> stm S (option R)) : stm S (option R) :=
  match l with
  | [] => mret None
  | x :: l =>
      r ← body x;
      match r with
      | Some _ => mret r
      | None => for_until l body
      end
  end.

(** ** Weakest preconditions

    [wp m Q s]: from [s] the code [m] meets no undefined behaviour and ends in
    a state that satisfies [Q]. *)

Definition wp {S A} (m : stm S A) (Q : A -> S -> Prop) (s : S) : Prop :=
  match m s with Some (a, s') => Q a s' | None => False end.

Section WP.
Context {S A B : Type}.
Implicit Types (s : S).

Lemma wp_eq (m : stm S A) a s' Q s : m s = Some (a, s') -> wp m Q s <-> Q a s'.
Proof. unfold wp. by intros ->. Qed.

Lemma wp_ret (a : A) (Q : A -> S -> Prop) s : Q a s -> wp (mret a) Q s.
Proof. done. Qed.

Lemma wp_bind (m : stm S A) (k : A -> stm S B) Q s :
  wp m (fun a => wp (k a) Q) s -> wp (m ≫= k) Q s.
Proof. unfold wp, mbind, stm_bind. by destruct (m s) as [[]|]. Qed.

Lemma wp_mono (m : stm S A) (Q Q' : A -> S -> Prop) s :
  (forall a s', Q a s' -> Q' a s') -> wp m Q s -> wp m Q' s.
Proof. unfold wp. destruct (m s) as [[]|]; eauto. Qed.

Lemma wp_gets (f : S -> A) (Q : A -> S -> Prop) s : Q (f s) s -> wp (gets f) Q s.
Proof. done. Qed.

Lemma wp_modify (f : S -> S) (Q : unit -> S -> Prop) s : Q tt (f s) -> wp (modify f) Q s.
Proof. done. Qed.

Lemma wp_assert (b : bool) (Q : unit -> S -> Prop) s : b = true -> Q tt s -> wp (assert b) Q s.
Proof. by intros ->. Qed.

Lemma wp_and (m : stm S A) (Q Q' : A -> S -> Prop) s :
  wp m Q s -> wp m Q' s -> wp m (fun a s' => Q a s' /\ Q' a s') s.
Proof. unfold wp. destruct (m s) as [[]|]; eauto. Qed.

Lemma wp_run (m : stm S A) (Q : A -> S -> Prop) s :
  wp m Q s -> exists a s', m s = Some (a, s') /\ Q a s'.
Proof. unfold wp. destruct (m s) as [[a s']|]; [|done]. intros. by exists a, s'. Qed.

Lemma wp_seq {C} (m : stm S A) (f : A -> stm S B) (k : B -> stm S C) Q s :
  wp (m ≫= f) (fun b => wp (k b) Q) s -> wp (m ≫= fun a => f a ≫= k) Q s.
Proof. unfold wp, mbind, stm_bind. destruct (m s) as [[a s']|]; [|done]. by destruct (f a s') as [[]|]. Qed.

End WP.

Section Loops.
Context {S A : Type}.

(** A loop keeps an invariant indexed by the elements still to be visited. *)
Lemma wp_for_each (I : list A -> S -> Prop) (body : A -> stm S unit) l s :
  (forall x l' s', I (x :: l') s' -> wp (body x) (fun _ => I l') s') ->
  I l s -> wp (for_each l body) (fun _ => I []) s.
Proof.
  intros Hbody. revert s. induction l as [|x l IH]; intros s HI; [done|].
  simpl. apply wp_bind. eapply wp_mono; [|by apply Hbody]. intros [] s'. apply IH.
Qed.

Lemma wp_for_until {R} (I : list A -> S -> Prop) (Q : option R -> S -> Prop)
    (body : A -> stm S (option R)) l s :
  (forall x l' s', I (x :: l') s' ->
     wp (body x) (fun r s'' => match r with Some _ => Q r s'' | None => I l' s'' end) s') ->
  (forall s', I [] s' -> Q None s') ->
  I l s -> wp (for_until l body) Q s.
Proof.
  intros Hbody Hend. revert s. induction l as [|x l IH]; intros s HI; [by apply Hend|].
  simpl. apply wp_bind. eapply wp_mono; [|by apply Hbody]. intros [r|] s' H; [done|by apply IH].
Qed.
End Loops.

(** ** Frames

    [preserves π m]: whatever [m] does, it leaves the part [π] of the state
    alone.  The hint database [pres] collects the frame lemmas; [solve_pres]
    walks through the code. *)

Definition preserves {S A X} (π : S -> X) (m : stm S A) : Prop :=
  forall s a s', m s = Some (a, s') -> π s' = π s.

Create HintDb pres discriminated.

Section Preserves.
Context {S X : Type} (π : S -> X).

Lemma pres_ret {A} (a : A) : preserves π (mret (M := stm S) a).
Proof. by intros s b s' [= _ <-]. Qed.

Lemma pres_bind {A B} (m : stm S A) (k : A -> stm S B) :
  preserves π m -> (forall a, preserves π (k a)) -> preserves π (m ≫= k).
Proof.
  intros Hm Hk s b s'. unfold mbind, stm_bind. destruct (m s) as [[a s1]|] eqn:E; [|done].
  intros H. rewrite (Hk a s1 b s' H). by eapply Hm.
Qed.

Lemma pres_undefined {A} : preserves π (undefined (A := A)).
Proof. by intros s a s'. Qed.

Lemma pres_gets {A} (f : S -> A) : preserves π (gets f).
Proof. by intros s a s' [= _ <-]. Qed.

Lemma pres_modify (f : S -> S) : (forall s, π (f s) = π s) -> preserves π (modify f).
Proof. intros H s a s' [= _ <-]. apply H. Qed.

Lemma pres_assert b : preserves π (assert b).
Proof. destruct b; [apply pres_ret|apply pres_undefined]. Qed.

Lemma pres_when b (m : stm S unit) : preserves π m -> preserves π (when b m).
Proof. destruct b; [done|intros _; apply pres_ret]. Qed.

Lemma pres_for_each {A} (l : list A) (body : A -> stm S unit) :
  (forall x, preserves π (body x)) -> preserves π (for_each l body).
Proof. intros H. induction l; [apply pres_ret|]. by apply pres_bind. Qed.

Lemma pres_for_until {A R} (l : list A) (body : A -> stm S (option R)) :
  (forall x, preserves π (body x)) -> preserves π (for_until l body).
Proof. intros H. induction l; [apply pres_ret|]. apply pres_bind; [done|]. intros []; [apply pres_ret|done]. Qed.

Lemma pres_wp {A} (m : stm S A) (Q : A -> S -> Prop) s :
  preserves π m -> wp m Q s -> wp m (fun a s' => Q a s' /\ π s' = π s) s.
Proof. intros Hp. unfold wp. destruct (m s) as [[a s']|] eqn:E; [|done]. intros H. split; [done|]. by eapply Hp. Qed.
End Preserves.

#[export] Hint Resolve pres_ret pres_bind pres_undefined pres_gets pres_modify pres_assert pres_when
  pres_for_each pres_for_until : pres.
#[export] Hint Extern 1 (_ = _) => reflexivity : pres.

Ltac solve_pres :=
  repeat first
    [ progress intros
    | progress (auto with pres nocore)
    | apply pres_bind
    | apply pres_when | apply pres_for_each | apply pres_for_until | apply pres_modify
    | reflexivity
    | match goal with |- preserves _ (match ?x with _ => _ end) => destruct x end ].

(** [wp_go] walks through sequencing and the state accessors, stopping at the
    first call that needs a lemma. *)
Ltac wp_go :=
  repeat first
    [ progress simpl
    | match goal with
      | |- wp (mbind _ _) _ _ => apply wp_bind
      | |- wp (mret _) _ _ => apply wp_ret
      | |- wp (gets _) _ _ => apply wp_gets
      | |- wp (modify _) _ _ => apply wp_modify
      | |- wp (when true _) _ _ => unfold when
      | |- wp (when false _) _ _ => unfold when
      end ].

(** ** Memory

    [splice off bs mem] is [memcpy(mem + off, bs, length bs)]. *)

Definition splice {A} (off : nat) (bs mem : list A) : list A :=
  take off mem ++ bs ++ drop (off + length bs) mem.

Lemma length_splice {A} off (bs mem : list A) :
  off + length bs <= length mem -> length (splice off bs mem) = length mem.
Proof. intros H. unfold splice. rewrite !length_app, length_take, length_drop. lia. Qed.

Lemma splice_append {A} (xs bs ys : list A) :
  splice (length xs) bs (xs ++ ys) = xs ++ bs ++ drop (length bs) ys.
Proof.
  unfold splice. rewrite take_app_length. f_equal. f_equal.
  rewrite drop_app_ge by lia. f_equal. lia.
Qed.

(** Is the access in bounds? *)
Definition fits {A} (off : Z) (bs mem : list A) : bool :=
  (0 <=? off)%Z && (off + Z.of_nat (length bs) <=? Z.of_nat (length mem))%Z.

Lemma fits_spec {A} off (bs mem : list A) :
  fits off bs mem = true <-> (0 <= off /\ off + Z.of_nat (length bs) <= Z.of_nat (length mem))%Z.
Proof. unfold fits. rewrite andb_true_iff, !Z.leb_le. done. Qed.

(** ** Options *)

Definition has {A} (o : option A) : bool := match o with Some _ => true | None => false end.

Lemma has_Some {A} (o : option A) : has o = true -> is_Some o.
Proof. destruct o; [eauto|done]. Qed.

(** ** Lists of nodes

    [list_del(&x->list)] on the sequence of nodes: a node occurs once. *)

Definition list_del (x : positive) (l : list positive) : list positive :=
  filter (fun y => y <> x) l.

Lemma elem_of_list_del x y l : y ∈ list_del x l <-> y ∈ l /\ y <> x.
Proof. unfold list_del. rewrite list_elem_of_filter. tauto. Qed.

Lemma NoDup_list_del x l : NoDup l -> NoDup (list_del x l).
Proof. apply NoDup_filter. Qed.

Lemma list_del_notin x l : x ∉ l -> list_del x l = l.
Proof.
  induction l as [|y l IH]; [done|]. intros [Hne Hl]%not_elem_of_cons. unfold list_del in *.
  rewrite filter_cons_True by congruence. by rewrite IH.
Qed.

Lemma list_del_head x l : NoDup (x :: l) -> list_del x (x :: l) = l.
Proof.
  intros [Hx _]%NoDup_cons. unfold list_del. rewrite filter_cons_False by tauto.
  by apply list_del_notin.
Qed.

Lemma StronglySorted_impl {A} (R R' : A -> A -> Prop) l :
  (forall x y, R x y -> R' x y) -> StronglySorted R l -> StronglySorted R' l.
Proof.
  intros HR. induction 1 as [|x l Hl IH Hx]; constructor; [done|].
  eapply Forall_impl; [exact Hx|]. apply HR.
Qed.

(** ** Record update

    [r <| f := v |>] is C's [r.f = v], [r <| f ::= g |>] applies [g] to the
    field.  A record type declares its eta-expansion once ([Eta]); the setter
    of a field is that expansion with the field's projection replaced. *)

Class Eta (R : Type) := eta : R -> R.

Class Field {R T : Type} (proj : R -> T) := { upd_field : (T -> T) -> R -> R }.
Arguments upd_field {R T} proj {_} _ _ /.

Ltac derive_field :=
  match goal with
  | |- @Field ?R ?T ?proj =>
      let e := constr:(_ : Eta R) in
      let e := eval hnf in e in
      let e := eval pattern proj in e in
      lazymatch e with
      | ?F proj =>
          lazymatch F with (fun _ => ?b) => fail "the field does not occur" | _ => idtac end;
          let t := eval cbv beta in (fun (g : T -> T) (r : R) => F (fun r' => g (proj r')) r) in
          exact {| upd_field := t |}
      end
  end.

#[export] Hint Extern 0 (Field _) => derive_field : typeclass_instances.

Notation "r <| f ::= g |>" := (upd_field f g r)
  (at level 10, f at level 9, g at level 200, left associativity,
   format "r  <|  f  ::=  g  |>") : ubus_scope.
Notation "r <| f := v |>" := (upd_field f (fun _ => v) r)
  (at level 10, f at level 9, v at level 200, left associativity,
   format "r  <|  f  :=  v  |>") : ubus_scope.
