(* ===== verification/Wire.v ===== *)
(** * The wire protocol: [ubusmsg.h] and the header codec

    The enumerations of [src/ubusmsg.h], the message header
    [struct ubus_msghdr] and its big-endian encoding, as [ubus_msg_writev]
    ([src/ubusd.c]) sends it and [client_cb] ([src/ubusd_main.c]) reads it. *)

From stdpp Require Import base strings list.
From Stdlib Require Import ZArith Lia.
From S2P Require Import Prelude.
Local Open Scope Z_scope.

(** Bytes are [Z]s; the encoders below only produce values in [0, 256). *)
Abbreviation bytes := (list Z).

(** ** Enumerations *)

Inductive ubus_msg_type :=
  | UBUS_MSG_HELLO | UBUS_MSG_STATUS | UBUS_MSG_DATA | UBUS_MSG_PING
  | UBUS_MSG_LOOKUP | UBUS_MSG_INVOKE | UBUS_MSG_ADD_OBJECT | UBUS_MSG_REMOVE_OBJECT
  | UBUS_MSG_SUBSCRIBE | UBUS_MSG_UNSUBSCRIBE | UBUS_MSG_NOTIFY | UBUS_MSG_MONITOR.

Definition all_msg_types : list ubus_msg_type :=
  [UBUS_MSG_HELLO; UBUS_MSG_STATUS; UBUS_MSG_DATA; UBUS_MSG_PING; UBUS_MSG_LOOKUP;
   UBUS_MSG_INVOKE; UBUS_MSG_ADD_OBJECT; UBUS_MSG_REMOVE_OBJECT; UBUS_MSG_SUBSCRIBE;
   UBUS_MSG_UNSUBSCRIBE; UBUS_MSG_NOTIFY; UBUS_MSG_MONITOR].

Definition msg_code (t : ubus_msg_type) : Z :=
  match t with
  | UBUS_MSG_HELLO => 0 | UBUS_MSG_STATUS => 1 | UBUS_MSG_DATA => 2 | UBUS_MSG_PING => 3
  | UBUS_MSG_LOOKUP => 4 | UBUS_MSG_INVOKE => 5 | UBUS_MSG_ADD_OBJECT => 6
  | UBUS_MSG_REMOVE_OBJECT => 7 | UBUS_MSG_SUBSCRIBE => 8 | UBUS_MSG_UNSUBSCRIBE => 9
  | UBUS_MSG_NOTIFY => 10 | UBUS_MSG_MONITOR => 11
  end.
Coercion msg_code : ubus_msg_type >-> Z.

(** [__UBUS_MSG_LAST] *)
Definition UBUS_MSG_LAST : Z := 12.

(** The inverse, for [handlers[hdr.type]]. *)
Definition msg_of_code (z : Z) : option ubus_msg_type :=
  list_find (fun t => msg_code t = z) all_msg_types ≫= fun p => Some (snd p).

Inductive ubus_msg_attr :=
  | UBUS_ATTR_UNSPEC | UBUS_ATTR_STATUS | UBUS_ATTR_OBJPATH | UBUS_ATTR_OBJID
  | UBUS_ATTR_METHOD | UBUS_ATTR_OBJTYPE | UBUS_ATTR_SIGNATURE | UBUS_ATTR_DATA
  | UBUS_ATTR_TARGET | UBUS_ATTR_ACTIVE | UBUS_ATTR_NO_REPLY | UBUS_ATTR_SUBSCRIBERS
  | UBUS_ATTR_USER | UBUS_ATTR_GROUP.

Definition attr_code (a : ubus_msg_attr) : Z :=
  match a with
  | UBUS_ATTR_UNSPEC => 0 | UBUS_ATTR_STATUS => 1 | UBUS_ATTR_OBJPATH => 2
  | UBUS_ATTR_OBJID => 3 | UBUS_ATTR_METHOD => 4 | UBUS_ATTR_OBJTYPE => 5
  | UBUS_ATTR_SIGNATURE => 6 | UBUS_ATTR_DATA => 7 | UBUS_ATTR_TARGET => 8
  | UBUS_ATTR_ACTIVE => 9 | UBUS_ATTR_NO_REPLY => 10 | UBUS_ATTR_SUBSCRIBERS => 11
  | UBUS_ATTR_USER => 12 | UBUS_ATTR_GROUP => 13
  end.
Coercion attr_code : ubus_msg_attr >-> Z.

(** [UBUS_ATTR_MAX] *)
Definition UBUS_ATTR_MAX : Z := 14.

Inductive ubus_monitor_attr :=
  | UBUS_MONITOR_CLIENT | UBUS_MONITOR_PEER | UBUS_MONITOR_SEND | UBUS_MONITOR_SEQ
  | UBUS_MONITOR_TYPE | UBUS_MONITOR_DATA.

Definition monitor_code (a : ubus_monitor_attr) : Z :=
  match a with
  | UBUS_MONITOR_CLIENT => 0 | UBUS_MONITOR_PEER => 1 | UBUS_MONITOR_SEND => 2
  | UBUS_MONITOR_SEQ => 3 | UBUS_MONITOR_TYPE => 4 | UBUS_MONITOR_DATA => 5
  end.
Coercion monitor_code : ubus_monitor_attr >-> Z.

Inductive ubus_msg_status :=
  | UBUS_STATUS_OK | UBUS_STATUS_INVALID_COMMAND | UBUS_STATUS_INVALID_ARGUMENT
  | UBUS_STATUS_METHOD_NOT_FOUND | UBUS_STATUS_NOT_FOUND | UBUS_STATUS_NO_DATA
  | UBUS_STATUS_PERMISSION_DENIED | UBUS_STATUS_TIMEOUT | UBUS_STATUS_NOT_SUPPORTED
  | UBUS_STATUS_UNKNOWN_ERROR | UBUS_STATUS_CONNECTION_FAILED | UBUS_STATUS_NO_MEMORY
  | UBUS_STATUS_PARSE_ERROR | UBUS_STATUS_SYSTEM_ERROR.

Definition status_code (a : ubus_msg_status) : Z :=
  match a with
  | UBUS_STATUS_OK => 0 | UBUS_STATUS_INVALID_COMMAND => 1
  | UBUS_STATUS_INVALID_ARGUMENT => 2 | UBUS_STATUS_METHOD_NOT_FOUND => 3
  | UBUS_STATUS_NOT_FOUND => 4 | UBUS_STATUS_NO_DATA => 5
  | UBUS_STATUS_PERMISSION_DENIED => 6 | UBUS_STATUS_TIMEOUT => 7
  | UBUS_STATUS_NOT_SUPPORTED => 8 | UBUS_STATUS_UNKNOWN_ERROR => 9
  | UBUS_STATUS_CONNECTION_FAILED => 10 | UBUS_STATUS_NO_MEMORY => 11
  | UBUS_STATUS_PARSE_ERROR => 12 | UBUS_STATUS_SYSTEM_ERROR => 13
  end.
Coercion status_code : ubus_msg_status >-> Z.

Lemma status_nonneg (a : ubus_msg_status) : 0 <= a.
Proof. by destruct a. Qed.

Definition UBUS_MSG_CHUNK_SIZE : Z := 65536.
Definition UBUS_CLIENT_ID_CHANNEL : Z := 1.
Definition UBUS_SYSTEM_OBJECT_EVENT : Z := 1.
Definition UBUS_SYSTEM_OBJECT_ACL : Z := 2.
Definition UBUS_SYSTEM_OBJECT_MONITOR : Z := 3.
Definition UBUS_SYSTEM_OBJECT_MAX : Z := 1024.

(** [-DUBUS_MAX_MSGLEN=1048576] of the build *)
Definition UBUS_MAX_MSGLEN : Z := 1048576.

#[export] Instance ubus_msg_type_eq_dec : EqDecision ubus_msg_type.
Proof. solve_decision. Defined.
#[export] Instance ubus_msg_attr_eq_dec : EqDecision ubus_msg_attr.
Proof. solve_decision. Defined.

Lemma msg_of_code_code t : msg_of_code (msg_code t) = Some t.
Proof. by destruct t. Qed.

Lemma msg_code_of_code z t : msg_of_code z = Some t -> msg_code t = z.
Proof.
  unfold msg_of_code. destruct (list_find _ _) as [[i t']|] eqn:E; [|done].
  apply list_find_Some in E as (_ & Hz & _). cbn. by intros [= <-].
Qed.

(** ** The message header *)

Record ubus_msghdr := mk_msghdr {
  hdr_version : Z;
  hdr_type : Z;
  hdr_seq : Z;
  hdr_peer : Z;
}.

Definition sizeof_msghdr : Z := 8.
Definition sizeof_blob_attr : Z := 4.

(** [calloc]ed *)
Definition msghdr_zero : ubus_msghdr := mk_msghdr 0 0 0 0.

Definition be16 (z : Z) : bytes := [u8 (z / 2 ^ 8); u8 z].
Definition be32 (z : Z) : bytes := [u8 (z / 2 ^ 24); u8 (z / 2 ^ 16); u8 (z / 2 ^ 8); u8 z].

Definition of_be16 (bs : bytes) : Z :=
  match bs with [a; b] => a * 2 ^ 8 + b | _ => 0 end.
Definition of_be32 (bs : bytes) : Z :=
  match bs with [a; b; c; d] => a * 2 ^ 24 + b * 2 ^ 16 + c * 2 ^ 8 + d | _ => 0 end.

(** The header as [ubus_msg_writev] puts it on the wire: [cpu_to_be16(seq)],
    [cpu_to_be32(peer)]. *)
Definition encode_hdr (h : ubus_msghdr) : bytes :=
  [u8 (hdr_version h); u8 (hdr_type h)] ++ be16 (hdr_seq h) ++ be32 (hdr_peer h).

(** The header as [client_cb] takes it from the first eight bytes received. *)
Definition decode_hdr (bs : bytes) : ubus_msghdr :=
  mk_msghdr (nth 0 bs 0) (nth 1 bs 0) (of_be16 (take 2 (drop 2 bs))) (of_be32 (take 4 (drop 4 bs))).

Definition hdr_in_range (h : ubus_msghdr) : Prop :=
  0 <= hdr_version h < 2 ^ 8 /\ 0 <= hdr_type h < 2 ^ 8 /\
  0 <= hdr_seq h < 2 ^ 16 /\ 0 <= hdr_peer h < 2 ^ 32.

Lemma length_be32 z : length (be32 z) = 4%nat.
Proof. done. Qed.

Lemma length_encode_hdr h : Z.of_nat (length (encode_hdr h)) = sizeof_msghdr.
Proof. done. Qed.

Lemma of_be16_be16 z : of_be16 (be16 z) = u16 z.
Proof.
  unfold of_be16, be16, u8, u16. change (2 ^ 16) with (2 ^ 8 * 2 ^ 8).
  rewrite Z.rem_mul_r by lia. lia.
Qed.

Lemma of_be32_be32 z : of_be32 (be32 z) = u32 z.
Proof.
  unfold of_be32, be32, u8, u32.
  change (2 ^ 32) with (2 ^ 8 * (2 ^ 8 * (2 ^ 8 * 2 ^ 8))).
  change (2 ^ 24) with (2 ^ 8 * 2 ^ 8 * 2 ^ 8). change (2 ^ 16) with (2 ^ 8 * 2 ^ 8).
  rewrite !Z.rem_mul_r by lia. rewrite <- !Z.div_div by lia. lia.
Qed.

(** Bytes received from the network are octets. *)
Definition octets (bs : bytes) : Prop := Forall (fun b => 0 <= b < 2 ^ 8) bs.

Lemma octets_encode_hdr h : octets (encode_hdr h).
Proof.
  unfold octets, encode_hdr, be16, be32, u8.
  repeat constructor; apply Z.mod_pos_bound; lia.
Qed.
