(* ===== verification/Cstring.v ===== *)
(** * C strings and the sorted pattern scan

    C strings are Rocq strings: they hold no NUL, and the end of the string is
    the NUL terminator.  This file has the libc functions the sources use
    ([strcmp], [strlen], [strncmp], [atoi], [getopt]), [ubus_strmatch_len] of
    [src/ubus_common.h], and the theory of the scan that [ubusd_acl_check],
    [ubusd_send_event] and [ubusd_reply_add] run over a string-sorted tree. *)

From stdpp Require Import base strings list sets sorting.
From Stdlib Require Import ZArith Lia Ascii.
From S2P Require Import Prelude.
Local Open Scope Z_scope.

(** ** libc *)

Definition char_code (c : ascii) : Z := Z.of_N (N_of_ascii c).

(** [strcmp]: the C standard fixes the sign of the result only. *)
Fixpoint strcmp (s1 s2 : string) : Z :=
  match s1, s2 with
  | EmptyString, EmptyString => 0
  | EmptyString, String _ _ => -1
  | String _ _, EmptyString => 1
  | String c1 s1, String c2 s2 =>
      if decide (c1 = c2) then strcmp s1 s2 else char_code c1 - char_code c2
  end.

Definition strlen (s : string) : Z := Z.of_nat (String.length s).

(** [!strncmp(p, s, strlen(p))] *)
Definition starts_with (p s : string) : bool := String.prefix p s.

(** The last character and the string without it ([s[len - 1]], and
    [s[len - 1] = 0]). *)
Fixpoint split_last (s : string) : option (string * ascii) :=
  match s with
  | EmptyString => None
  | String c s' =>
      match split_last s' with
      | None => Some (EmptyString, c)
      | Some (r, d) => Some (String c r, d)
      end
  end.

Definition star : ascii := "*"%char.

(** ** [ubus_strmatch_len]

    [(true, len)] when the strings are equal, [(false, len)] otherwise; [len]
    counts the equal leading characters. *)
Fixpoint ubus_strmatch_len (s1 s2 : string) : bool * Z :=
  match s1, s2 with
  | EmptyString, EmptyString => (true, 0)
  | String c1 s1, String c2 s2 =>
      if decide (c1 = c2) then let '(m, len) := ubus_strmatch_len s1 s2 in (m, len + 1)
      else (false, 0)
  | _, _ => (false, 0)
  end.

(** ** The order of [strcmp] *)

Lemma char_code_inj c d : char_code c = char_code d -> c = d.
Proof.
  unfold char_code. intros H%N2Z.inj. rewrite <- (ascii_N_embedding c), <- (ascii_N_embedding d).
  by rewrite H.
Qed.

Lemma strcmp_eq s1 s2 : strcmp s1 s2 = 0 <-> s1 = s2.
Proof.
  split; [|intros ->; induction s2; simpl; by rewrite ?decide_True].
  revert s2. induction s1 as [|c s1 IH]; intros [|d s2]; simpl; try done.
  case_decide as E; [subst; intros; f_equal; auto|].
  intros H. destruct E. apply char_code_inj. lia.
Qed.

Lemma strcmp_opp s1 s2 : strcmp s1 s2 < 0 <-> 0 < strcmp s2 s1.
Proof.
  revert s2. induction s1 as [|c s1 IH]; intros [|d s2]; simpl; try lia.
  repeat case_decide; try congruence; [apply IH|lia].
Qed.

Lemma strcmp_trans s1 s2 s3 : strcmp s1 s2 <= 0 -> strcmp s2 s3 <= 0 -> strcmp s1 s3 <= 0.
Proof.
  revert s2 s3. induction s1 as [|c s1 IH]; intros [|d s2] [|e s3]; simpl; try lia.
  repeat case_decide; subst; try congruence; try lia; [by apply IH|].
  intros. assert (d = e); [apply char_code_inj; lia|congruence].
Qed.

(** ** Longest common prefixes *)

Definition match_len (s1 s2 : string) : Z := (ubus_strmatch_len s1 s2).2.

Lemma strmatch_len_eq s1 s2 : (ubus_strmatch_len s1 s2).1 = true <-> s1 = s2.
Proof.
  revert s2. induction s1 as [|c s1 IH]; intros [|d s2]; simpl; try done.
  case_decide; [|simpl; split; congruence]. subst.
  specialize (IH s2). destruct (ubus_strmatch_len s1 s2); simpl in *. rewrite IH.
  split; congruence.
Qed.

Lemma match_len_cons c d s1 s2 :
  match_len (String c s1) (String d s2) = if decide (c = d) then match_len s1 s2 + 1 else 0.
Proof. unfold match_len. simpl. case_decide; [|done]. by destruct (ubus_strmatch_len s1 s2). Qed.

Lemma match_len_nonneg s1 s2 : 0 <= match_len s1 s2.
Proof.
  revert s2. induction s1 as [|c s1 IH]; intros [|d s2]; try done.
  rewrite match_len_cons. case_decide; [specialize (IH s2); lia|done].
Qed.

(** [len == strlen(s2)] is the test the scans use for "[s2] is a prefix". *)
Lemma match_len_prefix s1 s2 : match_len s1 s2 = strlen s2 <-> starts_with s2 s1 = true.
Proof.
  unfold starts_with, strlen.
  revert s1. induction s2 as [|d s2 IH]; intros [|c s1]; try done.
  rewrite match_len_cons. simpl.
  destruct (Ascii.ascii_dec d c) as [->|Hn]; repeat case_decide; try congruence.
  - rewrite <- IH. lia.
  - split; [lia|done].
Qed.

Lemma prefix_refl s : starts_with s s = true.
Proof.
  unfold starts_with. induction s as [|c s IH]; [done|]. simpl. by destruct (Ascii.ascii_dec c c).
Qed.

Lemma prefix_le p s : starts_with p s = true -> strcmp p s <= 0.
Proof.
  unfold starts_with. revert s. induction p as [|c p IH]; intros [|d s]; simpl; try done; try lia.
  destruct (Ascii.ascii_dec c d); [|done]. subst. rewrite decide_True by done. apply IH.
Qed.

(** Below the searched string, the common prefix grows with the key. *)
Lemma match_len_mono s k k' :
  strcmp k k' <= 0 -> strcmp k' s <= 0 -> match_len s k <= match_len s k'.
Proof.
  revert k k'. induction s as [|c s IH]; intros k k'.
  - destruct k', k; simpl; done || lia.
  - destruct k as [|d k]; [intros; apply match_len_nonneg|].
    destruct k' as [|e k']; [simpl; lia|]. rewrite !match_len_cons. simpl.
    intros H1 H2. pose proof (match_len_nonneg s k'). specialize (IH k k').
    repeat case_decide; subst; try congruence; try lia.
    destruct H3. apply char_code_inj. lia.
Qed.

(** ** The scan

    [scan] lists the entries whose body the loop of the sources reaches, in
    order: it stops at the first entry whose match is shorter than the one
    before, and skips entries that neither match fully nor are partial patterns
    that prefix [s]. *)

Section Scan.
Context {A : Type} (partial : A -> bool).

Fixpoint scan (s : string) (cur_max : Z) (l : list (string * A)) : list (string * A) :=
  match l with
  | [] => []
  | (key, a) :: l =>
      let '(full_match, cur_match_len) := ubus_strmatch_len s key in
      if cur_match_len <? cur_max then []
      else if negb full_match && (negb (partial a) || negb (cur_match_len =? strlen key))
      then scan s cur_match_len l
      else (key, a) :: scan s cur_match_len l
  end.

(** The reference: a full pattern matches itself, a partial one ([foo*], stored
    without the star) everything it prefixes. *)
Definition pattern_matches (s : string) (e : string * A) : bool :=
  bool_decide (e.1 = s) || (partial e.2 && starts_with e.1 s).

Definition key_sorted (l : list (string * A)) : Prop :=
  StronglySorted (fun e e' => strcmp e.1 e'.1 <= 0) l.

Lemma pattern_matches_le s e : pattern_matches s e = true -> strcmp e.1 s <= 0.
Proof.
  unfold pattern_matches. intros [H%bool_decide_eq_true|[_ H]%andb_prop]%orb_prop.
  - apply strcmp_eq in H. lia.
  - by apply prefix_le.
Qed.

(** What the loop body tests is [pattern_matches]. *)
Lemma scan_test s key a :
  negb (ubus_strmatch_len s key).1 &&
    (negb (partial a) || negb ((ubus_strmatch_len s key).2 =? strlen key))
  = negb (pattern_matches s (key, a)).
Proof.
  unfold pattern_matches. simpl.
  destruct (ubus_strmatch_len s key).1 eqn:Ef; simpl.
  - apply strmatch_len_eq in Ef as ->. by rewrite bool_decide_true.
  - rewrite bool_decide_false; [|intros ->; by rewrite (proj2 (strmatch_len_eq _ _)) in Ef].
    simpl. rewrite negb_andb. f_equal. f_equal. apply eq_bool_prop_intro.
    rewrite !Is_true_true, Z.eqb_eq. apply match_len_prefix.
Qed.

Lemma scan_cons s m key a l :
  scan s m ((key, a) :: l) =
    if match_len s key <? m then []
    else if pattern_matches s (key, a) then (key, a) :: scan s (match_len s key) l
    else scan s (match_len s key) l.
Proof.
  simpl. pose proof (scan_test s key a) as Ht. unfold match_len.
  destruct (ubus_strmatch_len s key) as [f n]. simpl in *. rewrite Ht.
  case_match; [done|]. by destruct (pattern_matches s (key, a)).
Qed.

Lemma filter_above s l :
  Forall (fun e => ~ strcmp e.1 s <= 0) l -> filter (fun e => pattern_matches s e = true) l = [].
Proof.
  induction 1 as [|e l He _ IH]; [done|]. rewrite filter_cons_False; [done|].
  intros H. by apply He, pattern_matches_le.
Qed.

Lemma scan_filter_from s m l :
  key_sorted l ->
  (forall e, e ∈ l -> strcmp e.1 s <= 0 -> m <= match_len s e.1) ->
  scan s m l = filter (fun e => pattern_matches s e = true) l.
Proof.
  unfold key_sorted.
  revert m. induction l as [|[key a] l IH]; intros m Hs Hm; [done|].
  apply StronglySorted_inv in Hs as [Hs Hall]. rewrite scan_cons.
  destruct (Z.ltb_spec (match_len s key) m) as [Hlt|Hge].
  - symmetry. apply filter_above. assert (~ strcmp key s <= 0) as Hgt.
    { intros H. assert (m <= match_len s key) by (apply (Hm (key, a)); [set_solver|done]). simpl in *. lia. }
    apply Forall_cons. split; [done|]. eapply Forall_impl; [exact Hall|].
    intros e He Hes. exact (Hgt (strcmp_trans _ _ _ He Hes)).
  - assert (scan s (match_len s key) l = filter (fun e => pattern_matches s e = true) l) as ->.
    { apply IH; [done|]. intros e He Hes. rewrite Forall_forall in Hall.
      apply match_len_mono; [|done]. by apply (Hall e). }
    destruct (pattern_matches s (key, a)) eqn:E.
    + by rewrite filter_cons_True.
    + by rewrite filter_cons_False by congruence.
Qed.

(** Started with [match_len = 0] on a sorted sequence, the early exit loses
    nothing. *)
Lemma scan_filter s l :
  key_sorted l -> scan s 0 l = filter (fun e => pattern_matches s e = true) l.
Proof.
  intros Hs. apply scan_filter_from; [exact Hs|]. intros. apply match_len_nonneg.
Qed.
End Scan.

(** ** Numbers and options

    [atoi], and [getopt] as POSIX describes it (options end at the first argument
    that is none); its messages on [stderr] are left out. *)

Local Open Scope string_scope.
Local Open Scope Z_scope.

(** *** Numbers *)

Definition is_space (c : ascii) : bool := ((9 <=? char_code c) && (char_code c <=? 13)) || (char_code c =? 32).
Definition is_digit (c : ascii) : bool := (48 <=? char_code c) && (char_code c <=? 57).

Fixpoint atoi_digits (s : string) (n : Z) : Z :=
  match s with
  | String c s => if is_digit c then atoi_digits s (10 * n + (char_code c - 48)) else n
  | EmptyString => n
  end.

(** The value need not fit an [int]; then [atoi] is undefined, which is for the
    caller to check. *)
Fixpoint atoi (s : string) : Z :=
  match s with
  | EmptyString => 0
  | String c s' =>
      if is_space c then atoi s'
      else if char_code c =? 45 then - atoi_digits s' 0
      else if char_code c =? 43 then atoi_digits s' 0
      else atoi_digits s 0
  end.

(** *** Options *)

(** A result of [getopt] before the last, which is -1: an option with [optarg],
    or '?' *)
Inductive getopt_result := Option (c : ascii) (optarg : string) | BadOption.

(** Is [c] an option, and does it take an argument? *)
Fixpoint opt_kind (optstring : string) (c : ascii) : option bool :=
  match optstring with
  | EmptyString => None
  | String o rest =>
      if bool_decide (o = c /\ c <> ":"%char) then Some (starts_with ":" rest)
      else opt_kind rest c
  end.

(** One word after its dash; with the option whose argument is the next word *)
Fixpoint opt_word (optstring w : string) : list getopt_result * option ascii :=
  match w with
  | EmptyString => ([], None)
  | String c w =>
      match opt_kind optstring c, w with
      | Some true, EmptyString => ([], Some c)
      | Some true, _ => ([Option c w], None)
      | Some false, _ => let '(l, missing) := opt_word optstring w in (Option c EmptyString :: l, missing)
      | None, _ => let '(l, missing) := opt_word optstring w in (BadOption :: l, missing)
      end
  end.

(** All results, and the arguments from [optind] on *)
Fixpoint getopt (optstring : string) (argv : list string) : list getopt_result * list string :=
  match argv with
  | [] => ([], [])
  | w :: rest =>
      match w with
      | String "-" (String c w') =>
          if bool_decide (w = "--") then ([], rest)
          else
            let '(l, missing) := opt_word optstring (String c w') in
            match missing, rest with
            | None, _ => let '(l', args) := getopt optstring rest in ((l ++ l')%list, args)
            | Some o, a :: rest => let '(l', args) := getopt optstring rest in ((l ++ Option o a :: l')%list, args)
            | Some _, [] => ((l ++ [BadOption])%list, [])
            end
      | _ => ([], argv)
      end
  end.

(** A word that is no option *)
Definition plain_word (w : string) : bool :=
  match w with String "-" (String _ _) => false | _ => true end.

Lemma getopt_plain optstring w rest : plain_word w = true -> getopt optstring (w :: rest) = ([], w :: rest).
Proof. intros Hw. by destruct w as [|[[] [] [] [] [] [] [] []] [|c w]]. Qed.
