(* ===== verification/Libubox.v ===== *)
(** * The interface to libubox

    libubox is not part of the repository: its AVL trees and its blob buffers
    are parameters of the model.  [AvlLib] and [BlobLib] are the operations the
    sources call; [AvlLaws] and [BlobLaws] state the documented behaviour the
    theorems rely on.  [LibuboxModel.v] has an instance of both.

    An AVL tree is intrusive in C; here it holds a pointer per key.  Its
    comparator and its [allow_dups] flag are fixed by [avl_init], so they index
    the type.  A blob is the memory a [struct blob_attr *] points to. *)

From stdpp Require Import base strings list sets sorting.
From Stdlib Require Import ZArith Lia Ascii.
From S2P Require Import Prelude Wire Cstring.
Local Open Scope Z_scope.

(** ** Comparators *)

(** What a comparator has to satisfy for a tree to be usable with it. *)
Class CmpOrder {K : Type} (cmp : K -> K -> Z) : Prop := {
  cmp_eq : forall x y, cmp x y = 0 <-> x = y;
  cmp_opp : forall x y, cmp x y < 0 <-> 0 < cmp y x;
  cmp_trans : forall x y z, cmp x y <= 0 -> cmp y z <= 0 -> cmp x z <= 0;
}.

#[export] Instance strcmp_order : CmpOrder strcmp.
Proof. split; [apply strcmp_eq|apply strcmp_opp|apply strcmp_trans]. Qed.

(** ** AVL trees ([libubox/avl.h]) and versioned lists ([libubox/vlist.h]) *)

Class AvlLib := {
  avl_tree : forall {K : Type}, (K -> K -> Z) -> bool -> Type -> Type;
  (** [avl_init(tree, cmp, allow_dups, NULL)] *)
  avl_init : forall {K} (cmp : K -> K -> Z) (dup : bool) (V : Type), avl_tree cmp dup V;
  (** [avl_for_each_element]: the elements in order *)
  avl_list : forall {K} {cmp : K -> K -> Z} {dup V}, avl_tree cmp dup V -> list (K * V);
  avl_find : forall {K} {cmp : K -> K -> Z} {dup V}, avl_tree cmp dup V -> K -> option V;
  (** [avl_find_greaterequal] *)
  avl_find_ge : forall {K} {cmp : K -> K -> Z} {dup V}, avl_tree cmp dup V -> K -> option V;
  (** 0 on success, -1 when the key is taken and duplicates are not allowed *)
  avl_insert : forall {K} {cmp : K -> K -> Z} {dup V},
    avl_tree cmp dup V -> K -> V -> Z * avl_tree cmp dup V;
  (** unlinks the node of that key and pointer *)
  avl_delete : forall {K} {cmp : K -> K -> Z} {dup V} `{!EqDecision V},
    avl_tree cmp dup V -> K -> V -> avl_tree cmp dup V;
  (** [VLIST_TREE(tree, avl_strcmp, cb, false, false)]: an AVL tree of nodes
      with versions, keyed by strings *)
  vlist_tree : Type -> Type;
  vlist_init : forall (V : Type), vlist_tree V;
  (** the nodes with their keys: is the version the tree's? *)
  vlist_nodes : forall {V}, vlist_tree V -> list (string * V * bool);
  (** starts a new version *)
  vlist_update : forall {V}, vlist_tree V -> vlist_tree V;
  (** links a node, in place of one with the same key; the callback is then
      called with the node and the one replaced *)
  vlist_add : forall {V}, vlist_tree V -> string -> V -> option V * vlist_tree V;
  (** unlinks the nodes of older versions and calls the callback for each *)
  vlist_flush : forall {V}, vlist_tree V -> list V * vlist_tree V;
}.

Class AvlLaws (AL : AvlLib) : Prop := {
  avl_list_init : forall K (cmp : K -> K -> Z) dup V, avl_list (avl_init cmp dup V) = [];
  avl_list_sorted : forall K (cmp : K -> K -> Z) dup V (t : avl_tree cmp dup V),
    CmpOrder cmp -> StronglySorted (fun e e' => cmp e.1 e'.1 <= 0) (avl_list t);
  avl_list_strict : forall K (cmp : K -> K -> Z) V (t : avl_tree cmp false V),
    CmpOrder cmp -> StronglySorted (fun e e' => cmp e.1 e'.1 < 0) (avl_list t);
  avl_find_spec : forall K (cmp : K -> K -> Z) dup V (t : avl_tree cmp dup V) k,
    CmpOrder cmp -> avl_find t k = snd <$> List.find (fun e => cmp e.1 k =? 0) (avl_list t);
  avl_find_ge_spec : forall K (cmp : K -> K -> Z) dup V (t : avl_tree cmp dup V) k,
    CmpOrder cmp -> avl_find_ge t k = snd <$> List.find (fun e => 0 <=? cmp e.1 k) (avl_list t);
  avl_insert_taken : forall K (cmp : K -> K -> Z) V (t : avl_tree cmp false V) k v,
    CmpOrder cmp -> k ∈ (avl_list t).*1 -> avl_insert t k v = (-1, t);
  avl_insert_ok : forall K (cmp : K -> K -> Z) dup V (t : avl_tree cmp dup V) k v,
    CmpOrder cmp -> dup = true \/ k ∉ (avl_list t).*1 ->
    exists t' l1 l2, avl_insert t k v = (0, t') /\
      avl_list t = l1 ++ l2 /\ avl_list t' = l1 ++ (k, v) :: l2;
  avl_delete_spec : forall K (cmp : K -> K -> Z) dup V `(!EqDecision V) (t : avl_tree cmp dup V) k v l1 l2,
    CmpOrder cmp -> avl_list t = l1 ++ (k, v) :: l2 -> (k, v) ∉ l1 ++ l2 ->
    avl_list (avl_delete t k v) = l1 ++ l2;
  vlist_nodes_init : forall V, vlist_nodes (vlist_init V) = [];
  vlist_update_spec : forall V (t : vlist_tree V),
    vlist_nodes (vlist_update t) = (fun e => (e.1, false)) <$> vlist_nodes t;
  vlist_add_new : forall V (t : vlist_tree V) k v,
    k ∉ (vlist_nodes t).*1.*1 ->
    exists t', vlist_add t k v = (None, t') /\ vlist_nodes t' ≡ₚ (k, v, true) :: vlist_nodes t;
  vlist_add_old : forall V (t : vlist_tree V) k v old b l,
    vlist_nodes t ≡ₚ (k, old, b) :: l -> k ∉ l.*1.*1 ->
    exists t', vlist_add t k v = (Some old, t') /\ vlist_nodes t' ≡ₚ (k, v, true) :: l;
  vlist_flush_spec : forall V (t : vlist_tree V),
    exists t', vlist_flush t = ((filter (fun e => e.2 = false) (vlist_nodes t)).*1.*2, t') /\
      vlist_nodes t' = filter (fun e => e.2 = true) (vlist_nodes t);
}.

(** ** Consequences for trees without duplicates *)

Section AvlFacts.
Context `{AL : AvlLib} `{!AvlLaws AL}.
Context {K : Type} {cmp : K -> K -> Z} `{!CmpOrder cmp} {V : Type}.
Implicit Types (t : avl_tree cmp false V).

Lemma cmp_refl (k : K) : cmp k k = 0.
Proof. by apply cmp_eq. Qed.

Lemma avl_keys_NoDup t : NoDup (avl_list t).*1.
Proof.
  pose proof (avl_list_strict _ _ _ t _) as Hs. induction Hs as [|e l Hs IH Hall]; [constructor|].
  cbn. constructor; [|done]. rewrite list_elem_of_fmap. intros (e' & Hk & He').
  rewrite Forall_forall in Hall. specialize (Hall e' He'). rewrite Hk, cmp_refl in Hall. lia.
Qed.

Lemma avl_elem_unique t k v v' : (k, v) ∈ avl_list t -> (k, v') ∈ avl_list t -> v = v'.
Proof.
  pose proof (avl_keys_NoDup t) as Hnd. induction (avl_list t) as [|[k0 v0] l IH]; [set_solver|].
  cbn in Hnd. apply NoDup_cons in Hnd as [Hni Hnd].
  assert (forall w, (k0, w) ∉ l) by (intros w Hw; apply Hni; apply list_elem_of_fmap; by exists (k0, w)).
  rewrite !elem_of_cons. naive_solver.
Qed.

Lemma avl_find_Some t k v : avl_find t k = Some v <-> (k, v) ∈ avl_list t.
Proof.
  rewrite (avl_find_spec _ _ _ _ _ _ _). split.
  - intros (e & He & ->)%fmap_Some. apply List.find_some in He as [Hin Hk%Z.eqb_eq%cmp_eq].
    destruct e as [k' v']. simpl in *. subst. by apply list_elem_of_In.
  - intros Hin. destruct (List.find _ _) as [[k' v']|] eqn:E.
    + apply List.find_some in E as [Hin' Hk%Z.eqb_eq%cmp_eq]. simpl in *. subst.
      apply list_elem_of_In in Hin'. by rewrite (avl_elem_unique t k v v').
    + apply list_elem_of_In in Hin. apply (List.find_none _ _ E) in Hin. simpl in Hin.
      by rewrite cmp_refl in Hin.
Qed.

Lemma avl_find_None t k : avl_find t k = None <-> k ∉ (avl_list t).*1.
Proof.
  rewrite eq_None_not_Some. split.
  - intros Hn ([k' v] & -> & Hin)%list_elem_of_fmap. apply Hn. exists v. by apply avl_find_Some.
  - intros Hn [v Hv%avl_find_Some]. apply Hn. apply list_elem_of_fmap. by exists (k, v).
Qed.

(** Insertion either reports a taken key or adds the entry. *)
Lemma avl_insert_cases t k v :
  (exists v', avl_find t k = Some v' /\ avl_insert t k v = (-1, t)) \/
  (avl_find t k = None /\ exists t', avl_insert t k v = (0, t') /\
     avl_list t' ≡ₚ (k, v) :: avl_list t).
Proof.
  destruct (avl_find t k) as [v'|] eqn:E.
  - left. exists v'. split; [done|]. apply (avl_insert_taken _ _ _ _ _ _ _).
    apply avl_find_Some in E. apply list_elem_of_fmap. by exists (k, v').
  - right. split; [done|].
    destruct (avl_insert_ok _ _ _ _ t k v _) as (t' & l1 & l2 & Hi & Hl & Hl').
    { right. by apply avl_find_None. }
    exists t'. split; [done|]. rewrite Hl', Hl. symmetry. apply Permutation_middle.
Qed.

Lemma avl_delete_perm `{!EqDecision V} t k v :
  (k, v) ∈ avl_list t -> avl_list t ≡ₚ (k, v) :: avl_list (avl_delete t k v).
Proof.
  intros (l1 & l2 & Hl)%list_elem_of_split.
  rewrite (avl_delete_spec _ _ _ _ _ t k v l1 l2 _ Hl).
  - rewrite Hl. symmetry. apply Permutation_middle.
  - pose proof (avl_keys_NoDup t) as Hnd. rewrite Hl in Hnd.
    rewrite fmap_app, fmap_cons in Hnd. cbn in Hnd. rewrite <- Permutation_middle in Hnd.
    apply NoDup_cons in Hnd as [Hni _]. intros Hin. apply Hni.
    rewrite <- fmap_app. apply list_elem_of_fmap. by exists (k, v).
Qed.
End AvlFacts.

(** A tree whose nodes are distinct pointers. *)
Lemma avl_delete_perm_dup `{AL : AvlLib} `{!AvlLaws AL} {K : Type} {cmp : K -> K -> Z} {dup}
    `{!CmpOrder cmp} {V} `{!EqDecision V} (t : avl_tree cmp dup V) k v :
  NoDup (avl_list t) -> (k, v) ∈ avl_list t ->
  avl_list t ≡ₚ (k, v) :: avl_list (avl_delete t k v).
Proof.
  intros Hnd (l1 & l2 & Hl)%list_elem_of_split.
  rewrite (avl_delete_spec _ _ _ _ _ t k v l1 l2 _ Hl).
  - rewrite Hl. symmetry. apply Permutation_middle.
  - rewrite Hl, <- Permutation_middle in Hnd. by apply NoDup_cons in Hnd as [].
Qed.

Lemma avl_insert_dup `{AL : AvlLib} `{!AvlLaws AL} {K : Type} {cmp : K -> K -> Z}
    `{!CmpOrder cmp} {V} (t : avl_tree cmp true V) k v :
  exists t', avl_insert t k v = (0, t') /\ avl_list t' ≡ₚ (k, v) :: avl_list t.
Proof.
  destruct (avl_insert_ok _ _ _ _ t k v _ (or_introl eq_refl)) as (t' & l1 & l2 & Hi & Hl & Hl').
  exists t'. split; [done|]. rewrite Hl', Hl. symmetry. apply Permutation_middle.
Qed.

(** ** Blobs ([libubox/blob.h], [libubox/blobmsg.h]) *)

Inductive blob_attr_type :=
  | BLOB_ATTR_UNSPEC | BLOB_ATTR_NESTED | BLOB_ATTR_BINARY | BLOB_ATTR_STRING
  | BLOB_ATTR_INT8 | BLOB_ATTR_INT16 | BLOB_ATTR_INT32 | BLOB_ATTR_INT64.

Inductive blobmsg_type_t :=
  | BLOBMSG_TYPE_UNSPEC | BLOBMSG_TYPE_ARRAY | BLOBMSG_TYPE_TABLE | BLOBMSG_TYPE_STRING
  | BLOBMSG_TYPE_INT64 | BLOBMSG_TYPE_INT32 | BLOBMSG_TYPE_INT16 | BLOBMSG_TYPE_INT8 | BLOBMSG_TYPE_DOUBLE.

#[export] Instance blob_attr_type_eq_dec : EqDecision blob_attr_type.
Proof. solve_decision. Defined.
#[export] Instance blobmsg_type_eq_dec : EqDecision blobmsg_type_t.
Proof. solve_decision. Defined.

(** The calls that append to a [struct blob_buf]: a buffer after
    [blob_buf_init(&b, 0)] is the list of the calls made on it, and a nested
    block ([blob_nest_start] ... [blob_nest_end], [blobmsg_open_table] ...) the
    list of the calls made in between. *)
Inductive put :=
  | put_int32 (id v : Z)
  | put_int8 (id v : Z)
  | put_string (id : Z) (s : string)
  | put_blob (id : Z) (payload : bytes)
  | put_nest (id : Z) (l : list put)
  | msg_u32 (name : string) (v : Z)
  | msg_string (name s : string)
  | msg_field (ty : blobmsg_type_t) (name : string) (payload : bytes)
  | msg_table (name : option string) (l : list put)
  | msg_array (name : string) (l : list put)
  | msg_blob (attr : bytes).

Class BlobLib := {
  blob_raw_len : bytes -> Z;
  blob_pad_len : bytes -> Z;
  (** [blob_data]/[blob_len]: the payload *)
  blob_data : bytes -> bytes;
  (** the payload read as a C string, a [uint32_t], an [int8_t] *)
  blob_string : bytes -> string;
  blob_get_u32 : bytes -> Z;
  blob_get_int8 : bytes -> Z;
  (** the attribute stored at an id of the table that
      [blob_parse_untrusted(attr, len, table, policy, max)] fills *)
  blob_parse_untrusted : (Z -> blob_attr_type) -> Z -> bytes -> Z -> Z -> option bytes;
  blob_for_each_attr : bytes -> list bytes;
  (** [blob_check_type(blob_data(attr), blob_len(attr), type)] *)
  blob_check_type : bytes -> blob_attr_type -> bool;
  blobmsg_check_attr : bytes -> bool -> bool;
  blobmsg_name : bytes -> string;
  blobmsg_type : bytes -> blobmsg_type_t;
  blobmsg_data : bytes -> bytes;
  blobmsg_get_string : bytes -> string;
  blobmsg_get_u32 : bytes -> Z;
  blobmsg_for_each_attr : bytes -> list bytes;
  (** the attribute [blobmsg_parse] stores for one policy entry (name, type) *)
  blobmsg_parse : bytes -> string -> blobmsg_type_t -> option bytes;
  (** [b.head] after the calls *)
  blob_render : list put -> bytes;
}.

Class BlobLaws (BL : BlobLib) : Prop := {
  (** the length is read from the attribute header *)
  blob_raw_len_hdr : forall b b', take 4 b = take 4 b' -> blob_raw_len b = blob_raw_len b';
  (** and has 24 bits *)
  blob_raw_len_bound : forall b, 0 <= blob_raw_len b < 2 ^ 24;
  blob_pad_len_hdr : forall b b', take 4 b = take 4 b' -> blob_pad_len b = blob_pad_len b';
  blob_pad_len_bound : forall b, blob_raw_len b <= blob_pad_len b < blob_raw_len b + 4;
  (** a finished buffer has the length its header says *)
  blob_render_len : forall l, Z.of_nat (length (blob_render l)) = blob_raw_len (blob_render l);
  blob_render_hdr : forall l, sizeof_blob_attr <= blob_raw_len (blob_render l);
  (** the payload of a first [int32] attribute lies at
      [blob_data(blob_data(b.head))] and can be overwritten in place *)
  blob_render_poke : forall id v v' l,
    splice 8 (be32 v') (blob_render (put_int32 id v :: l)) = blob_render (put_int32 id v' :: l);
}.

(** ** Reading back what was put into a buffer *)

(** A string without NUL *)
Fixpoint nul_free (s : string) : bool :=
  match s with EmptyString => true | String c s => negb (char_code c =? 0) && nul_free s end.

(** A string in memory, with its NUL; the string at an address *)
Fixpoint string_bytes (s : string) : bytes :=
  match s with EmptyString => [] | String c s => char_code c :: string_bytes s end.
Definition c_bytes (s : string) : bytes := string_bytes s ++ [0].

Fixpoint bytes_string (bs : bytes) : string :=
  match bs with
  | [] => EmptyString
  | b :: bs => if b =? 0 then EmptyString else String (ascii_of_N (Z.to_N b)) (bytes_string bs)
  end.

Lemma bytes_string_c s : nul_free s = true -> bytes_string (c_bytes s) = s.
Proof.
  unfold c_bytes. induction s as [|c s IH]; [done|]. simpl. intros [Hc Hs]%andb_prop.
  apply negb_true_iff in Hc. rewrite Hc. rewrite (IH Hs). unfold char_code. by rewrite N2Z.id, ascii_N_embedding.
Qed.

(** Plain attributes: their id and the length of their payload *)
Definition put_id (p : put) : option Z :=
  match p with
  | put_int32 id _ | put_int8 id _ | put_string id _ | put_blob id _ => Some id
  | _ => None
  end.
Definition put_len (p : put) : Z :=
  match p with
  | put_int32 _ _ => 4
  | put_int8 _ _ => 1
  | put_string _ s => strlen s + 1
  | put_blob _ payload => Z.of_nat (length payload)
  | _ => 0
  end.

(** Plain attributes with distinct ids of 7 bits that fit one buffer, padded *)
Record puts_ok (l : list put) : Prop := {
  po_ids : Forall (fun p => exists id, put_id p = Some id /\ 0 <= id < 2 ^ 7) l;
  po_distinct : NoDup (omap put_id l);
  po_strings : Forall (fun p => match p with put_string _ s => nul_free s = true | _ => True end) l;
  po_room : foldr (fun p n => put_len p + 7 + n) 4 l < 2 ^ 24;
}.

(** Does the attribute have the type the policy asks for? *)
Definition accepts (t : blob_attr_type) (p : put) : bool :=
  match t, p with
  | BLOB_ATTR_UNSPEC, _ | BLOB_ATTR_NESTED, put_blob _ _ | BLOB_ATTR_INT32, put_int32 _ _ | BLOB_ATTR_INT8, put_int8 _ _
  | BLOB_ATTR_STRING, put_string _ _ => true
  | _, _ => false
  end.

(** What the accessors yield; an [int8] read as a [uint32_t] comes with three
    bytes of padding, which are zero. *)
Definition holds `{BL : BlobLib} (a : bytes) (p : put) : Prop :=
  match p with
  | put_int32 _ v => blob_get_u32 a = u32 v
  | put_int8 _ v => blob_get_u32 a = u8 v * 2 ^ 24
  | put_string _ s => blob_string a = s /\ blobmsg_get_string a = s
  | put_blob _ payload => blob_data a = payload
  | _ => True
  end.

(** [blob_parse_untrusted] of a finished buffer finds its attributes, and no
    others. *)
Class BlobParseLaws (BL : BlobLib) : Prop := {
  blob_parse_found : forall policy max l p id,
    puts_ok l -> p ∈ l -> put_id p = Some id -> id < max -> accepts (policy id) p = true ->
    exists a, blob_parse_untrusted policy max (blob_render l) (blob_raw_len (blob_render l)) id = Some a /\ holds a p;
  blob_parse_absent : forall policy max l id,
    puts_ok l -> id ∉ omap put_id l ->
    blob_parse_untrusted policy max (blob_render l) (blob_raw_len (blob_render l)) id = None;
}.

(** What further accessors yield: [blobmsg_data] of an attribute that is no
    blobmsg is its payload. *)
Definition views `{BL : BlobLib} (a : bytes) (p : put) : Prop :=
  match p with
  | put_int8 _ v => blob_get_int8 a = u8 v
  | put_blob _ payload => blobmsg_data a = payload /\ sizeof_blob_attr <= blob_raw_len a
  | _ => True
  end.

(** What is found is viewed so; and what an attribute is parsed into depends on
    its payload only. *)
Class BlobViewLaws (BL : BlobLib) : Prop := {
  blob_parse_views : forall policy max l p id a,
    puts_ok l -> p ∈ l -> put_id p = Some id -> id < max -> accepts (policy id) p = true ->
    blob_parse_untrusted policy max (blob_render l) (blob_raw_len (blob_render l)) id = Some a -> views a p;
  blob_parse_payload : forall policy max a b id,
    sizeof_blob_attr <= blob_raw_len a -> sizeof_blob_attr <= blob_raw_len b -> blob_data a = blob_data b ->
    blob_parse_untrusted policy max a (blob_raw_len a) id = blob_parse_untrusted policy max b (blob_raw_len b) id;
}.
