(* ===== verification/LibuboxModel.v ===== *)
(** * An instance of the libubox interface

    Sorted association lists for the trees and the byte format of libubox's
    blobs (a big-endian header of an extended bit, a 7-bit id and a 24-bit
    length; payloads padded to four bytes).  The instances show that
    [AvlLaws] and [BlobLaws] can hold, and run the model on concrete inputs. *)

From stdpp Require Import base strings list sets sorting.
From Stdlib Require Import ZArith Lia Ascii.
From S2P Require Import Prelude Wire Cstring Libubox.
Local Open Scope Z_scope.

(** ** Trees as sorted lists *)

Section SortedList.
Context {K : Type} (cmp : K -> K -> Z) (dup : bool) {V : Type}.

Definition entry_ok (e e' : K * V) : bool :=
  if dup then cmp e.1 e'.1 <=? 0 else cmp e.1 e'.1 <? 0.

Fixpoint sortedb (l : list (K * V)) : bool :=
  match l with
  | [] => true
  | e :: l => forallb (entry_ok e) l && sortedb l
  end.

Definition sorted_list : Type := { l : list (K * V) | sortedb l = true }.

Fixpoint insert_entry (k : K) (v : V) (l : list (K * V)) : list (K * V) :=
  match l with
  | [] => [(k, v)]
  | e :: l' => if cmp e.1 k <=? 0 then e :: insert_entry k v l' else (k, v) :: l
  end.

Definition resort (t : sorted_list) (l : list (K * V)) : sorted_list :=
  match bool_dec (sortedb l) true with
  | left H => exist _ l H
  | right _ => t
  end.

Definition sl_insert (t : sorted_list) (k : K) (v : V) : Z * sorted_list :=
  let l := proj1_sig t in
  if negb dup && existsb (fun e => cmp e.1 k =? 0) l then (-1, t)
  else (0, resort t (insert_entry k v l)).

Lemma resort_eq t l : sortedb l = true -> proj1_sig (resort t l) = l.
Proof. unfold resort. destruct (bool_dec _ _); [done|congruence]. Qed.

Lemma sortedb_app l1 l2 :
  sortedb (l1 ++ l2) = true <->
  sortedb l1 = true /\ sortedb l2 = true /\
  (forall e e', e ∈ l1 -> e' ∈ l2 -> entry_ok e e' = true).
Proof.
  induction l1 as [|x l1 IH]; simpl.
  - split; [intros; repeat split; [done|]; set_solver|tauto].
  - rewrite forallb_app, !andb_true_iff, IH, !forallb_forall.
    setoid_rewrite <- list_elem_of_In. setoid_rewrite elem_of_cons. naive_solver.
Qed.

Context `{!CmpOrder cmp}.

Lemma sortedb_strong l :
  sortedb l = true -> StronglySorted (fun e e' => entry_ok e e' = true) l.
Proof.
  induction l as [|x l IH]; simpl; [constructor|].
  intros [Hx Hl]%andb_prop. constructor; [auto|]. apply Forall_forall. intros e He.
  rewrite forallb_forall in Hx. apply Hx. by apply list_elem_of_In.
Qed.

Lemma entry_ok_le e e' : entry_ok e e' = true -> cmp e.1 e'.1 <= 0.
Proof. unfold entry_ok. destruct dup; lia. Qed.

Lemma insert_entry_split k v l :
  (dup = false -> existsb (fun e => cmp e.1 k =? 0) l = false) -> sortedb l = true ->
  exists l1 l2, l = l1 ++ l2 /\ insert_entry k v l = l1 ++ (k, v) :: l2 /\
    (forall e, e ∈ l1 -> entry_ok e (k, v) = true) /\
    (forall e, e ∈ l2 -> entry_ok (k, v) e = true).
Proof.
  unfold entry_ok. induction l as [|x l IH]; simpl; intros Hk Hs.
  - exists [], []. repeat split; set_solver.
  - apply andb_prop in Hs as [Hx Hs].
    assert (dup = false -> cmp x.1 k <> 0) as Hne.
    { intros Hd. specialize (Hk Hd). apply orb_false_elim in Hk as [Hk _]. lia. }
    destruct (Z.leb_spec (cmp x.1 k) 0) as [Hle|Hgt].
    + destruct IH as (l1 & l2 & -> & -> & H1 & H2); [|done|].
      { intros Hd. specialize (Hk Hd). by apply orb_false_elim in Hk as [_ ?]. }
      exists (x :: l1), l2. repeat split; [|done]. intros e [->|He]%elem_of_cons; [|auto].
      simpl. destruct dup; [|specialize (Hne eq_refl)]; lia.
    + exists [], (x :: l). repeat split; [set_solver|].
      rewrite forallb_forall in Hx. assert (cmp k x.1 < 0) by (apply cmp_opp; lia).
      intros e [->|He]%elem_of_cons; simpl; [destruct dup; lia|].
      apply list_elem_of_In, Hx, entry_ok_le in He.
      assert (cmp k e.1 <= 0) by (eapply cmp_trans; [|exact He]; lia).
      assert (cmp k e.1 <> 0).
      { intros Hz%cmp_eq. rewrite Hz in *. lia. }
      destruct dup; lia.
Qed.

Lemma sl_insert_ok (t : sorted_list) k v :
  dup = true \/ k ∉ (proj1_sig t).*1 ->
  exists t' l1 l2, sl_insert t k v = (0, t') /\
    proj1_sig t = l1 ++ l2 /\ proj1_sig t' = l1 ++ (k, v) :: l2.
Proof.
  intros Hk. unfold sl_insert.
  assert (dup = false -> existsb (fun e => cmp e.1 k =? 0) (proj1_sig t) = false) as Hn.
  { intros ->. destruct Hk as [|Hk]; [done|]. apply not_true_is_false.
    intros (e & He & Hz%Z.eqb_eq%cmp_eq)%existsb_exists. apply Hk. rewrite <- Hz.
    by apply list_elem_of_fmap_2, list_elem_of_In. }
  assert (negb dup && existsb (fun e => cmp e.1 k =? 0) (proj1_sig t) = false) as ->.
  { destruct dup; [done|]. by apply Hn. }
  pose proof (proj2_sig t) as Hs. simpl in Hs.
  destruct (insert_entry_split k v _ Hn Hs) as (l1 & l2 & Hl & Hi & H1 & H2).
  exists (resort t (insert_entry k v (proj1_sig t))), l1, l2. repeat split; [done|].
  rewrite resort_eq; [done|]. rewrite Hi. rewrite Hl in Hs. apply sortedb_app in Hs as (Hs1 & Hs2 & Hs12).
  apply sortedb_app. repeat split; [done| |].
  - simpl. rewrite Hs2, andb_true_r. apply forallb_forall. intros e He. apply H2.
    by apply list_elem_of_In.
  - intros e e' He [->|He']%elem_of_cons; auto.
Qed.

Definition sl_delete `{!EqDecision V} (t : sorted_list) (k : K) (v : V) : sorted_list :=
  resort t (List.filter (fun e => negb ((cmp e.1 k =? 0) && bool_decide (e.2 = v))) (proj1_sig t)).

Lemma sortedb_filter f l : sortedb l = true -> sortedb (List.filter f l) = true.
Proof.
  induction l as [|x l IH]; simpl; [done|]. intros [Hx Hl]%andb_prop.
  destruct (f x); simpl; [|auto]. rewrite IH, andb_true_r by done.
  apply forallb_forall. intros e [He _]%List.filter_In. rewrite forallb_forall in Hx. auto.
Qed.

Lemma sl_delete_spec `{!EqDecision V} (t : sorted_list) k v l1 l2 :
  proj1_sig t = l1 ++ (k, v) :: l2 -> (k, v) ∉ l1 ++ l2 ->
  proj1_sig (sl_delete t k v) = l1 ++ l2.
Proof.
  intros Hl Hni. unfold sl_delete. rewrite resort_eq; [|apply sortedb_filter, (proj2_sig t)].
  assert (forall l, (k, v) ∉ l ->
    List.filter (fun e => negb ((cmp e.1 k =? 0) && bool_decide (e.2 = v))) l = l) as Hkeep.
  { induction l as [|[k' v'] l IH]; [done|]. intros [Hx Hn]%not_elem_of_cons. simpl.
    rewrite (IH Hn). case_match eqn:E; [done|].
    apply negb_false_iff, andb_prop in E as [Ek%Z.eqb_eq%cmp_eq Ev%bool_decide_eq_true]. congruence. }
  rewrite not_elem_of_app in Hni. rewrite Hl, List.filter_app. simpl.
  rewrite !Hkeep by tauto. rewrite bool_decide_true by done.
  by rewrite (proj2 (Z.eqb_eq _ _) (proj2 (cmp_eq k k) eq_refl)).
Qed.

Definition sl_init : sorted_list := exist _ [] eq_refl.
End SortedList.

(** ** Versioned lists *)

Section Vlist.
Context {V : Type}.
Implicit Types (l : list (string * V * bool)).

Definition vl_find l (k : string) : option V :=
  snd <$> (fst <$> List.find (fun e => bool_decide (e.1.1 = k)) l).

Definition vl_add l (k : string) (v : V) : option V * list (string * V * bool) :=
  (vl_find l k, (k, v, true) :: filter (fun e => e.1.1 <> k) l).

Lemma vl_absent l k : k ∉ l.*1.*1 -> vl_find l k = None /\ filter (fun e => e.1.1 <> k) l = l.
Proof.
  unfold vl_find. induction l as [|[[k' v'] b] l IH]; [done|]. rewrite !fmap_cons.
  intros [Hne Hl]%not_elem_of_cons. simpl in *. destruct (IH Hl) as [E1 E2].
  rewrite bool_decide_false by congruence. rewrite filter_cons_True by (simpl; congruence). by rewrite E1, E2.
Qed.

Lemma vl_present l k old b l' :
  l ≡ₚ (k, old, b) :: l' -> k ∉ l'.*1.*1 ->
  vl_find l k = Some old /\ filter (fun e => e.1.1 <> k) l ≡ₚ l'.
Proof.
  intros Hl Hk. split.
  - unfold vl_find. destruct (List.find _ l) as [[[k' v'] b']|] eqn:E; simpl.
    + apply List.find_some in E as [Hin Hkk%bool_decide_eq_true]. simpl in Hkk. subst k'.
      apply list_elem_of_In in Hin. rewrite Hl, elem_of_cons in Hin. destruct Hin as [[= <- <-]|Hin]; [done|].
      destruct Hk. apply list_elem_of_fmap. exists (k, v'). split; [done|]. apply list_elem_of_fmap. by exists (k, v', b').
    + assert ((k, old, b) ∈ l) as Hin by (rewrite Hl; by left). apply list_elem_of_In in Hin.
      apply (List.find_none _ _ E) in Hin. simpl in Hin. by rewrite bool_decide_true in Hin.
  - rewrite Hl. rewrite filter_cons_False by (simpl; tauto). by destruct (vl_absent l' k Hk) as [_ ->].
Qed.
End Vlist.

#[export] Instance list_avl : AvlLib := {|
  avl_tree K cmp dup V := sorted_list cmp dup (V := V);
  avl_init K cmp dup V := sl_init cmp dup;
  avl_list K cmp dup V t := proj1_sig t;
  avl_find K cmp dup V t k := snd <$> List.find (fun e => cmp e.1 k =? 0) (proj1_sig t);
  avl_find_ge K cmp dup V t k := snd <$> List.find (fun e => 0 <=? cmp e.1 k) (proj1_sig t);
  avl_insert K cmp dup V t k v := sl_insert cmp dup t k v;
  avl_delete K cmp dup V _ t k v := sl_delete cmp dup t k v;
  vlist_tree V := list (string * V * bool);
  vlist_init V := [];
  vlist_nodes V t := t;
  vlist_update V t := (fun e => (e.1, false)) <$> t;
  vlist_add V t k v := vl_add t k v;
  vlist_flush V t := ((filter (fun e => e.2 = false) t).*1.*2, filter (fun e => e.2 = true) t);
|}.

#[export] Instance list_avl_laws : AvlLaws list_avl.
Proof.
  split; simpl; intros; try done.
  - eapply StronglySorted_impl; [|apply sortedb_strong, (proj2_sig t)]. apply entry_ok_le.
  - eapply StronglySorted_impl; [|apply sortedb_strong, (proj2_sig t)]. unfold entry_ok. lia.
  - unfold sl_insert. simpl. rewrite (proj2 (existsb_exists _ _)); [done|].
    apply list_elem_of_fmap in H0 as (e & -> & He%list_elem_of_In). exists e. split; [done|].
    apply Z.eqb_eq. by apply cmp_eq.
  - by apply sl_insert_ok.
  - by apply sl_delete_spec.
  - unfold vl_add. destruct (vl_absent t k) as [-> ->]; [done|]. by eexists.
  - unfold vl_add. destruct (vl_present t k old b l) as [-> Hl]; [done..|]. eexists. split; [done|]. by rewrite Hl.
  - by eexists.
Qed.


(** ** Blobs as bytes *)

Definition pad4 (n : nat) : nat := ((4 - n mod 4) mod 4)%nat.
Definition padded (bs : bytes) : bytes := bs ++ replicate (pad4 (length bs)) 0.

Definition attr_hdr (ext id len : Z) : bytes := be32 (ext * 2 ^ 31 + id * 2 ^ 24 + len).
Definition mk_attr (ext id : Z) (payload : bytes) : bytes :=
  padded (attr_hdr ext id (4 + Z.of_nat (length payload)) ++ payload).

Definition msg_code_of (t : blobmsg_type_t) : Z :=
  match t with
  | BLOBMSG_TYPE_UNSPEC => 0 | BLOBMSG_TYPE_ARRAY => 1 | BLOBMSG_TYPE_TABLE => 2
  | BLOBMSG_TYPE_STRING => 3 | BLOBMSG_TYPE_INT64 => 4 | BLOBMSG_TYPE_INT32 => 5
  | BLOBMSG_TYPE_INT16 => 6 | BLOBMSG_TYPE_INT8 => 7 | BLOBMSG_TYPE_DOUBLE => 8
  end.
Definition msg_type_of (z : Z) : blobmsg_type_t :=
  nth (Z.to_nat z) [BLOBMSG_TYPE_UNSPEC; BLOBMSG_TYPE_ARRAY; BLOBMSG_TYPE_TABLE; BLOBMSG_TYPE_STRING;
    BLOBMSG_TYPE_INT64; BLOBMSG_TYPE_INT32; BLOBMSG_TYPE_INT16; BLOBMSG_TYPE_INT8; BLOBMSG_TYPE_DOUBLE] BLOBMSG_TYPE_UNSPEC.

Definition mk_msg (t : blobmsg_type_t) (name : string) (payload : bytes) : bytes :=
  mk_attr 1 (msg_code_of t) (padded (be16 (strlen name) ++ c_bytes name) ++ payload).

Fixpoint enc (p : put) : bytes :=
  match p with
  | put_int32 id v => attr_hdr 0 id 8 ++ be32 v
  | put_int8 id v => mk_attr 0 id [u8 v]
  | put_string id s => mk_attr 0 id (c_bytes s)
  | put_blob id payload => mk_attr 0 id payload
  | put_nest id l => mk_attr 0 id (concat (List.map enc l))
  | msg_u32 name v => mk_msg BLOBMSG_TYPE_INT32 name (be32 v)
  | msg_string name s => mk_msg BLOBMSG_TYPE_STRING name (c_bytes s)
  | msg_field ty name payload => mk_msg ty name payload
  | msg_table name l => mk_msg BLOBMSG_TYPE_TABLE (default EmptyString name) (concat (List.map enc l))
  | msg_array name l => mk_msg BLOBMSG_TYPE_ARRAY name (concat (List.map enc l))
  | msg_blob attr => padded attr
  end.

(** Attributes are appended while the buffer stays below 2^24 bytes. *)
Fixpoint append_fitting (len : Z) (l : list put) : bytes :=
  match l with
  | [] => []
  | p :: l =>
      let n := len + Z.of_nat (length (enc p)) in
      if n <? 2 ^ 24 then enc p ++ append_fitting n l else append_fitting len l
  end.

Definition render (l : list put) : bytes :=
  let body := append_fitting 4 l in be32 (4 + Z.of_nat (length body)) ++ body.

Definition hdr_len (b : bytes) : Z := of_be32 (take 4 b) mod 2 ^ 24.
Definition attr_id (b : bytes) : Z := (of_be32 (take 4 b) / 2 ^ 24) mod 2 ^ 7.
Definition payload (b : bytes) : bytes := take (Z.to_nat (hdr_len b) - 4) (drop 4 b).

Fixpoint split_attrs (fuel : nat) (bs : bytes) : list bytes :=
  match fuel with
  | O => []
  | S fuel =>
      let len := Z.to_nat (hdr_len bs) in
      if (length bs <? 4)%nat || (len <? 4)%nat || (length bs <? len)%nat then []
      else take len bs :: split_attrs fuel (drop (len + pad4 len) bs)
  end.
Definition attrs_of (bs : bytes) : list bytes := split_attrs (length bs) bs.

Definition type_ok (t : blob_attr_type) (p : bytes) : bool :=
  match t with
  | BLOB_ATTR_INT8 => (length p =? 1)%nat
  | BLOB_ATTR_INT16 => (length p =? 2)%nat
  | BLOB_ATTR_INT32 => (length p =? 4)%nat
  | BLOB_ATTR_INT64 => (length p =? 8)%nat
  | BLOB_ATTR_STRING => match last p with Some 0 => true | _ => false end
  | _ => true
  end.

Definition parse_untrusted (pol : Z -> blob_attr_type) (max : Z) (msg : bytes) (len id : Z) : option bytes :=
  last (List.filter (fun a => (attr_id a =? id) && (id <? max) && type_ok (pol id) (payload a))
          (attrs_of (payload (take (Z.to_nat len) msg)))).

Definition msg_name (a : bytes) : string :=
  bytes_string (take (Z.to_nat (of_be16 (take 2 (payload a)))) (drop 2 (payload a))).
(** [blobmsg_data]: an attribute without the extended bit has no name. *)
Definition extended (a : bytes) : bool := 2 ^ 31 <=? of_be32 (take 4 a).
Definition msg_payload (a : bytes) : bytes :=
  if extended a then
    let n := (Z.to_nat (of_be16 (take 2 (payload a))) + 3)%nat in drop (n + pad4 n) (payload a)
  else payload a.

#[export] Instance byte_blob : BlobLib := {|
  blob_raw_len := hdr_len;
  blob_pad_len b := hdr_len b + Z.of_nat (pad4 (Z.to_nat (hdr_len b)));
  blob_data := payload;
  blob_string a := bytes_string (payload a);
  blob_get_u32 a := of_be32 (take 4 (payload a ++ [0; 0; 0; 0]));
  blob_get_int8 a := nth 0 (payload a) 0;
  blob_parse_untrusted := parse_untrusted;
  blob_for_each_attr a := attrs_of (payload a);
  blob_check_type a t := type_ok t (payload a);
  blobmsg_check_attr a _ := extended a;
  blobmsg_name := msg_name;
  blobmsg_type a := msg_type_of (attr_id a);
  blobmsg_data := msg_payload;
  blobmsg_get_string a := bytes_string (msg_payload a);
  blobmsg_get_u32 a := of_be32 (take 4 (msg_payload a));
  blobmsg_for_each_attr a := attrs_of (msg_payload a);
  blobmsg_parse data name ty :=
    last (List.filter (fun a => bool_decide (msg_name a = name) && bool_decide (msg_type_of (attr_id a) = ty))
            (attrs_of data));
  blob_render := render;
|}.

Lemma append_fitting_bound len l :
  0 <= len < 2 ^ 24 -> len + Z.of_nat (length (append_fitting len l)) < 2 ^ 24.
Proof.
  revert len. induction l as [|p l IH]; intros len Hlen; cbn -[enc Z.pow Z.add]; [lia|].
  destruct (Z.ltb_spec (len + Z.of_nat (length (enc p))) (2 ^ 24)); [|by apply IH].
  rewrite length_app. specialize (IH (len + Z.of_nat (length (enc p)))). lia.
Qed.

Lemma hdr_len_render l : hdr_len (render l) = 4 + Z.of_nat (length (append_fitting 4 l)).
Proof.
  unfold hdr_len, render. change (take 4 (be32 ?n ++ ?b)) with (be32 n).
  pose proof (append_fitting_bound 4 l). rewrite of_be32_be32, u32_small by lia.
  apply Z.mod_small. lia.
Qed.

#[export] Instance byte_blob_laws : BlobLaws byte_blob.
Proof.
  split; cbn -[render hdr_len Z.pow].
  - intros b b' H. unfold hdr_len. by rewrite H.
  - intros b. apply Z.mod_pos_bound. lia.
  - intros b b' H. assert (hdr_len b = hdr_len b') as -> by (unfold hdr_len; by rewrite H). done.
  - intros b. unfold pad4. pose proof (Nat.mod_upper_bound (4 - Z.to_nat (hdr_len b) mod 4) 4). lia.
  - intros l. rewrite hdr_len_render. unfold render. rewrite length_app, length_be32. lia.
  - intros l. rewrite hdr_len_render. unfold sizeof_blob_attr. lia.
  - intros id v v' l. unfold render. cbn -[be32 Z.pow Z.of_nat length].
    change (length (attr_hdr 0 id 8 ++ be32 v)) with 8%nat.
    change (length (attr_hdr 0 id 8 ++ be32 v')) with 8%nat.
    change (4 + Z.of_nat 8 <? 2 ^ 24) with true. cbn iota.
    set (tl := append_fitting _ l). rewrite !length_app. done.
Qed.

(** ** Parsing what was rendered *)

Definition put_payload (p : put) : bytes :=
  match p with
  | put_int32 _ v => be32 v
  | put_int8 _ v => [u8 v]
  | put_string _ s => c_bytes s
  | put_blob _ payload => payload
  | _ => []
  end.

(** The attribute as a parser cuts it out, without its padding *)
Definition raw_attr (id : Z) (pl : bytes) : bytes := attr_hdr 0 id (4 + Z.of_nat (length pl)) ++ pl.

Lemma length_string_bytes s : length (string_bytes s) = String.length s.
Proof. induction s; [done|]. simpl. by f_equal. Qed.

Lemma put_payload_len p id : put_id p = Some id -> Z.of_nat (length (put_payload p)) = put_len p.
Proof.
  destruct p; simpl; try done. intros _. unfold c_bytes, strlen. rewrite length_app, length_string_bytes. simpl. lia.
Qed.

Lemma enc_attr p id : put_id p = Some id -> enc p = padded (raw_attr id (put_payload p)).
Proof. destruct p; simpl; try done; by intros [= ->]. Qed.

Lemma pad4_le n : (pad4 n <= 3)%nat.
Proof. unfold pad4. pose proof (Nat.mod_upper_bound (4 - n mod 4) 4). lia. Qed.

Lemma length_raw_attr id pl : length (raw_attr id pl) = (4 + length pl)%nat.
Proof. done. Qed.

Lemma raw_attr_hdr id pl rest :
  0 <= id < 2 ^ 7 -> 4 + Z.of_nat (length pl) < 2 ^ 24 ->
  hdr_len (raw_attr id pl ++ rest) = 4 + Z.of_nat (length pl) /\ attr_id (raw_attr id pl ++ rest) = id /\
  extended (raw_attr id pl ++ rest) = false.
Proof.
  intros Hid Hn. set (n := 4 + Z.of_nat (length pl)) in *. unfold hdr_len, attr_id, extended, raw_attr, attr_hdr. fold n.
  rewrite <- app_assoc. change (take 4 (be32 ?z ++ ?r)) with (be32 z). rewrite of_be32_be32, u32_small by lia.
  replace (0 * 2 ^ 31 + id * 2 ^ 24 + n) with (n + id * 2 ^ 24) by lia.
  rewrite Z.mod_add, Z.div_add by lia. rewrite (Z.mod_small n), (Z.div_small n), Z.add_0_l, (Z.mod_small id) by lia.
  split; [done|]. split; [done|]. apply Z.leb_gt. lia.
Qed.

Lemma raw_attr_payload id pl :
  0 <= id < 2 ^ 7 -> 4 + Z.of_nat (length pl) < 2 ^ 24 -> payload (raw_attr id pl) = pl.
Proof.
  intros Hid Hn. destruct (raw_attr_hdr id pl [] Hid Hn) as (H & _ & _). rewrite app_nil_r in H. unfold payload. rewrite H.
  replace (Z.to_nat (4 + Z.of_nat (length pl)) - 4)%nat with (length pl) by lia. unfold raw_attr.
  change (drop 4 (attr_hdr 0 id ?n ++ pl)) with pl. by apply take_ge.
Qed.

Lemma split_padded fuel l :
  Forall (fun e => 0 <= e.1 < 2 ^ 7 /\ 4 + Z.of_nat (length e.2) < 2 ^ 24) l ->
  (length (concat ((fun e => padded (raw_attr e.1 e.2)) <$> l)) <= fuel)%nat ->
  split_attrs fuel (concat ((fun e => padded (raw_attr e.1 e.2)) <$> l)) = (fun e => raw_attr e.1 e.2) <$> l.
Proof.
  revert l. induction fuel as [|fuel IH]; intros l Hl Hf.
  - destruct l as [|[id pl] l]; [done|]. exfalso. simpl in Hf. lia.
  - destruct l as [|[id pl] l]; [done|]. apply Forall_cons in Hl as [[Hid Hn] Hl]. cbn [fmap list_fmap concat fst snd] in *.
    set (rest := concat _) in *. unfold padded at 1. unfold padded at 1 in Hf. rewrite <- app_assoc in *.
    set (tl := replicate _ 0 ++ rest) in *.
    destruct (raw_attr_hdr id pl tl Hid Hn) as (Hh & _). cbn [split_attrs]. rewrite Hh.
    replace (Z.to_nat (4 + Z.of_nat (length pl))) with (length (raw_attr id pl)) by (rewrite length_raw_attr; lia).
    rewrite !length_app, length_raw_attr in *.
    rewrite (proj2 (Nat.ltb_ge _ 4)), (proj2 (Nat.ltb_ge (4 + length pl) 4)), (proj2 (Nat.ltb_ge _ (4 + length pl))) by lia.
    cbn [orb]. rewrite <- (length_raw_attr id pl). rewrite take_app_length. f_equal.
    rewrite <- drop_drop, drop_app_length. unfold tl. rewrite drop_app_length' by (by rewrite length_replicate).
    apply IH; [done|]. unfold tl in Hf. rewrite length_app in Hf. fold rest. lia.
Qed.

Definition flat_of (p : put) : Z * bytes := (default 0 (put_id p), put_payload p).

Lemma append_all len l :
  Forall (fun p => exists id, put_id p = Some id /\ 0 <= id < 2 ^ 7) l ->
  foldr (fun p n => put_len p + 7 + n) len l < 2 ^ 24 ->
  append_fitting len l = concat ((fun e => padded (raw_attr e.1 e.2)) <$> (flat_of <$> l)) /\
  Forall (fun e => 0 <= e.1 < 2 ^ 7 /\ len + 4 + Z.of_nat (length e.2) < 2 ^ 24) (flat_of <$> l).
Proof.
  revert len. induction l as [|p l IH]; intros len Hids Hroom; [done|]. apply Forall_cons in Hids as [(id & Hp & Hid) Hids].
  pose proof (enc_attr p id Hp) as He. pose proof (put_payload_len p id Hp) as Hlen.
  assert (forall m, 0 <= m -> len <= foldr (fun p n => put_len p + 7 + n) (len + m) l - m) as Hmono.
  { clear IH Hroom. intros m Hm. induction Hids as [|q l (id' & Hq & _) Hids IH]; simpl; [lia|].
    pose proof (put_payload_len q id' Hq). lia. }
  assert (forall m, foldr (fun p n => put_len p + 7 + n) (len + m) l = foldr (fun p n => put_len p + 7 + n) len l + m) as Hadd.
  { clear. intros m. induction l; simpl; lia. }
  assert (Z.of_nat (length (enc p)) <= put_len p + 7) as Hle.
  { rewrite He. unfold padded. rewrite length_app, length_replicate, length_raw_attr. pose proof (pad4_le (4 + length (put_payload p))). lia. }
  assert (foldr (fun p n => put_len p + 7 + n) (len + Z.of_nat (length (enc p))) l < 2 ^ 24) as Hr by (rewrite Hadd; simpl in Hroom; lia).
  pose proof (Hmono 0). pose proof (Hmono (Z.of_nat (length (enc p)))). rewrite Z.add_0_r in *.
  destruct (IH _ Hids Hr) as [Ha Hall].
  assert (4 + Z.of_nat (length (put_payload p)) <= Z.of_nat (length (enc p))) as Hge.
  { rewrite He. unfold padded. rewrite length_app, length_raw_attr. lia. }
  cbn [append_fitting]. rewrite (proj2 (Z.ltb_lt _ _)) by lia.
  rewrite fmap_cons. assert (flat_of p = (id, put_payload p)) as -> by (unfold flat_of; by rewrite Hp). split.
  - by rewrite Ha, He.
  - constructor; [simpl; lia|]. eapply Forall_impl; [exact Hall|]. simpl. lia.
Qed.

Lemma parse_render pol max l id :
  puts_ok l ->
  parse_untrusted pol max (render l) (hdr_len (render l)) id =
    last (List.filter (fun a => (attr_id a =? id) && (id <? max) && type_ok (pol id) (payload a))
            ((fun e => raw_attr e.1 e.2) <$> (flat_of <$> l))).
Proof.
  intros [Hids _ _ Hroom]. destruct (append_all 4 l Hids Hroom) as [Ha Hall]. unfold parse_untrusted. do 2 f_equal.
  pose proof (hdr_len_render l) as Hh. rewrite take_ge by (rewrite Hh; unfold render; rewrite length_app, length_be32; lia).
  unfold payload. rewrite Hh. unfold render. set (body := append_fitting 4 l) in *.
  change (drop 4 (be32 ?n ++ body)) with body. rewrite take_ge by lia. unfold attrs_of. rewrite Ha.
  apply split_padded; [|done]. eapply Forall_impl; [exact Hall|]. simpl. lia.
Qed.

Definition sized (e : Z * bytes) : Prop := 0 <= e.1 < 2 ^ 7 /\ 4 + 4 + Z.of_nat (length e.2) < 2 ^ 24.

Lemma raw_attr_id e : sized e -> attr_id (raw_attr e.1 e.2) = e.1.
Proof. intros [H1 H2]. destruct (raw_attr_hdr e.1 e.2 []) as (_ & H & _); [done|lia|]. by rewrite app_nil_r in H. Qed.

Lemma filter_other (f : bytes -> bool) id l :
  id ∉ l.*1 -> Forall sized l ->
  List.filter (fun a => (attr_id a =? id) && f a) ((fun e => raw_attr e.1 e.2) <$> l) = [].
Proof.
  intros Hni. induction 1 as [|e l He Hl IH]; [done|]. rewrite fmap_cons in Hni. apply not_elem_of_cons in Hni as [Hne Hni].
  rewrite fmap_cons. cbn [List.filter]. rewrite (raw_attr_id e He), (proj2 (Z.eqb_neq _ _)) by congruence. by apply IH.
Qed.

Lemma flat_ids l :
  Forall (fun p => exists id, put_id p = Some id /\ 0 <= id < 2 ^ 7) l -> (flat_of <$> l).*1 = omap put_id l.
Proof. induction 1 as [|p l (id & Hp & _) Hl IH]; [done|]. cbn. rewrite Hp. simpl. by f_equal. Qed.

Lemma accepts_type_ok t p id : put_id p = Some id -> accepts t p = true -> type_ok t (put_payload p) = true.
Proof. destruct t, p; try done. intros _ _. simpl. unfold c_bytes. by rewrite last_snoc. Qed.

Lemma holds_raw p id :
  put_id p = Some id -> sized (id, put_payload p) ->
  (forall i s, p = put_string i s -> nul_free s = true) -> holds (raw_attr id (put_payload p)) p.
Proof.
  intros Hid [H1 H2] Hs. simpl in H1, H2. pose proof (raw_attr_payload id (put_payload p) H1) as Hp.
  destruct (raw_attr_hdr id (put_payload p) [] H1) as (_ & _ & Hx); [lia|]. rewrite app_nil_r in Hx.
  destruct p; simpl in Hid; try done; injection Hid as ->; cbn -[raw_attr payload] in *; rewrite Hp by lia.
  - change (take 4 (be32 v ++ [0; 0; 0; 0])) with (be32 v). apply of_be32_be32.
  - unfold of_be32. simpl. lia.
  - unfold msg_payload. rewrite Hx, Hp by lia. rewrite bytes_string_c; [done|by eapply Hs].
  - done.
Qed.

Lemma parse_found pol max l p id :
  puts_ok l -> p ∈ l -> put_id p = Some id -> id < max -> accepts (pol id) p = true ->
  parse_untrusted pol max (render l) (hdr_len (render l)) id = Some (raw_attr id (put_payload p)) /\
  sized (id, put_payload p) /\ (forall i s, p = put_string i s -> nul_free s = true).
Proof.
    intros Hok Hp Hid Hmax Hacc. rewrite parse_render by done. destruct Hok as [Hids Hnd Hstr Hroom].
    destruct (append_all 4 l Hids Hroom) as [_ Hall]. pose proof (flat_ids l Hids) as Hfl.
    apply list_elem_of_split in Hp as (l1 & l2 & ->). rewrite Forall_app, Forall_cons in Hstr. destruct Hstr as (_ & Hsp & _).
    rewrite !fmap_app, !fmap_cons in *. rewrite <- Hfl in Hnd. clear Hfl.
    assert (flat_of p = (id, put_payload p)) as Hf by (unfold flat_of; by rewrite Hid). rewrite Hf in *.
    rewrite Forall_app, Forall_cons in Hall. destruct Hall as (Ha1 & Hsz & Ha2).
    apply NoDup_app in Hnd as (_ & Hd & Hnd2). apply NoDup_cons in Hnd2 as [Hd2 _].
    split; [|split; [done|by intros i s ->]].
    assert (forall a, (attr_id a =? id) && (id <? max) && type_ok (pol id) (payload a) =
      (attr_id a =? id) && ((id <? max) && type_ok (pol id) (payload a))) as Hassoc by (intros; by rewrite andb_assoc).
    rewrite (List.filter_ext _ _ Hassoc), List.filter_app. cbn [List.filter].
    rewrite (filter_other _ id (flat_of <$> l1)); [|intros Hin; by apply (Hd id Hin); left|done].
    rewrite (filter_other _ id (flat_of <$> l2)); [|done|done]. cbn [fst snd].
    pose proof (raw_attr_id (id, put_payload p) Hsz) as Hai. cbn [fst snd] in Hai. rewrite Hai, Z.eqb_refl, (proj2 (Z.ltb_lt id max) Hmax). simpl fst.
    rewrite raw_attr_payload, (accepts_type_ok _ _ _ Hid Hacc); [done|apply Hsz|destruct Hsz; simpl in *; lia].
Qed.

#[export] Instance byte_blob_parse_laws : BlobParseLaws byte_blob.
Proof.
  split; intros pol max l; cbn [blob_parse_untrusted blob_render blob_raw_len byte_blob].
  - intros p id Hok Hp Hid Hmax Hacc. destruct (parse_found pol max l p id Hok Hp Hid Hmax Hacc) as (E & Hsz & Hs).
    exists (raw_attr id (put_payload p)). split; [exact E|by apply holds_raw].
  - intros id Hok Hni. rewrite parse_render by done. destruct Hok as [Hids Hnd Hstr Hroom].
    destruct (append_all 4 l Hids Hroom) as [_ Hall].
    assert (forall a, (attr_id a =? id) && (id <? max) && type_ok (pol id) (payload a) =
      (attr_id a =? id) && ((id <? max) && type_ok (pol id) (payload a))) as Hassoc by (intros; by rewrite andb_assoc).
    rewrite (List.filter_ext _ _ Hassoc), filter_other; [done|by rewrite flat_ids|done].
Qed.

Lemma payload_take msg : 4 <= hdr_len msg -> payload (take (Z.to_nat (hdr_len msg)) msg) = payload msg.
Proof.
  intros H. unfold payload. assert (hdr_len (take (Z.to_nat (hdr_len msg)) msg) = hdr_len msg) as ->.
  { unfold hdr_len at 1. rewrite take_take, Nat.min_l by lia. done. }
  apply list_eq. intros i. destruct (decide (i < Z.to_nat (hdr_len msg) - 4)%nat).
  - rewrite !lookup_take_lt, !lookup_drop, lookup_take_lt by lia. done.
  - rewrite !lookup_take_ge by lia. done.
Qed.

#[export] Instance byte_blob_view_laws : BlobViewLaws byte_blob.
Proof.
  split; cbn [blob_parse_untrusted blob_render blob_raw_len byte_blob].
  - intros pol max l p id a Hok Hp Hid Hmax Hacc. destruct (parse_found pol max l p id Hok Hp Hid Hmax Hacc) as (-> & [H1 H2] & _).
    simpl in H1, H2. intros [= <-]. pose proof (raw_attr_payload id (put_payload p) H1 ltac:(lia)) as Hpl.
    destruct (raw_attr_hdr id (put_payload p) [] H1) as (Hh & _ & Hx); [lia|]. rewrite app_nil_r in Hh, Hx.
    destruct p; simpl in Hid; try done; injection Hid as ->; cbn -[raw_attr payload hdr_len] in *.
    + by rewrite Hpl.
    + unfold msg_payload. rewrite Hx, Hh. split; [done|]. unfold sizeof_blob_attr. lia.
  - unfold sizeof_blob_attr. intros pol max a b id Ha Hb E. unfold parse_untrusted. rewrite !payload_take by done.
    cbn [blob_data byte_blob] in E. by rewrite E.
Qed.
