(* ===== verification/Ids.v ===== *)
(** * Identifiers: [src/ubusd_id.c], [src/ubusd_id.h]

    Objects, object types and clients have a 32-bit id and live in a tree keyed
    by it.  [ubus_alloc_id] either takes the id it is given or draws random
    32-bit values until one is neither reserved nor taken. *)

From stdpp Require Import base strings list.
From Stdlib Require Import ZArith Lia.
From S2P Require Import Prelude Wire Cstring Libubox.
Local Open Scope Z_scope.

(** [static int ubus_cmp_id(k1, k2, ptr)] *)
Definition ubus_cmp_id (id1 id2 : Z) : Z :=
  if id1 <? id2 then -1 else if id2 <? id1 then 1 else 0.

#[export] Instance ubus_cmp_id_order : CmpOrder ubus_cmp_id.
Proof.
  unfold ubus_cmp_id. split; intros;
    repeat match goal with
    | |- context [?a <? ?b] => destruct (Z.ltb_spec a b)
    | H : context [?a <? ?b] |- _ => destruct (Z.ltb_spec a b)
    end; lia.
Qed.

(** The coming results of [read_random]: [None] is a failed or short read. *)
Abbreviation random_source := (list (option Z)).

Section Ids.
Context `{AL : AvlLib}.

Definition id_tree (V : Type) : Type := avl_tree ubus_cmp_id false V.
Definition string_tree (dup : bool) (V : Type) : Type := avl_tree strcmp dup V.

Definition ubus_init_id_tree (V : Type) : id_tree V := avl_init ubus_cmp_id false V.
Definition ubus_init_string_tree (dup : bool) (V : Type) : string_tree dup V :=
  avl_init strcmp dup V.

Definition ubus_find_id {V} (tree : id_tree V) (id : Z) : option V := avl_find tree id.
Definition ubus_free_id {V} `{!EqDecision V} (tree : id_tree V) (id : Z) (node : V) : id_tree V :=
  avl_delete tree id node.

(** The two nested [do ... while] loops of [ubus_alloc_id]: draw again while the
    value is reserved, and again while it is taken.  An exhausted source reads
    short. *)
Fixpoint ubus_alloc_random_id {V} (tree : id_tree V) (node : V) (rnd : random_source)
    : option Z * id_tree V * random_source :=
  match rnd with
  | [] => (None, tree, [])
  | None :: rnd => (None, tree, rnd)
  | Some r :: rnd =>
      let id := u32 r in
      if id <? UBUS_SYSTEM_OBJECT_MAX then ubus_alloc_random_id tree node rnd
      else match avl_insert tree id node with
           | (rc, tree') => if rc =? 0 then (Some id, tree', rnd)
                            else ubus_alloc_random_id tree node rnd
           end
  end.

(** [ubus_alloc_id(tree, id, val)]: [Some id] is [true] with [id->id] set. *)
Definition ubus_alloc_id {V} (tree : id_tree V) (node : V) (val : Z) (rnd : random_source)
    : option Z * id_tree V * random_source :=
  if val =? 0 then ubus_alloc_random_id tree node rnd
  else match avl_insert tree val node with
       | (rc, tree') => if rc =? 0 then (Some val, tree', rnd) else (None, tree, rnd)
       end.

Context `{!AvlLaws AL}.

(** The values the loops accept. *)
Definition usable_id {V} (tree : id_tree V) (r : option Z) : Prop :=
  exists z, r = Some z /\ UBUS_SYSTEM_OBJECT_MAX <= u32 z /\ ubus_find_id tree (u32 z) = None.

Lemma alloc_random_cases {V} (tree : id_tree V) node rnd :
  match ubus_alloc_random_id tree node rnd with
  | (Some id, tree', _) =>
      UBUS_SYSTEM_OBJECT_MAX <= id < 2 ^ 32 /\ ubus_find_id tree id = None /\
      avl_list tree' ≡ₚ (id, node) :: avl_list tree
  | (None, tree', _) => tree' = tree
  end.
Proof.
  induction rnd as [|[r|] rnd IH]; simpl; [done| |done].
  destruct (Z.ltb_spec (u32 r) UBUS_SYSTEM_OBJECT_MAX); [done|].
  destruct (avl_insert_cases tree (u32 r) node) as [(v' & _ & ->)|(Hn & t' & -> & Hp)]; [done|].
  split; [|done]. split; [done|]. apply Z.mod_pos_bound. lia.
Qed.

(** Whatever path is taken, a successful allocation returns an id that was free
    and adds exactly that entry; a failed one leaves the tree alone. *)
Lemma alloc_id_cases {V} (tree : id_tree V) node val rnd :
  match ubus_alloc_id tree node val rnd with
  | (Some id, tree', _) =>
      (val = 0 /\ UBUS_SYSTEM_OBJECT_MAX <= id < 2 ^ 32 \/ val <> 0 /\ id = val) /\
      ubus_find_id tree id = None /\ avl_list tree' ≡ₚ (id, node) :: avl_list tree
  | (None, tree', _) => tree' = tree
  end.
Proof.
  unfold ubus_alloc_id. destruct (Z.eqb_spec val 0) as [->|Hval].
  - pose proof (alloc_random_cases tree node rnd) as H.
    destruct (ubus_alloc_random_id tree node rnd) as [[[id|] t'] rnd']; naive_solver.
  - destruct (avl_insert_cases tree val node) as [(v' & _ & ->)|(Hn & t' & -> & Hp)]; simpl; auto.
Qed.

(** The retry loops end as soon as the source yields a usable value, if no read
    fails before. *)
Lemma alloc_random_succeeds {V} (tree : id_tree V) node rnd1 r rnd2 :
  Forall is_Some rnd1 -> usable_id tree r ->
  is_Some (ubus_alloc_random_id tree node (rnd1 ++ r :: rnd2)).1.1.
Proof.
  intros H1 (z & -> & Hmax & Hfree). induction H1 as [|x rnd1 [y ->] H1 IH]; simpl.
  - destruct (Z.ltb_spec (u32 z) UBUS_SYSTEM_OBJECT_MAX); [lia|].
    destruct (avl_insert_cases tree (u32 z) node) as [(v' & Hv & _)|(_ & t' & -> & _)].
    + unfold ubus_find_id in Hfree. congruence.
    + eauto.
  - case_match; [done|].
    destruct (avl_insert tree (u32 y) node) as [rc t']. case_match; [eauto|done].
Qed.
End Ids.
