(* ===== verification/State.v ===== *)
(** * The daemon's state

    The structures of [src/ubusd.h], [src/ubusd_obj.h], [src/ubusd_event.c],
    [src/ubusd_monitor.c] and [src/ubusd_acl.c], the global variables of the
    daemon, and the memory and operating-system primitives its code uses.

    Structures that are reached through pointers live in a heap per type,
    indexed by addresses that are never reused, so that a dangling pointer is a
    failed lookup.  List nodes nothing else points to ([ubus_msg_buf_list],
    [ubus_client_cmd], [ubus_monitor]) are list elements. *)

From stdpp Require Import base gmap strings list fin_maps.
From Stdlib Require Import ZArith Lia.
From S2P Require Import Prelude Wire Cstring Libubox Ids.
Local Open Scope Z_scope.
Local Open Scope ubus_scope.

Abbreviation ptr := positive.

(** ** Structures *)

(** [~0U]: the message's data buffer belongs to someone else *)
Definition USES_EXTERNAL_BUFFER : Z := 2 ^ 32 - 1.

Record ubus_msg_buf := mk_msg_buf {
  ub_refcount : Z;
  ub_hdr : ubus_msghdr;
  ub_data : bytes;
  ub_fd : Z;
  ub_len : Z;
}.
#[export] Instance eta_msg_buf : Eta ubus_msg_buf := fun r =>
  mk_msg_buf (ub_refcount r) (ub_hdr r) (ub_data r) (ub_fd r) (ub_len r).

#[export] Instance eta_msghdr : Eta ubus_msghdr := fun r =>
  mk_msghdr (hdr_version r) (hdr_type r) (hdr_seq r) (hdr_peer r).

Record ubus_method := mk_method {
  m_name : string;
  m_data : bytes;
}.

Record ubus_object_type := mk_object_type {
  type_id : Z;
  type_refcount : Z;
  type_methods : list ubus_method;
}.
#[export] Instance eta_object_type : Eta ubus_object_type := fun r =>
  mk_object_type (type_id r) (type_refcount r) (type_methods r).

Record ubus_subscription := mk_subscription {
  s_subscriber : ptr;
  s_target : ptr;
}.

(** The built-in objects' [recv_msg] callbacks *)
Inductive recv_msg_cb := ubusd_event_recv_cb | ubusd_acl_recv_cb | ubusd_monitor_recv_cb.

Record ubus_object := mk_object {
  obj_id : Z;
  obj_events : list ptr;
  obj_subscribers : list ptr;
  obj_target_list : list ptr;
  obj_type : option ptr;
  obj_path : option string;
  obj_client : option ptr;
  obj_recv_msg : option recv_msg_cb;
  obj_event_seen : Z;
  obj_invoke_seq : Z;
}.
#[export] Instance eta_object : Eta ubus_object := fun r =>
  mk_object (obj_id r) (obj_events r) (obj_subscribers r) (obj_target_list r) (obj_type r)
    (obj_path r) (obj_client r) (obj_recv_msg r) (obj_event_seen r) (obj_invoke_seq r).

Record event_source := mk_event_source {
  ev_obj : ptr;
  ev_key : string;
  ev_partial : bool;
}.

Record ubus_monitor := mk_monitor {
  mon_cl : ptr;
  mon_seq : Z;
}.
#[export] Instance eta_monitor : Eta ubus_monitor := fun r => mk_monitor (mon_cl r) (mon_seq r).

Record ubus_client_cmd := mk_client_cmd {
  cmd_msg : ptr;
  cmd_lookup_path : option string;
}.
#[export] Instance eta_client_cmd : Eta ubus_client_cmd := fun r =>
  mk_client_cmd (cmd_msg r) (cmd_lookup_path r).

(** [sock] keeps the file descriptor, the [eof] flag and what the event loop
    polls for: [None] when not registered, [Some w] for read (and, with [w],
    write) events. *)
Record ubus_client := mk_client {
  cl_id : Z;
  cl_sock_fd : Z;
  cl_sock_eof : bool;
  cl_sock_poll : option bool;
  cl_uid : Z;
  cl_gid : Z;
  cl_extra_gid : list Z;
  cl_user : option string;
  cl_group : option string;
  cl_objects : list ptr;
  cl_cmd_queue : list ubus_client_cmd;
  cl_tx_queue : list ptr;
  cl_txq_ofs : Z;
  cl_txq_len : Z;
  cl_pending_msg : option ptr;
  cl_retmsg : option ptr;
  cl_pending_msg_offset : Z;
  cl_pending_msg_fd : Z;
  cl_hdrbuf : bytes;
}.
#[export] Instance eta_client : Eta ubus_client := fun r =>
  mk_client (cl_id r) (cl_sock_fd r) (cl_sock_eof r) (cl_sock_poll r) (cl_uid r) (cl_gid r)
    (cl_extra_gid r) (cl_user r) (cl_group r) (cl_objects r) (cl_cmd_queue r) (cl_tx_queue r)
    (cl_txq_ofs r) (cl_txq_len r) (cl_pending_msg r) (cl_retmsg r) (cl_pending_msg_offset r)
    (cl_pending_msg_fd r) (cl_hdrbuf r).

Record ubusd_acl_obj := mk_acl_obj {
  acl_key : string;
  acl_partial : bool;
  acl_user : option string;
  acl_group : option string;
  acl_uid : Z;
  acl_gid : Z;
  acl_methods : option bytes;
  acl_tags : option bytes;
  acl_priv : option bytes;
  acl_subscribe : bool;
  acl_publish : bool;
  acl_listen : bool;
  acl_send : bool;
}.
#[export] Instance eta_acl_obj : Eta ubusd_acl_obj := fun r =>
  mk_acl_obj (acl_key r) (acl_partial r) (acl_user r) (acl_group r) (acl_uid r) (acl_gid r)
    (acl_methods r) (acl_tags r) (acl_priv r) (acl_subscribe r) (acl_publish r) (acl_listen r)
    (acl_send r).

(** [af_name] is the key of the file's [vlist] node, [af_acl] the list of its
    entries. *)
Record ubusd_acl_file := mk_acl_file {
  af_name : string;
  af_user : option string;
  af_group : option string;
  af_uid : Z;
  af_gid : Z;
  af_blob : bytes;
  af_acl : list ptr;
  af_ok : Z;
}.
#[export] Instance eta_acl_file : Eta ubusd_acl_file := fun r =>
  mk_acl_file (af_name r) (af_user r) (af_group r) (af_uid r) (af_gid r) (af_blob r) (af_acl r) (af_ok r).

(** ** The operating system

    What the kernel and libc answer next, the bytes waiting on each socket, and
    what the daemon has done to them: bytes accepted per socket, descriptors passed with [SCM_RIGHTS] and
    descriptors closed (latest first). *)

Inductive errno := EINTR | EAGAIN | EACCES | EPIPE.

(** A [sendmsg] result: a number of bytes the socket has room for, or an error *)
Inductive send_result := Sent (n : Z) | SendErr (e : errno).

(** A control message, as [recvmsg] delivers it *)
Record cmsghdr := mk_cmsg {
  cmsg_level : Z;
  cmsg_type : Z;
  cmsg_len : Z;
  cmsg_fd : Z;
}.

(** A [recvmsg]/[read] result: up to that many bytes of what the socket holds,
    with control messages, or an error *)
Inductive recv_result := Got (n : Z) (cmsgs : list cmsghdr) | RecvErr.

Record os_state := mk_os {
  os_alloc : list bool;
  os_random : random_source;
  os_send : list send_result;
  os_recv : list recv_result;
  os_in : gmap Z bytes;
  os_sent : gmap Z bytes;
  os_passed : list (Z * Z);
  os_closed : list Z;
}.
#[export] Instance eta_os : Eta os_state := fun r =>
  mk_os (os_alloc r) (os_random r) (os_send r) (os_recv r) (os_in r) (os_sent r) (os_passed r)
    (os_closed r).

(** ** The global state *)

Section State.
Context `{AL : AvlLib}.

(** [events_sent] is not a variable of the program: it counts the events that
    have got a number since start-up, for the theorems; no operation reads it. *)
Record ubusd := mk_ubusd {
  h_objects : gmap ptr ubus_object;
  h_types : gmap ptr ubus_object_type;
  h_subs : gmap ptr ubus_subscription;
  h_events : gmap ptr event_source;
  h_clients : gmap ptr ubus_client;
  h_msgs : gmap ptr ubus_msg_buf;
  h_acls : gmap ptr ubusd_acl_obj;
  h_files : gmap ptr ubusd_acl_file;
  brk : ptr;
  objects : id_tree ptr;
  obj_types : id_tree ptr;
  path : string_tree false ptr;
  clients : id_tree ptr;
  patterns : string_tree true ptr;
  event_seq : Z;
  obj_event_seq : Z;
  events_sent : Z;
  monitors : list ubus_monitor;
  ubusd_acls : string_tree true ptr;
  ubusd_acl_files : vlist_tree ptr;
  ubusd_acl_seq : Z;
  os : os_state;
}.

#[export] Instance eta_ubusd : Eta ubusd := fun r =>
  mk_ubusd (h_objects r) (h_types r) (h_subs r) (h_events r) (h_clients r) (h_msgs r) (h_acls r)
    (h_files r) (brk r) (objects r) (obj_types r) (path r) (clients r) (patterns r) (event_seq r)
    (obj_event_seq r) (events_sent r) (monitors r) (ubusd_acls r) (ubusd_acl_files r)
    (ubusd_acl_seq r) (os r).

(** ** Memory *)

(** The heap of a structure type. *)
Class Heap (T : Type) := {
  heap : ubusd -> gmap ptr T;
  set_heap : (gmap ptr T -> gmap ptr T) -> ubusd -> ubusd;
}.

#[export] Instance heap_object : Heap ubus_object :=
  {| heap := h_objects; set_heap f s := s <| h_objects ::= f |> |}.
#[export] Instance heap_type : Heap ubus_object_type :=
  {| heap := h_types; set_heap f s := s <| h_types ::= f |> |}.
#[export] Instance heap_sub : Heap ubus_subscription :=
  {| heap := h_subs; set_heap f s := s <| h_subs ::= f |> |}.
#[export] Instance heap_event : Heap event_source :=
  {| heap := h_events; set_heap f s := s <| h_events ::= f |> |}.
#[export] Instance heap_client : Heap ubus_client :=
  {| heap := h_clients; set_heap f s := s <| h_clients ::= f |> |}.
#[export] Instance heap_msg : Heap ubus_msg_buf :=
  {| heap := h_msgs; set_heap f s := s <| h_msgs ::= f |> |}.
#[export] Instance heap_acl : Heap ubusd_acl_obj :=
  {| heap := h_acls; set_heap f s := s <| h_acls ::= f |> |}.
#[export] Instance heap_acl_file : Heap ubusd_acl_file :=
  {| heap := h_files; set_heap f s := s <| h_files ::= f |> |}.

(** Reading through a pointer: undefined when nothing lives there. *)
Definition load {T} `{Heap T} (p : ptr) : stm ubusd T :=
  fun s => match heap s !! p with Some x => Some (x, s) | None => None end.

(** [p->f = ...] *)
Definition store {T} `{Heap T} (p : ptr) (f : T -> T) : stm ubusd unit :=
  fun s => match heap s !! p with
           | Some x => Some (tt, set_heap (insert p (f x)) s)
           | None => None
           end.

(** The allocator's next answer; a source that has run out succeeds. *)
Definition os_pop_alloc (o : os_state) : bool * os_state :=
  match os_alloc o with
  | [] => (true, o)
  | ok :: rest => (ok, o <| os_alloc := rest |>)
  end.

(** [calloc]/[strdup] of memory that is not itself modelled *)
Definition try_alloc : stm ubusd bool :=
  fun s => let '(ok, o) := os_pop_alloc (os s) in Some (ok, s <| os := o |>).

(** [calloc] of a structure: [None] is [NULL]. *)
Definition alloc {T} `{Heap T} (x : T) : stm ubusd (option ptr) :=
  fun s => let '(ok, o) := os_pop_alloc (os s) in
           let s := s <| os := o |> in
           if ok then Some (Some (brk s), set_heap (insert (brk s) x) (s <| brk ::= Pos.succ |>))
           else Some (None, s).

(** [free]: undefined when the pointer is not live. *)
Definition free_ptr {T} `{Heap T} (p : ptr) : stm ubusd unit :=
  fun s => match heap s !! p with
           | Some _ => Some (tt, set_heap (delete p) s)
           | None => None
           end.

(** ** System calls *)

(** [close(fd)] *)
Definition sys_close (fd : Z) : stm ubusd unit :=
  modify (fun s => s <| os ::= fun o => o <| os_closed ::= cons fd |> |>).

(** [accept] returned [fd]: the number of a new socket, nothing sent on it yet *)
Definition sys_accept (fd : Z) : stm ubusd unit :=
  modify (fun s => s <| os ::= fun o => o <| os_sent ::= delete fd |> |>).

(** One [sendmsg(fd, iov)]: the kernel takes a prefix of the bytes; a
    descriptor travels with the first byte taken. *)
Definition sys_sendmsg (fd : Z) (iov : bytes) (passed : option Z) : stm ubusd send_result :=
  fun s =>
    let o := os s in
    match os_send o with
    | [] => Some (SendErr EAGAIN, s)
    | SendErr e :: rest => Some (SendErr e, s <| os := o <| os_send := rest |> |>)
    | Sent n :: rest =>
        let n := Z.max 0 (Z.min n (Z.of_nat (length iov))) in
        let taken := take (Z.to_nat n) iov in
        let o := o <| os_send := rest |>
                   <| os_sent ::= partial_alter (fun old => Some (default [] old ++ taken)) fd |>
                   <| os_passed ::= fun l => match passed with
                                             | Some p => if 0 <? n then (fd, p) :: l else l
                                             | None => l
                                             end |> in
        Some (Sent n, s <| os := o |>)
    end.

(** One [recvmsg(fd)]/[read(fd)] of at most [want] bytes: [None] is -1. *)
Definition sys_recvmsg (fd : Z) (want : Z) : stm ubusd (option (bytes * list cmsghdr)) :=
  fun s =>
    let o := os s in
    match os_recv o with
    | [] => Some (None, s)
    | RecvErr :: rest => Some (None, s <| os := o <| os_recv := rest |> |>)
    | Got n cmsgs :: rest =>
        let inbuf := default [] (os_in o !! fd) in
        let k := Z.to_nat (Z.min n want) in
        Some (Some (take k inbuf, cmsgs),
              s <| os := o <| os_recv := rest |> <| os_in ::= insert fd (drop k inbuf) |> |>)
    end.

(** ** Tree updates of the state, checked for linked nodes *)

Definition linked {K} {cmp : K -> K -> Z} {dup} (t : avl_tree cmp dup ptr) (k : K) (p : ptr) : bool :=
  existsb (fun e => (cmp e.1 k =? 0) && bool_decide (e.2 = p)) (avl_list t).

(** [avl_delete(tree, node)]: undefined when the node is not linked. *)
Definition tree_delete {K} {cmp : K -> K -> Z} {dup} (get : ubusd -> avl_tree cmp dup ptr)
    (set : (avl_tree cmp dup ptr -> avl_tree cmp dup ptr) -> ubusd -> ubusd) (k : K) (p : ptr)
    : stm ubusd unit :=
  fun s => if linked (get s) k p then Some (tt, set (fun t => avl_delete t k p) s) else None.
End State.
