(* ===== verification/MsgBuf.v ===== *)
(** * Message buffers and transmission: [src/ubusd.c], [src/ubusd_monitor.c]

    A [struct ubus_msg_buf] is reference counted, except when its data buffer
    belongs to someone else ([USES_EXTERNAL_BUFFER]): such a message is copied
    when it is queued.  [ubus_msg_send] writes directly while a client's queue
    is empty and queues what the socket does not take.  Monitors receive a copy
    of every message sent or received. *)

From stdpp Require Import base gmap strings list fin_maps.
From Stdlib Require Import ZArith Lia.
From S2P Require Import Prelude Wire Cstring Libubox Ids State.
Local Open Scope Z_scope.
Local Open Scope ubus_scope.

Definition UBUS_CLIENT_MAX_TXQ_LEN : Z := UBUS_MAX_MSGLEN.

(** [memcpy] of [len] bytes, or the zeroes of [calloc] *)
Definition msg_new_data (data : option bytes) (len : Z) : bytes :=
  match data with
  | Some d => take (Z.to_nat len) d
  | None => replicate (Z.to_nat len) 0
  end.

(** The bytes of a message on the wire. *)
Definition wire (u : ubus_msg_buf) : bytes :=
  encode_hdr (ub_hdr u) ++ take (Z.to_nat (ub_len u)) (ub_data u).

Section MsgBuf.
Context `{AL : AvlLib} `{BL : BlobLib}.

(** [return UBUS_STATUS_...;] *)
Definition status (st : ubus_msg_status) : stm ubusd Z := mret (status_code st).

(** [memcpy(ub + 1, data, len)] stays within [data]. *)
Definition msg_new_fits (data : option bytes) (len : Z) : bool :=
  match data with
  | Some d => len <=? Z.of_nat (length d)
  | None => true
  end.

Definition ubus_msg_new (data : option bytes) (len : Z) (shared : bool) : stm ubusd (option ptr) :=
  ub ← alloc (mk_msg_buf (if shared then USES_EXTERNAL_BUFFER else 1) msghdr_zero
                (if shared then default [] data else msg_new_data data len) (-1) len);
  when (bool_decide (is_Some ub) && negb shared) (assert (msg_new_fits data len));;
  mret ub.

Definition ubus_msg_ref (ub : ptr) : stm ubusd (option ptr) :=
  u ← load ub;
  if ub_refcount u =? USES_EXTERNAL_BUFFER then
    new_ub ← ubus_msg_new (Some (ub_data u)) (ub_len u) false;
    match new_ub with
    | None => mret None
    | Some n =>
        store n (fun m => m <| ub_hdr := ub_hdr u |> <| ub_fd := ub_fd u |>);;
        store ub (fun m => m <| ub_fd := -1 |>);;
        mret (Some n)
    end
  else
    store ub (fun m => m <| ub_refcount := u32 (ub_refcount u + 1) |>);;
    mret (Some ub).

Definition ubus_msg_free (ub : ptr) : stm ubusd unit :=
  u ← load ub;
  if (ub_refcount u =? 1) || (ub_refcount u =? USES_EXTERNAL_BUFFER) then
    when (0 <=? ub_fd u) (sys_close (ub_fd u));;
    free_ptr (T := ubus_msg_buf) ub
  else
    store ub (fun m => m <| ub_refcount := u32 (ub_refcount u - 1) |>).

(** The [iov] of [ubus_msg_writev]: what is left of the header and the data, or
    what is left of the data. *)
Definition msg_iov (u : ubus_msg_buf) (offset : Z) : bytes :=
  if offset <? sizeof_msghdr then
    drop (Z.to_nat offset) (encode_hdr (ub_hdr u)) ++ take (Z.to_nat (ub_len u)) (ub_data u)
  else
    let offset := offset - sizeof_msghdr in
    take (Z.to_nat (ub_len u - offset)) (drop (Z.to_nat offset) (ub_data u)).

(** What the [iov] points to lies within the message. *)
Definition iov_fits (u : ubus_msg_buf) (offset : Z) : bool :=
  (0 <=? offset) && (offset <=? sizeof_msghdr + ub_len u) && (ub_len u <=? Z.of_nat (length (ub_data u))).

(** [do { ret = sendmsg(...); } while (ret < 0 && errno == EINTR)]; the kernel
    answers at most [fuel] more calls from its script. *)
Fixpoint sendmsg_retry (fuel : nat) (fd : Z) (iov : bytes) (passed : option Z)
    : stm ubusd send_result :=
  ret ← sys_sendmsg fd iov passed;
  match ret, fuel with
  | SendErr EINTR, S fuel => sendmsg_retry fuel fd iov passed
  | _, _ => mret ret
  end.

Definition ubus_msg_writev (fd : Z) (ub : ptr) (offset : Z) : stm ubusd send_result :=
  u ← load ub;
  assert (iov_fits u offset);;
  fuel ← gets (fun s => length (os_send (os s)));
  let passed := if (ub_fd u <? 0) || negb (offset =? 0) then None else Some (ub_fd u) in
  sendmsg_retry fuel fd (msg_iov u offset) passed.

(** [ubus_msg_list_free]: unlink a queue node and drop its message *)
Definition ubus_msg_list_free (cl : ptr) (ubl : ptr) : stm ubusd unit :=
  store cl (fun c => c <| cl_tx_queue ::= tail |>);;
  ubus_msg_free ubl.

(** The length test is done in [size_t]: [txq_len] is negative right after a
    partial write. *)
Definition ubus_msg_enqueue (cl ub : ptr) : stm ubusd bool :=
  c ← load (T := ubus_client) cl;
  u ← load ub;
  if UBUS_CLIENT_MAX_TXQ_LEN <? size_t (cl_txq_len c + sizeof_msghdr + ub_len u) then mret false
  else
    ok ← try_alloc;
    if negb ok then mret false
    else
      m ← ubus_msg_ref ub;
      match m with
      | None => mret false
      | Some m =>
          store cl (fun c => c <| cl_tx_queue ::= fun q => q ++ [m] |>
                               <| cl_txq_len ::= fun n => ssize_t (n + (ub_len u + sizeof_msghdr)) |>);;
          mret true
      end.

(** [ubus_msg_send] from the test of the queue on *)
Definition ubus_msg_transmit (cl ub : ptr) : stm ubusd unit :=
  c ← load (T := ubus_client) cl;
  u ← load ub;
  if decide (cl_tx_queue c = []) then
    ret ← ubus_msg_writev (cl_sock_fd c) ub 0;
    let written := match ret with Sent n => n | SendErr _ => 0 end in
    if ub_len u + sizeof_msghdr <=? written then mret tt
    else
      store cl (fun c => c <| cl_txq_ofs := written |> <| cl_txq_len := - written |>
                           <| cl_sock_poll := Some true |>);;
      ok ← ubus_msg_enqueue cl ub;
      when (negb ok && (0 <? written)) (store cl (fun c => c <| cl_sock_eof := true |>))
  else
    ok ← ubus_msg_enqueue cl ub;
    mret tt.

(** [ubus_msg_send] of a message of type [UBUS_MSG_MONITOR], which is not
    monitored itself *)
Definition ubus_msg_send_monitor (cl ub : ptr) : stm ubusd unit :=
  c ← load (T := ubus_client) cl;
  if cl_sock_eof c then mret tt else ubus_msg_transmit cl ub.

(** The [i]th monitor's turn in [ubusd_monitor_message] *)
Definition monitor_turn (mub : ptr) (i : nat) : stm ubusd unit :=
  ms ← gets monitors;
  match ms !! i with
  | None => undefined
  | Some m =>
      let seq := u16 (mon_seq m + 1) in
      modify (fun s => s <| monitors ::= insert i (m <| mon_seq := seq |>) |>);;
      store mub (fun u => u <| ub_hdr ::= fun h => h <| hdr_seq := seq |> |>);;
      ubus_msg_send_monitor (mon_cl m) mub
  end.

Definition monitor_puts (c : ubus_client) (u : ubus_msg_buf) (send : bool) : list put :=
  [put_int32 UBUS_MONITOR_CLIENT (cl_id c);
   put_int32 UBUS_MONITOR_PEER (hdr_peer (ub_hdr u));
   put_int32 UBUS_MONITOR_SEQ (hdr_seq (ub_hdr u));
   put_int32 UBUS_MONITOR_TYPE (hdr_type (ub_hdr u));
   put_int8 UBUS_MONITOR_SEND (if send then 1 else 0);
   put_blob UBUS_MONITOR_DATA (blob_data (ub_data u))].

Definition ubusd_monitor_message (cl ub : ptr) (send : bool) : stm ubusd unit :=
  ms ← gets monitors;
  if decide (ms = []) then mret tt
  else
    c ← load (T := ubus_client) cl;
    u ← load ub;
    let head := blob_render (monitor_puts c u send) in
    mub ← ubus_msg_new (Some head) (blob_raw_len head) true;
    match mub with
    | None => mret tt
    | Some mub =>
        store mub (fun u => u <| ub_hdr ::= fun h => h <| hdr_type := UBUS_MSG_MONITOR |> |>);;
        for_each (seq 0 (length ms)) (monitor_turn mub);;
        ubus_msg_free mub
    end.

Definition ubus_msg_send (cl ub : ptr) : stm ubusd unit :=
  c ← load (T := ubus_client) cl;
  if cl_sock_eof c then mret tt
  else
    u ← load ub;
    when (negb (hdr_type (ub_hdr u) =? UBUS_MSG_MONITOR)) (ubusd_monitor_message cl ub true);;
    ubus_msg_transmit cl ub.

(** ** The monitor object ([src/ubusd_monitor.c]) *)

(** [ubusd_monitor_find]: the position of the client's monitor *)
Definition ubusd_monitor_find (cl : ptr) (ms : list ubus_monitor) : option (nat * ubus_monitor) :=
  list_find (fun m => mon_cl m = cl) ms.

Definition ubusd_monitor_free (i : nat) : stm ubusd unit :=
  modify (fun s => s <| monitors ::= delete i |>).

Definition ubusd_monitor_disconnect (cl : ptr) : stm ubusd unit :=
  ms ← gets monitors;
  match ubusd_monitor_find cl ms with
  | None => mret tt
  | Some (i, _) => ubusd_monitor_free i
  end.

Definition ubusd_monitor_connect (cl : ptr) : stm ubusd bool :=
  ubusd_monitor_disconnect cl;;
  ok ← try_alloc;
  if (ok : bool) then modify (fun s => s <| monitors ::= fun ms => ms ++ [mk_monitor cl 0] |>);; mret true
  else mret false.

Definition ubusd_monitor_recv (cl : ptr) (method : string) : stm ubusd Z :=
  c ← load (T := ubus_client) cl;
  if negb (cl_uid c =? 0) || negb (cl_gid c =? 0) then status UBUS_STATUS_PERMISSION_DENIED
  else if strcmp method "add" =? 0 then
    ok ← ubusd_monitor_connect cl;
    status (if (ok : bool) then UBUS_STATUS_OK else UBUS_STATUS_UNKNOWN_ERROR)
  else if strcmp method "remove" =? 0 then
    ubusd_monitor_disconnect cl;;
    status UBUS_STATUS_OK
  else status UBUS_STATUS_METHOD_NOT_FOUND.
End MsgBuf.
