(* ===== verification/Frame.v ===== *)
(** * Framing and ownership

    Vocabulary for the specifications of the daemon's code:
    - weakest preconditions of the memory primitives;
    - [reg], the part of the state that describes who is connected and what is
      registered; sending messages leaves it alone;
    - [own_inv], the reference-count accounting of message buffers: every live
      message is owned by exactly as many places as its count says. *)

From stdpp Require Import base gmap strings list fin_maps sets.
From Stdlib Require Import ZArith Lia.
From S2P Require Import Prelude Wire Cstring Libubox Ids State MsgBuf.
Local Open Scope ubus_scope.

(** ** Counting *)

Definition cnt (m : ptr) (l : list ptr) : nat := length (filter (fun x => x = m) l).

Lemma cnt_app m l1 l2 : cnt m (l1 ++ l2) = cnt m l1 + cnt m l2.
Proof. unfold cnt. by rewrite filter_app, length_app. Qed.

Lemma cnt_cons m x l : cnt m (x :: l) = (if decide (x = m) then 1 else 0) + cnt m l.
Proof. unfold cnt. rewrite filter_cons. by case_decide. Qed.

Lemma cnt_nil m : cnt m [] = 0.
Proof. done. Qed.

Lemma cnt_pos m l : m ∈ l <-> 0 < cnt m l.
Proof.
  induction l as [|x l IH].
  - rewrite cnt_nil. split; [intros H; by apply not_elem_of_nil in H|lia].
  - rewrite elem_of_cons, cnt_cons, IH. case_decide; [split; [lia|auto]|].
    split; [intros [?|?]; [congruence|lia]|intros; right; lia].
Qed.

(** Summing over a heap *)
Definition map_sum {V} (f : V -> nat) (h : gmap ptr V) : nat :=
  sum_list_with (fun kv => f kv.2) (map_to_list h).

#[export] Instance sum_list_with_perm {A} (f : A -> nat) : Proper ((≡ₚ) ==> (=)) (sum_list_with f).
Proof. induction 1; simpl; lia. Qed.

Lemma map_sum_delete {V} (f : V -> nat) h k v :
  h !! k = Some v -> map_sum f h = f v + map_sum f (delete k h).
Proof. intros H. unfold map_sum. by rewrite <- (map_to_list_delete h k v) by done. Qed.

Lemma map_sum_insert_fresh {V} (f : V -> nat) h k v :
  h !! k = None -> map_sum f (<[k:=v]> h) = f v + map_sum f h.
Proof. intros H. unfold map_sum. by rewrite map_to_list_insert by done. Qed.

Lemma map_sum_insert {V} (f : V -> nat) h k v v' :
  h !! k = Some v -> map_sum f (<[k:=v']> h) + f v = map_sum f h + f v'.
Proof.
  intros H. rewrite (map_sum_delete f h k v H).
  rewrite <- insert_delete_eq, map_sum_insert_fresh by apply lookup_delete_eq. lia.
Qed.

(** ** Owners of messages *)

Definition opt_list {A} (o : option A) : list A := match o with Some x => [x] | None => [] end.

(** The message references a client holds *)
Definition client_refs (c : ubus_client) : list ptr :=
  cl_tx_queue c ++ (cmd_msg <$> cl_cmd_queue c) ++ opt_list (cl_pending_msg c) ++ opt_list (cl_retmsg c).

Definition owners (h : gmap ptr ubus_client) (m : ptr) : nat :=
  map_sum (fun c => cnt m (client_refs c)) h.

Lemma owners_delete h cl c m :
  h !! cl = Some c -> owners h m = cnt m (client_refs c) + owners (delete cl h) m.
Proof. apply (map_sum_delete (fun c => cnt m (client_refs c))). Qed.

Lemma owners_insert_fresh h cl c m :
  h !! cl = None -> owners (<[cl:=c]> h) m = cnt m (client_refs c) + owners h m.
Proof. apply (map_sum_insert_fresh (fun c => cnt m (client_refs c))). Qed.

Lemma owners_insert h cl c c' m :
  h !! cl = Some c ->
  owners (<[cl:=c']> h) m + cnt m (client_refs c) = owners h m + cnt m (client_refs c').
Proof. apply (map_sum_insert (fun c => cnt m (client_refs c))). Qed.

Lemma owners_insert_same h cl c c' m :
  h !! cl = Some c -> client_refs c' = client_refs c -> owners (<[cl:=c']> h) m = owners h m.
Proof. intros H Hr. pose proof (owners_insert h cl c c' m H). rewrite Hr in *. lia. Qed.

(** One more reference, one less *)
Lemma owners_give h cl c c' m n :
  h !! cl = Some c -> client_refs c' ≡ₚ m :: client_refs c ->
  owners (<[cl:=c']> h) n = (if decide (m = n) then 1 else 0) + owners h n.
Proof.
  intros H Hr. pose proof (owners_insert h cl c c' n H) as Hi.
  assert (cnt n (client_refs c') = cnt n (m :: client_refs c)) as E by (unfold cnt; by rewrite Hr).
  rewrite E, cnt_cons in Hi. lia.
Qed.

Lemma owners_take h cl c c' m n :
  h !! cl = Some c -> client_refs c ≡ₚ m :: client_refs c' ->
  owners h n = (if decide (m = n) then 1 else 0) + owners (<[cl:=c']> h) n.
Proof.
  intros H Hr. pose proof (owners_insert h cl c c' n H) as Hi.
  assert (cnt n (client_refs c) = cnt n (m :: client_refs c')) as E by (unfold cnt; by rewrite Hr).
  rewrite E, cnt_cons in Hi. lia.
Qed.

Lemma owners_pos h cl c m : h !! cl = Some c -> m ∈ client_refs c -> 0 < owners h m.
Proof. intros H Hm%cnt_pos. rewrite (owners_delete h cl c m H). lia. Qed.

(** ** The registry view *)

(** What sending does not change of a client and of an object *)
Definition cl_core (c : ubus_client) : ubus_client :=
  c <| cl_sock_eof := false |> <| cl_sock_poll := None |>
    <| cl_tx_queue := [] |> <| cl_txq_ofs := 0%Z |> <| cl_txq_len := 0%Z |>.

Definition obj_core (o : ubus_object) : ubus_object :=
  o <| obj_event_seen := 0%Z |> <| obj_invoke_seq := 0%Z |>.

#[global] Arguments cl_core : simpl never.
#[global] Arguments obj_core : simpl never.
#[global] Arguments client_refs : simpl never.

(** ** Well-formed messages and clients *)

(** A message has as many bytes as its length says; blob lengths have 24 bits. *)
Definition msg_ok (u : ubus_msg_buf) : Prop :=
  (Z.of_nat (length (ub_data u)) = ub_len u /\ 0 <= ub_len u < 2 ^ 24)%Z.

(** The bytes a queued message takes on the wire *)
Definition mlen (hm : gmap ptr ubus_msg_buf) (m : ptr) : Z :=
  match hm !! m with Some u => ub_len u + sizeof_msghdr | None => 0 end.

Fixpoint qlen (hm : gmap ptr ubus_msg_buf) (q : list ptr) : Z :=
  match q with [] => 0 | m :: q => mlen hm m + qlen hm q end.

(** [txq_len] counts the queued bytes still to be written; the first message
    has been written up to [txq_ofs]. *)
Definition tx_ok (hm : gmap ptr ubus_msg_buf) (q : list ptr) (ofs len : Z) : Prop :=
  match q with
  | [] => True
  | m :: _ => (0 <= ofs < mlen hm m /\ len = qlen hm q - ofs /\ len <= UBUS_CLIENT_MAX_TXQ_LEN)%Z
  end.

Lemma qlen_app hm q1 q2 : qlen hm (q1 ++ q2) = (qlen hm q1 + qlen hm q2)%Z.
Proof. induction q1 as [|m q1 IH]; simpl; lia. Qed.

Section ClientOk.
Context `{BL : BlobLib}.

(** The part of a message that [client_ok] depends on *)
Record msg_like (u u' : ubus_msg_buf) : Prop := {
  like_len : ub_len u' = ub_len u;
  like_size : length (ub_data u') = length (ub_data u);
  like_raw : blob_raw_len (ub_data u') = blob_raw_len (ub_data u);
  like_ext : ub_refcount u = USES_EXTERNAL_BUFFER <-> ub_refcount u' = USES_EXTERNAL_BUFFER;
}.

(** A client's reply message has its own buffer, its queue is accounted for,
    and what it has received so far fits the buffers. *)
Record client_ok (hm : gmap ptr ubus_msg_buf) (c : ubus_client) : Prop := {
  co_ret : forall r, cl_retmsg c = Some r ->
    exists u, hm !! r = Some u /\ ub_refcount u = USES_EXTERNAL_BUFFER /\ 12 <= length (ub_data u);
  co_tx : tx_ok hm (cl_tx_queue c) (cl_txq_ofs c) (cl_txq_len c);
  co_hdr : length (cl_hdrbuf c) = 12;
  co_rx : match cl_pending_msg c with
          | None => (0 <= cl_pending_msg_offset c <= 12)%Z
          | Some m => exists u, hm !! m = Some u /\ blob_raw_len (ub_data u) = ub_len u /\
                                (12 <= cl_pending_msg_offset c <= ub_len u + sizeof_msghdr)%Z
          end;
}.

Definition msgs_like (ms : list ptr) (hm hm' : gmap ptr ubus_msg_buf) : Prop :=
  forall m u, m ∈ ms -> hm !! m = Some u -> exists u', hm' !! m = Some u' /\ msg_like u u'.

Lemma mlen_like ms hm hm' m :
  msgs_like ms hm hm' -> m ∈ ms -> is_Some (hm !! m) -> mlen hm' m = mlen hm m.
Proof.
  intros H Hm [u Hu]. unfold mlen. destruct (H m u Hm Hu) as (u' & -> & [E _ _ _]). by rewrite Hu, E.
Qed.

Lemma qlen_like ms hm hm' q :
  msgs_like ms hm hm' -> (forall m, m ∈ q -> m ∈ ms /\ is_Some (hm !! m)) -> qlen hm' q = qlen hm q.
Proof.
  intros H. induction q as [|m q IH]; simpl; intros Hq; [done|].
  rewrite (mlen_like ms hm hm' m) by (done || apply Hq; set_solver).
  rewrite IH; [done|]. intros. apply Hq. set_solver.
Qed.

Lemma client_ok_like hm hm' c :
  (forall m, m ∈ client_refs c -> is_Some (hm !! m)) ->
  msgs_like (client_refs c) hm hm' -> client_ok hm c -> client_ok hm' c.
Proof.
  intros Hlive Hl [Hret Htx Hhdr Hrx]. split.
  - intros r Hr. destruct (Hret r Hr) as (u & Hu & Hext & Hsz).
    destruct (Hl r u) as (u' & Hu' & [_ Es _ Ee]); [|done|].
    { unfold client_refs. rewrite Hr, !elem_of_app. do 3 right. set_solver. }
    exists u'. rewrite Es, <- Ee. done.
  - assert (forall m, m ∈ cl_tx_queue c -> m ∈ client_refs c /\ is_Some (hm !! m)) as Hq.
    { intros m Hm. assert (m ∈ client_refs c); [unfold client_refs; set_solver|auto]. }
    unfold tx_ok in *. pose proof (qlen_like _ hm hm' (cl_tx_queue c) Hl Hq) as Eq.
    destruct (cl_tx_queue c) as [|m q]; [done|]. rewrite Eq.
    rewrite (mlen_like _ hm hm' m Hl); [done|apply Hq; set_solver..].
  - done.
  - destruct (cl_pending_msg c) as [m|] eqn:Em; [|done]. destruct Hrx as (u & Hu & Hraw & Hofs).
    destruct (Hl m u) as (u' & Hu' & [El _ Er _]); [|done|].
    { unfold client_refs. rewrite Em, !elem_of_app. do 2 right. left. set_solver. }
    exists u'. by rewrite El, Er.
Qed.
End ClientOk.

Section Frame.
Context `{AL : AvlLib} `{BL : BlobLib}.
Implicit Types (s : ubusd).

Definition reg (s : ubusd) : ubusd :=
  s <| h_objects ::= fmap obj_core |> <| h_clients ::= fmap cl_core |> <| h_msgs := ∅ |>
    <| brk := 1%positive |> <| event_seq := 0%Z |> <| obj_event_seq := 0%Z |> <| events_sent := 0%Z |>
    <| monitors ::= fmap (fun m => m <| mon_seq := 0%Z |>) |>
    <| os := mk_os [] [] [] [] ∅ ∅ [] [] |>.

Definition own_inv (ext : list ptr) (s : ubusd) : Prop :=
  forall m, owners (h_clients s) m <= 1 /\ cnt m ext <= 1 /\
    match h_msgs s !! m with
    | None => owners (h_clients s) m + cnt m ext = 0
    | Some u =>
        ub_refcount u = USES_EXTERNAL_BUFFER /\ owners (h_clients s) m + cnt m ext = 1 \/
        ub_refcount u = Z.of_nat (owners (h_clients s) m + cnt m ext) /\
          1 <= owners (h_clients s) m + cnt m ext
    end.

(** Addresses from the break on are unused. *)
Record fresh_ok (s : ubusd) : Prop := {
  fresh_objects : forall p, (brk s <= p)%positive -> h_objects s !! p = None;
  fresh_types : forall p, (brk s <= p)%positive -> h_types s !! p = None;
  fresh_subs : forall p, (brk s <= p)%positive -> h_subs s !! p = None;
  fresh_events : forall p, (brk s <= p)%positive -> h_events s !! p = None;
  fresh_clients : forall p, (brk s <= p)%positive -> h_clients s !! p = None;
  fresh_msgs : forall p, (brk s <= p)%positive -> h_msgs s !! p = None;
  fresh_acls : forall p, (brk s <= p)%positive -> h_acls s !! p = None;
  fresh_files : forall p, (brk s <= p)%positive -> h_files s !! p = None;
}.

(** [minv ext s]: memory is well managed, the running code holding the
    references [ext]. *)
Record minv (ext : list ptr) (s : ubusd) : Prop := {
  minv_fresh : fresh_ok s;
  minv_own : own_inv ext s;
  minv_msgs : forall m u, h_msgs s !! m = Some u -> msg_ok u;
  minv_clients : forall cl c, h_clients s !! cl = Some c -> client_ok (h_msgs s) c;
}.

(** [io_rel t s s']: the registry is unchanged, and so is every message outside
    [t] that was live, with its owners. *)
Record io_rel (t : list ptr) (s s' : ubusd) : Prop := {
  io_reg : reg s = reg s';
  io_msgs : forall m u, m ∉ t -> h_msgs s !! m = Some u -> h_msgs s' !! m = Some u;
  io_owners : forall m, m ∉ t -> is_Some (h_msgs s !! m) ->
    owners (h_clients s') m = owners (h_clients s) m;
}.

#[export] Instance msg_like_refl : Reflexive msg_like.
Proof. by split. Qed.

#[export] Instance io_rel_refl t : Reflexive (io_rel t).
Proof. by split. Qed.

#[export] Instance io_rel_trans t : Transitive (io_rel t).
Proof.
  intros s1 s2 s3 [Hr Hm Ho] [Hr' Hm' Ho']. split; [congruence|by eauto|].
  intros m Ht [u Hu]. rewrite (Ho' m Ht); [|by eauto]. apply Ho; eauto.
Qed.

Lemma io_rel_weaken t t' s s' : t ⊆ t' -> io_rel t s s' -> io_rel t' s s'.
Proof. intros Ht [Hr Hm Ho]. split; [done|..]; intros; [eapply Hm|eapply Ho]; try done; set_solver. Qed.

(** A message made in between does not count as touched. *)
Lemma io_rel_drop n t s s' : h_msgs s !! n = None -> io_rel (n :: t) s s' -> io_rel t s s'.
Proof.
  intros Hn [Hr Hm Ho]. split; [done| |].
  - intros m u Ht Hu. apply Hm; [|done]. apply not_elem_of_cons. split; [congruence|done].
  - intros m Ht [u Hu]. apply Ho; [|by eauto]. apply not_elem_of_cons. split; [congruence|done].
Qed.

(** ** Elementary steps *)

Lemma os_id s : s <| os := os s |> = s.
Proof. by destruct s. Qed.

Lemma own_live ext s m cl c :
  own_inv ext s -> h_clients s !! cl = Some c -> m ∈ client_refs c -> is_Some (h_msgs s !! m).
Proof.
  intros Ho Hc Hm. pose proof (owners_pos _ _ _ _ Hc Hm) as Hp. destruct (Ho m) as (_ & _ & H).
  destruct (h_msgs s !! m); [eauto|lia].
Qed.

Lemma minv_live_owned ext s m cl c :
  minv ext s -> h_clients s !! cl = Some c -> m ∈ client_refs c -> is_Some (h_msgs s !! m).
Proof. intros [_ Ho _ _]. by eapply own_live. Qed.

Lemma minv_live ext s m : minv ext s -> m ∈ ext -> is_Some (h_msgs s !! m).
Proof.
  intros [_ Ho _ _] Hm%cnt_pos. destruct (Ho m) as (_ & _ & H). destruct (h_msgs s !! m); [eauto|lia].
Qed.

(** The invariant reads the message heap and the clients only. *)
Lemma minv_same ext s s' :
  h_msgs s' = h_msgs s -> h_clients s' = h_clients s -> fresh_ok s' -> minv ext s -> minv ext s'.
Proof.
  intros Em Ec Hf [_ Ho Hm Hc]. split; [done|..]; unfold own_inv; rewrite ?Em, ?Ec; auto.
Qed.

Lemma minv_os ext s o : minv ext s -> minv ext (s <| os := o |>).
Proof. intros H. eapply minv_same; [..|exact H]; [done..|]. destruct (minv_fresh _ _ H). by split. Qed.

Lemma io_os t s o : io_rel t s (s <| os := o |>).
Proof. by split. Qed.

Lemma reg_upd_client s cl c c' :
  h_clients s !! cl = Some c -> cl_core c' = cl_core c ->
  reg (s <| h_clients ::= insert cl c' |>) = reg s.
Proof.
  intros Hc E. unfold reg. simpl. f_equal. rewrite fmap_insert, E. apply insert_id.
  by rewrite lookup_fmap, Hc.
Qed.

Lemma reg_upd_object s p o o' :
  h_objects s !! p = Some o -> obj_core o' = obj_core o ->
  reg (s <| h_objects ::= insert p o' |>) = reg s.
Proof.
  intros Ho E. unfold reg. simpl. f_equal. rewrite fmap_insert, E. apply insert_id.
  by rewrite lookup_fmap, Ho.
Qed.

Lemma fresh_upd_client s cl c c' :
  h_clients s !! cl = Some c -> fresh_ok s -> fresh_ok (s <| h_clients ::= insert cl c' |>).
Proof.
  intros Hc []. split; simpl; auto. intros p Hp. rewrite lookup_insert_ne; [auto|].
  intros ->. rewrite fresh_clients0 in Hc; done.
Qed.

Lemma fresh_upd_msg s m u u' :
  h_msgs s !! m = Some u -> fresh_ok s -> fresh_ok (s <| h_msgs ::= insert m u' |>).
Proof.
  intros Hm []. split; simpl; auto. intros p Hp. rewrite lookup_insert_ne; [auto|].
  intros ->. rewrite fresh_msgs0 in Hm; done.
Qed.

Lemma minv_put_client ext ext' s cl c c' :
  h_clients s !! cl = Some c -> client_ok (h_msgs s) c' -> minv ext s ->
  own_inv ext' (s <| h_clients ::= insert cl c' |>) ->
  minv ext' (s <| h_clients ::= insert cl c' |>).
Proof.
  intros Hc Hok [Hf _ Hm Hcs] Ho'. split; [by eapply fresh_upd_client|done|done|].
  intros p c0. simpl. rewrite lookup_insert_Some. intros [[-> <-]|[_ H]]; eauto.
Qed.

Lemma minv_upd_client ext s cl c c' :
  h_clients s !! cl = Some c -> client_refs c' = client_refs c -> client_ok (h_msgs s) c' ->
  minv ext s -> minv ext (s <| h_clients ::= insert cl c' |>).
Proof.
  intros Hc Hr Hok H. eapply minv_put_client; [done..|].
  intros m. simpl. rewrite (owners_insert_same _ _ _ _ m Hc Hr). apply H.
Qed.

Lemma io_upd_client t s cl c c' :
  h_clients s !! cl = Some c -> cl_core c' = cl_core c -> client_refs c' = client_refs c ->
  io_rel t s (s <| h_clients ::= insert cl c' |>).
Proof.
  intros Hc E Hr. split; [by erewrite reg_upd_client|done|].
  intros m _ _. simpl. by eapply owners_insert_same.
Qed.

Lemma minv_upd_object ext s p o o' :
  h_objects s !! p = Some o -> minv ext s -> minv ext (s <| h_objects ::= insert p o' |>).
Proof.
  intros Hp H. destruct (minv_fresh _ _ H). eapply minv_same; [..|exact H]; [done..|].
  split; simpl; auto. intros q Hq.
  rewrite lookup_insert_ne; [auto|]. intros ->. rewrite fresh_objects0 in Hp; done.
Qed.

(** Changing a message without changing its owners *)
Lemma minv_put_msg ext ext' s m u u' :
  h_msgs s !! m = Some u -> msg_like u u' -> msg_ok u' -> minv ext s ->
  own_inv ext' (s <| h_msgs ::= insert m u' |>) ->
  minv ext' (s <| h_msgs ::= insert m u' |>).
Proof.
  intros Hm Hl Hok [Hf Ho Hms Hcs] Ho'. split; [by eapply fresh_upd_msg|done|..]; simpl.
  - intros n v. rewrite lookup_insert_Some. intros [[_ <-]|[_ ?]]; eauto.
  - intros cl c Hc. apply (client_ok_like (h_msgs s)); [by intros; eapply (own_live ext s)| |by eapply Hcs].
    intros n v _ Hv. destruct (decide (m = n)) as [<-|Hne].
    + rewrite lookup_insert_eq. simplify_eq. eauto.
    + rewrite lookup_insert_ne by done. exists v. by split.
Qed.

Lemma minv_upd_msg ext s m u u' :
  h_msgs s !! m = Some u -> ub_refcount u' = ub_refcount u -> msg_like u u' -> minv ext s ->
  minv ext (s <| h_msgs ::= insert m u' |>).
Proof.
  intros Hm E Hl H. eapply minv_put_msg; [done..| |done|].
  - destruct (minv_msgs _ _ H m u Hm). destruct Hl. split; congruence.
  - intros n. simpl. destruct (minv_own _ _ H n) as (H1 & H2 & H3). split; [done|split; [done|]].
    destruct (decide (m = n)) as [<-|Hne].
    + rewrite lookup_insert_eq, E. by rewrite Hm in H3.
    + by rewrite lookup_insert_ne.
Qed.

Lemma io_upd_msg s m u' : io_rel [m] s (s <| h_msgs ::= insert m u' |>).
Proof.
  split; [done| |done]. intros n u Hn%not_elem_of_cons Hu. simpl.
  rewrite lookup_insert_ne; [done|]. naive_solver.
Qed.

(** Handing a reference over to a client, and taking one back *)
Lemma minv_give ext s m cl c c' :
  h_clients s !! cl = Some c -> client_refs c' ≡ₚ m :: client_refs c ->
  owners (h_clients s) m = 0 -> client_ok (h_msgs s) c' -> minv (m :: ext) s ->
  minv ext (s <| h_clients ::= insert cl c' |>).
Proof.
  intros Hc Hr Hm0 Hok H. eapply minv_put_client; [done..|].
  intros n. simpl. pose proof (minv_own _ _ H n) as Ho. rewrite (owners_give _ _ _ _ m n Hc Hr).
  rewrite cnt_cons in Ho. case_decide; subst; destruct (h_msgs s !! n); lia.
Qed.

Lemma minv_take ext s m cl c c' :
  h_clients s !! cl = Some c -> client_refs c ≡ₚ m :: client_refs c' ->
  cnt m ext = 0 -> client_ok (h_msgs s) c' -> minv ext s ->
  minv (m :: ext) (s <| h_clients ::= insert cl c' |>).
Proof.
  intros Hc Hr Hm0 Hok H. eapply minv_put_client; [done..|].
  intros n. simpl. pose proof (minv_own _ _ H n) as Ho. rewrite (owners_take _ _ _ _ m n Hc Hr) in Ho.
  rewrite cnt_cons. case_decide; subst; destruct (h_msgs s !! n); lia.
Qed.

(** ** What the registry view determines *)

Lemma reg_client s s' cl c :
  reg s = reg s' -> h_clients s !! cl = Some c ->
  exists c', h_clients s' !! cl = Some c' /\ cl_core c' = cl_core c.
Proof.
  intros Hr Hc. assert (cl_core <$> h_clients s !! cl = cl_core <$> h_clients s' !! cl) as E.
  { rewrite <- !lookup_fmap. exact (f_equal (fun s => h_clients s !! cl) Hr). }
  rewrite Hc in E. symmetry in E. apply fmap_Some in E as (c' & Hc' & E). eauto.
Qed.

Lemma reg_object s s' p o :
  reg s = reg s' -> h_objects s !! p = Some o ->
  exists o', h_objects s' !! p = Some o' /\ obj_core o' = obj_core o.
Proof.
  intros Hr Hc. assert (obj_core <$> h_objects s !! p = obj_core <$> h_objects s' !! p) as E.
  { rewrite <- !lookup_fmap. exact (f_equal (fun s => h_objects s !! p) Hr). }
  rewrite Hc in E. symmetry in E. apply fmap_Some in E as (o' & Ho' & E). eauto.
Qed.
End Frame.

(** Live addresses lie below the break. *)
Section Live.
Context `{AL : AvlLib}.
Implicit Types (s : ubusd).

Lemma below_brk {A} (h : gmap ptr A) b p x :
  (forall q, (b <= q)%positive -> h !! q = None) -> h !! p = Some x -> (p < b)%positive.
Proof. intros Hf Hp. destruct (decide (b <= p)%positive) as [Hle|]; [|lia]. by rewrite Hf in Hp. Qed.

Lemma live_object s p o : fresh_ok s -> h_objects s !! p = Some o -> (p < brk s)%positive.
Proof. intros []. by apply below_brk. Qed.
Lemma live_type s p o : fresh_ok s -> h_types s !! p = Some o -> (p < brk s)%positive.
Proof. intros []. by apply below_brk. Qed.
Lemma live_sub s p o : fresh_ok s -> h_subs s !! p = Some o -> (p < brk s)%positive.
Proof. intros []. by apply below_brk. Qed.
Lemma live_event s p o : fresh_ok s -> h_events s !! p = Some o -> (p < brk s)%positive.
Proof. intros []. by apply below_brk. Qed.
Lemma live_client s p o : fresh_ok s -> h_clients s !! p = Some o -> (p < brk s)%positive.
Proof. intros []. by apply below_brk. Qed.
Lemma live_msg s p o : fresh_ok s -> h_msgs s !! p = Some o -> (p < brk s)%positive.
Proof. intros []. by apply below_brk. Qed.
Lemma live_acl s p o : fresh_ok s -> h_acls s !! p = Some o -> (p < brk s)%positive.
Proof. intros []. by apply below_brk. Qed.
Lemma live_file s p o : fresh_ok s -> h_files s !! p = Some o -> (p < brk s)%positive.
Proof. intros []. by apply below_brk. Qed.
End Live.

(** [fresh_ok] after stores to live addresses, allocations and frees *)
Ltac solve_fresh :=
  match goal with
  | H : fresh_ok ?s |- fresh_ok _ =>
      repeat match goal with
      | Hp : h_objects s !! ?p = Some _ |- _ => pose proof (live_object _ _ _ H Hp); clear Hp
      | Hp : h_types s !! ?p = Some _ |- _ => pose proof (live_type _ _ _ H Hp); clear Hp
      | Hp : h_subs s !! ?p = Some _ |- _ => pose proof (live_sub _ _ _ H Hp); clear Hp
      | Hp : h_events s !! ?p = Some _ |- _ => pose proof (live_event _ _ _ H Hp); clear Hp
      | Hp : h_clients s !! ?p = Some _ |- _ => pose proof (live_client _ _ _ H Hp); clear Hp
      | Hp : h_msgs s !! ?p = Some _ |- _ => pose proof (live_msg _ _ _ H Hp); clear Hp
      | Hp : h_acls s !! ?p = Some _ |- _ => pose proof (live_acl _ _ _ H Hp); clear Hp
      | Hp : h_files s !! ?p = Some _ |- _ => pose proof (live_file _ _ _ H Hp); clear Hp
      end;
      let q := fresh "q" in let Hq := fresh "Hq" in
      destruct H; simpl in *; split; simpl; intros q Hq;
      repeat (rewrite lookup_insert_ne by lia); repeat (apply lookup_delete_None; right);
      repeat (rewrite lookup_insert_ne by lia);
      match goal with h : _ |- _ => apply h; lia end
  end.

(** [minv] after such steps on the heaps other than messages and clients *)
Ltac solve_minv :=
  match goal with
  | H : minv ?ext ?s |- minv ?ext _ =>
      apply (minv_same ext s); [reflexivity|reflexivity| |exact H];
      let Hf := fresh in pose proof (minv_fresh _ _ H) as Hf; solve_fresh
  end.

Ltac reg_fields H :=
  pose proof (f_equal h_types H); pose proof (f_equal h_subs H); pose proof (f_equal h_events H);
  pose proof (f_equal h_acls H); pose proof (f_equal h_files H);
  pose proof (f_equal ubusd_acl_files H); pose proof (f_equal objects H); pose proof (f_equal obj_types H);
  pose proof (f_equal path H); pose proof (f_equal clients H); pose proof (f_equal patterns H);
  pose proof (f_equal ubusd_acls H); simpl in *.

(** ** Memory primitives *)

Section Mem.
Context `{AL : AvlLib}.
Context {T : Type} `{!Heap T}.
Implicit Types (s : ubusd) (x : T).

Lemma wp_load p x (Q : T -> ubusd -> Prop) s : heap s !! p = Some x -> Q x s -> wp (load p) Q s.
Proof. unfold wp, load. by intros ->. Qed.

Lemma wp_store p x (f : T -> T) Q s :
  heap s !! p = Some x -> Q tt (set_heap (insert p (f x)) s) -> wp (store p f) Q s.
Proof. unfold wp, store. by intros ->. Qed.

Lemma wp_free p x Q s :
  heap s !! p = Some x -> Q tt (set_heap (T := T) (delete p) s) -> wp (free_ptr (T := T) p) Q s.
Proof. unfold wp, free_ptr. by intros ->. Qed.

Lemma wp_alloc x (Q : option ptr -> ubusd -> Prop) s :
  (forall o, Q None (s <| os := o |>)) ->
  (forall o, Q (Some (brk s)) (set_heap (insert (brk s) x) (s <| os := o |> <| brk ::= Pos.succ |>))) ->
  wp (alloc x) Q s.
Proof. intros Hn Hs. unfold wp, alloc. destruct (os_pop_alloc (os s)) as [[] o]; [apply Hs|apply Hn]. Qed.

(** An allocator that has not run out succeeds. *)
Lemma wp_alloc_os x (Q : option ptr -> ubusd -> Prop) s :
  (forall o, os_alloc (os s) <> [] -> Q None (s <| os := o |>)) ->
  (forall o, (os_alloc (os s) = [] -> os_alloc o = []) ->
     Q (Some (brk s)) (set_heap (insert (brk s) x) (s <| os := o |> <| brk ::= Pos.succ |>))) ->
  wp (alloc x) Q s.
Proof.
  intros Hn Hs. unfold wp, alloc, os_pop_alloc. destruct (os_alloc (os s)) as [|[] rest] eqn:E.
  - apply (Hs (os s)). by rewrite E.
  - by apply Hs.
  - by apply Hn.
Qed.

End Mem.

(** Frames of the memory primitives: a part of the state that does not see the
    heap of [T] (nor the operating system) *)
Section PresMem.
Context `{AL : AvlLib}.
Context {T : Type} `{!Heap T} {X : Type} (π : ubusd -> X).

Lemma pres_load p : preserves π (load (T := T) p).
Proof. intros s a s'. unfold load. destruct (heap s !! p); [|done]. by intros [= _ <-]. Qed.

Lemma pres_store p (f : T -> T) : (forall g s, π (set_heap (T := T) g s) = π s) -> preserves π (store p f).
Proof. intros H s a s'. unfold store. destruct (heap s !! p); [|done]. intros [= _ <-]. apply H. Qed.

Lemma pres_free p : (forall g s, π (set_heap (T := T) g s) = π s) -> preserves π (free_ptr (T := T) p).
Proof. intros H s a s'. unfold free_ptr. destruct (heap s !! p); [|done]. intros [= _ <-]. apply H. Qed.

Lemma pop_alloc_eq o : exists l, (os_pop_alloc o).2 = o <| os_alloc := l |>.
Proof. unfold os_pop_alloc. destruct (os_alloc o) as [|b l] eqn:E; [exists []; destruct o; simpl in *; congruence|by exists l]. Qed.

Lemma pres_alloc (x : T) :
  (forall g s, π (set_heap (T := T) g s) = π s) ->
  (forall b l s, π (s <| os ::= (fun o => o <| os_alloc := l |>) |> <| brk := b |>) = π s) ->
  preserves π (alloc x).
Proof.
  intros H Ho s a s'. unfold alloc. destruct (pop_alloc_eq (os s)) as [l E].
  destruct (os_pop_alloc (os s)) as [[] o]; simpl in E; subst o; intros [= _ <-].
  - rewrite H. exact (Ho _ l s).
  - exact (Ho (brk s) l s).
Qed.

Lemma pres_try_alloc : (forall l s, π (s <| os ::= (fun o => o <| os_alloc := l |>) |>) = π s) -> preserves π try_alloc.
Proof.
  intros H s a s'. unfold try_alloc. destruct (pop_alloc_eq (os s)) as [l E].
  destruct (os_pop_alloc (os s)) as [b o]. simpl in E. subst o. intros [= _ <-]. exact (H l s).
Qed.

Lemma pres_close fd :
  (forall g s, π (s <| os ::= (fun o => o <| os_closed ::= g |>) |>) = π s) -> preserves π (sys_close fd).
Proof. intros H. apply pres_modify. intros s. apply H. Qed.

Lemma pres_sendmsg fd iov passed : (forall o s, π (s <| os := o |>) = π s) -> preserves π (sys_sendmsg fd iov passed).
Proof.
  intros H s a s'. unfold sys_sendmsg. destruct (os_send (os s)) as [|[]]; intros [= _ <-]; [done|apply H..].
Qed.
End PresMem.

#[export] Hint Resolve pres_load pres_store pres_free pres_alloc pres_try_alloc pres_close pres_sendmsg : pres.

Section Sys.
Context `{AL : AvlLib}.
Implicit Types (s : ubusd).

Lemma wp_try_alloc Q s : (forall b o, Q b (s <| os := o |>)) -> wp try_alloc Q s.
Proof. intros H. unfold wp, try_alloc. by destruct (os_pop_alloc (os s)). Qed.

Lemma wp_close fd Q s : (forall o, Q tt (s <| os := o |>)) -> wp (sys_close fd) Q s.
Proof. intros H. apply wp_modify. apply H. Qed.

Lemma wp_sendmsg fd iov passed (Q : send_result -> ubusd -> Prop) s :
  (forall e o, Q (SendErr e) (s <| os := o |>)) ->
  (forall n o, (0 <= n <= Z.of_nat (length iov))%Z -> Q (Sent n) (s <| os := o |>)) ->
  wp (sys_sendmsg fd iov passed) Q s.
Proof.
  intros He Hn. unfold wp, sys_sendmsg. destruct (os_send (os s)) as [|[n|e] rest].
  - specialize (He EAGAIN (os s)). by destruct s.
  - apply Hn. lia.
  - apply He.
Qed.

Lemma wp_recvmsg fd want (Q : option (bytes * list cmsghdr) -> ubusd -> Prop) s :
  (forall o, Q None (s <| os := o |>)) ->
  (forall bs cmsgs o, (Z.of_nat (length bs) <= Z.max 0 want)%Z -> Q (Some (bs, cmsgs)) (s <| os := o |>)) ->
  wp (sys_recvmsg fd want) Q s.
Proof.
  intros He Hn. unfold wp, sys_recvmsg. destruct (os_recv (os s)) as [|[n cs|] rest].
  - specialize (He (os s)). by destruct s.
  - apply Hn. rewrite length_take. lia.
  - apply He.
Qed.
End Sys.
