(* ===== verification/SendSpec.v ===== *)
(** * Sending is memory safe

    Specifications of the operations of [MsgBuf.v]: none of them meets
    undefined behaviour, they leave the registry alone, and they keep the
    reference counts of messages exact. *)

From stdpp Require Import base gmap strings list fin_maps sets.
From Stdlib Require Import ZArith Lia.
From S2P Require Import Prelude Wire Cstring Libubox Ids State MsgBuf Frame.
Local Open Scope ubus_scope.

(** The same message up to its reference count and descriptor *)
Record msg_sim (u u' : ubus_msg_buf) : Prop := {
  sim_hdr : ub_hdr u' = ub_hdr u;
  sim_data : ub_data u' = ub_data u;
  sim_len : ub_len u' = ub_len u;
  sim_ext : ub_refcount u = USES_EXTERNAL_BUFFER <-> ub_refcount u' = USES_EXTERNAL_BUFFER;
}.

#[export] Instance msg_sim_refl : Reflexive msg_sim.
Proof. by split. Qed.

#[export] Instance msg_sim_trans : Transitive msg_sim.
Proof. intros u1 u2 u3 [] []. split; [congruence..|tauto]. Qed.

Section SendSpec.
Context `{AL : AvlLib} `{BL : BlobLib}.
Implicit Types (s : ubusd).

(** Sending may be asked for a message with an external buffer, or one no
    client refers to yet. *)
Definition sendable (ub : ptr) (u : ubus_msg_buf) (s : ubusd) : Prop :=
  h_msgs s !! ub = Some u /\
  (ub_refcount u = USES_EXTERNAL_BUFFER \/ owners (h_clients s) ub = 0).

(** What an attempt to send [ub] does *)
Record sent_rel (ub : ptr) (u : ubus_msg_buf) (ext : list ptr) (s s' : ubusd) : Prop := {
  sent_minv : minv ext s';
  sent_io : io_rel [ub] s s';
  sent_msg : exists u', h_msgs s' !! ub = Some u' /\ msg_sim u u';
  sent_owners : ub_refcount u = USES_EXTERNAL_BUFFER ->
    owners (h_clients s') ub = owners (h_clients s) ub;
}.

Lemma sent_rel_trans ub u u2 ext s1 s2 s3 :
  sent_rel ub u ext s1 s2 -> h_msgs s2 !! ub = Some u2 -> sent_rel ub u2 ext s2 s3 ->
  sent_rel ub u ext s1 s3.
Proof.
  intros [_ Hio (u' & Hu' & Hs) Ho] Hu2 [Hm Hio' (u'' & Hu'' & Hs') Ho']. simplify_eq.
  split; [done|by etrans|exists u''; split; [done|by etrans]|].
  intros E. rewrite Ho', Ho; [done..|]. by apply Hs.
Qed.

Lemma sent_rel_refl ub u ext s :
  minv ext s -> h_msgs s !! ub = Some u -> sent_rel ub u ext s s.
Proof. intros H Hu. split; [done|reflexivity|eauto using msg_sim_refl|done]. Qed.

Lemma sent_rel_os ext ub u s o s' : sent_rel ub u ext (s <| os := o |>) s' -> sent_rel ub u ext s s'.
Proof.
  intros [Hm Hio Hu Ho]. split; [done| |done|done]. etrans; [apply io_os|exact Hio].
Qed.

(** ** Making and dropping messages *)

(** The data a message is made from has the length it is made with. *)
Definition new_ok (data : option bytes) (len : Z) (shared : bool) : Prop :=
  (0 <= len < 2 ^ 24)%Z /\
  match data with Some d => Z.of_nat (length d) = len | None => shared = false end.

Definition new_msg (data : option bytes) (len : Z) (shared : bool) : ubus_msg_buf :=
  mk_msg_buf (if shared then USES_EXTERNAL_BUFFER else 1%Z) msghdr_zero
    (match data with Some d => d | None => replicate (Z.to_nat len) 0%Z end) (-1) len.

Lemma new_msg_eq data len shared :
  new_ok data len shared ->
  mk_msg_buf (if shared then USES_EXTERNAL_BUFFER else 1%Z) msghdr_zero
    (if shared then default [] data else msg_new_data data len) (-1) len = new_msg data len shared.
Proof.
  intros [Hl Hd]. unfold new_msg. f_equal. destruct data as [d|]; [|by subst].
  destruct shared; [done|]. simpl. rewrite take_ge by lia. done.
Qed.

Lemma new_msg_ok data len shared : new_ok data len shared -> msg_ok (new_msg data len shared).
Proof.
  intros [Hl Hd]. split; [|done]. simpl. destruct data as [d|]; [done|]. rewrite length_replicate. lia.
Qed.

Lemma minv_new_msg ext s u o :
  (ub_refcount u = USES_EXTERNAL_BUFFER \/ ub_refcount u = 1%Z) -> msg_ok u -> minv ext s ->
  minv (brk s :: ext) (s <| os := o |> <| brk ::= Pos.succ |> <| h_msgs ::= insert (brk s) u |>) /\
  h_msgs s !! brk s = None /\ owners (h_clients s) (brk s) = 0.
Proof.
  intros Hrc Hok [Hf Ho Hms Hcs]. pose proof (fresh_msgs _ Hf (brk s) ltac:(lia)) as Hn.
  destruct (Ho (brk s)) as (_ & _ & Hz). rewrite Hn in Hz. split; [|by split; [|lia]].
  split; [solve_fresh|..]; simpl.
  - intros m. simpl. specialize (Ho m). rewrite cnt_cons. case_decide; [subst|rewrite lookup_insert_ne by done].
    + rewrite lookup_insert_eq. lia.
    + exact Ho.
  - intros m v. rewrite lookup_insert_Some. intros [[_ <-]|[_ ?]]; eauto.
  - intros cl c Hc. apply (client_ok_like (h_msgs s)); [by intros; eapply (own_live ext s)| |by eapply Hcs].
    intros n v _ Hv. exists v. rewrite lookup_insert_ne by congruence. by split.
Qed.

Lemma msg_new_spec ext data len shared s :
  new_ok data len shared -> minv ext s ->
  wp (ubus_msg_new data len shared) (fun r s' =>
    io_rel [] s s' /\ h_clients s' = h_clients s /\
    match r with
    | None => minv ext s'
    | Some m =>
        minv (m :: ext) s' /\ h_msgs s !! m = None /\
        h_msgs s' !! m = Some (new_msg data len shared) /\
        owners (h_clients s') m = 0
    end) s.
Proof.
  intros Hd Hinv. unfold ubus_msg_new. rewrite (new_msg_eq _ _ _ Hd). apply wp_bind, wp_alloc; intros o; simpl.
  - split; [apply io_os|]. split; [done|]. by apply minv_os.
  - destruct (minv_new_msg ext s (new_msg data len shared) o) as (Hm & Hn & Hz);
      [by destruct shared; [left|right]|by apply new_msg_ok|done|].
    apply wp_bind.
    assert (forall Q : unit -> ubusd -> Prop, forall s', Q tt s' ->
      wp (when (bool_decide (is_Some (Some (brk s))) && negb shared) (assert (msg_new_fits data len))) Q s') as Hw.
    { intros Q s' HQ. destruct shared; [done|]. apply wp_assert; [|done]. destruct Hd as [_ Hd].
      destruct data as [d|]; [|done]. simpl. apply Z.leb_le. lia. }
    apply Hw, wp_ret. split; [|split; [done|split; [exact Hm|split; [done|split; [apply lookup_insert_eq|done]]]]].
    split; [done| |done]. intros m v _ Hv. simpl. rewrite lookup_insert_ne by congruence. done.
Qed.

Lemma minv_free_msg ext s ub u o :
  h_msgs s !! ub = Some u -> (ub_refcount u = 1%Z \/ ub_refcount u = USES_EXTERNAL_BUFFER) ->
  minv (ub :: ext) s -> minv ext (s <| os := o |> <| h_msgs ::= delete ub |>).
Proof.
  intros Hu Hrc [Hf Ho Hms Hcs].
  assert (owners (h_clients s) ub = 0) as Hz.
  { specialize (Ho ub). rewrite cnt_cons, decide_True, Hu in Ho by done. unfold USES_EXTERNAL_BUFFER in *. lia. }
  split; [solve_fresh|..]; simpl.
  - intros m. specialize (Ho m). simpl. rewrite cnt_cons in Ho. case_decide; [subst|].
    + rewrite lookup_delete_eq. rewrite Hu in Ho. unfold USES_EXTERNAL_BUFFER in *. lia.
    + by rewrite lookup_delete_ne.
  - intros m v [_ Hv]%lookup_delete_Some. eauto.
  - intros cl c Hc. apply (client_ok_like (h_msgs s)); [by intros; eapply (own_live (ub :: ext) s)| |by eapply Hcs].
    intros n v Hn Hv. exists v. pose proof (owners_pos _ _ _ _ Hc Hn). rewrite lookup_delete_ne by (intros ->; lia).
    by split.
Qed.

Lemma minv_unref ext s ub u :
  h_msgs s !! ub = Some u -> ub_refcount u <> 1%Z -> ub_refcount u <> USES_EXTERNAL_BUFFER ->
  minv (ub :: ext) s ->
  minv ext (s <| h_msgs ::= insert ub (u <| ub_refcount := u32 (ub_refcount u - 1) |>) |>).
Proof.
  intros Hu H1 He H. assert (u32 (ub_refcount u - 1) = 1%Z) as E.
  { pose proof (minv_own _ _ H ub) as Ho. rewrite cnt_cons, decide_True, Hu in Ho by done.
    unfold u32. rewrite Z.mod_small; lia. }
  eapply minv_put_msg; [done| |exact (minv_msgs _ _ H _ _ Hu)|exact H|].
  - split; try done. simpl. rewrite E. done.
  - intros m. pose proof (minv_own _ _ H m) as Ho. simpl. rewrite cnt_cons in Ho. case_decide; [subst|].
    + rewrite lookup_insert_eq. rewrite Hu in Ho. simpl. rewrite E. lia.
    + by rewrite lookup_insert_ne.
Qed.

Lemma io_free_msg s ub o : io_rel [ub] s (s <| os := o |> <| h_msgs ::= delete ub |>).
Proof.
  split; [done| |done]. intros m u' Hm%not_elem_of_cons Hu'. simpl.
  rewrite lookup_delete_ne by naive_solver. done.
Qed.

Lemma msg_free_spec ext ub s :
  minv (ub :: ext) s ->
  wp (ubus_msg_free ub) (fun _ s' =>
    minv ext s' /\ io_rel [ub] s s' /\ h_clients s' = h_clients s) s.
Proof.
  intros Hinv. destruct (minv_live _ _ ub Hinv ltac:(by left)) as [u Hu].
  unfold ubus_msg_free. apply wp_bind. eapply wp_load; [done|].
  destruct ((ub_refcount u =? 1)%Z || (ub_refcount u =? USES_EXTERNAL_BUFFER)%Z) eqn:E.
  - apply orb_prop in E. rewrite !Z.eqb_eq in E.
    apply wp_bind. destruct (0 <=? ub_fd u)%Z; unfold when; [apply wp_close; intros o|apply wp_ret].
    + eapply wp_free; [done|]. split; [by apply (minv_free_msg ext s ub u o)|]. split; [apply io_free_msg|done].
    + eapply wp_free; [done|]. pose proof (minv_free_msg ext s ub u (os s) Hu E Hinv) as H.
      pose proof (io_free_msg s ub (os s)) as Hio. rewrite os_id in H, Hio. done.
  - apply orb_false_elim in E. rewrite !Z.eqb_neq in E. destruct E as [E1 E2].
    eapply wp_store; [done|]. split; [by apply minv_unref|]. split; [apply io_upd_msg|done].
Qed.

(** ** Queueing *)

Lemma client_refs_enqueue c m n :
  client_refs (c <| cl_tx_queue ::= fun q => q ++ [m] |> <| cl_txq_len := n |>) ≡ₚ m :: client_refs c.
Proof. unfold client_refs. simpl. rewrite <- !app_assoc. simpl. symmetry. apply Permutation_middle. Qed.

(** When the queue is empty, the bytes already written are on the account. *)
Definition enq_ready (c : ubus_client) (u : ubus_msg_buf) : Prop :=
  cl_tx_queue c = [] -> (cl_txq_len c = - cl_txq_ofs c /\ 0 <= cl_txq_ofs c < ub_len u + sizeof_msghdr)%Z.

Lemma qlen_nonneg hm q : (forall m u, hm !! m = Some u -> msg_ok u) -> (0 <= qlen hm q)%Z.
Proof.
  intros Hms. induction q as [|x q IH]; simpl; [lia|]. unfold mlen, sizeof_msghdr.
  destruct (hm !! x) as [v|] eqn:Ev; [|lia]. destruct (Hms x v Ev). lia.
Qed.

(** The new account, when the limit is respected *)
Lemma enqueue_ok hm c u n nu :
  client_ok hm c -> msg_ok u -> enq_ready c u -> (forall m u, hm !! m = Some u -> msg_ok u) ->
  hm !! n = Some nu -> ub_len nu = ub_len u ->
  (size_t (cl_txq_len c + sizeof_msghdr + ub_len u) <= UBUS_CLIENT_MAX_TXQ_LEN)%Z ->
  client_ok hm (c <| cl_tx_queue ::= fun q => q ++ [n] |>
                  <| cl_txq_len ::= fun k => ssize_t (k + (ub_len u + sizeof_msghdr)) |>).
Proof.
  intros [Hret Htx Hhdr Hrx] [_ Hlen] Hrdy Hms Hn El Hmax. split; [done| |done|done]. simpl.
  assert (mlen hm n = ub_len u + sizeof_msghdr)%Z as Em by (unfold mlen; by rewrite Hn, El).
  unfold enq_ready, tx_ok in *. unfold UBUS_CLIENT_MAX_TXQ_LEN, UBUS_MAX_MSGLEN, sizeof_msghdr in *.
  destruct (cl_tx_queue c) as [|q0 q] eqn:Eq; cbn [app] in *.
  - destruct (Hrdy eq_refl) as [E0 Hofs]. rewrite E0 in *.
    rewrite size_t_small in Hmax by lia. rewrite ssize_t_small by lia. simpl. rewrite Em. lia.
  - destruct Htx as (Hofs & Elen & Hle). rewrite Elen in *. simpl in *.
    pose proof (qlen_nonneg hm q Hms). rewrite size_t_small in Hmax by lia. rewrite ssize_t_small by lia.
    rewrite qlen_app. simpl. rewrite Em. lia.
Qed.

(** The queue takes the reference [n]: the message itself, or its copy. *)
Lemma enqueue_finish ext cl c c' ub u n s s3 :
  h_clients s3 !! cl = Some c -> client_refs c' ≡ₚ n :: client_refs c -> cl_core c' = cl_core c ->
  client_ok (h_msgs s3) c' ->
  minv (n :: ext) s3 -> owners (h_clients s3) n = 0 ->
  h_msgs s !! n = None -> io_rel [n; ub] s s3 ->
  (exists u', h_msgs s3 !! ub = Some u' /\ msg_sim u u') ->
  n <> ub /\ owners (h_clients s3) ub = owners (h_clients s) ub ->
  sent_rel ub u ext s (s3 <| h_clients ::= insert cl c' |>).
Proof.
  intros Hc Hp Hcore Hok Hm Ho Hn Hio Hu [Hne Hub]. split.
  - by eapply minv_give.
  - eapply io_rel_drop; [exact Hn|]. etrans; [exact Hio|]. split; [|done|].
    + symmetry. by eapply reg_upd_client.
    + intros m Hmt _. simpl. erewrite owners_give by done. rewrite decide_False by set_solver. done.
  - done.
  - intros _. simpl. erewrite owners_give by done. by rewrite decide_False.
Qed.

(** A counted message is shared with the queue. *)
Lemma enqueue_shared ext cl c c' ub u s :
  minv ext s -> h_clients s !! cl = Some c -> h_msgs s !! ub = Some u ->
  client_refs c' ≡ₚ ub :: client_refs c -> cl_core c' = cl_core c -> client_ok (h_msgs s) c' ->
  ub_refcount u <> USES_EXTERNAL_BUFFER -> owners (h_clients s) ub = 0 ->
  sent_rel ub u ext s
    (s <| h_msgs ::= insert ub (u <| ub_refcount := u32 (ub_refcount u + 1) |>) |>
       <| h_clients ::= insert cl c' |>).
Proof.
  intros Hinv Hc Hu Hp Hcore Hok Hne Hz.
  assert (ub_refcount u = 1%Z) as Hrc.
  { pose proof (minv_own _ _ Hinv ub) as Ho. rewrite Hu in Ho. lia. }
  set (u' := u <| ub_refcount := _ |>).
  assert (msg_like u u') as Hlike by (split; try done; simpl; by rewrite Hrc).
  assert (own_inv ext (s <| h_msgs ::= insert ub u' |> <| h_clients ::= insert cl c' |>)) as Hown.
  { intros m. simpl. erewrite owners_give by done. pose proof (minv_own _ _ Hinv m) as Ho.
    destruct (decide (ub = m)) as [<-|Hm].
    + rewrite lookup_insert_eq. rewrite Hu in Ho. simpl. rewrite Hrc in *.
      change (u32 (1 + 1))%Z with 2%Z. lia.
    + rewrite lookup_insert_ne by done. exact Ho. }
  split.
  - split; [|exact Hown|simpl..].
    + eapply (fresh_upd_client _ cl c); [exact Hc|]. eapply (fresh_upd_msg s ub u); [exact Hu|]. apply Hinv.
    + intros n v. rewrite lookup_insert_Some. intros [[_ <-]|[_ ?]]; [|by eapply minv_msgs].
      exact (minv_msgs _ _ Hinv _ _ Hu).
    + intros p c0. rewrite lookup_insert_Some. intros H.
      apply (client_ok_like (h_msgs s)).
      * intros m Hm. destruct H as [[-> <-]|[_ H]]; [|by eapply (own_live ext s); [apply Hinv|..]].
        rewrite Hp in Hm. apply elem_of_cons in Hm as [->|Hm]; [eauto|]. by eapply (own_live ext s); [apply Hinv|..].
      * intros n v _ Hv. destruct (decide (ub = n)) as [<-|Hnn].
        { rewrite lookup_insert_eq. simplify_eq. eauto. }
        rewrite lookup_insert_ne by done. exists v. by split.
      * destruct H as [[-> <-]|[_ H]]; [done|by eapply minv_clients].
  - split.
    + symmetry. etrans; [eapply (reg_upd_client (s <| h_msgs ::= _ |>)); [exact Hc|done]|done].
    + intros m v Hm%not_elem_of_cons Hv. simpl. rewrite lookup_insert_ne by naive_solver. done.
    + intros m Hm%not_elem_of_cons _. simpl. erewrite owners_give by done. rewrite decide_False by naive_solver. done.
  - simpl. rewrite lookup_insert_eq. eexists. split; [done|]. by split; try apply Hlike.
  - done.
Qed.

Lemma msg_enqueue_spec ext cl c ub u s :
  minv ext s -> h_clients s !! cl = Some c -> sendable ub u s -> enq_ready c u ->
  wp (ubus_msg_enqueue cl ub) (fun _ => sent_rel ub u ext s) s.
Proof.
  intros Hinv Hc [Hu Hs] Hrdy. unfold ubus_msg_enqueue.
  pose proof (minv_msgs _ _ Hinv _ _ Hu) as Huok. pose proof (minv_clients _ _ Hinv _ _ Hc) as Hcok.
  apply wp_bind. eapply wp_load; [done|]. apply wp_bind. eapply wp_load; [done|].
  case_match eqn:Elim; [by apply sent_rel_refl|]. apply Z.ltb_ge in Elim.
  apply wp_bind, wp_try_alloc. intros ok o. destruct ok; simpl.
  2:{ split; [by apply minv_os|apply io_os|by exists u|done]. }
  apply wp_bind. unfold ubus_msg_ref. apply wp_bind. eapply wp_load; [done|].
  destruct (Z.eqb_spec (ub_refcount u) USES_EXTERNAL_BUFFER) as [E|E].
  - apply wp_bind. eapply wp_mono; [|apply (msg_new_spec ext); [by split; apply Huok|apply minv_os, Hinv]].
    intros [n|] s1 (Hio & Hcl & Hn); simpl in Hcl.
    2:{ apply wp_ret. simpl. apply io_msgs with (m := ub) (u := u) in Hio as Hu1; [|set_solver|done].
        split; [exact Hn| |exists u; split; [exact Hu1|reflexivity]|intros _; by rewrite Hcl].
        eapply io_rel_weaken; [|etrans; [apply io_os|exact Hio]]. set_solver. }
    destruct Hn as (Hm & Hfresh & Hnew & Hown). simpl in Hfresh.
    assert (n <> ub) as Hne by congruence.
    apply io_msgs with (m := ub) (u := u) in Hio as Hu1; [|set_solver|done].
    apply wp_bind. eapply wp_store; [done|]. apply wp_bind.
    eapply wp_store; [simpl; by rewrite lookup_insert_ne|]. apply wp_ret.
    apply wp_bind. eapply wp_store; [simpl; by rewrite Hcl|]. apply wp_ret.
    set (s2 := set_heap (insert n _) s1). set (s3 := set_heap (insert ub _) s2).
    assert (io_rel [n; ub] s s3) as Hio3.
    { transitivity s1; [eapply io_rel_weaken; [|etrans; [apply io_os|exact Hio]]; set_solver|].
      transitivity s2; (eapply io_rel_weaken; [|apply io_upd_msg]; set_solver). }
    assert (minv (n :: ext) s3) as Hm3.
    { eapply minv_upd_msg; [simpl; by rewrite lookup_insert_ne|done..|]. by eapply minv_upd_msg. }
    assert (h_clients s3 !! cl = Some c) as Hc3 by (simpl; by rewrite Hcl).
    eapply enqueue_finish; [exact Hc3|apply client_refs_enqueue|done| |exact Hm3|done|exact Hfresh|exact Hio3|..].
    + eapply (enqueue_ok (h_msgs s3)); [eapply minv_clients, Hc3; exact Hm3|done..|by eapply minv_msgs| | |done].
      * simpl. rewrite lookup_insert_ne, lookup_insert_eq by done. done.
      * done.
    + simpl. rewrite lookup_insert_eq. eexists. split; [done|]. by split.
    + simpl. by rewrite Hcl.
  - destruct Hs as [|Hz]; [done|]. apply wp_bind. eapply wp_store; [done|]. apply wp_ret.
    apply wp_bind. eapply wp_store; [done|]. apply wp_ret.
    eapply (sent_rel_os ext ub u s o). apply (enqueue_shared ext cl c); try done; [by apply minv_os|apply client_refs_enqueue|].
    eapply (enqueue_ok (h_msgs s)); [exact Hcok|exact Huok|exact Hrdy|apply (minv_msgs _ _ Hinv)|exact Hu|done|exact Elim].
Qed.

(** With memory left, a message can be referenced. *)
Lemma msg_ref_succeeds ext ub u s :
  minv ext s -> h_msgs s !! ub = Some u -> os_alloc (os s) = [] ->
  wp (ubus_msg_ref ub) (fun r s' => is_Some r /\ h_clients s' = h_clients s) s.
Proof.
  intros Hm Hu Ha. destruct (minv_msgs _ _ Hm _ _ Hu) as [El _]. unfold ubus_msg_ref. apply wp_bind.
  eapply wp_load; [done|]. case_match; [|apply wp_bind; eapply wp_store; [exact Hu|]; by apply wp_ret].
  assert (h_msgs s !! brk s = None) as Hf by (apply (fresh_msgs _ (minv_fresh _ _ Hm)); lia).
  apply wp_bind. unfold ubus_msg_new. apply wp_bind, wp_alloc_os; intros o Ho; [done|]. apply wp_bind, wp_assert.
  { simpl. apply Z.leb_le. lia. }
  apply wp_ret, wp_bind. eapply wp_store; [apply lookup_insert_eq|]. apply wp_bind.
  eapply wp_store; [simpl; rewrite !lookup_insert_ne by congruence; exact Hu|]. apply wp_ret. eauto.
Qed.

(** ** Writing *)

Lemma sendmsg_retry_spec fuel fd iov passed (Q : send_result -> ubusd -> Prop) s :
  (forall e o, Q (SendErr e) (s <| os := o |>)) ->
  (forall n o, (0 <= n <= Z.of_nat (length iov))%Z -> Q (Sent n) (s <| os := o |>)) ->
  wp (sendmsg_retry fuel fd iov passed) Q s.
Proof.
  revert s. induction fuel as [|fuel IH]; intros s He Hn; simpl; apply wp_bind, wp_sendmsg.
  - intros [] o; apply He.
  - intros n o Hb. by apply Hn.
  - intros [] o; try apply He. by apply IH.
  - intros n o Hb. by apply Hn.
Qed.

Lemma msg_iov_len u ofs :
  msg_ok u -> (0 <= ofs <= sizeof_msghdr + ub_len u)%Z ->
  Z.of_nat (length (msg_iov u ofs)) = (sizeof_msghdr + ub_len u - ofs)%Z.
Proof.
  intros [El Hl] Hofs. unfold msg_iov. pose proof (length_encode_hdr (ub_hdr u)) as Eh.
  unfold sizeof_msghdr in *. destruct (Z.ltb_spec ofs 8).
  - rewrite length_app, length_drop, length_take. lia.
  - rewrite length_take, length_drop. lia.
Qed.

Lemma writev_spec fd ub u ofs (Q : send_result -> ubusd -> Prop) s :
  h_msgs s !! ub = Some u -> msg_ok u -> (0 <= ofs <= sizeof_msghdr + ub_len u)%Z ->
  (forall e o, Q (SendErr e) (s <| os := o |>)) ->
  (forall n o, (0 <= n <= sizeof_msghdr + ub_len u - ofs)%Z -> Q (Sent n) (s <| os := o |>)) ->
  wp (ubus_msg_writev fd ub ofs) Q s.
Proof.
  intros Hu Hok Hofs He Hn. unfold ubus_msg_writev. apply wp_bind. eapply wp_load; [done|].
  apply wp_bind, wp_assert.
  { unfold iov_fits. destruct Hok as [El Hl]. rewrite !andb_true_iff, !Z.leb_le. lia. }
  apply wp_bind, wp_gets. apply sendmsg_retry_spec; [done|]. intros n o Hb. apply Hn.
  by rewrite msg_iov_len in Hb.
Qed.

Lemma msg_transmit_spec ext cl c ub u s :
  minv ext s -> h_clients s !! cl = Some c -> sendable ub u s ->
  wp (ubus_msg_transmit cl ub) (fun _ => sent_rel ub u ext s) s.
Proof.
  intros Hinv Hc Hs. destruct Hs as [Hu Hs]. unfold ubus_msg_transmit.
  apply wp_bind. eapply wp_load; [done|]. apply wp_bind. eapply wp_load; [done|].
  destruct (decide (cl_tx_queue c = [])).
  2:{ apply wp_bind. eapply wp_mono; [|by eapply msg_enqueue_spec; [..|intros ?]]. by intros ok s' H. }
  apply wp_bind. set (k := fun ret : send_result => _).
  pose proof (minv_msgs _ _ Hinv _ _ Hu) as Huok. pose proof (minv_clients _ _ Hinv _ _ Hc) as Hcok.
  assert (forall ret o, (0 <= match ret with Sent n => n | SendErr _ => 0 end)%Z ->
            k ret (s <| os := o |>)) as Hk.
  { intros ret o. unfold k. generalize (match ret with Sent n => n | SendErr _ => 0%Z end) as written.
    intros written Hw.
    case_match eqn:Elen; [by apply wp_ret, (sent_rel_os ext ub u s o), sent_rel_refl; [apply minv_os|]|].
    apply Z.leb_gt in Elen. apply wp_bind. eapply wp_store; [done|]. apply wp_bind.
    set (c1 := c <| cl_txq_ofs := _ |> <| cl_txq_len := _ |> <| cl_sock_poll := _ |>).
    set (s1 := set_heap _ _).
    assert (client_ok (h_msgs s) c1) as Hc1ok.
    { destruct Hcok. split; try done. simpl. rewrite e. done. }
    assert (sent_rel ub u ext s s1) as Hs1.
    { apply (sent_rel_os ext ub u s o). split; [by eapply minv_upd_client; [..|by apply minv_os]| |by exists u|].
      - by eapply io_upd_client.
      - intros _. by eapply owners_insert_same. }
    eapply wp_mono; [|eapply (msg_enqueue_spec ext cl c1 ub u s1); [apply Hs1|apply lookup_insert_eq|..]].
    2:{ split; [done|]. destruct Hs as [|Hz]; [by left|right]. rewrite <- Hz. by eapply owners_insert_same. }
    2:{ intros _. simpl. unfold sizeof_msghdr in *. lia. }
    intros ok s2 Hs2. assert (sent_rel ub u ext s s2) as Hs02 by by eapply sent_rel_trans.
    destruct (negb ok && _); unfold when; [|by apply wp_ret].
    destruct (reg_client s s2 cl c) as (c2 & Hc2 & Hcore); [apply Hs02|done|].
    eapply wp_store; [done|]. destruct (sent_msg _ _ _ _ _ Hs02) as (u2 & Hu2 & Hsim).
    eapply sent_rel_trans; [exact Hs02|exact Hu2|].
    split; [eapply minv_upd_client; [done..| |apply Hs02]|by eapply io_upd_client|by exists u2|].
    - destruct (minv_clients _ _ (sent_minv _ _ _ _ _ Hs02) _ _ Hc2). by split.
    - intros _. by eapply owners_insert_same. }
  eapply writev_spec; [done..| | |].
  - destruct Huok. unfold sizeof_msghdr. lia.
  - intros. apply Hk. lia.
  - intros. apply Hk. lia.
Qed.

(** ** Monitoring *)

Definition mon_live (s : ubusd) : Prop :=
  forall m, m ∈ monitors s -> is_Some (h_clients s !! mon_cl m).

Lemma reg_monitors s s' : reg s = reg s' -> mon_cl <$> monitors s = mon_cl <$> monitors s'.
Proof.
  intros Hr. pose proof (f_equal (fun s => mon_cl <$> monitors s) Hr) as E. unfold reg in E. simpl in E.
  rewrite <- !list_fmap_compose in E. exact E.
Qed.

Lemma mon_live_reg s s' : reg s = reg s' -> mon_live s -> mon_live s'.
Proof.
  intros Hr Hl m Hm. apply (list_elem_of_fmap_2 mon_cl) in Hm. rewrite <- (reg_monitors _ _ Hr) in Hm.
  apply list_elem_of_fmap in Hm as (m0 & -> & Hm0). destruct (Hl m0 Hm0) as [c Hc].
  destruct (reg_client _ _ _ _ Hr Hc) as (c' & Hc' & _). eauto.
Qed.

Lemma send_monitor_spec ext cl c ub u s :
  minv ext s -> h_clients s !! cl = Some c -> sendable ub u s ->
  wp (ubus_msg_send_monitor cl ub) (fun _ => sent_rel ub u ext s) s.
Proof.
  intros Hinv Hc Hs. unfold ubus_msg_send_monitor. apply wp_bind. eapply wp_load; [done|].
  destruct (cl_sock_eof c); [apply wp_ret, sent_rel_refl; [done|apply Hs]|by eapply msg_transmit_spec].
Qed.

(** The loop state while a monitor message goes round *)
Record mon_loop (mub : ptr) (ext : list ptr) (s0 s : ubusd) : Prop := {
  ml_minv : minv (mub :: ext) s;
  ml_io : io_rel [mub] s0 s;
  ml_ext : exists u, h_msgs s !! mub = Some u /\ ub_refcount u = USES_EXTERNAL_BUFFER;
}.

Lemma monitor_turn_spec mub ext i s0 s :
  mon_live s0 -> i < length (monitors s0) -> mon_loop mub ext s0 s ->
  wp (monitor_turn mub i) (fun _ => mon_loop mub ext s0) s.
Proof.
  intros Hl Hi [Hm Hio (u & Hu & Hext)]. unfold monitor_turn. apply wp_bind, wp_gets.
  pose proof (reg_monitors _ _ (io_reg _ _ _ Hio)) as Hmon.
  assert (i < length (monitors s)) as Hi'.
  { by rewrite <- (length_fmap mon_cl (monitors s)), <- Hmon, length_fmap. }
  destruct (lookup_lt_is_Some_2 _ _ Hi') as [m Em]. rewrite Em.
  destruct (mon_live_reg _ _ (io_reg _ _ _ Hio) Hl m) as [c Hc]; [by eapply list_elem_of_lookup_2|].
  apply wp_bind, wp_modify, wp_bind. eapply wp_store; [done|].
  set (s1 := set_heap _ _).
  assert (mon_loop mub ext s0 s1) as [Hm1 Hio1 (u1 & Hu1 & Hext1)].
  { split.
    - eapply minv_upd_msg; [exact Hu|done|by split|]. eapply minv_same; [..|exact Hm]; [done..|].
      destruct (minv_fresh _ _ Hm). by split.
    - etrans; [exact Hio|]. split; [|intros; simpl; rewrite lookup_insert_ne; [done|set_solver]|done].
      unfold reg, s1. simpl. f_equal. rewrite list_fmap_insert. symmetry. apply list_insert_id.
      by rewrite list_lookup_fmap, Em.
    - simpl. rewrite lookup_insert_eq. eauto. }
  eapply wp_mono; [|eapply (send_monitor_spec (mub :: ext) _ c mub u1); [done|done|by split; [|left]]].
  intros [] s2 [Hm2 Hio2 (u2 & Hu2 & Hsim) _]. split; [done|by etrans|].
  exists u2. split; [done|]. by apply Hsim.
Qed.

Context `{!BlobLaws BL}.

Lemma render_new_ok l shared : new_ok (Some (blob_render l)) (blob_raw_len (blob_render l)) shared.
Proof. split; [apply blob_raw_len_bound|apply blob_render_len]. Qed.

Lemma monitor_message_spec ext cl c ub u snd s :
  minv ext s -> mon_live s -> h_clients s !! cl = Some c -> h_msgs s !! ub = Some u ->
  wp (ubusd_monitor_message cl ub snd) (fun _ s' => minv ext s' /\ io_rel [] s s') s.
Proof.
  intros Hinv Hl Hc Hu. unfold ubusd_monitor_message. apply wp_bind, wp_gets.
  case_decide; [by apply wp_ret|]. apply wp_bind. eapply wp_load; [done|].
  apply wp_bind. eapply wp_load; [done|]. apply wp_bind.
  eapply wp_mono; [|by apply (msg_new_spec ext); [apply render_new_ok|]].
  intros [mub|] s1 (Hio1 & Hcl1 & H1); [|by apply wp_ret].
  destruct H1 as (Hm1 & Hfresh & Hnew & Hown).
  apply wp_bind. eapply wp_store; [done|]. apply wp_bind. set (s2 := set_heap _ _).
  assert (mon_loop mub ext s s2) as Hml.
  { split; [by eapply minv_upd_msg|etrans; [by eapply io_rel_weaken; [|exact Hio1]; set_solver|apply io_upd_msg]|].
    simpl. rewrite lookup_insert_eq. eauto. }
  eapply wp_mono; [|eapply (wp_for_each (fun ids s' => (forall i, i ∈ ids -> i < length (monitors s)) /\
                                                     mon_loop mub ext s s'))].
  3:{ split; [|exact Hml]. intros i Hi%elem_of_seq. lia. }
  2:{ intros i l s' [Hi Hs']. eapply wp_mono; [|eapply monitor_turn_spec; [done|apply Hi; set_solver|done]].
      intros [] s3 H3. split; [set_solver|done]. }
  intros [] s3 [_ [Hm3 Hio3 _]]. eapply wp_mono; [|by apply msg_free_spec].
  intros [] s4 (Hm4 & Hio4 & _). split; [done|]. eapply io_rel_drop; [exact Hfresh|]. by etrans.
Qed.

Lemma msg_send_spec ext cl c ub u s :
  minv ext s -> mon_live s -> h_clients s !! cl = Some c -> sendable ub u s ->
  wp (ubus_msg_send cl ub) (fun _ => sent_rel ub u ext s) s.
Proof.
  intros Hinv Hl Hc Hs. unfold ubus_msg_send. apply wp_bind. eapply wp_load; [done|].
  destruct (cl_sock_eof c); [apply wp_ret, sent_rel_refl; [done|apply Hs]|].
  destruct Hs as [Hu Hs]. apply wp_bind. eapply wp_load; [done|]. apply wp_bind.
  set (P := fun (_ : unit) s' => minv ext s' /\ io_rel [] s s').
  assert (wp (when (negb (hdr_type (ub_hdr u) =? UBUS_MSG_MONITOR)%Z) (ubusd_monitor_message cl ub true)) P s) as Hw.
  { destruct (negb _); unfold when; [by eapply monitor_message_spec|by apply wp_ret]. }
  eapply wp_mono; [|exact Hw]. intros [] s1 [Hm1 Hio1].
  destruct (reg_client _ _ _ _ (io_reg _ _ _ Hio1) Hc) as (c1 & Hc1 & _).
  assert (h_msgs s1 !! ub = Some u) as Hu1 by (eapply io_msgs; [exact Hio1|set_solver|done]).
  assert (owners (h_clients s1) ub = owners (h_clients s) ub) as Ho1.
  { eapply io_owners; [exact Hio1|set_solver|eauto]. }
  eapply wp_mono; [|eapply msg_transmit_spec; [exact Hm1|exact Hc1|]].
  2:{ split; [exact Hu1|]. by rewrite Ho1. }
  intros [] s2 [Hm2 Hio2 Hu2 Ho2]. split; [done| |done|by rewrite <- Ho1].
  etrans; [by eapply io_rel_weaken; [|exact Hio1]; set_solver|done].
Qed.
End SendSpec.

(** ** What sending cannot touch

    A part of the state that sees neither messages, the transmit side of a
    client, the counters of the monitors nor the operating system. *)

Section Blind.
Context `{AL : AvlLib} `{BL : BlobLib} {X : Type} (π : ubusd -> X).

Class IoBlind : Prop := {
  blind_os : forall o s, π (s <| os := o |>) = π s;
  blind_brk : forall b s, π (s <| brk := b |>) = π s;
  blind_msgs : forall g s, π (s <| h_msgs ::= g |>) = π s;
  blind_clients : forall cl c c' s, h_clients s !! cl = Some c -> cl_core c' = cl_core c ->
    π (s <| h_clients ::= insert cl c' |>) = π s;
  blind_monitors : forall i m m' s, monitors s !! i = Some m -> mon_cl m' = mon_cl m ->
    π (s <| monitors ::= insert i m' |>) = π s;
}.
Context `{!IoBlind}.

Lemma blind_store_msg ub f : preserves π (store (T := ubus_msg_buf) ub f).
Proof. apply pres_store, blind_msgs. Qed.
Lemma blind_free_msg ub : preserves π (free_ptr (T := ubus_msg_buf) ub).
Proof. apply pres_free, blind_msgs. Qed.
Lemma blind_store_client cl f : (forall c, cl_core (f c) = cl_core c) -> preserves π (store (T := ubus_client) cl f).
Proof.
  intros Hf s a s'. unfold store. simpl. destruct (h_clients s !! cl) as [c|] eqn:E; [|done].
  intros [= _ <-]. by eapply blind_clients.
Qed.
Lemma blind_alloc_msg (u : ubus_msg_buf) : preserves π (alloc u).
Proof.
  apply pres_alloc; [apply blind_msgs|]. intros b l s. etrans; [apply (blind_brk b)|].
  exact (blind_os (os s <| os_alloc := l |>) s).
Qed.
Lemma blind_try_alloc : preserves π try_alloc.
Proof. apply pres_try_alloc. intros l s. exact (blind_os (os s <| os_alloc := l |>) s). Qed.
Lemma blind_close fd : preserves π (sys_close fd).
Proof. apply pres_close. intros g s. exact (blind_os (os s <| os_closed ::= g |>) s). Qed.
Lemma blind_sendmsg fd iov passed : preserves π (sys_sendmsg fd iov passed).
Proof. apply pres_sendmsg, blind_os. Qed.
End Blind.
Arguments IoBlind {AL X} π.

#[export] Hint Resolve blind_store_msg blind_free_msg blind_store_client blind_alloc_msg blind_try_alloc blind_close
  blind_sendmsg : pres.
#[export] Hint Extern 1 (IoBlind _) => typeclasses eauto : pres.

Section BlindSend.
Context `{AL : AvlLib} `{BL : BlobLib} {X : Type} (π : ubusd -> X) `{!IoBlind π}.

Lemma blind_msg_new data len shared : preserves π (ubus_msg_new data len shared).
Proof. unfold ubus_msg_new. solve_pres. Qed.
Hint Resolve blind_msg_new : pres.

Lemma blind_msg_free ub : preserves π (ubus_msg_free ub).
Proof. unfold ubus_msg_free. solve_pres. Qed.
Hint Resolve blind_msg_free : pres.

Lemma blind_enqueue cl ub : preserves π (ubus_msg_enqueue cl ub).
Proof. unfold ubus_msg_enqueue, ubus_msg_ref. solve_pres. Qed.
Hint Resolve blind_enqueue : pres.

Lemma blind_sendmsg_retry fuel fd iov passed : preserves π (sendmsg_retry fuel fd iov passed).
Proof. induction fuel; simpl; solve_pres. Qed.
Hint Resolve blind_sendmsg_retry : pres.

Lemma blind_transmit cl ub : preserves π (ubus_msg_transmit cl ub).
Proof. unfold ubus_msg_transmit, ubus_msg_writev. solve_pres. Qed.
Hint Resolve blind_transmit : pres.

Lemma blind_monitor_turn mub i : preserves π (monitor_turn mub i).
Proof.
  intros s a s'. unfold monitor_turn. unfold mbind at 1, stm_bind at 1, gets.
  destruct (monitors s !! i) as [m|] eqn:E; [|done]. unfold mbind at 1, stm_bind at 1, modify.
  set (m' := m <| mon_seq := _ |>). intros H. transitivity (π (s <| monitors ::= insert i m' |>)); [|by eapply blind_monitors].
  match type of H with ?k _ = _ => assert (preserves π k) as Hk by (unfold ubus_msg_send_monitor; solve_pres) end.
  by eapply Hk.
Qed.
Hint Resolve blind_monitor_turn : pres.

Lemma blind_monitor_message cl ub b : preserves π (ubusd_monitor_message cl ub b).
Proof. unfold ubusd_monitor_message. solve_pres. Qed.
Hint Resolve blind_monitor_message : pres.

Lemma blind_msg_send cl ub : preserves π (ubus_msg_send cl ub).
Proof. unfold ubus_msg_send. solve_pres. Qed.
End BlindSend.

#[export] Hint Resolve blind_msg_new blind_msg_free blind_enqueue blind_transmit blind_monitor_message
  blind_msg_send : pres.
