(* ===== verification/Stream.v ===== *)
(** * The byte stream a client receives

    What has been written to a client's socket, followed by what its transmit
    queue still holds, is its [stream].  Sending appends a whole message to it
    or nothing; writing queued data moves bytes from the queue to the socket
    and leaves the stream as it is. *)

From stdpp Require Import base gmap strings list fin_maps sets.
From Stdlib Require Import ZArith Lia.
From S2P Require Import Prelude Wire Cstring Libubox Ids State MsgBuf Frame SendSpec.
Local Open Scope ubus_scope.

Definition wire_at (hm : gmap ptr ubus_msg_buf) (m : ptr) : bytes :=
  match hm !! m with Some u => wire u | None => [] end.

(** What a client's queue still holds *)
Definition pending (hm : gmap ptr ubus_msg_buf) (c : ubus_client) : bytes :=
  drop (Z.to_nat (cl_txq_ofs c)) (concat (wire_at hm <$> cl_tx_queue c)).

Definition sent_on (o : os_state) (fd : Z) : bytes := default [] (os_sent o !! fd).

Section Stream.
Context `{AL : AvlLib} `{BL : BlobLib}.
Implicit Types (s : ubusd).

Definition stream s (c : ubus_client) : bytes := sent_on (os s) (cl_sock_fd c) ++ pending (h_msgs s) c.

(** ** Lengths *)

Lemma wire_len u : msg_ok u -> Z.of_nat (length (wire u)) = (sizeof_msghdr + ub_len u)%Z.
Proof.
  intros [El Hl]. unfold wire. rewrite length_app, length_take. pose proof (length_encode_hdr (ub_hdr u)). lia.
Qed.

(** What [ubus_msg_writev] hands to the kernel is the rest of the message. *)
Lemma msg_iov_wire u ofs :
  msg_ok u -> (0 <= ofs <= sizeof_msghdr + ub_len u)%Z -> msg_iov u ofs = drop (Z.to_nat ofs) (wire u).
Proof.
  intros [El Hl] Hofs. unfold msg_iov, wire. pose proof (length_encode_hdr (ub_hdr u)) as Eh. unfold sizeof_msghdr in *.
  destruct (Z.ltb_spec ofs 8).
  - rewrite drop_app_le by lia. done.
  - rewrite drop_app_ge by lia. rewrite !take_ge by (rewrite ?length_drop; lia). f_equal. lia.
Qed.

(** Writing [n] more bytes of the first message *)
Lemma drop_written (w rest : bytes) ofs n :
  ofs + n <= length w -> take n (drop ofs w) ++ drop (ofs + n) (w ++ rest) = drop ofs (w ++ rest).
Proof.
  intros H. rewrite !drop_app_le by lia. rewrite app_assoc. f_equal. rewrite <- drop_drop. apply take_drop.
Qed.

(** ** System calls *)

Definition appended (fd : Z) (bs : bytes) (o o' : os_state) : Prop :=
  sent_on o' fd = sent_on o fd ++ bs /\ (forall fd', fd' <> fd -> sent_on o' fd' = sent_on o fd') /\ os_alloc o' = os_alloc o.

Lemma appended_nil fd o : appended fd [] o o.
Proof. split; [by rewrite app_nil_r|done]. Qed.

Lemma sendmsg_bytes fuel fd iov passed (Q : send_result -> ubusd -> Prop) s :
  (forall e o, appended fd [] (os s) o -> Q (SendErr e) (s <| os := o |>)) ->
  (forall n o, (0 <= n <= Z.of_nat (length iov))%Z -> appended fd (take (Z.to_nat n) iov) (os s) o ->
     Q (Sent n) (s <| os := o |>)) ->
  wp (sendmsg_retry fuel fd iov passed) Q s.
Proof.
  assert (forall s (Q : send_result -> ubusd -> Prop),
    (forall e o, appended fd [] (os s) o -> Q (SendErr e) (s <| os := o |>)) ->
    (forall n o, (0 <= n <= Z.of_nat (length iov))%Z -> appended fd (take (Z.to_nat n) iov) (os s) o ->
       Q (Sent n) (s <| os := o |>)) -> wp (sys_sendmsg fd iov passed) Q s) as H1.
  { clear. intros s Q He Hn. unfold wp, sys_sendmsg. destruct (os_send (os s)) as [|[n|e] rest].
    - specialize (He EAGAIN (os s) (appended_nil _ _)). by destruct s.
    - apply Hn; [lia|]. unfold appended, sent_on. split; simpl; [by rewrite lookup_partial_alter_eq|].
      split; [|done]. intros fd' Hne. by rewrite lookup_partial_alter_ne.
    - apply He. split; [by rewrite app_nil_r|done]. }
  assert (forall o1 o2 bs, appended fd [] (os s) o1 -> appended fd bs o1 o2 -> appended fd bs (os s) o2) as Htr.
  { intros o1 o2 bs (E1 & F1 & G1) (E2 & F2 & G2). rewrite app_nil_r in E1. split; [by rewrite E2, E1|].
    split; [|congruence]. intros fd' Hne. by rewrite F2, F1. }
  intros He Hn. assert (forall o0, appended fd [] (os s) o0 ->
    wp (sendmsg_retry fuel fd iov passed) Q (s <| os := o0 |>)) as H.
  { induction fuel as [|fuel IH]; intros o0 H0; simpl; apply wp_bind, H1; simpl.
    - intros e o Ho. destruct e; apply (He _ o); by eapply Htr.
    - intros n o Hb Ho. apply (Hn _ o); [done|]. by eapply Htr.
    - intros e o Ho. destruct e; try (apply (He _ o); by eapply Htr). apply (IH o). by eapply Htr.
    - intros n o Hb Ho. apply (Hn _ o); [done|]. by eapply Htr. }
  specialize (H (os s) (appended_nil _ _)). by rewrite os_id in H.
Qed.

Lemma writev_bytes fd ub u ofs (Q : send_result -> ubusd -> Prop) s :
  h_msgs s !! ub = Some u -> msg_ok u -> (0 <= ofs <= sizeof_msghdr + ub_len u)%Z ->
  (forall e o, appended fd [] (os s) o -> Q (SendErr e) (s <| os := o |>)) ->
  (forall n o, (0 <= n <= sizeof_msghdr + ub_len u - ofs)%Z ->
     appended fd (take (Z.to_nat n) (drop (Z.to_nat ofs) (wire u))) (os s) o -> Q (Sent n) (s <| os := o |>)) ->
  wp (ubus_msg_writev fd ub ofs) Q s.
Proof.
  intros Hu Hok Hofs He Hn. unfold ubus_msg_writev. apply wp_bind. eapply wp_load; [done|].
  apply wp_bind, wp_assert.
  { unfold iov_fits. destruct Hok as [El Hl]. rewrite !andb_true_iff, !Z.leb_le. lia. }
  apply wp_bind, wp_gets. apply sendmsg_bytes; [done|]. intros n o Hb Ho.
  rewrite msg_iov_len in Hb by done. rewrite msg_iov_wire in Ho by done. by apply Hn.
Qed.

(** ** Descriptors *)

(** A call passes at most the descriptor it is given, and only with a byte. *)
Definition passes (fd : Z) (p : option Z) (r : send_result) (o o' : os_state) : Prop :=
  os_passed o' = os_passed o \/
  exists x n, p = Some x /\ r = Sent n /\ (0 < n)%Z /\ os_passed o' = (fd, x) :: os_passed o.

Lemma sendmsg_passes fd iov p s r s' : sys_sendmsg fd iov p s = Some (r, s') -> passes fd p r (os s) (os s').
Proof.
  unfold sys_sendmsg, passes. destruct (os_send (os s)) as [|[n|e] rest]; intros E; injection E as <- <-; [by left| |by left].
  destruct p as [x|]; simpl; [|by left]. case_match eqn:Hn; [right|by left]. apply Z.ltb_lt in Hn. eauto 6.
Qed.

Lemma sendmsg_retry_passes fuel fd iov p s r s' :
  sendmsg_retry fuel fd iov p s = Some (r, s') -> passes fd p r (os s) (os s').
Proof.
  revert s. induction fuel as [|fuel IH]; intros s; simpl; unfold mbind, stm_bind;
    destruct (sys_sendmsg fd iov p s) as [[r1 s1]|] eqn:E; [|done| |done]; apply sendmsg_passes in E.
  - destruct r1 as [n|[]]; intros E1; by injection E1 as <- <-.
  - destruct r1 as [n|[]]; try (intros E1; by injection E1 as <- <-). intros H%IH.
    destruct E as [E|(x & n & _ & [=] & _)]. unfold passes in *. by rewrite E in H.
Qed.

(** ** Queueing *)

(** Live messages keep their image on the wire. *)
Definition wires_kept (hm hm' : gmap ptr ubus_msg_buf) : Prop :=
  forall m u, hm !! m = Some u -> exists u', hm' !! m = Some u' /\ wire u' = wire u.

Lemma wires_kept_refl hm : wires_kept hm hm.
Proof. intros m u Hu. eauto. Qed.

Lemma wires_kept_upd hm m u u' : hm !! m = Some u -> wire u' = wire u -> wires_kept hm (<[m:=u']> hm).
Proof.
  intros Hu E n v Hv. destruct (decide (m = n)) as [<-|Hne].
  - exists u'. rewrite lookup_insert_eq. split; [done|congruence].
  - exists v. by rewrite lookup_insert_ne.
Qed.

Lemma wires_kept_new hm m u : hm !! m = None -> wires_kept hm (<[m:=u]> hm).
Proof. intros Hn n v Hv. exists v. rewrite lookup_insert_ne; [done|congruence]. Qed.

Lemma wires_kept_trans hm1 hm2 hm3 : wires_kept hm1 hm2 -> wires_kept hm2 hm3 -> wires_kept hm1 hm3.
Proof. intros H1 H2 m u Hu. destruct (H1 m u Hu) as (u2 & Hu2 & <-). by apply H2. Qed.

Lemma queue_wires_kept hm hm' (q : list ptr) :
  wires_kept hm hm' -> (forall m, m ∈ q -> is_Some (hm !! m)) -> wire_at hm' <$> q = wire_at hm <$> q.
Proof.
  intros Hk Hq. apply list_fmap_ext. intros i m Hm%list_elem_of_lookup_2. destruct (Hq m Hm) as [u Hu].
  unfold wire_at. destruct (Hk m u Hu) as (u' & -> & ->). by rewrite Hu.
Qed.

Lemma wires_kept_io s s' : io_rel [] s s' -> wires_kept (h_msgs s) (h_msgs s').
Proof. intros H m u Hu. exists u. split; [|done]. apply H; [set_solver|done]. Qed.

Lemma wp_known {A} (m : stm ubusd A) Q s : wp m Q s -> wp m (fun a s' => Q a s' /\ m s = Some (a, s')) s.
Proof. unfold wp. by destruct (m s) as [[a s']|]. Qed.

(** ** Memory *)

(** What is left of the outcomes of allocations *)
Definition allocs_kept s s' : Prop := forall b, b ∈ os_alloc (os s') -> b ∈ os_alloc (os s).

Lemma pop_alloc_kept o b : b ∈ os_alloc (os_pop_alloc o).2 -> b ∈ os_alloc o.
Proof. unfold os_pop_alloc. destruct (os_alloc o) as [|x l] eqn:E; simpl; [by rewrite E|]. intros H. by right. Qed.

Lemma pop_alloc_failed o : (os_pop_alloc o).1 = false -> false ∈ os_alloc o.
Proof. unfold os_pop_alloc. destruct (os_alloc o) as [|[] l]; simpl; [done|done|]. by left. Qed.

(** [ubus_msg_new] returns nothing only when an allocation fails. *)
Lemma msg_new_none data len shared s r s' :
  ubus_msg_new data len shared s = Some (r, s') -> (r = None -> false ∈ os_alloc (os s)) /\ allocs_kept s s'.
Proof.
  unfold ubus_msg_new, mbind, stm_bind, alloc. pose proof (pop_alloc_kept (os s)) as Hk. pose proof (pop_alloc_failed (os s)) as Hf.
  destruct (os_pop_alloc (os s)) as [[] o]; simpl in *.
  - destruct shared; simpl; [|destruct (msg_new_fits data len); simpl; [|done]]; intros [= <- <-]; by split.
  - intros [= <- <-]. split; [by intros _; apply Hf|exact Hk].
Qed.

Lemma msg_ref_none ub s s' : ubus_msg_ref ub s = Some (None, s') -> false ∈ os_alloc (os s).
Proof.
  unfold ubus_msg_ref, mbind, stm_bind, load, store. simpl. destruct (h_msgs s !! ub) as [u|]; [|done]. case_match.
  - destruct (ubus_msg_new _ _ _ s) as [[[n|] s1]|] eqn:E; [| |done].
    + simpl. repeat case_match; done.
    + intros _. apply msg_new_none in E as [Hf _]. by apply Hf.
  - simpl. repeat case_match; done.
Qed.

(** [ubus_msg_enqueue] refuses a message only for want of room or memory. *)
Lemma enqueue_refused cl c ub u s s' :
  h_clients s !! cl = Some c -> h_msgs s !! ub = Some u -> ubus_msg_enqueue cl ub s = Some (false, s') ->
  false ∈ os_alloc (os s) \/ (UBUS_CLIENT_MAX_TXQ_LEN < size_t (cl_txq_len c + sizeof_msghdr + ub_len u))%Z.
Proof.
  intros Hc Hu. unfold ubus_msg_enqueue. generalize (msg_ref_none ub). generalize (ubus_msg_ref ub). intros ref Href.
  unfold mbind, stm_bind, load, try_alloc. simpl. rewrite Hc, Hu.
  destruct (Z.ltb_spec UBUS_CLIENT_MAX_TXQ_LEN (size_t (cl_txq_len c + sizeof_msghdr + ub_len u))) as [|Hle]; [by right|]. intros E0. left. revert E0. clear Hle.
  pose proof (pop_alloc_kept (os s)) as Hk. pose proof (pop_alloc_failed (os s)) as Hf.
  destruct (os_pop_alloc (os s)) as [[] o]; cbn [negb fst snd] in *; [|by auto].
  match goal with |- context [ref ?s1] => destruct (ref s1) as [[[n|] s2]|] eqn:E end; [| |done].
  - unfold store. simpl. destruct (h_clients s2 !! cl); [|done]. by intros [=].
  - intros _. apply Hk. by apply Href in E.
Qed.

(** A reference: the message itself or a copy, with the same image *)
Lemma msg_ref_bytes ext ub u s :
  minv ext s -> h_msgs s !! ub = Some u ->
  wp (ubus_msg_ref ub) (fun r s' => (h_clients s' = h_clients s /\ wires_kept (h_msgs s) (h_msgs s') /\
    match r with Some n => wire_at (h_msgs s') n = wire u | None => True end) /\
    os_sent (os s') = os_sent (os s)) s.
Proof.
  intros Hm Hu. pose proof (minv_msgs _ _ Hm _ _ Hu) as Hok.
  apply (pres_wp (fun s => os_sent (os s))); [unfold ubus_msg_ref, ubus_msg_new; solve_pres|].
  unfold ubus_msg_ref. apply wp_bind. eapply wp_load; [done|]. case_match.
  2:{ apply wp_bind. eapply wp_store; [exact Hu|]. apply wp_ret. simpl. split; [done|].
      split; [by eapply wires_kept_upd|]. unfold wire_at. by rewrite lookup_insert_eq. }
  apply wp_bind. eapply wp_mono; [|apply (msg_new_spec ext); [by split; apply Hok|exact Hm]].
  intros [n|] s1 (Hio & Ec & Hn); [|by apply wp_ret; split; [|split; [apply wires_kept_io|]]].
  destruct Hn as (_ & Hf & Hnew & _). apply wires_kept_io in Hio as Hk. assert (n <> ub) as Hne by congruence.
  assert (h_msgs s1 !! ub = Some u) as Hu1 by (apply Hio; [set_solver|done]).
  apply wp_bind. eapply wp_store; [exact Hnew|]. apply wp_bind.
  eapply wp_store; [simpl; rewrite lookup_insert_ne by done; exact Hu1|]. apply wp_ret. simpl. split; [done|]. split.
  - intros m v Hv. destruct (decide (m = ub)) as [->|].
    + eexists. rewrite lookup_insert_eq. rewrite Hu in Hv. injection Hv as <-. done.
    + rewrite !lookup_insert_ne; [by apply Hk|congruence..].
  - unfold wire_at. rewrite lookup_insert_ne, lookup_insert_eq by done. done.
Qed.

(** What [ubus_msg_enqueue] leaves of the client *)
Definition queue_frame (c : ubus_client) : ubus_client := c <| cl_tx_queue := [] |> <| cl_txq_len := 0%Z |>.

Lemma enqueue_bytes ext cl c ub u s :
  minv ext s -> h_clients s !! cl = Some c -> h_msgs s !! ub = Some u ->
  wp (ubus_msg_enqueue cl ub) (fun b s' => os_sent (os s') = os_sent (os s) /\
    wires_kept (h_msgs s) (h_msgs s') /\ exists c', h_clients s' !! cl = Some c' /\ queue_frame c' = queue_frame c /\
      if (b : bool) then exists n, cl_tx_queue c' = cl_tx_queue c ++ [n] /\ wire_at (h_msgs s') n = wire u
      else cl_tx_queue c' = cl_tx_queue c) s.
Proof.
  intros Hm Hc Hu. unfold ubus_msg_enqueue. apply wp_bind. eapply wp_load; [done|]. apply wp_bind. eapply wp_load; [done|].
  case_match; [by apply wp_ret; split; [|split; [apply wires_kept_refl|exists c]]|].
  apply wp_bind. eapply wp_mono; [|apply (pres_wp (fun s => os_sent (os s))); [solve_pres|]].
  2:{ apply (wp_try_alloc (fun b s' => exists o, s' = s <| os := o |>)). eauto. }
  intros ok s1 [[o ->] Eo]. simpl in Eo. destruct ok; simpl.
  2:{ apply wp_ret. split; [done|]. split; [apply wires_kept_refl|by exists c]. }
  apply wp_bind. eapply wp_mono; [|apply (msg_ref_bytes ext ub u); [by apply minv_os|exact Hu]].
  intros [n|] s2 ((Ec & Hk & Hw) & Es); simpl in Ec, Es, Hk.
  2:{ apply wp_ret. split; [congruence|]. split; [done|]. exists c. by rewrite Ec. }
  apply wp_bind. eapply wp_store; [simpl; by rewrite Ec|]. apply wp_ret. split; [simpl; congruence|]. split; [done|].
  eexists. split; [apply lookup_insert_eq|]. split; [done|]. by exists n.
Qed.

(** ** Sending *)

(** What keeps a client from getting a message: its connection is being given
    up, an allocation fails, or what it has not read yet leaves no room. *)
Definition refused s (c : ubus_client) (msg : bytes) : Prop :=
  cl_sock_eof c = true \/ false ∈ os_alloc (os s) \/
  (UBUS_CLIENT_MAX_TXQ_LEN < Z.of_nat (length (pending (h_msgs s) c) + length msg))%Z.

(** What became of a message handed to [ubus_msg_transmit]: the stream has got
    all of it; only if something keeps the client from getting it, it has got
    nothing, or the connection is given up. *)
Inductive fate (excuse : Prop) (before after : bytes) (msg : bytes) (eof : bool) : Prop :=
  | fate_accepted : after = before ++ msg -> fate excuse before after msg eof
  | fate_dropped : excuse -> after = before -> fate excuse before after msg eof
  | fate_broken : excuse -> eof = true -> fate excuse before after msg eof.

Lemma fate_mono (P Q : Prop) before after msg eof : (P -> Q) -> fate P before after msg eof -> fate Q before after msg eof.
Proof. intros H []; [by apply fate_accepted|apply fate_dropped; auto|apply fate_broken; auto]. Qed.

Lemma pending_len hm c m q :
  cl_tx_queue c = m :: q -> tx_ok hm (cl_tx_queue c) (cl_txq_ofs c) (cl_txq_len c) ->
  (forall x u, hm !! x = Some u -> msg_ok u) -> is_Some (hm !! m) ->
  (0 <= cl_txq_ofs c)%Z /\ Z.to_nat (cl_txq_ofs c) < length (wire_at hm m).
Proof.
  intros Eq Htx Hms [u Hu]. rewrite Eq in Htx. destruct Htx as (Hofs & _). unfold mlen, wire_at in *. rewrite Hu in *.
  pose proof (wire_len u (Hms m u Hu)). lia.
Qed.

(** What [txq_len] says of a queue that is not empty *)
Lemma txq_pending ext s cl c :
  minv ext s -> h_clients s !! cl = Some c -> cl_tx_queue c <> [] ->
  cl_txq_len c = Z.of_nat (length (pending (h_msgs s) c)).
Proof.
  intros Hm Hc Hne. pose proof (co_tx _ _ (minv_clients _ _ Hm _ _ Hc)) as Htx. unfold pending. rewrite length_drop.
  assert (forall q, (forall m, m ∈ q -> is_Some (h_msgs s !! m)) ->
    Z.of_nat (length (concat (wire_at (h_msgs s) <$> q))) = qlen (h_msgs s) q) as Hq.
  { clear -Hm. induction q as [|m q IH]; intros Hl; [done|]. destruct (Hl m) as [u Hu]; [by left|]. rewrite fmap_cons. simpl.
    rewrite length_app, Nat2Z.inj_add, IH by (intros; apply Hl; by right). unfold mlen, wire_at. rewrite Hu.
    pose proof (wire_len u (minv_msgs _ _ Hm _ _ Hu)). lia. }
  unfold tx_ok in Htx. destruct (cl_tx_queue c) as [|m q] eqn:Eq; [done|].
  assert (0 <= qlen (h_msgs s) q)%Z by apply (qlen_nonneg _ _ (minv_msgs _ _ Hm)).
  destruct Htx as (Hofs & -> & _). cbn [qlen] in *. pose proof (Hq (m :: q)) as Hl. cbn [qlen] in Hl.
  enough (forall x, x ∈ m :: q -> is_Some (h_msgs s !! x)) as Hlive.
  { specialize (Hl Hlive). lia. }
  intros x Hx. eapply minv_live_owned; [exact Hm|exact Hc|]. unfold client_refs. rewrite Eq. set_solver.
Qed.

(** Refused by [ubus_msg_enqueue]: refused in the above sense *)
Lemma enqueue_refused_full ext cl c ub u s s' :
  minv ext s -> h_clients s !! cl = Some c -> h_msgs s !! ub = Some u -> cl_tx_queue c <> [] ->
  ubus_msg_enqueue cl ub s = Some (false, s') -> refused s c (wire u).
Proof.
  intros Hm Hc Hu Hne E. right. destruct (enqueue_refused cl c ub u s s' Hc Hu E) as [H|H]; [by left|]. right.
  pose proof (wire_len u (minv_msgs _ _ Hm _ _ Hu)) as Hw. rewrite (txq_pending ext s cl c Hm Hc Hne) in H.
  pose proof (minv_msgs _ _ Hm _ _ Hu) as [_ Hl]. pose proof (co_tx _ _ (minv_clients _ _ Hm _ _ Hc)) as Htx.
  pose proof (txq_pending ext s cl c Hm Hc Hne) as Hp. unfold tx_ok in Htx. destruct (cl_tx_queue c); [done|].
  destruct Htx as (_ & _ & Hle). rewrite size_t_small in H; [lia|]. unfold UBUS_CLIENT_MAX_TXQ_LEN, UBUS_MAX_MSGLEN, sizeof_msghdr in *. lia.
Qed.

(** The queue is not empty: the message goes to its end. *)
Lemma transmit_queued ext cl c ub u s :
  minv ext s -> h_clients s !! cl = Some c -> h_msgs s !! ub = Some u -> cl_tx_queue c <> [] ->
  wp (ubus_msg_enqueue cl ub) (fun _ s' => exists c', h_clients s' !! cl = Some c' /\ cl_sock_fd c' = cl_sock_fd c /\
    fate (refused s c (wire u)) (stream s c) (stream s' c') (wire u) (cl_sock_eof c')) s.
Proof.
  intros Hm Hc Hu Hne. eapply wp_mono; [|by eapply wp_known, enqueue_bytes].
  intros b s' [(Es & Hk & c' & Hc' & Ef & Hq) E]. exists c'. split; [done|]. pose proof (f_equal cl_sock_fd Ef) as Efd.
  pose proof (f_equal cl_txq_ofs Ef) as Eofs. simpl in Efd, Eofs. split; [done|].
  assert (forall m, m ∈ cl_tx_queue c -> is_Some (h_msgs s !! m)) as Hlive.
  { intros m Hin. eapply minv_live_owned; [exact Hm|exact Hc|]. unfold client_refs. set_solver. }
  assert (wire_at (h_msgs s') <$> cl_tx_queue c = wire_at (h_msgs s) <$> cl_tx_queue c) as Ew by by apply queue_wires_kept.
  unfold stream, sent_on, pending. rewrite Es, Efd, Eofs. destruct b.
  - destruct Hq as (n & -> & Hn). apply fate_accepted. rewrite fmap_app, concat_app, Ew. simpl. rewrite Hn, app_nil_r.
    destruct (cl_tx_queue c) as [|m q] eqn:Eq; [done|]. rewrite drop_app_le; [by rewrite app_assoc|].
    destruct (pending_len (h_msgs s) c m q) as [_ H]; [done|apply (minv_clients _ _ Hm _ _ Hc)|apply Hm|apply Hlive; by left|].
    rewrite fmap_cons. simpl. rewrite length_app. lia.
  - rewrite Hq, Ew. apply fate_dropped; [by eapply enqueue_refused_full|done].
Qed.

Lemma transmit_stream ext cl c ub u s :
  minv ext s -> h_clients s !! cl = Some c -> h_msgs s !! ub = Some u ->
  wp (ubus_msg_transmit cl ub) (fun _ s' => exists c', h_clients s' !! cl = Some c' /\ cl_sock_fd c' = cl_sock_fd c /\
    fate (refused s c (wire u)) (stream s c) (stream s' c') (wire u) (cl_sock_eof c')) s.
Proof.
  intros Hm Hc Hu. unfold ubus_msg_transmit. pose proof (minv_msgs _ _ Hm _ _ Hu) as Hok.
  apply wp_bind. eapply wp_load; [done|]. apply wp_bind. eapply wp_load; [done|].
  destruct (decide (cl_tx_queue c = [])) as [Eq|Hne].
  2:{ apply wp_bind. eapply wp_mono; [|by eapply transmit_queued]. intros b s' H. by apply wp_ret. }
  assert (stream s c = sent_on (os s) (cl_sock_fd c)) as E0.
  { unfold stream, pending. rewrite Eq. simpl. by rewrite drop_nil, app_nil_r. }
  rewrite E0. pose proof (wire_len u Hok) as Hwl. apply wp_bind. set (k := fun ret : send_result => _).
  assert (forall ret n o, n = match ret with Sent n => n | SendErr _ => 0%Z end ->
    (0 <= n <= sizeof_msghdr + ub_len u)%Z ->
    appended (cl_sock_fd c) (take (Z.to_nat n) (wire u)) (os s) o -> k ret (s <| os := o |>)) as Hk.
  { intros ret n o En Hn (Hsent & _ & Ha). unfold k. rewrite <- En. clear En. destruct (Z.leb_spec (ub_len u + sizeof_msghdr) n) as [Hle|Hlt].
    { apply wp_ret. exists c. split; [done|]. split; [done|]. apply fate_accepted. unfold stream, pending. rewrite Eq. simpl.
      rewrite drop_nil, app_nil_r, Hsent, take_ge by lia. done. }
    apply wp_bind. eapply wp_store; [exact Hc|]. set (c1 := c <| cl_txq_ofs := _ |> <| cl_txq_len := _ |> <| cl_sock_poll := _ |>).
    apply wp_bind. set (s1 := set_heap _ _).
    assert (minv ext s1) as Hm1.
    { eapply (minv_upd_client ext (s <| os := o |>)); [exact Hc|done| |by apply minv_os].
      destruct (minv_clients _ _ Hm _ _ Hc). split; try done. simpl. by rewrite Eq. }
    eapply wp_mono; [|eapply wp_known, (enqueue_bytes ext cl c1 ub u s1 Hm1); [apply lookup_insert_eq|exact Hu]].
    intros b s2 [(Es & Hk & c2 & Hc2 & Ef & Hq) Eq2].
    assert (b = false -> refused s c (wire u)) as Href.
    { intros ->. right. destruct (enqueue_refused cl c1 ub u s1 s2 (lookup_insert_eq _ _ _) Hu Eq2) as [H|H].
      - left. change (os s1) with o in H. by rewrite Ha in H.
      - right. change (cl_txq_len c1) with (- n)%Z in H. rewrite size_t_small in H; [lia|]. destruct Hok as [_ Hl].
        unfold UBUS_MAX_MSGLEN, sizeof_msghdr in *. lia. } pose proof (f_equal cl_sock_fd Ef) as Efd.
    pose proof (f_equal cl_txq_ofs Ef) as Eofs. simpl in Efd, Eofs.
    assert (sent_on (os s2) (cl_sock_fd c2) = sent_on (os s) (cl_sock_fd c) ++ take (Z.to_nat n) (wire u)) as Es2.
    { unfold sent_on in *. rewrite Es, Efd. exact Hsent. }
    destruct b; simpl negb; cbn [andb]; unfold when.
    - apply wp_ret. exists c2. split; [done|]. split; [done|]. apply fate_accepted. destruct Hq as (x & Hq & Hx).
      unfold stream, pending. rewrite Es2, Eofs, Hq. simpl. rewrite Eq. simpl. rewrite Hx, app_nil_r.
      by rewrite <- app_assoc, take_drop.
    - destruct (Z.ltb_spec 0 n) as [Hpos|Hz].
      + eapply wp_store; [exact Hc2|]. eexists. split; [apply lookup_insert_eq|]. split; [done|]. apply fate_broken; [by apply Href|done].
      + apply wp_ret. exists c2. split; [done|]. split; [done|]. apply fate_dropped; [by apply Href|]. assert (n = 0%Z) as -> by lia.
        unfold stream, pending. rewrite Es2, Hq. simpl. rewrite Eq. simpl. by rewrite drop_nil, !app_nil_r. }
  unfold sizeof_msghdr in *. destruct Hok as [El Hl].
  eapply writev_bytes; [exact Hu|done|unfold sizeof_msghdr; lia|..].
  - intros e o Ho. eapply (Hk _ 0%Z); [done|lia|exact Ho].
  - intros n o Hn Ho. eapply (Hk _ n); [done|unfold sizeof_msghdr in Hn; lia|exact Ho].
Qed.
End Stream.
