(* ===== verification/Wf.v ===== *)
(** * The registry invariant

    The daemon keeps the same facts in several places: an object is in the id
    tree, perhaps in the path tree, in its client's list, counted by its type,
    and linked from both ends of its subscriptions and patterns.  [wf] says
    that all of them agree.  It reads the registry view [reg] only. *)

From stdpp Require Import base gmap strings list fin_maps sets.
From Stdlib Require Import ZArith Lia.
From S2P Require Import Prelude Wire Cstring Libubox Ids State MsgBuf Frame SendSpec.
Local Open Scope ubus_scope.

(** ** Projections of a heap after an update *)

Section Project.
Context {A B : Type}.
Implicit Types (h : gmap ptr A) (f : A -> B) (g : A -> option B).

Lemma fmap_upd_same f h p x x' : h !! p = Some x -> f x' = f x -> f <$> <[p:=x']> h = f <$> h.
Proof. intros H E. rewrite fmap_insert, E. apply insert_id. by rewrite lookup_fmap, H. Qed.

Lemma omap_upd_same g h p x x' : h !! p = Some x -> g x' = g x -> omap g (<[p:=x']> h) = omap g h.
Proof.
  intros H E. apply map_eq. intros q. rewrite !lookup_omap. destruct (decide (p = q)) as [<-|Hne].
  - by rewrite lookup_insert_eq, H.
  - by rewrite lookup_insert_ne.
Qed.

Lemma omap_insert_None' g h p x : g x = None -> omap g (<[p:=x]> h) = delete p (omap g h).
Proof. apply omap_insert_None. Qed.

Lemma fmap_fresh f h p : h !! p = None -> (f <$> h) !! p = None.
Proof. intros H. by rewrite lookup_fmap, H. Qed.

Lemma omap_fresh g h p : h !! p = None -> omap g h !! p = None.
Proof. intros H. by rewrite lookup_omap, H. Qed.

Lemma fmap_Some_1 f h p x : h !! p = Some x -> (f <$> h) !! p = Some (f x).
Proof. intros H. by rewrite lookup_fmap, H. Qed.

Lemma fmap_Some_2 f h p y : (f <$> h) !! p = Some y -> exists x, h !! p = Some x /\ f x = y.
Proof. rewrite lookup_fmap. intros (x & Hx & ->)%fmap_Some. eauto. Qed.

Lemma fmap_Some_iff f h p y : (f <$> h) !! p = Some y <-> exists x, h !! p = Some x /\ f x = y.
Proof. split; [apply fmap_Some_2|]. intros (x & Hx & <-). by apply fmap_Some_1. Qed.

Lemma omap_Some_1 g h p x y : h !! p = Some x -> g x = Some y -> omap g h !! p = Some y.
Proof. intros H E. by rewrite lookup_omap, H. Qed.

Lemma omap_Some_2 g h p y : omap g h !! p = Some y -> exists x, h !! p = Some x /\ g x = Some y.
Proof. rewrite lookup_omap. intros (x & Hx & H)%bind_Some. eauto. Qed.

Lemma omap_Some_iff g h p y : omap g h !! p = Some y <-> exists x, h !! p = Some x /\ g x = Some y.
Proof. split; [apply omap_Some_2|]. intros (x & Hx & H). by eapply omap_Some_1. Qed.
End Project.

(** ** Trees *)

Section Trees.
Context `{AL : AvlLib} `{!AvlLaws AL}.
Context {K : Type} {cmp : K -> K -> Z} `{!CmpOrder cmp} {dup : bool}.
Implicit Types (t : avl_tree cmp dup ptr) (m : gmap ptr K).

(** The tree holds exactly the keyed nodes of the heap. *)
Record tree_ok t m : Prop := {
  tree_nodup : NoDup (avl_list t);
  tree_in : forall k p, (k, p) ∈ avl_list t <-> m !! p = Some k;
}.

Lemma tree_ok_init : tree_ok (avl_init cmp dup ptr) ∅.
Proof.
  split; rewrite (avl_list_init _ _ _ _); [constructor|].
  intros k p. rewrite lookup_empty. split; [intros H; by apply not_elem_of_nil in H|done].
Qed.

Lemma tree_ok_insert t t' m k p :
  tree_ok t m -> m !! p = None -> avl_list t' ≡ₚ (k, p) :: avl_list t -> tree_ok t' (<[p:=k]> m).
Proof.
  intros [Hnd Hin] Hp Hl. split.
  - rewrite Hl. constructor; [|done]. rewrite Hin. congruence.
  - intros k' p'. rewrite Hl, elem_of_cons, Hin, lookup_insert_Some.
    split; [intros [|]; simplify_eq; [by left|right; split; congruence]|naive_solver].
Qed.

Lemma tree_ok_delete t m k p :
  tree_ok t m -> m !! p = Some k -> tree_ok (avl_delete t k p) (delete p m).
Proof.
  intros [Hnd Hin] Hp.
  pose proof (avl_delete_perm_dup t k p Hnd (proj2 (Hin k p) Hp)) as Hl.
  rewrite Hl in Hnd. apply NoDup_cons in Hnd as [Hni Hnd]. split; [done|].
  intros k' p'. rewrite lookup_delete_Some, <- Hin, Hl, elem_of_cons. split.
  - intros H. split; [|by right]. intros <-. pose proof H as H'.
    assert ((k', p) ∈ avl_list t) as H2%Hin by (rewrite Hl; by right). simplify_eq. done.
  - intros [Hne [|]]; [congruence|done].
Qed.

Lemma tree_ok_linked t m k p : tree_ok t m -> m !! p = Some k -> linked t k p = true.
Proof.
  intros [_ Hin] Hp%Hin. apply existsb_exists. exists (k, p). split; [by apply list_elem_of_In|].
  simpl. rewrite bool_decide_eq_true_2, andb_true_r by done. by apply Z.eqb_eq, cmp_eq.
Qed.

Lemma wp_tree_delete get set t m k p (Q : unit -> ubusd -> Prop) s :
  get s = t -> tree_ok t m -> m !! p = Some k -> Q tt (set (fun t => avl_delete t k p) s) ->
  wp (tree_delete get set k p) Q s.
Proof. intros <- Ht Hp HQ. unfold wp, tree_delete. by rewrite (tree_ok_linked _ _ _ _ Ht Hp). Qed.
End Trees.

Lemma tree_ok_find `{AL : AvlLib} `{!AvlLaws AL} {K} {cmp : K -> K -> Z} `{!CmpOrder cmp}
    (t : avl_tree cmp false ptr) m k p :
  tree_ok t m -> avl_find t k = Some p -> m !! p = Some k.
Proof. intros [_ Hin] H%avl_find_Some. by apply Hin. Qed.

(** ** Lists and back pointers *)

(** The lists hold each node once, under the owner it points back to. *)
Record list_ok (lists : gmap ptr (list ptr)) (back : gmap ptr ptr) : Prop := {
  lo_nodup : forall p l, lists !! p = Some l -> NoDup l;
  lo_in : forall p l x, lists !! p = Some l -> x ∈ l <-> back !! x = Some p;
  lo_live : forall x p, back !! x = Some p -> is_Some (lists !! p);
}.

Lemma list_ok_empty : list_ok ∅ ∅.
Proof. split; intros *; rewrite lookup_empty; done. Qed.

Lemma list_ok_new lists back p : lists !! p = None -> list_ok lists back -> list_ok (<[p:=[]]> lists) back.
Proof.
  intros Hp [Hnd Hin Hlive]. split.
  - intros q l. rewrite lookup_insert_Some. intros [[<- <-]|[_ ?]]; [constructor|eauto].
  - intros q l x. rewrite lookup_insert_Some. intros [[<- <-]|[_ ?]]; [|eauto].
    split; [intros H; by apply not_elem_of_nil in H|]. intros H%Hlive. rewrite Hp in H. by destruct H.
  - intros x q H%Hlive. rewrite lookup_insert_is_Some'. by right.
Qed.

Lemma list_ok_drop lists back p : lists !! p = Some [] -> list_ok lists back -> list_ok (delete p lists) back.
Proof.
  intros Hp [Hnd Hin Hlive]. split.
  - intros q l [_ ?]%lookup_delete_Some. eauto.
  - intros q l x [_ ?]%lookup_delete_Some. eauto.
  - intros x q H. pose proof (Hlive x q H) as Hl. apply lookup_delete_is_Some. split; [|done].
    intros <-. apply (Hin p [] x Hp) in H. by apply not_elem_of_nil in H.
Qed.

Lemma list_ok_add lists back x p l l' :
  lists !! p = Some l -> back !! x = None -> l' ≡ₚ x :: l -> list_ok lists back ->
  list_ok (<[p:=l']> lists) (<[x:=p]> back).
Proof.
  intros Hp Hx Hl' [Hnd Hin Hlive]. split.
  - intros q k. rewrite lookup_insert_Some. intros [[<- <-]|[_ ?]]; [|eauto].
    rewrite Hl'. constructor; [|by eauto]. rewrite (Hin p l x Hp), Hx. done.
  - intros q k y. rewrite !lookup_insert_Some. intros [[<- <-]|[Hq Hk]].
    + rewrite Hl', elem_of_cons, (Hin p l y Hp). destruct (decide (x = y)); naive_solver.
    + rewrite (Hin q k y Hk). destruct (decide (x = y)) as [<-|]; naive_solver.
  - intros y q. rewrite lookup_insert_Some, lookup_insert_is_Some'. naive_solver.
Qed.

Lemma list_ok_del lists back x p l :
  lists !! p = Some l -> back !! x = Some p -> list_ok lists back ->
  list_ok (<[p:=list_del x l]> lists) (delete x back).
Proof.
  intros Hp Hx [Hnd Hin Hlive]. split.
  - intros q k. rewrite lookup_insert_Some. intros [[<- <-]|[_ ?]]; [|eauto]. apply NoDup_list_del. eauto.
  - intros q k y. rewrite lookup_insert_Some, lookup_delete_Some. intros [[<- <-]|[Hq Hk]].
    + rewrite elem_of_list_del, (Hin p l y Hp). naive_solver.
    + rewrite (Hin q k y Hk). naive_solver.
  - intros y q [_ H]%lookup_delete_Some. rewrite lookup_insert_is_Some'. right. eauto.
Qed.

Lemma list_ok_owner lists back x p :
  list_ok lists back -> back !! x = Some p -> exists l, lists !! p = Some l /\ x ∈ l.
Proof. intros [Hnd Hin Hlive] H. destruct (Hlive x p H) as [l Hl]. exists l. split; [done|]. by eapply Hin. Qed.

(** ** The invariant *)

(** What the running code has in hand: references to object types, objects not
    yet given to their client, clients without a reply message, access control
    files that are not in the list of files. *)
Record work := mk_work {
  wk_types : list ptr;
  wk_objs : list ptr;
  wk_clients : list ptr;
  wk_files : list ptr;
}.

#[export] Instance eta_work : Eta work := fun r => 
  mk_work (wk_types r) (wk_objs r) (wk_clients r) (wk_files r).

Definition idle : work := mk_work [] [] [] [].

(** The number of objects of a type *)
Definition users (h : gmap ptr ubus_object) (t : ptr) : nat :=
  map_sum (fun o => if decide (obj_type o = Some t) then 1 else 0) h.

Definition types_ok (held : list ptr) (h : gmap ptr ubus_object) (ht : gmap ptr ubus_object_type) : Prop :=
  forall t, match ht !! t with
            | Some ty => type_refcount ty = Z.of_nat (users h t + cnt t held) /\ 1 <= users h t + cnt t held
            | None => users h t + cnt t held = 0
            end.

(** Only objects of a client are linked from elsewhere. *)
Definition active (h : gmap ptr ubus_object) (back : gmap ptr ptr) : Prop :=
  forall x p, back !! x = Some p -> is_Some (omap obj_client h !! p).

Definition builtin_ok (made : list ptr) (h : gmap ptr ubus_object) : Prop :=
  forall p o, h !! p = Some o -> obj_client o = None -> p ∉ made -> is_Some (obj_recv_msg o).

Definition retmsg_ok (made : list ptr) (h : gmap ptr ubus_client) : Prop :=
  forall cl c, h !! cl = Some c -> cl ∉ made -> is_Some (cl_retmsg c).

Definition monitors_ok (ms : list ptr) (h : gmap ptr ubus_client) : Prop :=
  forall cl, cl ∈ ms -> is_Some (h !! cl).

(** Every access list entry is in the list of one file. *)
Record files_ok (hf : gmap ptr ubusd_acl_file) (ha : gmap ptr ubusd_acl_obj) : Prop := {
  fo_nodup : forall f file, hf !! f = Some file -> NoDup (af_acl file);
  fo_live : forall f file p, hf !! f = Some file -> p ∈ af_acl file -> is_Some (ha !! p);
  fo_one : forall f file f' file' p, hf !! f = Some file -> hf !! f' = Some file' ->
    p ∈ af_acl file -> p ∈ af_acl file' -> f = f';
  fo_owned : forall p, is_Some (ha !! p) -> exists f file, hf !! f = Some file /\ p ∈ af_acl file;
}.

(** The list of files has every file under its name, but for those in hand. *)
Record vlist_ok (nodes : list (string * ptr * bool)) (held : list ptr) (hf : gmap ptr ubusd_acl_file) : Prop := {
  vo_names : NoDup nodes.*1.*1;
  vo_node : forall k f, (k, f) ∈ nodes.*1 -> exists file, hf !! f = Some file /\ af_name file = k;
  vo_once : NoDup (nodes.*1.*2 ++ held);
  vo_all : forall f, is_Some (hf !! f) <-> f ∈ nodes.*1.*2 ++ held;
}.

Section Wf.
Context `{AL : AvlLib}.
Implicit Types (s : ubusd) (W : work).

Record wf W s : Prop := {
  wf_objects : tree_ok (objects s) (obj_id <$> h_objects s);
  wf_path : tree_ok (path s) (omap obj_path (h_objects s));
  wf_clients : tree_ok (clients s) (cl_id <$> h_clients s);
  wf_obj_types : tree_ok (obj_types s) (type_id <$> h_types s);
  wf_patterns : tree_ok (patterns s) (ev_key <$> h_events s);
  wf_acls : tree_ok (ubusd_acls s) (acl_key <$> h_acls s);
  wf_files : files_ok (h_files s) (h_acls s);
  wf_vlist : vlist_ok (vlist_nodes (ubusd_acl_files s)) (wk_files W) (h_files s);
  wf_subscribers : list_ok (obj_subscribers <$> h_objects s) (s_target <$> h_subs s);
  wf_targets : list_ok (obj_target_list <$> h_objects s) (s_subscriber <$> h_subs s);
  wf_events : list_ok (obj_events <$> h_objects s) (ev_obj <$> h_events s);
  wf_owned : list_ok (cl_objects <$> h_clients s) (omap obj_client (h_objects s));
  wf_types : types_ok (wk_types W) (h_objects s) (h_types s);
  wf_sub_active : active (h_objects s) (s_target <$> h_subs s) /\
                  active (h_objects s) (s_subscriber <$> h_subs s) /\
                  active (h_objects s) (ev_obj <$> h_events s);
  wf_builtin : builtin_ok (wk_objs W) (h_objects s);
  wf_retmsg : retmsg_ok (wk_clients W) (h_clients s);
  wf_mon_live : monitors_ok (mon_cl <$> monitors s) (h_clients s);
  wf_mon_nodup : NoDup (mon_cl <$> monitors s);
}.

Lemma wf_mon W s : wf W s -> mon_live s.
Proof. intros H m Hm. apply (wf_mon_live _ _ H). by apply list_elem_of_fmap_2. Qed.

(** ** Only the registry matters *)

Definition same_reg s s' : Prop := reg s = reg s'.

#[export] Instance same_reg_equiv : Equivalence same_reg.
Proof. unfold same_reg. split; [intros s; done|intros s s' H; by rewrite H|intros x y z; congruence]. Qed.

Lemma map_sum_fmap {A B} (f : B -> nat) (g : A -> B) h : map_sum f (g <$> h) = map_sum (f ∘ g) h.
Proof. unfold map_sum. rewrite map_to_list_fmap. induction (map_to_list h) as [|x l IH]; [done|]. rewrite fmap_cons. simpl. by rewrite IH. Qed.

Lemma fmap_core {A B} (f : A -> B) (g : A -> A) (h : gmap ptr A) :
  (forall x, f (g x) = f x) -> f <$> (g <$> h) = f <$> h.
Proof. intros E. apply map_eq. intros p. rewrite !lookup_fmap. destruct (h !! p); simpl; congruence. Qed.

Lemma omap_core {A B} (f : A -> option B) (g : A -> A) (h : gmap ptr A) :
  (forall x, f (g x) = f x) -> omap f (g <$> h) = omap f h.
Proof. intros E. apply map_eq. intros p. rewrite !lookup_omap, lookup_fmap. destruct (h !! p); simpl; congruence. Qed.

Lemma wf_of_reg W s s' : reg s = reg s' -> wf W s -> wf W s'.
Proof.
  intros Hr H.
  assert (forall B (f : ubus_object -> B), (forall o, f (obj_core o) = f o) ->
            f <$> h_objects s = f <$> h_objects s') as Eo.
  { intros B f E. rewrite <- (fmap_core f obj_core _ E), <- (fmap_core f obj_core (h_objects s') E).
    f_equal. exact (f_equal h_objects Hr). }
  assert (forall B (f : ubus_object -> option B), (forall o, f (obj_core o) = f o) ->
            omap f (h_objects s) = omap f (h_objects s')) as Eoo.
  { intros B f E. rewrite <- (omap_core f obj_core _ E), <- (omap_core f obj_core (h_objects s') E).
    f_equal. exact (f_equal h_objects Hr). }
  assert (forall B (f : ubus_client -> B), (forall o, f (cl_core o) = f o) ->
            f <$> h_clients s = f <$> h_clients s') as Ec.
  { intros B f E. rewrite <- (fmap_core f cl_core _ E), <- (fmap_core f cl_core (h_clients s') E).
    f_equal. exact (f_equal h_clients Hr). }
  assert (forall t, users (h_objects s) t = users (h_objects s') t) as Eu.
  { intros t. transitivity (users (obj_core <$> h_objects s) t); [symmetry; apply map_sum_fmap|].
    transitivity (users (obj_core <$> h_objects s') t); [|apply map_sum_fmap].
    f_equal. exact (f_equal h_objects Hr). }
  pose proof (reg_monitors _ _ Hr) as Em. reg_fields Hr. destruct H. split.
  all: try (rewrite <- ?Eo, <- ?Eoo, <- ?Ec by done; congruence).
  - intros t. specialize (wf_types0 t). rewrite <- Eu. destruct (h_types s !! t) eqn:Et; congruence || idtac.
    all: replace (h_types s') with (h_types s) by congruence; by rewrite Et.
  - unfold active in *. rewrite <- Eoo by done. repeat split; intros x p; replace (h_subs s') with (h_subs s) by congruence;
      replace (h_events s') with (h_events s) by congruence; apply wf_sub_active0.
  - intros p o Ho Hc Hp. destruct (reg_object _ _ _ _ (eq_sym Hr) Ho) as (o' & Ho' & E).
    pose proof (f_equal obj_client E) as Ecl. pose proof (f_equal obj_recv_msg E) as Er. simpl in Ecl, Er. rewrite <- Er.
    apply (wf_builtin0 p o' Ho'); [by rewrite Ecl|done].
  - intros cl c Hc Hcl. destruct (reg_client _ _ _ _ (eq_sym Hr) Hc) as (c' & Hc' & E).
    pose proof (f_equal cl_retmsg E) as Er. simpl in Er. rewrite <- Er. eauto.
  - rewrite <- Em. intros cl [c Hc]%wf_mon_live0. destruct (reg_client _ _ _ _ Hr Hc) as (c' & Hc' & _). eauto.
Qed.

Lemma wf_os W s o : wf W s -> wf W (s <| os := o |>).
Proof. by apply wf_of_reg. Qed.

#[export] Instance wf_proper W : Proper (same_reg ==> iff) (wf W).
Proof. intros s s' H. split; apply wf_of_reg; [exact H|symmetry; exact H]. Qed.
End Wf.

(** ** Updates that leave a component alone *)

Section Updates.
Implicit Types (h : gmap ptr ubus_object) (hc : gmap ptr ubus_client).

Lemma users_upd h p o o' t :
  h !! p = Some o ->
  users (<[p:=o']> h) t + (if decide (obj_type o = Some t) then 1 else 0)
  = users h t + (if decide (obj_type o' = Some t) then 1 else 0).
Proof. intros H. apply (map_sum_insert (fun o => if decide (obj_type o = Some t) then 1 else 0) h p o o' H). Qed.

Lemma users_fresh h p o t :
  h !! p = None -> users (<[p:=o]> h) t = (if decide (obj_type o = Some t) then 1 else 0) + users h t.
Proof. apply (map_sum_insert_fresh (fun o => if decide (obj_type o = Some t) then 1 else 0)). Qed.

Lemma users_delete h p o t :
  h !! p = Some o -> users h t = (if decide (obj_type o = Some t) then 1 else 0) + users (delete p h) t.
Proof. apply (map_sum_delete (fun o => if decide (obj_type o = Some t) then 1 else 0)). Qed.

Lemma types_upd_same held h ht p o o' :
  h !! p = Some o -> obj_type o' = obj_type o -> types_ok held h ht -> types_ok held (<[p:=o']> h) ht.
Proof.
  intros H E Ht t. specialize (Ht t). pose proof (users_upd h p o o' t H) as Eu. rewrite E in Eu.
  replace (users (<[p:=o']> h) t) with (users h t) by lia. exact Ht.
Qed.

Lemma builtin_upd_same made h p o o' :
  h !! p = Some o -> obj_client o' = obj_client o -> obj_recv_msg o' = obj_recv_msg o ->
  builtin_ok made h -> builtin_ok made (<[p:=o']> h).
Proof.
  intros H Ec Er Hb q x. rewrite lookup_insert_Some. intros [[<- <-]|[_ Hx]]; [|by apply Hb].
  rewrite Ec, Er. by apply Hb.
Qed.

Lemma retmsg_upd_same made hc p c c' :
  hc !! p = Some c -> cl_retmsg c' = cl_retmsg c -> retmsg_ok made hc -> retmsg_ok made (<[p:=c']> hc).
Proof.
  intros H E Hb q x. rewrite lookup_insert_Some. intros [[<- <-]|[_ Hx]]; [|by apply Hb].
  rewrite E. by apply Hb.
Qed.

Lemma monitors_upd ms hc p c' : monitors_ok ms hc -> monitors_ok ms (<[p:=c']> hc).
Proof. intros H cl Hcl. rewrite lookup_insert_is_Some'. right. by apply H. Qed.

Lemma active_upd h p o o' back :
  h !! p = Some o -> obj_client o' = obj_client o -> active h back -> active (<[p:=o']> h) back.
Proof. intros H E Ha x q Hx. rewrite (omap_upd_same _ _ _ _ _ H E). by apply (Ha x). Qed.

Lemma active_del h x back : active h back -> active h (delete x back).
Proof. intros Ha y p [_ H]%lookup_delete_Some. by apply (Ha y). Qed.

Lemma active_add h x p o back :
  h !! p = Some o -> is_Some (obj_client o) -> active h back -> active h (<[x:=p]> back).
Proof.
  intros H [cl Hcl] Ha y q. rewrite lookup_insert_Some. intros [[_ <-]|[_ Hy]]; [|by apply (Ha y)].
  exists cl. by eapply omap_Some_1.
Qed.
End Updates.

(** Rewrites the projections of an updated heap that the update leaves alone. *)
Ltac upd_same :=
  repeat match goal with
  | H : ?h !! ?p = Some ?x |- context [?f <$> <[?p:=?x']> ?h] =>
      rewrite (fmap_upd_same f h p x x' H) by reflexivity
  | H : ?h !! ?p = Some ?x |- context [omap ?f (<[?p:=?x']> ?h)] =>
      rewrite (omap_upd_same f h p x x' H) by reflexivity
  end.

(** A component of [wf] that an update does not concern *)
Ltac wf_keep :=
  upd_same;
  first [ assumption
        | eapply types_upd_same; [eassumption|reflexivity|wf_keep]
        | eapply builtin_upd_same; [eassumption|reflexivity|reflexivity|wf_keep]
        | eapply retmsg_upd_same; [eassumption|assumption || reflexivity|wf_keep]
        | apply monitors_upd; wf_keep
        | eapply active_upd; [eassumption|reflexivity|wf_keep]
        | apply active_del; wf_keep ].

(** ** Elementary updates *)

Section WfUpdates.
Context `{AL : AvlLib} `{!AvlLaws AL}.
Implicit Types (s : ubusd) (W : work).

(** Fields of a client that the registry does not depend on *)
Lemma wf_upd_client W s cl c c' :
  h_clients s !! cl = Some c -> cl_id c' = cl_id c -> cl_objects c' = cl_objects c ->
  cl_retmsg c' = cl_retmsg c -> wf W s -> wf W (s <| h_clients ::= insert cl c' |>).
Proof.
  intros Hc Ei Eo Er []. split; simpl.
  all: rewrite ?(fmap_upd_same cl_id _ _ _ _ Hc Ei), ?(fmap_upd_same cl_objects _ _ _ _ Hc Eo).
  all: wf_keep.
Qed.

(** [list_del(&s->list); list_del(&s->target_list); free(s);] *)
Lemma wf_unsubscribe W s x sub t o :
  h_subs s !! x = Some sub -> h_objects s !! s_target sub = Some t ->
  <[s_target sub := t <| obj_subscribers ::= list_del x |>]> (h_objects s) !! s_subscriber sub = Some o ->
  wf W s ->
  wf W (s <| h_objects ::= insert (s_target sub) (t <| obj_subscribers ::= list_del x |>) |>
          <| h_objects ::= insert (s_subscriber sub) (o <| obj_target_list ::= list_del x |>) |>
          <| h_subs ::= delete x |>).
Proof.
  intros Hx Ht Ho []. set (t' := t <| obj_subscribers ::= list_del x |>) in *.
  split; simpl; try wf_keep.
  - upd_same. rewrite fmap_insert, fmap_delete. apply list_ok_del; [|by apply fmap_Some_1|done].
    by apply fmap_Some_1.
  - rewrite fmap_insert, fmap_delete. apply list_ok_del; [|by rewrite lookup_fmap, Hx|].
    + by apply fmap_Some_1.
    + by upd_same.
  - destruct wf_sub_active0 as (H1 & H2 & H3). rewrite !fmap_delete.
    split; [|split]; wf_keep.
Qed.
End WfUpdates.
