(* ===== verification/WfOps.v ===== *)
(** * Registry updates keep the invariant

    One lemma per change the code makes to the registry: subscriptions, event
    patterns, monitors, object types, objects and clients. *)

From stdpp Require Import base gmap strings list fin_maps sets.
From Stdlib Require Import ZArith Lia.
From S2P Require Import Prelude Wire Cstring Libubox Ids State MsgBuf Frame SendSpec Wf.
Local Open Scope ubus_scope.

Section WfOps.
Context `{AL : AvlLib} `{!AvlLaws AL}.
Implicit Types (s : ubusd) (W : work).

(** ** Subscriptions and patterns *)

Lemma wf_subscribe W s x p q t o :
  h_subs s !! x = None -> h_objects s !! q = Some t -> is_Some (obj_client t) ->
  <[q := t <| obj_subscribers ::= cons x |>]> (h_objects s) !! p = Some o -> is_Some (obj_client o) ->
  wf W s ->
  wf W (s <| h_subs ::= insert x (mk_subscription p q) |>
          <| h_objects ::= insert q (t <| obj_subscribers ::= cons x |>) |>
          <| h_objects ::= insert p (o <| obj_target_list ::= cons x |>) |>).
Proof.
  intros Hx Ht Htc Ho Hoc []. set (t' := t <| obj_subscribers ::= cons x |>) in *. split; simpl; try wf_keep.
  - upd_same. rewrite !fmap_insert. simpl. eapply list_ok_add; [by apply fmap_Some_1| |done|done].
    by apply fmap_fresh.
  - rewrite (fmap_insert _ _ p), (fmap_insert s_subscriber). simpl.
    eapply list_ok_add; [by apply fmap_Some_1|by apply fmap_fresh|done|]. by upd_same.
  - destruct wf_sub_active as (H1 & H2 & H3). rewrite !fmap_insert. simpl.
    split; [|split]; [..|wf_keep].
    + do 2 (eapply active_upd; [eassumption|reflexivity|]). by eapply active_add.
    + eapply active_upd; [eassumption|reflexivity|]. eapply active_add; [done..|wf_keep].
Qed.

Lemma wf_add_event W s x p key partial o t' :
  h_events s !! x = None -> h_objects s !! p = Some o -> is_Some (obj_client o) ->
  avl_list t' ≡ₚ (key, x) :: avl_list (patterns s) -> wf W s ->
  wf W (s <| h_events ::= insert x (mk_event_source p key partial) |>
          <| h_objects ::= insert p (o <| obj_events ::= cons x |>) |>
          <| patterns := t' |>).
Proof.
  intros Hx Ho Hoc Ht []. split; simpl; try wf_keep.
  - rewrite fmap_insert. simpl. eapply tree_ok_insert; [done|by apply fmap_fresh|done].
  - rewrite !fmap_insert. simpl. eapply list_ok_add; [by apply fmap_Some_1|by apply fmap_fresh|done|done].
  - destruct wf_sub_active as (H1 & H2 & H3). rewrite !fmap_insert. simpl.
    split; [|split]; [wf_keep..|]. eapply active_upd; [eassumption|reflexivity|]. by eapply active_add.
Qed.

Lemma wf_del_event W s x ev o :
  h_events s !! x = Some ev -> h_objects s !! ev_obj ev = Some o -> wf W s ->
  wf W (s <| h_objects ::= insert (ev_obj ev) (o <| obj_events ::= list_del x |>) |>
          <| patterns ::= (fun t => avl_delete t (ev_key ev) x) |>
          <| h_events ::= delete x |>).
Proof.
  intros Hx Ho []. split; simpl; try wf_keep.
  - rewrite fmap_delete. apply tree_ok_delete; [done|by apply fmap_Some_1].
  - rewrite fmap_insert, fmap_delete. apply list_ok_del; [by apply fmap_Some_1|by apply fmap_Some_1|done].
  - destruct wf_sub_active as (H1 & H2 & H3). rewrite !fmap_delete. split; [|split]; wf_keep.
Qed.

(** ** Monitors *)

Lemma wf_add_monitor W s cl :
  is_Some (h_clients s !! cl) -> cl ∉ (mon_cl <$> monitors s) -> wf W s ->
  wf W (s <| monitors ::= fun ms => ms ++ [mk_monitor cl 0] |>).
Proof.
  intros Hcl Hni []. split; simpl; try wf_keep.
  - intros q. rewrite fmap_app, elem_of_app. intros [H|H]; [by apply wf_mon_live|].
    apply list_elem_of_singleton in H. by subst.
  - rewrite fmap_app. apply NoDup_app. split; [done|]. split; [|apply NoDup_singleton].
    intros q Hq H%list_elem_of_singleton. simpl in H. by subst.
Qed.

Lemma wf_del_monitor W s i : wf W s -> wf W (s <| monitors ::= delete i |>).
Proof.
  intros []. split; simpl; try wf_keep; rewrite list_fmap_delete.
  - intros q Hq. apply wf_mon_live. eapply elem_of_submseteq; [done|]. apply sublist_submseteq, sublist_delete.
  - eapply sublist_NoDup; [exact wf_mon_nodup|]. apply sublist_delete.
Qed.

(** ** Object types *)

Lemma wf_type_same W s t ty ty' :
  h_types s !! t = Some ty -> type_id ty' = type_id ty -> type_refcount ty' = type_refcount ty ->
  wf W s -> wf W (s <| h_types ::= insert t ty' |>).
Proof.
  intros Ht Ei Er []. split; simpl; try wf_keep.
  - by rewrite (fmap_upd_same _ _ _ _ _ Ht Ei).
  - intros q. specialize (wf_types q). destruct (decide (t = q)) as [<-|Hne].
    + rewrite lookup_insert_eq, Er. by rewrite Ht in wf_types.
    + by rewrite lookup_insert_ne.
Qed.

Lemma wf_new_type W s t ty t' :
  h_types s !! t = None -> type_refcount ty = 1%Z ->
  avl_list t' ≡ₚ (type_id ty, t) :: avl_list (obj_types s) -> wf W s ->
  wf (W <| wk_types ::= cons t |>) (s <| h_types ::= insert t ty |> <| obj_types := t' |>).
Proof.
  intros Ht Hrc Hl []. split; simpl; try wf_keep.
  - rewrite fmap_insert. eapply tree_ok_insert; [done|by apply fmap_fresh|done].
  - intros q. specialize (wf_types q). rewrite cnt_cons. destruct (decide (t = q)) as [<-|Hne].
    + rewrite lookup_insert_eq. rewrite Ht in wf_types. rewrite Hrc. lia.
    + by rewrite lookup_insert_ne.
Qed.

(** One more reference in hand, one less, the last one dropped *)
Lemma wf_type_ref W s t ty :
  h_types s !! t = Some ty -> wf W s ->
  wf (W <| wk_types ::= cons t |>) (s <| h_types ::= insert t (ty <| type_refcount ::= Z.succ |>) |>).
Proof.
  intros Ht []. split; simpl; try wf_keep.
  intros q. specialize (wf_types q). rewrite cnt_cons. destruct (decide (t = q)) as [<-|Hne].
  - rewrite lookup_insert_eq. rewrite Ht in wf_types. simpl. lia.
  - by rewrite lookup_insert_ne.
Qed.

Lemma wf_type_unref W s t ty :
  h_types s !! t = Some ty -> (0 < Z.pred (type_refcount ty))%Z -> wf (W <| wk_types ::= cons t |>) s ->
  wf W (s <| h_types ::= insert t (ty <| type_refcount ::= Z.pred |>) |>).
Proof.
  intros Ht Hpos []. split; simpl; try wf_keep.
  intros q. specialize (wf_types q). simpl in wf_types. rewrite cnt_cons in wf_types.
  destruct (decide (t = q)) as [<-|Hne].
  - rewrite lookup_insert_eq. rewrite Ht in wf_types. simpl. lia.
  - by rewrite lookup_insert_ne.
Qed.

Lemma wf_drop_type W s t ty :
  h_types s !! t = Some ty -> (Z.pred (type_refcount ty) <= 0)%Z -> wf (W <| wk_types ::= cons t |>) s ->
  wf W (s <| obj_types ::= fun tr => avl_delete tr (type_id ty) t |> <| h_types ::= delete t |>).
Proof.
  intros Ht Hpos []. split; simpl; try wf_keep.
  - rewrite fmap_delete. apply tree_ok_delete; [done|by apply fmap_Some_1].
  - intros q. specialize (wf_types q). simpl in wf_types. rewrite cnt_cons in wf_types.
    destruct (decide (t = q)) as [<-|Hne].
    + rewrite lookup_delete_eq. rewrite Ht in wf_types. lia.
    + by rewrite lookup_delete_ne.
Qed.

Lemma wf_type_live W s t : t ∈ wk_types W -> wf W s -> is_Some (h_types s !! t).
Proof.
  intros Hin%cnt_pos H. pose proof (wf_types _ _ H t) as Ht. destruct (h_types s !! t); [eauto|lia].
Qed.

Lemma wf_obj_type_live W s p o t :
  h_objects s !! p = Some o -> obj_type o = Some t -> wf W s -> is_Some (h_types s !! t).
Proof.
  intros Ho Et H. pose proof (wf_types _ _ H t) as Ht. rewrite (users_delete _ _ _ t Ho), Et in Ht.
  rewrite decide_True in Ht by done. destruct (h_types s !! t); [eauto|lia].
Qed.

(** ** Objects *)

Lemma wf_new_object W s p o t' :
  h_objects s !! p = None ->
  obj_events o = [] -> obj_subscribers o = [] -> obj_target_list o = [] -> obj_type o = None ->
  obj_path o = None -> obj_client o = None ->
  avl_list t' ≡ₚ (obj_id o, p) :: avl_list (objects s) -> wf W s ->
  wf (W <| wk_objs ::= cons p |>) (s <| h_objects ::= insert p o |> <| objects := t' |>).
Proof.
  intros Hp Eev Esub Etgt Ety Epath Ecl Hl [].
  assert (omap obj_client (<[p:=o]> (h_objects s)) = omap obj_client (h_objects s)) as Eomap.
  { rewrite omap_insert, Ecl. apply delete_id. by apply omap_fresh. }
  split; simpl; try wf_keep.
  - rewrite fmap_insert. eapply tree_ok_insert; [done|by apply fmap_fresh|done].
  - rewrite omap_insert, Epath. rewrite delete_id by by apply omap_fresh. done.
  - rewrite fmap_insert, Esub. apply list_ok_new; [by apply fmap_fresh|done].
  - rewrite fmap_insert, Etgt. apply list_ok_new; [by apply fmap_fresh|done].
  - rewrite fmap_insert, Eev. apply list_ok_new; [by apply fmap_fresh|done].
  - by rewrite Eomap.
  - intros q. rewrite users_fresh, Ety by done. apply wf_types.
  - unfold active. rewrite Eomap. exact wf_sub_active.
  - intros q x. rewrite lookup_insert_Some. intros [[<- <-]|[_ Hx]] Hcl Hni; [set_solver|].
    eapply wf_builtin; [done..|]. set_solver.
Qed.

(** The object takes over a reference in hand. *)
Lemma wf_set_type W s p o t :
  h_objects s !! p = Some o -> obj_type o = None -> wf (W <| wk_types ::= cons t |>) s ->
  wf W (s <| h_objects ::= insert p (o <| obj_type := Some t |>) |>).
Proof.
  intros Hp Et []. split; simpl; try wf_keep.
  - intros q. specialize (wf_types q). simpl in wf_types. rewrite cnt_cons in wf_types.
    pose proof (users_upd _ _ _ (o <| obj_type := Some t |>) q Hp) as Eu. simpl in Eu. rewrite Et in Eu.
    destruct (decide (None = Some q)); [done|].
    destruct (decide (Some t = Some q)), (decide (t = q)); simplify_eq;
      destruct (h_types s !! q); lia.
  - destruct wf_sub_active as (H1 & H2 & H3). split; [|split]; wf_keep.
Qed.

Lemma wf_set_path W s p o key t' :
  h_objects s !! p = Some o -> obj_path o = None ->
  avl_list t' ≡ₚ (key, p) :: avl_list (path s) -> wf W s ->
  wf W (s <| h_objects ::= insert p (o <| obj_path := Some key |>) |> <| path := t' |>).
Proof.
  intros Hp Epath Hl []. split; simpl; try wf_keep.
  - rewrite omap_insert. simpl. eapply tree_ok_insert; [done| |done]. rewrite lookup_omap, Hp. exact Epath.
  - destruct wf_sub_active as (H1 & H2 & H3). split; [|split]; wf_keep.
Qed.

Lemma wf_give_object W s p o cl c :
  h_objects s !! p = Some o -> obj_client o = None -> h_clients s !! cl = Some c ->
  wf (W <| wk_objs ::= cons p |>) s ->
  wf W (s <| h_objects ::= insert p (o <| obj_client := Some cl |>) |>
          <| h_clients ::= insert cl (c <| cl_objects ::= cons p |>) |>).
Proof.
  intros Hp Ecl Hc []. split; simpl; try wf_keep.
  - rewrite fmap_insert, omap_insert. simpl. eapply list_ok_add; [by apply fmap_Some_1| |done|done].
    rewrite lookup_omap, Hp. exact Ecl.
  - assert (forall back, active (h_objects s) back ->
      active (<[p:=o <| obj_client := Some cl |>]> (h_objects s)) back) as Ha.
    { intros back H x q Hx. rewrite omap_insert. simpl. rewrite lookup_insert_is_Some'. right. by apply (H x). }
    destruct wf_sub_active as (H1 & H2 & H3). split; [|split]; by apply Ha.
  - intros q x. rewrite lookup_insert_Some. intros [[<- <-]|[Hne Hx]] Hcl Hni; [done|].
    eapply wf_builtin; [done..|]. simpl. set_solver.
Qed.

(** The object is unlinked and freed; the reference to its type is in hand. *)
Lemma wf_drop_object W s p o h t' :
  h_objects s !! p = Some o ->
  obj_events o = [] -> obj_subscribers o = [] -> obj_target_list o = [] ->
  tree_ok t' (omap obj_path (delete p (h_objects s))) ->
  match obj_client o with
  | None => h = h_clients s
  | Some cl => exists c, h_clients s !! cl = Some c /\ h = <[cl := c <| cl_objects ::= list_del p |>]> (h_clients s)
  end -> wf W s ->
  wf (W <| wk_types ::= app (opt_list (obj_type o)) |>)
     (s <| path := t' |> <| h_clients := h |> <| objects ::= fun t => avl_delete t (obj_id o) p |>
        <| h_objects ::= delete p |>).
Proof.
  intros Hp Eev Esub Etgt Hpath Hh [].
  assert (forall back (get : ubus_object -> list ptr), list_ok (get <$> h_objects s) back -> get o = [] ->
    active (h_objects s) back -> active (delete p (h_objects s)) back) as Hact.
  { intros back get Hlo E Ha x q Hx. rewrite omap_delete, lookup_delete_is_Some. split; [|by apply (Ha x)].
    intros <-. eapply (lo_in _ _ Hlo p (get o)) in Hx; [|by apply fmap_Some_1].
    rewrite E in Hx. by apply not_elem_of_nil in Hx. }
  split; simpl; try wf_keep.
  - rewrite fmap_delete. apply tree_ok_delete; [done|by apply fmap_Some_1].
  - destruct (obj_client o) as [cl|]; [destruct Hh as (c & Hc & ->)|subst h; done]. by upd_same.
  - rewrite fmap_delete. apply list_ok_drop; [|done]. rewrite lookup_fmap, Hp. simpl. by rewrite Esub.
  - rewrite fmap_delete. apply list_ok_drop; [|done]. rewrite lookup_fmap, Hp. simpl. by rewrite Etgt.
  - rewrite fmap_delete. apply list_ok_drop; [|done]. rewrite lookup_fmap, Hp. simpl. by rewrite Eev.
  - rewrite omap_delete. destruct (obj_client o) as [cl|] eqn:Ecl.
    + destruct Hh as (c & Hc & ->). rewrite fmap_insert. simpl.
      apply list_ok_del; [by apply fmap_Some_1|by eapply omap_Some_1|done].
    + subst h. rewrite delete_id; [done|]. by rewrite lookup_omap, Hp.
  - intros q. specialize (wf_types q). rewrite cnt_app. rewrite (users_delete _ _ _ q Hp) in wf_types.
    assert (cnt q (opt_list (obj_type o)) = if decide (obj_type o = Some q) then 1 else 0) as Ec.
    { destruct (obj_type o) as [t|]; simpl; [|done]. rewrite cnt_cons, cnt_nil. 
      destruct (decide (t = q)); [subst; by rewrite decide_True|rewrite decide_False by congruence; done]. }
    rewrite Ec. destruct (h_types s !! q); lia.
  - destruct wf_sub_active as (H1 & H2 & H3). split; [|split].
    + by apply (Hact _ obj_subscribers).
    + by apply (Hact _ obj_target_list).
    + by apply (Hact _ obj_events).
  - intros q x [_ Hx]%lookup_delete_Some. by apply wf_builtin.
  - destruct (obj_client o) as [cl|]; [destruct Hh as (c & Hc & ->)|subst h; done]. wf_keep.
  - destruct (obj_client o) as [cl|]; [destruct Hh as (c & Hc & ->)|subst h; done]. wf_keep.
Qed.

(** ** Clients *)

Lemma wf_new_client W s cl c t' :
  h_clients s !! cl = None -> cl_objects c = [] ->
  avl_list t' ≡ₚ (cl_id c, cl) :: avl_list (clients s) -> wf W s ->
  wf (W <| wk_clients ::= cons cl |>) (s <| h_clients ::= insert cl c |> <| clients := t' |>).
Proof.
  intros Hc Eo Hl []. split; simpl; try wf_keep.
  - rewrite fmap_insert. eapply tree_ok_insert; [done|by apply fmap_fresh|done].
  - rewrite fmap_insert, Eo. apply list_ok_new; [by apply fmap_fresh|done].
  - intros q x. rewrite lookup_insert_Some. intros [[<- <-]|[_ Hx]] Hni; [set_solver|].
    eapply wf_retmsg; [done|]. set_solver.
Qed.

Lemma wf_set_retmsg W s cl c c' :
  h_clients s !! cl = Some c -> cl_id c' = cl_id c -> cl_objects c' = cl_objects c ->
  is_Some (cl_retmsg c') -> wf (W <| wk_clients ::= cons cl |>) s ->
  wf W (s <| h_clients ::= insert cl c' |>).
Proof.
  intros Hc Ei Eo Er []. split; simpl; try wf_keep.
  - by rewrite (fmap_upd_same _ _ _ _ _ Hc Ei).
  - by rewrite (fmap_upd_same _ _ _ _ _ Hc Eo).
  - intros q x. rewrite lookup_insert_Some. intros [[<- <-]|[Hne Hx]] Hni; [done|].
    eapply wf_retmsg; [done|]. simpl. set_solver.
Qed.

Lemma wf_clear_retmsg W s cl c c' :
  h_clients s !! cl = Some c -> cl_id c' = cl_id c -> cl_objects c' = cl_objects c -> wf W s ->
  wf (W <| wk_clients ::= cons cl |>) (s <| h_clients ::= insert cl c' |>).
Proof.
  intros Hc Ei Eo []. split; simpl; try wf_keep.
  - by rewrite (fmap_upd_same _ _ _ _ _ Hc Ei).
  - by rewrite (fmap_upd_same _ _ _ _ _ Hc Eo).
  - intros q x. rewrite lookup_insert_Some. intros [[<- <-]|[Hne Hx]] Hni; [set_solver|].
    eapply wf_retmsg; [done|]. set_solver.
Qed.

Lemma wf_drop_client W s cl c :
  h_clients s !! cl = Some c -> cl_objects c = [] -> cl ∉ (mon_cl <$> monitors s) ->
  wf (W <| wk_clients ::= cons cl |>) s ->
  wf W (s <| clients ::= fun t => avl_delete t (cl_id c) cl |> <| h_clients ::= delete cl |>).
Proof.
  intros Hc Eo Hm []. split; simpl; try wf_keep.
  - rewrite fmap_delete. apply tree_ok_delete; [done|by apply fmap_Some_1].
  - rewrite fmap_delete. apply list_ok_drop; [|done]. rewrite lookup_fmap, Hc. simpl. by rewrite Eo.
  - intros q x [Hne Hx]%lookup_delete_Some Hni. eapply wf_retmsg; [done|]. simpl. set_solver.
  - intros q Hq. apply lookup_delete_is_Some. split; [set_solver|]. by apply wf_mon_live.
Qed.

(** Nothing points to an object without lists. *)
Lemma wf_client_live W s p o cl :
  h_objects s !! p = Some o -> obj_client o = Some cl -> wf W s -> is_Some (h_clients s !! cl).
Proof.
  intros Ho Hcl H. destruct (lo_live _ _ (wf_owned _ _ H) p cl) as [l Hl]; [by eapply omap_Some_1|].
  apply fmap_Some_2 in Hl as (c & Hc & _). eauto.
Qed.
End WfOps.
