(* ===== verification/Registry.v ===== *)
(** * Object types and bare objects: the first half of [src/ubusd_obj.c]

    An object type carries the methods of a signature and is shared by
    reference counting; [ubusd_create_object_internal] makes an object that
    belongs to no client and has no path. *)

From stdpp Require Import base gmap strings list fin_maps.
From Stdlib Require Import ZArith Lia.
From S2P Require Import Prelude Wire Cstring Libubox Ids State.
Local Open Scope Z_scope.
Local Open Scope ubus_scope.

Section Registry.
Context `{AL : AvlLib} `{BL : BlobLib}.

(** [ubus_alloc_id] on one of the daemon's trees *)
Definition alloc_id (get : ubusd -> id_tree ptr)
    (set : (id_tree ptr -> id_tree ptr) -> ubusd -> ubusd) (node : ptr) (val : Z)
    : stm ubusd (option Z) :=
  fun s =>
    let '(r, tree, rnd) := ubus_alloc_id (get s) node val (os_random (os s)) in
    Some (r, set (fun _ => tree) (s <| os ::= fun o => o <| os_random := rnd |> |>)).

Definition upd_objects (f : id_tree ptr -> id_tree ptr) (s : ubusd) : ubusd := s <| objects ::= f |>.
Definition upd_obj_types (f : id_tree ptr -> id_tree ptr) (s : ubusd) : ubusd := s <| obj_types ::= f |>.
Definition upd_clients (f : id_tree ptr -> id_tree ptr) (s : ubusd) : ubusd := s <| clients ::= f |>.
Definition upd_path (f : string_tree false ptr -> string_tree false ptr) (s : ubusd) : ubusd :=
  s <| path ::= f |>.
Definition upd_patterns (f : string_tree true ptr -> string_tree true ptr) (s : ubusd) : ubusd :=
  s <| patterns ::= f |>.
Definition upd_acls (f : string_tree true ptr -> string_tree true ptr) (s : ubusd) : ubusd :=
  s <| ubusd_acls ::= f |>.

Definition ubusd_find_object (objid : Z) : stm ubusd (option ptr) :=
  gets (fun s => ubus_find_id (objects s) objid).

Definition ubus_unref_object_type (type : ptr) : stm ubusd unit :=
  store type (fun t => t <| type_refcount ::= Z.pred |>);;
  t ← load (T := ubus_object_type) type;
  if 0 <? type_refcount t then mret tt
  else
    tree_delete obj_types upd_obj_types (type_id t) type;;
    free_ptr (T := ubus_object_type) type.

Definition ubus_create_obj_method (type : ptr) (attr : bytes) : stm ubusd bool :=
  ok ← try_alloc;
  if (ok : bool) then
    store type (fun t => t <| type_methods ::= fun l => l ++ [mk_method (blobmsg_name attr) attr] |>);;
    mret true
  else mret false.

Definition ubus_create_obj_type (sig : bytes) : stm ubusd (option ptr) :=
  type ← alloc (mk_object_type 0 1 []);
  match type with
  | None => mret None
  | Some type =>
      r ← alloc_id obj_types upd_obj_types type 0;
      match r with
      | None => free_ptr (T := ubus_object_type) type;; mret None
      | Some id =>
          store type (fun t => t <| type_id := id |>);;
          failed ← for_until (blob_for_each_attr sig) (fun pos =>
            if negb (blobmsg_check_attr pos true) then mret (Some tt)
            else
              ok ← ubus_create_obj_method type pos;
              mret (if (ok : bool) then None else Some tt));
          match failed with
          | Some _ => ubus_unref_object_type type;; mret None
          | None => mret (Some type)
          end
      end
  end.

Definition ubus_get_obj_type (obj_id : Z) : stm ubusd (option ptr) :=
  id ← gets (fun s => ubus_find_id (obj_types s) obj_id);
  match id with
  | None => mret None
  | Some type =>
      store type (fun t => t <| type_refcount ::= Z.succ |>);;
      mret (Some type)
  end.

(** The [calloc]ed object with its lists initialised *)
Definition object_zero : ubus_object := mk_object 0 [] [] [] None None None None 0 0.

Definition ubusd_create_object_internal (type : option ptr) (id : Z) : stm ubusd (option ptr) :=
  obj ← alloc object_zero;
  match obj with
  | None => mret None
  | Some obj =>
      r ← alloc_id objects upd_objects obj id;
      match r with
      | None => free_ptr (T := ubus_object) obj;; mret None
      | Some oid =>
          store obj (fun o => o <| obj_id := oid |> <| obj_type := type |>);;
          match type with
          | Some t => store t (fun t => t <| type_refcount ::= Z.succ |>)
          | None => mret tt
          end;;
          mret (Some obj)
      end
  end.
End Registry.
