(* ===== verification/Acl.v ===== *)
(** * Access control checks: [src/ubusd_acl.c], first half

    [ubusd_acl_check] scans the string-sorted access list and stops when the
    match with the object's path gets shorter; [ubusd_acl_init_client] takes a
    client's credentials from its socket. *)

From stdpp Require Import base gmap strings list fin_maps.
From Stdlib Require Import ZArith Lia.
From S2P Require Import Prelude Wire Cstring Libubox Ids State.
Local Open Scope Z_scope.
Local Open Scope ubus_scope.

Inductive ubusd_acl_type :=
  | UBUS_ACL_PUBLISH | UBUS_ACL_SUBSCRIBE | UBUS_ACL_ACCESS | UBUS_ACL_LISTEN | UBUS_ACL_SEND.

Definition UBUS_CLIENT_MAX_EXTRA_GID : Z := 64.

Section Acl.
Context `{AL : AvlLib} `{BL : BlobLib}.

Definition ubusd_acl_match_cred (c : ubus_client) (obj : ubusd_acl_obj) : Z :=
  if negb (acl_uid obj =? -1) && (cl_uid c =? acl_uid obj) then 0
  else if negb (acl_gid obj =? -1) &&
          ((cl_gid c =? acl_gid obj) || existsb (fun g => g =? acl_gid obj) (cl_extra_gid c)) then 0
  else -1.

(** The [methods] array lists the method or the star. *)
Definition acl_method_listed (method : string) (methods : bytes) : bool :=
  existsb (fun cur =>
    bool_decide (blobmsg_type cur = BLOBMSG_TYPE_STRING) &&
      ((strcmp method (blobmsg_get_string cur) =? 0) || (strcmp "*" (blobmsg_get_string cur) =? 0)))
    (blobmsg_for_each_attr methods).

(** The [switch (type)] of [ubusd_acl_check]: does the entry grant it?  Only
    [UBUS_ACL_ACCESS] looks at the method. *)
Definition acl_grants (acl : ubusd_acl_obj) (method : option string) (type : ubusd_acl_type)
    : stm ubusd bool :=
  match type with
  | UBUS_ACL_PUBLISH => mret (acl_publish acl)
  | UBUS_ACL_SUBSCRIBE => mret (acl_subscribe acl)
  | UBUS_ACL_LISTEN => mret (acl_listen acl)
  | UBUS_ACL_SEND => mret (acl_send acl)
  | UBUS_ACL_ACCESS =>
      match acl_methods acl, method with
      | None, _ => mret false
      | Some ms, Some m => mret (acl_method_listed m ms)
      | Some _, None => undefined
      end
  end.

(** The body of [avl_for_each_element(&ubusd_acls, acl, avl)] *)
Fixpoint acl_check_loop (c : ubus_client) (obj : string) (method : option string)
    (type : ubusd_acl_type) (match_len : Z) (l : list (string * ptr)) : stm ubusd Z :=
  match l with
  | [] => mret (-1)
  | (key, p) :: l =>
      acl ← load (T := ubusd_acl_obj) p;
      let '(full_match, cur_match_len) := ubus_strmatch_len obj key in
      if cur_match_len <? match_len then mret (-1)
      else if negb full_match && (negb (acl_partial acl) || negb (cur_match_len =? strlen key)) then
        acl_check_loop c obj method type cur_match_len l
      else if negb (ubusd_acl_match_cred c acl =? 0) then
        acl_check_loop c obj method type cur_match_len l
      else
        ok ← acl_grants acl method type;
        if (ok : bool) then mret 0 else acl_check_loop c obj method type cur_match_len l
  end.

Definition ubusd_acl_check (cl : option ptr) (obj method : option string) (type : ubusd_acl_type)
    : stm ubusd Z :=
  match cl with
  | None => mret 0
  | Some cl =>
      c ← load (T := ubus_client) cl;
      match obj with
      | None => mret 0
      | Some obj =>
          if cl_uid c =? 0 then mret 0
          else
            l ← gets (fun s => avl_list (ubusd_acls s));
            acl_check_loop c obj method type 0 l
      end
  end.

(** What the kernel and the user database say about a connecting peer:
    [SO_PEERCRED] (if it answers), the names of its uid and gid, and its
    supplementary groups (if the kernel has [SO_PEERGROUPS]). *)
Record peer_info := mk_peer {
  peer_cred : option (Z * Z);
  peer_pw_name : option string;
  peer_gr_name : option string;
  peer_groups : option (list Z);
}.

(** [getsockopt] fails when the groups do not fit the buffer. *)
Definition ubusd_acl_load_extra_gids (cl : ptr) (peer : peer_info) : stm ubusd Z :=
  ok ← try_alloc;
  if negb ok then mret (-1)
  else match peer_groups peer with
       | None | Some [] => mret 0
       | Some gids =>
           if UBUS_CLIENT_MAX_EXTRA_GID <? Z.of_nat (length gids) then mret 0
           else store cl (fun c => c <| cl_extra_gid := gids |>);; mret 0
       end.

Definition ubusd_acl_init_client (cl : ptr) (peer : peer_info) : stm ubusd Z :=
  match peer_cred peer, peer_pw_name peer, peer_gr_name peer with
  | Some (uid, gid), Some pw_name, Some gr_name =>
      store cl (fun c => c <| cl_uid := uid |> <| cl_gid := gid |>);;
      ok ← try_alloc;
      if negb ok then mret (-1)
      else
        store cl (fun c => c <| cl_group := Some gr_name |>);;
        ok ← try_alloc;
        if negb ok then store cl (fun c => c <| cl_group := None |>);; mret (-1)
        else
          store cl (fun c => c <| cl_user := Some pw_name |>);;
          rc ← ubusd_acl_load_extra_gids cl peer;
          if negb (rc =? 0) then
            store cl (fun c => c <| cl_user := None |> <| cl_group := None |>);; mret (-1)
          else mret 0
  | _, _, _ => mret (-1)
  end.
End Acl.
