(* ===== verification/Reply.v ===== *)
(** * Building and sending messages: helpers of [src/ubusd_proto.c]

    The global [struct blob_buf b] is reinitialised before every use, so a
    function that fills it is given, or returns, the list of the calls made on
    it. *)

From stdpp Require Import base gmap strings list fin_maps.
From Stdlib Require Import ZArith Lia.
From S2P Require Import Prelude Wire Cstring Libubox Ids State MsgBuf.
Local Open Scope Z_scope.
Local Open Scope ubus_scope.

Section Reply.
Context `{AL : AvlLib} `{BL : BlobLib}.

(** The attribute types [ubusd] insists on *)
Definition ubus_policy (id : Z) : blob_attr_type :=
  if id =? UBUS_ATTR_SIGNATURE then BLOB_ATTR_NESTED
  else if id =? UBUS_ATTR_OBJTYPE then BLOB_ATTR_INT32
  else if id =? UBUS_ATTR_OBJPATH then BLOB_ATTR_STRING
  else if id =? UBUS_ATTR_OBJID then BLOB_ATTR_INT32
  else if id =? UBUS_ATTR_STATUS then BLOB_ATTR_INT32
  else if id =? UBUS_ATTR_METHOD then BLOB_ATTR_STRING
  else if id =? UBUS_ATTR_USER then BLOB_ATTR_STRING
  else if id =? UBUS_ATTR_GROUP then BLOB_ATTR_STRING
  else BLOB_ATTR_UNSPEC.


(** [attrbuf] after [ubus_parse_msg(msg, len)] *)
Definition ubus_parse_msg (msg : bytes) (len : Z) (a : ubus_msg_attr) : option bytes :=
  blob_parse_untrusted ubus_policy UBUS_ATTR_MAX msg len a.

Definition ubus_msg_close_fd (ub : ptr) : stm ubusd unit :=
  u ← load ub;
  if ub_fd u <? 0 then mret tt
  else
    sys_close (ub_fd u);;
    store ub (fun m => m <| ub_fd := -1 |>).

Definition ubus_msg_init (ub : ptr) (type : ubus_msg_type) (seq peer : Z) : stm ubusd unit :=
  store ub (fun m => m <| ub_hdr := mk_msghdr 0 type seq peer |>).

Definition ubus_msg_from_blob (b : list put) (shared : bool) : stm ubusd (option ptr) :=
  let head := blob_render b in
  ubus_msg_new (Some head) (blob_raw_len head) shared.

Definition ubus_reply_from_blob (b : list put) (ub : ptr) (shared : bool) : stm ubusd (option ptr) :=
  new ← ubus_msg_from_blob b shared;
  match new with
  | None => mret None
  | Some new =>
      u ← load (T := ubus_msg_buf) ub;
      ubus_msg_init new UBUS_MSG_DATA (hdr_seq (ub_hdr u)) (hdr_peer (ub_hdr u));;
      mret (Some new)
  end.

Definition ubus_proto_send_msg_from_blob (b : list put) (cl ub : ptr) (type : ubus_msg_type)
    : stm ubusd unit :=
  u ← load (T := ubus_msg_buf) ub;
  let fd := ub_fd u in
  new ← ubus_reply_from_blob b ub true;
  match new with
  | None => when (0 <=? fd) (sys_close fd)
  | Some new =>
      store new (fun m => m <| ub_hdr ::= fun h => h <| hdr_type := type |> |> <| ub_fd := fd |>);;
      ubus_msg_send cl new;;
      ubus_msg_free new
  end.

Definition ubusd_send_hello (cl : ptr) : stm ubusd bool :=
  ub ← ubus_msg_from_blob [] true;
  match ub with
  | None => mret false
  | Some ub =>
      c ← load (T := ubus_client) cl;
      ubus_msg_init ub UBUS_MSG_HELLO 0 (cl_id c);;
      ubus_msg_send cl ub;;
      ubus_msg_free ub;;
      mret true
  end.

(** [ubus_msg_send(obj->client, ub)]; a null client is dereferenced *)
Definition msg_send_to (client : option ptr) (ub : ptr) : stm ubusd unit :=
  match client with
  | None => undefined
  | Some cl => ubus_msg_send cl ub
  end.

Definition ubus_notify_subscription (obj : ptr) : stm ubusd unit :=
  o ← load (T := ubus_object) obj;
  let active := bool_decide (obj_subscribers o <> []) in
  ub ← ubus_msg_from_blob
         [put_int32 UBUS_ATTR_OBJID (obj_id o);
          put_int8 UBUS_ATTR_ACTIVE (if active then 1 else 0)] false;
  match ub with
  | None => mret tt
  | Some ub =>
      let seq := u16 (obj_invoke_seq o + 1) in
      store obj (fun o => o <| obj_invoke_seq := seq |>);;
      ubus_msg_init ub UBUS_MSG_NOTIFY seq 0;;
      msg_send_to (obj_client o) ub;;
      ubus_msg_free ub
  end.

(** [ubus_unsubscribe] of [src/ubusd_obj.c] *)
Definition ubus_unsubscribe (s : ptr) : stm ubusd unit :=
  sub ← load (T := ubus_subscription) s;
  let obj := s_target sub in
  store obj (fun o => o <| obj_subscribers ::= list_del s |>);;
  store (s_subscriber sub) (fun o => o <| obj_target_list ::= list_del s |>);;
  free_ptr (T := ubus_subscription) s;;
  o ← load (T := ubus_object) obj;
  if decide (obj_subscribers o = []) then ubus_notify_subscription obj else mret tt.

Definition ubus_notify_unsubscribe (s : ptr) : stm ubusd unit :=
  sub ← load (T := ubus_subscription) s;
  subscriber ← load (T := ubus_object) (s_subscriber sub);
  target ← load (T := ubus_object) (s_target sub);
  ub ← ubus_msg_from_blob
         [put_int32 UBUS_ATTR_OBJID (obj_id subscriber);
          put_int32 UBUS_ATTR_TARGET (obj_id target)] false;
  match ub with
  | None => mret tt
  | Some ub =>
      let seq := u16 (obj_invoke_seq subscriber + 1) in
      store (s_subscriber sub) (fun o => o <| obj_invoke_seq := seq |>);;
      ubus_msg_init ub UBUS_MSG_UNSUBSCRIBE seq 0;;
      msg_send_to (obj_client subscriber) ub;;
      ubus_msg_free ub
  end;;
  ubus_unsubscribe s.
End Reply.
