(* ===== verification/Event.v ===== *)
(** * Events: [src/ubusd_event.c]

    Clients register patterns for an object of theirs; [ubusd_send_event]
    delivers an event once to every object with a matching pattern, except to
    the sender's own. *)

From stdpp Require Import base gmap strings list fin_maps.
From Stdlib Require Import ZArith Lia.
From S2P Require Import Prelude Wire Cstring Libubox Ids State MsgBuf Registry Acl Reply.
Local Open Scope Z_scope.
Local Open Scope ubus_scope.

Definition UBUS_EVENT_RESERVED_PREFIX : string := "ubus.".

Section Event.
Context `{AL : AvlLib} `{BL : BlobLib}.

Definition ubusd_delete_event_source (evs : ptr) : stm ubusd unit :=
  ev ← load (T := event_source) evs;
  store (ev_obj ev) (fun o => o <| obj_events ::= list_del evs |>);;
  tree_delete patterns upd_patterns (ev_key ev) evs;;
  free_ptr (T := event_source) evs.

Definition ubusd_event_cleanup_object (obj : ptr) : stm ubusd unit :=
  o ← load (T := ubus_object) obj;
  for_each (obj_events o) ubusd_delete_event_source.

(** [evr_policy]: the attributes of a "register" call *)
Definition evr_pattern (msg : bytes) : option bytes := blobmsg_parse msg "pattern" BLOBMSG_TYPE_STRING.
Definition evr_object (msg : bytes) : option bytes := blobmsg_parse msg "object" BLOBMSG_TYPE_INT32.

(** A trailing star makes a pattern partial and is cut off: the key and the flag. *)
Definition split_pattern (pattern : string) : string * bool :=
  match split_last pattern with
  | Some (p, c) => if decide (c = star) then (p, true) else (pattern, false)
  | None => (pattern, false)
  end.

Definition ubusd_alloc_event_pattern (cl : ptr) (msg : option bytes) : stm ubusd Z :=
  match msg with
  | None => status UBUS_STATUS_INVALID_ARGUMENT
  | Some msg =>
      match evr_object (blob_data msg), evr_pattern (blob_data msg) with
      | Some aobj, Some apat =>
          let id := blobmsg_get_u32 aobj in
          if id <? UBUS_SYSTEM_OBJECT_MAX then status UBUS_STATUS_PERMISSION_DENIED
          else
            obj ← ubusd_find_object id;
            match obj with
            | None => status UBUS_STATUS_NOT_FOUND
            | Some obj =>
                o ← load (T := ubus_object) obj;
                if negb (bool_decide (obj_client o = Some cl)) then
                  status UBUS_STATUS_PERMISSION_DENIED
                else
                  let pattern := blobmsg_get_string apat in
                  if strlen pattern =? 0 then status UBUS_STATUS_PERMISSION_DENIED
                  else
                    let '(key, partial) := split_pattern pattern in
                    rc ← ubusd_acl_check (Some cl) (Some key) None UBUS_ACL_LISTEN;
                    if negb (rc =? 0) then status UBUS_STATUS_PERMISSION_DENIED
                    else
                      ev ← alloc (mk_event_source obj key partial);
                      match ev with
                      | None => status UBUS_STATUS_NO_MEMORY
                      | Some ev =>
                          store obj (fun o => o <| obj_events ::= cons ev |>);;
                          modify (upd_patterns (fun t => (avl_insert t key ev).2));;
                          mret 0
                      end
            end
      | _, _ => status UBUS_STATUS_INVALID_ARGUMENT
      end
  end.

(** [ubusd_send_event_msg(&ub, cl, obj, ...)]: the status, and [ub] *)
Definition ubusd_send_event_msg (ub : option ptr) (cl : option ptr) (obj : ptr)
    (fill_cb : stm ubusd (option ptr)) : stm ubusd (Z * option ptr) :=
  o ← load (T := ubus_object) obj;
  seq ← gets obj_event_seq;
  if bool_decide (obj_client o = cl) then mret (0, ub)
  else if obj_event_seen o =? seq then mret (0, ub)
  else
    store obj (fun o => o <| obj_event_seen := seq |>);;
    ub ← match ub with
         | Some _ => mret ub
         | None =>
             ub ← fill_cb;
             match ub with
             | None => mret None
             | Some u =>
                 store u (fun m => m <| ub_hdr ::= fun h =>
                            h <| hdr_type := UBUS_MSG_INVOKE |> <| hdr_peer := 0 |> |>);;
                 mret (Some u)
             end
         end;
    match ub with
    | None => mret (UBUS_STATUS_UNKNOWN_ERROR : Z, None)
    | Some u =>
        m ← load u;
        assert (fits 8 (be32 (obj_id o)) (ub_data m));;
        store u (fun m => m <| ub_data ::= splice 8 (be32 (obj_id o)) |>);;
        modify (fun s => s <| event_seq ::= fun n => u16 (n + 1) |>);;
        n ← gets event_seq;
        store u (fun m => m <| ub_hdr ::= fun h => h <| hdr_seq := n |> |>);;
        msg_send_to (obj_client o) u;;
        mret (0, Some u)
    end.

(** The loop over the pattern tree: the last status, and [ub] *)
Fixpoint send_event_loop (cl : option ptr) (id : string) (fill_cb : stm ubusd (option ptr))
    (match_len : Z) (ub : option ptr) (l : list (string * ptr)) : stm ubusd (Z * option ptr) :=
  match l with
  | [] => mret (0, ub)
  | (key, p) :: l =>
      ev ← load (T := event_source) p;
      let '(full_match, cur_match_len) := ubus_strmatch_len id key in
      if cur_match_len <? match_len then mret (0, ub)
      else if negb full_match && (negb (ev_partial ev) || negb (cur_match_len =? strlen key)) then
        send_event_loop cl id fill_cb cur_match_len ub l
      else
        '(ret, ub) ← ubusd_send_event_msg ub cl (ev_obj ev) fill_cb;
        if negb (ret =? 0) then mret (ret, ub)
        else send_event_loop cl id fill_cb cur_match_len ub l
  end.

(** [if (!++obj_event_seq) obj_event_seq = 1;] *)
Definition next_event_seq (n : Z) : Z :=
  let n := u32 (n + 1) in if n =? 0 then 1 else n.

(** The event gets its number; [events_sent] counts it. *)
Definition number_event (s : ubusd) : ubusd :=
  s <| obj_event_seq ::= next_event_seq |> <| events_sent ::= Z.succ |>.

Definition ubusd_send_event (cl : option ptr) (id : string) (fill_cb : stm ubusd (option ptr))
    : stm ubusd Z :=
  rc ← ubusd_acl_check cl (Some id) None UBUS_ACL_SEND;
  if negb (rc =? 0) then status UBUS_STATUS_PERMISSION_DENIED
  else
    modify number_event;;
    l ← gets (fun s => avl_list (patterns s));
    '(ret, ub) ← send_event_loop cl id fill_cb 0 None l;
    match ub with
    | Some u => ubus_msg_free u
    | None => mret tt
    end;;
    mret ret.

Definition event_puts (id : string) (data : put) : list put :=
  [put_int32 UBUS_ATTR_OBJID 0; put_string UBUS_ATTR_METHOD id;
   put_int8 UBUS_ATTR_NO_REPLY 1; data].

Definition ubusd_create_event_from_msg (msg : bytes) (id : string) : stm ubusd (option ptr) :=
  ubus_msg_from_blob (event_puts id (put_blob UBUS_ATTR_DATA (blobmsg_data msg))) true.

(** [ev_policy]: the attributes of a "send" call *)
Definition ev_id (msg : bytes) : option bytes := blobmsg_parse msg "id" BLOBMSG_TYPE_STRING.
Definition ev_data (msg : bytes) : option bytes := blobmsg_parse msg "data" BLOBMSG_TYPE_TABLE.

Definition ubusd_forward_event (cl : ptr) (msg : option bytes) : stm ubusd Z :=
  match msg with
  | None => status UBUS_STATUS_INVALID_ARGUMENT
  | Some msg =>
      match ev_id (blob_data msg), ev_data (blob_data msg) with
      | Some aid, Some data =>
          let id := blobmsg_get_string aid in
          if starts_with UBUS_EVENT_RESERVED_PREFIX id then status UBUS_STATUS_PERMISSION_DENIED
          else ubusd_send_event (Some cl) id (ubusd_create_event_from_msg data id)
      | _, _ => status UBUS_STATUS_INVALID_ARGUMENT
      end
  end.

Definition ubusd_event_recv (cl : ptr) (method : string) (msg : option bytes) : stm ubusd Z :=
  if strcmp method "register" =? 0 then ubusd_alloc_event_pattern cl msg
  else if strcmp method "send" =? 0 then ubusd_forward_event cl msg
  else status UBUS_STATUS_INVALID_COMMAND.

Definition ubusd_create_object_event_msg (obj : ptr) (id : string) : stm ubusd (option ptr) :=
  o ← load (T := ubus_object) obj;
  match obj_path o with
  | None => undefined
  | Some key =>
      ubus_msg_from_blob
        (event_puts id (put_nest UBUS_ATTR_DATA [msg_u32 "id" (obj_id o); msg_string "path" key])) true
  end.

Definition ubusd_send_obj_event (obj : ptr) (add : bool) : stm ubusd unit :=
  let id := if add then "ubus.object.add"%string else "ubus.object.remove"%string in
  _ ← ubusd_send_event None id (ubusd_create_object_event_msg obj id);
  mret tt.

Definition ubusd_event_init : stm ubusd unit :=
  modify (upd_patterns (fun _ => ubus_init_string_tree true ptr));;
  event_obj ← ubusd_create_object_internal None UBUS_SYSTEM_OBJECT_EVENT;
  match event_obj with
  | Some obj => store obj (fun o => o <| obj_recv_msg := Some ubusd_event_recv_cb |>)
  | None => mret tt
  end.
End Event.
