(* ===== verification/Obj.v ===== *)
(** * Objects and subscriptions: the second half of [src/ubusd_obj.c] *)

From stdpp Require Import base gmap strings list fin_maps.
From Stdlib Require Import ZArith Lia.
From S2P Require Import Prelude Wire Cstring Libubox Ids State MsgBuf Registry Acl Reply Event.
Local Open Scope Z_scope.
Local Open Scope ubus_scope.

Section Obj.
Context `{AL : AvlLib} `{BL : BlobLib}.

Definition ubus_subscribe (obj target : ptr) : stm ubusd Z :=
  t ← load (T := ubus_object) target;
  let first := bool_decide (obj_subscribers t = []) in
  s ← alloc (mk_subscription obj target);
  match s with
  | None => status UBUS_STATUS_NO_MEMORY
  | Some s =>
      store target (fun o => o <| obj_subscribers ::= cons s |>);;
      store obj (fun o => o <| obj_target_list ::= cons s |>);;
      when first (ubus_notify_subscription target);;
      mret 0
  end.

Definition ubusd_free_object (obj : ptr) : stm ubusd unit :=
  o ← load (T := ubus_object) obj;
  for_each (obj_target_list o) ubus_unsubscribe;;
  o ← load (T := ubus_object) obj;
  for_each (obj_subscribers o) ubus_notify_unsubscribe;;
  ubusd_event_cleanup_object obj;;
  o ← load (T := ubus_object) obj;
  match obj_path o with
  | Some key =>
      ubusd_send_obj_event obj false;;
      tree_delete path upd_path key obj
  | None => mret tt
  end;;
  match obj_client o with
  | Some cl => store cl (fun c => c <| cl_objects ::= list_del obj |>)
  | None => mret tt
  end;;
  tree_delete objects upd_objects (obj_id o) obj;;
  match obj_type o with
  | Some t => ubus_unref_object_type t
  | None => mret tt
  end;;
  free_ptr (T := ubus_object) obj.

(** [avl_insert(&path, &obj->path)] with the key [strdup]ed into the object *)
Definition path_insert (obj : ptr) (key : string) : stm ubusd bool :=
  t ← gets path;
  let '(rc, t') := avl_insert t key obj in
  if rc =? 0 then modify (upd_path (fun _ => t'));; mret true
  else mret false.

(** From [if (attr[UBUS_ATTR_OBJPATH])] on: [false] is [goto free] *)
Definition create_object_path (cl : ptr) (obj : ptr) (key : string) : stm ubusd bool :=
  rc ← ubusd_acl_check (Some cl) (Some key) None UBUS_ACL_PUBLISH;
  if negb (rc =? 0) then mret false
  else
    ok ← try_alloc;
    if negb ok then mret false
    else
      store obj (fun o => o <| obj_path := Some key |>);;
      ok ← path_insert obj key;
      if (ok : bool) then ubusd_send_obj_event obj true;; mret true
      else store obj (fun o => o <| obj_path := None |>);; mret false.

Definition create_object_type (attr : ubus_msg_attr -> option bytes) : stm ubusd (option ptr) :=
  match attr UBUS_ATTR_OBJTYPE, attr UBUS_ATTR_SIGNATURE with
  | Some a, _ => ubus_get_obj_type (blob_get_u32 a)
  | None, Some sig => ubus_create_obj_type sig
  | None, None => mret None
  end.

Definition ubusd_create_object (cl : ptr) (attr : ubus_msg_attr -> option bytes)
    : stm ubusd (option ptr) :=
  type ← create_object_type attr;
  obj ← ubusd_create_object_internal type 0;
  match type with
  | Some t => ubus_unref_object_type t
  | None => mret tt
  end;;
  match obj with
  | None => mret None
  | Some obj =>
      ok ← match attr UBUS_ATTR_OBJPATH with
           | Some a => create_object_path cl obj (blob_string a)
           | None => mret true
           end;
      if (ok : bool) then
        store obj (fun o => o <| obj_client := Some cl |>);;
        store cl (fun c => c <| cl_objects ::= cons obj |>);;
        mret (Some obj)
      else
        ubusd_free_object obj;;
        mret None
  end.
End Obj.
