(* ===== verification/AclLoad.v ===== *)
(** * Loading access control files: [src/ubusd_acl.c], second half

    [ubusd_acl_load] reads the JSON files of the access control directory,
    keeps them in a versioned list, and gives every access list entry to the
    file it comes from.  The file system, the user database and libubox's JSON
    parser are arguments of the definitions. *)

From stdpp Require Import base gmap strings list fin_maps.
From Stdlib Require Import ZArith Lia.
From S2P Require Import Prelude Wire Cstring Libubox Ids State MsgBuf Registry Acl Reply Event.
Local Open Scope Z_scope.
Local Open Scope ubus_scope.

(** [getpwnam] and [getgrnam]: the ids of the names they know *)
Record user_db := mk_user_db {
  getpwnam : string -> option Z;
  getgrnam : string -> option Z;
}.

(** [struct stat]: the fields used *)
Record stat_info := mk_stat {
  st_isreg : bool;
  st_uid : Z;
  st_gid : Z;
  st_mode : Z;
}.

(** A path [glob] returns, with what [stat] and [blobmsg_add_json_from_file]
    answer for it ([None]: they fail); parsing fills a blob buffer. *)
Record dir_entry := mk_dir_entry {
  de_path : string;
  de_stat : option stat_info;
  de_json : option (list put);
}.

(** [S_IWOTH | S_IWGRP | S_IXOTH] *)
Definition bad_mode : Z := Z.lor 2 (Z.lor 16 1).

Section AclLoad.
Context `{AL : AvlLib} `{BL : BlobLib}.

Definition ubusd_acl_file_free (file : ptr) : stm ubusd unit :=
  f ← load (T := ubusd_acl_file) file;
  for_each (af_acl f) (fun p =>
    a ← load (T := ubusd_acl_obj) p;
    tree_delete ubusd_acls upd_acls (acl_key a) p;;
    store file (fun f => f <| af_acl ::= list_del p |>);;
    free_ptr (T := ubusd_acl_obj) p);;
  free_ptr (T := ubusd_acl_file) file.

(** The entry as [ubusd_acl_alloc_obj] fills it from its file *)
Definition acl_obj_new (f : ubusd_acl_file) (key : string) (partial : bool) : ubusd_acl_obj :=
  mk_acl_obj key partial (af_user f) (af_group f) (af_uid f) (af_gid f) None None None
    false false false false.

Definition ubusd_acl_alloc_obj (file : ptr) (obj : string) : stm ubusd (option ptr) :=
  if strlen obj =? 0 then mret None
  else
    let '(key, partial) := split_pattern obj in
    f ← load (T := ubusd_acl_file) file;
    o ← alloc (acl_obj_new f key partial);
    match o with
    | None => mret None
    | Some o =>
        store file (fun f => f <| af_acl ::= cons o |>);;
        modify (upd_acls (fun t => (avl_insert t key o).2));;
        mret (Some o)
    end.

(** [acl_obj_policy] *)
Definition acl_access_methods (obj : bytes) : option bytes :=
  blobmsg_parse (blobmsg_data obj) "methods" BLOBMSG_TYPE_ARRAY.
Definition acl_access_tags (obj : bytes) : option bytes :=
  blobmsg_parse (blobmsg_data obj) "tags" BLOBMSG_TYPE_ARRAY.
Definition acl_access_priv (obj : bytes) : option bytes :=
  blobmsg_parse (blobmsg_data obj) "acl" BLOBMSG_TYPE_TABLE.

Definition ubusd_acl_add_access (file : ptr) (obj : bytes) : stm ubusd unit :=
  let methods := acl_access_methods obj in
  let tags := acl_access_tags obj in
  let priv := acl_access_priv obj in
  if bool_decide (methods = None) && bool_decide (tags = None) && bool_decide (priv = None) then mret tt
  else
    o ← ubusd_acl_alloc_obj file (blobmsg_name obj);
    match o with
    | None => mret tt
    | Some o =>
        store o (fun a => a <| acl_methods := methods |> <| acl_tags := tags |> <| acl_priv := priv |>);;
        f ← load (T := ubusd_acl_file) file;
        when ((0 <? af_uid f) || (0 <? af_gid f)) (store file (fun f => f <| af_ok := 1 |>))
    end.

(** [ubusd_acl_add_subscribe], [_publish], [_listen] and [_send] differ in the
    flag they set. *)
Definition acl_add_flag (set : ubusd_acl_obj -> ubusd_acl_obj) (file : ptr) (obj : string) : stm ubusd unit :=
  o ← ubusd_acl_alloc_obj file obj;
  match o with
  | None => mret tt
  | Some o => store o set
  end.

Definition set_subscribe (a : ubusd_acl_obj) : ubusd_acl_obj := a <| acl_subscribe := true |>.
Definition set_publish (a : ubusd_acl_obj) : ubusd_acl_obj := a <| acl_publish := true |>.
Definition set_listen (a : ubusd_acl_obj) : ubusd_acl_obj := a <| acl_listen := true |>.
Definition set_send (a : ubusd_acl_obj) : ubusd_acl_obj := a <| acl_send := true |>.

Definition ubusd_acl_add_subscribe := acl_add_flag set_subscribe.
Definition ubusd_acl_add_publish := acl_add_flag set_publish.
Definition ubusd_acl_add_listen := acl_add_flag set_listen.
Definition ubusd_acl_add_send := acl_add_flag set_send.

(** [acl_policy] *)
Definition acl_tb (blob : bytes) (name : string) (type : blobmsg_type_t) : option bytes :=
  blobmsg_parse (blob_data blob) name type.

(** [if (tb[...]) blobmsg_for_each_attr(cur, tb[...], rem) add(file, cur);] *)
Definition acl_for_each (tb : option bytes) (add : bytes -> stm ubusd unit) : stm ubusd unit :=
  match tb with
  | None => mret tt
  | Some a => for_each (blobmsg_for_each_attr a) add
  end.

(** [if (blobmsg_type(cur) == BLOBMSG_TYPE_STRING) add(file, blobmsg_get_string(cur));] *)
Definition acl_if_string (add : string -> stm ubusd unit) (cur : bytes) : stm ubusd unit :=
  if bool_decide (blobmsg_type cur = BLOBMSG_TYPE_STRING) then add (blobmsg_get_string cur) else mret tt.

Definition ubusd_acl_file_add (db : user_db) (file : ptr) : stm ubusd unit :=
  f ← load (T := ubusd_acl_file) file;
  let tb := acl_tb (af_blob f) in
  store file (fun f => f <| af_uid := -1 |> <| af_gid := -1 |>);;
  ok ← match tb "user" BLOBMSG_TYPE_STRING, tb "group" BLOBMSG_TYPE_STRING with
       | Some u, _ =>
           let user := blobmsg_get_string u in
           store file (fun f => f <| af_user := Some user |>);;
           match getpwnam db user with
           | Some uid => store file (fun f => f <| af_uid := uid |>)
           | None => mret tt
           end;;
           mret true
       | None, Some g =>
           let group := blobmsg_get_string g in
           store file (fun f => f <| af_group := Some group |>);;
           match getgrnam db group with
           | Some gid => store file (fun f => f <| af_gid := gid |>)
           | None => mret tt
           end;;
           mret true
       | None, None => mret false
       end;
  if negb ok then mret tt
  else
    acl_for_each (tb "access" BLOBMSG_TYPE_TABLE) (ubusd_acl_add_access file);;
    acl_for_each (tb "subscribe" BLOBMSG_TYPE_ARRAY) (acl_if_string (ubusd_acl_add_subscribe file));;
    acl_for_each (tb "publish" BLOBMSG_TYPE_ARRAY) (acl_if_string (ubusd_acl_add_publish file));;
    acl_for_each (tb "listen" BLOBMSG_TYPE_ARRAY) (acl_if_string (ubusd_acl_add_listen file));;
    acl_for_each (tb "send" BLOBMSG_TYPE_ARRAY) (acl_if_string (ubusd_acl_add_send file)).

Definition ubusd_acl_update_cb (db : user_db) (node_new node_old : option ptr) : stm ubusd unit :=
  match node_old with
  | Some file => ubusd_acl_file_free file
  | None => mret tt
  end;;
  match node_new with
  | Some file => ubusd_acl_file_add db file
  | None => mret tt
  end.

Definition ubusd_create_sequence_event_msg (id : string) : stm ubusd (option ptr) :=
  n ← gets ubusd_acl_seq;
  ubus_msg_from_blob (event_puts id (put_nest UBUS_ATTR_DATA [msg_u32 "sequence" n])) true.

Definition ubusd_acl_load_file (db : user_db) (filename : string) (json : option (list put)) : stm ubusd Z :=
  match json with
  | None => mret (-1)
  | Some puts =>
      let head := blob_render puts in
      file ← alloc (mk_acl_file filename None None 0 0 head [] 0);
      match file with
      | None => mret (-1)
      | Some file =>
          t ← gets ubusd_acl_files;
          let '(old, t') := vlist_add t filename file in
          modify (fun s => s <| ubusd_acl_files := t' |>);;
          ubusd_acl_update_cb db (Some file) old;;
          mret 0
      end
  end.

(** Is the file one [ubusd_acl_load] reads: a regular file of root's that only
    its owner may write? *)
Definition acl_file_trusted (st : option stat_info) : bool :=
  match st with
  | None => false
  | Some st =>
      if negb (st_isreg st) then false
      else if negb (st_uid st =? 0) || negb (st_gid st =? 0) then false
      else if negb (Z.land (st_mode st) bad_mode =? 0) then false
      else true
  end.

(** [vlist_flush(&ubusd_acl_files)]; the callback does not look at the list *)
Definition flush_files (db : user_db) : stm ubusd unit :=
  t ← gets ubusd_acl_files;
  let '(stale, t') := vlist_flush t in
  modify (fun s => s <| ubusd_acl_files := t' |>);;
  for_each stale (fun f => ubusd_acl_update_cb db None (Some f)).

(** [gl] is what [glob] finds, [None] when it fails. *)
Definition ubusd_acl_load (db : user_db) (gl : option (list dir_entry)) : stm ubusd unit :=
  match gl with
  | None => mret tt
  | Some entries =>
      modify (fun s => s <| ubusd_acl_files ::= vlist_update |>);;
      for_each entries (fun e =>
        if acl_file_trusted (de_stat e) then _ ← ubusd_acl_load_file db (de_path e) (de_json e); mret tt
        else mret tt);;
      flush_files db;;
      modify (fun s => s <| ubusd_acl_seq ::= fun n => u32 (n + 1) |>);;
      _ ← ubusd_send_event None "ubus.acl.sequence" (ubusd_create_sequence_event_msg "ubus.acl.sequence");
      mret tt
  end.
End AclLoad.
