(* ===== verification/Proto.v ===== *)
(** * Protocol handlers: [src/ubusd_proto.c], and the ACL object of [src/ubusd_acl.c]

    A handler gets the client, the message and its parsed attributes and
    returns a status to report, -1 (no status message) or -2 (the command has
    been queued and owns the message). *)

From stdpp Require Import base gmap strings list fin_maps.
From Stdlib Require Import ZArith Lia.
From S2P Require Import Prelude Wire Cstring Libubox Ids State MsgBuf Registry Acl Reply Event Obj.
Local Open Scope Z_scope.
Local Open Scope ubus_scope.

(** [struct blob_attr **attr] *)
Abbreviation attrs := (ubus_msg_attr -> option bytes).

(** The elements of a tree's sequence from a node on ([avl_for_element_range]
    up to the last element) *)
Fixpoint from_node {K} (p : ptr) (l : list (K * ptr)) : list (K * ptr) :=
  match l with
  | [] => []
  | e :: l' => if decide (e.2 = p) then l else from_node p l'
  end.

Section Proto.
Context `{AL : AvlLib} `{BL : BlobLib}.

Definition ubusd_send_pong (cl ub : ptr) (attr : attrs) : stm ubusd Z :=
  store ub (fun m => m <| ub_hdr ::= fun h => h <| hdr_type := UBUS_MSG_DATA |> |>);;
  ubus_msg_send cl ub;;
  mret 0.

Definition ubusd_handle_remove_object (cl ub : ptr) (attr : attrs) : stm ubusd Z :=
  match attr UBUS_ATTR_OBJID with
  | None => status UBUS_STATUS_INVALID_ARGUMENT
  | Some aid =>
      obj ← ubusd_find_object (blob_get_u32 aid);
      match obj with
      | None => status UBUS_STATUS_NOT_FOUND
      | Some obj =>
          o ← load (T := ubus_object) obj;
          if negb (bool_decide (obj_client o = Some cl)) then status UBUS_STATUS_PERMISSION_DENIED
          else
            type_put ← match obj_type o with
                       | None => mret []
                       | Some t =>
                           t ← load (T := ubus_object_type) t;
                           mret (if type_refcount t =? 1
                                 then [put_int32 UBUS_ATTR_OBJTYPE (type_id t)] else [])
                       end;
            ubus_proto_send_msg_from_blob
              (put_int32 UBUS_ATTR_OBJID (obj_id o) :: type_put) cl ub UBUS_MSG_DATA;;
            ubusd_free_object obj;;
            mret 0
      end
  end.

Definition ubusd_handle_add_object (cl ub : ptr) (attr : attrs) : stm ubusd Z :=
  obj ← ubusd_create_object cl attr;
  match obj with
  | None => status UBUS_STATUS_INVALID_ARGUMENT
  | Some obj =>
      o ← load (T := ubus_object) obj;
      type_put ← match attr UBUS_ATTR_SIGNATURE, obj_type o with
                 | Some _, Some t =>
                     t ← load (T := ubus_object_type) t;
                     mret [put_int32 UBUS_ATTR_OBJTYPE (type_id t)]
                 | _, _ => mret []
                 end;
      ubus_proto_send_msg_from_blob
        (put_int32 UBUS_ATTR_OBJID (obj_id o) :: type_put) cl ub UBUS_MSG_DATA;;
      mret 0
  end.

(** The methods of a type the client may call *)
Fixpoint visible_methods (cl : ptr) (key : string) (l : list ubus_method) : stm ubusd (list put) :=
  match l with
  | [] => mret []
  | m :: l =>
      rc ← ubusd_acl_check (Some cl) (Some key) (Some (blobmsg_name (m_data m))) UBUS_ACL_ACCESS;
      rest ← visible_methods cl key l;
      mret (if rc =? 0 then msg_blob (m_data m) :: rest else rest)
  end.

Definition ubusd_send_obj (cl ub obj : ptr) : stm ubusd unit :=
  o ← load (T := ubus_object) obj;
  match obj_type o with
  | None => mret tt
  | Some type =>
      t ← load (T := ubus_object_type) type;
      match obj_path o with
      | None => undefined
      | Some key =>
          sig ← visible_methods cl key (type_methods t);
          if bool_decide (sig <> []) || bool_decide (type_methods t = []) then
            ubus_proto_send_msg_from_blob
              [put_string UBUS_ATTR_OBJPATH key; put_int32 UBUS_ATTR_OBJID (obj_id o);
               put_int32 UBUS_ATTR_OBJTYPE (type_id t); put_nest UBUS_ATTR_SIGNATURE sig]
              cl ub UBUS_MSG_DATA
          else mret tt
      end
  end.

(** [strdup(obj->path.key)] *)
Definition dup_path (obj : ptr) : stm ubusd (option string) :=
  o ← load (T := ubus_object) obj;
  match obj_path o with
  | None => undefined
  | Some key => ok ← try_alloc; mret (if (ok : bool) then Some key else None)
  end.

Definition ubus_client_cmd_queue_add (cl msg : ptr) (obj : option ptr) : stm ubusd Z :=
  ok ← try_alloc;
  if negb ok then status UBUS_STATUS_UNKNOWN_ERROR
  else
    lookup_path ← match obj with
                  | None => mret (Some None)
                  | Some obj =>
                      key ← dup_path obj;
                      mret (match key with Some k => Some (Some k) | None => None end)
                  end;
    match lookup_path with
    | None => status UBUS_STATUS_UNKNOWN_ERROR
    | Some lookup_path =>
        store cl (fun c => c <| cl_cmd_queue ::= fun q => q ++ [mk_client_cmd msg lookup_path] |>);;
        mret (-2)
    end.

(** A resumed command is the first of its client's queue. *)
Definition cmd_set_lookup_path (cl : ptr) (key : option string) : stm ubusd unit :=
  store cl (fun c => c <| cl_cmd_queue ::= fun q =>
    match q with [] => [] | cmd :: q => cmd <| cmd_lookup_path := key |> :: q end |>).

(** One object of a full listing: [Some ret] leaves the loop. *)
Definition lookup_all_step (cl ub : ptr) (cmd : option ubus_client_cmd) (e : string * ptr)
    : stm ubusd (option Z) :=
  c ← load (T := ubus_client) cl;
  if decide (cl_tx_queue c = []) then ubusd_send_obj cl ub e.2;; mret None
  else match cmd with
       | None => ret ← ubus_client_cmd_queue_add cl ub (Some e.2); mret (Some ret)
       | Some _ =>
           key ← dup_path e.2;
           cmd_set_lookup_path cl key;;
           mret (Some (-2))
       end.

(** [while (!strncmp(objpath, obj->path.key, len))] over the sorted paths:
    was any object sent? *)
Fixpoint lookup_prefix_loop (cl ub : ptr) (objpath : string) (found : bool) (l : list (string * ptr))
    : stm ubusd bool :=
  match l with
  | [] => mret found
  | (key, obj) :: l =>
      if starts_with objpath key then
        ubusd_send_obj cl ub obj;;
        lookup_prefix_loop cl ub objpath true l
      else mret found
  end.

(** [__ubusd_handle_lookup] *)
Definition handle_lookup_cmd (cl ub : ptr) (attr : attrs) (cmd : option ubus_client_cmd) : stm ubusd Z :=
  t ← gets path;
  match attr UBUS_ATTR_OBJPATH with
  | None =>
      let start := match cmd ≫= cmd_lookup_path with
                   | Some key => match avl_find_ge t key with
                                 | None => []
                                 | Some obj => from_node obj (avl_list t)
                                 end
                   | None => avl_list t
                   end in
      r ← for_until start (lookup_all_step cl ub cmd);
      mret (default 0 r)
  | Some a =>
      let objpath := blob_string a in
      match split_last objpath with
      | None => status UBUS_STATUS_INVALID_ARGUMENT
      | Some (prefix, last) =>
          if negb (bool_decide (last = star)) then
            match avl_find t objpath with
            | None => status UBUS_STATUS_NOT_FOUND
            | Some obj => ubusd_send_obj cl ub obj;; mret 0
            end
          else
            match avl_find_ge t prefix with
            | None => status UBUS_STATUS_NOT_FOUND
            | Some obj =>
                found ← lookup_prefix_loop cl ub prefix false (from_node obj (avl_list t));
                if (found : bool) then mret 0 else status UBUS_STATUS_NOT_FOUND
            end
      end
  end.

Definition ubusd_handle_lookup (cl ub : ptr) (attr : attrs) : stm ubusd Z :=
  c ← load (T := ubus_client) cl;
  if decide (cl_tx_queue c = []) then handle_lookup_cmd cl ub attr None
  else ubus_client_cmd_queue_add cl ub None.

(** [*retmsg_data = htonl(ret); ubus_msg_send(cl, retmsg);] *)
Definition send_retmsg (cl retmsg : ptr) (ret : Z) : stm ubusd unit :=
  m ← load retmsg;
  assert (fits 8 (be32 ret) (ub_data m));;
  store retmsg (fun m => m <| ub_data ::= splice 8 (be32 ret) |>);;
  ubus_msg_send cl retmsg.

(** [cl->retmsg], with the sequence number and peer of the request *)
Definition prepare_retmsg (cl ub : ptr) : stm ubusd ptr :=
  c ← load (T := ubus_client) cl;
  u ← load (T := ubus_msg_buf) ub;
  match cl_retmsg c with
  | None => undefined
  | Some retmsg =>
      store retmsg (fun m => m <| ub_hdr ::= fun h =>
        h <| hdr_seq := hdr_seq (ub_hdr u) |> <| hdr_peer := hdr_peer (ub_hdr u) |> |>);;
      mret retmsg
  end.

Definition ubusd_cmd_lookup (cl : ptr) (cmd : ubus_client_cmd) : stm ubusd Z :=
  let ub := cmd_msg cmd in
  u ← load (T := ubus_msg_buf) ub;
  ret ← handle_lookup_cmd cl ub (ubus_parse_msg (ub_data u) (blob_raw_len (ub_data u))) (Some cmd);
  (if ret =? -2 then mret tt
   else
     retmsg ← prepare_retmsg cl ub;
     send_retmsg cl retmsg ret);;
  mret ret.

Definition invoke_puts (c : ubus_client) (obj_id : Z) (method : string) (data : option bytes) : list put :=
  [put_int32 UBUS_ATTR_OBJID obj_id; put_string UBUS_ATTR_METHOD method]
  ++ match cl_user c with Some u => [put_string UBUS_ATTR_USER u] | None => [] end
  ++ match cl_group c with Some g => [put_string UBUS_ATTR_GROUP g] | None => [] end
  ++ match data with Some d => [put_blob UBUS_ATTR_DATA (blob_data d)] | None => [] end.

Definition ubusd_forward_invoke (b : list put) (cl obj : ptr) (method : string) (ub : ptr)
    (data : option bytes) : stm ubusd unit :=
  c ← load (T := ubus_client) cl;
  o ← load (T := ubus_object) obj;
  match obj_client o with
  | None => undefined
  | Some ocl =>
      ubus_proto_send_msg_from_blob (b ++ invoke_puts c (obj_id o) method data) ocl ub UBUS_MSG_INVOKE
  end.

(** ** The ACL object *)

(** The entries [ubusd_reply_add] appends for one object *)
Fixpoint reply_add_loop (key : string) (match_len : Z) (l : list (string * ptr)) : stm ubusd (list put) :=
  match l with
  | [] => mret []
  | (akey, p) :: l =>
      acl ← load (T := ubusd_acl_obj) p;
      match acl_priv acl with
      | None => reply_add_loop key match_len l
      | Some priv =>
          let '(full_match, cur_match_len) := ubus_strmatch_len key akey in
          if cur_match_len <? match_len then mret []
          else if negb full_match && (negb (acl_partial acl) || negb (cur_match_len =? strlen akey)) then
            reply_add_loop key cur_match_len l
          else
            rest ← reply_add_loop key cur_match_len l;
            mret (msg_table None
              ([msg_string "obj" key]
               ++ match acl_user acl with Some u => [msg_string "user" u] | None => [] end
               ++ match acl_group acl with Some g => [msg_string "group" g] | None => [] end
               ++ [msg_field (blobmsg_type priv) "acl" (blobmsg_data priv)]) :: rest)
      end
  end.

Definition ubusd_reply_add (obj : ptr) : stm ubusd (list put) :=
  o ← load (T := ubus_object) obj;
  match obj_path o with
  | None => mret []
  | Some key =>
      l ← gets (fun s => avl_list (ubusd_acls s));
      reply_add_loop key 0 l
  end.

Fixpoint reply_add_all (l : list ptr) : stm ubusd (list put) :=
  match l with
  | [] => mret []
  | obj :: l => b ← ubusd_reply_add obj; rest ← reply_add_all l; mret (b ++ rest)
  end.

Definition ubusd_reply_query (cl ub : ptr) (attr : attrs) : stm ubusd Z :=
  match attr UBUS_ATTR_OBJID with
  | None => status UBUS_STATUS_INVALID_ARGUMENT
  | Some aid =>
      obj ← ubusd_find_object (blob_get_u32 aid);
      match obj with
      | None => status UBUS_STATUS_NOT_FOUND
      | Some obj =>
          o ← load (T := ubus_object) obj;
          n ← gets ubusd_acl_seq;
          c ← load (T := ubus_client) cl;
          acls ← reply_add_all (cl_objects c);
          ubus_proto_send_msg_from_blob
            [put_int32 UBUS_ATTR_OBJID (obj_id o);
             put_nest UBUS_ATTR_DATA [msg_u32 "seq" n; msg_array "acl" acls]]
            cl ub UBUS_MSG_DATA;;
          mret 0
      end
  end.

Definition ubusd_acl_recv (cl ub : ptr) (method : string) : stm ubusd Z :=
  if strcmp method "query" =? 0 then
    u ← load (T := ubus_msg_buf) ub;
    ubusd_reply_query cl ub (ubus_parse_msg (ub_data u) (blob_raw_len (ub_data u)))
  else status UBUS_STATUS_INVALID_COMMAND.

(** [obj->recv_msg(cl, ub, method, msg)] *)
Definition call_recv_msg (cb : option recv_msg_cb) (cl ub : ptr) (method : string) (msg : option bytes)
    : stm ubusd Z :=
  match cb with
  | Some ubusd_event_recv_cb => ubusd_event_recv cl method msg
  | Some ubusd_acl_recv_cb => ubusd_acl_recv cl ub method
  | Some ubusd_monitor_recv_cb => ubusd_monitor_recv cl method
  | None => undefined
  end.

(** ** Calls, notifications, responses *)

Definition ubusd_handle_invoke (cl ub : ptr) (attr : attrs) : stm ubusd Z :=
  match attr UBUS_ATTR_METHOD, attr UBUS_ATTR_OBJID with
  | Some am, Some aid =>
      obj ← ubusd_find_object (blob_get_u32 aid);
      match obj with
      | None => status UBUS_STATUS_NOT_FOUND
      | Some obj =>
          o ← load (T := ubus_object) obj;
          let method := blob_string am in
          rc ← ubusd_acl_check (Some cl) (obj_path o) (Some method) UBUS_ACL_ACCESS;
          if negb (rc =? 0) then status UBUS_STATUS_PERMISSION_DENIED
          else match obj_client o with
               | None => call_recv_msg (obj_recv_msg o) cl ub method (attr UBUS_ATTR_DATA)
               | Some _ =>
                   c ← load (T := ubus_client) cl;
                   store ub (fun m => m <| ub_hdr ::= fun h => h <| hdr_peer := cl_id c |> |>);;
                   ubusd_forward_invoke [] cl obj method ub (attr UBUS_ATTR_DATA);;
                   store ub (fun m => m <| ub_fd := -1 |>);;
                   mret (-1)
               end
      end
  | _, _ => status UBUS_STATUS_INVALID_ARGUMENT
  end.

(** The ids of the objects subscribed to one *)
Fixpoint subscriber_ids (l : list ptr) : stm ubusd (list Z) :=
  match l with
  | [] => mret []
  | s :: l =>
      sub ← load (T := ubus_subscription) s;
      o ← load (T := ubus_object) (s_subscriber sub);
      rest ← subscriber_ids l;
      mret (obj_id o :: rest)
  end.

Definition ubusd_handle_notify (cl ub : ptr) (attr : attrs) : stm ubusd Z :=
  match attr UBUS_ATTR_METHOD, attr UBUS_ATTR_OBJID with
  | Some am, Some aid =>
      let no_reply := match attr UBUS_ATTR_NO_REPLY with
                      | Some a => negb (blob_get_int8 a =? 0)
                      | None => false
                      end in
      obj ← ubusd_find_object (blob_get_u32 aid);
      match obj with
      | None => status UBUS_STATUS_NOT_FOUND
      | Some obj =>
          o ← load (T := ubus_object) obj;
          if negb (bool_decide (obj_client o = Some cl)) then status UBUS_STATUS_PERMISSION_DENIED
          else
            (if no_reply then mret tt
             else
               ids ← subscriber_ids (obj_subscribers o);
               ubus_proto_send_msg_from_blob
                 [put_int32 UBUS_ATTR_OBJID (obj_id o);
                  put_nest UBUS_ATTR_SUBSCRIBERS (put_int32 0 <$> ids);
                  put_int32 UBUS_ATTR_STATUS 0] cl ub UBUS_MSG_STATUS);;
            c ← load (T := ubus_client) cl;
            store ub (fun m => m <| ub_hdr ::= fun h => h <| hdr_peer := cl_id c |> |>);;
            for_each (obj_subscribers o) (fun s =>
              sub ← load (T := ubus_subscription) s;
              ubusd_forward_invoke (if no_reply then [put_int8 UBUS_ATTR_NO_REPLY 1] else [])
                cl (s_subscriber sub) (blob_string am) ub (attr UBUS_ATTR_DATA));;
            mret (-1)
      end
  | _, _ => status UBUS_STATUS_INVALID_ARGUMENT
  end.

Definition ubusd_get_client_by_id (id : Z) : stm ubusd (option ptr) :=
  gets (fun s => ubus_find_id (clients s) id).

Definition ubusd_handle_response (cl ub : ptr) (attr : attrs) : stm ubusd Z :=
  u ← load (T := ubus_msg_buf) ub;
  match attr UBUS_ATTR_OBJID with
  | None => mret (-1)
  | Some aid =>
      if ((hdr_type (ub_hdr u) =? UBUS_MSG_STATUS) && bool_decide (attr UBUS_ATTR_STATUS = None))
         || ((hdr_type (ub_hdr u) =? UBUS_MSG_DATA) && bool_decide (attr UBUS_ATTR_DATA = None))
      then mret (-1)
      else
        obj ← ubusd_find_object (blob_get_u32 aid);
        match obj with
        | None => mret (-1)
        | Some obj =>
            o ← load (T := ubus_object) obj;
            if negb (bool_decide (obj_client o = Some cl)) then mret (-1)
            else
              peer ← ubusd_get_client_by_id (hdr_peer (ub_hdr u));
              match peer with
              | None => mret (-1)
              | Some peer =>
                  store ub (fun m => m <| ub_hdr ::= fun h => h <| hdr_peer := blob_get_u32 aid |> |>);;
                  ubus_msg_send peer ub;;
                  mret (-1)
              end
        end
  end.

(** [a && b && !strcmp(a, b)] *)
Definition same_name (a b : option string) : bool :=
  match a, b with Some a, Some b => strcmp a b =? 0 | _, _ => false end.

Definition ubusd_handle_add_watch (cl ub : ptr) (attr : attrs) : stm ubusd Z :=
  match attr UBUS_ATTR_OBJID, attr UBUS_ATTR_TARGET with
  | Some aid, Some atarget =>
      obj ← ubusd_find_object (blob_get_u32 aid);
      match obj with
      | None => status UBUS_STATUS_NOT_FOUND
      | Some obj =>
          o ← load (T := ubus_object) obj;
          if negb (bool_decide (obj_client o = Some cl)) then status UBUS_STATUS_INVALID_ARGUMENT
          else
            target ← ubusd_find_object (blob_get_u32 atarget);
            match target with
            | None => status UBUS_STATUS_NOT_FOUND
            | Some target =>
                t ← load (T := ubus_object) target;
                match obj_client t with
                | None => status UBUS_STATUS_NOT_FOUND
                | Some tcl =>
                    if bool_decide (tcl = cl) then status UBUS_STATUS_INVALID_ARGUMENT
                    else
                      allowed ← match obj_path t with
                                | None =>
                                    c ← load (T := ubus_client) cl;
                                    tc ← load (T := ubus_client) tcl;
                                    mret (same_name (cl_user tc) (cl_user c)
                                          || same_name (cl_group tc) (cl_group c))
                                | Some key =>
                                    rc ← ubusd_acl_check (Some cl) (Some key) None UBUS_ACL_SUBSCRIBE;
                                    mret (rc =? 0)
                                end;
                      if (allowed : bool) then ubus_subscribe obj target
                      else status UBUS_STATUS_NOT_FOUND
                end
            end
      end
  | _, _ => status UBUS_STATUS_INVALID_ARGUMENT
  end.

Definition ubusd_handle_remove_watch (cl ub : ptr) (attr : attrs) : stm ubusd Z :=
  match attr UBUS_ATTR_OBJID, attr UBUS_ATTR_TARGET with
  | Some aid, Some atarget =>
      obj ← ubusd_find_object (blob_get_u32 aid);
      match obj with
      | None => status UBUS_STATUS_NOT_FOUND
      | Some obj =>
          o ← load (T := ubus_object) obj;
          if negb (bool_decide (obj_client o = Some cl)) then status UBUS_STATUS_INVALID_ARGUMENT
          else
            let id := blob_get_u32 atarget in
            r ← for_until (obj_target_list o) (fun s =>
              sub ← load (T := ubus_subscription) s;
              t ← load (T := ubus_object) (s_target sub);
              if negb (obj_id t =? id) then mret None
              else ubus_unsubscribe s;; mret (Some 0));
            match r with
            | Some ret => mret ret
            | None => status UBUS_STATUS_NOT_FOUND
            end
      end
  | _, _ => status UBUS_STATUS_INVALID_ARGUMENT
  end.

(** ** Dispatch *)

Definition handlers (type : ubus_msg_type) : option (ptr -> ptr -> attrs -> stm ubusd Z) :=
  match type with
  | UBUS_MSG_PING => Some ubusd_send_pong
  | UBUS_MSG_ADD_OBJECT => Some ubusd_handle_add_object
  | UBUS_MSG_REMOVE_OBJECT => Some ubusd_handle_remove_object
  | UBUS_MSG_LOOKUP => Some ubusd_handle_lookup
  | UBUS_MSG_INVOKE => Some ubusd_handle_invoke
  | UBUS_MSG_STATUS => Some ubusd_handle_response
  | UBUS_MSG_DATA => Some ubusd_handle_response
  | UBUS_MSG_SUBSCRIBE => Some ubusd_handle_add_watch
  | UBUS_MSG_UNSUBSCRIBE => Some ubusd_handle_remove_watch
  | UBUS_MSG_NOTIFY => Some ubusd_handle_notify
  | UBUS_MSG_HELLO | UBUS_MSG_MONITOR => None
  end.

Definition ubusd_proto_receive_message (cl ub : ptr) : stm ubusd unit :=
  retmsg ← prepare_retmsg cl ub;
  u ← load (T := ubus_msg_buf) ub;
  let type := hdr_type (ub_hdr u) in
  let cb := msg_of_code type ≫= handlers in
  when (negb (type =? UBUS_MSG_STATUS) && negb (type =? UBUS_MSG_INVOKE)) (ubus_msg_close_fd ub);;
  ret ← match cb with
        | Some cb => cb cl ub (ubus_parse_msg (ub_data u) (blob_raw_len (ub_data u)))
        | None => status UBUS_STATUS_INVALID_COMMAND
        end;
  if ret =? -2 then mret tt
  else
    ubus_msg_free ub;;
    if ret =? -1 then mret tt
    else send_retmsg cl retmsg ret.

(** ** Clients *)

Definition ubusd_proto_init_retmsg (cl : ptr) : stm ubusd Z :=
  ok ← try_alloc;
  if negb ok then mret (-1)
  else
    let head := blob_render [put_int32 UBUS_ATTR_STATUS 0] in
    retmsg ← ubus_msg_new (Some head) (blob_raw_len head) true;
    match retmsg with
    | None => mret (-1)
    | Some retmsg =>
        store cl (fun c => c <| cl_retmsg := Some retmsg |>);;
        store retmsg (fun m => m <| ub_hdr ::= fun h => h <| hdr_type := UBUS_MSG_STATUS |> |>);;
        mret 0
    end.

(** The [calloc]ed client *)
Definition client_zero : ubus_client :=
  mk_client 0 0 false None 0 0 [] None None [] [] [] 0 0 None None 0 0 (replicate 12 0).

Definition ubusd_proto_new_client (fd : Z) (peer : peer_info) : stm ubusd (option ptr) :=
  cl ← alloc client_zero;
  match cl with
  | None => mret None
  | Some cl =>
      rc ← ubusd_acl_init_client cl peer;
      if negb (rc =? 0) then free_ptr (T := ubus_client) cl;; mret None
      else
        store cl (fun c => c <| cl_sock_fd := fd |> <| cl_pending_msg_fd := -1 |>);;
        r ← alloc_id clients upd_clients cl 0;
        match r with
        | None => free_ptr (T := ubus_client) cl;; mret None
        | Some id =>
            store cl (fun c => c <| cl_id := id |>);;
            rc ← ubusd_proto_init_retmsg cl;
            if negb (rc =? 0) then
              tree_delete clients upd_clients id cl;;
              free_ptr (T := ubus_client) cl;; mret None
            else
              ok ← ubusd_send_hello cl;
              if (ok : bool) then mret (Some cl)
              else
                c ← load (T := ubus_client) cl;
                match cl_retmsg c with
                | None => undefined
                | Some retmsg =>
                    ubus_msg_free retmsg;;
                    tree_delete clients upd_clients id cl;;
                    free_ptr (T := ubus_client) cl;; mret None
                end
        end
  end.

Definition ubusd_proto_free_client (cl : ptr) : stm ubusd unit :=
  c ← load (T := ubus_client) cl;
  for_each (cl_objects c) ubusd_free_object;;
  match cl_retmsg c with
  | None => undefined
  | Some retmsg => ubus_msg_free retmsg
  end;;
  store cl (fun c => c <| cl_retmsg := None |> <| cl_extra_gid := [] |>
                       <| cl_group := None |> <| cl_user := None |>);;
  tree_delete clients upd_clients (cl_id c) cl.
End Proto.
