(* ===== verification/Main.v ===== *)
(** * The event loop's callbacks: [src/ubusd_main.c]

    [client_cb] first writes what is queued, resumes queued lookups when the
    queue has drained, then reads: a 12-byte header (message header and first
    blob attribute), then the rest of the blob, then dispatches, as long as the
    socket has data. *)

From stdpp Require Import base gmap strings list fin_maps.
From Stdlib Require Import ZArith Lia.
From S2P Require Import Prelude Wire Cstring Libubox Ids State MsgBuf Registry Acl Reply Event Obj Proto.
Local Open Scope Z_scope.
Local Open Scope ubus_scope.

Definition sizeof_hdrbuf : Z := 12.
Definition SOL_SOCKET : Z := 1.
Definition SCM_RIGHTS : Z := 1.
(** [CMSG_LEN(sizeof(int))] *)
Definition CMSG_LEN_INT : Z := 20.

(** The first [SCM_RIGHTS] message that carries a descriptor *)
Fixpoint ubusd_recv_fd (cmsgs : list cmsghdr) : Z :=
  match cmsgs with
  | [] => -1
  | cmsg :: rest =>
      if negb (cmsg_level cmsg =? SOL_SOCKET) || negb (cmsg_type cmsg =? SCM_RIGHTS) then ubusd_recv_fd rest
      else if cmsg_len cmsg <? CMSG_LEN_INT then ubusd_recv_fd rest
      else cmsg_fd cmsg
  end.

Section Main.
Context `{AL : AvlLib} `{BL : BlobLib}.

(** [ubus_client_cmd_free]: the first command of the queue *)
Definition ubus_client_cmd_free (cl : ptr) (cmd : ubus_client_cmd) : stm ubusd unit :=
  store cl (fun c => c <| cl_cmd_queue ::= tail |>);;
  ubus_msg_free (cmd_msg cmd).

Definition ubus_client_cmd_queue_process (cl : ptr) : stm ubusd unit :=
  c ← load (T := ubus_client) cl;
  _ ← for_until (cl_cmd_queue c) (fun cmd =>
        ret ← ubusd_cmd_lookup cl cmd;
        if ret =? -2 then mret (Some tt)
        else ubus_client_cmd_free cl cmd;; mret None);
  mret tt.

Definition handle_client_disconnect (cl : ptr) : stm ubusd unit :=
  c ← load (T := ubus_client) cl;
  for_each (cl_cmd_queue c) (ubus_client_cmd_free cl);;
  ubusd_monitor_disconnect cl;;
  ubusd_proto_free_client cl;;
  c ← load (T := ubus_client) cl;
  for_each (cl_tx_queue c) (ubus_msg_list_free cl);;
  when (0 <=? cl_pending_msg_fd c) (sys_close (cl_pending_msg_fd c));;
  match cl_pending_msg c with
  | Some ub => ubus_msg_free ub
  | None => mret tt
  end;;
  sys_close (cl_sock_fd c);;
  free_ptr (T := ubus_client) cl.

(** ** Writing *)

Inductive tx_outcome := TxDone | TxBlocked | TxError.

(** [retry_writev:] for one queued message *)
Fixpoint tx_retry (fuel : nat) (cl ubl : ptr) : stm ubusd tx_outcome :=
  match fuel with
  | O => mret TxBlocked
  | S fuel =>
      c ← load (T := ubus_client) cl;
      ret ← ubus_msg_writev (cl_sock_fd c) ubl (cl_txq_ofs c);
      match ret with
      | SendErr EINTR => tx_retry fuel cl ubl
      | SendErr EAGAIN | SendErr EACCES => mret TxBlocked
      | SendErr _ => mret TxError
      | Sent written =>
          u ← load (T := ubus_msg_buf) ubl;
          let ofs := cl_txq_ofs c + written in
          store cl (fun c => c <| cl_txq_ofs := ofs |> <| cl_txq_len ::= fun n => ssize_t (n - written) |>);;
          if ofs <? ub_len u + sizeof_msghdr then tx_retry fuel cl ubl
          else
            store cl (fun c => c <| cl_txq_ofs := 0 |>);;
            ubus_msg_list_free cl ubl;;
            mret TxDone
      end
  end.

(** The loop over the queue: [true] is [goto disconnect] *)
Definition client_tx (cl : ptr) : stm ubusd bool :=
  c ← load (T := ubus_client) cl;
  r ← for_until (cl_tx_queue c) (fun ubl =>
        fuel ← gets (fun s => length (os_send (os s)));
        o ← tx_retry (S fuel) cl ubl;
        mret (match o with TxDone => None | TxBlocked => Some false | TxError => Some true end));
  mret (default false r).

(** ** Reading *)

Inductive rx_outcome := RxMore | RxOut | RxDisconnect.

(** The header phase: continue to the body with [RxMore].  ([hdrbuf] is kept as
    received; the code converts it in place, and it is written anew before it is
    read again.) *)
Definition client_rx_header (cl : ptr) : stm ubusd rx_outcome :=
  c ← load (T := ubus_client) cl;
  if negb (cl_sock_eof c) && (cl_pending_msg_offset c <? sizeof_hdrbuf) then
    let offset := cl_pending_msg_offset c in
    r ← sys_recvmsg (cl_sock_fd c) (sizeof_hdrbuf - offset);
    match r with
    | None => mret RxOut
    | Some (bs, cmsgs) =>
        let fd := if cl_pending_msg_fd c <? 0 then ubusd_recv_fd cmsgs else -1 in
        let offset' := offset + Z.of_nat (length bs) in
        let hdrbuf := splice (Z.to_nat offset) bs (cl_hdrbuf c) in
        assert (fits offset bs (cl_hdrbuf c));;
        store cl (fun c => c <| cl_pending_msg_fd ::= fun old => if 0 <=? fd then fd else old |>
                             <| cl_hdrbuf := hdrbuf |> <| cl_pending_msg_offset := offset' |>);;
        if offset' <? sizeof_hdrbuf then mret RxOut
        else
          let data := drop 8 hdrbuf in
          if blob_raw_len data <? sizeof_blob_attr then mret RxDisconnect
          else if UBUS_MAX_MSGLEN <? blob_pad_len data then mret RxDisconnect
          else
            m ← ubus_msg_new None (blob_raw_len data) false;
            match m with
            | None => mret RxDisconnect
            | Some m =>
                u ← load m;
                assert (fits 0 data (ub_data u));;
                store m (fun u => u <| ub_hdr := decode_hdr hdrbuf |> <| ub_data ::= splice 0 data |>);;
                store cl (fun c => c <| cl_pending_msg := Some m |>);;
                mret RxMore
            end
    end
  else mret RxMore.

(** The body phase: [RxMore] after a message has been accepted and handled *)
Definition client_rx_body (cl : ptr) : stm ubusd rx_outcome :=
  c ← load (T := ubus_client) cl;
  match cl_pending_msg c with
  | None => mret RxOut
  | Some ub =>
      u ← load (T := ubus_msg_buf) ub;
      let offset := cl_pending_msg_offset c - sizeof_msghdr in
      let len := blob_raw_len (ub_data u) - offset in
      r ← (if 0 <? len then
             r ← sys_recvmsg (cl_sock_fd c) len;
             mret (match r with Some (bs, _) => Some bs | None => None end)
           else mret (Some []));
      match r with
      | None => mret RxOut
      | Some bs =>
          let n := Z.of_nat (length bs) in
          if (0 <? len) && (n =? 0) then mret RxOut
          else
            assert (fits offset bs (ub_data u));;
            store ub (fun u => u <| ub_data ::= splice (Z.to_nat offset) bs |>);;
            if n <? len then
              store cl (fun c => c <| cl_pending_msg_offset ::= Z.add n |>);;
              mret RxOut
            else
              store ub (fun u => u <| ub_fd := cl_pending_msg_fd c |>);;
              store cl (fun c => c <| cl_pending_msg_fd := -1 |> <| cl_pending_msg_offset := 0 |>
                                   <| cl_pending_msg := None |>);;
              ubusd_monitor_message cl ub false;;
              ubusd_proto_receive_message cl ub;;
              mret RxMore
      end
  end.

(** [retry:]; every round but the last takes a [recvmsg] or [read] result or
    ends a message that had been received before, so [fuel] bounds the rounds *)
Fixpoint client_rx (fuel : nat) (cl : ptr) : stm ubusd rx_outcome :=
  h ← client_rx_header cl;
  match h with
  | RxOut | RxDisconnect => mret h
  | RxMore =>
      b ← client_rx_body cl;
      match b, fuel with
      | RxMore, S fuel => client_rx fuel cl
      | _, _ => mret b
      end
  end.

Definition client_cb (cl : ptr) (ev_write : bool) : stm ubusd unit :=
  failed ← client_tx cl;
  if (failed : bool) then handle_client_disconnect cl
  else
    c ← load (T := ubus_client) cl;
    when (bool_decide (cl_tx_queue c = []) && ev_write)
      (ubus_client_cmd_queue_process cl;;
       c ← load (T := ubus_client) cl;
       when (bool_decide (cl_tx_queue c = [])) (store cl (fun c => c <| cl_sock_poll := Some false |>)));;
    fuel ← gets (fun s => length (os_recv (os s)));
    r ← client_rx (S fuel) cl;
    match r with
    | RxDisconnect => handle_client_disconnect cl
    | RxMore | RxOut =>
        c ← load (T := ubus_client) cl;
        if negb (cl_sock_eof c) || negb (bool_decide (cl_tx_queue c = [])) then mret tt
        else handle_client_disconnect cl
    end.

(** ** Accepting connections *)

(** An [accept] result: a connection, an error to skip ([ECONNABORTED],
    [EINTR]), or an error that ends the loop. *)
Inductive accept_result := Accepted (fd : Z) (peer : peer_info) | AcceptRetry | AcceptStop.

Definition get_next_connection (r : accept_result) : stm ubusd bool :=
  match r with
  | AcceptStop => mret false
  | AcceptRetry => mret true
  | Accepted client_fd peer =>
      sys_accept client_fd;;
      cl ← ubusd_proto_new_client client_fd peer;
      match cl with
      | Some cl => store cl (fun c => c <| cl_sock_poll := Some false |>)
      | None => sys_close client_fd
      end;;
      mret true
  end.

(** [do { next = get_next_connection(fd); } while (next);] on the coming
    [accept] results; [accept] fails with [EAGAIN] when there are none left *)
Fixpoint server_cb (accepts : list accept_result) : stm ubusd unit :=
  match accepts with
  | [] => mret tt
  | r :: rest =>
      next ← get_next_connection r;
      if (next : bool) then server_cb rest else mret tt
  end.

(** ** Start-up *)

(** The constructors [ubusd_proto_init] and [ubusd_obj_init] on the zeroed globals *)
Definition ubusd_acl_init : stm ubusd unit :=
  modify (upd_acls (fun _ => ubus_init_string_tree true ptr));;
  acl_obj ← ubusd_create_object_internal None UBUS_SYSTEM_OBJECT_ACL;
  match acl_obj with
  | Some obj => store obj (fun o => o <| obj_recv_msg := Some ubusd_acl_recv_cb |>)
  | None => mret tt
  end.

Definition ubusd_monitor_init : stm ubusd unit :=
  monitor_obj ← ubusd_create_object_internal None UBUS_SYSTEM_OBJECT_MONITOR;
  match monitor_obj with
  | Some obj => store obj (fun o => o <| obj_recv_msg := Some ubusd_monitor_recv_cb |>)
  | None => mret tt
  end.

Definition ubusd_proto_init : stm ubusd unit :=
  modify (upd_clients (fun _ => ubus_init_id_tree ptr)).

Definition ubusd_obj_init : stm ubusd unit :=
  modify (upd_objects (fun _ => ubus_init_id_tree ptr));;
  modify (upd_obj_types (fun _ => ubus_init_id_tree ptr));;
  modify (upd_path (fun _ => ubus_init_string_tree false ptr));;
  ubusd_event_init;;
  ubusd_acl_init;;
  ubusd_monitor_init.

(** The globals before any constructor runs *)
Definition ubusd_globals (o : os_state) : ubusd :=
  mk_ubusd ∅ ∅ ∅ ∅ ∅ ∅ ∅ ∅ 1 (ubus_init_id_tree ptr) (ubus_init_id_tree ptr)
    (ubus_init_string_tree false ptr) (ubus_init_id_tree ptr) (ubus_init_string_tree true ptr)
    0 1 0 [] (ubus_init_string_tree true ptr) (vlist_init ptr) 0 o.

Definition ubusd_init : stm ubusd unit := ubusd_proto_init;; ubusd_obj_init.
End Main.
