(* ===== verification/AclSpec.v ===== *)
(** * What the access check decides

    [ubusd_acl_check] scans the sorted list and leaves it early; the theorem of
    this file says that it nevertheless answers as if every entry had been
    looked at. *)

From stdpp Require Import base gmap strings list fin_maps sets.
From Stdlib Require Import ZArith Lia.
From S2P Require Import Prelude Wire Cstring Libubox LibuboxModel Ids State MsgBuf Frame SendSpec Wf WfOps Acl.
Local Open Scope ubus_scope.

(** ** The reference *)

(** The entry is about this client: its user, its group or one of its
    supplementary groups. *)
Definition cred_applies (c : ubus_client) (acl : ubusd_acl_obj) : Prop :=
  (acl_uid acl <> -1)%Z /\ cl_uid c = acl_uid acl \/
  (acl_gid acl <> -1)%Z /\ (cl_gid c = acl_gid acl \/ acl_gid acl ∈ cl_extra_gid c).

(** The entry is about this path: literally, or it ended in a star and is a
    prefix. *)
Definition path_applies (obj : string) (acl : ubusd_acl_obj) : Prop :=
  acl_key acl = obj \/ acl_partial acl = true /\ starts_with (acl_key acl) obj = true.

Section Reference.
Context `{BL : BlobLib}.

(** The entry grants this kind of access. *)
Definition acl_allows (acl : ubusd_acl_obj) (method : option string) (type : ubusd_acl_type) : bool :=
  match type with
  | UBUS_ACL_PUBLISH => acl_publish acl
  | UBUS_ACL_SUBSCRIBE => acl_subscribe acl
  | UBUS_ACL_LISTEN => acl_listen acl
  | UBUS_ACL_SEND => acl_send acl
  | UBUS_ACL_ACCESS =>
      match acl_methods acl, method with
      | Some ms, Some m => acl_method_listed m ms
      | _, _ => false
      end
  end.
End Reference.

Lemma match_cred_spec c acl : ubusd_acl_match_cred c acl = 0%Z <-> cred_applies c acl.
Proof.
  unfold ubusd_acl_match_cred, cred_applies.
  assert (existsb (fun g => (g =? acl_gid acl)%Z) (cl_extra_gid c) = true <-> acl_gid acl ∈ cl_extra_gid c) as Hg.
  { rewrite existsb_exists. setoid_rewrite Z.eqb_eq. rewrite list_elem_of_In. naive_solver. }
  destruct (negb (acl_uid acl =? -1)%Z && (cl_uid c =? acl_uid acl)%Z) eqn:E1.
  - rewrite andb_true_iff, negb_true_iff, Z.eqb_neq, Z.eqb_eq in E1. tauto.
  - rewrite andb_false_iff, negb_false_iff, Z.eqb_neq, Z.eqb_eq in E1.
    destruct (negb (acl_gid acl =? -1)%Z && _) eqn:E2.
    + rewrite andb_true_iff, orb_true_iff, negb_true_iff, Z.eqb_neq, Z.eqb_eq, Hg in E2. tauto.
    + split; [done|]. intros [H|[H1 H2]]; [lia|]. apply andb_false_iff in E2.
      rewrite negb_false_iff, Z.eqb_eq, orb_false_iff, Z.eqb_neq in E2. destruct E2 as [E2|[E2 E3]]; [lia|].
      destruct H2 as [H2|H2%Hg]; congruence.
Qed.

Section AclSpec.
Context `{AL : AvlLib} `{BL : BlobLib}.
Implicit Types (s : ubusd) (W : work).

Definition entry_partial s (p : ptr) : bool :=
  match h_acls s !! p with Some acl => acl_partial acl | None => false end.

(** An entry that is about the client and grants the access *)
Definition entry_grants s (c : ubus_client) method type (p : ptr) : bool :=
  match h_acls s !! p with
  | Some acl => (ubusd_acl_match_cred c acl =? 0)%Z && acl_allows acl method type
  | None => false
  end.

Lemma acl_grants_pure acl method type s :
  (type = UBUS_ACL_ACCESS -> is_Some method) ->
  acl_grants acl method type s = Some (acl_allows acl method type, s).
Proof.
  intros Hm. destruct type; simpl; try done. destruct (acl_methods acl); [|done].
  destruct method; [done|]. by destruct Hm.
Qed.

(** The loop grants access when one of the scanned entries does. *)
Lemma acl_check_loop_scan c obj method type m l s :
  (type = UBUS_ACL_ACCESS -> is_Some method) -> (forall k p, (k, p) ∈ l -> is_Some (h_acls s !! p)) ->
  acl_check_loop c obj method type m l s =
    Some (if existsb (fun e => entry_grants s c method type e.2) (scan (entry_partial s) obj m l)
          then 0%Z else (-1)%Z, s).
Proof.
  intros Hm. revert m. induction l as [|[key p] l IH]; intros m Hl; [done|].
  destruct (Hl key p) as [acl Hp]; [by left|].
  assert (forall m, acl_check_loop c obj method type m l s = Some (if existsb (fun e => entry_grants s c method type e.2)
    (scan (entry_partial s) obj m l) then 0%Z else (-1)%Z, s)) as IH'.
  { intros m'. apply IH. intros. eapply Hl. by right. }
  simpl. unfold mbind at 1, stm_bind at 1, load at 1. simpl. rewrite Hp. unfold entry_partial at 1. rewrite Hp.
  destruct (ubus_strmatch_len obj key) as [f n]. case_match; [done|]. case_match; [apply IH'|].
  simpl. unfold entry_grants at 1. simpl. rewrite Hp.
  destruct (ubusd_acl_match_cred c acl =? 0)%Z eqn:Ec; simpl; [|apply IH'].
  unfold mbind, stm_bind. rewrite acl_grants_pure by done. destruct (acl_allows acl method type); [done|apply IH'].
Qed.

Context `{!AvlLaws AL}.

Lemma acls_sorted s : key_sorted (avl_list (ubusd_acls s)).
Proof. apply (avl_list_sorted _ _ _ _ _ _). Qed.

Lemma acl_scan_spec W s c obj method type :
  wf W s ->
  existsb (fun e => entry_grants s c method type e.2) (scan (entry_partial s) obj 0 (avl_list (ubusd_acls s))) = true <->
  exists p acl, h_acls s !! p = Some acl /\ path_applies obj acl /\ cred_applies c acl /\
    acl_allows acl method type = true.
Proof.
  intros Hw. rewrite (scan_filter _ _ _ (acls_sorted s)), existsb_exists.
  assert (forall key p acl, h_acls s !! p = Some acl -> acl_key acl = key ->
    pattern_matches (entry_partial s) obj (key, p) = true <-> path_applies obj acl) as Hpm.
  { intros key p acl Hp <-. unfold pattern_matches, path_applies, entry_partial. simpl. rewrite Hp.
    rewrite orb_true_iff, andb_true_iff, bool_decide_eq_true. tauto. }
  split.
  - intros ([key p] & Hin & Hg). apply list_elem_of_In, list_elem_of_filter in Hin as [Hpat Hin].
    apply (tree_in _ _ (wf_acls _ _ Hw)), fmap_Some_2 in Hin as (acl & Hp & Ek).
    unfold entry_grants in Hg. simpl in Hg. rewrite Hp in Hg. apply andb_true_iff in Hg as [Hc%Z.eqb_eq Ha].
    exists p, acl. split; [done|]. split; [by eapply Hpm|]. split; [by apply match_cred_spec|done].
  - intros (p & acl & Hp & Hpath & Hc & Ha). exists (acl_key acl, p). split.
    + apply list_elem_of_In, list_elem_of_filter. split; [by apply (Hpm _ _ acl)|].
      apply (tree_in _ _ (wf_acls _ _ Hw)). by apply fmap_Some_1.
    + unfold entry_grants. simpl. rewrite Hp, Ha, andb_true_r. by apply Z.eqb_eq, match_cred_spec.
Qed.

(** The state is not changed, and the answer is 0 or -1. *)
Lemma acl_check_run W s cl obj method type :
  wf W s -> (type = UBUS_ACL_ACCESS -> is_Some method) ->
  (forall p, cl = Some p -> is_Some (h_clients s !! p)) ->
  exists r, ubusd_acl_check cl obj method type s = Some (r, s).
Proof.
  intros Hw Hm Hcl. unfold ubusd_acl_check. destruct cl as [cl|]; [|by eexists].
  destruct (Hcl cl eq_refl) as [c Hc]. unfold mbind at 1, stm_bind at 1, load. simpl. rewrite Hc.
  destruct obj as [obj|]; [|by eexists]. case_match; [by eexists|].
  unfold mbind, stm_bind, gets. rewrite acl_check_loop_scan; [by eexists|done|].
  intros k p Hin. apply (tree_in _ _ (wf_acls _ _ Hw)), fmap_Some_2 in Hin as (acl & Hp & _). eauto.
Qed.

Lemma wp_acl_check W s cl obj method type (Q : Z -> ubusd -> Prop) :
  wf W s -> (type = UBUS_ACL_ACCESS -> is_Some method) ->
  (forall p, cl = Some p -> is_Some (h_clients s !! p)) ->
  (forall r, Q r s) -> wp (ubusd_acl_check cl obj method type) Q s.
Proof.
  intros Hw Hm Hcl HQ. destruct (acl_check_run W s cl obj method type Hw Hm Hcl) as [r E].
  by eapply wp_eq.
Qed.

Lemma acl_check_spec W s cl c obj method type :
  wf W s -> h_clients s !! cl = Some c -> (cl_uid c <> 0)%Z ->
  (type = UBUS_ACL_ACCESS -> is_Some method) ->
  exists r, ubusd_acl_check (Some cl) (Some obj) method type s = Some (r, s) /\
    (r = 0 \/ r = -1)%Z /\
    (r = 0%Z <-> exists p acl, h_acls s !! p = Some acl /\ path_applies obj acl /\ cred_applies c acl /\
       acl_allows acl method type = true).
Proof.
  intros Hw Hc Hu Hm. unfold ubusd_acl_check, mbind, stm_bind, load. simpl. rewrite Hc.
  destruct (Z.eqb_spec (cl_uid c) 0); [done|]. unfold gets.
  rewrite acl_check_loop_scan; [|done|].
  2:{ intros k p Hin. apply (tree_in _ _ (wf_acls _ _ Hw)), fmap_Some_2 in Hin as (acl & Hp & _). eauto. }
  pose proof (acl_scan_spec W s c obj method type Hw) as Hspec. eexists. split; [done|].
  destruct (existsb _ _); (split; [auto|]).
  - split; [intros _; by apply Hspec|done].
  - split; [done|]. intros H. by apply Hspec in H.
Qed.
End AclSpec.
