(* ===== verification/Bus.v ===== *)
(** * The bus, abstractly

    What the daemon promises its clients, without buffers, trees, lists and
    reference counts: who is connected, which objects are published, who
    subscribes to what, who listens to which events, who monitors, and what the
    access control list grants.  [bus_step who] is what a client may bring
    about; the specifications of the code are stated against it, and
    [Daemon.v] shows that every event refines it. *)

From stdpp Require Import base gmap strings list fin_maps sets relations.
From Stdlib Require Import ZArith Lia.
From S2P Require Import Prelude Wire Cstring Libubox Ids State MsgBuf Frame SendSpec Wf Acl AclSpec.
Local Open Scope ubus_scope.

(** ** State *)

(** Who a client is *)
Record cred := mk_cred {
  u_uid : Z;
  u_gid : Z;
  u_extra : list Z;
  u_user : option string;
  u_group : option string;
}.

(** An object of a client *)
Record pub_object := mk_pub {
  po_owner : ptr;
  po_id : Z;
  po_path : option string;
}.

Record bus := mk_bus {
  bus_users : gmap ptr cred;
  bus_objects : gmap ptr pub_object;
  bus_subs : gmap ptr ubus_subscription;
  bus_sources : gmap ptr event_source;
  bus_monitors : list ptr;
  bus_rules : list (string * ubusd_acl_obj);
}.
#[export] Instance eta_bus : Eta bus := fun r =>
  mk_bus (bus_users r) (bus_objects r) (bus_subs r) (bus_sources r) (bus_monitors r) (bus_rules r).

Definition cred_of (c : ubus_client) : cred :=
  mk_cred (cl_uid c) (cl_gid c) (cl_extra_gid c) (cl_user c) (cl_group c).

Definition pub_of (o : ubus_object) : option pub_object :=
  (fun cl => mk_pub cl (obj_id o) (obj_path o)) <$> obj_client o.

(** The user a connecting peer is, if the daemon can tell *)
Definition peer_extra (peer : peer_info) : list Z :=
  match peer_groups peer with
  | Some gids => if (UBUS_CLIENT_MAX_EXTRA_GID <? Z.of_nat (length gids))%Z then [] else gids
  | None => []
  end.

Definition peer_user (peer : peer_info) : option cred :=
  match peer_cred peer, peer_pw_name peer, peer_gr_name peer with
  | Some (uid, gid), Some pw_name, Some gr_name =>
      Some (mk_cred uid gid (peer_extra peer) (Some pw_name) (Some gr_name))
  | _, _, _ => None
  end.

(** ** What is allowed *)

(** The rule is about this user. *)
Definition rule_for (u : cred) (acl : ubusd_acl_obj) : Prop :=
  (acl_uid acl <> -1)%Z /\ u_uid u = acl_uid acl \/
  (acl_gid acl <> -1)%Z /\ (u_gid u = acl_gid acl \/ acl_gid acl ∈ u_extra u).

(** The rule's pattern covers this name. *)
Definition rule_covers (name key : string) (acl : ubusd_acl_obj) : Prop :=
  key = name \/ acl_partial acl = true /\ starts_with key name = true.

Section Allowed.
Context `{BL : BlobLib}.

Definition allowed (b : bus) (who : ptr) (name : string) (method : option string) (type : ubusd_acl_type) : Prop :=
  exists u, bus_users b !! who = Some u /\
    (u_uid u = 0%Z \/ exists key acl, (key, acl) ∈ bus_rules b /\ rule_covers name key acl /\ rule_for u acl /\
       acl_allows acl method type = true).

(** An object without a path may be watched by clients of the same user or
    group only. *)
Definition may_watch (b : bus) (who : ptr) (t : pub_object) : Prop :=
  match po_path t with
  | Some key => allowed b who key None UBUS_ACL_SUBSCRIBE
  | None => exists u v, bus_users b !! who = Some u /\ bus_users b !! po_owner t = Some v /\
      (is_Some (u_user u) /\ u_user u = u_user v \/ is_Some (u_group u) /\ u_group u = u_group v)
  end.

(** ** Steps *)

Definition touches (p : ptr) (sub : ubus_subscription) : Prop := s_target sub = p \/ s_subscriber sub = p.
#[export] Instance touches_dec p sub : Decision (touches p sub).
Proof. unfold touches. apply _. Defined.

(** The object goes, with its subscriptions and event sources. *)
Definition forget (p : ptr) (b : bus) : bus :=
  b <| bus_objects ::= delete p |>
    <| bus_subs ::= filter (fun e => ~ touches p e.2) |>
    <| bus_sources ::= filter (fun e => ev_obj e.2 <> p) |>.

(** What the client [who] may bring about *)
Inductive bus_step (who : ptr) (b : bus) : bus -> Prop :=
  | step_publish p id path :
      bus_objects b !! p = None -> is_Some (bus_users b !! who) -> (UBUS_SYSTEM_OBJECT_MAX <= id)%Z ->
      (forall q o, bus_objects b !! q = Some o -> po_id o <> id) ->
      (forall key, path = Some key -> allowed b who key None UBUS_ACL_PUBLISH /\
         forall q o, bus_objects b !! q = Some o -> po_path o <> Some key) ->
      bus_step who b (b <| bus_objects ::= insert p (mk_pub who id path) |>)
  | step_withdraw p o :
      bus_objects b !! p = Some o -> po_owner o = who -> bus_step who b (forget p b)
  | step_subscribe x p o q t :
      bus_subs b !! x = None -> bus_objects b !! p = Some o -> po_owner o = who ->
      bus_objects b !! q = Some t -> po_owner t <> who -> may_watch b who t ->
      bus_step who b (b <| bus_subs ::= insert x (mk_subscription p q) |>)
  | step_unsubscribe x sub o :
      bus_subs b !! x = Some sub -> bus_objects b !! s_subscriber sub = Some o -> po_owner o = who ->
      bus_step who b (b <| bus_subs ::= delete x |>)
  | step_listen x p o key partial :
      bus_sources b !! x = None -> bus_objects b !! p = Some o -> po_owner o = who ->
      allowed b who key None UBUS_ACL_LISTEN ->
      bus_step who b (b <| bus_sources ::= insert x (mk_event_source p key partial) |>)
  | step_monitor u :
      bus_users b !! who = Some u -> u_uid u = 0%Z -> u_gid u = 0%Z ->
      bus_step who b (b <| bus_monitors ::= fun l => l ++ [who] |>)
  | step_unmonitor i :
      bus_monitors b !! i = Some who -> bus_step who b (b <| bus_monitors ::= delete i |>)
  | step_leave :
      (forall p o, bus_objects b !! p = Some o -> po_owner o <> who) -> who ∉ bus_monitors b ->
      bus_step who b (b <| bus_users ::= delete who |>).

Definition bus_steps (who : ptr) : bus -> bus -> Prop := rtc (bus_step who).
End Allowed.

(** ** The bus of the daemon *)

Section BusOf.
Context `{AL : AvlLib} `{BL : BlobLib}.
Implicit Types (s : ubusd).

Definition rules_of s : list (string * ubusd_acl_obj) :=
  omap (fun e => (fun acl => (e.1, acl)) <$> h_acls s !! e.2) (avl_list (ubusd_acls s)).

Definition bus_of s : bus :=
  mk_bus (cred_of <$> h_clients s) (omap pub_of (h_objects s)) (h_subs s) (h_events s)
    (mon_cl <$> monitors s) (rules_of s).

Definition steps (who : ptr) s s' : Prop := bus_steps who (bus_of s) (bus_of s').

#[export] Instance steps_refl who : Reflexive (steps who).
Proof. intros s. apply rtc_refl. Qed.
#[export] Instance steps_trans who : Transitive (steps who).
Proof. intros s1 s2 s3. apply rtc_trans. Qed.

Lemma steps_same who s s' : bus_of s' = bus_of s -> steps who s s'.
Proof. unfold steps. intros ->. apply rtc_refl. Qed.

Lemma steps_one who s s' : bus_step who (bus_of s) (bus_of s') -> steps who s s'.
Proof. apply rtc_once. Qed.

Lemma steps_to who s s' b : bus_step who (bus_of s) b -> bus_of s' = b -> steps who s s'.
Proof. intros H <-. by apply rtc_once. Qed.

Lemma cred_of_core c c' : cl_core c' = cl_core c -> cred_of c' = cred_of c.
Proof. intros E. exact (f_equal cred_of E). Qed.

Lemma pub_of_core o o' : obj_core o' = obj_core o -> pub_of o' = pub_of o.
Proof. intros E. exact (f_equal pub_of E). Qed.

Lemma bus_of_reg s : bus_of (reg s) = bus_of s.
Proof.
  unfold bus_of, rules_of, reg. simpl. f_equal.
  - rewrite <- map_fmap_compose. by apply map_fmap_ext.
  - apply map_eq. intros p. rewrite !lookup_omap, lookup_fmap. by destruct (h_objects s !! p).
  - rewrite <- list_fmap_compose. by apply list_fmap_ext.
Qed.

(** The bus is part of the registry. *)
Lemma bus_reg s s' : reg s = reg s' -> bus_of s' = bus_of s.
Proof. intros E. by rewrite <- (bus_of_reg s), <- (bus_of_reg s'), E. Qed.

(** ** Updates the bus does not see *)

Lemma bus_upd_object s p o o' :
  h_objects s !! p = Some o -> pub_of o' = pub_of o -> bus_of (s <| h_objects ::= insert p o' |>) = bus_of s.
Proof.
  intros Ho E. unfold bus_of. simpl. f_equal. apply map_eq. intros q. rewrite !lookup_omap.
  destruct (decide (p = q)) as [<-|Hne]; [by rewrite lookup_insert_eq, Ho|by rewrite lookup_insert_ne].
Qed.

Lemma bus_upd_bare s p o o' :
  h_objects s !! p = Some o -> obj_client o = None -> obj_client o' = None ->
  bus_of (s <| h_objects ::= insert p o' |>) = bus_of s.
Proof. intros Ho E E'. apply (bus_upd_object s p o); [done|]. unfold pub_of. by rewrite E, E'. Qed.

Lemma bus_new_object s p o :
  h_objects s !! p = None -> obj_client o = None -> bus_of (s <| h_objects ::= insert p o |>) = bus_of s.
Proof.
  intros Ho E. unfold bus_of. simpl. f_equal. apply map_eq. intros q. rewrite !lookup_omap.
  destruct (decide (p = q)) as [<-|Hne]; [|by rewrite lookup_insert_ne].
  rewrite lookup_insert_eq, Ho. simpl. unfold pub_of. by rewrite E.
Qed.

Lemma bus_upd_client s cl c c' :
  h_clients s !! cl = Some c -> cred_of c' = cred_of c -> bus_of (s <| h_clients ::= insert cl c' |>) = bus_of s.
Proof.
  intros Hc E. unfold bus_of. simpl. f_equal. rewrite fmap_insert, E. apply insert_id. by rewrite lookup_fmap, Hc.
Qed.

Lemma omap_alter_same {A B} (f : A -> option B) (g : A -> A) (m : gmap ptr A) p :
  (forall x, f (g x) = f x) -> omap f (alter g p m) = omap f m.
Proof.
  intros E. apply map_eq. intros q. rewrite !lookup_omap. destruct (decide (p = q)) as [<-|Hne].
  - rewrite lookup_alter_eq. destruct (m !! p); [apply E|done].
  - by rewrite lookup_alter_ne.
Qed.

Lemma fmap_alter_same {A B} (f : A -> B) (g : A -> A) (m : gmap ptr A) p :
  (forall x, f (g x) = f x) -> f <$> alter g p m = f <$> m.
Proof.
  intros E. apply map_eq. intros q. rewrite !lookup_fmap. destruct (decide (p = q)) as [<-|Hne].
  - rewrite lookup_alter_eq. destruct (m !! p); simpl; [by rewrite E|done].
  - by rewrite lookup_alter_ne.
Qed.

Lemma bus_object s p o cl :
  h_objects s !! p = Some o -> obj_client o = Some cl ->
  bus_objects (bus_of s) !! p = Some (mk_pub cl (obj_id o) (obj_path o)).
Proof. intros Ho Ec. simpl. rewrite lookup_omap, Ho. simpl. unfold pub_of. by rewrite Ec. Qed.

Lemma bus_object_inv s p b :
  bus_objects (bus_of s) !! p = Some b ->
  exists o, h_objects s !! p = Some o /\ obj_client o = Some (po_owner b) /\ obj_id o = po_id b /\ obj_path o = po_path b.
Proof.
  simpl. rewrite lookup_omap. destruct (h_objects s !! p) as [o|]; [|done]. simpl. unfold pub_of.
  destruct (obj_client o) as [cl|] eqn:E; [|done]. intros [= <-]. eauto.
Qed.

Lemma bus_user s cl c : h_clients s !! cl = Some c -> bus_users (bus_of s) !! cl = Some (cred_of c).
Proof. intros Hc. simpl. by rewrite lookup_fmap, Hc. Qed.

(** ** Forgetting an object *)

(** A subscription that goes with the object *)
Lemma forget_unsub p b x sub :
  bus_subs b !! x = Some sub -> touches p sub -> forget p (b <| bus_subs ::= delete x |>) = forget p b.
Proof.
  intros Hx Ht. unfold forget. simpl. f_equal. apply map_filter_delete_not. intros y Hy. simplify_eq. simpl. tauto.
Qed.

(** An event source that goes with the object *)
Lemma forget_unlisten p b x ev :
  bus_sources b !! x = Some ev -> ev_obj ev = p -> forget p (b <| bus_sources ::= delete x |>) = forget p b.
Proof.
  intros Hx Ht. unfold forget. simpl. f_equal. apply map_filter_delete_not. intros y Hy. simplify_eq. simpl. tauto.
Qed.

(** An object that nothing refers to *)
Lemma forget_unlinked W s p o :
  wf W s -> h_objects s !! p = Some o -> obj_subscribers o = [] -> obj_target_list o = [] -> obj_events o = [] ->
  forget p (bus_of s) = bus_of s <| bus_objects ::= delete p |>.
Proof.
  intros Hw Ho Es Et Ee. unfold forget. simpl. f_equal; apply map_filter_id.
  - intros x sub Hx [E|E].
    + assert (x ∈ obj_subscribers o) as H; [|rewrite Es in H; by apply not_elem_of_nil in H].
      eapply (lo_in _ _ (wf_subscribers _ _ Hw) p); [by apply fmap_Some_1|]. by rewrite lookup_fmap, Hx, <- E.
    + assert (x ∈ obj_target_list o) as H; [|rewrite Et in H; by apply not_elem_of_nil in H].
      eapply (lo_in _ _ (wf_targets _ _ Hw) p); [by apply fmap_Some_1|]. by rewrite lookup_fmap, Hx, <- E.
  - intros x ev Hx E. assert (x ∈ obj_events o) as H; [|rewrite Ee in H; by apply not_elem_of_nil in H].
    eapply (lo_in _ _ (wf_events _ _ Hw) p); [by apply fmap_Some_1|]. rewrite lookup_fmap. simpl in Hx. by rewrite Hx, <- E.
Qed.

(** An object without a client is not on the bus. *)
Lemma forget_bare W s p o :
  wf W s -> h_objects s !! p = Some o -> obj_client o = None -> forget p (bus_of s) = bus_of s.
Proof.
  intros Hw Ho Ec. destruct (wf_sub_active _ _ Hw) as (H1 & H2 & H3).
  assert (forall q, q = p -> is_Some (omap obj_client (h_objects s) !! q) -> False) as Hno.
  { intros q -> [cl Hcl]. rewrite lookup_omap, Ho in Hcl. simpl in Hcl. by rewrite Ec in Hcl. }
  unfold forget. simpl. unfold bus_of. f_equal.
  - apply delete_id. rewrite lookup_omap, Ho. simpl. unfold pub_of. by rewrite Ec.
  - apply map_filter_id. intros x sub Hx [E|E]; apply (Hno _ E); [eapply H1|eapply H2]; by apply fmap_Some_1.
  - apply map_filter_id. intros x ev Hx E. apply (Hno _ E). eapply H3. by apply fmap_Some_1.
Qed.

(** ** The access check is sound *)

Lemma check_loop_sound c name method type m l s s' :
  acl_check_loop c name method type m l s = Some (0%Z, s') ->
  s' = s /\ exists key p acl, (key, p) ∈ l /\ h_acls s !! p = Some acl /\ rule_covers name key acl /\
    rule_for (cred_of c) acl /\ acl_allows acl method type = true.
Proof.
  revert m. induction l as [|[key p] l IH]; intros m; [done|]. simpl. unfold mbind at 1, stm_bind at 1, load at 1. simpl.
  destruct (h_acls s !! p) as [acl|] eqn:Hp; [|done].
  assert (forall m, acl_check_loop c name method type m l s = Some (0%Z, s') ->
    s' = s /\ exists key0 q acl, (key0, q) ∈ (key, p) :: l /\ h_acls s !! q = Some acl /\ rule_covers name key0 acl /\
    rule_for (cred_of c) acl /\ acl_allows acl method type = true) as IH'.
  { intros m' H. destruct (IH m' H) as (-> & k & q & a & Hin & Hrest). split; [done|]. exists k, q, a. by split; [right|]. }
  destruct (ubus_strmatch_len name key) as [f n] eqn:El. destruct (n <? m)%Z; [done|].
  destruct (negb f && _) eqn:Em; [apply IH'|].
  destruct (Z.eqb_spec (ubusd_acl_match_cred c acl) 0) as [Ec|]; simpl; [|apply IH'].
  unfold mbind, stm_bind. destruct (acl_grants acl method type s) as [[ok s1]|] eqn:Eg; [|done].
  assert (s1 = s /\ ok = acl_allows acl method type) as [-> ->].
  { revert Eg. unfold acl_grants, acl_allows. destruct type; [by intros [= <- <-]..| |by intros [= <- <-]|by intros [= <- <-]].
    destruct (acl_methods acl); [|by intros [= <- <-]]. destruct method; [by intros [= <- <-]|done]. }
  destruct (acl_allows acl method type) eqn:Ea; [|apply IH']. intros [= <-]. split; [done|].
  exists key, p, acl. split; [by left|]. split; [done|]. split; [|split; [exact (proj1 (match_cred_spec c acl) Ec)|done]].
  unfold rule_covers. destruct f.
  { left. symmetry. apply strmatch_len_eq. by rewrite El. }
  right. destruct (acl_partial acl); [|done]. split; [done|]. apply match_len_prefix. unfold match_len. rewrite El.
  simpl in *. by destruct (Z.eqb_spec n (strlen key)).
Qed.

Lemma check_sound s cl name method type s' :
  ubusd_acl_check (Some cl) (Some name) method type s = Some (0%Z, s') ->
  s' = s /\ allowed (bus_of s) cl name method type.
Proof.
  unfold ubusd_acl_check. unfold mbind at 1, stm_bind at 1, load. simpl.
  destruct (h_clients s !! cl) as [c|] eqn:Hc; [|done].
  assert (bus_users (bus_of s) !! cl = Some (cred_of c)) as Hu by (simpl; by rewrite lookup_fmap, Hc).
  destruct (Z.eqb_spec (cl_uid c) 0) as [E0|].
  { intros [= <-]. split; [done|]. exists (cred_of c). split; [done|by left]. }
  unfold mbind, stm_bind, gets. intros H. destruct (check_loop_sound _ _ _ _ _ _ _ _ H) as (-> & key & p & acl & Hin & Hp & Hr).
  split; [done|]. exists (cred_of c). split; [done|]. right. exists key, acl. split; [|done]. simpl. unfold rules_of.
  apply list_elem_of_omap. exists (key, p). split; [done|]. simpl. by rewrite Hp.
Qed.

Context `{!AvlLaws AL}.

Lemma wp_acl_allowed W s cl name method type (Q : Z -> ubusd -> Prop) :
  wf W s -> (type = UBUS_ACL_ACCESS -> is_Some method) -> is_Some (h_clients s !! cl) ->
  (forall r, (r = 0%Z -> allowed (bus_of s) cl name method type) -> Q r s) ->
  wp (ubusd_acl_check (Some cl) (Some name) method type) Q s.
Proof.
  intros Hw Hm Hcl HQ. destruct (acl_check_run W s (Some cl) (Some name) method type Hw Hm) as [r E]; [by intros p [= <-]|].
  eapply wp_eq; [exact E|]. apply HQ. intros ->. by eapply check_sound.
Qed.

(** ** Ids and paths are unique *)

Lemma wf_same_id W s p q o o' :
  wf W s -> h_objects s !! p = Some o -> h_objects s !! q = Some o' -> obj_id o = obj_id o' -> p = q.
Proof.
  intros Hw Ho Ho' E. apply (avl_elem_unique (objects s) (obj_id o)); apply (tree_in _ _ (wf_objects _ _ Hw));
    rewrite lookup_fmap; [by rewrite Ho|by rewrite Ho', E].
Qed.

Lemma wf_same_path W s p q o o' key :
  wf W s -> h_objects s !! p = Some o -> h_objects s !! q = Some o' ->
  obj_path o = Some key -> obj_path o' = Some key -> p = q.
Proof.
  intros Hw Ho Ho' E E'. apply (avl_elem_unique (path s) key); apply (tree_in _ _ (wf_path _ _ Hw));
    by eapply omap_Some_1.
Qed.

(** An object gets its client. *)
Lemma step_give W W' s p o cl s' :
  wf W s -> wf W' s' -> h_objects s !! p = Some o -> obj_client o = None -> is_Some (h_clients s !! cl) ->
  h_objects s' = <[p := o <| obj_client := Some cl |>]> (h_objects s) ->
  bus_of s' = bus_of s <| bus_objects := omap pub_of (h_objects s') |> ->
  (UBUS_SYSTEM_OBJECT_MAX <= obj_id o)%Z ->
  (forall key, obj_path o = Some key -> allowed (bus_of s) cl key None UBUS_ACL_PUBLISH) ->
  bus_step cl (bus_of s) (bus_of s').
Proof.
  intros Hw Hw' Ho Ec Hcl Eh Eb Hid Hall. set (o' := o <| obj_client := Some cl |>) in *.
  assert (bus_objects (bus_of s) !! p = None) as Hnone by (simpl; rewrite lookup_omap, Ho; simpl; unfold pub_of; by rewrite Ec).
  assert (h_objects s' !! p = Some o') as Ho' by (rewrite Eh; apply lookup_insert_eq).
  assert (forall q b, bus_objects (bus_of s) !! q = Some b -> q <> p /\ exists x, h_objects s' !! q = Some x /\
    obj_id x = po_id b /\ obj_path x = po_path b) as Hother.
  { intros q b Hq. assert (q <> p) as Hne by congruence. split; [done|].
    destruct (bus_object_inv _ _ _ Hq) as (x & Hx & _ & E1 & E2). exists x. rewrite Eh, lookup_insert_ne by done. done. }
  rewrite Eb. assert (omap pub_of (h_objects s') = <[p := mk_pub cl (obj_id o) (obj_path o)]> (omap pub_of (h_objects s))) as ->.
  { rewrite Eh. apply map_eq. intros q. rewrite lookup_omap. destruct (decide (p = q)) as [<-|Hne].
    - by rewrite !lookup_insert_eq.
    - by rewrite !lookup_insert_ne, lookup_omap by done. }
  apply (step_publish cl (bus_of s) p); try done.
  - destruct Hcl as [c Hc]. rewrite (bus_user _ _ _ Hc). eauto.
  - intros q b Hq E. destruct (Hother q b Hq) as (Hne & x & Hx & E1 & _). apply Hne.
    eapply (wf_same_id W' s'); [done..|]. simpl. congruence.
  - intros key Ek. split; [by apply Hall|]. intros q b Hq E. destruct (Hother q b Hq) as (Hne & x & Hx & _ & E2). apply Hne.
    eapply (wf_same_path W' s'); [done..| |exact Ek]. congruence.
Qed.
End BusOf.
