(* ===== verification/ReplySpec.v ===== *)
(** * Replies and notifications are safe

    Specifications of [Reply.v]: the messages built there are sent and dropped
    without touching the registry; [ubus_unsubscribe] changes it by exactly one
    subscription. *)

From stdpp Require Import base gmap strings list fin_maps sets.
From Stdlib Require Import ZArith Lia.
From S2P Require Import Prelude Wire Cstring Libubox Ids State MsgBuf Frame SendSpec Wf WfOps Acl AclSpec Bus Reply.
Local Open Scope ubus_scope.

(** The client fields that creating and removing objects leaves alone *)
Definition cl_frame (c : ubus_client) : ubus_client := cl_core c <| cl_objects := [] |>.

#[global] Arguments cl_frame : simpl never.

Section Inv.
Context `{AL : AvlLib} `{BL : BlobLib}.
Implicit Types (s : ubusd) (W : work).

(** Memory is well managed and the registry consistent. *)
Record inv W ext s : Prop := {
  inv_minv : minv ext s;
  inv_wf : wf W s;
}.

(** Clients stay, with their reply message, queue of commands and input. *)
Definition keeps s s' : Prop :=
  forall cl c, h_clients s !! cl = Some c ->
  exists c', h_clients s' !! cl = Some c' /\ cl_frame c' = cl_frame c.

#[export] Instance keeps_refl : Reflexive keeps.
Proof. intros s cl c H. eauto. Qed.

#[export] Instance keeps_trans : Transitive keeps.
Proof.
  intros s1 s2 s3 H1 H2 cl c Hc. destruct (H1 cl c Hc) as (c2 & Hc2 & E2).
  destruct (H2 cl c2 Hc2) as (c3 & Hc3 & E3). exists c3. split; [done|congruence].
Qed.

Lemma keeps_reg s s' : reg s = reg s' -> keeps s s'.
Proof.
  intros Hr cl c Hc. destruct (reg_client _ _ _ _ Hr Hc) as (c' & Hc' & E). exists c'.
  split; [done|]. unfold cl_frame. by rewrite E.
Qed.

Lemma keeps_same s s' : h_clients s' = h_clients s -> keeps s s'.
Proof. intros E cl c Hc. exists c. by rewrite E. Qed.

Lemma keeps_live s s' cl : keeps s s' -> is_Some (h_clients s !! cl) -> is_Some (h_clients s' !! cl).
Proof. intros H [c Hc]. destruct (H cl c Hc) as (c' & Hc' & _). eauto. Qed.

(** A quiet step: messages may have been sent, nothing else happened. *)
Record quiet ext s s' : Prop := {
  quiet_minv : minv ext s';
  quiet_io : io_rel [] s s';
}.

Lemma quiet_refl ext s : minv ext s -> quiet ext s s.
Proof. by split. Qed.

Lemma quiet_trans ext ext' s1 s2 s3 : quiet ext s1 s2 -> quiet ext' s2 s3 -> quiet ext' s1 s3.
Proof. intros [_ H1] [? H2]. split; [done|by etrans]. Qed.

Lemma quiet_os ext s o : minv ext s -> quiet ext s (s <| os := o |>).
Proof. intros H. split; [by apply minv_os|apply io_os]. Qed.

Lemma quiet_wf W ext s s' : quiet ext s s' -> wf W s -> wf W s'.
Proof. intros [_ H]. apply wf_of_reg, H. Qed.

Lemma quiet_inv W ext ext' s s' : quiet ext s s' -> inv W ext' s -> inv W ext s'.
Proof. intros H [_ Hw]. split; [apply H|by eapply quiet_wf]. Qed.

Lemma quiet_keeps ext s s' : quiet ext s s' -> keeps s s'.
Proof. intros [_ H]. apply keeps_reg, H. Qed.

Lemma quiet_bus ext s s' : quiet ext s s' -> bus_of s' = bus_of s.
Proof. intros [_ H]. apply bus_reg, H. Qed.

Lemma quiet_object ext s s' p o :
  quiet ext s s' -> h_objects s !! p = Some o ->
  exists o', h_objects s' !! p = Some o' /\ obj_core o' = obj_core o.
Proof. intros [_ H]. apply reg_object, H. Qed.

Lemma quiet_client ext s s' cl c :
  quiet ext s s' -> h_clients s !! cl = Some c ->
  exists c', h_clients s' !! cl = Some c' /\ cl_core c' = cl_core c.
Proof. intros [_ H]. apply reg_client, H. Qed.

Lemma quiet_msg ext s s' m u : quiet ext s s' -> h_msgs s !! m = Some u -> h_msgs s' !! m = Some u.
Proof. intros [_ H]. apply H. set_solver. Qed.

Lemma quiet_owners ext s s' m u :
  quiet ext s s' -> h_msgs s !! m = Some u -> owners (h_clients s') m = owners (h_clients s) m.
Proof. intros [_ H] Hu. apply H; [set_solver|eauto]. Qed.
End Inv.

Section ReplySpec.
Context `{AL : AvlLib} `{BL : BlobLib} `{!BlobLaws BL}.
Implicit Types (s : ubusd) (W : work).

(** A fresh message is sent and dropped. *)
Lemma send_fresh ext cl ub u s0 s :
  minv (ub :: ext) s -> io_rel [ub] s0 s -> h_msgs s0 !! ub = None -> mon_live s0 ->
  is_Some (h_clients s !! cl) -> h_msgs s !! ub = Some u -> owners (h_clients s) ub = 0 ->
  wp (ubus_msg_send cl ub;; ubus_msg_free ub) (fun _ => quiet ext s0) s.
Proof.
  intros Hm Hio Hfresh Hl [c Hc] Hu Ho. apply wp_bind.
  eapply wp_mono; [|eapply (msg_send_spec (ub :: ext)); [exact Hm| |exact Hc|by split; [|right]]].
  2:{ eapply mon_live_reg; [apply Hio|done]. }
  intros [] s1 [Hm1 Hio1 _ _]. eapply wp_mono; [|by apply msg_free_spec].
  intros [] s2 (Hm2 & Hio2 & _). split; [done|]. eapply io_rel_drop; [exact Hfresh|].
  transitivity s; [done|]. transitivity s1; done.
Qed.

(** The first store to a fresh message *)
Lemma fresh_store ext ub u u' s0 s :
  minv (ub :: ext) s -> io_rel [ub] s0 s -> h_msgs s !! ub = Some u ->
  msg_like u u' -> ub_refcount u' = ub_refcount u ->
  minv (ub :: ext) (s <| h_msgs ::= insert ub u' |>) /\ io_rel [ub] s0 (s <| h_msgs ::= insert ub u' |>).
Proof.
  intros Hm Hio Hu Hl Hr. split; [by eapply minv_upd_msg|]. etrans; [exact Hio|apply io_upd_msg].
Qed.

Lemma from_blob_spec ext b shared s :
  minv ext s ->
  wp (ubus_msg_from_blob b shared) (fun r s' =>
    io_rel [] s s' /\ h_clients s' = h_clients s /\
    match r with
    | None => minv ext s'
    | Some m =>
        minv (m :: ext) s' /\ h_msgs s !! m = None /\
        h_msgs s' !! m = Some (new_msg (Some (blob_render b)) (blob_raw_len (blob_render b)) shared) /\
        owners (h_clients s') m = 0
    end) s.
Proof. intros H. apply msg_new_spec; [apply render_new_ok|done]. Qed.

Lemma send_msg_from_blob_spec ext b cl ub type s :
  minv ext s -> mon_live s -> is_Some (h_clients s !! cl) -> is_Some (h_msgs s !! ub) ->
  wp (ubus_proto_send_msg_from_blob b cl ub type) (fun _ => quiet ext s) s.
Proof.
  intros Hinv Hl Hc [u Hu]. unfold ubus_proto_send_msg_from_blob, ubus_reply_from_blob.
  apply wp_bind. eapply wp_load; [done|]. apply wp_bind, wp_bind.
  eapply wp_mono; [|by apply from_blob_spec]. intros [n|] s1 (Hio & Hcl & H).
  2:{ apply wp_ret. unfold when. case_match; [|by apply wp_ret].
      apply wp_close. intros o. split; [by apply minv_os|]. etrans; [exact Hio|apply io_os]. }
  destruct H as (Hm & Hfresh & Hnew & Hown).
  assert (h_msgs s1 !! ub = Some u) as Hu1 by (eapply io_msgs; [exact Hio|set_solver|done]).
  apply wp_bind. eapply wp_load; [done|]. apply wp_bind. eapply wp_store; [done|]. apply wp_ret.
  assert (io_rel [n] s s1) as Hio1 by (eapply io_rel_weaken; [|exact Hio]; set_solver).
  apply wp_bind. eapply wp_store; [apply lookup_insert_eq|].
  set (s2 := set_heap (insert n _) s1). set (s3 := set_heap (insert n _) s2).
  destruct (fresh_store _ _ _ (new_msg (Some (blob_render b)) (blob_raw_len (blob_render b)) true
    <| ub_hdr := mk_msghdr 0 UBUS_MSG_DATA (hdr_seq (ub_hdr u)) (hdr_peer (ub_hdr u)) |>) s s1 Hm Hio1 Hnew) as [Hm2 Hio2];
    [by split|done|].
  eapply (send_fresh ext cl n); [..|exact Hfresh|exact Hl| | |].
  - eapply (minv_upd_msg _ s2); [apply lookup_insert_eq|done|by split|exact Hm2].
  - etrans; [exact Hio2|apply io_upd_msg].
  - simpl. by rewrite Hcl.
  - apply lookup_insert_eq.
  - done.
Qed.

Lemma send_hello_spec ext cl s :
  minv ext s -> mon_live s -> is_Some (h_clients s !! cl) ->
  wp (ubusd_send_hello cl) (fun ok s' => quiet ext s s' /\ (ok = false -> h_clients s' = h_clients s)) s.
Proof.
  intros Hinv Hl [c Hc]. unfold ubusd_send_hello. apply wp_bind.
  eapply wp_mono; [|by apply from_blob_spec]. intros [n|] s1 (Hio & Hcl & H); [|by apply wp_ret].
  destruct H as (Hm & Hfresh & Hnew & Hown).
  apply wp_bind. eapply wp_load; [simpl; by rewrite Hcl|]. apply wp_bind. eapply wp_store; [done|].
  assert (io_rel [n] s s1) as Hio1 by (eapply io_rel_weaken; [|exact Hio]; set_solver).
  set (s2 := set_heap (insert n _) s1).
  assert (wp (ubus_msg_send cl n;; ubus_msg_free n) (fun _ => quiet ext s) s2) as Hw.
  { destruct (fresh_store _ _ _ (new_msg (Some (blob_render [])) (blob_raw_len (blob_render [])) true
      <| ub_hdr := mk_msghdr 0 UBUS_MSG_HELLO 0 (cl_id c) |>) s s1 Hm Hio1 Hnew) as [Hm2 Hio2]; [by split|done|].
    eapply (send_fresh ext cl n); [exact Hm2|exact Hio2|exact Hfresh|exact Hl| |apply lookup_insert_eq|done].
    simpl. rewrite Hcl. eauto. }
  apply wp_seq. eapply wp_mono; [|exact Hw]. intros [] s3 H3. by apply wp_ret.
Qed.

(** A message to the client of an object that is linked from elsewhere *)
Lemma notify_client ext (p cl ub : ptr) u o b seq type s0 s :
  io_rel [] s0 s -> h_clients s = h_clients s0 -> h_objects s !! p = Some o ->
  minv (ub :: ext) s -> h_msgs s0 !! ub = None -> h_msgs s !! ub = Some u ->
  owners (h_clients s) ub = 0 -> mon_live s0 -> is_Some (h_clients s0 !! cl) ->
  wp (store p (fun o => o <| obj_invoke_seq := seq |>);;
      ubus_msg_init ub type seq b;;
      msg_send_to (Some cl) ub;;
      ubus_msg_free ub) (fun _ => quiet ext s0) s.
Proof.
  intros Hio Hcl Ho Hm Hfresh Hu Hown Hl Hc. apply wp_bind. eapply wp_store; [done|].
  apply wp_bind. eapply wp_store; [done|]. set (s1 := set_heap (insert p _) s).
  assert (minv (ub :: ext) s1) as Hm1 by by eapply minv_upd_object.
  assert (io_rel [ub] s0 s1) as Hio1.
  { etrans; [eapply io_rel_weaken; [|exact Hio]; set_solver|].
    split; [symmetry; by eapply reg_upd_object|done|done]. }
  destruct (fresh_store _ _ _ (u <| ub_hdr := mk_msghdr 0 type seq b |>) s0 s1 Hm1 Hio1 Hu) as [Hm2 Hio2]; [by split|done|].
  eapply (send_fresh ext cl ub); [exact Hm2|exact Hio2|exact Hfresh|exact Hl| |apply lookup_insert_eq|done].
  simpl. by rewrite Hcl.
Qed.

Lemma notify_subscription_spec ext p o cl s :
  minv ext s -> mon_live s -> h_objects s !! p = Some o -> obj_client o = Some cl ->
  is_Some (h_clients s !! cl) ->
  wp (ubus_notify_subscription p) (fun _ => quiet ext s) s.
Proof.
  intros Hinv Hl Ho Hcl Hc. unfold ubus_notify_subscription. apply wp_bind. eapply wp_load; [done|].
  apply wp_bind. eapply wp_mono; [|by apply from_blob_spec]. intros [ub|] s1 (Hio & Ecl & H); [|by apply wp_ret].
  destruct H as (Hm & Hfresh & Hnew & Hown).
  destruct (reg_object _ _ _ _ (io_reg _ _ _ Hio) Ho) as (o1 & Ho1 & _).
  rewrite Hcl. by eapply notify_client.
Qed.

Context `{!AvlLaws AL}.

(** The registry after a subscription has gone *)
Definition unsub (x : ptr) (sub : ubus_subscription) (s : ubusd) : ubusd :=
  s <| h_objects ::= alter (fun o => o <| obj_subscribers ::= list_del x |>) (s_target sub) |>
    <| h_objects ::= alter (fun o => o <| obj_target_list ::= list_del x |>) (s_subscriber sub) |>
    <| h_subs ::= delete x |>.

Lemma alter_Some {A} (f : A -> A) (h : gmap ptr A) p x : h !! p = Some x -> alter f p h = <[p:=f x]> h.
Proof.
  intros H. apply map_eq. intros q. destruct (decide (p = q)) as [<-|Hne].
  - by rewrite lookup_alter_eq, lookup_insert_eq, H.
  - by rewrite lookup_alter_ne, lookup_insert_ne.
Qed.

(** Both ends of a subscription are live objects of live clients. *)
Lemma sub_ends W s x sub :
  wf W s -> h_subs s !! x = Some sub ->
  exists t o ct co, h_objects s !! s_target sub = Some t /\ h_objects s !! s_subscriber sub = Some o /\
    obj_client t = Some ct /\ obj_client o = Some co /\
    is_Some (h_clients s !! ct) /\ is_Some (h_clients s !! co).
Proof.
  intros H Hx. destruct (wf_sub_active _ _ H) as (H1 & H2 & _).
  destruct (H1 x (s_target sub)) as [ct (t & Ht & Hct)%omap_Some_2]; [by rewrite lookup_fmap, Hx|].
  destruct (H2 x (s_subscriber sub)) as [co (o & Ho & Hco)%omap_Some_2]; [by rewrite lookup_fmap, Hx|].
  exists t, o, ct, co. repeat split; try done; [by eapply (wf_client_live W s _ t)|by eapply (wf_client_live W s _ o)].
Qed.

Lemma unsubscribe_spec W ext x sub s :
  inv W ext s -> h_subs s !! x = Some sub ->
  wp (ubus_unsubscribe x) (fun _ s' => inv W ext s' /\ keeps s s' /\ reg s' = reg (unsub x sub s)) s.
Proof.
  intros [Hm Hw] Hx. destruct (sub_ends _ _ _ _ Hw Hx) as (t & o & ct & co & Ht & Ho & Hct & _ & Hlive & _).
  unfold ubus_unsubscribe. apply wp_bind. eapply wp_load; [done|].
  apply wp_bind. eapply wp_store; [done|].
  set (t1 := t <| obj_subscribers ::= list_del x |>).
  assert (exists o1, <[s_target sub := t1]> (h_objects s) !! s_subscriber sub = Some o1) as [o1 Ho1].
  { apply lookup_insert_is_Some'. eauto. }
  apply wp_bind. eapply wp_store; [exact Ho1|]. apply wp_bind. eapply wp_free; [exact Hx|].
  set (s3 := set_heap (delete x) _).
  assert (s3 = unsub x sub s) as E3.
  { unfold s3, unsub. simpl. rewrite (alter_Some _ _ _ _ Ht). by rewrite (alter_Some _ _ _ _ Ho1). }
  assert (wf W s3) as Hw3 by by eapply wf_unsubscribe.
  assert (minv ext s3) as Hm3 by (unfold s3; solve_minv).
  assert (exists t3, h_objects s3 !! s_target sub = Some t3 /\ obj_client t3 = Some ct) as (t3 & Ht3 & Ect3).
  { simpl. destruct (decide (s_target sub = s_subscriber sub)) as [E|Hne].
    - rewrite E, lookup_insert_eq in *. simplify_eq. eexists. split; [done|]. done.
    - rewrite lookup_insert_ne, lookup_insert_eq by done. eexists. split; [done|]. done. }
  apply wp_bind. eapply wp_load; [exact Ht3|].
  assert (inv W ext s3 /\ keeps s s3 /\ reg s3 = reg (unsub x sub s)) as Hpost.
  { split; [done|]. split; [by apply keeps_same|by rewrite E3]. }
  case_decide; [|by apply wp_ret].
  eapply wp_mono; [|eapply (notify_subscription_spec ext); [exact Hm3|by eapply wf_mon|exact Ht3|done|done]].
  intros [] s4 Hq. split; [by eapply quiet_inv|]. split; [etrans; [apply Hpost|by eapply quiet_keeps]|].
  rewrite <- E3. symmetry. apply Hq.
Qed.

Lemma fmap_alter_core (f g : ubus_object -> ubus_object) (h : gmap ptr ubus_object) p :
  (forall o, g (f o) = f (g o)) -> g <$> alter f p h = alter f p (g <$> h).
Proof.
  intros E. apply map_eq. intros q. rewrite lookup_fmap. destruct (decide (p = q)) as [<-|Hne].
  - rewrite !lookup_alter_eq, lookup_fmap. destruct (h !! p); simpl; [by rewrite E|done].
  - by rewrite !lookup_alter_ne, lookup_fmap by done.
Qed.

Lemma unsub_reg x sub s s' : reg s = reg s' -> reg (unsub x sub s) = reg (unsub x sub s').
Proof.
  intros H. assert (forall s, reg (unsub x sub s) = unsub x sub (reg s)) as E.
  { intros s0. unfold reg, unsub. simpl. f_equal. by rewrite !fmap_alter_core. }
  rewrite (E s), (E s'), H. reflexivity.
Qed.

Lemma notify_unsubscribe_spec W ext x sub s :
  inv W ext s -> h_subs s !! x = Some sub ->
  wp (ubus_notify_unsubscribe x) (fun _ s' => inv W ext s' /\ keeps s s' /\ reg s' = reg (unsub x sub s)) s.
Proof.
  intros Hi Hx. destruct Hi as [Hm Hw].
  destruct (sub_ends _ _ _ _ Hw Hx) as (t & o & ct & co & Ht & Ho & _ & Hco & _ & Hlive).
  unfold ubus_notify_unsubscribe. apply wp_bind. eapply wp_load; [done|]. apply wp_bind. eapply wp_load; [done|].
  apply wp_bind. eapply wp_load; [done|]. apply wp_bind. eapply wp_mono; [|by apply from_blob_spec].
  intros r s1 (Hio & Ecl & H). apply wp_bind.
  assert (wp (match r with
    | Some ub =>
        store (s_subscriber sub) (fun o0 => o0 <| obj_invoke_seq := u16 (obj_invoke_seq o + 1) |>);;
        ubus_msg_init ub UBUS_MSG_UNSUBSCRIBE (u16 (obj_invoke_seq o + 1)) 0;;
        msg_send_to (obj_client o) ub;; ubus_msg_free ub
    | None => mret tt
    end) (fun _ => quiet ext s) s1) as Hq.
  { destruct r as [ub|]; [|by apply wp_ret]. destruct H as (Hm1 & Hfresh & Hnew & Hown).
    destruct (reg_object _ _ _ _ (io_reg _ _ _ Hio) Ho) as (o1 & Ho1 & _).
    rewrite Hco. eapply notify_client; try done. by eapply wf_mon. }
  eapply wp_mono; [|exact Hq]. intros [] s2 H2. pose proof (f_equal h_subs (io_reg _ _ _ (quiet_io _ _ _ H2))) as Es. simpl in Es.
  eapply wp_mono; [|eapply (unsubscribe_spec W ext x sub s2); [by eapply quiet_inv|by rewrite <- Es]].
  intros [] s3 (Hi3 & Hk3 & Hr3). split; [done|]. split; [etrans; [by eapply quiet_keeps|done]|].
  rewrite Hr3. apply unsub_reg. symmetry. apply H2.
Qed.

(** ** What one subscription less means for the bus and for the objects *)

Lemma bus_unsub x sub s s' :
  reg s' = reg (unsub x sub s) -> bus_of s' = bus_of s <| bus_subs ::= delete x |>.
Proof.
  intros Hr. rewrite (bus_reg (unsub x sub s)) by done. unfold bus_of, unsub. simpl. f_equal.
  by rewrite !omap_alter_same.
Qed.

Lemma unsub_object x sub s s' p o :
  reg s' = reg (unsub x sub s) -> h_objects s !! p = Some o ->
  exists o', h_objects s' !! p = Some o' /\ obj_id o' = obj_id o /\ obj_path o' = obj_path o /\
    obj_client o' = obj_client o /\ obj_type o' = obj_type o /\ obj_recv_msg o' = obj_recv_msg o /\
    obj_target_list o' = (if decide (p = s_subscriber sub) then list_del x (obj_target_list o) else obj_target_list o) /\
    obj_subscribers o' = (if decide (p = s_target sub) then list_del x (obj_subscribers o) else obj_subscribers o).
Proof.
  intros Hr Hp.
  assert (exists o1, h_objects (unsub x sub s) !! p = Some o1 /\
    o1 = (if decide (p = s_subscriber sub) then (fun o => o <| obj_target_list ::= list_del x |>) else id)
           ((if decide (p = s_target sub) then (fun o => o <| obj_subscribers ::= list_del x |>) else id) o))
    as (o1 & Ho1 & E1).
  { simpl. destruct (decide (p = s_subscriber sub)) as [Hs|Hs], (decide (p = s_target sub)) as [Ht|Ht].
    - rewrite <- Hs, <- Ht, !lookup_alter_eq, Hp. simpl. eauto.
    - rewrite <- Hs, lookup_alter_eq, lookup_alter_ne, Hp by congruence. simpl. eauto.
    - rewrite <- Ht. rewrite lookup_alter_ne, lookup_alter_eq, Hp by congruence. simpl. eauto.
    - rewrite !lookup_alter_ne, Hp by congruence. simpl. eauto. }
  destruct (reg_object _ _ _ _ (eq_sym Hr) Ho1) as (o' & Ho' & E). exists o'. split; [done|].
  pose proof (f_equal obj_id E) as E2. pose proof (f_equal obj_path E) as E3. pose proof (f_equal obj_client E) as E4.
  pose proof (f_equal obj_type E) as E5. pose proof (f_equal obj_target_list E) as E6.
  pose proof (f_equal obj_subscribers E) as E7. pose proof (f_equal obj_recv_msg E) as E8.
  simpl in E2, E3, E4, E5, E6, E7, E8. rewrite E2, E3, E4, E5, E6, E7, E8, E1.
  by destruct (decide (p = s_subscriber sub)), (decide (p = s_target sub)).
Qed.
End ReplySpec.
