(* ===== verification/RegistrySpec.v ===== *)
(** * Object types and bare objects keep the registry consistent *)

From stdpp Require Import base gmap strings list fin_maps sets.
From Stdlib Require Import ZArith Lia.
From S2P Require Import Prelude Wire Cstring Libubox Ids State MsgBuf Frame SendSpec Wf WfOps Registry Reply.
From S2P Require Import Acl AclSpec Bus ReplySpec.
Local Open Scope ubus_scope.

Section RegistrySpec.
Context `{AL : AvlLib} `{BL : BlobLib} `{!AvlLaws AL}.
Implicit Types (s : ubusd) (W : work).

Lemma wp_alloc_id get set node val (Q : option Z -> ubusd -> Prop) s :
  (forall s, set (fun _ => get s) s = s) -> (forall s o, get (s <| os := o |>) = get s) ->
  (forall o, Q None (s <| os := o |>)) ->
  (forall o id t', (val = 0 /\ UBUS_SYSTEM_OBJECT_MAX <= id < 2 ^ 32 \/ val <> 0 /\ id = val)%Z ->
     ubus_find_id (get s) id = None -> avl_list t' ≡ₚ (id, node) :: avl_list (get s) ->
     Q (Some id) (set (fun _ => t') (s <| os := o |>))) ->
  wp (alloc_id get set node val) Q s.
Proof.
  intros Hset Hget Hn Hs. unfold wp, alloc_id.
  pose proof (alloc_id_cases (get s) node val (os_random (os s))) as H.
  destruct (ubus_alloc_id (get s) node val (os_random (os s))) as [[[id|] t'] rnd].
  - destruct H as (Hv & Hf & Hl). by apply Hs.
  - subst t'. specialize (Hn (os s <| os_random := rnd |>)).
    rewrite <- (Hset (s <| os := _ |>)), Hget in Hn. exact Hn.
Qed.

(** The work with a type reference that may be null *)
Definition hold (r : option ptr) W : work :=
  match r with Some t => W <| wk_types ::= cons t |> | None => W end.

(** Everything but the object types is as it was. *)
Record but_types s s' : Prop := {
  bt_objects : h_objects s' = h_objects s;
  bt_clients : h_clients s' = h_clients s;
  bt_msgs : h_msgs s' = h_msgs s;
  bt_subs : h_subs s' = h_subs s;
  bt_events : h_events s' = h_events s;
  bt_objtree : objects s' = objects s;
  bt_path : path s' = path s;
  bt_monitors : monitors s' = monitors s;
  bt_acls : h_acls s' = h_acls s;
  bt_acl_tree : ubusd_acls s' = ubusd_acls s;
}.

Lemma bt_bus s s' : but_types s s' -> bus_of s' = bus_of s.
Proof.
  intros []. unfold bus_of, rules_of. by rewrite bt_objects0, bt_clients0, bt_subs0, bt_events0, bt_monitors0, bt_acls0, bt_acl_tree0.
Qed.

#[export] Instance but_types_refl : Reflexive but_types.
Proof. by split. Qed.

#[export] Instance but_types_trans : Transitive but_types.
Proof. intros s1 s2 s3 [] []. split; congruence. Qed.

Lemma unref_type_spec W ext t s :
  inv (W <| wk_types ::= cons t |>) ext s ->
  wp (ubus_unref_object_type t) (fun _ s' => inv W ext s' /\ but_types s s') s.
Proof.
  intros [Hm Hw]. destruct (wf_type_live (W <| wk_types ::= cons t |>) s t) as [ty Hty]; [by left|done|].
  unfold ubus_unref_object_type. apply wp_bind. eapply wp_store; [done|].
  apply wp_bind. eapply wp_load; [apply lookup_insert_eq|].
  destruct (Z.ltb_spec 0 (type_refcount (ty <| type_refcount ::= Z.pred |>))) as [Hpos|Hz].
  - apply wp_ret. split; [|by split]. split; [solve_minv|by apply wf_type_unref].
  - apply wp_bind. set (s1 := set_heap _ _).
    eapply (wp_tree_delete _ _ _ (type_id <$> h_types s)); [reflexivity|apply Hw|exact (fmap_Some_1 type_id _ _ _ Hty)|].
    eapply wp_free; [apply lookup_insert_eq|]. split; [|by split]. split; [solve_minv|].
    eapply wf_of_reg; [|by eapply (wf_drop_type W s t ty)].
    unfold reg, s1, upd_obj_types. simpl. by rewrite delete_insert_eq.
Qed.

(** The loop over a signature's methods *)
Lemma create_methods_spec W ext t l s :
  inv W ext s -> is_Some (h_types s !! t) ->
  wp (for_until l (fun pos =>
        if negb (blobmsg_check_attr pos true) then mret (Some tt)
        else
          ok ← ubus_create_obj_method t pos;
          mret (if (ok : bool) then None else Some tt)))
     (fun _ s' => inv W ext s' /\ but_types s s') s.
Proof.
  intros Hi Ht.
  apply (wp_for_until (fun _ s' => inv W ext s' /\ but_types s s' /\ is_Some (h_types s' !! t))); [|naive_solver|done].
  intros pos l' s1 ([Hm Hw] & Hb & [ty Hty]). destruct (negb _); [by apply wp_ret|].
  unfold ubus_create_obj_method. apply wp_bind, wp_bind, wp_try_alloc. intros [] o.
  - apply wp_bind. eapply wp_store; [exact Hty|]. apply wp_ret, wp_ret. split; [|split].
    + split; [solve_minv|]. eapply wf_type_same; [exact Hty|done|done|by apply wf_os].
    + etrans; [exact Hb|by split].
    + simpl. rewrite lookup_insert_eq. eauto.
  - apply wp_ret, wp_ret. split; [split; [by apply minv_os|by apply wf_os]|].
    etrans; [exact Hb|by split].
Qed.

Lemma create_obj_type_spec W ext sig s :
  inv W ext s ->
  wp (ubus_create_obj_type sig) (fun r s' =>
    inv (hold r W) ext s' /\ but_types s s') s.
Proof.
  intros [Hm Hw]. unfold ubus_create_obj_type. apply wp_bind, wp_alloc; intros o.
  { apply wp_ret. split; [|by split]. split; [by apply minv_os|]. by apply wf_os. }
  set (t := brk s). apply wp_bind. set (s1 := set_heap _ _).
  assert (h_types s !! t = None) as Hfresh by (apply (fresh_types _ (minv_fresh _ _ Hm)); subst t; lia).
  apply wp_alloc_id; [by intros []|done|..].
  { intros o'. apply wp_bind. eapply wp_free; [apply lookup_insert_eq|]. apply wp_ret.
    split; [|by split]. split; [solve_minv|]. eapply wf_of_reg; [|exact Hw].
    unfold reg, s1. simpl. by rewrite delete_insert_id. }
  intros o' id tr _ _ Hl. apply wp_bind. eapply wp_store; [apply lookup_insert_eq|]. apply wp_bind.
  set (s2 := set_heap _ _).
  assert (inv (W <| wk_types ::= cons t |>) ext s2 /\ but_types s s2) as [Hi2 Hb2].
  { split; [|by split]. split; [solve_minv|].
    eapply wf_of_reg; [|eapply (wf_new_type W s t (mk_object_type id 1 []) tr); [exact Hfresh|done|exact Hl|exact Hw]].
    unfold reg, s2, s1, upd_obj_types. simpl. by rewrite insert_insert_eq. }
  eapply wp_mono; [|eapply (create_methods_spec _ ext t); [exact Hi2|simpl; rewrite lookup_insert_eq; eauto]].
  intros [[]|] s3 [Hi3 Hb3].
  - apply wp_bind. eapply wp_mono; [|by apply (unref_type_spec W)]. intros [] s4 [Hi4 Hb4]. apply wp_ret.
    split; [done|]. do 2 (etrans; [eassumption|]). done.
  - apply wp_ret. split; [done|]. by etrans.
Qed.

Lemma get_obj_type_spec W ext id s :
  inv W ext s ->
  wp (ubus_get_obj_type id) (fun r s' =>
    inv (hold r W) ext s' /\ but_types s s') s.
Proof.
  intros [Hm Hw]. unfold ubus_get_obj_type. apply wp_bind, wp_gets.
  destruct (ubus_find_id (obj_types s) id) as [t|] eqn:E; [|by apply wp_ret].
  apply (tree_ok_find _ _ _ _ (wf_obj_types _ _ Hw)), fmap_Some_2 in E as (ty & Hty & _).
  apply wp_bind. eapply wp_store; [exact Hty|]. apply wp_ret. split; [|by split].
  split; [solve_minv|by apply wf_type_ref].
Qed.

(** ** Bare objects *)

Definition bare_object (id : Z) (type : option ptr) : ubus_object :=
  object_zero <| obj_id := id |> <| obj_type := type |>.

Lemma create_object_internal_spec W ext type id s :
  inv W ext s -> (forall t, type = Some t -> is_Some (h_types s !! t)) ->
  wp (ubusd_create_object_internal type id) (fun r s' =>
    h_clients s' = h_clients s /\ h_msgs s' = h_msgs s /\ path s' = path s /\ h_acls s' = h_acls s /\ bus_of s' = bus_of s /\
    match r with
    | None => inv W ext s'
    | Some p => inv (W <| wk_objs ::= cons p |>) ext s' /\ h_objects s !! p = None /\
        exists oid, h_objects s' = <[p := bare_object oid type]> (h_objects s) /\
          (id = 0 /\ UBUS_SYSTEM_OBJECT_MAX <= oid < 2 ^ 32 \/ id <> 0 /\ oid = id)%Z
    end) s.
Proof.
  intros [Hm Hw] Hty. unfold ubusd_create_object_internal. apply wp_bind, wp_alloc; intros o.
  { apply wp_ret. repeat (split; [done|]). split; [by apply minv_os|]. by apply wf_os. }
  set (p := brk s). apply wp_bind. set (s1 := set_heap _ _).
  assert (h_objects s !! p = None) as Hfresh by (apply (fresh_objects _ (minv_fresh _ _ Hm)); subst p; lia).
  apply wp_alloc_id; [by intros []|done|..].
  { intros o'. apply wp_bind. eapply wp_free; [apply lookup_insert_eq|]. apply wp_ret.
    do 4 (split; [done|]). split; [unfold bus_of, s1; simpl; by rewrite delete_insert_id|].
    split; [solve_minv|]. eapply wf_of_reg; [|exact Hw].
    unfold reg, s1. simpl. by rewrite delete_insert_id. }
  intros o' oid tr Hid _ Hl. apply wp_bind. eapply wp_store; [apply lookup_insert_eq|]. apply wp_bind.
  pose proof (wf_new_object W s p (bare_object oid None) tr Hfresh eq_refl eq_refl eq_refl eq_refl eq_refl eq_refl Hl Hw) as Hw2.
  assert (forall type, bus_of (s <| h_objects ::= insert p (bare_object oid type) |>) = bus_of s) as Hbare
    by (intros; by apply bus_new_object).
  assert (forall type, mk_bus (cred_of <$> h_clients s)
    (omap pub_of (<[p:=bare_object oid type]> (<[p:=object_zero]> (h_objects s)))) (h_subs s) (h_events s)
    (mon_cl <$> monitors s) (rules_of s) = bus_of s) as Hbus.
  { intros type'. rewrite <- (Hbare type'). unfold bus_of. simpl. by rewrite insert_insert_eq. }
  destruct type as [t|].
  - destruct (Hty t eq_refl) as [ty Et]. eapply wp_store; [exact Et|]. apply wp_ret.
    do 4 (split; [done|]). split; [|split; [|split; [done|]]].
    + exact (Hbus _).
    + split; [solve_minv|].
      eapply (wf_type_ref _ _ t ty) in Hw2; [|exact Et].
      eapply (wf_set_type _ _ p (bare_object oid None) t) in Hw2; [|apply lookup_insert_eq|done].
      eapply wf_of_reg; [|exact Hw2]. unfold reg, s1, upd_objects. simpl. by rewrite !insert_insert_eq.
    + exists oid. simpl. by rewrite insert_insert_eq.
  - apply wp_ret, wp_ret. do 4 (split; [done|]). split; [|split; [|split; [done|]]].
    + exact (Hbus _).
    + split; [solve_minv|]. eapply wf_of_reg; [|exact Hw2]. unfold reg, s1, upd_objects. simpl. by rewrite !insert_insert_eq.
    + exists oid. simpl. by rewrite insert_insert_eq.
Qed.
End RegistrySpec.
