(* ===== verification/EventSpec.v ===== *)
(** * Events are delivered safely

    Specifications of [Event.v]: registering and dropping patterns keeps the
    registry consistent, and sending an event leaves it alone. *)

From stdpp Require Import base gmap strings list fin_maps sets.
From Stdlib Require Import ZArith Lia.
From S2P Require Import Prelude Wire Cstring Libubox Ids State MsgBuf Frame SendSpec Wf WfOps Registry Acl Reply.
From S2P Require Import Event AclSpec Bus ReplySpec RegistrySpec.
Local Open Scope ubus_scope.

(** What an object keeps while it is unlinked from patterns and subscriptions *)
Definition obj_base (o : ubus_object) : ubus_object :=
  obj_core o <| obj_events := [] |> <| obj_subscribers := [] |> <| obj_target_list := [] |>.

#[global] Arguments obj_base : simpl never.

Section Poke.
Context `{BL : BlobLib} `{!BlobLaws BL}.

(** A buffer that starts with an integer has room for it. *)
Lemma render_int_len id v l : 12 <= length (blob_render (put_int32 id v :: l)).
Proof.
  pose proof (f_equal length (blob_render_poke id v v l)) as H. unfold splice in H.
  rewrite !length_app, length_take, length_drop, length_be32 in H. lia.
Qed.

(** Overwriting bytes behind the attribute header *)
Lemma splice_like u off bs :
  4 <= off -> off + length bs <= length (ub_data u) ->
  msg_like u (u <| ub_data ::= splice off bs |>).
Proof.
  intros H4 Hfit. split; simpl; try done; [by apply length_splice|].
  apply blob_raw_len_hdr. unfold splice. rewrite take_app_le by (rewrite length_take; lia).
  rewrite take_take. f_equal. lia.
Qed.
End Poke.

Section EventSpec.
Context `{AL : AvlLib} `{BL : BlobLib} `{!AvlLaws AL} `{!BlobLaws BL}.
Implicit Types (s : ubusd) (W : work).

(** ** Dropping patterns *)

Lemma event_obj W s x ev :
  wf W s -> h_events s !! x = Some ev ->
  exists o cl, h_objects s !! ev_obj ev = Some o /\ obj_client o = Some cl /\ is_Some (h_clients s !! cl).
Proof.
  intros H Hx. destruct (wf_sub_active _ _ H) as (_ & _ & H3).
  destruct (H3 x (ev_obj ev)) as [cl (o & Ho & Hcl)%omap_Some_2]; [by rewrite lookup_fmap, Hx|].
  exists o, cl. repeat split; try done. by eapply (wf_client_live W s _ o).
Qed.

Lemma delete_event_source_spec W ext x ev s :
  inv W ext s -> h_events s !! x = Some ev ->
  wp (ubusd_delete_event_source x) (fun _ s' => inv W ext s' /\ h_clients s' = h_clients s /\
    monitors s' = monitors s /\
    bus_of s' = bus_of s <| bus_sources ::= delete x |> /\
    exists o, h_objects s !! ev_obj ev = Some o /\
      h_objects s' = <[ev_obj ev := o <| obj_events ::= list_del x |>]> (h_objects s)) s.
Proof.
  intros [Hm Hw] Hx. destruct (event_obj _ _ _ _ Hw Hx) as (o & cl & Ho & _ & _).
  unfold ubusd_delete_event_source. apply wp_bind. eapply wp_load; [done|].
  apply wp_bind. eapply wp_store; [done|]. apply wp_bind.
  eapply (wp_tree_delete _ _ _ (ev_key <$> h_events s)); [reflexivity|apply Hw|by apply fmap_Some_1|].
  eapply wp_free; [exact Hx|]. split; [split; [solve_minv|by apply wf_del_event]|]. do 2 (split; [done|]).
  split; [|by eauto]. exact (f_equal (fun b => b <| bus_sources ::= delete x |>)
    (bus_upd_object s _ o (o <| obj_events ::= list_del x |>) Ho eq_refl)).
Qed.

Lemma event_cleanup_spec W ext p o s :
  inv W ext s -> h_objects s !! p = Some o ->
  wp (ubusd_event_cleanup_object p) (fun _ s' => inv W ext s' /\ h_clients s' = h_clients s /\
    monitors s' = monitors s /\ forget p (bus_of s') = forget p (bus_of s) /\
    h_objects s' !! p = Some (o <| obj_events := [] |>)) s.
Proof.
  intros Hi Ho. unfold ubusd_event_cleanup_object. apply wp_bind. eapply wp_load; [done|].
  apply (wp_for_each (fun l s' => inv W ext s' /\ h_clients s' = h_clients s /\ monitors s' = monitors s /\
    forget p (bus_of s') = forget p (bus_of s) /\
    h_objects s' !! p = Some (o <| obj_events := l |>))); [|by destruct o].
  intros x l s1 (Hi1 & Ec1 & Em1 & Eb1 & Ho1).
  assert (exists ev, h_events s1 !! x = Some ev /\ ev_obj ev = p) as (ev & Hev & Ep).
  { apply fmap_Some_2, (lo_in _ _ (wf_events _ _ (inv_wf _ _ _ Hi1)) p (x :: l)); [by rewrite lookup_fmap, Ho1|by left]. }
  assert (NoDup (x :: l)) as Hnd.
  { eapply (lo_nodup _ _ (wf_events _ _ (inv_wf _ _ _ Hi1)) p). by rewrite lookup_fmap, Ho1. }
  eapply wp_mono; [|by eapply delete_event_source_spec]. intros [] s2 (Hi2 & Ec2 & Em2 & Eb2 & o1 & Ho1' & Eh).
  split; [done|]. split; [congruence|]. split; [congruence|].
  split; [rewrite <- Eb1, Eb2; by eapply (forget_unlisten p (bus_of s1) x ev)|]. rewrite Ep in *. rewrite Eh, lookup_insert_eq. simplify_eq. f_equal.
  change (o <| obj_events := x :: l |> <| obj_events ::= list_del x |>)
    with (o <| obj_events := list_del x (x :: l) |>). by rewrite list_del_head.
Qed.

(** ** Sending *)

(** A callback that builds an event message, its object id first *)
Definition fills s0 (fill_cb : stm ubusd (option ptr)) : Prop :=
  forall ext s, minv ext s -> reg s0 = reg s ->
  wp fill_cb (fun r s' =>
    io_rel [] s s' /\ h_clients s' = h_clients s /\
    match r with
    | None => minv ext s'
    | Some m => minv (m :: ext) s' /\ h_msgs s !! m = None /\ owners (h_clients s') m = 0 /\
        exists id v l, h_msgs s' !! m =
          Some (new_msg (Some (blob_render (put_int32 id v :: l))) (blob_raw_len (blob_render (put_int32 id v :: l))) true)
    end) s.

Lemma fills_from_blob s0 id v l : fills s0 (ubus_msg_from_blob (put_int32 id v :: l) true).
Proof.
  intros ext s Hm _. eapply wp_mono; [|by apply from_blob_spec]. intros [m|] s' (Hio & Hcl & H); [|done].
  destruct H as (H1 & H2 & H3 & H4). split; [done|]. split; [done|]. split; [done|]. split; [done|]. split; [done|]. by exists id, v, l.
Qed.

Lemma fills_object_event s0 p o key id :
  h_objects s0 !! p = Some o -> obj_path o = Some key -> fills s0 (ubusd_create_object_event_msg p id).
Proof.
  intros Ho Hk ext s Hm Hr. destruct (reg_object _ _ _ _ Hr Ho) as (o1 & Ho1 & E).
  pose proof (f_equal obj_path E) as Ek. simpl in Ek.
  unfold ubusd_create_object_event_msg. apply wp_bind. eapply wp_load; [done|]. rewrite Ek, Hk.
  by apply (fills_from_blob s0).
Qed.

(** The loop's state: the message, once built, is the loop's own. *)
Record sending (ub : option ptr) ext s0 s : Prop := {
  sd_minv : minv (opt_list ub ++ ext) s;
  sd_io : io_rel (opt_list ub) s0 s;
  sd_msg : forall u, ub = Some u -> h_msgs s0 !! u = None /\
    exists m, h_msgs s !! u = Some m /\ ub_refcount m = USES_EXTERNAL_BUFFER /\ 12 <= length (ub_data m);
}.

Lemma sending_same ub ext s0 s s' :
  h_msgs s' = h_msgs s -> h_clients s' = h_clients s -> reg s = reg s' -> fresh_ok s' ->
  sending ub ext s0 s -> sending ub ext s0 s'.
Proof.
  intros Em Ec Er Hf [Hm Hio Hu]. split.
  - by eapply minv_same.
  - etrans; [exact Hio|]. split; [done|by rewrite Em|by rewrite Ec].
  - by rewrite Em.
Qed.

(** A store to the message *)
Lemma sending_store u m m' ext s0 s :
  sending (Some u) ext s0 s -> h_msgs s !! u = Some m -> msg_like m m' -> ub_refcount m' = ub_refcount m ->
  sending (Some u) ext s0 (s <| h_msgs ::= insert u m' |>).
Proof.
  intros [Hm Hio Hu] Hmu Hl Hr. split.
  - by eapply minv_upd_msg.
  - etrans; [exact Hio|apply io_upd_msg].
  - intros ? [= <-]. destruct (Hu u eq_refl) as (Hf & x & Hx & Hext & Hlen). simplify_eq.
    split; [done|]. simpl. rewrite lookup_insert_eq. exists m'. split; [done|]. destruct Hl.
    rewrite Hr. split; [done|]. lia.
Qed.

Lemma fill_sending ext s0 s fill_cb :
  sending None ext s0 s -> fills s0 fill_cb ->
  wp (ub ← fill_cb;
      match ub with
      | None => mret None
      | Some u =>
          store u (fun m => m <| ub_hdr ::= fun h => h <| hdr_type := UBUS_MSG_INVOKE |> <| hdr_peer := 0%Z |> |>);;
          mret (Some u)
      end) (fun ub => sending ub ext s0) s.
Proof.
  intros [Hm Hio _] Hfill. apply wp_bind. eapply wp_mono; [|apply Hfill; [exact Hm|apply Hio]].
  intros [u|] s1 (Hio1 & Hcl1 & H).
  2:{ apply wp_ret. split; [done|by etrans|done]. }
  destruct H as (Hm1 & Hfresh & Hown & id & v & l & Hnew).
  assert (h_msgs s0 !! u = None) as Hf0.
  { destruct (h_msgs s0 !! u) as [x|] eqn:E; [|done].
    eapply io_msgs in E; [|exact Hio|set_solver]. congruence. }
  apply wp_bind. eapply wp_store; [exact Hnew|]. apply wp_ret.
  eapply sending_store; [|exact Hnew|by split|done]. split; [done| |].
  - eapply io_rel_weaken; [|etrans; [exact Hio|exact Hio1]]. set_solver.
  - intros ? [= <-]. split; [done|]. eexists. split; [exact Hnew|]. split; [done|]. apply render_int_len.
Qed.

Lemma send_event_msg_spec ub ext cl p o0 ocl fill_cb s0 s :
  mon_live s0 -> fills s0 fill_cb -> sending ub ext s0 s ->
  h_objects s0 !! p = Some o0 -> obj_client o0 = Some ocl -> is_Some (h_clients s0 !! ocl) ->
  wp (ubusd_send_event_msg ub cl p fill_cb) (fun r s' => (0 <= r.1)%Z /\ sending r.2 ext s0 s') s.
Proof.
  intros Hl Hfill Hs Ho0 Hcl0 [c0 Hc0]. unfold ubusd_send_event_msg.
  destruct (reg_object _ _ _ _ (io_reg _ _ _ (sd_io _ _ _ _ Hs)) Ho0) as (o & Ho & Eo).
  pose proof (f_equal obj_client Eo) as Hcl. simpl in Hcl. rewrite Hcl0 in Hcl.
  apply wp_bind. eapply wp_load; [done|].
  apply wp_bind, wp_gets. case_match; [by apply wp_ret|]. case_match; [by apply wp_ret|].
  apply wp_bind. eapply wp_store; [done|]. set (s1 := set_heap _ _).
  assert (sending ub ext s0 s1) as Hs1.
  { apply (sending_same _ _ _ s); [done|done|symmetry; by apply (reg_upd_object s p o)| |exact Hs].
    pose proof (minv_fresh _ _ (sd_minv _ _ _ _ Hs)). unfold s1. solve_fresh. }
  apply wp_bind.
  assert (wp (match ub with
    | Some _ => mret ub
    | None =>
        ub ← fill_cb;
        match ub with
        | None => mret None
        | Some u =>
            store u (fun m => m <| ub_hdr ::= fun h => h <| hdr_type := UBUS_MSG_INVOKE |> <| hdr_peer := 0%Z |> |>);;
            mret (Some u)
        end
    end) (fun ub => sending ub ext s0) s1) as Hw.
  { destruct ub; [by apply wp_ret|by apply fill_sending]. }
  eapply wp_mono; [|exact Hw]. clear Hw Hs Hs1 ub. intros [u|] s2 Hs2; [|by apply wp_ret].
  destruct (sd_msg _ _ _ _ Hs2 u eq_refl) as (Hf & m & Hmu & Hext & Hlen).
  apply wp_bind. eapply wp_load; [done|]. apply wp_bind, wp_assert.
  { apply fits_spec. rewrite length_be32. lia. }
  apply wp_bind. eapply wp_store; [done|]. set (m3 := m <| ub_data ::= _ |>). set (s3 := set_heap _ _).
  assert (sending (Some u) ext s0 s3) as Hs3.
  { eapply sending_store; [exact Hs2|exact Hmu|apply splice_like; [lia|rewrite length_be32; lia]|done]. }
  apply wp_bind, wp_modify, wp_bind, wp_gets. apply wp_bind. eapply wp_store; [apply lookup_insert_eq|].
  set (s4 := s3 <| event_seq ::= _ |>). set (s5 := set_heap _ _).
  assert (sending (Some u) ext s0 s5) as Hs5.
  { eapply (sending_store u m3); [|apply lookup_insert_eq|by split|done].
    apply (sending_same _ _ _ s3); [..|exact Hs3]; [done..|]. destruct (minv_fresh _ _ (sd_minv _ _ _ _ Hs3)). by split. }
  destruct (sd_msg _ _ _ _ Hs5 u eq_refl) as (_ & m5 & Hmu5 & Hext5 & Hlen5).
  destruct (reg_client _ _ _ _ (io_reg _ _ _ (sd_io _ _ _ _ Hs5)) Hc0) as (c5 & Hc5 & _).
  rewrite Hcl. apply wp_bind. unfold msg_send_to.
  eapply wp_mono; [|eapply (msg_send_spec (u :: ext)); [apply Hs5| |exact Hc5|by split; [exact Hmu5|left]]].
  2:{ eapply mon_live_reg; [apply Hs5|done]. }
  intros [] s6 [Hm6 Hio6 (m6 & Hmu6 & Hsim) _]. apply wp_ret. split; [done|]. split; [done| |].
  - etrans; [apply Hs5|exact Hio6].
  - intros ? [= <-]. split; [done|]. exists m6. split; [done|]. split; [by apply Hsim|].
    by rewrite (sim_data _ _ Hsim).
Qed.

Lemma send_event_loop_spec W ub ext cl id fill_cb len l s0 s :
  wf W s0 -> fills s0 fill_cb -> (forall k x, (k, x) ∈ l -> is_Some (h_events s0 !! x)) -> sending ub ext s0 s ->
  wp (send_event_loop cl id fill_cb len ub l) (fun r s' => (0 <= r.1)%Z /\ sending r.2 ext s0 s') s.
Proof.
  intros Hw Hfill. revert len ub s. induction l as [|[key x] l IH]; intros len ub s Hl Hs; [by apply wp_ret|].
  destruct (Hl key x) as [ev Hev]; [by left|]. destruct (event_obj _ _ _ _ Hw Hev) as (o & ocl & Ho & Hcl & Hlive).
  assert (forall k x, (k, x) ∈ l -> is_Some (h_events s0 !! x)) as Hl' by (intros; eapply Hl; by right).
  simpl. apply wp_bind. eapply wp_load.
  { simpl. rewrite <- Hev. symmetry. exact (f_equal (fun s => h_events s !! x) (io_reg _ _ _ (sd_io _ _ _ _ Hs))). }
  destruct (ubus_strmatch_len id key) as [f n]. case_match; [by apply wp_ret|]. case_match; [by apply IH|].
  apply wp_bind. eapply wp_mono; [|by eapply send_event_msg_spec; [eapply wf_mon|..]].
  intros [ret ub'] s1 [Hr1 Hs1]. simpl in Hr1, Hs1. case_match; [by apply wp_ret|by apply IH].
Qed.

Lemma sending_finish ub ext s0 s :
  sending ub ext s0 s ->
  wp (match ub with Some u => ubus_msg_free u | None => mret tt end) (fun _ => quiet ext s0) s.
Proof.
  intros [Hm Hio Hu]. destruct ub as [u|]; [|by apply wp_ret; split].
  destruct (Hu u eq_refl) as [Hf _]. eapply wp_mono; [|exact (msg_free_spec ext u s Hm)].
  intros [] s1 (Hm1 & Hio1 & _). split; [done|]. eapply io_rel_drop; [exact Hf|]. by etrans.
Qed.

Lemma send_event_spec W ext cl id fill_cb s :
  inv W ext s -> (forall p, cl = Some p -> is_Some (h_clients s !! p)) -> fills s fill_cb ->
  wp (ubusd_send_event cl id fill_cb) (fun r s' => (0 <= r)%Z /\ quiet ext s s') s.
Proof.
  intros [Hm Hw] Hcl Hfill. unfold ubusd_send_event. apply wp_bind.
  eapply wp_acl_check; [done|done|done|]. intros r. case_match; [apply wp_ret; split; [done|by apply quiet_refl]|].
  apply wp_bind, wp_modify, wp_bind, wp_gets, wp_bind.
  eapply wp_mono; [|eapply (send_event_loop_spec W None ext cl id fill_cb _ _ s); [exact Hw|exact Hfill| |]].
  - intros [ret ub] s1 [Hr1 Hs1]. apply wp_bind. eapply wp_mono; [|by apply sending_finish].
    intros [] s2 H2. by apply wp_ret.
  - intros k x Hin. apply (tree_in _ _ (wf_patterns _ _ Hw)), fmap_Some_2 in Hin as (ev & Hev & _). eauto.
  - eapply (sending_same _ _ _ s); [done..| |by split]. destruct (minv_fresh _ _ Hm). by split.
Qed.

Lemma send_obj_event_spec W ext p o key add s :
  inv W ext s -> h_objects s !! p = Some o -> obj_path o = Some key ->
  wp (ubusd_send_obj_event p add) (fun _ => quiet ext s) s.
Proof.
  intros Hi Ho Hk. unfold ubusd_send_obj_event. apply wp_bind.
  eapply wp_mono; [|eapply send_event_spec; [exact Hi|done|by eapply fills_object_event]].
  intros r s1 [_ H1]. by apply wp_ret.
Qed.

(** ** The event object *)

Lemma alloc_event_pattern_spec W ext cl msg s :
  inv W ext s -> is_Some (h_clients s !! cl) ->
  wp (ubusd_alloc_event_pattern cl msg) (fun r s' => (0 <= r)%Z /\ inv W ext s' /\ keeps s s' /\ steps cl s s') s.
Proof.
  intros [Hm Hw] Hcl. unfold ubusd_alloc_event_pattern, status.
  assert (forall st : ubus_msg_status, (0 <= status_code st)%Z /\ inv W ext s /\ keeps s s /\ steps cl s s) as Hsame.
  { intros st. split; [apply status_nonneg|done]. }
  destruct msg as [msg|]; [|by apply wp_ret]. destruct (evr_object _) as [aobj|]; [|by apply wp_ret].
  destruct (evr_pattern _) as [apat|]; [|by apply wp_ret]. case_match; [by apply wp_ret|].
  apply wp_bind, wp_gets. destruct (ubus_find_id _ _) as [p|] eqn:Ef; [|by apply wp_ret].
  apply (tree_ok_find _ _ _ _ (wf_objects _ _ Hw)), fmap_Some_2 in Ef as (o & Ho & _).
  apply wp_bind. eapply wp_load; [done|]. destruct (bool_decide_reflect (obj_client o = Some cl)) as [Hoc|]; [|by apply wp_ret].
  simpl negb. cbv iota. case_match; [by apply wp_ret|].
  destruct (split_pattern (blobmsg_get_string apat)) as [key partial].
  apply wp_bind. eapply wp_acl_allowed; [exact Hw|done|done|]. intros r Hr.
  destruct (Z.eqb_spec r 0) as [Er|]; simpl negb; cbv iota; [specialize (Hr Er)|by apply wp_ret].
  apply wp_bind, wp_alloc; intros os'.
  { apply wp_ret. split; [done|]. split; [split; [by apply minv_os|by apply wf_os]|]. split; [by apply keeps_same|by apply steps_same]. }
  set (x := brk s). assert (h_events s !! x = None) as Hfresh by (apply (fresh_events _ (minv_fresh _ _ Hm)); subst x; lia).
  apply wp_bind. eapply wp_store; [exact Ho|]. apply wp_bind, wp_modify, wp_ret. split; [done|].
  destruct (avl_insert_dup (patterns s) key x) as (t' & E & Hl). split; [split; [solve_minv|]|split; [by apply keeps_same|]].
  - assert (wf W (s <| os := os' |> <| brk ::= Pos.succ |>)) as Hw' by (by eapply wf_of_reg; [|exact Hw]).
    eapply (wf_add_event _ _ x p key partial o t') in Hw'; [|..|exact Hl].
    + unfold upd_patterns. simpl. rewrite E. exact Hw'.
    + done.
    + exact Ho.
    + rewrite Hoc. eauto.
  - apply (steps_to cl s _ (bus_of s <| bus_sources ::= insert x (mk_event_source p key partial) |>)).
    + eapply step_listen; [exact Hfresh|by eapply bus_object|done|done].
    + etrans; [|exact (f_equal (fun b => b <| bus_sources ::= insert x (mk_event_source p key partial) |>)
        (bus_upd_object s p o (o <| obj_events ::= cons x |>) Ho eq_refl))]. done.
Qed.

Lemma event_recv_spec W ext cl method msg s :
  inv W ext s -> is_Some (h_clients s !! cl) ->
  wp (ubusd_event_recv cl method msg) (fun r s' => (0 <= r)%Z /\ inv W ext s' /\ keeps s s' /\ steps cl s s') s.
Proof.
  intros Hi Hcl. unfold ubusd_event_recv, status. case_match; [by apply alloc_event_pattern_spec|].
  case_match; [|by apply wp_ret]. unfold ubusd_forward_event, status.
  destruct msg as [msg|]; [|by apply wp_ret]. destruct (ev_id _); [|by apply wp_ret].
  destruct (ev_data _); [|by apply wp_ret]. case_match; [by apply wp_ret|].
  eapply wp_mono; [|eapply send_event_spec; [exact Hi|by intros ? [= <-]|apply fills_from_blob]].
  intros r s1 [Hr Hq]. split; [done|]. split; [exact (quiet_inv _ _ _ _ _ Hq Hi)|].
  split; [exact (quiet_keeps _ _ _ Hq)|by eapply steps_same, quiet_bus].
Qed.
End EventSpec.
