(* ===== verification/AclLoadSpec.v ===== *)
(** * Loading access control files is safe and exact

    The registry updates of [AclLoad.v] keep the invariant; after a load the
    access list holds exactly what the trusted files of the directory grant. *)

From stdpp Require Import base gmap strings list fin_maps sets.
From Stdlib Require Import ZArith Lia.
From S2P Require Import Prelude Wire Cstring Libubox Ids State MsgBuf Frame SendSpec Wf WfOps Registry Acl Reply.
From S2P Require Import Event AclLoad ReplySpec AclSpec Bus EventSpec.
Local Open Scope ubus_scope.

(** ** Files and their entries *)

Section FilesOk.
Implicit Types (hf : gmap ptr ubusd_acl_file) (ha : gmap ptr ubusd_acl_obj).

Lemma files_upd_file hf ha f file file' :
  hf !! f = Some file -> af_acl file' = af_acl file -> files_ok hf ha -> files_ok (<[f:=file']> hf) ha.
Proof.
  intros Hf E [Hnd Hlive Hone Howned].
  assert (forall g x, <[f:=file']> hf !! g = Some x -> exists y, hf !! g = Some y /\ af_acl x = af_acl y) as Hl.
  { intros g x. rewrite lookup_insert_Some. intros [[<- <-]|[_ H]]; eauto. }
  split.
  - intros g x (y & Hy & ->)%Hl. eauto.
  - intros g x p (y & Hy & ->)%Hl. eauto.
  - intros g x g' x' p (y & Hy & ->)%Hl (y' & Hy' & ->)%Hl. eauto.
  - intros p (g & x & Hx & Hp)%Howned. destruct (decide (f = g)) as [<-|Hne].
    + exists f, file'. rewrite lookup_insert_eq, E. split; [done|congruence].
    + exists g, x. by rewrite lookup_insert_ne.
Qed.

Lemma files_upd_acl hf ha p a a' : ha !! p = Some a -> files_ok hf ha -> files_ok hf (<[p:=a']> ha).
Proof.
  intros Ha [Hnd Hlive Hone Howned]. split; [done| |done|].
  - intros. rewrite lookup_insert_is_Some'. eauto.
  - intros q. rewrite lookup_insert_is_Some'. intros [<-|Hq]; eauto.
Qed.

Lemma files_add_acl hf ha f file p a :
  hf !! f = Some file -> ha !! p = None -> files_ok hf ha ->
  files_ok (<[f := file <| af_acl ::= cons p |>]> hf) (<[p:=a]> ha).
Proof.
  intros Hf Hp [Hnd Hlive Hone Howned].
  assert (forall g x, hf !! g = Some x -> p ∉ af_acl x) as Hni.
  { intros g x Hx Hpx. destruct (Hlive g x p Hx Hpx). congruence. }
  split.
  - intros g x. rewrite lookup_insert_Some. intros [[<- <-]|[_ Hx]]; [|eauto]. simpl. constructor; eauto.
  - intros g x q. rewrite lookup_insert_Some, lookup_insert_is_Some'. intros [[<- <-]|[_ Hx]] Hq; [|eauto].
    simpl in Hq. apply elem_of_cons in Hq as [->|]; eauto.
  - intros g x g' x' q. rewrite !lookup_insert_Some.
    intros [[<- <-]|[Hg Hx]] [[<- <-]|[Hg' Hx']]; simpl; rewrite ?elem_of_cons; [done| | |by eauto].
    + intros [->|Hq] Hq'; [by destruct (Hni _ _ Hx')|]. by eapply (Hone f file g' x').
    + intros Hq [->|Hq']; [by destruct (Hni _ _ Hx)|]. by eapply (Hone g x f file).
  - intros q. rewrite lookup_insert_is_Some. intros [<-|[Hne Hq]].
    + exists f. eexists. rewrite lookup_insert_eq. split; [done|]. simpl. by left.
    + destruct (Howned q Hq) as (g & x & Hx & Hqx). destruct (decide (f = g)) as [<-|].
      * exists f. eexists. rewrite lookup_insert_eq. split; [done|]. simpl. right. congruence.
      * exists g, x. by rewrite lookup_insert_ne.
Qed.

Lemma files_del_acl hf ha f file p :
  hf !! f = Some file -> p ∈ af_acl file -> files_ok hf ha ->
  files_ok (<[f := file <| af_acl ::= list_del p |>]> hf) (delete p ha).
Proof.
  intros Hf Hp [Hnd Hlive Hone Howned]. split.
  - intros g x. rewrite lookup_insert_Some. intros [[<- <-]|[_ Hx]]; [|eauto]. simpl. apply NoDup_list_del. eauto.
  - intros g x q. rewrite lookup_insert_Some, lookup_delete_is_Some. intros [[<- <-]|[Hne Hx]]; simpl.
    + rewrite elem_of_list_del. intros [Hq Hn]. split; [congruence|eauto].
    + intros Hq. split; [|by eauto]. intros <-. by apply Hne, (Hone f file g x p).
  - intros g x g' x' q. rewrite !lookup_insert_Some.
    intros [[<- <-]|[_ Hx]] [[<- <-]|[_ Hx']]; simpl; rewrite ?elem_of_list_del; [done| | |by eauto].
    + intros [Hq _] Hq'. by eapply (Hone f file g' x').
    + intros Hq [Hq' _]. by eapply (Hone g x f file).
  - intros q. rewrite lookup_delete_is_Some. intros [Hne Hq].
    destruct (Howned q Hq) as (g & x & Hx & Hqx). destruct (decide (f = g)) as [<-|].
    + exists f. eexists. rewrite lookup_insert_eq. split; [done|]. simpl. rewrite elem_of_list_del. split; congruence.
    + exists g, x. by rewrite lookup_insert_ne.
Qed.

Lemma files_new hf ha f file :
  hf !! f = None -> af_acl file = [] -> files_ok hf ha -> files_ok (<[f:=file]> hf) ha.
Proof.
  intros Hf E [Hnd Hlive Hone Howned]. split.
  - intros g x. rewrite lookup_insert_Some. intros [[<- <-]|[_ Hx]]; [rewrite E; constructor|eauto].
  - intros g x q. rewrite lookup_insert_Some. intros [[<- <-]|[_ Hx]]; [|eauto].
    rewrite E. intros H. by apply not_elem_of_nil in H.
  - intros g x g' x' q. rewrite !lookup_insert_Some. intros [[<- <-]|[_ Hx]] [[<- <-]|[_ Hx']]; [done|..|by eauto].
    all: rewrite E; intros H H'; by apply not_elem_of_nil in H || by apply not_elem_of_nil in H'.
  - intros p (g & x & Hx & Hp)%Howned. exists g, x. split; [|done]. rewrite lookup_insert_ne; [done|congruence].
Qed.

Lemma files_drop hf ha f file :
  hf !! f = Some file -> af_acl file = [] -> files_ok hf ha -> files_ok (delete f hf) ha.
Proof.
  intros Hf E [Hnd Hlive Hone Howned]. split.
  - intros g x [_ Hx]%lookup_delete_Some. eauto.
  - intros g x q [_ Hx]%lookup_delete_Some. eauto.
  - intros g x g' x' q [_ Hx]%lookup_delete_Some [_ Hx']%lookup_delete_Some. eauto.
  - intros p (g & x & Hx & Hp)%Howned. exists g, x. split; [|done]. rewrite lookup_delete_ne; [done|].
    intros <-. rewrite Hf in Hx. injection Hx as <-. rewrite E in Hp. by apply not_elem_of_nil in Hp.
Qed.
End FilesOk.

(** ** The list of files *)

Section VlistOk.
Implicit Types (nodes : list (string * ptr * bool)) (hf : gmap ptr ubusd_acl_file).

Lemma vlist_upd_file nodes held hf f file file' :
  hf !! f = Some file -> af_name file' = af_name file -> vlist_ok nodes held hf ->
  vlist_ok nodes held (<[f:=file']> hf).
Proof.
  intros Hf E [Hn Hnode Hone Hall]. split; [done| |done|].
  - intros k g Hg. destruct (Hnode k g Hg) as (x & Hx & Ek). destruct (decide (f = g)) as [<-|].
    + exists file'. rewrite lookup_insert_eq. split; [done|congruence].
    + exists x. by rewrite lookup_insert_ne.
  - intros g. rewrite lookup_insert_is_Some', <- Hall. split; [intros [<-|]; eauto|auto].
Qed.

(** A file is allocated and linked, in place of the one of the same name. *)
Lemma vlist_link nodes nodes' held old hf f file l :
  hf !! f = None ->
  nodes ≡ₚ (match old with Some (g, b) => [(af_name file, g, b)] | None => [] end) ++ l ->
  af_name file ∉ l.*1.*1 -> nodes' ≡ₚ (af_name file, f, true) :: l -> vlist_ok nodes held hf ->
  vlist_ok nodes' (opt_list (fst <$> old) ++ held) (<[f:=file]> hf).
Proof.
  intros Hf Hl Hni Hl' [Hn Hnode Hone Hall].
  assert (nodes.*1.*2 ≡ₚ opt_list (fst <$> old) ++ l.*1.*2) as Hp.
  { rewrite Hl. by destruct old as [[g b]|]. }
  assert (f ∉ nodes.*1.*2 ++ held) as Hfn. { rewrite <- Hall, Hf. intros []. done. }
  split.
  - rewrite Hl'. rewrite !fmap_cons. constructor; [done|]. rewrite Hl, !fmap_app in Hn. by apply NoDup_app in Hn as (_ & _ & ?).
  - intros k g. rewrite Hl', fmap_cons, elem_of_cons. intros [[= -> ->]|Hg].
    + exists file. by rewrite lookup_insert_eq.
    + assert ((k, g) ∈ nodes.*1) as Hg' by (rewrite Hl, fmap_app, elem_of_app; by right).
      destruct (Hnode k g Hg') as (x & Hx & Ek). exists x. rewrite lookup_insert_ne; [done|congruence].
  - rewrite Hl', !fmap_cons. simpl. rewrite Hp in Hone, Hfn. rewrite !elem_of_app in Hfn. constructor.
    { rewrite !elem_of_app. tauto. }
    rewrite (Permutation_app_comm (opt_list _)) in Hone. by rewrite <- app_assoc in Hone.
  - intros g. rewrite lookup_insert_is_Some', Hall, Hp, Hl', !fmap_cons. simpl.
    rewrite elem_of_cons, !elem_of_app. split; [intros [<-|]; tauto|intros [->|]; tauto].
Qed.

(** Stale files leave the list. *)
Lemma vlist_unlink nodes nodes' held gone hf :
  nodes.*1 ≡ₚ gone ++ nodes'.*1 -> vlist_ok nodes held hf -> vlist_ok nodes' (gone.*2 ++ held) hf.
Proof.
  intros Hl [Hn Hnode Hone Hall].
  assert (nodes.*1.*2 ++ held ≡ₚ nodes'.*1.*2 ++ gone.*2 ++ held) as Hp.
  { rewrite Hl, fmap_app, app_assoc. f_equiv. apply Permutation_app_comm. }
  split.
  - rewrite Hl, fmap_app in Hn. by apply NoDup_app in Hn as (_ & _ & ?).
  - intros k g Hg. apply Hnode. rewrite Hl, elem_of_app. by right.
  - by rewrite <- Hp.
  - intros g. by rewrite <- Hp.
Qed.

Lemma vlist_drop nodes held hf f :
  vlist_ok nodes (f :: held) hf -> vlist_ok nodes held (delete f hf).
Proof.
  intros [Hn Hnode Hone Hall]. rewrite <- Permutation_middle in Hone. apply NoDup_cons in Hone as [Hni Hone].
  split; [done| |done|].
  - intros k g Hg. destruct (Hnode k g Hg) as (x & Hx & Ek). exists x. split; [|done].
    rewrite lookup_delete_ne; [done|]. intros <-. apply Hni, elem_of_app. left.
    apply list_elem_of_fmap. by exists (k, f).
  - intros g. rewrite lookup_delete_is_Some, Hall, !elem_of_app, elem_of_cons.
    split; [naive_solver|]. intros H. split; [|tauto]. intros <-. apply Hni, elem_of_app. naive_solver.
Qed.
End VlistOk.

(** ** What a file grants

    [file_entries] is the reference: the entries of a parsed file in the order
    of its sections. *)

Section FileEntries.
Context `{BL : BlobLib}.

(** The entries of a file name its user or its group; an unknown name matches
    nobody. *)
Definition acl_template (db : user_db) (blob : bytes) : option (string -> bool -> ubusd_acl_obj) :=
  match acl_tb blob "user" BLOBMSG_TYPE_STRING, acl_tb blob "group" BLOBMSG_TYPE_STRING with
  | Some u, _ => Some (fun key partial =>
      mk_acl_obj key partial (Some (blobmsg_get_string u)) None
        (default (-1)%Z (getpwnam db (blobmsg_get_string u))) (-1) None None None false false false false)
  | None, Some g => Some (fun key partial =>
      mk_acl_obj key partial None (Some (blobmsg_get_string g)) (-1)
        (default (-1)%Z (getgrnam db (blobmsg_get_string g))) None None None false false false false)
  | None, None => None
  end.

Definition pattern_entry (tmpl : string -> bool -> ubusd_acl_obj) (obj : string) : option ubusd_acl_obj :=
  if (strlen obj =? 0)%Z then None else let '(key, partial) := split_pattern obj in Some (tmpl key partial).

Definition access_entry tmpl (obj : bytes) : option ubusd_acl_obj :=
  if bool_decide (acl_access_methods obj = None) && bool_decide (acl_access_tags obj = None)
     && bool_decide (acl_access_priv obj = None) then None
  else (fun a => a <| acl_methods := acl_access_methods obj |> <| acl_tags := acl_access_tags obj |>
                   <| acl_priv := acl_access_priv obj |>) <$> pattern_entry tmpl (blobmsg_name obj).

Definition flag_entry (set : ubusd_acl_obj -> ubusd_acl_obj) tmpl (cur : bytes) : option ubusd_acl_obj :=
  if bool_decide (blobmsg_type cur = BLOBMSG_TYPE_STRING) then set <$> pattern_entry tmpl (blobmsg_get_string cur)
  else None.

Definition section_entries (tb : option bytes) (entry : bytes -> option ubusd_acl_obj) : list ubusd_acl_obj :=
  match tb with None => [] | Some a => omap entry (blobmsg_for_each_attr a) end.

Definition file_entries (db : user_db) (blob : bytes) : list ubusd_acl_obj :=
  match acl_template db blob with
  | None => []
  | Some tmpl =>
      section_entries (acl_tb blob "access" BLOBMSG_TYPE_TABLE) (access_entry tmpl)
      ++ section_entries (acl_tb blob "subscribe" BLOBMSG_TYPE_ARRAY) (flag_entry set_subscribe tmpl)
      ++ section_entries (acl_tb blob "publish" BLOBMSG_TYPE_ARRAY) (flag_entry set_publish tmpl)
      ++ section_entries (acl_tb blob "listen" BLOBMSG_TYPE_ARRAY) (flag_entry set_listen tmpl)
      ++ section_entries (acl_tb blob "send" BLOBMSG_TYPE_ARRAY) (flag_entry set_send tmpl)
  end.
End FileEntries.

(** The part of a file that adding entries leaves alone *)
Definition af_core (f : ubusd_acl_file) : ubusd_acl_file := f <| af_acl := [] |> <| af_ok := 0%Z |>.

Section AclLoadSpec.
Context `{AL : AvlLib} `{BL : BlobLib} `{!AvlLaws AL} `{!BlobLaws BL}.
Implicit Types (s : ubusd) (W : work).

(** ** Registry updates *)

Lemma wf_upd_file W s f file file' :
  h_files s !! f = Some file -> af_acl file' = af_acl file -> af_name file' = af_name file ->
  wf W s -> wf W (s <| h_files ::= insert f file' |>).
Proof. intros Hf Ea En []. split; simpl; try wf_keep; [by eapply files_upd_file|by eapply vlist_upd_file]. Qed.

Lemma wf_upd_acl W s p a a' :
  h_acls s !! p = Some a -> acl_key a' = acl_key a -> wf W s -> wf W (s <| h_acls ::= insert p a' |>).
Proof.
  intros Ha E []. split; simpl; try wf_keep; [by rewrite (fmap_upd_same _ _ _ _ _ Ha E)|by eapply files_upd_acl].
Qed.

Lemma wf_add_acl W s f file p a t' :
  h_files s !! f = Some file -> h_acls s !! p = None ->
  avl_list t' ≡ₚ (acl_key a, p) :: avl_list (ubusd_acls s) -> wf W s ->
  wf W (s <| h_acls ::= insert p a |> <| h_files ::= insert f (file <| af_acl ::= cons p |>) |>
          <| ubusd_acls := t' |>).
Proof.
  intros Hf Hp Ht []. split; simpl; try wf_keep.
  - rewrite fmap_insert. eapply tree_ok_insert; [done|by apply fmap_fresh|done].
  - by apply files_add_acl.
  - by eapply vlist_upd_file.
Qed.

Lemma wf_del_acl W s f file p a :
  h_files s !! f = Some file -> h_acls s !! p = Some a -> p ∈ af_acl file -> wf W s ->
  wf W (s <| ubusd_acls ::= (fun t => avl_delete t (acl_key a) p) |>
          <| h_files ::= insert f (file <| af_acl ::= list_del p |>) |> <| h_acls ::= delete p |>).
Proof.
  intros Hf Ha Hp []. split; simpl; try wf_keep.
  - rewrite fmap_delete. apply tree_ok_delete; [done|by apply fmap_Some_1].
  - by apply files_del_acl.
  - by eapply vlist_upd_file.
Qed.

Lemma wf_drop_file W s f file :
  h_files s !! f = Some file -> af_acl file = [] -> wf (W <| wk_files ::= cons f |>) s ->
  wf W (s <| h_files ::= delete f |>).
Proof. intros Hf Ea []. split; simpl; try wf_keep; [by eapply files_drop|by apply vlist_drop]. Qed.

(** ** Adding entries *)

Definition entries_of s (file : ubusd_acl_file) : list (option ubusd_acl_obj) :=
  (fun p => h_acls s !! p) <$> af_acl file.

(** The file [f] has got the entries [es] (latest first), or fewer when memory
    ran out; nothing else has changed in the access lists. *)
Record adds (f : ptr) (es : list ubusd_acl_obj) s s' : Prop := {
  ad_file : forall file, h_files s !! f = Some file ->
    exists file' es', h_files s' !! f = Some file' /\ af_core file' = af_core file /\
      sublist es' es /\ (os_alloc (os s) = [] -> es' = es) /\
      entries_of s' file' = (Some <$> es') ++ entries_of s file;
  ad_other : forall g, g <> f -> h_files s' !! g = h_files s !! g;
  ad_keep : forall p a, h_acls s !! p = Some a -> h_acls s' !! p = Some a;
  ad_vlist : ubusd_acl_files s' = ubusd_acl_files s;
  ad_alloc : os_alloc (os s) = [] -> os_alloc (os s') = [];
}.

Lemma adds_refl f s : adds f [] s s.
Proof. split; try done. intros file Hf. exists file, []. by repeat split. Qed.

Lemma adds_trans f es1 es2 s1 s2 s3 : adds f es1 s1 s2 -> adds f es2 s2 s3 -> adds f (es2 ++ es1) s1 s3.
Proof.
  intros [F1 O1 K1 V1 A1] [F2 O2 K2 V2 A2]. split; [|intros; by rewrite O2, O1|by eauto|congruence|by eauto].
  intros file Hf. destruct (F1 file Hf) as (file2 & e1 & Hf2 & E2 & S1 & X1 & N1).
  destruct (F2 file2 Hf2) as (file3 & e2 & Hf3 & E3 & S2 & X2 & N2).
  exists file3, (e2 ++ e1). split; [done|]. split; [congruence|]. split; [by apply sublist_app|].
  split; [|by rewrite N2, N1, fmap_app, app_assoc].
  intros Ha. by rewrite (X1 Ha), (X2 (A1 Ha)).
Qed.

(** An allocation failed. *)
Lemma adds_skip f es s o :
  es = [] \/ os_alloc (os s) <> [] -> (os_alloc (os s) = [] -> os_alloc o = []) -> adds f es s (s <| os := o |>).
Proof.
  intros He Ho. split; try done. intros file Hf. exists file, []. repeat split; [done|apply sublist_nil_l|].
  intros Ha. by destruct He.
Qed.

(** [ubusd_acl_alloc_obj] followed by the assignments to the new entry and to
    the file's [ok]: the entry is added. *)
Lemma alloc_obj_spec W ext f file obj set rest s :
  inv W ext s -> h_files s !! f = Some file -> (forall a, acl_key (set a) = acl_key a) ->
  (forall o a s', inv W ext s' -> (exists file', h_files s' !! f = Some file' /\ af_core file' = af_core file) ->
     h_acls s' !! o = Some a ->
     wp (rest o) (fun _ s'' => inv W ext s'' /\ h_acls s'' = <[o := set a]> (h_acls s') /\
       (exists file1 k, h_files s' !! f = Some file1 /\ h_files s'' = <[f := file1 <| af_ok := k |>]> (h_files s')) /\
       ubusd_acl_files s'' = ubusd_acl_files s' /\ os s'' = os s') s') ->
  wp (o ← ubusd_acl_alloc_obj f obj; match o with None => mret tt | Some o => rest o end)
    (fun _ s' => inv W ext s' /\ adds f (opt_list (set <$> pattern_entry (acl_obj_new file) obj)) s s') s.
Proof.
  intros [Hm Hw] Hf Hset Hrest. unfold ubusd_acl_alloc_obj, pattern_entry.
  destruct (strlen obj =? 0)%Z; [apply wp_ret; split; [done|apply adds_refl]|].
  destruct (split_pattern obj) as [key partial]. apply wp_bind, wp_bind. eapply wp_load; [done|].
  apply wp_bind, wp_alloc_os; intros o Ho.
  { apply wp_ret, wp_ret. split; [split; [by apply minv_os|by apply wf_os]|]. apply adds_skip; [by right|done]. }
  set (p := brk s). assert (h_acls s !! p = None) as Hp by (apply (fresh_acls _ (minv_fresh _ _ Hm)); subst p; lia).
  apply wp_bind. eapply wp_store; [exact Hf|]. apply wp_bind, wp_modify, wp_ret.
  destruct (avl_insert_dup (ubusd_acls s) key p) as (t' & E & Hl). unfold upd_acls. simpl. fold p. rewrite E. simpl.
  set (s1 := mk_ubusd _ _ _ _ _ _ _ _ _ _ _ _ _ _ _ _ _ _ _ _ _ _).
  assert (inv W ext s1) as Hi1.
  { split; [unfold s1; solve_minv|].
    assert (wf W (s <| os := o |> <| brk ::= Pos.succ |>)) as Hw' by (by eapply wf_of_reg; [|exact Hw]).
    exact (wf_add_acl _ (s <| os := o |> <| brk ::= Pos.succ |>) f file p (acl_obj_new file key partial) t' Hf Hp Hl Hw'). }
  eapply wp_mono; [|eapply (Hrest p (acl_obj_new file key partial) s1); [exact Hi1| |apply lookup_insert_eq]].
  2:{ eexists. split; [apply lookup_insert_eq|done]. }
  intros [] s2 (Hi2 & Ea & (file1 & k & Hf1 & Ef) & Ev & Eo). split; [done|]. simpl in Hf1. rewrite lookup_insert_eq in Hf1.
  injection Hf1 as <-. split.
  - intros file2 Hf2. rewrite Hf in Hf2. injection Hf2 as <-.
    eexists _, [_]. rewrite Ef. split; [apply lookup_insert_eq|]. split; [done|]. split; [done|]. split; [done|].
    unfold entries_of. rewrite Ea. simpl. rewrite lookup_insert_eq. f_equal. apply list_fmap_ext. intros i q Hq.
    rewrite !lookup_insert_ne; [done|intros <-..];
      destruct (fo_live _ _ (wf_files _ _ Hw) f file p Hf); congruence || by eapply list_elem_of_lookup_2.
  - intros g Hg. rewrite Ef. simpl. by rewrite !lookup_insert_ne by done.
  - intros q a Hq. rewrite Ea. simpl. rewrite !lookup_insert_ne; [done|congruence..].
  - done.
  - rewrite Eo. exact Ho.
Qed.

(** The credentials of a file's entries *)
Lemma acl_obj_new_core file file' : af_core file' = af_core file -> acl_obj_new file' = acl_obj_new file.
Proof. destruct file, file'. unfold af_core. simpl. by intros [= <- <- <- <- <- <-]. Qed.

(** Adds to [f] what [entry] says. *)
Definition adder W ext (f : ptr) (core : ubusd_acl_file) (add : bytes -> stm ubusd unit)
    (entry : bytes -> option ubusd_acl_obj) : Prop :=
  forall x s file, inv W ext s -> h_files s !! f = Some file -> af_core file = core ->
  wp (add x) (fun _ s' => inv W ext s' /\ adds f (opt_list (entry x)) s s') s.

Lemma add_access_spec W ext f file :
  adder W ext f (af_core file) (ubusd_acl_add_access f) (access_entry (acl_obj_new file)).
Proof.
  intros x s file1 Hi Hf Ec. unfold ubusd_acl_add_access, access_entry. case_match; [apply wp_ret; split; [done|apply adds_refl]|].
  rewrite <- (acl_obj_new_core _ _ Ec). eapply (alloc_obj_spec W ext f file1); [done..|].
  intros o a s1 [Hm1 Hw1] (file2 & Hf2 & _) Ha. apply wp_bind. eapply wp_store; [exact Ha|].
  set (a' := a <| acl_methods := _ |> <| acl_tags := _ |> <| acl_priv := _ |>). set (s2 := set_heap _ _).
  assert (inv W ext s2) as [Hm2 Hw2]. { split; [unfold s2; solve_minv|]. by eapply wf_upd_acl. }
  apply wp_bind. eapply wp_load; [exact Hf2|]. unfold when. case_match.
  - eapply wp_store; [exact Hf2|]. split; [|split; [done|]].
    + split; [solve_minv|]. by eapply (wf_upd_file _ s2).
    + split; [|done]. by exists file2, 1%Z.
  - apply wp_ret. split; [done|]. split; [done|]. split; [|done]. exists file2, (af_ok file2). split; [done|].
    symmetry. apply insert_id. etrans; [exact Hf2|]. by destruct file2.
Qed.

Lemma add_flag_spec W ext f file set :
  (forall a, acl_key (set a) = acl_key a) ->
  adder W ext f (af_core file) (acl_if_string (acl_add_flag set f)) (flag_entry set (acl_obj_new file)).
Proof.
  intros Hset x s file1 Hi Hf Ec. unfold acl_if_string, acl_add_flag, flag_entry.
  case_match; [|apply wp_ret; split; [done|apply adds_refl]].
  rewrite <- (acl_obj_new_core _ _ Ec). eapply (alloc_obj_spec W ext f file1); [done..|].
  intros o a s1 [Hm1 Hw1] (file2 & Hf2 & _) Ha. eapply wp_store; [exact Ha|].
  split; [split; [solve_minv|by eapply wf_upd_acl]|]. split; [done|]. split; [|done].
  exists file2, (af_ok file2). split; [done|]. symmetry. apply insert_id. etrans; [exact Hf2|]. by destruct file2.
Qed.

Lemma acl_for_each_spec W ext f core tb add entry s file :
  adder W ext f core add entry -> inv W ext s -> h_files s !! f = Some file -> af_core file = core ->
  wp (acl_for_each tb add) (fun _ s' => inv W ext s' /\ adds f (reverse (section_entries tb entry)) s s') s.
Proof.
  intros Hadd Hi Hf Ec. unfold acl_for_each, section_entries.
  destruct tb as [a|]; [|apply wp_ret; split; [done|apply adds_refl]].
  generalize (blobmsg_for_each_attr a) as l. intros l. revert s file Hi Hf Ec.
  induction l as [|x l IH]; intros s file Hi Hf Ec; [apply wp_ret; split; [done|apply adds_refl]|].
  apply wp_bind. eapply wp_mono; [|by eapply Hadd]. intros [] s1 [Hi1 Ha1].
  destruct (ad_file _ _ _ _ Ha1 file Hf) as (file1 & _ & Hf1 & Ec1 & _).
  eapply wp_mono; [|eapply (IH s1 file1); [done|done|congruence]]. intros [] s2 [Hi2 Ha2]. split; [done|].
  change (omap entry (x :: l)) with (match entry x with Some y => y :: omap entry l | None => omap entry l end).
  pose proof (adds_trans _ _ _ _ _ _ Ha1 Ha2) as Ha. destruct (entry x); simpl in Ha; [by rewrite reverse_cons|by rewrite app_nil_r in Ha].
Qed.

(** The entries of one section after the other *)
Lemma wp_adds_seq W ext f core es1 es2 m1 m2 s file :
  h_files s !! f = Some file -> af_core file = core ->
  wp m1 (fun (_ : unit) s' => inv W ext s' /\ adds f (reverse es1) s s') s ->
  (forall s1 file1, inv W ext s1 -> h_files s1 !! f = Some file1 -> af_core file1 = core ->
     wp m2 (fun (_ : unit) s' => inv W ext s' /\ adds f (reverse es2) s1 s') s1) ->
  wp (m1;; m2) (fun _ s' => inv W ext s' /\ adds f (reverse (es1 ++ es2)) s s') s.
Proof.
  intros Hf Ec H1 H2. apply wp_bind. eapply wp_mono; [|exact H1]. intros [] s1 [Hi1 Ha1].
  destruct (ad_file _ _ _ _ Ha1 file Hf) as (file1 & _ & Hf1 & Ec1 & _).
  eapply wp_mono; [|eapply H2; [done|done|congruence]]. intros [] s2 [Hi2 Ha2]. split; [done|].
  rewrite reverse_app. by eapply adds_trans.
Qed.

(** ** Adding a file *)

Lemma inv_upd_file W ext s f file file' :
  h_files s !! f = Some file -> af_acl file' = af_acl file -> af_name file' = af_name file ->
  inv W ext s -> inv W ext (s <| h_files ::= insert f file' |>).
Proof. intros Hf Ea En [Hm Hw]. split; [solve_minv|by eapply wf_upd_file]. Qed.

(** The file [f] of that name has the entries a parsed file gives, or fewer when
    memory ran out. *)
Definition granted (db : user_db) (exact : Prop) (name : string) (blob : bytes) (f : ptr) s : Prop :=
  exists file es, h_files s !! f = Some file /\ af_name file = name /\
    sublist es (reverse (file_entries db blob)) /\ (exact -> es = reverse (file_entries db blob)) /\
    entries_of s file = Some <$> es.

(** What adding the file [f] leaves alone *)
Record others (f : ptr) s s' : Prop := {
  ot_files : forall g, g <> f -> h_files s' !! g = h_files s !! g;
  ot_acls : forall p a, h_acls s !! p = Some a -> h_acls s' !! p = Some a;
  ot_vlist : ubusd_acl_files s' = ubusd_acl_files s;
  ot_alloc : os_alloc (os s) = [] -> os_alloc (os s') = [];
}.

Lemma others_trans f s1 s2 s3 : others f s1 s2 -> others f s2 s3 -> others f s1 s3.
Proof. intros [O1 K1 V1 A1] [O2 K2 V2 A2]. split; [intros; by rewrite O2, O1|by eauto|congruence|by eauto]. Qed.

Lemma adds_others f es s s' : adds f es s s' -> others f s s'.
Proof. intros [_ ? ? ? ?]. by split. Qed.

Definition file_new (name : string) (blob : bytes) : ubusd_acl_file := mk_acl_file name None None 0 0 blob [] 0.

(** Assignments to the file *)
Lemma ready_others f file1 s : others f s (s <| h_files ::= insert f file1 |>).
Proof. split; try done. intros g Hg. simpl. by rewrite lookup_insert_ne. Qed.

Lemma file_add_sections W ext db name blob f s0 s file1 tmpl :
  inv W ext s -> others f s0 s -> os s = os s0 -> h_files s !! f = Some file1 -> af_name file1 = name -> af_acl file1 = [] ->
  acl_template db blob = Some tmpl -> acl_obj_new file1 = tmpl ->
  let tb := acl_tb blob in
  wp (acl_for_each (tb "access"%string BLOBMSG_TYPE_TABLE) (ubusd_acl_add_access f);;
      acl_for_each (tb "subscribe"%string BLOBMSG_TYPE_ARRAY) (acl_if_string (ubusd_acl_add_subscribe f));;
      acl_for_each (tb "publish"%string BLOBMSG_TYPE_ARRAY) (acl_if_string (ubusd_acl_add_publish f));;
      acl_for_each (tb "listen"%string BLOBMSG_TYPE_ARRAY) (acl_if_string (ubusd_acl_add_listen f));;
      acl_for_each (tb "send"%string BLOBMSG_TYPE_ARRAY) (acl_if_string (ubusd_acl_add_send f)))
    (fun _ s' => inv W ext s' /\ others f s0 s' /\ granted db (os_alloc (os s0) = []) name blob f s') s.
Proof.
  intros Hi Ho Eos Hf En Ea Et <- tb.
  eapply wp_mono; [|eapply (wp_adds_seq W ext f (af_core file1) _ _ _ _ s file1 Hf eq_refl)].
  2:{ by eapply (acl_for_each_spec W ext f _ _ _ _ s file1); [apply add_access_spec|..]. }
  2:{ intros s1 f1 Hi1 Hf1 E1. eapply (wp_adds_seq W ext f (af_core file1)); [exact Hf1|exact E1| |].
      { by eapply acl_for_each_spec; [apply add_flag_spec|..]. }
      clear s1 f1 Hi1 Hf1 E1. intros s1 f1 Hi1 Hf1 E1. eapply (wp_adds_seq W ext f (af_core file1)); [exact Hf1|exact E1| |].
      { by eapply acl_for_each_spec; [apply add_flag_spec|..]. }
      clear s1 f1 Hi1 Hf1 E1. intros s1 f1 Hi1 Hf1 E1. eapply (wp_adds_seq W ext f (af_core file1)); [exact Hf1|exact E1| |].
      { by eapply acl_for_each_spec; [apply add_flag_spec|..]. }
      clear s1 f1 Hi1 Hf1 E1. intros s1 f1 Hi1 Hf1 E1. by eapply acl_for_each_spec; [apply add_flag_spec|..]. }
  intros [] s' [Hi' Ha]. split; [done|]. split; [eapply others_trans; [exact Ho|by eapply adds_others]|].
  destruct (ad_file _ _ _ _ Ha file1 Hf) as (file' & es & Hf' & Ec & Hsub & Hex & Hent). exists file', es.
  assert (file_entries db blob = section_entries (tb "access"%string BLOBMSG_TYPE_TABLE) (access_entry (acl_obj_new file1)) ++
    section_entries (tb "subscribe"%string BLOBMSG_TYPE_ARRAY) (flag_entry set_subscribe (acl_obj_new file1)) ++
    section_entries (tb "publish"%string BLOBMSG_TYPE_ARRAY) (flag_entry set_publish (acl_obj_new file1)) ++
    section_entries (tb "listen"%string BLOBMSG_TYPE_ARRAY) (flag_entry set_listen (acl_obj_new file1)) ++
    section_entries (tb "send"%string BLOBMSG_TYPE_ARRAY) (flag_entry set_send (acl_obj_new file1))) as E.
  { unfold file_entries. by rewrite Et. }
  rewrite E. split; [done|]. split; [exact (eq_trans (f_equal af_name Ec) En)|]. split; [done|].
  split; [rewrite <- Eos; done|]. rewrite Hent. unfold entries_of at 1. rewrite Ea. by rewrite app_nil_r.
Qed.

(** The sections of a file whose user or group has just been stored *)
Ltac file_sections :=
  eapply file_add_sections;
    [ repeat (eapply inv_upd_file; [first [eassumption|apply lookup_insert_eq]|done|done|]); eassumption
    | repeat (eapply others_trans; [|apply ready_others]); eassumption
    | eassumption
    | apply lookup_insert_eq
    | done
    | done
    | unfold acl_template;
      repeat match goal with H : acl_tb _ _ _ = _ |- _ => rewrite H; clear H end; reflexivity
    | unfold acl_obj_new; simpl;
      match goal with H : getpwnam _ _ = _ |- _ => rewrite H | H : getgrnam _ _ = _ |- _ => rewrite H end; reflexivity ].

Lemma file_add_spec W ext db name blob f s :
  inv W ext s -> h_files s !! f = Some (file_new name blob) ->
  wp (ubusd_acl_file_add db f) (fun _ s' => inv W ext s' /\ others f s s' /\
    granted db (os_alloc (os s) = []) name blob f s') s.
Proof.
  intros Hi Hf. unfold ubusd_acl_file_add. apply wp_bind. eapply wp_load; [exact Hf|].
  apply wp_bind. eapply wp_store; [exact Hf|]. simpl. set (file1 := mk_acl_file _ _ _ _ _ _ _ _). set (s1 := mk_ubusd _ _ _ _ _ _ _ _ _ _ _ _ _ _ _ _ _ _ _ _ _ _).
  assert (inv W ext s1) as Hi1 by exact (inv_upd_file W ext s f _ file1 Hf eq_refl eq_refl Hi).
  assert (others f s s1) as Ho1 by exact (ready_others f file1 s).
  assert (h_files s1 !! f = Some file1) as Hf1 by apply lookup_insert_eq.
  assert (os s1 = os s) as Eos1 by done. clearbody s1. apply wp_bind.
  destruct (acl_tb blob "user"%string BLOBMSG_TYPE_STRING) as [u|] eqn:Eu;
    [|destruct (acl_tb blob "group"%string BLOBMSG_TYPE_STRING) as [g|] eqn:Eg].
  - apply wp_bind. eapply wp_store; [exact Hf1|]. apply wp_bind. destruct (getpwnam db _) as [id|] eqn:Ei.
    + eapply wp_store; [apply lookup_insert_eq|]. apply wp_ret. file_sections.
    + apply wp_ret, wp_ret. file_sections.
  - apply wp_bind. eapply wp_store; [exact Hf1|]. apply wp_bind. destruct (getgrnam db _) as [id|] eqn:Ei.
    + eapply wp_store; [apply lookup_insert_eq|]. apply wp_ret. file_sections.
    + apply wp_ret, wp_ret. file_sections.
  - apply wp_ret, wp_ret. split; [done|]. split; [done|]. exists file1, [].
    assert (file_entries db blob = []) as -> by (unfold file_entries, acl_template; by rewrite Eu, Eg).
    by repeat split.
Qed.

(** ** Dropping a file *)

Record dropped (f : ptr) (gone : list ptr) s s' : Prop := {
  dr_files : h_files s' = delete f (h_files s);
  dr_acls : forall p, p ∉ gone -> h_acls s' !! p = h_acls s !! p;
  dr_vlist : ubusd_acl_files s' = ubusd_acl_files s;
  dr_os : os s' = os s;
}.

Lemma file_free_spec W ext f file s :
  inv (W <| wk_files ::= cons f |>) ext s -> h_files s !! f = Some file ->
  wp (ubusd_acl_file_free f) (fun _ s' => inv W ext s' /\ dropped f (af_acl file) s s') s.
Proof.
  intros Hi Hf. unfold ubusd_acl_file_free. apply wp_bind. eapply wp_load; [done|]. apply wp_bind.
  set (W' := W <| wk_files ::= cons f |>) in *.
  eapply wp_mono; [|apply (wp_for_each (fun todo s1 => inv W' ext s1 /\
    h_files s1 = <[f := file <| af_acl := todo |>]> (h_files s) /\
    (forall p, p ∉ af_acl file -> h_acls s1 !! p = h_acls s !! p) /\ ubusd_acl_files s1 = ubusd_acl_files s /\
    os s1 = os s /\ (forall p, p ∈ todo -> p ∈ af_acl file)))].
  - intros [] s1 ([Hm1 Hw1] & Ef & Ea & Ev & Eo & _). assert (h_files s1 !! f = Some (file <| af_acl := [] |>)) as Hf1.
    { rewrite Ef. apply lookup_insert_eq. }
    eapply wp_free; [exact Hf1|]. split; [split; [solve_minv|by eapply wf_drop_file]|]. split; [|done..].
    simpl. rewrite Ef. apply delete_insert_eq.
  - intros p todo s1 ([Hm1 Hw1] & Ef & Ea & Ev & Eo & Hin).
    assert (h_files s1 !! f = Some (file <| af_acl := p :: todo |>)) as Hf1 by (rewrite Ef; apply lookup_insert_eq).
    destruct (fo_live _ _ (wf_files _ _ Hw1) f _ p Hf1) as [a Ha]; [simpl; by left|].
    pose proof (fo_nodup _ _ (wf_files _ _ Hw1) f _ Hf1) as Hnd. simpl in Hnd.
    apply wp_bind. eapply wp_load; [exact Ha|]. apply wp_bind.
    eapply wp_tree_delete; [reflexivity|exact (wf_acls _ _ Hw1)|by apply fmap_Some_1|].
    apply wp_bind. eapply wp_store; [exact Hf1|]. eapply wp_free; [exact Ha|].
    split; [|split; [|split; [|split; [done|split; [done|]]]]].
    + split; [solve_minv|]. apply (wf_del_acl W' s1 f _ p a Hf1 Ha); [simpl; by left|done].
    + simpl. rewrite Ef, insert_insert_eq. f_equal. by rewrite list_del_head.
    + intros q Hq. simpl. rewrite lookup_delete_ne; [by apply Ea|]. intros <-. apply Hq, Hin. by left.
    + intros q Hq. apply Hin. by right.
  - split; [done|]. split; [|done]. symmetry. apply insert_id. rewrite Hf. by destruct file.
Qed.

(** ** Loading one file *)

Lemma granted_others db ex name blob f f' s s' :
  others f s s' -> f' <> f -> granted db ex name blob f' s -> granted db ex name blob f' s'.
Proof.
  intros [Of Oa _ _] Hne (file & es & Hf & En & Hsub & Hex & Hent). exists file, es.
  rewrite (Of f' Hne). repeat (split; [done|]). unfold entries_of in *. revert es Hsub Hex Hent.
  generalize (reverse (file_entries db blob)) as all. intros all es _ _ Hent. revert es Hent.
  induction (af_acl file) as [|p l IH]; intros [|e es] Hent; try done. injection Hent as Hp Hent.
  rewrite !fmap_cons. f_equal; [by apply Oa|by apply IH].
Qed.

Lemma granted_dropped db ex name blob f f' file s s' :
  files_ok (h_files s) (h_acls s) -> h_files s !! f = Some file -> dropped f (af_acl file) s s' -> f' <> f ->
  granted db ex name blob f' s -> granted db ex name blob f' s'.
Proof.
  intros Hok Hf [Df Da _ _] Hne (file' & es & Hf' & En & Hsub & Hex & Hent). exists file', es.
  rewrite Df, lookup_delete_ne by done. repeat (split; [done|]). rewrite <- Hent.
  apply list_fmap_ext. intros i p Hp. apply Da. intros Hp'. apply Hne.
  eapply (fo_one _ _ Hok f' file' f file p); [done..|by eapply list_elem_of_lookup_2|done].
Qed.

(** The list before and after: the file is linked in place of its namesake. *)
Lemma vlist_add_cases (t : vlist_tree ptr) held hf name f :
  vlist_ok (vlist_nodes t) held hf ->
  exists old l t', vlist_add t name f = (fst <$> old, t') /\
    vlist_nodes t ≡ₚ (match old with Some (g, b) => [(name, g, b)] | None => [] end) ++ l /\
    name ∉ l.*1.*1 /\ vlist_nodes t' ≡ₚ (name, f, true) :: l.
Proof.
  intros Hok. destruct (decide (name ∈ (vlist_nodes t).*1.*1)) as [Hin|Hni].
  - apply list_elem_of_fmap in Hin as ([k g] & Ek & Hin). simpl in Ek. subst k.
    apply list_elem_of_fmap in Hin as ([[k g'] b] & [= <- <-] & Hin).
    apply list_elem_of_split in Hin as (l1 & l2 & Hl).
    assert (vlist_nodes t ≡ₚ (name, g, b) :: l1 ++ l2) as Hp by (rewrite Hl; symmetry; apply Permutation_middle).
    assert (name ∉ (l1 ++ l2).*1.*1) as Hni.
    { pose proof (vo_names _ _ _ Hok) as Hnd. rewrite Hp, !fmap_cons in Hnd. by apply NoDup_cons in Hnd as []. }
    destruct (vlist_add_old _ t name f g b _ Hp Hni) as (t' & E & Ht'). exists (Some (g, b)), (l1 ++ l2), t'. done.
  - destruct (vlist_add_new _ t name f Hni) as (t' & E & Ht'). by exists None, (vlist_nodes t), t'.
Qed.

(** The files of the nodes [l] still grant what they did. *)
Definition keeps_granted (l : list (string * ptr * bool)) s s' : Prop :=
  forall db ex name blob f, (name, f) ∈ l.*1 -> granted db ex name blob f s -> granted db ex name blob f s'.

Record file_loaded db (name : string) (blob : bytes) s s' : Prop := {
  fl_alloc : os_alloc (os s) = [] -> os_alloc (os s') = [];
  fl_nodes : exists f old l,
    vlist_nodes (ubusd_acl_files s) ≡ₚ (match old with Some (g, b) => [(name, g, b)] | None => [] end) ++ l /\
    vlist_nodes (ubusd_acl_files s') ≡ₚ (name, f, true) :: l /\ name ∉ l.*1.*1 /\
    granted db (os_alloc (os s) = []) name blob f s' /\
    keeps_granted l s s';
}.

(** The state in which the file has been allocated and linked. *)
Record file_linked W ext (name : string) (blob : bytes) (f : ptr) (old : option (ptr * bool))
    (l : list (string * ptr * bool)) s s1 : Prop := {
  ln_inv : inv (W <| wk_files := opt_list (fst <$> old) |>) ext s1;
  ln_before : vlist_nodes (ubusd_acl_files s) ≡ₚ (match old with Some (g, b) => [(name, g, b)] | None => [] end) ++ l;
  ln_after : vlist_nodes (ubusd_acl_files s1) ≡ₚ (name, f, true) :: l;
  ln_name : name ∉ l.*1.*1;
  ln_nodes : f ∉ l.*1.*2;
  ln_file : h_files s1 !! f = Some (file_new name blob);
  ln_kept : keeps_granted l s s1;
  ln_alloc : os_alloc (os s) = [] -> os_alloc (os s1) = [];
}.

Lemma link_file W ext name blob o t' f old l s :
  wk_files W = [] -> inv W ext s -> f = brk s -> (os_alloc (os s) = [] -> os_alloc o = []) ->
  vlist_nodes (ubusd_acl_files s) ≡ₚ (match old with Some (g, b) => [(name, g, b)] | None => [] end) ++ l ->
  name ∉ l.*1.*1 -> vlist_nodes t' ≡ₚ (name, f, true) :: l ->
  file_linked W ext name blob f old l s
    (s <| os := o |> <| brk ::= Pos.succ |> <| h_files ::= insert f (file_new name blob) |> <| ubusd_acl_files := t' |>).
Proof.
  intros HW [Hm Hw] -> Ho Hl Hni Ht'. set (f := brk s) in *.
  assert (h_files s !! f = None) as Hf by (apply (fresh_files _ (minv_fresh _ _ Hm)); subst f; lia).
  assert (Hnodes := vlist_link _ _ _ old _ f (file_new name blob) l Hf Hl Hni Ht' (wf_vlist _ _ Hw)).
  rewrite HW, app_nil_r in Hnodes. split; try done.
  - split; [solve_minv|]. destruct Hw. split; try done. by apply (files_new _ _ f (file_new name blob)).
  - intros Hin. assert (f ∈ (vlist_nodes (ubusd_acl_files s)).*1.*2) as Hn.
    { rewrite Hl, !fmap_app, elem_of_app. by right. }
    apply list_elem_of_fmap in Hn as ([k g] & Eg & Hn). simpl in Eg. subst g.
    destruct (vo_node _ _ _ (wf_vlist _ _ Hw) _ _ Hn) as (x & Hx & _). congruence.
  - apply lookup_insert_eq.
  - intros db ex name' blob' f' _ (file & es & Hff & H). exists file, es.
    split; [simpl; rewrite lookup_insert_ne; [done|congruence]|done].
Qed.

(** The namesake goes. *)
Lemma unlink_old W ext name blob f old l s s1 :
  wk_files W = [] -> file_linked W ext name blob f old l s s1 ->
  wp (match fst <$> old with Some file => ubusd_acl_file_free file | None => mret tt end)
    (fun _ s2 => inv W ext s2 /\ h_files s2 !! f = Some (file_new name blob) /\ keeps_granted l s s2 /\
       ubusd_acl_files s2 = ubusd_acl_files s1 /\ os s2 = os s1) s1.
Proof.
  intros HW [Hi Hb Ha Hni Hfl Hf Hk Hal]. destruct old as [[g b]|]; simpl in *.
  2:{ apply wp_ret. rewrite <- HW in Hi. split; [by destruct W|done]. }
  pose proof (inv_wf _ _ _ Hi) as Hw. pose proof (vo_once _ _ _ (wf_vlist _ _ Hw)) as Hnd.
  simpl in Hnd. rewrite Ha, !fmap_cons, Permutation_app_comm in Hnd. simpl in Hnd.
  apply NoDup_cons in Hnd as [Hg _]. rewrite not_elem_of_cons in Hg. destruct Hg as [Hgf Hgl].
  destruct (proj2 (vo_all _ _ _ (wf_vlist _ _ Hw) g)) as [file Hfile]; [simpl; apply elem_of_app; right; by left|].
  eapply wp_mono; [|apply (file_free_spec W ext g file s1)]; [|by rewrite <- HW in Hi; destruct W|done].
  intros [] s2 [Hi2 Hd]. split; [done|]. split; [|split; [|split; apply Hd]].
  - rewrite (dr_files _ _ _ _ Hd), lookup_delete_ne; done.
  - intros db ex name' blob' f' Hin Hgr. eapply (granted_dropped _ _ _ _ g f' file s1); [apply Hw|done..| |by apply Hk].
    intros ->. apply Hgl. apply list_elem_of_fmap. by exists (name', g).
Qed.

Lemma load_file_spec W ext db name puts s :
  wk_files W = [] -> inv W ext s ->
  wp (ubusd_acl_load_file db name (Some puts)) (fun _ s' => inv W ext s' /\
    ((exists o, s' = s <| os := o |> /\ os_alloc (os s) <> []) \/ file_loaded db name (blob_render puts) s s')) s.
Proof.
  intros HW Hi. unfold ubusd_acl_load_file. apply wp_bind, wp_alloc_os; intros o Ho.
  { apply wp_ret. split; [|left; eauto]. destruct Hi. split; [by apply minv_os|by apply wf_os]. }
  apply wp_bind, wp_gets. simpl. set (f := brk s).
  destruct (vlist_add_cases (ubusd_acl_files s) _ _ name f (wf_vlist _ _ (inv_wf _ _ _ Hi))) as (old & l & t' & E & Hl & Hni & Ht').
  rewrite E. apply wp_bind, wp_modify. apply wp_bind. unfold ubusd_acl_update_cb.
  pose proof (link_file W ext name (blob_render puts) o t' f old l s HW Hi eq_refl Ho Hl Hni Ht') as Hln.
  apply wp_bind. eapply wp_mono; [|eapply (unlink_old W ext _ _ f old l s); [done|exact Hln]].
  intros [] s2 (Hi2 & Hf2 & Hk2 & Ev2 & Eo2). eapply wp_mono; [|by eapply file_add_spec].
  intros [] s3 (Hi3 & Ho3 & Hg3). apply wp_ret. split; [done|]. right. split.
  - intros Ha. apply (ot_alloc _ _ _ Ho3). rewrite Eo2. by apply Ho.
  - exists f, old, l. rewrite (ot_vlist _ _ _ Ho3), Ev2. split; [done|]. split; [done|]. split; [done|]. split.
    + destruct Hg3 as (file & es & H1 & H2 & H3 & H4 & H5). exists file, es. repeat (split; [done|]). split; [|done].
      intros Ha. apply H4. rewrite Eo2. by apply Ho.
    + intros db' ex name' blob' f' Hin Hgr. eapply granted_others; [exact Ho3| |by apply Hk2].
      intros ->. apply (ln_nodes _ _ _ _ _ _ _ _ _ Hln). apply list_elem_of_fmap. by exists (name', f).
Qed.

(** ** Loading the directory *)

(** A regular file of user and group root, without the permission bits of
    writing for the group (bit 4), writing for others (bit 1) and executing for
    others (bit 0). *)
Definition root_only (st : option stat_info) : Prop :=
  exists i, st = Some i /\ st_isreg i = true /\ (st_uid i = 0)%Z /\ (st_gid i = 0)%Z /\
    forall bit, bit ∈ [0; 1; 4]%Z -> Z.testbit (st_mode i) bit = false.

Lemma bad_mode_bits n : (0 <= n)%Z -> Z.testbit bad_mode n = bool_decide (n ∈ [0; 1; 4]%Z).
Proof.
  intros Hn. destruct (decide (n < 5)%Z) as [Hl|Hl].
  - assert (n = 0 \/ n = 1 \/ n = 2 \/ n = 3 \/ n = 4)%Z as [->|[->|[->|[->| ->]]]] by lia; vm_compute; reflexivity.
  - rewrite bool_decide_false by set_solver by lia. apply Z.bits_above_log2; [done|]. change (Z.log2 bad_mode) with 4%Z. lia.
Qed.

Lemma acl_file_trusted_iff st : acl_file_trusted st = true <-> root_only st.
Proof.
  unfold acl_file_trusted, root_only. destruct st as [i|]; [|split; [done|by intros (? & ? & _)]].
  assert ((Z.land (st_mode i) bad_mode = 0)%Z <-> forall bit, bit ∈ [0; 1; 4]%Z -> Z.testbit (st_mode i) bit = false) as Hb.
  { split.
    - intros E bit Hin. assert (0 <= bit)%Z as Hp by set_solver by lia.
      apply (f_equal (fun z => Z.testbit z bit)) in E. rewrite Z.land_spec, bad_mode_bits, Z.bits_0 in E by done.
      rewrite bool_decide_true in E by done. by rewrite andb_true_r in E.
    - intros H. apply Z.bits_inj'. intros n Hn. rewrite Z.land_spec, bad_mode_bits, Z.bits_0 by done.
      case_bool_decide as Hin; [by rewrite (H n Hin)|apply andb_false_r]. }
  destruct (st_isreg i) eqn:Hr; simpl; [|split; [done|by intros (? & [= <-] & ? & _); congruence]].
  destruct (Z.eqb_spec (st_uid i) 0); simpl; [|split; [done|by intros (? & [= <-] & _ & ? & _)]].
  destruct (Z.eqb_spec (st_gid i) 0); simpl; [|split; [done|by intros (? & [= <-] & _ & _ & ? & _)]].
  destruct (Z.eqb_spec (Z.land (st_mode i) bad_mode) 0) as [E|E]; simpl.
  - split; [|done]. intros _. exists i. repeat (split; [done|]). by apply Hb.
  - split; [done|]. intros (? & [= <-] & _ & _ & _ & H). by apply Hb in H.
Qed.

(** One of the directory's files is trusted and parses. *)
Definition trusted_entry (entries : list dir_entry) (e : dir_entry) (puts : list put) : Prop :=
  e ∈ entries /\ root_only (de_stat e) /\ de_json e = Some puts.

Lemma trusted_entry_app l l' e puts :
  trusted_entry (l ++ l') e puts <-> trusted_entry l e puts \/ trusted_entry l' e puts.
Proof. unfold trusted_entry. rewrite elem_of_app. tauto. Qed.

(** The files of this version come from the entries seen so far, and if memory
    suffices all of them are there. *)
Record loading db (seen : list dir_entry) (ex : Prop) s : Prop := {
  lg_new : forall k f, (k, f, true) ∈ vlist_nodes (ubusd_acl_files s) ->
    exists e puts, trusted_entry seen e puts /\ de_path e = k /\ granted db ex k (blob_render puts) f s;
  lg_all : ex -> NoDup (de_path <$> seen) -> forall e puts, trusted_entry seen e puts ->
    exists f, (de_path e, f, true) ∈ vlist_nodes (ubusd_acl_files s);
  lg_alloc : ex -> os_alloc (os s) = [];
}.

Lemma loading_skip db seen ex e s s' :
  (forall puts, trusted_entry [e] e puts -> ~ ex) -> h_files s' = h_files s -> h_acls s' = h_acls s ->
  ubusd_acl_files s' = ubusd_acl_files s -> (ex -> os_alloc (os s') = []) ->
  loading db seen ex s -> loading db (seen ++ [e]) ex s'.
Proof.
  intros He Ef Ea Ev Eo [Hnew Hall _]. split; [| |done]; rewrite Ev.
  - intros k f Hin. destruct (Hnew k f Hin) as (e' & puts & Ht & Hk & Hg). exists e', puts. split; [|split; [done|]].
    + apply trusted_entry_app. by left.
    + unfold granted, entries_of in *. by rewrite Ef, Ea.
  - intros Hex Hnd e' puts [Ht|Ht]%trusted_entry_app.
    + apply (Hall Hex) in Ht; [done|]. rewrite fmap_app in Hnd. by apply NoDup_app in Hnd as [].
    + pose proof Ht as (Hin%list_elem_of_singleton & _). subst e'. by destruct (He puts Ht).
Qed.

Lemma loading_step db seen (ex : Prop) e puts s s' :
  root_only (de_stat e) -> de_json e = Some puts ->
  file_loaded db (de_path e) (blob_render puts) s s' -> loading db seen ex s -> loading db (seen ++ [e]) ex s'.
Proof.
  intros Htr Hj [Hal (f & old & l & Hb & Ha & Hni & Hg & Hk)] [Hnew Hall Hex]. split; [| |by auto].
  - intros k f'. rewrite Ha, elem_of_cons. intros [[= -> ->]|Hin].
    + exists e, puts. split; [|split; [done|]].
      * apply trusted_entry_app. right. split; [by apply list_elem_of_singleton|done].
      * destruct Hg as (file & es & H1 & H2 & H3 & H4 & H5). exists file, es. repeat (split; [done|]). auto.
    + destruct (Hnew k f') as (e' & puts' & Ht' & Hk' & Hg'); [rewrite Hb; apply elem_of_app; by right|].
      exists e', puts'. split; [apply trusted_entry_app; by left|]. split; [done|]. apply Hk; [|done].
      apply list_elem_of_fmap. by exists (k, f', true).
  - intros He Hnd e' puts' Ht. rewrite fmap_app in Hnd. apply NoDup_app in Hnd as (Hnd & Hdis & _).
    apply trusted_entry_app in Ht as [Ht|[Hin%list_elem_of_singleton _]].
    + destruct (Hall He Hnd e' puts' Ht) as [f' Hf']. exists f'. rewrite Hb, elem_of_app in Hf'. rewrite Ha, elem_of_cons. right.
      destruct Hf' as [Hf'|]; [|done]. destruct (Hdis (de_path e')); [by apply list_elem_of_fmap_2, Ht|].
      destruct old as [[g b]|]; [|by apply not_elem_of_nil in Hf']. apply list_elem_of_singleton in Hf'.
      injection Hf' as -> _ _. by apply list_elem_of_singleton.
    + subst e'. exists f. rewrite Ha. by left.
Qed.

Lemma load_dir_spec W ext db entries ex s :
  wk_files W = [] -> inv W ext s -> loading db [] ex s ->
  wp (for_each entries (fun e =>
        if acl_file_trusted (de_stat e) then _ ← ubusd_acl_load_file db (de_path e) (de_json e); mret tt
        else mret tt)) (fun _ s' => inv W ext s' /\ loading db entries ex s') s.
Proof.
  intros HW Hi Hl.
  eapply wp_mono; [|apply (wp_for_each (fun todo s1 => inv W ext s1 /\ exists seen, entries = seen ++ todo /\ loading db seen ex s1))].
  - intros [] s1 (Hi1 & seen & -> & Hl1). by rewrite app_nil_r.
  - intros e todo s1 (Hi1 & seen & -> & Hl1).
    assert (forall s2, inv W ext s2 -> loading db (seen ++ [e]) ex s2 ->
      inv W ext s2 /\ exists seen', seen ++ e :: todo = seen' ++ todo /\ loading db seen' ex s2) as Hnext.
    { intros s2 Hi2 Hl2. split; [done|]. exists (seen ++ [e]). by rewrite <- app_assoc. }
    destruct (acl_file_trusted (de_stat e)) eqn:Htr.
    2:{ apply wp_ret, Hnext; [done|]. eapply (loading_skip _ _ _ _ s1); try done; [|apply Hl1].
        intros puts (_ & H%acl_file_trusted_iff & _). congruence. }
    apply acl_file_trusted_iff in Htr.
    apply wp_bind. destruct (de_json e) as [puts|] eqn:Ej.
    2:{ apply wp_ret, wp_ret, Hnext; [done|]. eapply (loading_skip _ _ _ _ s1); try done; [|apply Hl1].
        intros puts (_ & _ & H). congruence. }
    eapply wp_mono; [|by apply (load_file_spec W ext)]. intros r s2 [Hi2 H]. apply wp_ret, Hnext; [done|].
    destruct H as [(o & -> & Hne)|H]; [|by eapply loading_step].
    eapply (loading_skip _ _ _ _ s1); try done; intros; [intros Hex|]; by destruct Hne; apply (lg_alloc _ _ _ _ Hl1).
  - split; [done|]. by exists [].
Qed.

Lemma inv_vlist W W' ext t s :
  W' = W <| wk_files := wk_files W' |> -> vlist_ok (vlist_nodes t) (wk_files W') (h_files s) -> inv W ext s ->
  inv W' ext (s <| ubusd_acl_files := t |>).
Proof. intros -> Hv [Hm Hw]. split; [solve_minv|]. destruct Hw. by split. Qed.

Lemma filter_nodes_perm {A} (l : list (A * bool)) :
  l.*1 ≡ₚ (filter (fun e => e.2 = false) l).*1 ++ (filter (fun e => e.2 = true) l).*1.
Proof.
  induction l as [|[a b] l IH]; [done|]. rewrite !filter_cons. simpl.
  destruct b; repeat case_decide; try done; simpl; rewrite IH at 1; [apply Permutation_middle|done].
Qed.

(** The stale files go; those of this version stay. *)
Lemma drop_stale_spec W ext db nodes stale s :
  wk_files W = [] -> inv (W <| wk_files := stale |>) ext s -> vlist_nodes (ubusd_acl_files s) = nodes ->
  wp (for_each stale (fun f => ubusd_acl_update_cb db None (Some f))) (fun _ s' =>
    inv W ext s' /\ ubusd_acl_files s' = ubusd_acl_files s /\ keeps_granted nodes s s' /\ os s' = os s) s.
Proof.
  intros HW Hi En.
  eapply wp_mono; [|apply (wp_for_each (fun todo s1 => inv (W <| wk_files := todo |>) ext s1 /\
    ubusd_acl_files s1 = ubusd_acl_files s /\ keeps_granted nodes s s1 /\ os s1 = os s))].
  - intros [] s1 (Hi1 & H). split; [|done]. rewrite <- HW in Hi1. by destruct W.
  - intros f todo s1 (Hi1 & Ev & Hk & Eo). pose proof (inv_wf _ _ _ Hi1) as Hw.
    destruct (proj2 (vo_all _ _ _ (wf_vlist _ _ Hw) f)) as [file Hf]; [simpl; apply elem_of_app; right; by left|].
    unfold ubusd_acl_update_cb. apply wp_bind.
    eapply wp_mono; [|by apply (file_free_spec (W <| wk_files := todo |>) ext f file s1)].
    intros [] s2 [Hi2 Hd]. apply wp_ret. split; [done|]. split; [by rewrite (dr_vlist _ _ _ _ Hd)|].
    split; [|by rewrite (dr_os _ _ _ _ Hd)]. intros db' ex name blob f' Hin Hg.
    eapply (granted_dropped _ _ _ _ f f' file s1); [apply Hw|done..| |by apply Hk].
    intros ->. pose proof (vo_once _ _ _ (wf_vlist _ _ Hw)) as Hnd. simpl in Hnd. rewrite Ev, En in Hnd.
    rewrite <- Permutation_middle in Hnd. apply NoDup_cons in Hnd as [Hni _]. apply Hni, elem_of_app. left.
    apply list_elem_of_fmap. by exists (name, f).
  - split; [exact Hi|]. split; [done|]. split; [|done]. by intros db' ex name blob f Hin Hg.
Qed.

(** What the access list holds, from the files *)
Lemma granted_entry db ex name blob f file p a s :
  granted db ex name blob f s -> h_files s !! f = Some file -> p ∈ af_acl file -> h_acls s !! p = Some a ->
  a ∈ file_entries db blob.
Proof.
  intros (file' & es & Hf' & _ & Hsub & _ & Hent) Hf Hp Ha. rewrite Hf in Hf'. injection Hf' as <-.
  assert (Some a ∈ entries_of s file) as Hin. { apply list_elem_of_fmap. by exists p. }
  rewrite Hent in Hin. apply list_elem_of_fmap in Hin as (a' & [= <-] & Hin).
  apply sublist_submseteq in Hsub. apply (elem_of_submseteq _ _ _ Hin) in Hsub. by apply elem_of_reverse.
Qed.

Lemma granted_exact db (ex : Prop) name blob f a s :
  granted db ex name blob f s -> ex -> a ∈ file_entries db blob -> exists p, h_acls s !! p = Some a.
Proof.
  intros (file & es & _ & _ & _ & Hex & Hent) He Ha. assert (Some a ∈ entries_of s file) as Hin.
  { rewrite Hent, (Hex He). apply list_elem_of_fmap_2. by apply elem_of_reverse. }
  apply list_elem_of_fmap in Hin as (p & Hp & _). eauto.
Qed.

(** The access list is what the trusted files grant. *)
Record list_from db (entries : list dir_entry) (ex : Prop) s : Prop := {
  lf_sound : forall p a, h_acls s !! p = Some a ->
    exists e puts, trusted_entry entries e puts /\ a ∈ file_entries db (blob_render puts);
  lf_complete : ex -> NoDup (de_path <$> entries) -> forall e puts a, trusted_entry entries e puts ->
    a ∈ file_entries db (blob_render puts) -> exists p, h_acls s !! p = Some a;
}.

Lemma loading_list W ext db entries ex s :
  wk_files W = [] -> inv W ext s -> loading db entries ex s ->
  (forall k f b, (k, f, b) ∈ vlist_nodes (ubusd_acl_files s) -> b = true) -> list_from db entries ex s.
Proof.
  intros HW [_ Hw] [Hnew Hall _] Htrue. split.
  - intros p a Ha. destruct (fo_owned _ _ (wf_files _ _ Hw) p) as (f & file & Hf & Hp); [eauto|].
    assert (f ∈ (vlist_nodes (ubusd_acl_files s)).*1.*2) as Hin.
    { pose proof (proj1 (vo_all _ _ _ (wf_vlist _ _ Hw) f) (mk_is_Some _ _ Hf)) as H. by rewrite HW, app_nil_r in H. }
    apply list_elem_of_fmap in Hin as ([k f'] & [= <-] & Hin). apply list_elem_of_fmap in Hin as ([[k' f'] b] & [= <- <-] & Hin).
    rewrite (Htrue _ _ _ Hin) in Hin. destruct (Hnew k f Hin) as (e & puts & Ht & _ & Hg).
    exists e, puts. split; [done|]. by eapply granted_entry.
  - intros He Hnd e puts a Ht Ha. destruct (Hall He Hnd e puts Ht) as [f Hf]. destruct (Hnew _ _ Hf) as (e' & puts' & Ht' & Ep & Hg).
    assert (e' = e) as ->.
    { destruct (proj1 (list_elem_of_lookup _ _) (proj1 Ht)) as [i Hi].
      destruct (proj1 (list_elem_of_lookup _ _) (proj1 Ht')) as [j Hj].
      assert (i = j) as <-; [|congruence]. eapply NoDup_lookup; [exact Hnd|..]; rewrite list_lookup_fmap.
      - by rewrite Hi.
      - by rewrite Hj, <- Ep. }
    destruct Ht as (_ & _ & Hj), Ht' as (_ & _ & Hj'). rewrite Hj in Hj'. injection Hj' as <-. by eapply granted_exact.
Qed.

Lemma fills_sequence s0 id : fills s0 (ubusd_create_sequence_event_msg id).
Proof.
  intros ext s Hm Hr. unfold ubusd_create_sequence_event_msg. apply wp_bind, wp_gets. by apply (fills_from_blob s0).
Qed.

Lemma flush_spec W ext db entries ex s :
  wk_files W = [] -> inv W ext s -> loading db entries ex s ->
  wp (flush_files db) (fun _ s' => inv W ext s' /\ list_from db entries ex s') s.
Proof.
  intros HW Hi Hl. unfold flush_files. apply wp_bind, wp_gets.
  destruct (vlist_flush_spec _ (ubusd_acl_files s)) as (t' & E & Ht'). rewrite E. apply wp_bind, wp_modify.
  set (stale := (filter _ _).*1.*2). set (s1 := s <| ubusd_acl_files := t' |>).
  assert (inv (W <| wk_files := stale |>) ext s1) as Hi1.
  { apply (inv_vlist W); [done| |done]. simpl.
    pose proof (vlist_unlink _ (vlist_nodes t') (wk_files W) _ _ ltac:(rewrite Ht'; apply filter_nodes_perm) (wf_vlist _ _ (inv_wf _ _ _ Hi))) as H.
    by rewrite HW, app_nil_r in H. }
  eapply wp_mono; [|by apply (drop_stale_spec W ext db (vlist_nodes t') stale s1)].
  intros [] s2 (Hi2 & Ev & Hk & Eo). split; [done|]. eapply loading_list; [exact HW|done| |].
  - destruct Hl as [Hnew Hall Hal]. split; [| |by rewrite Eo]; rewrite Ev; simpl; rewrite Ht'.
    + intros k f [_ Hin]%list_elem_of_filter. destruct (Hnew k f Hin) as (e & puts & Ht & Ep & Hg). exists e, puts.
      split; [done|]. split; [done|]. apply Hk; [|exact Hg]. apply list_elem_of_fmap. exists (k, f, true).
      split; [done|]. rewrite Ht'. by apply list_elem_of_filter.
    + intros He Hnd e puts Ht. destruct (Hall He Hnd e puts Ht) as [f Hf]. exists f. by apply list_elem_of_filter.
  - rewrite Ev. simpl. rewrite Ht'. intros k f b [Hb _]%list_elem_of_filter. exact Hb.
Qed.

(** ** Loading touches nothing but the rules *)

(** The bus without its rules *)
Definition bus_rest s : bus := bus_of s <| bus_rules := [] |>.

Lemma pres_drop_acl k p : preserves bus_rest (tree_delete ubusd_acls upd_acls k p).
Proof. intros s a s'. unfold tree_delete. destruct (linked _ _ _); [|done]. by intros [= _ <-]. Qed.
#[local] Hint Resolve pres_drop_acl : pres.

Lemma pres_file_free f : preserves bus_rest (ubusd_acl_file_free f).
Proof. unfold ubusd_acl_file_free. solve_pres. Qed.
#[local] Hint Resolve pres_file_free : pres.

Lemma pres_alloc_obj f obj : preserves bus_rest (ubusd_acl_alloc_obj f obj).
Proof. unfold ubusd_acl_alloc_obj. solve_pres. Qed.
#[local] Hint Resolve pres_alloc_obj : pres.

Lemma pres_add_access f obj : preserves bus_rest (ubusd_acl_add_access f obj).
Proof. unfold ubusd_acl_add_access. solve_pres. Qed.

Lemma pres_add_flag set f obj : preserves bus_rest (acl_add_flag set f obj).
Proof. unfold acl_add_flag. solve_pres. Qed.
#[local] Hint Resolve pres_add_access pres_add_flag : pres.

Lemma pres_file_add db f : preserves bus_rest (ubusd_acl_file_add db f).
Proof.
  unfold ubusd_acl_file_add, acl_for_each, acl_if_string, ubusd_acl_add_subscribe, ubusd_acl_add_publish,
    ubusd_acl_add_listen, ubusd_acl_add_send. solve_pres.
Qed.
#[local] Hint Resolve pres_file_add : pres.

Lemma pres_load_dir db entries :
  preserves bus_rest (for_each entries (fun e =>
    if acl_file_trusted (de_stat e) then _ ← ubusd_acl_load_file db (de_path e) (de_json e); mret tt else mret tt)).
Proof. unfold ubusd_acl_load_file, ubusd_acl_update_cb. solve_pres. Qed.

Lemma pres_flush db : preserves bus_rest (flush_files db).
Proof. unfold flush_files, ubusd_acl_update_cb. solve_pres. Qed.

(** ** The rules after a load *)

(** The rules are what the trusted files grant, all of it if memory suffices
    ([ex]); nothing else changes. *)
Record rules_loaded db (entries : list dir_entry) (ex : Prop) (b b' : bus) : Prop := {
  rl_rest : b' = b <| bus_rules := bus_rules b' |>;
  rl_sound : forall key a, (key, a) ∈ bus_rules b' -> key = acl_key a /\
    exists e puts, trusted_entry entries e puts /\ a ∈ file_entries db (blob_render puts);
  rl_complete : ex -> NoDup (de_path <$> entries) -> forall e puts a, trusted_entry entries e puts ->
    a ∈ file_entries db (blob_render puts) -> (acl_key a, a) ∈ bus_rules b';
}.

Lemma rules_acls W s key a : wf W s -> (key, a) ∈ rules_of s <-> key = acl_key a /\ exists p, h_acls s !! p = Some a.
Proof.
  intros Hw. unfold rules_of. rewrite list_elem_of_omap. split.
  - intros ([k p] & Hin & E). simpl in E. destruct (h_acls s !! p) as [x|] eqn:Hp; [|done]. injection E as -> ->.
    split; [|eauto]. apply (tree_in _ _ (wf_acls _ _ Hw)) in Hin. rewrite lookup_fmap, Hp in Hin. by injection Hin.
  - intros [-> [p Hp]]. exists (acl_key a, p). simpl. rewrite Hp. split; [|done].
    apply (tree_in _ _ (wf_acls _ _ Hw)). by rewrite lookup_fmap, Hp.
Qed.

(** The check decides what the rules say. *)
Lemma acl_check_allowed W s cl name method type :
  wf W s -> is_Some (h_clients s !! cl) -> (type = UBUS_ACL_ACCESS -> is_Some method) ->
  exists r, ubusd_acl_check (Some cl) (Some name) method type s = Some (r, s) /\ (r = 0 \/ r = -1)%Z /\
    (r = 0%Z <-> allowed (bus_of s) cl name method type).
Proof.
  intros Hw [c Hc] Hm. pose proof (bus_user s cl c Hc) as Hu.
  destruct (Z.eqb_spec (cl_uid c) 0) as [E|Hne].
  - exists 0%Z. split; [|split; [by left|split; [|done]]].
    + unfold ubusd_acl_check, mbind, stm_bind, load. simpl. by rewrite Hc, E.
    + intros _. exists (cred_of c). split; [done|by left].
  - destruct (acl_check_spec W s cl c name method type Hw Hc Hne Hm) as (r & E & Hr & Hiff). exists r.
    split; [done|]. split; [done|]. rewrite Hiff. split.
    + intros (p & acl & Hp & Hpath & Hcr & Hal). exists (cred_of c). split; [done|]. right. exists (acl_key acl), acl.
      split; [apply (rules_acls W); [done|eauto]|done].
    + intros (u & Hu' & [H|(key & acl & Hin & Hpath & Hcr & Hal)]); rewrite Hu in Hu'; injection Hu' as <-; [done|].
      apply (rules_acls W) in Hin as [-> [p Hp]]; [|done]. by exists p, acl.
Qed.

Lemma rules_loaded_from W db entries ex s s' :
  wf W s' -> bus_rest s' = bus_rest s -> list_from db entries ex s' ->
  rules_loaded db entries ex (bus_of s) (bus_of s').
Proof.
  intros Hw E [Hs Hc]. split.
  - transitivity (bus_rest s' <| bus_rules := rules_of s' |>); [done|]. by rewrite E.
  - intros key a [-> [p Hp]]%(rules_acls W); [|done]. split; [done|]. by eapply Hs.
  - intros He Hnd e puts a Ht Ha. apply (rules_acls W); [done|]. split; [done|]. by eapply Hc.
Qed.

Lemma acl_load_spec W ext db entries s :
  wk_files W = [] -> inv W ext s ->
  wp (ubusd_acl_load db (Some entries)) (fun _ s' => inv W ext s' /\
    rules_loaded db entries (os_alloc (os s) = []) (bus_of s) (bus_of s')) s.
Proof.
  intros HW Hi. unfold ubusd_acl_load. apply wp_bind, wp_modify. set (s1 := s <| ubusd_acl_files ::= _ |>).
  assert (inv W ext s1) as Hi1.
  { apply (inv_vlist W); [by destruct W| |done]. simpl. rewrite (vlist_update_spec _ _).
    destruct (wf_vlist _ _ (inv_wf _ _ _ Hi)) as [Hn Hnode Hone Hall].
    assert (((fun e : string * ptr * bool => (e.1, false)) <$> vlist_nodes (ubusd_acl_files s)).*1 =
      (vlist_nodes (ubusd_acl_files s)).*1) as E.
    { rewrite <- list_fmap_compose. by apply list_fmap_ext. }
    split; by rewrite E. }
  assert (loading db [] (os_alloc (os s) = []) s1) as Hl1.
  { split; [| |done].
    - intros k f. simpl. rewrite (vlist_update_spec _ _), list_elem_of_fmap. intros (e & [=] & _).
    - intros _ _ e puts [H _]. by apply not_elem_of_nil in H. }
  assert (bus_rest s1 = bus_rest s) as E1 by done. apply wp_bind.
  eapply wp_mono; [|apply (pres_wp bus_rest); [apply pres_load_dir|by apply (load_dir_spec W ext)]].
  intros [] s2 [[Hi2 Hl2] E2]. clear Hi1 Hl1. apply wp_bind.
  eapply wp_mono; [|apply (pres_wp bus_rest); [apply pres_flush|
    by apply (flush_spec W ext db entries (os_alloc (os s) = []) s2)]].
  intros [] s3 [[Hi3 Hlf] E3]. clear Hi2 Hl2.
  apply wp_bind, wp_modify, wp_bind. set (s4 := s3 <| ubusd_acl_seq ::= _ |>).
  assert (inv W ext s4) as Hi4. { destruct Hi3 as [Hm Hw]. split; [solve_minv|]. destruct Hw. by split. }
  eapply wp_mono; [|eapply send_event_spec; [exact Hi4|done|apply fills_sequence]].
  intros r s5 [_ Hq]. apply wp_ret. pose proof (quiet_inv _ _ _ _ _ Hq Hi4) as Hi5. split; [done|].
  eapply (rules_loaded_from W); [apply Hi5| |].
  - unfold bus_rest. rewrite (quiet_bus _ _ _ Hq). exact (eq_trans E3 (eq_trans E2 E1)).
  - assert (h_acls s5 = h_acls s3) as E by exact (eq_sym (f_equal h_acls (io_reg _ _ _ (quiet_io _ _ _ Hq)))).
    destruct Hlf. split; by rewrite E.
Qed.
End AclLoadSpec.
