(* ===== verification/ObjSpec.v ===== *)
(** * Objects and subscriptions keep the registry consistent

    Specifications of [Obj.v]. *)

From stdpp Require Import base gmap strings list fin_maps sets.
From Stdlib Require Import ZArith Lia.
From S2P Require Import Prelude Wire Cstring Libubox Ids State MsgBuf Frame SendSpec Wf WfOps Registry Acl Reply.
From S2P Require Import Event Obj AclSpec Bus ReplySpec RegistrySpec EventSpec.
Local Open Scope ubus_scope.

Section ObjSpec.
Context `{AL : AvlLib} `{BL : BlobLib} `{!AvlLaws AL} `{!BlobLaws BL}.
Implicit Types (s : ubusd) (W : work).

(** Clients keep all but their transmission state. *)
Definition keeps_core s s' : Prop :=
  forall cl c, h_clients s !! cl = Some c ->
  exists c', h_clients s' !! cl = Some c' /\ cl_core c' = cl_core c.

#[export] Instance keeps_core_refl : Reflexive keeps_core.
Proof. intros s cl c H. eauto. Qed.

#[export] Instance keeps_core_trans : Transitive keeps_core.
Proof.
  intros s1 s2 s3 H1 H2 cl c Hc. destruct (H1 cl c Hc) as (c2 & Hc2 & E2).
  destruct (H2 cl c2 Hc2) as (c3 & Hc3 & E3). exists c3. split; [done|congruence].
Qed.

Lemma keeps_core_reg s s' : reg s = reg s' -> keeps_core s s'.
Proof. intros Hr cl c Hc. by eapply reg_client. Qed.

Lemma keeps_core_same s s' : h_clients s' = h_clients s -> keeps_core s s'.
Proof. intros E cl c Hc. exists c. by rewrite E. Qed.

Lemma keeps_of_core s s' : keeps_core s s' -> keeps s s'.
Proof. intros H cl c Hc. destruct (H cl c Hc) as (c' & Hc' & E). exists c'. unfold cl_frame. by rewrite E. Qed.

Lemma unsub_keeps x sub s s' : reg s' = reg (unsub x sub s) -> keeps_core s s'.
Proof. intros H cl c Hc. eapply (reg_client (unsub x sub s)); [by rewrite H|done]. Qed.

(** ** Subscribing *)

Lemma subscribe_spec W ext p q o t s :
  inv W ext s -> h_objects s !! p = Some o -> is_Some (obj_client o) ->
  h_objects s !! q = Some t -> is_Some (obj_client t) ->
  wp (ubus_subscribe p q) (fun r s' => (0 <= r)%Z /\ inv W ext s' /\ keeps s s' /\
    (bus_of s' = bus_of s \/ exists x, h_subs s !! x = None /\
       bus_of s' = bus_of s <| bus_subs ::= insert x (mk_subscription p q) |>)) s.
Proof.
  intros [Hm Hw] Ho Hoc Ht [ct Htc]. unfold ubus_subscribe, status. apply wp_bind. eapply wp_load; [done|].
  apply wp_bind, wp_alloc; intros os'.
  { apply wp_ret. split; [done|]. split; [split; [by apply minv_os|by apply wf_os]|]. split; [by apply keeps_same|by left]. }
  set (x := brk s). set (t1 := t <| obj_subscribers ::= cons x |>).
  apply wp_bind. eapply wp_store; [exact Ht|].
  assert (exists o1, <[q := t1]> (h_objects s) !! p = Some o1 /\ obj_client o1 = obj_client o) as (o1 & Ho1 & Ec1).
  { destruct (decide (q = p)) as [->|Hne]; [|by exists o; rewrite lookup_insert_ne].
    exists t1. rewrite lookup_insert_eq. simplify_eq. done. }
  apply wp_bind. eapply wp_store; [exact Ho1|]. set (s3 := set_heap (insert p _) _).
  assert (inv W ext s3) as [Hm3 Hw3].
  { split; [unfold s3; solve_minv|].
    assert (wf W (s <| os := os' |> <| brk ::= Pos.succ |>)) as Hw' by (by eapply wf_of_reg; [|exact Hw]).
    eapply (wf_subscribe _ _ x p q t o1) in Hw'; [exact Hw'|..].
    - apply (fresh_subs _ (minv_fresh _ _ Hm)). subst x. lia.
    - exact Ht.
    - rewrite Htc. eauto.
    - exact Ho1.
    - by rewrite Ec1. }
  assert (exists t3, h_objects s3 !! q = Some t3 /\ obj_client t3 = Some ct) as (t3 & Ht3 & Ect3).
  { simpl. destruct (decide (p = q)) as [->|Hne].
    - rewrite lookup_insert_eq in *. simplify_eq. eexists. split; [done|]. done.
    - rewrite lookup_insert_ne, lookup_insert_eq by done. eexists. split; [done|]. done. }
  apply wp_bind. assert (wp (when (bool_decide (obj_subscribers t = [])) (ubus_notify_subscription q)) (fun _ => quiet ext s3) s3) as Hn.
  { destruct (bool_decide _); unfold when; [|by apply wp_ret].
    eapply notify_subscription_spec; [exact Hm3|by eapply wf_mon|exact Ht3|exact Ect3|].
    by eapply (wf_client_live W s3 _ t3). }
  eapply wp_mono; [|exact Hn]. intros [] s4 H4. apply wp_ret. split; [done|].
  split; [by apply (quiet_inv W ext ext s3)|]. split; [transitivity s3; [by apply keeps_same|by eapply quiet_keeps]|].
  right. exists x. split; [apply (fresh_subs _ (minv_fresh _ _ Hm)); subst x; lia|]. rewrite (quiet_bus _ _ _ H4).
  unfold s3. cbn [set_heap heap_object heap_sub]. etrans; [by apply (bus_upd_object _ p o1)|].
  by etrans; [apply (bus_upd_object _ q t)|].
Qed.

(** ** Removing an object *)

(** The object being removed, with what is left of its lists *)
Record unlinking W ext p o (tgt : option (list ptr)) (subs : option (list ptr)) s0 s : Prop := {
  ul_inv : inv W ext s;
  ul_keeps : keeps_core s0 s;
  ul_mons : mon_cl <$> monitors s = mon_cl <$> monitors s0;
  ul_bus : forget p (bus_of s) = forget p (bus_of s0);
  ul_obj : exists o', h_objects s !! p = Some o' /\ obj_base o' = obj_base o /\
    (forall l, tgt = Some l -> obj_target_list o' = l) /\
    (forall l, subs = Some l -> obj_subscribers o' = l);
}.

Lemma unsub_step W ext p o tgt subs x sub s0 s s' :
  unlinking W ext p o tgt subs s0 s -> h_subs s !! x = Some sub ->
  inv W ext s' -> reg s' = reg (unsub x sub s) -> touches p sub ->
  (forall l, tgt = Some l -> p = s_subscriber sub \/ l = []) ->
  (forall l, subs = Some l -> p = s_target sub \/ l = []) ->
  unlinking W ext p o (list_del x <$> tgt) (list_del x <$> subs) s0 s'.
Proof.
  intros [Hi Hk Hmon Hbus (o1 & Ho1 & Eb & Etgt & Esubs)] Hx Hi' Hr Htc Ht Hs.
  split; [done|etrans; [exact Hk|by eapply unsub_keeps]|rewrite (reg_monitors _ _ Hr); exact Hmon| |].
  { rewrite (bus_unsub _ _ _ _ Hr), <- Hbus. by apply (forget_unsub p (bus_of s) x sub). }
  destruct (unsub_object _ _ _ _ _ _ Hr Ho1) as (o2 & Ho2 & E1 & E2 & E3 & E4 & E7 & E5 & E6).
  exists o2. split; [done|]. split; [|split].
  - rewrite <- Eb. unfold obj_base, obj_core. simpl. by rewrite E1, E2, E3, E4, E7.
  - intros l. destruct tgt as [l'|]; [|done]. intros [= <-]. rewrite E5. rewrite (Etgt l' eq_refl).
    destruct (Ht l' eq_refl) as [->| ->]; [by rewrite decide_True|]. by destruct (decide (p = s_subscriber sub)).
  - intros l. destruct subs as [l'|]; [|done]. intros [= <-]. rewrite E6. rewrite (Esubs l' eq_refl).
    destruct (Hs l' eq_refl) as [->| ->]; [by rewrite decide_True|]. by destruct (decide (p = s_target sub)).
Qed.

(** [list_for_each_entry_safe(s, tmp, &obj->target_list, ...) ubus_unsubscribe(s)] *)
Lemma drop_targets W ext p o l s0 s :
  unlinking W ext p o (Some l) None s0 s ->
  wp (for_each l ubus_unsubscribe) (fun _ => unlinking W ext p o (Some []) None s0) s.
Proof.
  intros H. apply (wp_for_each (fun l => unlinking W ext p o (Some l) None s0)); [|done].
  clear s l H. intros x l s H. destruct (ul_obj _ _ _ _ _ _ _ _ H) as (o1 & Ho1 & _ & El & _).
  specialize (El _ eq_refl). pose proof (wf_targets _ _ (inv_wf _ _ _ (ul_inv _ _ _ _ _ _ _ _ H))) as Hlo.
  assert ((obj_target_list <$> h_objects s) !! p = Some (x :: l)) as Hp by (rewrite lookup_fmap, Ho1; simpl; by rewrite El).
  destruct (fmap_Some_2 s_subscriber (h_subs s) x p) as (sub & Hx & Ep).
  { apply (lo_in _ _ Hlo p (x :: l)); [done|by left]. }
  eapply wp_mono; [|eapply unsubscribe_spec; [apply H|exact Hx]]. intros [] s1 (Hi1 & _ & Hr1).
  rewrite <- (list_del_head x l) by (by eapply (lo_nodup _ _ Hlo p)).
  apply (unsub_step W ext p o (Some (x :: l)) None x sub s0 s s1); try done; [by right|by left].
Qed.

Lemma drop_subscribers W ext p o l s0 s :
  unlinking W ext p o (Some []) (Some l) s0 s ->
  wp (for_each l ubus_notify_unsubscribe) (fun _ => unlinking W ext p o (Some []) (Some []) s0) s.
Proof.
  intros H. apply (wp_for_each (fun l => unlinking W ext p o (Some []) (Some l) s0)); [|done].
  clear s l H. intros x l s H. destruct (ul_obj _ _ _ _ _ _ _ _ H) as (o1 & Ho1 & _ & _ & El).
  specialize (El _ eq_refl). pose proof (wf_subscribers _ _ (inv_wf _ _ _ (ul_inv _ _ _ _ _ _ _ _ H))) as Hlo.
  assert ((obj_subscribers <$> h_objects s) !! p = Some (x :: l)) as Hp by (rewrite lookup_fmap, Ho1; simpl; by rewrite El).
  destruct (fmap_Some_2 s_target (h_subs s) x p) as (sub & Hx & Ep).
  { apply (lo_in _ _ Hlo p (x :: l)); [done|by left]. }
  eapply wp_mono; [|eapply notify_unsubscribe_spec; [apply H|exact Hx]]. intros [] s1 (Hi1 & _ & Hr1).
  rewrite <- (list_del_head x l) by (by eapply (lo_nodup _ _ Hlo p)).
  apply (unsub_step W ext p o (Some []) (Some (x :: l)) x sub s0 s s1); try done.
  - by left.
  - intros l' [= <-]. by right.
  - by left.
Qed.

(** The registry without the object: what [ubusd_free_object] leaves *)
Lemma unref_then_free t p o (Q : unit -> ubusd -> Prop) s :
  h_objects s !! p = Some o ->
  wp (ubus_unref_object_type t) Q (s <| h_objects ::= delete p |>) ->
  wp (ubus_unref_object_type t;; free_ptr (T := ubus_object) p) Q s.
Proof.
  intros Hp. unfold ubus_unref_object_type, wp, mbind, stm_bind, store, load, free_ptr, tree_delete. simpl.
  destruct (h_types s !! t) as [ty|]; [|done]. simpl. rewrite !lookup_insert_eq. simpl.
  destruct (0 <? Z.pred (type_refcount ty))%Z; [unfold mret, stm_ret; simpl; by rewrite Hp|].
  cbn beta iota. simpl obj_types. destruct (linked (obj_types s) (type_id ty) t); [|done].
  unfold upd_obj_types. simpl. rewrite !lookup_insert_eq. simpl. by rewrite Hp.
Qed.

Lemma unref_opt_spec W ext r p o s :
  h_objects s !! p = Some o ->
  inv (W <| wk_types ::= app (opt_list r) |>) ext (s <| h_objects ::= delete p |>) ->
  wp ((match r with Some t => ubus_unref_object_type t | None => mret tt end);;
      free_ptr (T := ubus_object) p)
     (fun _ s' => inv W ext s' /\ but_types (s <| h_objects ::= delete p |>) s') s.
Proof.
  intros Hp Hi. destruct r as [t|].
  - eapply unref_then_free; [exact Hp|]. by apply unref_type_spec.
  - apply wp_bind, wp_ret. eapply wp_free; [exact Hp|]. destruct Hi as [Hm Hw]. split; [|by split].
    split; [exact Hm|]. by destruct W.
Qed.

(** A removed object leaves its client's list; the rest of the client stays. *)
Definition keeps_less p s s' : Prop :=
  mon_cl <$> monitors s' = mon_cl <$> monitors s /\
  forall cl c, h_clients s !! cl = Some c ->
  exists c', h_clients s' !! cl = Some c' /\ cl_frame c' = cl_frame c /\ cl_objects c' = list_del p (cl_objects c).

Lemma keeps_of_less p s s' : keeps_less p s s' -> keeps s s'.
Proof. intros [_ H] cl c Hc. destruct (H cl c Hc) as (c' & ? & ? & _). eauto. Qed.

Lemma wf_forget_object W s p : h_objects s !! p = None -> wf (W <| wk_objs ::= cons p |>) s -> wf W s.
Proof.
  intros Hp []. split; try done. intros q o Hq Hc Hni. eapply wf_builtin; [done..|]. simpl.
  apply not_elem_of_cons. split; [congruence|done].
Qed.

(** From the point where the object has no links left *)
Lemma free_unlinked W ext p o s0 s :
  inv W ext s -> h_objects s !! p = Some o -> obj_events o = [] -> obj_subscribers o = [] ->
  obj_target_list o = [] -> keeps_core s0 s -> mon_cl <$> monitors s = mon_cl <$> monitors s0 ->
  forget p (bus_of s) = forget p (bus_of s0) ->
  (forall cl c, h_clients s0 !! cl = Some c -> obj_client o <> Some cl -> p ∉ cl_objects c) ->
  wp ((match obj_path o with
       | Some key => ubusd_send_obj_event p false;; tree_delete path upd_path key p
       | None => mret tt
       end);;
      (match obj_client o with
       | Some cl => store cl (fun c => c <| cl_objects ::= list_del p |>)
       | None => mret tt
       end);;
      tree_delete objects upd_objects (obj_id o) p;;
      (match obj_type o with Some t => ubus_unref_object_type t | None => mret tt end);;
      free_ptr (T := ubus_object) p)
     (fun _ s' => inv W ext s' /\ h_objects s' !! p = None /\ keeps_less p s0 s' /\ bus_of s' = forget p (bus_of s0)) s.
Proof.
  intros Hi Ho Eev Esub Etgt Hk Hmon Hbus Hother. apply wp_bind.
  assert (wp (match obj_path o with
       | Some key => ubusd_send_obj_event p false;; tree_delete path upd_path key p
       | None => mret tt
       end) (fun _ s' => exists s1 t', quiet ext s s1 /\ s' = s1 <| path := t' |> /\
              tree_ok t' (omap obj_path (delete p (h_objects s1)))) s) as Hpath.
  { destruct (obj_path o) as [key|] eqn:Ek.
    - apply wp_bind. eapply wp_mono; [|by eapply send_obj_event_spec].
      intros [] s1 H1. pose proof (quiet_inv _ _ _ _ _ H1 Hi) as [_ Hw1].
      destruct (quiet_object _ _ _ _ _ H1 Ho) as (o1 & Ho1 & E1). pose proof (f_equal obj_path E1) as Ek1. simpl in Ek1.
      assert (omap obj_path (h_objects s1) !! p = Some key) as Hp1 by (eapply omap_Some_1; [exact Ho1|congruence]).
      eapply (wp_tree_delete _ _ _ (omap obj_path (h_objects s1))); [reflexivity|apply Hw1|exact Hp1|].
      exists s1, (avl_delete (path s1) key p). split; [done|]. split; [done|]. rewrite omap_delete.
      apply tree_ok_delete; [apply Hw1|exact Hp1].
    - apply wp_ret. exists s, (path s). split; [apply quiet_refl, Hi|]. split; [by destruct s|].
      rewrite omap_delete, delete_id; [apply Hi|]. by rewrite lookup_omap, Ho. }
  eapply wp_mono; [|exact Hpath]. intros [] ? (s1 & t' & Hq & -> & Hpt). clear Hpath.
  pose proof (quiet_inv _ _ _ _ _ Hq Hi) as [Hm1 Hw1].
  destruct (quiet_object _ _ _ _ _ Hq Ho) as (o1 & Ho1 & E1).
  pose proof (f_equal obj_client E1) as Ec. pose proof (f_equal obj_type E1) as Et. pose proof (f_equal obj_id E1) as Eid.
  pose proof (f_equal obj_events E1) as Ee. pose proof (f_equal obj_subscribers E1) as Es.
  pose proof (f_equal obj_target_list E1) as Eg. simpl in Ec, Et, Eid, Ee, Es, Eg.
  assert (keeps_core s0 s1) as Hk1 by (etrans; [exact Hk|apply keeps_core_reg, Hq]). apply wp_bind.
  set (h := match obj_client o with
            | Some cl => alter (fun c => c <| cl_objects ::= list_del p |>) cl (h_clients s1)
            | None => h_clients s1 end).
  assert (wp (match obj_client o with
       | Some cl => store cl (fun c => c <| cl_objects ::= list_del p |>)
       | None => mret tt
       end) (fun _ s' => s' = s1 <| path := t' |> <| h_clients := h |>) (s1 <| path := t' |>)) as Hcl.
  { subst h. destruct (obj_client o) as [cl|] eqn:Ecl; [|by apply wp_ret].
    destruct (wf_client_live _ _ _ _ cl Ho1 Ec Hw1) as [c Hc].
    eapply wp_store; [exact Hc|]. simpl. by rewrite (alter_Some _ _ _ _ Hc). }
  eapply wp_mono; [|exact Hcl]. intros [] ? ->. clear Hcl.
  apply wp_bind. eapply (wp_tree_delete _ _ _ (obj_id <$> h_objects s1)); [reflexivity|apply Hw1| |].
  { rewrite lookup_fmap, Ho1. simpl. by rewrite Eid. }
  rewrite <- Et, <- Eid.
  set (s2 := upd_objects _ _).
  assert (inv (W <| wk_types ::= app (opt_list (obj_type o1)) |>) ext (s2 <| h_objects ::= delete p |>)) as Hi2.
  { split; [|].
    - assert (minv ext (s1 <| h_clients := h |>)) as Hm2.
      { subst h. destruct (obj_client o) as [cl|] eqn:Ecl; [|by destruct s1].
        destruct (wf_client_live _ _ _ _ cl Ho1 Ec Hw1) as [c Hc]. rewrite (alter_Some _ _ _ _ Hc).
        eapply (minv_upd_client ext s1 cl c); [exact Hc|done| |exact Hm1].
        destruct (minv_clients _ _ Hm1 _ _ Hc). by split. }
      eapply (minv_same ext (s1 <| h_clients := h |>)); [done|done| |exact Hm2].
      pose proof (minv_fresh _ _ Hm2). unfold s2, upd_objects. solve_fresh.
    - eapply (wf_drop_object W s1 p o1 h t'); try done; [congruence..|].
      rewrite Ec. subst h. destruct (obj_client o) as [cl|] eqn:Ecl; [|done].
      destruct (wf_client_live _ _ _ _ cl Ho1 Ec Hw1) as [c Hc]. exists c. split; [done|]. by apply alter_Some. }
  eapply wp_mono; [|eapply unref_opt_spec; [exact Ho1|exact Hi2]].
  intros [] s3 [Hi3 Hb3]. split; [done|]. split.
  - rewrite (bt_objects _ _ Hb3). apply lookup_delete_eq.
  - split; [|rewrite (bt_bus _ _ Hb3), <- Hbus, <- (quiet_bus _ _ _ Hq), (forget_unlinked W s1 p o1) by (done || congruence);
      unfold s2, upd_objects, bus_of; simpl; f_equal; [|apply omap_delete]; subst h; destruct (obj_client o); [|done];
      by apply fmap_alter_same].
    split.
    { rewrite (bt_monitors _ _ Hb3), <- Hmon. symmetry. exact (reg_monitors _ _ (io_reg _ _ _ (quiet_io _ _ _ Hq))). }
    intros cl c Hc. destruct (Hk1 cl c Hc) as (c1 & Hc1 & Ec1). rewrite (bt_clients _ _ Hb3). simpl.
    pose proof (f_equal cl_objects Ec1) as Eo. simpl in Eo. subst h.
    destruct (obj_client o) as [cl'|] eqn:Ecl; [destruct (decide (cl' = cl)) as [->|Hne]|].
    + rewrite (alter_Some _ _ _ _ Hc1), lookup_insert_eq. eexists. split; [done|]. simpl.
      split; [|by rewrite Eo]. unfold cl_frame. by rewrite <- Ec1.
    + exists c1. rewrite lookup_alter_ne by done. split; [done|]. split; [unfold cl_frame; by rewrite Ec1|].
      rewrite list_del_notin; [done|]. apply (Hother cl c Hc). congruence.
    + exists c1. split; [done|]. split; [unfold cl_frame; by rewrite Ec1|].
      rewrite list_del_notin; [done|]. by apply (Hother cl c Hc).
Qed.

Lemma free_object_spec W ext p o s :
  inv W ext s -> h_objects s !! p = Some o ->
  wp (ubusd_free_object p) (fun _ s' => inv W ext s' /\ h_objects s' !! p = None /\ keeps_less p s s' /\
    bus_of s' = forget p (bus_of s)) s.
Proof.
  intros Hi Ho. unfold ubusd_free_object. apply wp_bind. eapply wp_load; [done|].
  apply wp_bind. eapply wp_mono; [|eapply (drop_targets W ext p o _ s s)].
  2:{ split; [done|done|done|done|]. exists o. split; [done|]. split; [done|]. split; [by intros ? [= <-]|done]. }
  intros [] s1 [Hi1 Hk1 Hmon1 Hbus1 (o1 & Ho1 & Eb1 & Et1 & _)]. apply wp_bind. eapply wp_load; [exact Ho1|].
  apply wp_bind. eapply wp_mono; [|eapply (drop_subscribers W ext p o _ s s1)].
  2:{ split; [done|done|done|done|]. exists o1. split; [done|]. split; [done|]. split; [done|by intros ? [= <-]]. }
  intros [] s2 [Hi2 Hk2 Hmon2 Hbus2 (o2 & Ho2 & Eb2 & Et2 & Es2)].
  apply wp_bind. eapply wp_mono; [|by eapply event_cleanup_spec].
  intros [] s3 (Hi3 & Ec3 & Em3 & Hbus3 & Ho3). apply wp_bind. eapply wp_load; [exact Ho3|].
  eapply free_unlinked; [exact Hi3|exact Ho3|done|by apply Es2|by apply Et2|etrans; [exact Hk2|by apply keeps_core_same]|by rewrite Em3|congruence|].
  intros cl c Hc Hne Hin. apply Hne. simpl.
  pose proof (f_equal obj_client Eb2) as Ecl. simpl in Ecl. rewrite Ecl.
  eapply (lo_in _ _ (wf_owned _ _ (inv_wf _ _ _ Hi)) cl) in Hin; [|by apply fmap_Some_1].
  apply omap_Some_2 in Hin as (o' & Ho' & E). congruence.
Qed.

(** ** Creating an object *)

Lemma create_object_path_spec W ext cl p o key s :
  inv W ext s -> is_Some (h_clients s !! cl) -> h_objects s !! p = Some o -> obj_path o = None ->
  obj_client o = None ->
  wp (create_object_path cl p key) (fun r s' => inv W ext s' /\ keeps_core s s' /\ bus_of s' = bus_of s /\
    exists o', h_objects s' !! p = Some o' /\ obj_client o' = None /\ obj_id o' = obj_id o /\
      (r = true -> obj_path o' = Some key /\ allowed (bus_of s) cl key None UBUS_ACL_PUBLISH)) s.
Proof.
  intros [Hm Hw] Hcl Ho Hpath Hnone. unfold create_object_path. apply wp_bind.
  eapply wp_acl_allowed; [exact Hw|done|done|]. intros r Hr.
  destruct (Z.eqb_spec r 0) as [Er|]; simpl negb; cbv iota.
  2:{ apply wp_ret. split; [done|]. split; [done|]. split; [done|]. exists o. done. }
  specialize (Hr Er). apply wp_bind, wp_try_alloc. intros [] os'.
  2:{ apply wp_ret. split; [split; [by apply minv_os|by apply wf_os]|]. split; [by apply keeps_core_same|]. split; [done|].
      exists o. done. }
  simpl negb. cbv iota. apply wp_bind. eapply wp_store; [exact Ho|]. apply wp_bind.
  unfold path_insert. apply wp_bind, wp_gets. simpl path.
  destruct (avl_insert_cases (path s) key p) as [(v' & _ & ->)|(_ & t' & -> & Hl)].
  - simpl Z.eqb. cbv iota. apply wp_ret. apply wp_bind. eapply wp_store; [apply lookup_insert_eq|]. apply wp_ret.
    split; [|split; [by apply keeps_core_same|split]].
    + split; [solve_minv|]. eapply wf_of_reg; [|exact Hw]. unfold reg. simpl. f_equal. symmetry.
      rewrite insert_insert_eq, fmap_insert. apply insert_id. rewrite lookup_fmap, Ho. simpl.
      f_equal. destruct o. simpl in *. by subst.
    + etrans; [by apply (bus_upd_bare _ p (o <| obj_path := Some key |>)); [apply lookup_insert_eq|..]|].
      exact (bus_upd_bare (s <| os := os' |>) p o (o <| obj_path := Some key |>) Ho Hnone Hnone).
    + eexists. split; [apply lookup_insert_eq|done].
  - simpl Z.eqb. cbv iota. apply wp_bind, wp_modify, wp_ret. apply wp_bind.
    set (s1 := upd_path _ _).
    assert (inv W ext s1) as Hi1.
    { split; [unfold s1, upd_path; solve_minv|]. eapply (wf_set_path W (s <| os := os' |>)); [exact Ho|done|exact Hl|by apply wf_os]. }
    eapply wp_mono; [|eapply (send_obj_event_spec W ext p); [exact Hi1|apply lookup_insert_eq|done]].
    intros [] s2 H2. apply wp_ret. split; [exact (quiet_inv _ _ _ _ _ H2 Hi1)|].
    split; [transitivity s1; [by apply keeps_core_same|apply keeps_core_reg, H2]|].
    split; [rewrite (quiet_bus _ _ _ H2); exact (bus_upd_bare (s <| os := os' |>) p o (o <| obj_path := Some key |>) Ho Hnone Hnone)|].
    destruct (quiet_object ext s1 s2 p (o <| obj_path := Some key |>) H2) as (o2 & Ho2 & E2); [apply lookup_insert_eq|].
    exists o2. split; [done|]. pose proof (f_equal obj_client E2) as Ea. pose proof (f_equal obj_id E2) as Eb.
    pose proof (f_equal obj_path E2) as Ep. simpl in Ea, Eb, Ep. by rewrite Ea, Eb, Ep.
Qed.

Lemma create_object_type_spec W ext attr s :
  inv W ext s ->
  wp (create_object_type attr) (fun r s' => inv (hold r W) ext s' /\ but_types s s') s.
Proof.
  intros Hi. unfold create_object_type. destruct (attr UBUS_ATTR_OBJTYPE); [by apply get_obj_type_spec|].
  destruct (attr UBUS_ATTR_SIGNATURE); [by apply create_obj_type_spec|]. by apply wp_ret.
Qed.

Lemma create_object_spec W ext cl attr s :
  inv W ext s -> is_Some (h_clients s !! cl) ->
  wp (ubusd_create_object cl attr) (fun r s' => inv W ext s' /\ keeps s s' /\
    match r with
    | None => bus_of s' = bus_of s
    | Some p => bus_step cl (bus_of s) (bus_of s') /\ exists o, h_objects s' !! p = Some o /\ obj_client o = Some cl
    end) s.
Proof.
  intros Hi Hcl. unfold ubusd_create_object. apply wp_bind. eapply wp_mono; [|by apply create_object_type_spec].
  intros type s1 [Hi1 Hb1]. apply wp_bind.
  eapply wp_mono; [|eapply (create_object_internal_spec (hold type W)); [exact Hi1|]].
  2:{ intros t ->. eapply (wf_type_live (W <| wk_types ::= cons t |>)); [by left|apply Hi1]. }
  intros obj s2 (Ec2 & _ & _ & _ & Eb2 & H2). apply wp_bind.
  assert (wp (match type with Some t => ubus_unref_object_type t | None => mret tt end)
    (fun _ s3 => (h_clients s3 = h_clients s /\ bus_of s3 = bus_of s) /\
       match obj with
       | None => inv W ext s3
       | Some p => inv (W <| wk_objs ::= cons p |>) ext s3 /\ exists oid,
           h_objects s3 !! p = Some (bare_object oid type) /\ (UBUS_SYSTEM_OBJECT_MAX <= oid)%Z
       end) s2) as Hw.
  { assert (forall W' s3, inv W' ext s3 -> but_types s2 s3 -> h_clients s3 = h_clients s /\ bus_of s3 = bus_of s) as Hcs.
    { intros W' s3 _ Hb. rewrite (bt_clients _ _ Hb), Ec2, (bt_bus _ _ Hb), Eb2, (bt_bus _ _ Hb1). split; [apply Hb1|done]. }
    destruct obj as [p|].
    - destruct H2 as (Hi2 & _ & oid & Eh2 & Hoid). assert (UBUS_SYSTEM_OBJECT_MAX <= oid)%Z as Hge by lia. destruct type as [t|].
      + eapply wp_mono; [|eapply (unref_type_spec (W <| wk_objs ::= cons p |>)); exact Hi2].
        intros [] s3 [Hi3 Hb3]. split; [by eapply Hcs|]. split; [done|]. exists oid. rewrite (bt_objects _ _ Hb3), Eh2. by rewrite lookup_insert_eq.
      + apply wp_ret. split; [by eapply Hcs|]. split; [done|]. exists oid. rewrite Eh2. by rewrite lookup_insert_eq.
    - destruct type as [t|]; [|apply wp_ret; split; [by eapply Hcs|done]].
      eapply wp_mono; [|eapply (unref_type_spec W); exact H2]. intros [] s3 [Hi3 Hb3]. split; [by eapply Hcs|done]. }
  eapply wp_mono; [|exact Hw]. clear Hw H2 Hi1 Hb1 Ec2 Eb2. intros [] s3 [[Ec3 Eb3] H3].
  destruct obj as [p|]; [|apply wp_ret; by split; [|split; [by apply keeps_same|]]].
  destruct H3 as (Hi3 & oid & Ho3 & Hoid). apply wp_bind.
  assert (wp (match attr UBUS_ATTR_OBJPATH with Some a => create_object_path cl p (blob_string a) | None => mret true end)
    (fun r s' => inv (W <| wk_objs ::= cons p |>) ext s' /\ keeps_core s3 s' /\ bus_of s' = bus_of s3 /\
       exists o', h_objects s' !! p = Some o' /\ obj_client o' = None /\ obj_id o' = oid /\
         (r = true -> forall key, obj_path o' = Some key -> allowed (bus_of s3) cl key None UBUS_ACL_PUBLISH)) s3) as Hw.
  { destruct (attr UBUS_ATTR_OBJPATH); [|by apply wp_ret; split; [|split; [|split; [|eexists; split]]]].
    eapply wp_mono; [|apply (create_object_path_spec (W <| wk_objs ::= cons p |>) ext cl p (bare_object oid type)); [done|by rewrite Ec3|done|done|done]].
    intros r s' (Hi' & Hk' & Eb' & o' & Ho' & Ecl' & Eid' & Hr). split; [done|]. split; [done|]. split; [done|].
    exists o'. split; [done|]. split; [done|]. split; [done|]. intros Er key Ek. destruct (Hr Er) as [Ep Ha]. congruence. }
  eapply wp_mono; [|exact Hw]. clear Hw. intros ok s4 (Hi4 & Hk4 & Eb4 & o4 & Ho4 & Ecl4 & Eid4 & Hall4).
  assert (bus_of s4 = bus_of s) as Eb by congruence.
  assert (keeps_core s s4) as Hk by (etrans; [by apply keeps_core_same|exact Hk4]).
  destruct ok.
  - apply wp_bind. eapply wp_store; [exact Ho4|]. destruct Hcl as [c Hc]. destruct (Hk cl c Hc) as (c4 & Hc4 & E4).
    apply wp_bind. eapply wp_store; [exact Hc4|]. apply wp_ret. destruct Hi4 as [Hm4 Hw4].
    assert (wf W (s4 <| h_objects ::= insert p (o4 <| obj_client := Some cl |>) |>
      <| h_clients ::= insert cl (c4 <| cl_objects ::= cons p |>) |>)) as Hw5 by by eapply wf_give_object.
    split; [|split; [|split]].
    + split; [|exact Hw5]. eapply (minv_upd_client ext (s4 <| h_objects ::= insert p (o4 <| obj_client := Some cl |>) |>)); [exact Hc4|done| |solve_minv].
      destruct (minv_clients _ _ Hm4 _ _ Hc4). by split.
    + etrans; [by apply keeps_of_core|]. intros cl' c' Hc'. simpl. destruct (decide (cl = cl')) as [<-|Hne].
      * rewrite lookup_insert_eq. simplify_eq. eauto.
      * rewrite lookup_insert_ne by done. eauto.
    + rewrite <- Eb. eapply (step_give _ _ s4 p o4 cl); [exact Hw4|exact Hw5|exact Ho4|done|eauto|done| |lia|].
      * etrans; [by apply (bus_upd_client _ cl c4)|]. done.
      * rewrite Eb4. by apply Hall4.
    + simpl. rewrite lookup_insert_eq. eauto.
  - apply wp_bind. eapply wp_mono; [|by eapply free_object_spec]. intros [] s5 ([Hm5 Hw5] & Hp5 & Hk5 & Eb5). apply wp_ret.
    split; [|split; [|rewrite Eb5, <- Eb; by eapply forget_bare; [apply Hi4|..]]].
    + split; [done|]. by eapply wf_forget_object.
    + etrans; [by apply keeps_of_core|by eapply keeps_of_less].
Qed.
End ObjSpec.
