(* ===== verification/ProtoSpec.v ===== *)
(** * The protocol handlers are safe

    Specifications of [Proto.v]: a handler keeps memory and registry in order,
    and hands the message back unless it returns -2, in which case the queue of
    the client owns it. *)

From stdpp Require Import base gmap strings list fin_maps sets.
From Stdlib Require Import ZArith Lia.
From S2P Require Import Prelude Wire Cstring Libubox Ids State MsgBuf Frame SendSpec Wf WfOps Registry Acl Reply.
From S2P Require Import Event Obj Proto AclSpec Bus ReplySpec RegistrySpec EventSpec ObjSpec.
Local Open Scope ubus_scope.

Section ProtoSpec.
Context `{AL : AvlLib} `{BL : BlobLib} `{!AvlLaws AL} `{!BlobLaws BL}.
Implicit Types (s : ubusd) (W : work).

(** Clients stay and keep their reply message. *)
Definition stays s s' : Prop :=
  forall cl c, h_clients s !! cl = Some c ->
  exists c', h_clients s' !! cl = Some c' /\ cl_retmsg c' = cl_retmsg c.

Lemma stays_of_keeps s s' : keeps s s' -> stays s s'.
Proof.
  intros H cl c Hc. destruct (H cl c Hc) as (c' & Hc' & E). exists c'. split; [done|].
  exact (f_equal cl_retmsg E).
Qed.

#[export] Instance stays_trans : Transitive stays.
Proof.
  intros s1 s2 s3 H1 H2 cl c Hc. destruct (H1 cl c Hc) as (c2 & Hc2 & E2).
  destruct (H2 cl c2 Hc2) as (c3 & Hc3 & E3). exists c3. split; [done|congruence].
Qed.

(** What a handler promises *)
Record handled W ext cl ub s (ret : Z) s' : Prop := {
  hd_wf : wf W s';
  hd_minv : if decide (ret = -2)%Z then minv ext s' else minv (ub :: ext) s';
  hd_stays : stays s s';
  hd_bus : steps cl s s';
}.

Lemma handled_keep W ext cl ub s ret s' :
  (ret <> -2)%Z -> inv W (ub :: ext) s' -> keeps s s' -> steps cl s s' -> handled W ext cl ub s ret s'.
Proof. intros Hr [Hm Hw] Hk Hb. split; [done|by rewrite decide_False|by apply stays_of_keeps|done]. Qed.

Lemma handled_reg W ext cl ub s ret s' :
  (ret <> -2)%Z -> inv W (ub :: ext) s' -> reg s = reg s' -> handled W ext cl ub s ret s'.
Proof. intros Hr Hi E. apply handled_keep; [done|done|by apply keeps_reg|]. by apply steps_same, bus_reg. Qed.

Lemma handled_quiet W ext cl ub s ret s' :
  (ret <> -2)%Z -> wf W s -> quiet (ub :: ext) s s' -> handled W ext cl ub s ret s'.
Proof.
  intros Hr Hw Hq. apply handled_reg; [done| |apply Hq]. split; [apply Hq|by eapply quiet_wf].
Qed.

Lemma handled_status W ext cl ub s (st : ubus_msg_status) :
  inv W (ub :: ext) s -> handled W ext cl ub s st s.
Proof. intros [Hm Hw]. apply handled_quiet; [by destruct st|done|by apply quiet_refl]. Qed.

Lemma wp_status W ext cl ub s0 s (st : ubus_msg_status) :
  inv W (ub :: ext) s0 -> quiet (ub :: ext) s0 s -> wp (status st) (handled W ext cl ub s0) s.
Proof. intros [Hm Hw] Hq. apply wp_ret. apply handled_quiet; [by destruct st|done|done]. Qed.

(** ** Lookups of objects by id *)

Lemma wp_find_object W id (Q : option ptr -> ubusd -> Prop) s :
  wf W s -> Q None s -> (forall p o, h_objects s !! p = Some o -> obj_id o = id -> Q (Some p) s) ->
  wp (ubusd_find_object id) Q s.
Proof.
  intros Hw Hn Hs. apply wp_gets. destruct (ubus_find_id (objects s) id) as [p|] eqn:E; [|done].
  apply (tree_ok_find _ _ _ _ (wf_objects _ _ Hw)), fmap_Some_2 in E as (o & Ho & Eid). by eapply Hs.
Qed.

(** ** Ping, objects *)

Lemma pong_spec W ext cl ub attr s :
  inv W (ub :: ext) s -> is_Some (h_clients s !! cl) -> owners (h_clients s) ub = 0 ->
  wp (ubusd_send_pong cl ub attr) (handled W ext cl ub s) s.
Proof.
  intros [Hm Hw] [c Hc] Ho. unfold ubusd_send_pong.
  destruct (minv_live _ _ ub Hm ltac:(by left)) as [u Hu].
  apply wp_bind. eapply wp_store; [exact Hu|]. apply wp_bind. set (s1 := set_heap _ _).
  assert (minv (ub :: ext) s1) as Hm1 by by eapply minv_upd_msg.
  eapply wp_mono; [|eapply (msg_send_spec (ub :: ext)); [exact Hm1| |exact Hc|]].
  - intros [] s2 [Hm2 Hio2 _ _]. apply wp_ret. apply handled_reg; [done| |apply Hio2].
    split; [done|]. eapply wf_of_reg; [|exact Hw]. apply Hio2.
  - exact (wf_mon _ _ Hw).
  - split; [apply lookup_insert_eq|by right].
Qed.

Lemma type_put_spec W s p o :
  wf W s -> h_objects s !! p = Some o -> forall t, obj_type o = Some t -> is_Some (h_types s !! t).
Proof. intros Hw Ho t Et. by eapply wf_obj_type_live. Qed.

Lemma remove_object_spec W ext cl ub attr s :
  inv W (ub :: ext) s -> is_Some (h_clients s !! cl) ->
  wp (ubusd_handle_remove_object cl ub attr) (handled W ext cl ub s) s.
Proof.
  intros Hi Hcl. unfold ubusd_handle_remove_object. pose proof (fun st => handled_status W ext cl ub s st Hi) as Hst.
  destruct (attr UBUS_ATTR_OBJID) as [aid|]; [|by apply wp_ret].
  apply wp_bind. eapply wp_find_object; [apply Hi|by apply wp_ret|]. intros p o Ho Eid.
  apply wp_bind. eapply wp_load; [done|]. destruct (bool_decide_reflect (obj_client o = Some cl)) as [Hown|]; [|by apply wp_ret].
  simpl negb. cbv iota. apply wp_bind.
  assert (forall Q : list put -> ubusd -> Prop, (forall l, Q l s) -> wp (match obj_type o with
                       | None => mret []
                       | Some t =>
                           t ← load (T := ubus_object_type) t;
                           mret (if (type_refcount t =? 1)%Z
                                 then [put_int32 UBUS_ATTR_OBJTYPE (type_id t)] else [])
                       end) Q s) as Hput.
  { intros Q HQ. destruct (obj_type o) as [t|] eqn:Et; [|by apply wp_ret].
    destruct (wf_obj_type_live W s p o t Ho Et (inv_wf _ _ _ Hi)) as [ty Hty].
    apply wp_bind. eapply wp_load; [exact Hty|]. apply wp_ret, HQ. }
  apply Hput. intros type_put. apply wp_bind.
  eapply wp_mono; [|eapply (send_msg_from_blob_spec (ub :: ext)); [apply Hi|eapply wf_mon, Hi|done|]].
  2:{ eapply minv_live; [apply Hi|by left]. }
  intros [] s1 Hq. pose proof (quiet_inv _ _ _ _ _ Hq Hi) as Hi1.
  destruct (quiet_object _ _ _ _ _ Hq Ho) as (o1 & Ho1 & E1). pose proof (f_equal obj_client E1) as Ec1. simpl in Ec1.
  apply wp_bind. eapply wp_mono; [|by eapply (free_object_spec W (ub :: ext))].
  intros [] s2 (Hi2 & _ & Hk2 & Eb2). apply wp_ret. apply handled_keep; [done|done| |].
  - etrans; [by eapply quiet_keeps|by eapply keeps_of_less].
  - transitivity s1; [by eapply steps_same, quiet_bus|]. apply steps_one. rewrite Eb2.
    eapply step_withdraw; [eapply bus_object; [exact Ho1|by rewrite Ec1]|done].
Qed.

Lemma add_object_spec W ext cl ub attr s :
  inv W (ub :: ext) s -> is_Some (h_clients s !! cl) ->
  wp (ubusd_handle_add_object cl ub attr) (handled W ext cl ub s) s.
Proof.
  intros Hi Hcl. unfold ubusd_handle_add_object. apply wp_bind.
  eapply wp_mono; [|by apply (create_object_spec W (ub :: ext))].
  intros [p|] s1 (Hi1 & Hk1 & H1); [|by apply wp_ret, handled_keep; [..|apply steps_same]].
  destruct H1 as (Hstep & o & Ho & _). apply wp_bind. eapply wp_load; [done|]. apply wp_bind.
  assert (forall Q : list put -> ubusd -> Prop, (forall l, Q l s1) ->
    wp (match attr UBUS_ATTR_SIGNATURE, obj_type o with
                 | Some _, Some t =>
                     t ← load (T := ubus_object_type) t;
                     mret [put_int32 UBUS_ATTR_OBJTYPE (type_id t)]
                 | _, _ => mret []
                 end) Q s1) as Hput.
  { intros Q HQ. destruct (attr UBUS_ATTR_SIGNATURE); [|by apply wp_ret].
    destruct (obj_type o) as [t|] eqn:Et; [|by apply wp_ret].
    destruct (wf_obj_type_live W s1 p o t Ho Et (inv_wf _ _ _ Hi1)) as [ty Hty].
    apply wp_bind. eapply wp_load; [exact Hty|]. apply wp_ret, HQ. }
  apply Hput. intros type_put. apply wp_bind.
  eapply wp_mono; [|eapply (send_msg_from_blob_spec (ub :: ext)); [apply Hi1|eapply wf_mon, Hi1| |]].
  - intros [] s2 Hq. apply wp_ret. apply handled_keep; [done|exact (quiet_inv _ _ _ _ _ Hq Hi1)| |].
    + etrans; [exact Hk1|by eapply quiet_keeps].
    + transitivity s1; [by apply steps_one|by eapply steps_same, quiet_bus].
  - by eapply keeps_live.
  - eapply minv_live; [apply Hi1|by left].
Qed.

(** ** Listing objects *)

Lemma visible_methods_run W s cl key l :
  wf W s -> is_Some (h_clients s !! cl) -> exists r, visible_methods cl key l s = Some (r, s).
Proof.
  intros Hw Hcl. induction l as [|m l [r IH]]; [by eexists|].
  destruct (acl_check_run W s (Some cl) (Some key) (Some (blobmsg_name (m_data m))) UBUS_ACL_ACCESS) as [rc E];
    [done|eauto|by intros ? [= <-]|].
  cbn [visible_methods]. unfold mbind, stm_bind. rewrite E, IH. by eexists.
Qed.

Lemma send_obj_spec W ext cl ub p o key s :
  inv W ext s -> is_Some (h_clients s !! cl) -> is_Some (h_msgs s !! ub) ->
  h_objects s !! p = Some o -> obj_path o = Some key ->
  wp (ubusd_send_obj cl ub p) (fun _ => quiet ext s) s.
Proof.
  intros Hi Hcl Hub Ho Hk. unfold ubusd_send_obj. apply wp_bind. eapply wp_load; [done|].
  destruct (obj_type o) as [t|] eqn:Et; [|apply wp_ret, quiet_refl, Hi].
  destruct (wf_obj_type_live W s p o t Ho Et (inv_wf _ _ _ Hi)) as [ty Hty].
  apply wp_bind. eapply wp_load; [exact Hty|]. rewrite Hk. apply wp_bind.
  destruct (visible_methods_run W s cl key (type_methods ty) (inv_wf _ _ _ Hi) Hcl) as [sig E].
  eapply wp_eq; [exact E|]. case_match; [|apply wp_ret, quiet_refl, Hi].
  apply send_msg_from_blob_spec; [apply Hi|eapply wf_mon, Hi|done|done].
Qed.

(** An entry of the path tree is a live object with that path. *)
Lemma path_entry W s s' ext key p :
  wf W s -> (key, p) ∈ avl_list (path s) -> quiet ext s s' ->
  exists o, h_objects s' !! p = Some o /\ obj_path o = Some key.
Proof.
  intros Hw Hin Hq. apply (tree_in _ _ (wf_path _ _ Hw)), omap_Some_2 in Hin as (o & Ho & Hk).
  destruct (quiet_object _ _ _ _ _ Hq Ho) as (o' & Ho' & E). exists o'. split; [done|].
  rewrite <- Hk. exact (f_equal obj_path E).
Qed.

Lemma from_node_sub {K} p (l : list (K * ptr)) e : e ∈ from_node p l -> e ∈ l.
Proof.
  induction l as [|x l IH]; simpl; [done|]. case_decide; [done|]. intros Hin. right. by apply IH.
Qed.

Lemma dup_path_spec ext p o key s (Q : option string -> ubusd -> Prop) :
  minv ext s -> h_objects s !! p = Some o -> obj_path o = Some key ->
  (forall r o', Q r (s <| os := o' |>)) -> wp (dup_path p) Q s.
Proof.
  intros Hm Ho Hk HQ. unfold dup_path. apply wp_bind. eapply wp_load; [done|]. rewrite Hk.
  apply wp_bind, wp_try_alloc. intros ok o'. apply wp_ret, HQ.
Qed.

Lemma client_refs_cmd c m k :
  client_refs (c <| cl_cmd_queue ::= fun q => q ++ [mk_client_cmd m k] |>) ≡ₚ m :: client_refs c.
Proof.
  unfold client_refs. simpl. rewrite fmap_app, <- !app_assoc. simpl.
  rewrite (app_assoc (cl_tx_queue c)), (app_assoc (cl_tx_queue c)). symmetry. apply Permutation_middle.
Qed.

Lemma cmd_queue_add_spec W ext cl ub obj s :
  inv W (ub :: ext) s -> is_Some (h_clients s !! cl) -> owners (h_clients s) ub = 0 ->
  (forall p, obj = Some p -> exists o key, h_objects s !! p = Some o /\ obj_path o = Some key) ->
  wp (ubus_client_cmd_queue_add cl ub obj) (handled W ext cl ub s) s.
Proof.
  intros [Hm Hw] [c Hc] Hown Hobj. unfold ubus_client_cmd_queue_add.
  assert (forall o st, handled W ext cl ub s (status_code st) (s <| os := o |>)) as Hst.
  { intros o st. apply handled_quiet; [by destruct st|done|by apply quiet_os]. }
  apply wp_bind, wp_try_alloc. intros [] o1; [|apply wp_ret, Hst].
  simpl negb. cbv iota. apply wp_bind.
  assert (forall Q : option (option string) -> ubusd -> Prop, (forall r o', Q r (s <| os := o' |>)) ->
    wp (match obj with
        | None => mret (Some None)
        | Some obj => key ← dup_path obj; mret (match key with Some k => Some (Some k) | None => None end)
        end) Q (s <| os := o1 |>)) as Hlp.
  { intros Q HQ. destruct obj as [p|]; [|apply wp_ret, HQ]. destruct (Hobj p eq_refl) as (o & key & Ho & Hk).
    apply wp_bind. eapply (dup_path_spec (ub :: ext)); [by apply minv_os|exact Ho|exact Hk|].
    intros r o'. apply wp_ret. apply (HQ _ o'). }
  apply Hlp. intros [lp|] o2; [|apply wp_ret, Hst].
  apply wp_bind. eapply wp_store; [exact Hc|]. apply wp_ret. split.
  - eapply (wf_upd_client W (s <| os := o2 |>)); [exact Hc|done..|by apply wf_os].
  - rewrite decide_True by done. eapply (minv_give ext (s <| os := o2 |>) ub); [exact Hc|apply client_refs_cmd|done| |by apply minv_os].
    destruct (minv_clients _ _ Hm _ _ Hc). by split.
  - intros cl' c' Hc'. simpl. destruct (decide (cl = cl')) as [<-|Hne].
    + rewrite lookup_insert_eq. simplify_eq. eauto.
    + rewrite lookup_insert_ne by done. eauto.
  - apply steps_same. change (bus_of s) with (bus_of (s <| os := o2 |>)). by apply (bus_upd_client _ cl c).
Qed.

(** Whatever [fin] holds after quiet steps and after the command has been
    queued holds after the lookup. *)
Lemma handle_lookup_cmd_gen W E cl ub attr cmd (fin : Z -> ubusd -> Prop) s :
  inv W E s -> is_Some (h_clients s !! cl) -> is_Some (h_msgs s !! ub) ->
  (forall ret s', (ret <> -2)%Z -> quiet E s s' -> fin ret s') ->
  (forall s' key p, quiet E s s' -> (key, p) ∈ avl_list (path s) ->
     wp (match cmd with
         | None => ret ← ubus_client_cmd_queue_add cl ub (Some p); mret (Some ret)
         | Some _ => k ← dup_path p; cmd_set_lookup_path cl k;; mret (Some (-2)%Z)
         end) (fun r s'' => exists ret, r = Some ret /\ fin ret s'') s') ->
  wp (handle_lookup_cmd cl ub attr cmd) fin s.
Proof.
  intros Hi Hcl [u Hu] Hfin Hqueue. pose proof (inv_wf _ _ _ Hi) as Hw.
  assert (forall key p s', (key, p) ∈ avl_list (path s) -> quiet E s s' ->
    wp (ubusd_send_obj cl ub p) (fun _ => quiet E s) s') as Hsend.
  { intros key p s' Hin Hq. destruct (path_entry _ _ _ _ _ _ Hw Hin Hq) as (o & Ho & Hk).
    eapply wp_mono; [|eapply send_obj_spec; [exact (quiet_inv _ _ _ _ _ Hq Hi)| | |exact Ho|exact Hk]].
    - intros [] s2 Hq2. by eapply quiet_trans.
    - eapply keeps_live; [by eapply quiet_keeps|done].
    - exists u. by eapply quiet_msg. }
  assert (quiet E s s) as Hq0 by (apply quiet_refl, Hi).
  assert (forall st : ubus_msg_status, fin st s) as Hst by (intros st; apply Hfin; [by destruct st|done]).
  unfold handle_lookup_cmd. apply wp_bind, wp_gets. destruct (attr UBUS_ATTR_OBJPATH) as [a|].
  - destruct (split_last (blob_string a)) as [[prefix last]|]; [|apply wp_ret, Hst]. destruct (negb _).
    + destruct (avl_find (path s) (blob_string a)) as [p|] eqn:Ef; [|apply wp_ret, Hst].
      apply avl_find_Some in Ef. apply wp_bind. eapply wp_mono; [|exact (Hsend _ _ _ Ef Hq0)].
      intros [] s1 H1. apply wp_ret. by apply Hfin.
    + destruct (avl_find_ge (path s) prefix) as [p|]; [|apply wp_ret, Hst]. apply wp_bind.
      assert (forall l found s', (forall e, e ∈ l -> e ∈ avl_list (path s)) -> quiet E s s' ->
        wp (lookup_prefix_loop cl ub prefix found l) (fun _ => quiet E s) s') as Hloop.
      { clear p. induction l as [|[key p] l IH]; intros found s' Hl Hq; [by apply wp_ret|]. simpl.
        destruct (starts_with prefix key); [|by apply wp_ret]. apply wp_bind.
        eapply wp_mono; [|eapply (Hsend key); [apply Hl; by left|done]]. intros [] s2 Hq2. apply IH; [|done].
        intros e He. apply Hl. by right. }
      eapply wp_mono; [|apply Hloop; [apply from_node_sub|done]]. intros found s1 H1.
      destruct found; apply wp_ret; by apply Hfin.
  - set (start := match cmd ≫= cmd_lookup_path with Some _ => _ | None => _ end).
    assert (forall e, e ∈ start -> e ∈ avl_list (path s)) as Hstart.
    { subst start. intros e. destruct (cmd ≫= cmd_lookup_path) as [key|]; [|done].
      destruct (avl_find_ge (path s) key); [apply from_node_sub|]. intros He. by apply not_elem_of_nil in He. }
    clearbody start. apply wp_bind.
    eapply (wp_for_until (fun l s' => (forall e, e ∈ l -> e ∈ avl_list (path s)) /\ quiet E s s')); [| |by split].
    2:{ intros s' [_ Hq]. apply wp_ret. by apply Hfin. }
    intros [key p] l s1 [Hl Hq1]. unfold lookup_all_step.
    destruct Hcl as [c Hc]. destruct (quiet_client _ _ _ _ _ Hq1 Hc) as (c1 & Hc1 & _).
    apply wp_bind. eapply wp_load; [exact Hc1|]. case_decide.
    + apply wp_bind. eapply wp_mono; [|eapply (Hsend key); [apply Hl; by left|done]].
      intros [] s2 Hq2. apply wp_ret. split; [|done]. intros e He. apply Hl. by right.
    + eapply wp_mono; [|eapply (Hqueue s1 key p); [done|apply Hl; by left]].
      intros r s2 (ret & -> & Hf). by apply wp_ret.
Qed.

Lemma handle_lookup_spec W ext cl ub attr s :
  inv W (ub :: ext) s -> is_Some (h_clients s !! cl) -> owners (h_clients s) ub = 0 ->
  wp (ubusd_handle_lookup cl ub attr) (handled W ext cl ub s) s.
Proof.
  intros Hi Hcl Hown. unfold ubusd_handle_lookup. destruct (minv_live _ _ ub (inv_minv _ _ _ Hi) ltac:(by left)) as [u Hu].
  destruct Hcl as [c Hc]. apply wp_bind. eapply wp_load; [done|]. case_decide; [|by apply cmd_queue_add_spec; eauto].
  eapply (handle_lookup_cmd_gen W (ub :: ext)); [done|eauto|eauto| |].
  - intros ret s' Hr Hq. apply handled_quiet; [done|apply Hi|done].
  - intros s1 key p Hq Hin. apply wp_bind.
    destruct (path_entry _ _ _ _ _ _ (inv_wf _ _ _ Hi) Hin Hq) as (o & Ho & Hk).
    eapply wp_mono; [|eapply (cmd_queue_add_spec W ext); [exact (quiet_inv _ _ _ _ _ Hq Hi)| | |]].
    + intros ret s2 [H1 H2 H3 H4]. apply wp_ret. exists ret. split; [done|]. split; [done|done| |].
      * etrans; [apply stays_of_keeps; by eapply quiet_keeps|done].
      * transitivity s1; [by eapply steps_same, quiet_bus|done].
    + eapply keeps_live; [by eapply quiet_keeps|eauto].
    + rewrite <- Hown. by eapply quiet_owners.
    + intros ? [= <-]. eauto.
Qed.

(** ** The reply message *)

(** [cl->retmsg] is live, has its own buffer and room for the status. *)
Lemma retmsg_live W ext cl c s :
  inv W ext s -> h_clients s !! cl = Some c -> cl ∉ wk_clients W ->
  exists r u, cl_retmsg c = Some r /\ h_msgs s !! r = Some u /\ ub_refcount u = USES_EXTERNAL_BUFFER /\
    12 <= length (ub_data u).
Proof.
  intros [Hm Hw] Hc Hni. destruct (wf_retmsg _ _ Hw cl c Hc Hni) as [r Hr].
  destruct (co_ret _ _ (minv_clients _ _ Hm _ _ Hc) r Hr) as (u & Hu & He & Hl). eauto 6.
Qed.

(** Writing to an external message that nobody but its owner sees *)
Lemma store_retmsg ext r u u' s :
  minv ext s -> h_msgs s !! r = Some u -> msg_like u u' -> ub_refcount u' = ub_refcount u ->
  minv ext (s <| h_msgs ::= insert r u' |>) /\ reg (s <| h_msgs ::= insert r u' |>) = reg s.
Proof. intros Hm Hu Hl Hr. split; [by eapply minv_upd_msg|done]. Qed.

Lemma send_retmsg_spec W ext cl c r ret s :
  inv W ext s -> h_clients s !! cl = Some c -> cl_retmsg c = Some r ->
  wp (send_retmsg cl r ret) (fun _ s' => inv W ext s' /\ reg s' = reg s) s.
Proof.
  intros [Hm Hw] Hc Hr. destruct (co_ret _ _ (minv_clients _ _ Hm _ _ Hc) r Hr) as (u & Hu & He & Hl).
  unfold send_retmsg. apply wp_bind. eapply wp_load; [done|]. apply wp_bind, wp_assert.
  { apply fits_spec. rewrite length_be32. lia. }
  apply wp_bind. eapply wp_store; [done|]. set (u1 := u <| ub_data ::= _ |>).
  destruct (store_retmsg ext r u u1 s Hm Hu) as [Hm1 Hr1]; [apply splice_like; [lia|rewrite length_be32; lia]|done|].
  eapply wp_mono; [|eapply (msg_send_spec ext cl c r u1); [exact Hm1| |exact Hc|by split; [apply lookup_insert_eq|left]]].
  - intros [] s2 [Hm2 Hio2 _ _]. assert (reg s2 = reg s) as E by (rewrite <- (io_reg _ _ _ Hio2); exact Hr1).
    split; [|done]. split; [done|]. by eapply wf_of_reg.
  - exact (wf_mon _ _ Hw).
Qed.

Lemma prepare_retmsg_spec W ext cl c ub s :
  inv W ext s -> h_clients s !! cl = Some c -> cl ∉ wk_clients W -> is_Some (h_msgs s !! ub) ->
  wp (prepare_retmsg cl ub) (fun r s' => inv W ext s' /\ reg s' = reg s /\ h_clients s' = h_clients s /\
    cl_retmsg c = Some r) s.
Proof.
  intros Hi Hc Hni [u Hu]. destruct (retmsg_live _ _ _ _ _ Hi Hc Hni) as (r & ur & Hr & Hur & He & Hl).
  unfold prepare_retmsg. apply wp_bind. eapply wp_load; [done|]. apply wp_bind. eapply wp_load; [done|]. rewrite Hr.
  apply wp_bind. eapply wp_store; [done|]. apply wp_ret. destruct Hi as [Hm Hw]. split; [|done].
  split; [by eapply minv_upd_msg|by eapply wf_of_reg; [|exact Hw]].
Qed.
End ProtoSpec.
