(* ===== verification/HandlerSpec.v ===== *)
(** * The protocol handlers are safe, continued

    Queued lookups, the built-in objects, calls, notifications, responses and
    subscriptions. *)

From stdpp Require Import base gmap strings list fin_maps sets.
From Stdlib Require Import ZArith Lia.
From S2P Require Import Prelude Wire Cstring Libubox Ids State MsgBuf Frame SendSpec Wf WfOps Registry Acl Reply.
From S2P Require Import Event Obj Proto AclSpec Bus ReplySpec RegistrySpec EventSpec ObjSpec ProtoSpec.
Local Open Scope ubus_scope.

Section HandlerSpec.
Context `{AL : AvlLib} `{BL : BlobLib} `{!AvlLaws AL} `{!BlobLaws BL}.
Implicit Types (s : ubusd) (W : work).

(** ** Resumed lookups *)

Lemma set_lookup_path_spec W ext cl key s :
  inv W ext s -> is_Some (h_clients s !! cl) ->
  wp (cmd_set_lookup_path cl key) (fun _ s' => inv W ext s' /\ stays s s' /\ bus_of s' = bus_of s) s.
Proof.
  intros [Hm Hw] [c Hc]. unfold cmd_set_lookup_path. eapply wp_store; [exact Hc|]. split; [split|split].
  - eapply minv_upd_client; [exact Hc| | |exact Hm].
    + unfold client_refs. simpl. by destruct (cl_cmd_queue c).
    + destruct (minv_clients _ _ Hm _ _ Hc). by split.
  - by eapply wf_upd_client.
  - intros cl' c' Hc'. simpl. destruct (decide (cl = cl')) as [<-|Hne].
    + rewrite lookup_insert_eq. simplify_eq. eauto.
    + rewrite lookup_insert_ne by done. eauto.
  - by apply (bus_upd_client _ _ c).
Qed.

(** A resumed lookup either is suspended again (-2) or has been answered. *)
Lemma cmd_lookup_spec W ext cl c cmd s :
  inv W ext s -> h_clients s !! cl = Some c -> cl ∉ wk_clients W -> cmd ∈ cl_cmd_queue c ->
  wp (ubusd_cmd_lookup cl cmd) (fun ret s' => inv W ext s' /\ stays s s' /\ bus_of s' = bus_of s /\
    ((ret <> -2)%Z -> reg s' = reg s)) s.
Proof.
  intros Hi Hc Hni Hin. unfold ubusd_cmd_lookup.
  destruct (minv_live_owned ext s (cmd_msg cmd) cl c) as [u Hu]; [apply Hi|done| |].
  { unfold client_refs. rewrite !elem_of_app. right. left. by apply list_elem_of_fmap_2. }
  apply wp_bind. eapply wp_load; [done|]. apply wp_bind.
  eapply (handle_lookup_cmd_gen W ext); [done|eauto|eauto| |].
  - intros ret s1 Hr Hq. apply wp_bind. apply Z.eqb_neq in Hr as ->.
    pose proof (quiet_inv _ _ _ _ _ Hq Hi) as Hi1. destruct (quiet_client _ _ _ _ _ Hq Hc) as (c1 & Hc1 & E1).
    apply wp_bind. eapply wp_mono; [|eapply prepare_retmsg_spec; [exact Hi1|exact Hc1|done|exists u; by eapply quiet_msg]].
    intros r s2 (Hi2 & Hr2 & Ec2 & Eret). eapply wp_mono; [|eapply send_retmsg_spec; [exact Hi2|by rewrite Ec2|done]].
    intros [] s3 [Hi3 Hr3]. apply wp_ret. assert (reg s3 = reg s) as E.
    { rewrite Hr3, Hr2. symmetry. apply Hq. }
    split; [done|]. split; [apply stays_of_keeps, keeps_reg; by rewrite E|]. split; [by apply bus_reg|done].
  - intros s1 key p Hq Hin'. destruct (path_entry _ _ _ _ _ _ (inv_wf _ _ _ Hi) Hin' Hq) as (o & Ho & Hk).
    pose proof (quiet_inv _ _ _ _ _ Hq Hi) as [Hm1 Hw1].
    apply wp_bind. eapply dup_path_spec; [exact Hm1|exact Ho|exact Hk|]. intros k o'. apply wp_bind.
    destruct (quiet_client _ _ _ _ _ Hq Hc) as (c1 & Hc1 & E1).
    eapply wp_mono; [|eapply (set_lookup_path_spec W ext); [split; [by apply minv_os|by apply wf_os]|eauto]].
    intros [] s2 (Hi2 & Hs2 & Eb2). apply wp_ret. eexists. split; [done|]. apply wp_bind, wp_ret, wp_ret.
    split; [done|]. split; [|split; [|done]].
    + etrans; [|exact Hs2]. apply stays_of_keeps. exact (quiet_keeps _ _ _ Hq).
    + etrans; [exact Eb2|exact (quiet_bus _ _ _ Hq)].
Qed.

(** ** The monitor object *)

Lemma monitor_disconnect_spec W ext cl s :
  inv W ext s ->
  wp (ubusd_monitor_disconnect cl) (fun _ s' => inv W ext s' /\ h_clients s' = h_clients s /\
    h_objects s' = h_objects s /\ h_msgs s' = h_msgs s /\ cl ∉ (mon_cl <$> monitors s') /\ steps cl s s') s.
Proof.
  intros [Hm Hw]. unfold ubusd_monitor_disconnect, ubusd_monitor_find. apply wp_bind, wp_gets.
  destruct (list_find _ _) as [[i m]|] eqn:E.
  - apply list_find_Some in E as (Hi & Hcl & _). apply wp_modify. split; [split|].
    + apply (minv_same ext s); [done|done| |done]. destruct (minv_fresh _ _ Hm). by split.
    + by apply wf_del_monitor.
    + split; [done|]. split; [done|]. split; [done|].
      pose proof (wf_mon_nodup _ _ Hw) as Hnd.
      assert ((mon_cl <$> monitors s) !! i = Some cl) as Hl by (rewrite list_lookup_fmap, Hi; simpl; by rewrite Hcl).
      split; [simpl; rewrite list_fmap_delete, (delete_Permutation _ _ _ Hl) in *; by apply NoDup_cons in Hnd as []|].
      apply (steps_to cl s _ (bus_of s <| bus_monitors ::= delete i |>)).
      * by apply step_unmonitor.
      * unfold bus_of. simpl. by rewrite list_fmap_delete.
  - apply list_find_None in E. apply wp_ret. split; [done|]. split; [done|]. split; [done|]. split; [done|]. split; [|done].
    intros (m & -> & Hin)%list_elem_of_fmap. rewrite Forall_forall in E. by apply (E m Hin).
Qed.

Lemma monitor_recv_spec W ext cl method s :
  inv W ext s -> is_Some (h_clients s !! cl) ->
  wp (ubusd_monitor_recv cl method) (fun r s' => (0 <= r)%Z /\ inv W ext s' /\ keeps s s' /\ steps cl s s') s.
Proof.
  intros Hi [c Hc]. unfold ubusd_monitor_recv. apply wp_bind. eapply wp_load; [done|].
  destruct (Z.eqb_spec (cl_uid c) 0) as [Eu|]; [|by apply wp_ret]. destruct (Z.eqb_spec (cl_gid c) 0) as [Eg|]; [|by apply wp_ret].
  simpl orb. cbv iota. destruct (strcmp method "add" =? 0)%Z.
  - unfold ubusd_monitor_connect. apply wp_bind, wp_bind. eapply wp_mono; [|by apply (monitor_disconnect_spec W ext)].
    intros [] s1 ([Hm1 Hw1] & Ec1 & _ & _ & Hni & Hb1). apply wp_bind, wp_try_alloc. intros [] o.
    + apply wp_bind, wp_modify, wp_ret, wp_ret. split; [done|]. split; [split|split; [by apply keeps_same|]].
      * apply (minv_same ext s1); [done|done| |done]. destruct (minv_fresh _ _ Hm1). by split.
      * apply (wf_add_monitor W (s1 <| os := o |>)); [simpl; rewrite Ec1; eauto|done|by apply wf_os].
      * transitivity s1; [done|]. apply (steps_to cl s1 _ (bus_of s1 <| bus_monitors ::= fun l => l ++ [cl] |>)).
        -- apply (step_monitor cl _ (cred_of c)); [|done|done]. apply bus_user. by rewrite Ec1.
        -- unfold bus_of. simpl. by rewrite fmap_app.
    + apply wp_ret, wp_ret. split; [done|]. split; [|split; [by apply keeps_same|transitivity s1; [done|by apply steps_same]]].
      split; [by apply minv_os|by apply wf_os].
  - destruct (strcmp method "remove" =? 0)%Z; [|by apply wp_ret].
    apply wp_bind. eapply wp_mono; [|by apply (monitor_disconnect_spec W ext)].
    intros [] s1 (Hi1 & Ec1 & _ & _ & _ & Hb1). apply wp_ret. split; [done|]. split; [done|]. split; [by apply keeps_same|done].
Qed.

(** ** The ACL object *)

Lemma reply_add_loop_run s key m l :
  (forall k p, (k, p) ∈ l -> is_Some (h_acls s !! p)) -> exists r, reply_add_loop key m l s = Some (r, s).
Proof.
  revert m. induction l as [|[akey p] l IH]; intros m Hl; [by eexists|].
  assert (forall m, exists r, reply_add_loop key m l s = Some (r, s)) as IH'.
  { intros m'. apply IH. intros k q Hin. eapply Hl. by right. }
  destruct (Hl akey p) as [acl Hp]; [by left|]. cbn [reply_add_loop]. unfold mbind, stm_bind, load. simpl. rewrite Hp.
  destruct (acl_priv acl); [|apply IH']. destruct (ubus_strmatch_len key akey) as [f n].
  destruct (_ <? m)%Z; [by eexists|]. destruct (negb f && _); [apply IH'|].
  destruct (IH' n) as [r ->]. by eexists.
Qed.

Lemma reply_add_all_run W s l :
  wf W s -> (forall p, p ∈ l -> is_Some (h_objects s !! p)) -> exists r, reply_add_all l s = Some (r, s).
Proof.
  intros Hw. induction l as [|p l IH]; intros Hl; [by eexists|].
  destruct (Hl p) as [o Ho]; [by left|]. destruct IH as [r IH]; [intros; apply Hl; by right|].
  assert (exists b, ubusd_reply_add p s = Some (b, s)) as [b Eb].
  { unfold ubusd_reply_add, mbind, stm_bind, load, gets. simpl. rewrite Ho. destruct (obj_path o); [|by eexists].
    apply reply_add_loop_run. intros k q Hin.
    apply (tree_in _ _ (wf_acls _ _ Hw)), fmap_Some_2 in Hin as (acl & Hq & _). eauto. }
  cbn [reply_add_all]. unfold mbind, stm_bind. rewrite Eb, IH. by eexists.
Qed.

Lemma reply_query_spec W ext cl ub attr s :
  inv W ext s -> is_Some (h_clients s !! cl) -> is_Some (h_msgs s !! ub) ->
  wp (ubusd_reply_query cl ub attr) (fun r s' => (0 <= r)%Z /\ quiet ext s s') s.
Proof.
  intros Hi [c Hc] Hub. unfold ubusd_reply_query.
  assert (forall st : ubus_msg_status, (0 <= status_code st)%Z /\ quiet ext s s) as Hst.
  { intros st. split; [apply status_nonneg|apply quiet_refl, Hi]. }
  destruct (attr UBUS_ATTR_OBJID); [|apply wp_ret, (Hst UBUS_STATUS_INVALID_ARGUMENT)].
  apply wp_bind. eapply wp_find_object; [apply Hi|apply wp_ret, (Hst UBUS_STATUS_NOT_FOUND)|]. intros p o Ho _.
  apply wp_bind. eapply wp_load; [done|]. apply wp_bind, wp_gets, wp_bind. eapply wp_load; [done|].
  destruct (reply_add_all_run W s (cl_objects c)) as [acls E]; [apply Hi| |].
  { intros q Hq. eapply (lo_in _ _ (wf_owned _ _ (inv_wf _ _ _ Hi)) cl) in Hq; [|by apply fmap_Some_1].
    apply omap_Some_2 in Hq as (oq & Hoq & _). eauto. }
  apply wp_bind. eapply wp_eq; [exact E|]. apply wp_bind.
  eapply wp_mono; [|apply (send_msg_from_blob_spec ext); [apply Hi|eapply wf_mon, Hi|eauto|done]].
  intros [] s1 Hq. by apply wp_ret.
Qed.

(** The built-in objects hand the message back. *)
Lemma call_recv_msg_spec W ext cb cl ub method msg s :
  inv W (ub :: ext) s -> is_Some (h_clients s !! cl) -> is_Some cb ->
  wp (call_recv_msg cb cl ub method msg) (handled W ext cl ub s) s.
Proof.
  intros Hi Hcl [cb' ->].
  assert (forall r s', (0 <= r)%Z /\ inv W (ub :: ext) s' /\ keeps s s' /\ steps cl s s' -> handled W ext cl ub s r s') as Hh.
  { intros r s' (Hr & Hi' & Hk & Hb). apply handled_keep; [lia|done..]. }
  destruct cb'; simpl.
  - eapply wp_mono; [exact Hh|by apply event_recv_spec].
  - unfold ubusd_acl_recv. destruct (strcmp method "query" =? 0)%Z.
    + destruct (minv_live _ _ ub (inv_minv _ _ _ Hi) ltac:(by left)) as [u Hu].
      apply wp_bind. eapply wp_load; [done|]. eapply wp_mono; [|apply (reply_query_spec W (ub :: ext)); eauto].
      intros r s' [Hr Hq]. apply handled_quiet; [lia|apply Hi|done].
    + apply wp_ret, handled_status, Hi.
  - eapply wp_mono; [exact Hh|by apply monitor_recv_spec].
Qed.

(** ** Calls and notifications *)

Lemma forward_invoke_spec ext b cl p o ocl method ub data s :
  minv ext s -> mon_live s -> is_Some (h_clients s !! cl) -> is_Some (h_msgs s !! ub) ->
  h_objects s !! p = Some o -> obj_client o = Some ocl -> is_Some (h_clients s !! ocl) ->
  wp (ubusd_forward_invoke b cl p method ub data) (fun _ => quiet ext s) s.
Proof.
  intros Hm Hl [c Hc] Hub Ho Hoc Hlive. unfold ubusd_forward_invoke.
  apply wp_bind. eapply wp_load; [done|]. apply wp_bind. eapply wp_load; [done|]. rewrite Hoc.
  by apply send_msg_from_blob_spec.
Qed.

(** A store to the message in hand *)
Lemma store_ub W ext ub u u' s :
  inv W (ub :: ext) s -> h_msgs s !! ub = Some u -> msg_like u u' -> ub_refcount u' = ub_refcount u ->
  inv W (ub :: ext) (s <| h_msgs ::= insert ub u' |>) /\ reg (s <| h_msgs ::= insert ub u' |>) = reg s.
Proof.
  intros [Hm Hw] Hu Hl Hr. split; [|done]. split; [by eapply minv_upd_msg|by eapply wf_of_reg; [|exact Hw]].
Qed.

Lemma invoke_spec W ext cl ub attr s :
  inv W (ub :: ext) s -> wk_objs W = [] -> is_Some (h_clients s !! cl) ->
  wp (ubusd_handle_invoke cl ub attr) (handled W ext cl ub s) s.
Proof.
  intros Hi HW Hcl. unfold ubusd_handle_invoke. pose proof (fun st => handled_status W ext cl ub s st Hi) as Hst.
  destruct (attr UBUS_ATTR_METHOD) as [am|]; [|apply wp_ret, Hst].
  destruct (attr UBUS_ATTR_OBJID) as [aid|]; [|apply wp_ret, Hst].
  apply wp_bind. eapply wp_find_object; [apply Hi|apply wp_ret, Hst|]. intros p o Ho _.
  apply wp_bind. eapply wp_load; [done|]. apply wp_bind.
  eapply wp_acl_check; [apply Hi|eauto|by intros ? [= <-]|]. intros rc. destruct (negb _); [apply wp_ret, Hst|].
  destruct (obj_client o) as [ocl|] eqn:Eoc.
  - destruct Hcl as [c Hc]. destruct (minv_live _ _ ub (inv_minv _ _ _ Hi) ltac:(by left)) as [u Hu].
    apply wp_bind. eapply wp_load; [done|]. apply wp_bind. eapply wp_store; [done|]. set (s1 := set_heap _ _).
    destruct (store_ub W ext ub u (u <| ub_hdr ::= fun h => h <| hdr_peer := cl_id c |> |>) s Hi Hu) as [Hi1 Hr1];
      [by split|done|].
    apply wp_bind. eapply wp_mono; [|eapply (forward_invoke_spec (ub :: ext)); [apply Hi1|eapply wf_mon, Hi1| | |exact Ho|exact Eoc|]].
    + intros [] s2 Hq. pose proof (quiet_inv _ _ _ _ _ Hq Hi1) as Hi2.
      destruct (minv_live _ _ ub (inv_minv _ _ _ Hi2) ltac:(by left)) as [u2 Hu2].
      apply wp_bind. eapply wp_store; [exact Hu2|]. apply wp_ret.
      destruct (store_ub W ext ub u2 (u2 <| ub_fd := (-1)%Z |>) s2 Hi2 Hu2) as [Hi3 Hr3]; [by split|done|].
      apply handled_reg; [done|exact Hi3|]. etrans; [|symmetry; exact Hr3].
      etrans; [symmetry; exact Hr1|apply Hq].
    + simpl. eauto.
    + simpl. rewrite lookup_insert_eq. eauto.
    + by eapply (wf_client_live W s p o), Hi.
  - apply call_recv_msg_spec; [done|done|]. eapply (wf_builtin _ _ (inv_wf _ _ _ Hi)); [exact Ho|done|].
    rewrite HW. set_solver.
Qed.

Lemma subscriber_ids_run W s p o l :
  wf W s -> h_objects s !! p = Some o -> (forall x, x ∈ l -> x ∈ obj_subscribers o) ->
  exists r, subscriber_ids l s = Some (r, s).
Proof.
  intros Hw Ho. induction l as [|x l IH]; intros Hl; [by eexists|].
  destruct IH as [r IH]; [intros; apply Hl; by right|].
  assert (x ∈ obj_subscribers o) as Hx by (apply Hl; by left).
  eapply (lo_in _ _ (wf_subscribers _ _ Hw) p) in Hx; [|by apply fmap_Some_1].
  apply fmap_Some_2 in Hx as (sub & Hsub & _).
  destruct (sub_ends _ _ _ _ Hw Hsub) as (t & so & ct & co & _ & Hso & _).
  cbn [subscriber_ids]. unfold mbind, stm_bind, load. simpl. rewrite Hsub, Hso, IH. by eexists.
Qed.

(** The notification goes to every subscriber; each of them is live. *)
Lemma notify_loop_spec W ext b cl p o method ub data l s0 s :
  inv W ext s0 -> is_Some (h_clients s0 !! cl) -> is_Some (h_msgs s0 !! ub) ->
  h_objects s0 !! p = Some o -> (forall x, x ∈ l -> x ∈ obj_subscribers o) -> quiet ext s0 s ->
  wp (for_each l (fun x =>
        sub ← load (T := ubus_subscription) x;
        ubusd_forward_invoke b cl (s_subscriber sub) method ub data)) (fun _ => quiet ext s0) s.
Proof.
  intros Hi Hcl [u Hu] Ho Hl Hq.
  eapply wp_mono; [|apply (wp_for_each (fun l s' => (forall x, x ∈ l -> x ∈ obj_subscribers o) /\ quiet ext s0 s'))].
  3:{ split; [exact Hl|exact Hq]. }
  { by intros [] s' [_ H]. }
  clear s l Hl Hq. intros x l s [Hl Hq].
  assert (x ∈ obj_subscribers o) as Hx by (apply Hl; by left).
  eapply (lo_in _ _ (wf_subscribers _ _ (inv_wf _ _ _ Hi)) p) in Hx; [|by apply fmap_Some_1].
  apply fmap_Some_2 in Hx as (sub & Hsub & _).
  assert (h_subs s !! x = Some sub) as Hsub1.
  { rewrite <- Hsub. symmetry. exact (f_equal (fun s => h_subs s !! x) (io_reg _ _ _ (quiet_io _ _ _ Hq))). }
  pose proof (quiet_inv _ _ _ _ _ Hq Hi) as Hi1.
  destruct (sub_ends _ _ _ _ (inv_wf _ _ _ Hi1) Hsub1) as (t & so & ct & co & _ & Hso & _ & Hco & _ & Hlive).
  apply wp_bind. eapply wp_load; [exact Hsub1|].
  eapply wp_mono; [|eapply (forward_invoke_spec ext); [apply Hi1|eapply wf_mon, Hi1| | |exact Hso|exact Hco|exact Hlive]].
  - intros [] s2 Hq2. split; [intros; apply Hl; by right|by eapply quiet_trans].
  - eapply keeps_live; [by eapply quiet_keeps|done].
  - exists u. by eapply quiet_msg.
Qed.

Lemma notify_spec W ext cl ub attr s :
  inv W (ub :: ext) s -> is_Some (h_clients s !! cl) ->
  wp (ubusd_handle_notify cl ub attr) (handled W ext cl ub s) s.
Proof.
  intros Hi Hcl. unfold ubusd_handle_notify. pose proof (fun st => handled_status W ext cl ub s st Hi) as Hst.
  destruct (attr UBUS_ATTR_METHOD) as [am|]; [|apply wp_ret, Hst].
  destruct (attr UBUS_ATTR_OBJID) as [aid|]; [|apply wp_ret, Hst].
  set (no_reply := match attr UBUS_ATTR_NO_REPLY with Some _ => _ | None => _ end). clearbody no_reply.
  apply wp_bind. eapply wp_find_object; [apply Hi|apply wp_ret, Hst|]. intros p o Ho _.
  apply wp_bind. eapply wp_load; [done|]. destruct (negb _); [apply wp_ret, Hst|].
  pose proof (minv_live _ _ ub (inv_minv _ _ _ Hi) ltac:(by left)) as Hub. apply wp_bind.
  assert (forall Q : unit -> ubusd -> Prop, (forall s', quiet (ub :: ext) s s' -> Q tt s') ->
    wp (if no_reply then mret tt
        else
          ids ← subscriber_ids (obj_subscribers o);
          ubus_proto_send_msg_from_blob
            [put_int32 UBUS_ATTR_OBJID (obj_id o);
             put_nest UBUS_ATTR_SUBSCRIBERS (put_int32 0 <$> ids);
             put_int32 UBUS_ATTR_STATUS 0] cl ub UBUS_MSG_STATUS) Q s) as Hreply.
  { intros Q HQ. destruct no_reply; [apply wp_ret, HQ, quiet_refl, Hi|].
    destruct (subscriber_ids_run W s p o (obj_subscribers o) (inv_wf _ _ _ Hi) Ho) as [ids E]; [done|].
    apply wp_bind. eapply wp_eq; [exact E|].
    eapply wp_mono; [|apply (send_msg_from_blob_spec (ub :: ext)); [apply Hi|eapply wf_mon, Hi|done|done]].
    intros [] s' Hq. by apply HQ. }
  apply Hreply. intros s1 Hq1. pose proof (quiet_inv _ _ _ _ _ Hq1 Hi) as Hi1.
  destruct Hcl as [c Hc]. destruct (quiet_client _ _ _ _ _ Hq1 Hc) as (c1 & Hc1 & _).
  apply wp_bind. eapply wp_load; [exact Hc1|]. destruct Hub as [u Hu]. pose proof (quiet_msg _ _ _ _ _ Hq1 Hu) as Hu1.
  apply wp_bind. eapply wp_store; [exact Hu1|].
  destruct (store_ub W ext ub u (u <| ub_hdr ::= fun h => h <| hdr_peer := cl_id c1 |> |>) s1 Hi1 Hu1) as [Hi2 Hr2];
    [by split|done|].
  destruct (quiet_object _ _ _ _ _ Hq1 Ho) as (o1 & Ho1 & E1). pose proof (f_equal obj_subscribers E1) as Es. simpl in Es.
  apply wp_bind. eapply wp_mono; [|eapply (notify_loop_spec W (ub :: ext)); [exact Hi2| | |exact Ho1| |apply quiet_refl, Hi2]].
  - intros [] s3 Hq3. apply wp_ret. apply handled_reg; [done|exact (quiet_inv _ _ _ _ _ Hq3 Hi2)|].
    etrans; [apply Hq1|]. etrans; [symmetry; exact Hr2|apply Hq3].
  - simpl. eauto.
  - simpl. rewrite lookup_insert_eq. eauto.
  - intros x Hx. by rewrite Es.
Qed.

(** ** Responses *)

Lemma response_spec W ext cl ub attr s :
  inv W (ub :: ext) s -> owners (h_clients s) ub = 0 ->
  wp (ubusd_handle_response cl ub attr) (handled W ext cl ub s) s.
Proof.
  intros Hi Hown. unfold ubusd_handle_response.
  assert (handled W ext cl ub s (-1)%Z s) as Hno by (apply handled_reg; done).
  destruct (minv_live _ _ ub (inv_minv _ _ _ Hi) ltac:(by left)) as [u Hu].
  apply wp_bind. eapply wp_load; [done|]. destruct (attr UBUS_ATTR_OBJID) as [aid|]; [|by apply wp_ret].
  destruct (_ || _); [by apply wp_ret|].
  apply wp_bind. eapply wp_find_object; [apply Hi|by apply wp_ret|]. intros p o Ho _.
  apply wp_bind. eapply wp_load; [done|]. destruct (negb _); [by apply wp_ret|].
  apply wp_bind, wp_gets. destruct (ubus_find_id (clients s) _) as [peer|] eqn:Ep; [|by apply wp_ret].
  apply (tree_ok_find _ _ _ _ (wf_clients _ _ (inv_wf _ _ _ Hi))), fmap_Some_2 in Ep as (c & Hc & _).
  apply wp_bind. eapply wp_store; [exact Hu|]. apply wp_bind.
  set (u1 := u <| ub_hdr ::= _ |>).
  destruct (store_ub W ext ub u u1 s Hi Hu) as [Hi1 Hr1]; [by split|done|].
  eapply wp_mono; [|eapply (msg_send_spec (ub :: ext) peer c ub u1); [apply Hi1|eapply wf_mon, Hi1|exact Hc|by split; [apply lookup_insert_eq|right]]].
  intros [] s2 [Hm2 Hio2 _ _]. apply wp_ret. assert (reg s = reg s2) as E by (etrans; [symmetry; exact Hr1|apply Hio2]).
  apply handled_reg; [done| |done]. split; [done|]. eapply wf_of_reg; [exact E|apply Hi].
Qed.

(** ** Subscriptions *)

Lemma same_name_eq a b : same_name a b = true -> is_Some b /\ b = a.
Proof. unfold same_name. destruct a as [a|], b as [b|]; try done. intros ->%Z.eqb_eq%strcmp_eq. eauto. Qed.

Lemma add_watch_spec W ext cl ub attr s :
  inv W (ub :: ext) s -> is_Some (h_clients s !! cl) ->
  wp (ubusd_handle_add_watch cl ub attr) (handled W ext cl ub s) s.
Proof.
  intros Hi Hcl. unfold ubusd_handle_add_watch. pose proof (fun st => handled_status W ext cl ub s st Hi) as Hst.
  destruct (attr UBUS_ATTR_OBJID) as [aid|]; [|apply wp_ret, Hst].
  destruct (attr UBUS_ATTR_TARGET) as [atg|]; [|apply wp_ret, Hst].
  apply wp_bind. eapply wp_find_object; [apply Hi|apply wp_ret, Hst|]. intros p o Ho _.
  apply wp_bind. eapply wp_load; [done|]. destruct (bool_decide_reflect (obj_client o = Some cl)) as [Hoc|]; [|apply wp_ret, Hst].
  simpl negb. cbv iota. apply wp_bind. eapply wp_find_object; [apply Hi|apply wp_ret, Hst|]. intros q t Ht _.
  apply wp_bind. eapply wp_load; [done|]. destruct (obj_client t) as [tcl|] eqn:Etc; [|apply wp_ret, Hst].
  destruct (bool_decide_reflect (tcl = cl)) as [|Hne]; [apply wp_ret, Hst|]. apply wp_bind.
  assert (bus_objects (bus_of s) !! q = Some (mk_pub tcl (obj_id t) (obj_path t))) as Hbt by by apply bus_object.
  assert (forall Q : bool -> ubusd -> Prop,
    (forall b, (b = true -> may_watch (bus_of s) cl (mk_pub tcl (obj_id t) (obj_path t))) -> Q b s) ->
    wp (match obj_path t with
        | None =>
            c ← load (T := ubus_client) cl;
            tc ← load (T := ubus_client) tcl;
            mret (same_name (cl_user tc) (cl_user c) || same_name (cl_group tc) (cl_group c))
        | Some key =>
            rc ← ubusd_acl_check (Some cl) (Some key) None UBUS_ACL_SUBSCRIBE;
            mret (rc =? 0)%Z
        end) Q s) as Hallowed.
  { intros Q HQ. unfold may_watch in HQ. simpl in HQ. destruct (obj_path t).
    - apply wp_bind. eapply wp_acl_allowed; [apply Hi|done|done|]. intros r Hr. apply wp_ret, HQ. by intros E%Z.eqb_eq%Hr.
    - destruct Hcl as [c Hc]. destruct (wf_client_live W s q t tcl Ht Etc (inv_wf _ _ _ Hi)) as [tc Htc].
      apply wp_bind. eapply wp_load; [exact Hc|]. apply wp_bind. eapply wp_load; [exact Htc|].
      apply wp_ret, HQ. intros Hn. exists (cred_of c), (cred_of tc). split; [by apply bus_user|]. split; [by apply bus_user|].
      apply orb_true_iff in Hn as [Hn%same_name_eq|Hn%same_name_eq]; [by left|by right]. }
  apply Hallowed. intros [] Hmay; [specialize (Hmay eq_refl)|apply wp_ret, Hst].
  eapply wp_mono; [|eapply (subscribe_spec W (ub :: ext)); [exact Hi|exact Ho|rewrite Hoc; eauto|exact Ht|rewrite Etc; eauto]].
  intros r s' (Hr & Hi' & Hk' & Hbus). apply handled_keep; [lia|done|done|].
  destruct Hbus as [E|(x & Hx & E)]; [by apply steps_same|]. apply steps_one. rewrite E.
  eapply step_subscribe; [exact Hx|by eapply bus_object|done|exact Hbt| |exact Hmay]. simpl. congruence.
Qed.

Lemma remove_watch_spec W ext cl ub attr s :
  inv W (ub :: ext) s ->
  wp (ubusd_handle_remove_watch cl ub attr) (handled W ext cl ub s) s.
Proof.
  intros Hi. unfold ubusd_handle_remove_watch. pose proof (fun st => handled_status W ext cl ub s st Hi) as Hst.
  destruct (attr UBUS_ATTR_OBJID) as [aid|]; [|apply wp_ret, Hst].
  destruct (attr UBUS_ATTR_TARGET) as [atg|]; [|apply wp_ret, Hst].
  apply wp_bind. eapply wp_find_object; [apply Hi|apply wp_ret, Hst|]. intros p o Ho _.
  apply wp_bind. eapply wp_load; [done|].
  destruct (bool_decide_reflect (obj_client o = Some cl)) as [Hoc|]; simpl negb; cbv iota; [|apply wp_ret, Hst]. apply wp_bind.
  apply (wp_for_until (fun l s' => s' = s /\ forall x, x ∈ l -> x ∈ obj_target_list o)); [| |done].
  2:{ intros s' [-> _]. apply wp_ret, Hst. }
  intros x l s' [-> Hl]. assert (x ∈ obj_target_list o) as Hx by (apply Hl; by left).
  eapply (lo_in _ _ (wf_targets _ _ (inv_wf _ _ _ Hi)) p) in Hx; [|by apply fmap_Some_1].
  apply fmap_Some_2 in Hx as (sub & Hsub & Esub).
  destruct (sub_ends _ _ _ _ (inv_wf _ _ _ Hi) Hsub) as (t & so & ct & co & Ht & _).
  apply wp_bind. eapply wp_load; [exact Hsub|]. apply wp_bind. eapply wp_load; [exact Ht|].
  destruct (negb _); [apply wp_ret; split; [done|]; intros; apply Hl; by right|].
  apply wp_bind. eapply wp_mono; [|by eapply (unsubscribe_spec W (ub :: ext))].
  intros [] s1 (Hi1 & Hk1 & Hr1). apply wp_ret, wp_ret. apply handled_keep; [done..|].
  apply steps_one. rewrite (bus_unsub _ _ _ _ Hr1).
  eapply step_unsubscribe; [exact Hsub|rewrite Esub; by eapply bus_object|done].
Qed.

(** ** Dispatch *)

Lemma handler_spec W ext type h cl ub attr s :
  handlers type = Some h -> inv W (ub :: ext) s -> wk_objs W = [] -> is_Some (h_clients s !! cl) ->
  owners (h_clients s) ub = 0 -> wp (h cl ub attr) (handled W ext cl ub s) s.
Proof.
  intros Hh Hi HW Hcl Ho. destruct type; simpl in Hh; try discriminate; injection Hh as <-.
  all: first [ by apply response_spec | by apply pong_spec | by apply handle_lookup_spec | by apply invoke_spec
             | by apply add_object_spec | by apply remove_object_spec | by apply add_watch_spec
             | by apply remove_watch_spec | by apply notify_spec ].
Qed.

Lemma close_fd_spec W ext ub s :
  inv W (ub :: ext) s -> owners (h_clients s) ub = 0 ->
  wp (ubus_msg_close_fd ub) (fun _ s' => inv W (ub :: ext) s' /\ reg s' = reg s /\
    h_clients s' = h_clients s) s.
Proof.
  intros Hi Ho. unfold ubus_msg_close_fd. destruct (minv_live _ _ ub (inv_minv _ _ _ Hi) ltac:(by left)) as [u Hu].
  apply wp_bind. eapply wp_load; [done|]. destruct (_ <? 0)%Z; [by apply wp_ret|].
  apply wp_bind, wp_close. intros o. eapply wp_store; [exact Hu|]. destruct Hi as [Hm Hw].
  destruct (store_ub W ext ub u (u <| ub_fd := (-1)%Z |>) (s <| os := o |>)) as [Hi2 Hr2];
    [split; [by apply minv_os|by apply wf_os]|exact Hu|by split|done|].
  split; [exact Hi2|]. split; [exact Hr2|done].
Qed.

(** A received message is dispatched, answered and dropped. *)
Lemma receive_message_spec W ext cl ub s :
  inv W (ub :: ext) s -> wk_objs W = [] -> cl ∉ wk_clients W -> is_Some (h_clients s !! cl) ->
  owners (h_clients s) ub = 0 ->
  wp (ubusd_proto_receive_message cl ub) (fun _ s' => inv W ext s' /\ stays s s' /\ steps cl s s') s.
Proof.
  intros Hi HW Hni [c Hc] Ho. unfold ubusd_proto_receive_message.
  pose proof (minv_live _ _ ub (inv_minv _ _ _ Hi) ltac:(by left)) as Hub. apply wp_bind.
  eapply wp_mono; [|by eapply (prepare_retmsg_spec W (ub :: ext))]. intros r s1 (Hi1 & Hr1 & Ec1 & Eret).
  destruct (minv_live _ _ ub (inv_minv _ _ _ Hi1) ltac:(by left)) as [u1 Hu1].
  apply wp_bind. eapply wp_load; [done|]. apply wp_bind.
  assert (wp (when (negb (hdr_type (ub_hdr u1) =? UBUS_MSG_STATUS)%Z && negb (hdr_type (ub_hdr u1) =? UBUS_MSG_INVOKE)%Z)
    (ubus_msg_close_fd ub)) (fun _ s' => inv W (ub :: ext) s' /\ reg s' = reg s1 /\ h_clients s' = h_clients s1) s1) as Hcl.
  { destruct (_ && _); unfold when; [|by apply wp_ret]. apply close_fd_spec; [done|]. by rewrite Ec1. }
  eapply wp_mono; [|exact Hcl]. intros [] s2 (Hi2 & Hr2 & Ec2). clear Hcl.
  assert (h_clients s2 !! cl = Some c) as Hc2 by by rewrite Ec2, Ec1.
  assert (owners (h_clients s2) ub = 0) as Ho2 by by rewrite Ec2, Ec1.
  apply wp_bind.
  assert (wp (match msg_of_code (hdr_type (ub_hdr u1)) ≫= handlers with
    | Some cb => cb cl ub (ubus_parse_msg (ub_data u1) (blob_raw_len (ub_data u1)))
    | None => status UBUS_STATUS_INVALID_COMMAND
    end) (handled W ext cl ub s2) s2) as Hh.
  { destruct (msg_of_code _) as [type|]; simpl; [|by apply wp_ret, handled_status].
    destruct (handlers type) as [h|] eqn:Eh; [|by apply wp_ret, handled_status].
    eapply handler_spec; eauto. }
  eapply wp_mono; [|exact Hh]. intros ret s3 [Hw3 Hm3 Hs3 Hb3]. clear Hh.
  assert (steps cl s s3) as Hb by (transitivity s2; [apply steps_same, bus_reg; congruence|done]).
  assert (stays s s3) as Hs.
  { etrans; [|exact Hs3]. apply stays_of_keeps, keeps_same. congruence. }
  destruct (Z.eqb_spec ret (-2)) as [->|Hr]; [by apply wp_ret|]. rewrite decide_False in Hm3 by done.
  apply wp_bind. eapply wp_mono; [|by apply msg_free_spec]. intros [] s4 (Hm4 & Hio4 & Ec4).
  assert (inv W ext s4) as Hi4 by (split; [done|]; eapply wf_of_reg; [apply Hio4|done]).
  assert (steps cl s s4) as Hb4 by (transitivity s3; [done|by eapply steps_same, bus_reg, Hio4]).
  destruct (ret =? -1)%Z; [apply wp_ret; split; [done|]; split; [intros cl' c' Hc'; rewrite Ec4; by apply Hs|done]|].
  destruct (Hs3 cl c Hc2) as (c3 & Hc3 & Er3).
  eapply wp_mono; [|eapply send_retmsg_spec; [exact Hi4|rewrite Ec4; exact Hc3|congruence]].
  intros [] s5 [Hi5 Hr5]. split; [done|]. split; [|transitivity s4; [done|by apply steps_same, bus_reg]].
  etrans; [exact Hs|]. intros cl' c' Hc'. eapply (stays_of_keeps s4); [apply keeps_reg; by rewrite Hr5|by rewrite Ec4].
Qed.
End HandlerSpec.
