(* ===== verification/ClientSpec.v ===== *)
(** * Clients come and go

    Accepting and dropping a connection: [ubusd_proto_new_client],
    [handle_client_disconnect] and what they call. *)

From stdpp Require Import base gmap strings list fin_maps sets.
From Stdlib Require Import ZArith Lia.
From S2P Require Import Prelude Wire Cstring Libubox Ids State MsgBuf Frame SendSpec Wf WfOps Registry Acl Reply.
From S2P Require Import Event Obj Proto Main AclSpec Bus ReplySpec RegistrySpec EventSpec ObjSpec ProtoSpec.
From S2P Require Import HandlerSpec.
Local Open Scope ubus_scope.

Section Adopt.
Context `{AL : AvlLib} `{BL : BlobLib}.
Implicit Types (s : ubusd).

Lemma minv_new_client ext s s' cl c :
  h_msgs s' = h_msgs s -> h_clients s' = <[cl:=c]> (h_clients s) -> fresh_ok s' ->
  h_clients s !! cl = None -> client_refs c = [] -> client_ok (h_msgs s) c -> minv ext s -> minv ext s'.
Proof.
  intros Em Ec Hf Hn Hr Hok [_ Ho Hms Hcs]. split; [done|..]; unfold own_inv; rewrite ?Em, ?Ec; [|done|].
  - intros m. rewrite owners_insert_fresh, Hr, cnt_nil by done. apply Ho.
  - intros p x. rewrite lookup_insert_Some. intros [[_ <-]|[_ Hx]]; [done|by eapply Hcs].
Qed.

(** Permuting what the running code holds *)
Lemma minv_perm ext ext' s : ext ≡ₚ ext' -> minv ext s -> minv ext' s.
Proof.
  intros Hp [Hf Ho Hms Hcs]. split; [done| |done|done]. intros m.
  assert (cnt m ext' = cnt m ext) as -> by (unfold cnt; by rewrite Hp). apply Ho.
Qed.

(** The running code takes over everything a client refers to. *)
Lemma minv_adopt s cl c :
  minv [] s -> h_clients s !! cl = Some c -> minv (client_refs c) (s <| h_clients ::= delete cl |>).
Proof.
  intros [Hf Ho Hms Hcs] Hc. split; [solve_fresh|..]; simpl.
  - intros m. specialize (Ho m). simpl. rewrite (owners_delete _ _ _ m Hc), cnt_nil in Ho.
    destruct Ho as (H1 & _ & H2). split; [lia|]. split; [lia|]. destruct (h_msgs s !! m); lia.
  - done.
  - intros p x [_ Hx]%lookup_delete_Some. by eapply Hcs.
Qed.

(** Dropping a message does not look at the clients. *)
Lemma msg_free_clients ub h s :
  ubus_msg_free ub (s <| h_clients := h |>) =
  match ubus_msg_free ub s with Some (a, s') => Some (a, s' <| h_clients := h |>) | None => None end.
Proof.
  unfold ubus_msg_free, mbind, stm_bind, load, store, free_ptr, when, sys_close, modify. simpl.
  destruct (h_msgs s !! ub) as [u|] eqn:Hu; [|done].
  destruct (_ || _); [destruct (0 <=? ub_fd u)%Z|]; unfold mret, stm_ret; simpl; by rewrite Hu.
Qed.

(** [gone cl E s]: the client's references, as far as they are still to be
    dropped, are [E]; memory is in order but for that. *)
Definition gone (cl : ptr) (E : list ptr) (s : ubusd) : Prop := minv E (s <| h_clients ::= delete cl |>).

Lemma gone_free cl ub E s :
  gone cl (ub :: E) s ->
  wp (ubus_msg_free ub) (fun _ s' => gone cl E s' /\ reg s' = reg s /\ h_clients s' = h_clients s) s.
Proof.
  intros H. pose proof (msg_free_spec E ub _ H) as Hw. unfold wp in *.
  change (s <| h_clients ::= delete cl |>) with (s <| h_clients := delete cl (h_clients s) |>) in Hw.
  rewrite msg_free_clients in Hw. destruct (ubus_msg_free ub s) as [[[] s']|] eqn:E'; [|done].
  destruct Hw as (Hm & Hio & _).
  assert (h_clients s' = h_clients s /\ reg s' = reg s) as [Ec Er].
  { unfold ubus_msg_free, mbind, stm_bind, load, store, free_ptr, when, sys_close, modify in E'. simpl in E'.
    destruct (h_msgs s !! ub) as [u|] eqn:Hu; [|done].
    destruct (_ || _); [destruct (0 <=? ub_fd u)%Z|]; unfold mret, stm_ret in E'; simpl in E';
      rewrite Hu in E'; by injection E' as <-. }
  split; [|done]. unfold gone.
  change (s' <| h_clients ::= delete cl |>) with (s' <| h_clients := delete cl (h_clients s') |>). by rewrite Ec.
Qed.

(** Writing to the client that goes does not matter. *)
Lemma gone_store cl E c c' s :
  gone cl E s -> h_clients s !! cl = Some c -> gone cl E (s <| h_clients ::= insert cl c' |>).
Proof.
  unfold gone. intros H Hc.
  assert (s <| h_clients ::= insert cl c' |> <| h_clients ::= delete cl |> = s <| h_clients ::= delete cl |>) as ->; [|done].
  unfold upd_field. simpl. by rewrite delete_insert_eq.
Qed.

Lemma gone_perm cl E E' s : E ≡ₚ E' -> gone cl E s -> gone cl E' s.
Proof. apply minv_perm. Qed.

Lemma gone_same cl E s s' :
  h_msgs s' = h_msgs s -> h_clients s' = h_clients s -> fresh_ok (s' <| h_clients ::= delete cl |>) ->
  gone cl E s -> gone cl E s'.
Proof. intros Em Ec Hf H. eapply minv_same; [..|exact H]; simpl; [done|by rewrite Ec|done]. Qed.
End Adopt.

Section Disconnect.
Context `{AL : AvlLib} `{BL : BlobLib} `{!AvlLaws AL} `{!BlobLaws BL}.
Implicit Types (s : ubusd) (W : work).

Lemma client_refs_cmd_pop c cmd l :
  client_refs (c <| cl_cmd_queue := cmd :: l |>) ≡ₚ cmd_msg cmd :: client_refs (c <| cl_cmd_queue := l |>).
Proof. unfold client_refs. simpl. symmetry. apply Permutation_middle. Qed.

Lemma cmd_free_spec W cl c cmd l s :
  inv W [] s -> h_clients s !! cl = Some (c <| cl_cmd_queue := cmd :: l |>) ->
  wp (ubus_client_cmd_free cl cmd) (fun _ s' => inv W [] s' /\
    h_clients s' = <[cl := c <| cl_cmd_queue := l |>]> (h_clients s) /\ bus_of s' = bus_of s) s.
Proof.
  intros [Hm Hw] Hc. unfold ubus_client_cmd_free. apply wp_bind. eapply wp_store; [exact Hc|].
  assert (minv [cmd_msg cmd] (s <| h_clients ::= insert cl (c <| cl_cmd_queue := l |>) |>)) as Hm1.
  { eapply (minv_take [] s); [exact Hc|apply client_refs_cmd_pop|done| |done].
    destruct (minv_clients _ _ Hm _ _ Hc). by split. }
  eapply wp_mono; [|exact (msg_free_spec [] _ _ Hm1)]. intros [] s2 (Hm2 & Hio2 & Ec2). split; [|split; [exact Ec2|]].
  - split; [done|]. eapply wf_of_reg; [apply Hio2|]. by eapply wf_upd_client.
  - rewrite (bus_reg _ _ (io_reg _ _ _ Hio2)). by eapply (bus_upd_client s).
Qed.

Lemma cmd_queue_free_spec W cl c s :
  inv W [] s -> h_clients s !! cl = Some c ->
  wp (for_each (cl_cmd_queue c) (ubus_client_cmd_free cl)) (fun _ s' => inv W [] s' /\
    h_clients s' !! cl = Some (c <| cl_cmd_queue := [] |>) /\ bus_of s' = bus_of s) s.
Proof.
  intros Hi Hc. apply (wp_for_each (fun l s' => inv W [] s' /\ h_clients s' !! cl = Some (c <| cl_cmd_queue := l |>) /\
    bus_of s' = bus_of s)).
  2:{ split; [done|]. rewrite Hc. by destruct c. }
  intros cmd l s1 (Hi1 & Hc1 & Eb1). eapply wp_mono; [|by eapply cmd_free_spec]. intros [] s2 (Hi2 & E2 & Eb2).
  split; [done|]. rewrite E2. split; [apply lookup_insert_eq|congruence].
Qed.

(** All objects of the client are removed. *)
Lemma free_objects_spec W cl c s :
  inv W [] s -> h_clients s !! cl = Some c -> cl ∉ (mon_cl <$> monitors s) ->
  wp (for_each (cl_objects c) ubusd_free_object) (fun _ s' => inv W [] s' /\ cl ∉ (mon_cl <$> monitors s') /\
    steps cl s s' /\ exists c', h_clients s' !! cl = Some c' /\ cl_frame c' = cl_frame c /\ cl_objects c' = []) s.
Proof.
  intros Hi Hc Hmon. apply (wp_for_each (fun l s' => inv W [] s' /\ cl ∉ (mon_cl <$> monitors s') /\
    steps cl s s' /\ exists c', h_clients s' !! cl = Some c' /\ cl_frame c' = cl_frame c /\ cl_objects c' = l)).
  2:{ split; [done|]. split; [done|]. split; [done|]. by exists c. }
  intros p l s1 (Hi1 & Hmon1 & Hb1 & c1 & Hc1 & Ef1 & Eo1). pose proof (wf_owned _ _ (inv_wf _ _ _ Hi1)) as Hlo.
  assert ((cl_objects <$> h_clients s1) !! cl = Some (p :: l)) as Hl by (rewrite lookup_fmap, Hc1; simpl; by rewrite Eo1).
  destruct (omap_Some_2 obj_client (h_objects s1) p cl) as (o & Ho & Hoc).
  { apply (lo_in _ _ Hlo cl (p :: l)); [done|by left]. }
  eapply wp_mono; [|by eapply free_object_spec]. intros [] s2 (Hi2 & _ & [Hmon2 Hk2] & Eb2).
  split; [done|]. split; [by rewrite Hmon2|].
  split; [transitivity s1; [done|]; apply steps_one; rewrite Eb2; eapply step_withdraw; [by eapply bus_object|done]|]. destruct (Hk2 cl c1 Hc1) as (c2 & Hc2 & Ef2 & Eo2).
  exists c2. split; [done|]. split; [congruence|]. rewrite Eo2, Eo1. apply list_del_head.
  by eapply (lo_nodup _ _ Hlo cl).
Qed.

Lemma reg_delete_client s s' cl :
  reg s = reg s' -> reg (s <| h_clients ::= delete cl |>) = reg (s' <| h_clients ::= delete cl |>).
Proof.
  intros H. assert (forall s, reg (s <| h_clients ::= delete cl |>) = (reg s) <| h_clients ::= delete cl |>) as E.
  { intros s0. unfold reg. simpl. by rewrite fmap_delete. }
  rewrite (E s), (E s'), H. reflexivity.
Qed.

Lemma delete_stored s cl c' :
  s <| h_clients ::= insert cl c' |> <| h_clients ::= delete cl |> = s <| h_clients ::= delete cl |>.
Proof. unfold upd_field. simpl. by rewrite delete_insert_eq. Qed.

(** The client is out of the registry; what is left is its memory. *)
Record leaving W cl b E s : Prop := {
  lv_gone : gone cl E s;
  lv_bus : bus_of (s <| h_clients ::= delete cl |>) = b;
  lv_wf : wf W (s <| h_clients ::= delete cl |>);
  lv_client : is_Some (h_clients s !! cl);
}.

Lemma leaving_free W cl b ub E s :
  leaving W cl b (ub :: E) s -> wp (ubus_msg_free ub) (fun _ => leaving W cl b E) s.
Proof.
  intros [Hg Hb Hw Hc]. eapply wp_mono; [|by apply gone_free]. intros [] s' (Hg' & Hr & Ec).
  apply (reg_delete_client _ _ cl) in Hr.
  split; [done|rewrite <- Hb; by apply bus_reg| |by rewrite Ec]. eapply wf_of_reg; [|exact Hw]. by symmetry.
Qed.

Lemma leaving_os W cl b E s o : leaving W cl b E s -> leaving W cl b E (s <| os := o |>).
Proof.
  intros [Hg Hb Hw Hc]. split; [|done|by eapply wf_of_reg; [|exact Hw]|done].
  apply (gone_same cl E s); [done|done| |done]. destruct (minv_fresh _ _ Hg). by split.
Qed.

Lemma tx_queue_free_spec W cl b q E s :
  leaving W cl b (q ++ E) s -> wp (for_each q (ubus_msg_list_free cl)) (fun _ => leaving W cl b E) s.
Proof.
  intros H. apply (wp_for_each (fun l => leaving W cl b (l ++ E))); [|done].
  clear s H. intros m l s [Hg Hb Hw [c Hc]]. unfold ubus_msg_list_free.
  apply wp_bind. eapply wp_store; [exact Hc|]. apply leaving_free. split.
  - by eapply gone_store.
  - rewrite <- Hb. exact (f_equal bus_of (delete_stored s cl _)).
  - exact (eq_ind_r (wf W) Hw (delete_stored s cl _)).
  - simpl. rewrite lookup_insert_eq. eauto.
Qed.

(** [ubusd_proto_free_client] *)
Lemma free_client_spec W cl c s :
  inv W [] s -> h_clients s !! cl = Some c -> cl ∉ wk_clients W -> cl ∉ (mon_cl <$> monitors s) ->
  cl_cmd_queue c = [] ->
  wp (ubusd_proto_free_client cl) (fun _ s' =>
    exists c' b, h_clients s' !! cl = Some c' /\ leaving W cl b (cl_tx_queue c' ++ opt_list (cl_pending_msg c')) s' /\
      bus_steps cl (bus_of s) b) s.
Proof.
  intros Hi Hc Hni Hmon Hq. unfold ubusd_proto_free_client. apply wp_bind. eapply wp_load; [done|].
  apply wp_bind. eapply wp_mono; [|by eapply free_objects_spec].
  intros [] s1 (Hi1 & Hmon1 & Hb1 & c1 & Hc1 & Ef1 & Eo1).
  pose proof (f_equal cl_retmsg Ef1) as Er. pose proof (f_equal cl_id Ef1) as Eid.
  pose proof (f_equal cl_cmd_queue Ef1) as Eq. simpl in Er, Eid, Eq.
  destruct (wf_retmsg _ _ (inv_wf _ _ _ Hi1) cl c1 Hc1 Hni) as [r Hr]. rewrite <- Er, Hr.
  destruct Hi1 as [Hm1 Hw1]. pose proof (minv_adopt s1 cl c1 Hm1 Hc1) as Hg.
  assert (client_refs c1 ≡ₚ r :: cl_tx_queue c1 ++ opt_list (cl_pending_msg c1)) as Hrefs.
  { unfold client_refs. rewrite Eq, Hq, Hr. simpl. by rewrite app_assoc, (Permutation_app_comm _ [r]). }
  apply (minv_perm _ _ _ Hrefs) in Hg. apply wp_bind. eapply wp_mono; [|exact (gone_free _ _ _ _ Hg)].
  intros [] s2 (Hg2 & Hr2 & Ec2). assert (h_clients s2 !! cl = Some c1) as Hc2 by by rewrite Ec2.
  assert (wf W s2) as Hw2 by by eapply wf_of_reg.
  apply wp_bind. eapply wp_store; [exact Hc2|]. set (c3 := c1 <| cl_retmsg := None |> <| cl_extra_gid := [] |>
    <| cl_group := None |> <| cl_user := None |>). set (s3 := set_heap _ _).
  assert (wf (W <| wk_clients ::= cons cl |>) s3) as Hw3 by by eapply wf_clear_retmsg.
  eapply (wp_tree_delete _ _ _ (cl_id <$> h_clients s3)); [reflexivity|apply Hw3| |].
  { rewrite lookup_fmap. simpl. rewrite lookup_insert_eq. simpl. by rewrite Eid. }
  exists c3, (bus_of s1 <| bus_users ::= delete cl |>). split; [apply lookup_insert_eq|]. split; [split|].
  5:{ eapply rtc_r; [exact Hb1|]. apply step_leave; [|done]. intros q b Hqb E.
      destruct (bus_object_inv _ _ _ Hqb) as (x & Hx & Exc & _). rewrite E in Exc.
      assert (q ∈ cl_objects c1) as Hin; [|rewrite Eo1 in Hin; by apply not_elem_of_nil in Hin].
      eapply (lo_in _ _ (wf_owned _ _ Hw1) cl); [by apply fmap_Some_1|]. by eapply omap_Some_1. }
  - eapply (gone_same _ _ s3); [done|done| |by eapply gone_store].
    pose proof (minv_fresh _ _ (gone_store _ _ _ c3 _ Hg2 Hc2)) as [].  by split.
  - pose proof (bus_reg _ _ Hr2) as Eb2. unfold bus_of in *. simpl. injection Eb2 as Eu Eo Es Ee Em Er'.
    f_equal; try congruence; [|done]. by rewrite delete_insert_eq, fmap_delete, Ec2.
  - rewrite <- Eid. eapply (wf_drop_client W s3 cl c3); [apply lookup_insert_eq|done| |done].
    change (monitors s3) with (monitors s2). by rewrite (reg_monitors _ _ Hr2).
  - simpl. rewrite lookup_insert_eq. eauto.
Qed.

(** Whatever a client has, it can be disconnected: its memory is given back and
    the registry forgets it. *)
Lemma client_disconnect_spec W cl c s :
  inv W [] s -> h_clients s !! cl = Some c -> cl ∉ wk_clients W ->
  wp (handle_client_disconnect cl) (fun _ s' => inv W [] s' /\ h_clients s' !! cl = None /\ steps cl s s') s.
Proof.
  intros Hi Hc Hni. unfold handle_client_disconnect. apply wp_bind. eapply wp_load; [done|].
  apply wp_bind. eapply wp_mono; [|by eapply cmd_queue_free_spec]. intros [] s1 (Hi1 & Hc1 & Eb1).
  apply wp_bind. eapply wp_mono; [|by apply (monitor_disconnect_spec W [])]. intros [] s2 (Hi2 & Ec2 & _ & _ & Hmon2 & Hb2).
  rewrite <- Ec2 in Hc1. apply wp_bind. eapply wp_mono; [|by eapply (free_client_spec W cl _ s2 Hi2 Hc1)].
  intros [] s3 (c3 & b & Hc3 & Hl3 & Hb3). apply wp_bind. eapply wp_load; [exact Hc3|].
  apply wp_bind. eapply wp_mono; [|by eapply tx_queue_free_spec]. intros [] s4 Hl4.
  apply wp_bind. assert (wp (when (0 <=? cl_pending_msg_fd c3)%Z (sys_close (cl_pending_msg_fd c3)))
    (fun _ => leaving W cl b (opt_list (cl_pending_msg c3))) s4) as Hfd.
  { destruct (0 <=? _)%Z; unfold when; [|by apply wp_ret]. apply wp_close. intros o. by apply leaving_os. }
  eapply wp_mono; [|exact Hfd]. intros [] s5 Hl5. apply wp_bind.
  assert (wp (match cl_pending_msg c3 with Some ub => ubus_msg_free ub | None => mret tt end)
    (fun _ => leaving W cl b []) s5) as Hp.
  { destruct (cl_pending_msg c3); [by apply leaving_free|by apply wp_ret]. }
  eapply wp_mono; [|exact Hp]. intros [] s6 Hl6. apply wp_bind, wp_close. intros o.
  destruct (leaving_os _ _ _ _ _ o Hl6) as [Hg Eb6 Hw [c6 Hc6]]. eapply wp_free; [exact Hc6|].
  split; [split; [exact Hg|exact Hw]|]. split; [apply lookup_delete_eq|]. unfold steps.
  transitivity (bus_of s2); [rewrite <- Eb1; exact Hb2|]. cbn [set_heap heap_client]. by rewrite Eb6.
Qed.
End Disconnect.

Section Connect.
Context `{AL : AvlLib} `{BL : BlobLib} `{!AvlLaws AL} `{!BlobLaws BL}.
Implicit Types (s : ubusd) (W : work).

(** A client that has nothing yet *)
Record blank (c : ubus_client) : Prop := {
  bl_refs : client_refs c = [];
  bl_objects : cl_objects c = [];
  bl_ok : forall hm, client_ok hm c;
}.

(** The client being made, not yet in the tree of clients *)
Record making W cl b k s : Prop := {
  mk_leaving : leaving W cl b [] s;
  mk_client : exists c, h_clients s !! cl = Some c /\ blank c /\ cred_of c = k;
  mk_below : (cl < brk s)%positive;
}.

Lemma making_store W cl b k k' s f (Q : unit -> ubusd -> Prop) :
  making W cl b k s -> (forall c, blank c -> blank (f c)) -> (forall c, cred_of c = k -> cred_of (f c) = k') ->
  (forall s', making W cl b k' s' -> Q tt s') -> wp (store cl f) Q s.
Proof.
  intros [[Hg Eb Hw _] (c & Hc & Hb & Ek) Hlt] Hf Hk HQ. eapply wp_store; [exact Hc|]. apply HQ. split; [split| |done].
  - by eapply gone_store.
  - rewrite <- Eb. exact (f_equal bus_of (delete_stored s cl _)).
  - exact (eq_ind_r (wf W) Hw (delete_stored s cl _)).
  - simpl. rewrite lookup_insert_eq. eauto.
  - exists (f c). split; [apply lookup_insert_eq|]. split; [by apply Hf|by apply Hk].
Qed.

Lemma making_os W cl b k s o : making W cl b k s -> making W cl b k (s <| os := o |>).
Proof. intros [Hl Hc Hlt]. split; [by apply leaving_os|done|done]. Qed.

Lemma making_free W cl b k s :
  making W cl b k s ->
  wp (free_ptr (T := ubus_client) cl;; mret (None : option ptr)) (fun r s' => inv W [] s' /\ r = None /\ bus_of s' = b) s.
Proof.
  intros [[Hg Eb Hw _] (c & Hc & _) _]. apply wp_bind. eapply wp_free; [exact Hc|]. apply wp_ret. by split.
Qed.

Lemma blank_upd c c' :
  blank c -> client_refs c' = client_refs c -> cl_objects c' = cl_objects c -> cl_retmsg c' = cl_retmsg c ->
  cl_tx_queue c' = cl_tx_queue c -> cl_txq_ofs c' = cl_txq_ofs c -> cl_txq_len c' = cl_txq_len c ->
  cl_hdrbuf c' = cl_hdrbuf c -> cl_pending_msg c' = cl_pending_msg c ->
  cl_pending_msg_offset c' = cl_pending_msg_offset c -> blank c'.
Proof.
  intros [Hr Ho Hok] E1 E2 E3 E4 E5 E6 E7 E8 E9. split; [congruence..|].
  intros hm. destruct (Hok hm). split; congruence || (rewrite ?E3, ?E4, ?E5, ?E6, ?E8, ?E9; done).
Qed.

(** The credentials after a store to one of them *)
Ltac solve_cred :=
  intros c E; repeat match goal with k := _ |- _ => subst k end; unfold cred_of in *; simpl in *;
  injection E; intros; f_equal; congruence.

Lemma init_client_spec W cl b peer s :
  making W cl b (cred_of client_zero) s ->
  wp (ubusd_acl_init_client cl peer) (fun rc s' => exists k, making W cl b k s' /\
    (rc = 0%Z -> peer_user peer = Some k)) s.
Proof.
  intros H. unfold ubusd_acl_init_client, peer_user.
  destruct (peer_cred peer) as [[uid gid]|]; [|by apply wp_ret; eexists; split; [exact H|]].
  destruct (peer_pw_name peer) as [pw|]; [|by apply wp_ret; eexists; split; [exact H|]]. destruct (peer_gr_name peer) as [gr|]; [|by apply wp_ret; eexists; split; [exact H|]].
  apply wp_bind. eapply (making_store W cl b _ (mk_cred uid gid [] None None)); [exact H|by intros c Hb; eapply blank_upd| |].
  { by solve_cred. }
  clear s H. intros s H.
  apply wp_bind, wp_try_alloc. intros [] o; [|by apply wp_ret; eexists; split; [apply making_os|]]. simpl negb. cbv iota.
  apply wp_bind. eapply (making_store W cl b _ (mk_cred uid gid [] None (Some gr))); [by apply making_os|by intros c Hb; eapply blank_upd| |].
  { by solve_cred. }
  clear s H o. intros s H. apply wp_bind, wp_try_alloc. intros [] o.
  2:{ simpl negb. cbv iota. apply wp_bind. eapply (making_store W cl b _ (mk_cred uid gid [] None None)); [by apply making_os|by intros c Hb; eapply blank_upd| |].
      - by solve_cred.
      - intros s' H'. by apply wp_ret; eexists; split; [exact H'|]. }
  simpl negb. cbv iota. apply wp_bind. set (k := fun extra => mk_cred uid gid extra (Some pw) (Some gr)).
  eapply (making_store W cl b _ (k [])); [by apply making_os|by intros c Hb; eapply blank_upd| |].
  { by solve_cred. }
  clear s H o. intros s H. apply wp_bind. unfold ubusd_acl_load_extra_gids. apply wp_bind, wp_try_alloc. intros ok o.
  apply (making_os _ _ _ _ _ o) in H.
  assert (forall e s', peer_extra peer = e -> making W cl b (k e) s' -> exists k0, making W cl b k0 s' /\
    (0%Z = 0%Z -> Some (k (peer_extra peer)) = Some k0)) as Hend by (intros e s' <-; eauto).
  destruct ok; simpl negb; cbv iota.
  2:{ apply wp_ret. simpl negb. cbv iota. apply wp_bind.
      eapply (making_store W cl b _ (mk_cred uid gid [] None None)); [done|by intros c Hb; eapply blank_upd| |].
      - by solve_cred.
      - intros s' H'. by apply wp_ret; eexists; split; [exact H'|]. }
  unfold peer_extra in Hend at 1. destruct (peer_groups peer) as [[|g gs]|];
    [by apply wp_ret, wp_ret, (Hend [])| |by apply wp_ret, wp_ret, (Hend [])].
  destruct (_ <? _)%Z; [by apply wp_ret, wp_ret, (Hend [])|].
  apply wp_bind. eapply (making_store W cl b _ (k (g :: gs))); [exact H|by intros c Hb; eapply blank_upd| |].
  - by solve_cred.
  - intros s' H'. by apply wp_ret, wp_ret, (Hend (g :: gs)).
Qed.

(** The client gets its id: it is in the registry, without a reply message. *)
Lemma making_id W cl b k id t' s c :
  making W cl b k s -> h_clients s !! cl = Some c -> avl_list t' ≡ₚ (id, cl) :: avl_list (clients s) ->
  inv (W <| wk_clients ::= cons cl |>) [] (s <| clients := t' |> <| h_clients ::= insert cl (c <| cl_id := id |>) |>).
Proof.
  intros [[Hg _ Hw _] (c' & Hc' & Hb & _) Hlt] Hc Hl. assert (c' = c) as -> by congruence. set (c1 := c <| cl_id := id |>).
  assert (blank c1) as [Hr1 Ho1 Hok1] by by eapply blank_upd.
  assert (<[cl:=c1]> (h_clients s) = <[cl:=c1]> (delete cl (h_clients s))) as E by by rewrite insert_delete_eq.
  split.
  - eapply (minv_new_client [] (s <| h_clients ::= delete cl |>)); [done|exact E| |apply lookup_delete_eq|done|apply Hok1|exact Hg].
    destruct (minv_fresh _ _ Hg) as [F1 F2 F3 F4 F5 F6 F7]. split; try done. simpl. intros q Hq. rewrite E.
    rewrite lookup_insert_ne by (simpl in Hq; lia). by apply F5.
  - eapply wf_of_reg; [|eapply (wf_new_client W (s <| h_clients ::= delete cl |>) cl c1 t'); [apply lookup_delete_eq|done|exact Hl|exact Hw]].
    unfold reg. simpl. by rewrite E.
Qed.

(** A client without references leaves. *)
Lemma drop_blank W cl c id s :
  inv (W <| wk_clients ::= cons cl |>) [] s -> h_clients s !! cl = Some c -> cl_id c = id ->
  client_refs c = [] -> cl_objects c = [] -> cl ∉ (mon_cl <$> monitors s) ->
  wp (tree_delete clients upd_clients id cl;; free_ptr (T := ubus_client) cl;; mret (None : option ptr))
     (fun r s' => inv W [] s' /\ r = None /\ bus_of s' = bus_of s <| bus_users ::= delete cl |>) s.
Proof.
  intros [Hm Hw] Hc <- Hr Ho Hmon. apply wp_bind.
  eapply (wp_tree_delete _ _ _ (cl_id <$> h_clients s)); [reflexivity|apply Hw|by apply fmap_Some_1|].
  apply wp_bind. eapply wp_free; [exact Hc|]. apply wp_ret.
  split; [|split; [done|unfold bus_of; simpl; by rewrite fmap_delete]]. split; [|by eapply wf_drop_client].
  pose proof (minv_adopt s cl c Hm Hc) as Hg. rewrite Hr in Hg.
  eapply minv_same; [..|exact Hg]; [done|done|]. destruct (minv_fresh _ _ Hg). by split.
Qed.

Lemma init_retmsg_spec W cl c s :
  inv (W <| wk_clients ::= cons cl |>) [] s -> h_clients s !! cl = Some c -> cl_retmsg c = None ->
  wp (ubusd_proto_init_retmsg cl) (fun rc s' =>
    mon_cl <$> monitors s' = mon_cl <$> monitors s /\ bus_of s' = bus_of s /\
    if decide (rc = 0)%Z then
      inv W [] s' /\ exists r, h_clients s' = <[cl := c <| cl_retmsg := Some r |>]> (h_clients s)
    else inv (W <| wk_clients ::= cons cl |>) [] s' /\ h_clients s' = h_clients s) s.
Proof.
  intros [Hm Hw] Hc Hret. unfold ubusd_proto_init_retmsg. apply wp_bind, wp_try_alloc. intros [] o.
  2:{ apply wp_ret. split; [done|]. split; [done|]. rewrite decide_False by done. split; [|done].
      split; [by apply minv_os|by apply wf_os]. }
  simpl negb. cbv iota zeta. apply wp_bind. eapply wp_mono; [|apply (msg_new_spec []); [apply render_new_ok|by apply minv_os]].
  intros [r|] s1 (Hio & Ec & H).
  2:{ apply wp_ret. split; [symmetry; exact (reg_monitors _ _ (io_reg _ _ _ Hio))|].
      split; [exact (bus_reg _ _ (io_reg _ _ _ Hio))|]. rewrite decide_False by done.
      split; [|done]. split; [done|]. eapply wf_of_reg; [apply Hio|by apply wf_os]. }
  destruct H as (Hm1 & _ & Hnew & Hown). simpl in Ec.
  assert (h_clients s1 !! cl = Some c) as Hc1 by by rewrite Ec.
  apply wp_bind. eapply wp_store; [exact Hc1|]. apply wp_bind. eapply wp_store; [exact Hnew|]. apply wp_ret.
  split; [symmetry; exact (reg_monitors _ _ (io_reg _ _ _ Hio))|].
  split; [etrans; [|exact (bus_reg _ _ (io_reg _ _ _ Hio))]; by apply (bus_upd_client s1 cl c)|]. rewrite decide_True by done.
  split; [|exists r; simpl; by rewrite Ec]. split.
  - eapply (minv_upd_msg [] (s1 <| h_clients ::= insert cl (c <| cl_retmsg := Some r |>) |>)); [exact Hnew|done|by split|].
    eapply minv_give; [exact Hc1| |exact Hown| |exact Hm1].
    + unfold client_refs. simpl. rewrite Hret. simpl. rewrite app_nil_r.
      rewrite !app_assoc, (Permutation_app_comm _ [r]). done.
    + destruct (minv_clients _ _ Hm1 _ _ Hc1). split; try done. intros ? [= <-].
      eexists. split; [exact Hnew|]. split; [done|]. apply render_int_len.
  - eapply (wf_of_reg W (s1 <| h_clients ::= insert cl (c <| cl_retmsg := Some r |>) |>)); [done|].
    eapply wf_set_retmsg; [exact Hc1|done|done|done|]. eapply wf_of_reg; [apply Hio|by apply wf_os].
Qed.

(** A client whose reply message is all it has leaves. *)
Lemma drop_hello W cl c r id s :
  inv W [] s -> h_clients s !! cl = Some c -> cl_id c = id -> client_refs c = [r] -> cl_objects c = [] ->
  cl ∉ (mon_cl <$> monitors s) ->
  wp (ubus_msg_free r;; tree_delete clients upd_clients id cl;; free_ptr (T := ubus_client) cl;; mret (None : option ptr))
     (fun r s' => inv W [] s' /\ r = None /\ bus_of s' = bus_of s <| bus_users ::= delete cl |>) s.
Proof.
  intros [Hm Hw] Hc <- Hr Ho Hmon. pose proof (minv_adopt s cl c Hm Hc) as Hg. rewrite Hr in Hg.
  apply wp_bind. eapply wp_mono; [|exact (gone_free _ _ _ _ Hg)]. intros [] s1 (Hg1 & Hr1 & Ec1).
  assert (wf W s1) as Hw1 by by eapply wf_of_reg. rewrite <- Ec1 in Hc. apply wp_bind.
  eapply (wp_tree_delete _ _ _ (cl_id <$> h_clients s1)); [reflexivity|apply Hw1|by apply fmap_Some_1|].
  apply wp_bind. eapply wp_free; [exact Hc|]. apply wp_ret.
  split; [|split; [done|rewrite (bus_reg _ _ Hr1); unfold bus_of; simpl; by rewrite fmap_delete]]. split.
  - eapply minv_same; [..|exact Hg1]; [done|done|]. destruct (minv_fresh _ _ Hg1). by split.
  - apply (wf_drop_client W s1 cl c Hc Ho).
    + by rewrite (reg_monitors _ _ Hr1).
    + destruct Hw1. split; try done. intros q x Hx Hni. eapply wf_retmsg; [done|]. simpl in Hni. set_solver.
Qed.

(** What accepting a connection does: a new client that is who the kernel says
    it is, or nothing. *)
Definition connected peer s (r : option ptr) s' : Prop :=
  match r with
  | Some cl => is_Some (h_clients s' !! cl) /\ h_clients s !! cl = None /\
      exists k, peer_user peer = Some k /\ bus_of s' = bus_of s <| bus_users ::= insert cl k |>
  | None => bus_of s' = bus_of s
  end.

Lemma new_client_spec W fd peer s :
  inv W [] s -> wk_clients W = [] ->
  wp (ubusd_proto_new_client fd peer) (fun r s' => inv W [] s' /\ connected peer s r s') s.
Proof.
  intros [Hm Hw] HW. unfold ubusd_proto_new_client. apply wp_bind, wp_alloc; intros o.
  { apply wp_ret. split; [|done]. split; [by apply minv_os|by apply wf_os]. }
  set (cl := brk s). set (s1 := set_heap _ _).
  assert (h_clients s !! cl = None) as Hfresh by (apply (fresh_clients _ (minv_fresh _ _ Hm)); subst cl; lia).
  assert (making W cl (bus_of s) (cred_of client_zero) s1) as Hmk.
  { assert (delete cl (<[cl:=client_zero]> (h_clients s)) = h_clients s) as E by by apply delete_insert_id.
    split; [split| |].
    - eapply (minv_same [] s); [done|exact E| |done]. destruct (minv_fresh _ _ Hm) as [].
      split; simpl; rewrite ?E; intros q Hq; match goal with h : _ |- _ => apply h; lia end.
    - unfold bus_of, s1. simpl. by rewrite E.
    - eapply wf_of_reg; [|exact Hw]. unfold reg, s1. simpl. by rewrite E.
    - simpl. rewrite lookup_insert_eq. eauto.
    - exists client_zero. split; [apply lookup_insert_eq|]. split; [|done]. split; [done|done|]. intros hm. by split.
    - simpl. subst cl. lia. }
  clearbody s1 cl. clear o. apply wp_bind. eapply wp_mono; [|by apply init_client_spec].
  intros rc s2 (k & Hmk2 & Hk). assert (forall k s', making W cl (bus_of s) k s' ->
    wp (free_ptr (T := ubus_client) cl;; mret (None : option ptr)) (fun r s' => inv W [] s' /\ connected peer s r s') s') as Hfail.
  { intros k' s' H'. eapply wp_mono; [|by eapply making_free]. intros r s'' (Hi & -> & Eb). done. }
  destruct (Z.eqb_spec rc 0) as [->|]; simpl negb; cbv iota; [specialize (Hk eq_refl)|by eapply Hfail]. apply wp_bind.
  eapply making_store; [exact Hmk2|by intros c Hb; eapply blank_upd|done|]. clear s1 s2 Hmk Hmk2. intros s1 Hmk.
  apply wp_bind, wp_alloc_id; [by intros []|done|..].
  { intros o. by eapply Hfail, making_os. }
  intros o id t' _ _ Hl. apply (making_os _ _ _ _ _ o) in Hmk. set (s2 := s1 <| os := o |>) in *.
  destruct (mk_client _ _ _ _ _ Hmk) as (c & Hc & Hb & Ek). apply wp_bind. eapply wp_store; [exact Hc|].
  pose proof (making_id W cl _ _ id t' s2 c Hmk Hc Hl) as Hi3. set (c3 := c <| cl_id := id |>) in *.
  set (s3 := s2 <| clients := t' |> <| h_clients ::= insert cl c3 |>) in *.
  assert (blank c3) as Hb3 by by eapply blank_upd.
  assert (bus_of s3 = bus_of s <| bus_users ::= insert cl k |>) as Eb3.
  { rewrite <- (lv_bus _ _ _ _ _ (mk_leaving _ _ _ _ _ Hmk)), <- Ek. unfold bus_of, s3. simpl. f_equal.
    by rewrite fmap_insert, fmap_delete, insert_delete_eq. }
  assert (delete cl (bus_users (bus_of s)) = bus_users (bus_of s)) as Edel
    by (apply delete_id; simpl; by rewrite lookup_fmap, Hfresh).
  assert (bus_of s3 <| bus_users ::= delete cl |> = bus_of s) as Eb0.
  { rewrite Eb3. unfold upd_field. simpl. rewrite delete_insert_eq. simpl in Edel. by rewrite Edel. }
  assert (cl ∉ (mon_cl <$> monitors s3)) as Hmon.
  { intros Hin. apply (wf_mon_live _ _ (lv_wf _ _ _ _ _ (mk_leaving _ _ _ _ _ Hmk))) in Hin.
    simpl in Hin. rewrite lookup_delete_eq in Hin. by destruct Hin. }
  assert (h_clients s3 !! cl = Some c3) as Hc3 by apply lookup_insert_eq.
  assert (cl_retmsg c3 = None) as Hret3.
  { pose proof (bl_refs _ Hb3) as E. unfold client_refs in E. apply app_nil in E as [_ E].
    apply app_nil in E as [_ E]. apply app_nil in E as [_ E]. by destruct (cl_retmsg c3). }
  change (upd_clients (fun _ => t') s2) with (s2 <| clients := t' |>).
  change (set_heap (insert cl c3) (s2 <| clients := t' |>)) with s3.
  apply wp_bind. eapply wp_mono; [|by eapply init_retmsg_spec]. intros rc s4 (Hmon4 & Eb4 & H4).
  destruct (Z.eqb_spec rc 0) as [->|Hrc]; simpl negb; cbv iota.
  - rewrite decide_True in H4 by done. destruct H4 as (Hi4 & r & Ec4).
    assert (h_clients s4 !! cl = Some (c3 <| cl_retmsg := Some r |>)) as Hc4 by (rewrite Ec4; apply lookup_insert_eq).
    apply wp_bind. eapply wp_mono; [|eapply (send_hello_spec []); [apply Hi4|eapply wf_mon, Hi4|eauto]].
    intros [] s5 [Hq5 Hsame].
    + apply wp_ret. split; [exact (quiet_inv _ _ _ _ _ Hq5 Hi4)|]. split; [eapply keeps_live; [by eapply quiet_keeps|eauto]|].
      split; [done|]. exists k. split; [done|]. rewrite (quiet_bus _ _ _ Hq5). congruence.
    + specialize (Hsame eq_refl). pose proof (quiet_inv _ _ _ _ _ Hq5 Hi4) as [Hm5 Hw5].
      assert (h_clients s5 !! cl = Some (c3 <| cl_retmsg := Some r |>)) as Hc5 by by rewrite Hsame.
      apply wp_bind. eapply wp_load; [exact Hc5|]. simpl cl_retmsg. cbv iota.
      eapply wp_mono; [|eapply drop_hello; [split; [exact Hm5|exact Hw5]|exact Hc5|done| |apply Hb3|]].
      * intros r' s6 (Hi6 & -> & Eb6). split; [done|]. simpl. rewrite Eb6, (quiet_bus _ _ _ Hq5), Eb4. done.
      * unfold client_refs. simpl. pose proof (bl_refs _ Hb3) as E. unfold client_refs in E.
        apply app_nil in E as [E1 E]. apply app_nil in E as [E2 E]. apply app_nil in E as [E3 _].
        simpl in E1, E2, E3. by rewrite E1, E2, E3.
      * rewrite <- (reg_monitors _ _ (io_reg _ _ _ (quiet_io _ _ _ Hq5))). by rewrite Hmon4.
  - rewrite decide_False in H4 by done. destruct H4 as (Hi4 & Ec4).
    eapply wp_mono; [|eapply (drop_blank W cl c3 id); [exact Hi4|by rewrite Ec4|done|apply Hb3|apply Hb3|by rewrite Hmon4]].
    intros r' s5 (Hi5 & -> & Eb5). split; [done|]. simpl. rewrite Eb5, Eb4. done.
Qed.
End Connect.
