(* ===== verification/MainSpec.v ===== *)
(** * The event loop's callbacks are safe

    Specifications of [Main.v]: writing what is queued, reading and handling
    messages, accepting connections. *)

From stdpp Require Import base gmap strings list fin_maps sets.
From Stdlib Require Import ZArith Lia.
From S2P Require Import Prelude Wire Cstring Libubox Ids State MsgBuf Frame SendSpec Stream Wf WfOps Registry Acl.
From S2P Require Import Reply Event Obj Proto Main AclSpec Bus ReplySpec RegistrySpec EventSpec ObjSpec ProtoSpec.
From S2P Require Import HandlerSpec ClientSpec.
Local Open Scope ubus_scope.

Section MainSpec.
Context `{AL : AvlLib} `{BL : BlobLib} `{!AvlLaws AL} `{!BlobLaws BL}.
Implicit Types (s : ubusd) (W : work).

Lemma inv_os W ext s o : inv W ext s -> inv W ext (s <| os := o |>).
Proof. intros [Hm Hw]. split; [by apply minv_os|by apply wf_os]. Qed.

(** A store to a client that changes neither its references nor its place in
    the registry *)
Lemma inv_upd_client W ext s cl c c' :
  inv W ext s -> h_clients s !! cl = Some c -> client_refs c' = client_refs c -> client_ok (h_msgs s) c' ->
  cl_id c' = cl_id c -> cl_objects c' = cl_objects c -> cl_retmsg c' = cl_retmsg c ->
  inv W ext (s <| h_clients ::= insert cl c' |>).
Proof. intros [Hm Hw] Hc Hr Hok Ei Eo Er. split; [by eapply minv_upd_client|by eapply wf_upd_client]. Qed.

Lemma insert_client_twice s cl c1 c2 :
  s <| h_clients ::= insert cl c1 |> <| h_clients ::= insert cl c2 |> = s <| h_clients ::= insert cl c2 |>.
Proof. unfold upd_field. simpl. by rewrite insert_insert_eq. Qed.

(** ** Writing *)

Lemma tx_advance hm m q ofs len n :
  (forall x u, hm !! x = Some u -> msg_ok u) ->
  tx_ok hm (m :: q) ofs len -> (0 <= n)%Z -> (ofs + n < mlen hm m)%Z ->
  tx_ok hm (m :: q) (ofs + n) (ssize_t (len - n)).
Proof.
  unfold tx_ok, UBUS_CLIENT_MAX_TXQ_LEN, UBUS_MAX_MSGLEN. intros Hms (Hofs & Elen & Hmax) Hn Hlt.
  pose proof (qlen_nonneg hm q Hms). simpl in *. rewrite ssize_t_small; lia.
Qed.

Lemma tx_complete hm m q ofs len n :
  (forall x u, hm !! x = Some u -> msg_ok u) -> (forall x, x ∈ q -> is_Some (hm !! x)) ->
  tx_ok hm (m :: q) ofs len -> (ofs + n)%Z = mlen hm m -> tx_ok hm q 0 (ssize_t (len - n)).
Proof.
  unfold tx_ok, UBUS_CLIENT_MAX_TXQ_LEN, UBUS_MAX_MSGLEN. intros Hms Hlive (Hofs & Elen & Hmax) Hn.
  destruct q as [|m' q]; [done|]. destruct (Hlive m') as [u Hu]; [by left|].
  pose proof (qlen_nonneg hm (m' :: q) Hms). assert (0 < mlen hm m')%Z.
  { unfold mlen, sizeof_msghdr. rewrite Hu. destruct (Hms m' u Hu). lia. }
  cbn [qlen] in *. rewrite ssize_t_small; lia.
Qed.

Lemma client_refs_tx_pop c m q ofs len :
  cl_tx_queue c = m :: q ->
  client_refs c ≡ₚ m :: client_refs (c <| cl_txq_ofs := ofs |> <| cl_txq_len := len |> <| cl_tx_queue := q |>).
Proof. intros E. unfold client_refs. simpl. by rewrite E. Qed.

Lemma tx_retry_spec W fuel cl m q c s :
  inv W [] s -> h_clients s !! cl = Some c -> cl_tx_queue c = m :: q ->
  wp (tx_retry fuel cl m) (fun o s' => inv W [] s' /\ exists c', h_clients s' !! cl = Some c' /\
    (o = TxDone -> cl_tx_queue c' = q) /\ cl_sock_fd c' = cl_sock_fd c /\ stream s' c' = stream s c /\
    bus_of s' = bus_of s) s.
Proof.
  revert c s. induction fuel as [|fuel IH]; intros c s Hi Hc Eq; [by apply wp_ret; split; [|exists c]|].
  cbn [tx_retry]. apply wp_bind. eapply wp_load; [done|]. apply wp_bind.
  pose proof (inv_minv _ _ _ Hi) as Hm. pose proof (minv_clients _ _ Hm _ _ Hc) as Hok.
  assert (forall x, x ∈ m :: q -> is_Some (h_msgs s !! x)) as Hlive.
  { intros x Hx. eapply minv_live_owned; [exact Hm|exact Hc|]. unfold client_refs. rewrite Eq. set_solver. }
  destruct (Hlive m) as [u Hu]; [by left|]. pose proof (co_tx _ _ Hok) as Htx. rewrite Eq in Htx.
  pose proof (minv_msgs _ _ Hm _ _ Hu) as Huok.
  assert (mlen (h_msgs s) m = ub_len u + sizeof_msghdr)%Z as El by (unfold mlen; by rewrite Hu).
  assert (0 <= cl_txq_ofs c < ub_len u + sizeof_msghdr)%Z as Hofs by (destruct Htx as [Htx _]; lia).
  pose proof (wire_len u Huok) as Hwl. unfold sizeof_msghdr in *.
  assert (concat (wire_at (h_msgs s) <$> cl_tx_queue c) = wire u ++ concat (wire_at (h_msgs s) <$> q)) as Ecat.
  { rewrite Eq, fmap_cons. simpl. unfold wire_at at 1. by rewrite Hu. }
  eapply writev_bytes; [exact Hu|exact Huok|unfold sizeof_msghdr; lia|..].
  - intros e o Ho. assert (inv W [] (s <| os := o |>)) as Hi' by by apply inv_os.
    assert (stream (s <| os := o |>) c = stream s c) as Est.
    { unfold stream. simpl. rewrite (proj1 Ho). by rewrite app_nil_r. }
    destruct e; [rewrite <- Est; exact (IH c (s <| os := o |>) Hi' Hc Eq)|by apply wp_ret; split; [|exists c]..].
  - intros n o Hn [Hsent _]. unfold sizeof_msghdr in Hn. apply wp_bind. eapply wp_load; [exact Hu|]. apply wp_bind. eapply wp_store; [exact Hc|].
    set (c1 := c <| cl_txq_ofs := _ |> <| cl_txq_len ::= _ |>). set (s1 := s <| os := o |>).
    assert (inv W [] s1) as Hi1 by by apply inv_os.
    assert (stream (s1 <| h_clients ::= insert cl c1 |>) c1 = stream s c) as Est.
    { unfold stream, pending. simpl. rewrite Hsent, Ecat, <- app_assoc. f_equal.
      rewrite Z2Nat.inj_add by lia. apply drop_written. lia. }
    assert (forall c', cred_of c' = cred_of c -> bus_of (s1 <| h_clients ::= insert cl c' |>) = bus_of s) as Ebus.
    { intros c' Ec'. change (bus_of s) with (bus_of s1). by apply (bus_upd_client s1 cl c). }
    destruct (Z.ltb_spec (cl_txq_ofs c + n) (ub_len u + 8)) as [Hlt|Hge].
    + rewrite <- Est, <- (Ebus c1) by done. apply (IH c1); [|apply lookup_insert_eq|done]. eapply (inv_upd_client W [] s1); [done|exact Hc|done| |done..].
      destruct Hok. split; try done. simpl. rewrite Eq. apply tx_advance; [apply Hm|by rewrite Eq in co_tx|lia|].
      rewrite El. unfold sizeof_msghdr. lia.
    + set (c2 := c1 <| cl_txq_ofs := 0%Z |> <| cl_tx_queue := q |>).
      apply wp_bind. eapply wp_store; [apply lookup_insert_eq|]. unfold ubus_msg_list_free.
      apply wp_bind, wp_bind. eapply wp_store; [apply lookup_insert_eq|].
      assert (minv [m] (s1 <| h_clients ::= insert cl c2 |>)) as Hm2.
      { eapply minv_take; [exact Hc|exact (client_refs_tx_pop c m q 0 (ssize_t (cl_txq_len c - n)) Eq)|done| |apply Hi1].
        destruct Hok. split; try done. simpl. eapply tx_complete; [apply Hm| |by rewrite Eq in co_tx|].
        - intros x Hx. apply Hlive. by right.
        - rewrite El. unfold sizeof_msghdr. lia. }
      assert (wf W (s1 <| h_clients ::= insert cl c2 |>)) as Hw2.
      { eapply wf_upd_client; [exact Hc|done|done|done|apply Hi1]. }
      match goal with |- wp _ _ ?S => assert (S = s1 <| h_clients ::= insert cl c2 |>) as -> end.
      { unfold s1, set_heap. simpl. rewrite !insert_insert_eq. unfold c2. simpl. by rewrite Eq. }
      assert (m ∉ q) as Hmq.
      { pose proof (proj1 (minv_own _ _ Hm m)) as Ho1. rewrite (owners_delete _ _ _ m Hc) in Ho1.
        unfold client_refs in Ho1. rewrite Eq in Ho1. simpl in Ho1. rewrite cnt_cons, decide_True, cnt_app in Ho1 by done.
        intros Hin%cnt_pos. lia. }
      eapply wp_mono; [|apply (pres_wp (fun s => os_sent (os s))); [unfold ubus_msg_free; solve_pres|exact (msg_free_spec [] _ _ Hm2)]].
      intros [] s3 [(Hm3 & Hio3 & Ec3) Es3]. apply wp_ret.
      split; [split; [done|]; eapply wf_of_reg; [apply Hio3|done]|]. exists c2. split; [|split; [done|split; [done|split]]].
      * rewrite Ec3. apply lookup_insert_eq.
      * rewrite <- Est. unfold stream, pending, sent_on. simpl. rewrite Es3. simpl. f_equal. rewrite Ecat.
        rewrite drop_app_ge by lia. replace (Z.to_nat (cl_txq_ofs c + n) - length (wire u)) with 0 by lia.
        rewrite !drop_0. f_equal. apply list_fmap_ext. intros i x Hx%list_elem_of_lookup_2. unfold wire_at.
        destruct (Hlive x) as [v Hv]; [by right|]. rewrite (io_msgs _ _ _ Hio3 x v); [by rewrite Hv| |exact Hv].
        intros ->%list_elem_of_singleton. done.
      * rewrite (bus_reg _ _ (io_reg _ _ _ Hio3)). by apply Ebus.
Qed.

Lemma client_tx_spec W cl c s :
  inv W [] s -> h_clients s !! cl = Some c ->
  wp (client_tx cl) (fun _ s' => inv W [] s' /\ exists c', h_clients s' !! cl = Some c' /\
    cl_sock_fd c' = cl_sock_fd c /\ stream s' c' = stream s c /\ bus_of s' = bus_of s) s.
Proof.
  intros Hi Hc. unfold client_tx. apply wp_bind. eapply wp_load; [done|]. apply wp_bind.
  apply (wp_for_until (fun l s' => inv W [] s' /\ exists c', h_clients s' !! cl = Some c' /\ cl_tx_queue c' = l /\
    cl_sock_fd c' = cl_sock_fd c /\ stream s' c' = stream s c /\ bus_of s' = bus_of s)).
  - intros m l s1 (Hi1 & c1 & Hc1 & Eq1 & Ef1 & Es1 & Eb1). apply wp_bind, wp_gets, wp_bind.
    eapply wp_mono; [|by eapply (tx_retry_spec W _ cl m l c1)]. intros out s2 (Hi2 & c2 & Hc2 & Hdone & Ef2 & Es2 & Eb2).
    assert (cl_sock_fd c2 = cl_sock_fd c /\ stream s2 c2 = stream s c /\ bus_of s2 = bus_of s) as (Ef & Es & Eb)
      by (split; [congruence|split; congruence]).
    apply wp_ret. destruct out; [|apply wp_ret; split; [done|]; by exists c2..].
    split; [done|]. exists c2. by rewrite Hdone.
  - intros s' (Hi' & c' & Hc' & _ & H). apply wp_ret. split; [done|]. by exists c'.
  - split; [done|]. by exists c.
Qed.

(** ** Resuming lookups *)

Lemma cmd_queue_process_spec W cl s :
  inv W [] s -> cl ∉ wk_clients W -> is_Some (h_clients s !! cl) ->
  wp (ubus_client_cmd_queue_process cl) (fun _ s' => inv W [] s' /\ is_Some (h_clients s' !! cl) /\ bus_of s' = bus_of s) s.
Proof.
  intros Hi Hni [c Hc]. unfold ubus_client_cmd_queue_process. apply wp_bind. eapply wp_load; [done|]. apply wp_bind.
  apply (wp_for_until (fun l s' => inv W [] s' /\ exists c', h_clients s' !! cl = Some c' /\ cl_cmd_queue c' = l /\ bus_of s' = bus_of s)).
  - intros cmd l s1 (Hi1 & c1 & Hc1 & Eq1 & Eb1). apply wp_bind.
    eapply wp_mono; [|eapply (cmd_lookup_spec W [] cl c1); [done|done|done|rewrite Eq1; by left]].
    intros ret s2 (Hi2 & Hs2 & Eb2 & Hr2). assert (bus_of s2 = bus_of s) as Eb by congruence. destruct (Hs2 cl c1 Hc1) as (c2 & Hc2 & _).
    destruct (Z.eqb_spec ret (-2)) as [->|Hne]; [by apply wp_ret, wp_ret; eauto|]. specialize (Hr2 Hne).
    destruct (reg_client _ _ _ _ (eq_sym Hr2) Hc1) as (c2' & Hc2' & Ec2). pose proof (f_equal cl_cmd_queue Ec2) as Eq2.
    simpl in Eq2. apply wp_bind.
    eapply wp_mono; [|eapply (cmd_free_spec W cl c2' cmd l); [done|]].
    + intros [] s3 (Hi3 & Ec3 & Eb3). apply wp_ret. split; [done|]. eexists.
      split; [rewrite Ec3; apply lookup_insert_eq|]. split; [done|congruence].
    + rewrite Hc2'. f_equal. destruct c2'. simpl in *. congruence.
  - intros s' (Hi' & c' & Hc' & _ & Eb'). apply wp_ret. eauto.
  - eauto.
Qed.

(** ** Reading *)

(** A message that no client refers to may change freely. *)
Lemma minv_upd_unowned ext s m u u' :
  h_msgs s !! m = Some u -> ub_refcount u' = ub_refcount u -> msg_ok u' -> owners (h_clients s) m = 0 ->
  minv ext s -> minv ext (s <| h_msgs ::= insert m u' |>).
Proof.
  intros Hm E Hok Hz [Hf Ho Hms Hcs]. split; [by eapply fresh_upd_msg|..]; simpl.
  - intros n. specialize (Ho n). simpl. destruct (decide (m = n)) as [<-|Hne].
    + rewrite lookup_insert_eq, E. by rewrite Hm in Ho.
    + by rewrite lookup_insert_ne.
  - intros n v. rewrite lookup_insert_Some. intros [[_ <-]|[_ ?]]; eauto.
  - intros cl c Hc. apply (client_ok_like (h_msgs s)); [by intros; eapply (own_live ext s)| |by eapply Hcs].
    intros n v Hn Hv. exists v. pose proof (owners_pos _ _ _ _ Hc Hn). rewrite lookup_insert_ne by (intros ->; lia).
    by split.
Qed.

Lemma client_refs_pending c m :
  cl_pending_msg c = None -> client_refs (c <| cl_pending_msg := Some m |>) ≡ₚ m :: client_refs c.
Proof.
  intros E. unfold client_refs. simpl. rewrite E. simpl. rewrite !app_assoc. symmetry. apply Permutation_middle.
Qed.

Lemma client_refs_unpend c c' m :
  cl_pending_msg c = Some m -> cl_tx_queue c' = cl_tx_queue c -> cl_cmd_queue c' = cl_cmd_queue c ->
  cl_retmsg c' = cl_retmsg c -> cl_pending_msg c' = None -> client_refs c ≡ₚ m :: client_refs c'.
Proof.
  intros E E1 E2 E3 E4. unfold client_refs. rewrite E, E1, E2, E3, E4. simpl. rewrite !app_assoc.
  symmetry. apply Permutation_middle.
Qed.

Lemma client_rx_header_spec W cl s :
  inv W [] s -> is_Some (h_clients s !! cl) ->
  wp (client_rx_header cl) (fun _ s' => inv W [] s' /\ is_Some (h_clients s' !! cl) /\ bus_of s' = bus_of s) s.
Proof.
  intros Hi [c Hc]. unfold client_rx_header. apply wp_bind. eapply wp_load; [done|].
  destruct (negb (cl_sock_eof c) && _) eqn:Eb; [|by apply wp_ret; eauto].
  apply andb_true_iff in Eb as [_ Hlt%Z.ltb_lt]. unfold sizeof_hdrbuf in *.
  pose proof (minv_clients _ _ (inv_minv _ _ _ Hi) _ _ Hc) as Hok.
  assert (cl_pending_msg c = None /\ (0 <= cl_pending_msg_offset c)%Z) as [Hpend Hofs].
  { pose proof (co_rx _ _ Hok) as Hrx. destruct (cl_pending_msg c); [|split; [done|lia]].
    destruct Hrx as (? & _ & _ & ?). lia. }
  apply wp_bind, wp_recvmsg; [intros o; apply wp_ret; split; [by apply inv_os|simpl; eauto]|].
  intros bs cmsgs o Hlen. apply wp_bind, wp_assert.
  { apply fits_spec. rewrite (co_hdr _ _ Hok). lia. }
  set (hdrbuf := splice _ bs (cl_hdrbuf c)).
  assert (length hdrbuf = 12) as Hh.
  { unfold hdrbuf. rewrite length_splice; [apply Hok|]. rewrite (co_hdr _ _ Hok). lia. }
  apply wp_bind. eapply wp_store; [exact Hc|]. set (c1 := c <| cl_pending_msg_fd ::= _ |> <| cl_hdrbuf := _ |> <| cl_pending_msg_offset := _ |>).
  set (s1 := set_heap _ _).
  assert (inv W [] s1) as Hi1.
  { eapply (inv_upd_client W [] (s <| os := o |>)); [by apply inv_os|exact Hc|done| |done..].
    destruct Hok. split; try done. simpl. rewrite Hpend. simpl. lia. }
  assert (h_clients s1 !! cl = Some c1) as Hc1 by apply lookup_insert_eq.
  assert (bus_of s1 = bus_of s) as Eb1.
  { change (bus_of s) with (bus_of (s <| os := o |>)). by apply (bus_upd_client _ cl c). }
  destruct (_ <? 12)%Z eqn:E12; [by apply wp_ret; eauto|]. apply Z.ltb_ge in E12.
  destruct (Z.ltb_spec (blob_raw_len (drop 8 hdrbuf)) sizeof_blob_attr) as [|Hraw]; [by apply wp_ret; eauto|].
  destruct (_ <? blob_pad_len _)%Z; [by apply wp_ret; eauto|].
  unfold sizeof_blob_attr in Hraw. pose proof (blob_raw_len_bound (drop 8 hdrbuf)) as Hbound.
  apply wp_bind. eapply wp_mono; [|apply (msg_new_spec []); [by split|apply Hi1]].
  intros [m|] s2 (Hio2 & Ec2 & H2).
  2:{ apply wp_ret. split; [split; [done|]; eapply wf_of_reg; [apply Hio2|apply Hi1]|rewrite Ec2; split; [eauto|]].
      rewrite <- Eb1. exact (bus_reg _ _ (io_reg _ _ _ Hio2)). }
  destruct H2 as (Hm2 & _ & Hnew & Hown). assert (length (drop 8 hdrbuf) = 4) as Hd by (rewrite length_drop; lia).
  apply wp_bind. eapply wp_load; [exact Hnew|]. apply wp_bind, wp_assert.
  { apply fits_spec. simpl. rewrite length_replicate, Hd. lia. }
  apply wp_bind. eapply wp_store; [exact Hnew|]. set (u3 := new_msg _ _ _ <| ub_hdr := _ |> <| ub_data ::= _ |>).
  assert (msg_ok u3 /\ blob_raw_len (ub_data u3) = ub_len u3) as [Hok3 Hraw3].
  { split; [split; [|done]|].
    - simpl. rewrite length_splice; rewrite length_replicate; [lia|]. rewrite Hd. lia.
    - simpl. apply blob_raw_len_hdr. unfold splice. rewrite take_0. simpl. rewrite take_app_le by lia. done. }
  assert (minv [m] (s2 <| h_msgs ::= insert m u3 |>)) as Hm3 by by eapply minv_upd_unowned.
  assert (h_clients s2 !! cl = Some c1) as Hc2 by by rewrite Ec2.
  apply wp_bind. eapply wp_store; [exact Hc2|]. apply wp_ret. split; [split|split].
  - eapply (minv_give [] (s2 <| h_msgs ::= insert m u3 |>)); [exact Hc2|by apply client_refs_pending|exact Hown| |exact Hm3].
    destruct (minv_clients _ _ Hm3 cl c1 Hc2). split; try done. simpl. exists u3. rewrite lookup_insert_eq.
    split; [done|]. split; [done|]. unfold sizeof_msghdr. simpl. lia.
  - eapply (wf_of_reg W (s2 <| h_clients ::= insert cl (c1 <| cl_pending_msg := Some m |>) |>)); [done|].
    eapply wf_upd_client; [exact Hc2|done..|]. eapply wf_of_reg; [apply Hio2|apply Hi1].
  - simpl. rewrite lookup_insert_eq. eauto.
  - etrans; [by apply (bus_upd_client _ cl c1)|]. rewrite <- Eb1. exact (bus_reg _ _ (io_reg _ _ _ Hio2)).
Qed.

Lemma client_rx_body_spec W cl s :
  inv W [] s -> wk_objs W = [] -> cl ∉ wk_clients W -> is_Some (h_clients s !! cl) ->
  wp (client_rx_body cl) (fun _ s' => inv W [] s' /\ is_Some (h_clients s' !! cl) /\ steps cl s s') s.
Proof.
  intros Hi HW Hni [c Hc]. unfold client_rx_body. apply wp_bind. eapply wp_load; [done|].
  pose proof (minv_clients _ _ (inv_minv _ _ _ Hi) _ _ Hc) as Hok. pose proof (co_rx _ _ Hok) as Hrx.
  destruct (cl_pending_msg c) as [ub|] eqn:Ep; [|by apply wp_ret; split; [|split; [eauto|]]].
  destruct Hrx as (u & Hu & Hraw & Hofs). unfold sizeof_msghdr in *.
  pose proof (minv_msgs _ _ (inv_minv _ _ _ Hi) _ _ Hu) as [Hlen Hb].
  apply wp_bind. eapply wp_load; [exact Hu|]. rewrite Hraw.
  set (offset := (cl_pending_msg_offset c - 8)%Z). set (len := (ub_len u - offset)%Z).
  apply wp_bind.
  assert (forall Q : option bytes -> ubusd -> Prop, (forall o, Q None (s <| os := o |>)) ->
    (forall bs o, (Z.of_nat (length bs) <= Z.max 0 len)%Z -> Q (Some bs) (s <| os := o |>)) ->
    wp (if (0 <? len)%Z then
             r ← sys_recvmsg (cl_sock_fd c) len;
             mret (match r with Some (bs, _) => Some bs | None => None end)
           else mret (Some [])) Q s) as Hread.
  { intros Q Hn Hs. destruct (0 <? len)%Z.
    - apply wp_bind, wp_recvmsg; [intros o; apply wp_ret, Hn|]. intros bs cs o Hbs. by apply wp_ret, Hs.
    - apply wp_ret. specialize (Hs [] (os s)). rewrite os_id in Hs. apply Hs. simpl. lia. }
  apply Hread; clear Hread; [intros o; apply wp_ret; split; [by apply inv_os|split; [simpl; eauto|by apply steps_same]]|].
  intros bs o Hbs. assert (inv W [] (s <| os := o |>)) as Hi0 by by apply inv_os.
  destruct (_ && _); [apply wp_ret; split; [done|split; [simpl; eauto|by apply steps_same]]|].
  assert (0 <= len)%Z as Hlen0 by (unfold len, offset; lia). rewrite Z.max_r in Hbs by done.
  apply wp_bind, wp_assert; [apply fits_spec; unfold len, offset in *; lia|].
  apply wp_bind. eapply wp_store; [exact Hu|].
  set (u1 := u <| ub_data ::= _ |>). set (s1 := set_heap _ _).
  assert (msg_like u u1) as Hl1.
  { apply splice_like; [|]; unfold len, offset in *; lia. }
  assert (inv W [] s1) as Hi1.
  { split; [eapply (minv_upd_msg [] (s <| os := o |>)); [exact Hu|done|exact Hl1|apply Hi0]|].
    eapply wf_of_reg; [|apply Hi0]. done. }
  destruct (Z.ltb_spec (Z.of_nat (length bs)) len) as [Hshort|Hfull].
  - apply wp_bind. eapply wp_store; [exact Hc|]. apply wp_ret. split; [|split; [simpl; rewrite lookup_insert_eq; eauto|]].
    2:{ apply steps_same. change (bus_of s) with (bus_of s1). by apply (bus_upd_client s1 cl c). }
    eapply (inv_upd_client W [] s1); [done|exact Hc|done| |done..].
    destruct (minv_clients _ _ (inv_minv _ _ _ Hi1) cl c Hc). split; try done. simpl. rewrite Ep. exists u1.
    rewrite lookup_insert_eq. split; [done|]. split; [destruct Hl1 as [El _ Er _]; congruence|].
    destruct Hl1 as [El _ _ _]. rewrite El. unfold sizeof_msghdr, len, offset in *. lia.
  - apply wp_bind. eapply wp_store; [apply lookup_insert_eq|]. set (u2 := u1 <| ub_fd := _ |>). set (s2 := set_heap _ s1).
    assert (inv W [] s2) as Hi2.
    { split; [eapply (minv_upd_msg [] s1); [apply lookup_insert_eq|done|by split|apply Hi1]|].
      eapply wf_of_reg; [|apply Hi1]. done. }
    apply wp_bind. eapply wp_store; [exact Hc|].
    set (c3 := c <| cl_pending_msg_fd := _ |> <| cl_pending_msg_offset := _ |> <| cl_pending_msg := None |>).
    set (s3 := set_heap _ s2). assert (client_refs c ≡ₚ ub :: client_refs c3) as Hrefs by by apply client_refs_unpend.
    assert (inv W [ub] s3) as Hi3.
    { split; [|by eapply wf_upd_client; [exact Hc|..|apply Hi2]].
      eapply minv_take; [exact Hc|exact Hrefs|done| |apply Hi2].
      destruct (minv_clients _ _ (inv_minv _ _ _ Hi2) cl c Hc). split; try done. }
    assert (owners (h_clients s3) ub = 0) as Hown.
    { pose proof (owners_take _ _ _ c3 ub ub Hc Hrefs) as E. rewrite decide_True in E by done.
      destruct (minv_own _ _ (inv_minv _ _ _ Hi) ub) as [Hle _]. simpl. lia. }
    destruct (minv_live _ _ ub (inv_minv _ _ _ Hi3) ltac:(by left)) as [u3 Hu3].
    apply wp_bind. eapply wp_mono; [|eapply (monitor_message_spec [ub] cl c3 ub u3); [apply Hi3|eapply wf_mon, Hi3|apply lookup_insert_eq|exact Hu3]].
    intros [] s4 [Hm4 Hio4]. assert (quiet [ub] s3 s4) as Hq4 by by split.
    assert (is_Some (h_clients s4 !! cl)) as Hcl4.
    { eapply (keeps_live s3); [by eapply quiet_keeps|]. simpl. rewrite lookup_insert_eq. eauto. }
    apply wp_bind. eapply wp_mono; [|eapply (receive_message_spec W [] cl ub); [exact (quiet_inv _ _ _ _ _ Hq4 Hi3)|done|done|done|]].
    + intros [] s5 (Hi5 & Hs5 & Hb5). apply wp_ret. split; [done|]. destruct Hcl4 as [c4 Hc4].
      destruct (Hs5 cl c4 Hc4) as (c5 & Hc5 & _). split; [eauto|]. transitivity s4; [|done]. apply steps_same.
      rewrite (quiet_bus _ _ _ Hq4). change (bus_of s) with (bus_of s2). by apply (bus_upd_client s2 cl c).
    + rewrite <- Hown. by eapply quiet_owners.
Qed.

Lemma client_rx_spec W fuel cl s :
  inv W [] s -> wk_objs W = [] -> cl ∉ wk_clients W -> is_Some (h_clients s !! cl) ->
  wp (client_rx fuel cl) (fun _ s' => inv W [] s' /\ is_Some (h_clients s' !! cl) /\ steps cl s s') s.
Proof.
  intros Hi HW Hni. revert s Hi. induction fuel as [|fuel IH]; intros s Hi Hcl; cbn [client_rx]; apply wp_bind.
  all: eapply wp_mono; [|by apply client_rx_header_spec]; intros h s1 (Hi1 & Hcl1 & Eb1); pose proof (steps_same cl _ _ Eb1) as Hb1.
  all: destruct h; [|by apply wp_ret..]; apply wp_bind.
  all: eapply wp_mono; [|by apply client_rx_body_spec]; intros b s2 (Hi2 & Hcl2 & Hb2); assert (steps cl s s2) as Hb by by etrans.
  - destruct b; by apply wp_ret.
  - destruct b; [|by apply wp_ret..]. eapply wp_mono; [|by apply IH]. intros r s3 (Hi3 & Hcl3 & Hb3).
    split; [done|]. split; [done|]. by etrans.
Qed.

(** ** The callbacks *)

Lemma client_cb_spec cl ev_write s :
  inv idle [] s -> is_Some (h_clients s !! cl) -> wp (client_cb cl ev_write) (fun _ s' => inv idle [] s' /\ steps cl s s') s.
Proof.
  intros Hi Hcl. assert (cl ∉ wk_clients idle) as Hni by set_solver.
  assert (forall s1, inv idle [] s1 -> is_Some (h_clients s1 !! cl) -> steps cl s s1 ->
    wp (handle_client_disconnect cl) (fun _ s' => inv idle [] s' /\ steps cl s s') s1) as Hdis.
  { intros s' Hi' [c' Hc'] Hb'. eapply wp_mono; [|by eapply client_disconnect_spec]. intros [] s'' (? & _ & ?). split; [done|by etrans]. }
  unfold client_cb. apply wp_bind. destruct Hcl as [c0 Hc0].
  eapply wp_mono; [|by apply (client_tx_spec idle cl c0)]. intros failed s1 (Hi1 & c1 & Hc1 & _ & _ & Eb1).
  assert (steps cl s s1) as Hb1 by by apply steps_same. destruct failed; [by eapply Hdis|]. apply wp_bind. eapply wp_load; [exact Hc1|].
  apply wp_bind.
  assert (wp (when (bool_decide (cl_tx_queue c1 = []) && ev_write)
      (ubus_client_cmd_queue_process cl;;
       c ← load (T := ubus_client) cl;
       when (bool_decide (cl_tx_queue c = [])) (store cl (fun c => c <| cl_sock_poll := Some false |>))))
    (fun _ s' => inv idle [] s' /\ is_Some (h_clients s' !! cl) /\ bus_of s' = bus_of s1) s1) as Hproc.
  { destruct (_ && _); unfold when; [|by apply wp_ret; eauto]. apply wp_bind.
    eapply wp_mono; [|eapply cmd_queue_process_spec; eauto]. intros [] s2 (Hi2 & [c2 Hc2] & Eb2).
    apply wp_bind. eapply wp_load; [exact Hc2|]. destruct (bool_decide _); [|by apply wp_ret; eauto].
    eapply wp_store; [exact Hc2|]. split; [|split; [simpl; rewrite lookup_insert_eq; eauto|]].
    2:{ rewrite <- Eb2. by apply (bus_upd_client _ cl c2). }
    eapply inv_upd_client; [done|exact Hc2|done| |done..].
    destruct (minv_clients _ _ (inv_minv _ _ _ Hi2) _ _ Hc2). by split. }
  eapply wp_mono; [|exact Hproc]. intros [] s2 (Hi2 & Hcl2 & Eb2). apply wp_bind, wp_gets, wp_bind.
  eapply wp_mono; [|by apply client_rx_spec]. intros r s3 (Hi3 & Hcl3 & Hb3).
  assert (steps cl s s3) as Hb by (transitivity s1; [done|]; transitivity s2; [by apply steps_same|done]).
  assert (wp (c ← load (T := ubus_client) cl;
        if negb (cl_sock_eof c) || negb (bool_decide (cl_tx_queue c = [])) then mret tt
        else handle_client_disconnect cl) (fun _ s' => inv idle [] s' /\ steps cl s s') s3) as Hend.
  { destruct Hcl3 as [c3 Hc3]. apply wp_bind. eapply wp_load; [exact Hc3|]. destruct (_ || _); [by apply wp_ret|].
    apply Hdis; eauto. }
  destruct r; [done|done|by apply Hdis].
Qed.

(** New clients, each of them who one of the accepted peers is *)
Inductive joined (accepts : list accept_result) (b : bus) : bus -> Prop :=
  | join_peer fd peer cl k :
      Accepted fd peer ∈ accepts -> peer_user peer = Some k -> bus_users b !! cl = None ->
      joined accepts b (b <| bus_users ::= insert cl k |>).

Lemma joined_more accepts accepts' b b' :
  (forall r, r ∈ accepts -> r ∈ accepts') -> rtc (joined accepts) b b' -> rtc (joined accepts') b b'.
Proof.
  intros H. induction 1 as [|b1 b2 b3 [fd peer cl k Hin Hk Hn] _ IH]; [apply rtc_refl|].
  eapply rtc_l; [|exact IH]. by apply (join_peer accepts' b1 fd peer cl k (H _ Hin)).
Qed.

Lemma server_cb_spec accepts s :
  inv idle [] s -> wp (server_cb accepts) (fun _ s' => inv idle [] s' /\ rtc (joined accepts) (bus_of s) (bus_of s')) s.
Proof.
  revert s. induction accepts as [|r rest IH]; intros s Hi; [apply wp_ret; split; [done|apply rtc_refl]|].
  cbn [server_cb]. apply wp_bind.
  assert (wp (get_next_connection r) (fun _ s' => inv idle [] s' /\ rtc (joined (r :: rest)) (bus_of s) (bus_of s')) s) as Hg.
  { destruct r as [fd peer| |]; [|apply wp_ret; split; [done|apply rtc_refl]..]. unfold get_next_connection.
    apply wp_bind, wp_modify, wp_bind.
    eapply wp_mono; [|apply new_client_spec; [by apply (inv_os idle [] s)|done]]. intros [cl|] s1 [Hi1 Hcon]; apply wp_bind.
    - destruct Hcon as ([c Hc] & Hnone & k & Hk & Eb1). eapply wp_store; [exact Hc|]. apply wp_ret. split.
      + eapply inv_upd_client; [done|exact Hc|done| |done..].
        destruct (minv_clients _ _ (inv_minv _ _ _ Hi1) _ _ Hc). by split.
      + apply rtc_once. cbn [set_heap heap_client]. rewrite (bus_upd_client s1 cl c), Eb1 by done.
        apply (join_peer _ (bus_of s) fd peer cl k); [by left|done|]. simpl. rewrite lookup_fmap. simpl in Hnone. by rewrite Hnone.
    - apply wp_close. intros o. apply wp_ret. split; [by apply inv_os|]. change (bus_of (s1 <| os := o |>)) with (bus_of s1).
      rewrite Hcon. apply rtc_refl. }
  eapply wp_mono; [|exact Hg]. intros next s1 [Hi1 Hb1]. destruct next; [|by apply wp_ret].
  eapply wp_mono; [|by apply IH]. intros [] s2 [Hi2 Hb2]. split; [done|]. etrans; [exact Hb1|].
  eapply joined_more; [|exact Hb2]. intros r' Hr'. by right.
Qed.
End MainSpec.
