(* ===== verification/RxSpec.v ===== *)
(** * Reception and the retry loops

    What handling a message leaves alone, what the header and the body phase of
    [client_cb] do with the bytes they read, and bounds for the retry loops. *)

From stdpp Require Import base gmap strings list fin_maps sets.
From Stdlib Require Import ZArith Lia.
From S2P Require Import Prelude Wire Cstring Libubox LibuboxModel Ids State MsgBuf Frame SendSpec Stream Wf WfOps.
From S2P Require Import Registry Acl Reply Event Obj AclLoad Proto Main Bus ReplySpec MainSpec.
Local Open Scope ubus_scope.

(** ** What handling a message leaves alone *)

(** The state of reception *)
Definition pend (c : ubus_client) : option ptr * Z := (cl_pending_msg c, cl_pending_msg_offset c).

Section RxFrame.
Context `{AL : AvlLib} `{BL : BlobLib}.
Implicit Types (s : ubusd).

Definition rx_part s : list recv_result * gmap ptr (option ptr * Z) :=
  (os_recv (os s), pend <$> h_clients s).

Lemma rx_store_client cl f : (forall c, pend (f c) = pend c) -> preserves rx_part (store (T := ubus_client) cl f).
Proof.
  intros Hf s a s'. unfold store. simpl. destruct (h_clients s !! cl) as [c|] eqn:E; [|done].
  intros [= _ <-]. unfold rx_part. simpl. f_equal. rewrite fmap_insert, Hf. apply insert_id. by rewrite lookup_fmap, E.
Qed.

Lemma rx_sendmsg fd iov passed : preserves rx_part (sys_sendmsg fd iov passed).
Proof. intros s a s'. unfold sys_sendmsg. destruct (os_send (os s)) as [|[]]; by intros [= _ <-]. Qed.

Lemma rx_tree_delete {K} {cmp : K -> K -> Z} {dup} get
    (set : (avl_tree cmp dup ptr -> avl_tree cmp dup ptr) -> ubusd -> ubusd) k p :
  (forall f s, rx_part (set f s) = rx_part s) -> preserves rx_part (tree_delete get set k p).
Proof. intros H s a s'. unfold tree_delete. destruct (linked _ _ _); [|done]. intros [= _ <-]. apply H. Qed.

Lemma rx_alloc_id get set p val :
  (forall f s, rx_part (set f s) = rx_part s) -> preserves rx_part (alloc_id get set p val).
Proof.
  intros H s a s'. unfold alloc_id. destruct (ubus_alloc_id _ _ _ _) as [[r t] rnd]. intros [= _ <-]. by rewrite H.
Qed.
End RxFrame.

#[export] Hint Resolve rx_store_client rx_sendmsg rx_tree_delete rx_alloc_id : pres.

Section RxDispatch.
Context `{AL : AvlLib} `{BL : BlobLib}.
Implicit Types (s : ubusd).

(** *** Sending *)

Lemma rx_status st : preserves rx_part (status st).
Proof. apply pres_ret. Qed.
Hint Resolve rx_status : pres.
Lemma rx_msg_new data len shared : preserves rx_part (ubus_msg_new data len shared).
Proof. unfold ubus_msg_new. solve_pres. Qed.
Lemma rx_msg_free ub : preserves rx_part (ubus_msg_free ub).
Proof. unfold ubus_msg_free. solve_pres. Qed.
Hint Resolve rx_msg_new rx_msg_free : pres.
Lemma rx_enqueue cl ub : preserves rx_part (ubus_msg_enqueue cl ub).
Proof. unfold ubus_msg_enqueue, ubus_msg_ref. solve_pres. Qed.
Lemma rx_sendmsg_retry fuel fd iov passed : preserves rx_part (sendmsg_retry fuel fd iov passed).
Proof. induction fuel; simpl; solve_pres. Qed.
Hint Resolve rx_enqueue rx_sendmsg_retry : pres.
Lemma rx_transmit cl ub : preserves rx_part (ubus_msg_transmit cl ub).
Proof. unfold ubus_msg_transmit, ubus_msg_writev. solve_pres. Qed.
Hint Resolve rx_transmit : pres.
Lemma rx_monitor_message cl ub b : preserves rx_part (ubusd_monitor_message cl ub b).
Proof. unfold ubusd_monitor_message, monitor_turn, ubus_msg_send_monitor. solve_pres. Qed.
Hint Resolve rx_monitor_message : pres.
Lemma rx_msg_send cl ub : preserves rx_part (ubus_msg_send cl ub).
Proof. unfold ubus_msg_send. solve_pres. Qed.
Hint Resolve rx_msg_send : pres.
Lemma rx_send_to cl ub : preserves rx_part (msg_send_to cl ub).
Proof. destruct cl; simpl; solve_pres. Qed.
Lemma rx_msg_from_blob b shared : preserves rx_part (ubus_msg_from_blob b shared).
Proof. unfold ubus_msg_from_blob. solve_pres. Qed.
Hint Resolve rx_send_to rx_msg_from_blob : pres.
Lemma rx_send_msg_from_blob b cl ub type : preserves rx_part (ubus_proto_send_msg_from_blob b cl ub type).
Proof. unfold ubus_proto_send_msg_from_blob, ubus_reply_from_blob, ubus_msg_init. solve_pres. Qed.
Lemma rx_unsubscribe x : preserves rx_part (ubus_unsubscribe x).
Proof. unfold ubus_unsubscribe, ubus_notify_subscription, ubus_msg_init. solve_pres. Qed.
Hint Resolve rx_send_msg_from_blob rx_unsubscribe : pres.
Lemma rx_notify_unsubscribe x : preserves rx_part (ubus_notify_unsubscribe x).
Proof. unfold ubus_notify_unsubscribe, ubus_msg_init. solve_pres. Qed.
Lemma rx_subscribe obj target : preserves rx_part (ubus_subscribe obj target).
Proof. unfold ubus_subscribe, ubus_notify_subscription, ubus_msg_init. solve_pres. Qed.
Hint Resolve rx_notify_unsubscribe rx_subscribe : pres.

(** *** Access checks and events *)

Lemma rx_acl_check cl obj method type : preserves rx_part (ubusd_acl_check cl obj method type).
Proof.
  assert (forall c obj l m, preserves rx_part (acl_check_loop c obj method type m l)) as H.
  { intros c o l. induction l as [|[k p] l IH]; intros m; simpl; unfold acl_grants; solve_pres. }
  unfold ubusd_acl_check. solve_pres.
Qed.
Hint Resolve rx_acl_check : pres.
Lemma rx_send_event cl id fill : preserves rx_part fill -> preserves rx_part (ubusd_send_event cl id fill).
Proof.
  intros Hf. assert (forall l m ub, preserves rx_part (send_event_loop cl id fill m ub l)) as H.
  { intros l. induction l as [|[k p] l IH]; intros m ub; simpl; unfold ubusd_send_event_msg; solve_pres. }
  unfold ubusd_send_event. solve_pres.
Qed.
Hint Resolve rx_send_event : pres.
Lemma rx_object_event_msg obj id : preserves rx_part (ubusd_create_object_event_msg obj id).
Proof. unfold ubusd_create_object_event_msg. solve_pres. Qed.
Hint Resolve rx_object_event_msg : pres.
Lemma rx_send_obj_event obj add : preserves rx_part (ubusd_send_obj_event obj add).
Proof. unfold ubusd_send_obj_event. solve_pres. Qed.
Lemma rx_event_cleanup obj : preserves rx_part (ubusd_event_cleanup_object obj).
Proof. unfold ubusd_event_cleanup_object, ubusd_delete_event_source. solve_pres. Qed.
Lemma rx_event_recv cl method msg : preserves rx_part (ubusd_event_recv cl method msg).
Proof.
  unfold ubusd_event_recv, ubusd_alloc_event_pattern, ubusd_forward_event, ubusd_create_event_from_msg, ubusd_find_object.
  solve_pres.
Qed.
Hint Resolve rx_send_obj_event rx_event_cleanup rx_event_recv : pres.

(** *** Objects *)

Lemma rx_unref_type t : preserves rx_part (ubus_unref_object_type t).
Proof. unfold ubus_unref_object_type. solve_pres. Qed.
Hint Resolve rx_unref_type : pres.
Lemma rx_create_type sig : preserves rx_part (ubus_create_obj_type sig).
Proof. unfold ubus_create_obj_type, ubus_create_obj_method. solve_pres. Qed.
Lemma rx_create_internal type id : preserves rx_part (ubusd_create_object_internal type id).
Proof. unfold ubusd_create_object_internal. solve_pres. Qed.
Lemma rx_free_object obj : preserves rx_part (ubusd_free_object obj).
Proof. unfold ubusd_free_object. solve_pres. Qed.
Hint Resolve rx_create_type rx_create_internal rx_free_object : pres.
Lemma rx_create_object cl attr : preserves rx_part (ubusd_create_object cl attr).
Proof.
  unfold ubusd_create_object, create_object_type, create_object_path, path_insert, ubus_get_obj_type. solve_pres.
Qed.
Hint Resolve rx_create_object : pres.

(** *** Handlers *)

Lemma rx_send_obj cl ub obj : preserves rx_part (ubusd_send_obj cl ub obj).
Proof.
  assert (forall key l, preserves rx_part (visible_methods cl key l)) as H.
  { intros key l. induction l as [|m l IH]; cbn [visible_methods]; solve_pres. }
  unfold ubusd_send_obj. solve_pres.
Qed.
Hint Resolve rx_send_obj : pres.
Lemma rx_queue_add cl msg obj : preserves rx_part (ubus_client_cmd_queue_add cl msg obj).
Proof. unfold ubus_client_cmd_queue_add, dup_path. solve_pres. Qed.
Hint Resolve rx_queue_add : pres.
Lemma rx_lookup_cmd cl ub attr cmd : preserves rx_part (handle_lookup_cmd cl ub attr cmd).
Proof.
  assert (forall objpath l found, preserves rx_part (lookup_prefix_loop cl ub objpath found l)) as H.
  { intros objpath l. induction l as [|[k p] l IH]; intros found; cbn [lookup_prefix_loop]; solve_pres. }
  unfold handle_lookup_cmd, lookup_all_step, dup_path, cmd_set_lookup_path. solve_pres.
Qed.
Hint Resolve rx_lookup_cmd : pres.
Lemma rx_forward_invoke b cl obj method ub data : preserves rx_part (ubusd_forward_invoke b cl obj method ub data).
Proof. unfold ubusd_forward_invoke. solve_pres. Qed.
Hint Resolve rx_forward_invoke : pres.
Lemma rx_reply_query cl ub attr : preserves rx_part (ubusd_reply_query cl ub attr).
Proof.
  assert (forall key l m, preserves rx_part (reply_add_loop key m l)) as H1.
  { intros key l. induction l as [|[k p] l IH]; intros m; cbn [reply_add_loop]; solve_pres. }
  assert (forall l, preserves rx_part (reply_add_all l)) as H2.
  { intros l. induction l as [|p l IH]; cbn [reply_add_all]; unfold ubusd_reply_add; solve_pres. }
  unfold ubusd_reply_query, ubusd_find_object. solve_pres.
Qed.
Hint Resolve rx_reply_query : pres.
Lemma rx_call_recv cb cl ub method msg : preserves rx_part (call_recv_msg cb cl ub method msg).
Proof.
  unfold call_recv_msg, ubusd_acl_recv, ubusd_monitor_recv, ubusd_monitor_connect, ubusd_monitor_disconnect,
    ubusd_monitor_free. solve_pres.
Qed.
Hint Resolve rx_call_recv : pres.
Lemma rx_handler type h cl ub attr : handlers type = Some h -> preserves rx_part (h cl ub attr).
Proof.
  assert (forall l, preserves rx_part (subscriber_ids l)) as H by (intros l; induction l; cbn [subscriber_ids]; solve_pres).
  intros Hh. destruct type; simpl in Hh; try discriminate; injection Hh as <-;
    unfold ubusd_send_pong, ubusd_handle_remove_object, ubusd_handle_add_object, ubusd_handle_lookup, ubusd_handle_invoke,
      ubusd_handle_response, ubusd_handle_add_watch, ubusd_handle_remove_watch, ubusd_handle_notify,
      ubusd_get_client_by_id, ubusd_find_object; solve_pres.
Qed.

(** Handling a message reads nothing from the sockets and leaves every client's
    reception alone. *)
Lemma rx_receive_message cl ub : preserves rx_part (ubusd_proto_receive_message cl ub).
Proof.
  assert (forall t attr, preserves rx_part
    (match msg_of_code t ≫= handlers with Some h => h cl ub attr | None => status UBUS_STATUS_INVALID_COMMAND end)) as H.
  { intros t attr. destruct (msg_of_code t) as [type|]; simpl; [|solve_pres].
    destruct (handlers type) as [h|] eqn:E; [by eapply rx_handler|solve_pres]. }
  unfold ubusd_proto_receive_message, prepare_retmsg, ubus_msg_close_fd, send_retmsg. solve_pres.
Qed.
End RxDispatch.

(** ** The bytes of a message *)

Section RxSteps.
Context `{AL : AvlLib} `{BL : BlobLib} `{!AvlLaws AL} `{!BlobLaws BL}.
Implicit Types (s : ubusd) (bs : bytes).

(** What the next [recvmsg] or [read] of at most [want] bytes returns: [None]
    when it fails *)
Definition next_bytes s (fd want : Z) : option bytes :=
  match os_recv (os s) with
  | Got n _ :: _ => Some (take (Z.to_nat (Z.min n want)) (default [] (os_in (os s) !! fd)))
  | _ => None
  end.

(** [bs] are the bytes of the current message the client's connection has
    delivered so far, and [fd] the descriptor that came with them (-1: none):
    while the header is incomplete they are in [hdrbuf], then in the pending
    message. *)
Definition received s (cl : ptr) bs (fd : Z) : Prop :=
  exists c, h_clients s !! cl = Some c /\ cl_pending_msg_offset c = Z.of_nat (length bs) /\ cl_pending_msg_fd c = fd /\
  match cl_pending_msg c with
  | None => take (length bs) (cl_hdrbuf c) = bs
  | Some m => exists u, h_msgs s !! m = Some u /\ ub_hdr u = decode_hdr bs /\
      ub_len u = blob_raw_len (drop 8 bs) /\ take (length bs - 8) (ub_data u) = drop 8 bs
  end.

(** The length in the message's first attribute is acceptable. *)
Definition length_ok bs : Prop :=
  (sizeof_blob_attr <= blob_raw_len (drop 8 bs))%Z /\ (blob_pad_len (drop 8 bs) <= UBUS_MAX_MSGLEN)%Z.
#[export] Instance length_ok_dec bs : Decision (length_ok bs).
Proof. unfold length_ok. apply _. Defined.

(** The control messages that come with them *)
Definition next_cmsgs s : list cmsghdr :=
  match os_recv (os s) with Got _ cmsgs :: _ => cmsgs | _ => [] end.

(** A control message that passes a descriptor *)
Definition passes_fd (m : cmsghdr) : Prop :=
  cmsg_level m = SOL_SOCKET /\ cmsg_type m = SCM_RIGHTS /\ (CMSG_LEN_INT <= cmsg_len m)%Z.

(** The descriptor passed along: that of the first such message, or none *)
Definition passed_fd (cmsgs : list cmsghdr) (fd : Z) : Prop :=
  (exists before m after, cmsgs = before ++ m :: after /\ passes_fd m /\ Forall (fun m' => ~ passes_fd m') before /\ fd = cmsg_fd m) \/
  Forall (fun m => ~ passes_fd m) cmsgs /\ fd = (-1)%Z.

(** The first descriptor that comes with a message is kept. *)
Definition keeps_fd (old : Z) (cmsgs : list cmsghdr) (new : Z) : Prop :=
  if (0 <=? old)%Z then new = old
  else exists x, passed_fd cmsgs x /\ new = if (0 <=? x)%Z then x else old.

Lemma recv_fd_passed cmsgs : passed_fd cmsgs (ubusd_recv_fd cmsgs).
Proof.
  induction cmsgs as [|m l IH]; simpl; [by right|].
  assert (~ passes_fd m -> passed_fd (m :: l) (ubusd_recv_fd l)) as Hskip.
  { intros Hm. destruct IH as [(l1 & m' & l2 & -> & Hp & Hl & E)|[Hl E]].
    - left. exists (m :: l1), m', l2. split; [done|]. split; [done|]. split; [by constructor|done].
    - right. split; [by constructor|done]. }
  destruct (Z.eqb_spec (cmsg_level m) SOL_SOCKET) as [El|El]; simpl; [|apply Hskip; by intros (? & _)].
  destruct (Z.eqb_spec (cmsg_type m) SCM_RIGHTS) as [Et|Et]; simpl; [|apply Hskip; by intros (_ & ? & _)].
  destruct (Z.ltb_spec (cmsg_len m) CMSG_LEN_INT) as [Hl|Hl]; [apply Hskip; intros (_ & _ & ?); lia|].
  left. exists [], m, l. split; [done|]. split; [done|]. split; [constructor|done].
Qed.

Lemma recvmsg_next s fd want :
  exists o, sys_recvmsg fd want s = Some ((fun bs => (bs, next_cmsgs s)) <$> next_bytes s fd want, s <| os := o |>) /\
    os_alloc o = os_alloc (os s).
Proof.
  unfold sys_recvmsg, next_bytes, next_cmsgs. destruct (os_recv (os s)) as [|[n cs|] rest].
  - exists (os s). split; [by destruct s|done].
  - eexists. split; reflexivity.
  - eexists. split; reflexivity.
Qed.

Lemma next_bytes_len s fd want new : next_bytes s fd want = Some new -> (Z.of_nat (length new) <= Z.max 0 want)%Z.
Proof.
  unfold next_bytes. destruct (os_recv (os s)) as [|[n cs|] rest]; [done| |done]. intros [= <-]. rewrite length_take. lia.
Qed.

Lemma decode_hdr_app bs bs' : 8 <= length bs -> decode_hdr (bs ++ bs') = decode_hdr bs.
Proof. intros H. do 8 (destruct bs as [|? bs]; [simpl in H; lia|]). reflexivity. Qed.

Lemma raw_len_app bs bs' : 12 <= length bs -> blob_raw_len (drop 8 (bs ++ bs')) = blob_raw_len (drop 8 bs).
Proof.
  intros H. apply blob_raw_len_hdr. rewrite drop_app_le, take_app_le; [done| |lia]. rewrite length_drop. lia.
Qed.

Lemma take_splice {A} (n : nat) (bs mem : list A) :
  n + length bs <= length mem -> take (n + length bs) (splice n bs mem) = take n mem ++ bs.
Proof.
  intros H. unfold splice. rewrite app_assoc. apply take_app_length'. rewrite length_app, length_take. lia.
Qed.

(** A plain message of zeroes *)
Lemma wp_msg_blank len (Q : option ptr -> ubusd -> Prop) s :
  (forall o, false ∈ os_alloc (os s) -> Q None (s <| os := o |>)) ->
  (forall o, Q (Some (brk s)) (set_heap (insert (brk s) (new_msg None len false)) (s <| os := o |> <| brk ::= Pos.succ |>))) ->
  wp (ubus_msg_new None len false) Q s.
Proof.
  intros Hn Hs. unfold ubus_msg_new, wp, mbind, stm_bind, alloc. pose proof (pop_alloc_failed (os s)) as Hf.
  destruct (os_pop_alloc (os s)) as [[] o]; simpl in *; [apply Hs|]. by apply Hn, Hf.
Qed.

Lemma wp_recv_next fd want (Q : option (bytes * list cmsghdr) -> ubusd -> Prop) s :
  (forall o, os_alloc o = os_alloc (os s) -> Q ((fun bs => (bs, next_cmsgs s)) <$> next_bytes s fd want) (s <| os := o |>)) ->
  wp (sys_recvmsg fd want) Q s.
Proof. intros HQ. destruct (recvmsg_next s fd want) as (o & E & Ea). eapply wp_eq; [exact E|]. by apply HQ. Qed.

Definition header_outcome s (cl : ptr) bs (fd : Z) (next : option bytes) (r : rx_outcome) s' : Prop :=
  match next with
  | None => r = RxOut /\ received s' cl bs fd
  | Some new =>
      let all := bs ++ new in
      exists fd', keeps_fd fd (next_cmsgs s) fd' /\
        if decide (length all < 12) then r = RxOut /\ received s' cl all fd'
        else if decide (length_ok all) then
          r = RxMore /\ received s' cl all fd' \/ r = RxDisconnect /\ false ∈ os_alloc (os s)
        else r = RxDisconnect
  end.

Lemma rx_header_step s cl c bs :
  inv idle [] s -> h_clients s !! cl = Some c -> cl_sock_eof c = false -> received s cl bs (cl_pending_msg_fd c) -> length bs < 12 ->
  wp (client_rx_header cl)
    (header_outcome s cl bs (cl_pending_msg_fd c) (next_bytes s (cl_sock_fd c) (sizeof_hdrbuf - Z.of_nat (length bs)))) s.
Proof.
  intros Hi Hc He (c0 & Hc0 & Hofs & _ & Hrx) Hlt. rewrite Hc in Hc0. injection Hc0 as <-.
  pose proof (minv_clients _ _ (inv_minv _ _ _ Hi) _ _ Hc) as Hok. pose proof (co_hdr _ _ Hok) as Hh.
  destruct (cl_pending_msg c) as [m|] eqn:Ep.
  { pose proof (co_rx _ _ Hok) as H. rewrite Ep in H. destruct H as (? & _ & _ & ?). lia. }
  unfold client_rx_header. apply wp_bind. eapply wp_load; [exact Hc|]. rewrite He, Hofs. unfold sizeof_hdrbuf.
  rewrite (proj2 (Z.ltb_lt (Z.of_nat (length bs)) 12)) by lia. cbn [negb andb]. cbv zeta.
  apply wp_bind, wp_recv_next. intros o Ea.
  destruct (next_bytes s (cl_sock_fd c) (12 - Z.of_nat (length bs))) as [new|] eqn:En.
  2:{ apply wp_ret. split; [done|]. exists c. simpl. by rewrite Ep. }
  apply next_bytes_len in En as Hnl. rewrite Z.max_r in Hnl by lia. rewrite Nat2Z.id. cbn [fmap option_fmap option_map].
  apply wp_bind, wp_assert; [apply fits_spec; lia|]. set (hdrbuf := splice (length bs) new (cl_hdrbuf c)).
  apply wp_bind. eapply wp_store; [exact Hc|]. set (c1 := c <| cl_pending_msg_fd ::= _ |> <| cl_hdrbuf := _ |> <| cl_pending_msg_offset := _ |>).
  set (s1 := set_heap _ _).
  assert (take (length (bs ++ new)) hdrbuf = bs ++ new) as Htake.
  { rewrite length_app. unfold hdrbuf. rewrite take_splice by lia. by rewrite Hrx. }
  set (fd' := cl_pending_msg_fd c1).
  assert (keeps_fd (cl_pending_msg_fd c) (next_cmsgs s) fd') as Hfd.
  { unfold keeps_fd, fd'. simpl. destruct (Z.ltb_spec (cl_pending_msg_fd c) 0) as [Hneg|Hpos].
    - rewrite (proj2 (Z.leb_gt _ _)) by lia. eexists. split; [apply recv_fd_passed|done].
    - by rewrite (proj2 (Z.leb_le _ _)) by lia. }
  unfold header_outcome. cbv zeta. eapply wp_mono; [intros r s' Hr; exists fd'; split; [exact Hfd|exact Hr]|]. cbv beta.
  destruct (decide (length (bs ++ new) < 12)) as [Hs|Hs]; pose proof (length_app bs new) as Happ.
  { rewrite (proj2 (Z.ltb_lt (_ + _) _)) by lia. apply wp_ret. split; [done|].
    exists c1. split; [apply lookup_insert_eq|]. split; [simpl; lia|]. split; [done|]. simpl. by rewrite Ep. }
  rewrite (proj2 (Z.ltb_ge (_ + _) _)) by lia.
  assert (hdrbuf = bs ++ new) as Hfull.
  { rewrite <- Htake. symmetry. apply take_ge. unfold hdrbuf. rewrite length_splice; lia. }
  rewrite Hfull. destruct (decide (length_ok (bs ++ new))) as [[Hl1 Hl2]|Hbad].
  2:{ unfold length_ok in Hbad. destruct (Z.ltb_spec (blob_raw_len (drop 8 (bs ++ new))) sizeof_blob_attr); [by apply wp_ret|].
      destruct (Z.ltb_spec UBUS_MAX_MSGLEN (blob_pad_len (drop 8 (bs ++ new)))); [by apply wp_ret|]. tauto. }
  rewrite (proj2 (Z.ltb_ge _ _) Hl1), (proj2 (Z.ltb_ge _ _) Hl2). unfold sizeof_blob_attr in Hl1.
  apply wp_bind, wp_msg_blank; [intros o' Hne; apply wp_ret; right; split; [done|by rewrite <- Ea]|]. intros o'.
  set (data := drop 8 (bs ++ new)) in *. assert (length data = 4) as Hd by (unfold data; rewrite length_drop; lia).
  apply wp_bind. eapply wp_load; [apply lookup_insert_eq|]. apply wp_bind, wp_assert.
  { apply fits_spec. simpl. rewrite length_replicate. lia. }
  apply wp_bind. eapply wp_store; [apply lookup_insert_eq|]. set (u := new_msg _ _ _ <| ub_hdr := _ |> <| ub_data ::= _ |>).
  apply wp_bind. eapply wp_store; [apply lookup_insert_eq|]. apply wp_ret. left. split; [done|].
  eexists. split; [apply lookup_insert_eq|]. split; [simpl; lia|]. split; [done|]. exists u. split; [apply lookup_insert_eq|].
  split; [done|]. split; [done|]. replace (length (bs ++ new) - 8) with (0 + length data) by lia. simpl ub_data.
  rewrite take_splice; [by rewrite take_0|]. rewrite length_replicate. lia.
Qed.

(** The complete message, as it is handed on *)
Record complete s (cl m : ptr) (fd : Z) (all : bytes) : Prop := {
  cp_pending : received s cl [] (-1);
  cp_msg : exists u, h_msgs s !! m = Some u /\ ub_hdr u = decode_hdr all /\ ub_data u = drop 8 all /\ ub_fd u = fd;
}.

Definition handle_message (cl m : ptr) : stm ubusd rx_outcome :=
  ubusd_monitor_message cl m false;;
  ubusd_proto_receive_message cl m;;
  mret RxMore.

(** [client_rx_body] once [new] has been read *)
Definition accept_body (cl m : ptr) (c : ubus_client) (u : ubus_msg_buf) bs (want : Z) (new : bytes) : stm ubusd rx_outcome :=
  if (0 <? want)%Z && (Z.of_nat (length new) =? 0)%Z then mret RxOut
  else
    assert (fits (Z.of_nat (length bs) - 8) new (ub_data u));;
    store m (fun u => u <| ub_data ::= splice (Z.to_nat (Z.of_nat (length bs) - 8)) new |>);;
    if (Z.of_nat (length new) <? want)%Z then
      store cl (fun c => c <| cl_pending_msg_offset ::= Z.add (Z.of_nat (length new)) |>);;
      mret RxOut
    else
      store m (fun u => u <| ub_fd := cl_pending_msg_fd c |>);;
      store cl (fun c => c <| cl_pending_msg_fd := (-1)%Z |> <| cl_pending_msg_offset := 0%Z |>
                           <| cl_pending_msg := None |>);;
      handle_message cl m.

Lemma rx_body_read s cl c m u bs want :
  h_clients s !! cl = Some c -> cl_pending_msg c = Some m -> h_msgs s !! m = Some u ->
  cl_pending_msg_offset c = Z.of_nat (length bs) ->
  want = (blob_raw_len (ub_data u) - (Z.of_nat (length bs) - 8))%Z ->
  exists o, client_rx_body cl s =
    match (if (0 <? want)%Z then next_bytes s (cl_sock_fd c) want else Some []) with
    | None => Some (RxOut, s <| os := o |>)
    | Some new => accept_body cl m c u bs want new (s <| os := o |>)
    end.
Proof.
  intros Hc Ep Hu Hofs ->. set (want := (_ - _)%Z). assert (client_rx_body cl s = client_rx_body cl s) as E by done.
  unfold client_rx_body at 2 in E. unfold mbind at 1, stm_bind at 1, load at 1 in E. cbn [heap heap_client] in E. rewrite Hc, Ep in E.
  unfold mbind at 1, stm_bind at 1, load at 1 in E. cbn [heap heap_msg] in E. rewrite Hu in E. cbv zeta in E.
  unfold sizeof_msghdr in E. rewrite Hofs in E. fold want in E. unfold mbind at 1, stm_bind at 1 in E. destruct (0 <? want)%Z eqn:Ew.
  - unfold mbind at 1, stm_bind at 1 in E. destruct (recvmsg_next s (cl_sock_fd c) want) as (o & Er & _). rewrite Er in E.
    exists o. unfold accept_body. rewrite Ew. by destruct (next_bytes s (cl_sock_fd c) want).
  - exists (os s). unfold accept_body. rewrite os_id, Ew. exact E.
Qed.

(** What is read continues the message. *)
Lemma splice_continues bs new (data : bytes) :
  12 <= length bs -> take (length bs - 8) data = drop 8 bs -> length bs - 8 + length new <= length data ->
  take (length (bs ++ new) - 8) (splice (Z.to_nat (Z.of_nat (length bs) - 8)) new data) = drop 8 (bs ++ new).
Proof.
  intros H12 Ht Hl. replace (Z.to_nat (Z.of_nat (length bs) - 8)) with (length bs - 8) by lia.
  replace (length (bs ++ new) - 8) with (length bs - 8 + length new) by (rewrite length_app; lia).
  rewrite take_splice by lia. by rewrite Ht, drop_app_le by lia.
Qed.

Section Accept.
Context s (cl m : ptr) (c : ubus_client) (u : ubus_msg_buf) bs (new : bytes) (want : Z).
Hypothesis (Hc : h_clients s !! cl = Some c) (Ep : cl_pending_msg c = Some m) (Hu : h_msgs s !! m = Some u).
Hypothesis (Hofs : cl_pending_msg_offset c = Z.of_nat (length bs)) (H12 : 12 <= length bs).
Hypothesis (Hhdr : ub_hdr u = decode_hdr bs) (Hlen : ub_len u = blob_raw_len (drop 8 bs)).
Hypothesis (Htake : take (length bs - 8) (ub_data u) = drop 8 bs) (Hd : Z.of_nat (length (ub_data u)) = ub_len u).
Hypothesis (Hwant : want = (8 + blob_raw_len (drop 8 bs) - Z.of_nat (length bs))%Z) (Hnl : (Z.of_nat (length new) <= want)%Z).

Lemma accept_short :
  (Z.of_nat (length new) < want)%Z ->
  wp (accept_body cl m c u bs want new) (fun r s' => r = RxOut /\ received s' cl (bs ++ new) (cl_pending_msg_fd c)) s.
Proof.
  intros Hs. unfold accept_body. destruct ((0 <? want)%Z && _) eqn:E0.
  { apply andb_true_iff in E0 as [_ E0%Z.eqb_eq]. assert (new = []) as -> by (destruct new; [done|simpl in E0; lia]).
    apply wp_ret. split; [done|]. rewrite app_nil_r. exists c. rewrite Ep. split; [done|]. split; [done|]. split; [done|]. by exists u. }
  apply wp_bind, wp_assert; [apply fits_spec; lia|]. apply wp_bind. eapply wp_store; [exact Hu|].
  rewrite (proj2 (Z.ltb_lt _ want)) by done. apply wp_bind. eapply wp_store; [exact Hc|]. apply wp_ret. split; [done|].
  eexists. split; [apply lookup_insert_eq|]. simpl. rewrite Ep. split; [rewrite length_app; lia|]. split; [done|].
  eexists. split; [apply lookup_insert_eq|]. simpl. rewrite decode_hdr_app, raw_len_app by lia.
  split; [done|]. split; [done|]. apply splice_continues; [done|done|lia].
Qed.

Lemma accept_full :
  Z.of_nat (length new) = want ->
  exists s1, accept_body cl m c u bs want new s = handle_message cl m s1 /\ complete s1 cl m (cl_pending_msg_fd c) (bs ++ new).
Proof.
  intros Hs. unfold accept_body. replace ((0 <? want)%Z && (Z.of_nat (length new) =? 0)%Z) with false.
  2:{ symmetry. destruct (Z.ltb_spec 0 want); [|done]. simpl. apply Z.eqb_neq. lia. }
  unfold mbind, stm_bind, assert. rewrite (proj2 (fits_spec _ new (ub_data u))) by lia. unfold mret, stm_ret.
  unfold store at 1. cbn [heap heap_msg]. rewrite Hu, (proj2 (Z.ltb_ge _ want)) by lia.
  set (u1 := u <| ub_data ::= _ |>). unfold store. cbn [heap heap_client heap_msg set_heap].
  match goal with |- context [h_msgs ?x !! m] => replace (h_msgs x !! m) with (Some u1) by (symmetry; apply lookup_insert_eq) end.
  match goal with |- context [h_clients ?x !! cl] => change (h_clients x) with (h_clients s) end. rewrite Hc.
  eexists. split; [reflexivity|]. split.
  - eexists. split; [apply lookup_insert_eq|]. done.
  - eexists. split; [apply lookup_insert_eq|]. simpl. rewrite decode_hdr_app by lia. split; [done|]. split; [|done].
    rewrite <- (splice_continues bs new (ub_data u)) by lia || done. symmetry. apply take_ge.
    rewrite length_splice, length_app; lia.
Qed.
End Accept.

Definition body_outcome (cl m : ptr) (fd : Z) bs (next : option bytes) (res : option (rx_outcome * ubusd)) : Prop :=
  match next with
  | None => exists s', res = Some (RxOut, s') /\ received s' cl bs fd
  | Some new =>
      let all := bs ++ new in
      if decide (Z.of_nat (length all) < sizeof_msghdr + blob_raw_len (drop 8 bs))%Z then
        exists s', res = Some (RxOut, s') /\ received s' cl all fd
      else exists s1, res = handle_message cl m s1 /\ complete s1 cl m fd all
  end.

Lemma rx_body_step s cl c m bs want :
  inv idle [] s -> h_clients s !! cl = Some c -> cl_pending_msg c = Some m -> received s cl bs (cl_pending_msg_fd c) ->
  want = (sizeof_msghdr + blob_raw_len (drop 8 bs) - Z.of_nat (length bs))%Z ->
  body_outcome cl m (cl_pending_msg_fd c) bs (if (0 <? want)%Z then next_bytes s (cl_sock_fd c) want else Some [])
    (client_rx_body cl s).
Proof.
  intros Hi Hc Ep (c0 & Hc0 & Hofs & _ & Hrx) Hwant. rewrite Hc in Hc0. injection Hc0 as <-. rewrite Ep in Hrx.
  destruct Hrx as (u & Hu & Hhdr & Hlen & Htake). pose proof (co_rx _ _ (minv_clients _ _ (inv_minv _ _ _ Hi) _ _ Hc)) as Hrx.
  rewrite Ep in Hrx. destruct Hrx as (u' & Hu' & Hraw & Hb). rewrite Hu in Hu'. injection Hu' as <-.
  pose proof (minv_msgs _ _ (inv_minv _ _ _ Hi) _ _ Hu) as [Hd _]. unfold sizeof_msghdr in *.
  destruct (rx_body_read s cl c m u bs want Hc Ep Hu Hofs ltac:(lia)) as [o ->].
  destruct (if (0 <? want)%Z then _ else _) as [new|] eqn:En; simpl.
  2:{ eexists. split; [done|]. exists c. simpl. rewrite Ep. split; [done|]. split; [done|]. split; [done|]. by exists u. }
  assert (Z.of_nat (length new) <= want)%Z as Hnl.
  { destruct (Z.ltb_spec 0 want); [apply next_bytes_len in En; lia|]. injection En as <-. simpl. lia. }
  assert (12 <= length bs) as H12 by lia. pose proof (length_app bs new) as Happ.
  destruct (decide _) as [Hs|Hs]; unfold sizeof_msghdr in Hs.
  - assert (wp (accept_body cl m c u bs want new) (fun r s' => r = RxOut /\ received s' cl (bs ++ new) (cl_pending_msg_fd c)) (s <| os := o |>)) as Hw.
    { apply accept_short; done || lia. }
    destruct (wp_run _ _ _ Hw) as (r & s' & E & -> & H). eauto.
  - apply accept_full; done || lia.
Qed.
End RxSteps.

(** ** The loop ends *)

Section RxLoop.
Context `{AL : AvlLib} `{BL : BlobLib} `{!AvlLaws AL} `{!BlobLaws BL}.
Implicit Types (s : ubusd).

(** An upper bound for the rounds to come: the reads that will succeed, and a
    message that may be complete already *)
Definition rx_measure (cl : ptr) s : nat :=
  length (os_recv (os s)) + match h_clients s !! cl ≫= cl_pending_msg with Some _ => 1 | None => 0 end.

Lemma measure_part cl s s' : rx_part s' = rx_part s -> rx_measure cl s' = rx_measure cl s.
Proof.
  intros [= E1 E2]. unfold rx_measure. rewrite E1. f_equal.
  assert (pend <$> h_clients s' !! cl = pend <$> h_clients s !! cl) as E by by rewrite <- !lookup_fmap, E2.
  destruct (h_clients s' !! cl), (h_clients s !! cl); simpl in *; try done. by injection E as ->.
Qed.

Lemma rx_header_more cl s r s' :
  inv idle [] s -> client_rx_header cl s = Some (r, s') -> r = RxMore -> rx_measure cl s' <= rx_measure cl s.
Proof.
  intros Hi E ->. revert E. unfold client_rx_header. unfold mbind at 1, stm_bind at 1, load at 1. cbn [heap heap_client].
  destruct (h_clients s !! cl) as [c|] eqn:Hc; [|done].
  pose proof (co_rx _ _ (minv_clients _ _ (inv_minv _ _ _ Hi) _ _ Hc)) as Hrx.
  destruct (negb (cl_sock_eof c) && _) eqn:Eb; [|by intros [= <-]]. apply andb_true_iff in Eb as [_ Hlt%Z.ltb_lt].
  destruct (cl_pending_msg c) eqn:Ep; [destruct Hrx as (? & _ & _ & ?); unfold sizeof_hdrbuf in Hlt; lia|]. clear Hrx.
  unfold mbind at 1, stm_bind at 1, sys_recvmsg. destruct (os_recv (os s)) as [|[n cs|] rest] eqn:Er; [done| |done].
  unfold rx_measure. rewrite Hc, Er. cbn [length option_bind mbind]. rewrite Ep.
  intros E. enough (os_recv (os s') = rest) as ->.
  { destruct (h_clients s' !! cl ≫= _); lia. }
  match type of E with ?m ?x = _ => assert (preserves (fun s => os_recv (os s)) m) as Hp end; [|exact (Hp _ _ _ E)].
  unfold ubus_msg_new. solve_pres.
Qed.

Lemma rx_body_more cl s s' :
  client_rx_body cl s = Some (RxMore, s') -> rx_measure cl s' < rx_measure cl s.
Proof.
  unfold client_rx_body. unfold mbind at 1, stm_bind at 1, load at 1. cbn [heap heap_client].
  destruct (h_clients s !! cl) as [c|] eqn:Hc; [|done]. destruct (cl_pending_msg c) as [ub|] eqn:Ep; [|done].
  unfold mbind at 1, stm_bind at 1, load at 1. cbn [heap heap_msg]. destruct (h_msgs s !! ub) as [u|] eqn:Hu; [|done].
  cbv zeta. set (len := (_ - _)%Z). unfold mbind at 1, stm_bind at 1.
  match goal with |- match ?m s with _ => _ end = _ -> _ => destruct (m s) as [[r s1]|] eqn:Er; [|done] end.
  assert (h_clients s1 = h_clients s /\ length (os_recv (os s1)) <= length (os_recv (os s)) /\ h_msgs s1 = h_msgs s) as (E1 & E2 & E3).
  { destruct (0 <? len)%Z; [|by injection Er as _ <-]. revert Er. unfold mbind, stm_bind, sys_recvmsg.
    destruct (os_recv (os s)) as [|[n cs|] rest] eqn:Eo; intros [= _ <-]; simpl; rewrite ?Eo; simpl; auto with lia. }
  destruct r as [bs|]; [|done]. destruct (_ && _); [done|]. unfold mbind at 1, stm_bind at 1, assert. destruct (fits _ _ _); [|done].
  unfold mbind at 1, stm_bind at 1, store at 1. cbn [heap heap_msg mret stm_ret]. rewrite E3, Hu. destruct (Z.of_nat (length bs) <? len)%Z.
  { unfold mbind, stm_bind, store. cbn [heap heap_client]. by repeat case_match. }
  unfold mbind at 1, stm_bind at 1, store at 1. cbn [heap heap_msg set_heap].
  match goal with |- context [h_msgs ?x !! ub] => destruct (h_msgs x !! ub) as [u1|]; [|done] end.
  unfold mbind at 1, stm_bind at 1, store at 1. cbn [heap heap_client set_heap].
  match goal with |- context [h_clients ?x !! cl] => change (h_clients x) with (h_clients s1) end. rewrite E1, Hc. intros E.
  match type of E with ?m ?x = _ =>
    assert (preserves rx_part m) as Hp; [|rewrite (measure_part cl _ _ (Hp _ _ _ E))] end.
  { apply pres_bind; [apply rx_monitor_message|]. intros _. apply pres_bind; [apply rx_receive_message|]. intros _. apply pres_ret. }
  unfold rx_measure. simpl. rewrite lookup_insert_eq, Hc. simpl. rewrite Ep. simpl. lia.
Qed.

Lemma rx_loop_ends fuel cl s :
  inv idle [] s -> is_Some (h_clients s !! cl) -> rx_measure cl s <= fuel ->
  exists r s', r <> RxMore /\ forall fuel', fuel <= fuel' -> client_rx fuel' cl s = Some (r, s').
Proof.
  revert s. induction fuel as [fuel IH] using lt_wf_ind. intros s Hi Hcl Hf.
  destruct (wp_run _ _ _ (client_rx_header_spec idle cl s Hi Hcl)) as (h & s1 & E1 & Hi1 & Hcl1 & _).
  assert (forall f, client_rx f cl s =
    match h with
    | RxMore => (b ← client_rx_body cl;
        match b, f with RxMore, S f => client_rx f cl | _, _ => mret b end) s1
    | _ => Some (h, s1)
    end) as Eq.
  { intros f. destruct f; cbn [client_rx]; unfold mbind at 1, stm_bind at 1; rewrite E1; by destruct h. }
  destruct h; [|exists RxOut, s1; split; [done|]; intros f' _; apply Eq|exists RxDisconnect, s1; split; [done|]; intros f' _; apply Eq].
  pose proof (rx_header_more cl s RxMore s1 Hi E1 eq_refl) as Hm1.
  destruct (wp_run _ _ _ (client_rx_body_spec idle cl s1 Hi1 eq_refl ltac:(set_solver) Hcl1)) as (b & s2 & E2 & Hi2 & Hcl2 & _).
  unfold mbind, stm_bind in Eq. rewrite E2 in Eq.
  destruct b; [|exists RxOut, s2; split; [done|]; intros [|f'] _; by rewrite Eq|exists RxDisconnect, s2; split; [done|]; intros [|f'] _; by rewrite Eq].
  pose proof (rx_body_more cl s1 s2 E2) as Hm2. destruct fuel as [|fuel]; [lia|].
  destruct (IH fuel ltac:(lia) s2 Hi2 Hcl2 ltac:(lia)) as (r & s' & Hr & H). exists r, s'. split; [done|].
  intros [|f'] Hf'; [lia|]. rewrite Eq. apply H. lia.
Qed.
End RxLoop.

(** ** Writing ends, too *)

Section TxLoop.
Context `{AL : AvlLib} `{BL : BlobLib}.
Implicit Types (s : ubusd).

Definition sends_left s : nat := length (os_send (os s)).

Lemma sendmsg_uses fd iov passed s :
  match sys_sendmsg fd iov passed s with
  | Some (r, s') => r = SendErr EAGAIN /\ s' = s \/ S (sends_left s') = sends_left s
  | None => False
  end.
Proof. unfold sys_sendmsg, sends_left. destruct (os_send (os s)) as [|[n|e] rest] eqn:E; [by left|by right..]. Qed.

Lemma sendmsg_retry_uses fuel fd iov passed s :
  match sendmsg_retry fuel fd iov passed s with
  | Some (r, s') => r = SendErr EAGAIN \/ sends_left s' < sends_left s
  | None => False
  end.
Proof.
  revert s. induction fuel as [|fuel IH]; intros s; cbn [sendmsg_retry]; unfold mbind, stm_bind;
    pose proof (sendmsg_uses fd iov passed s) as H; destruct (sys_sendmsg fd iov passed s) as [[r s1]|]; try done.
  - destruct r as [n|[]]; simpl; destruct H as [[H _]|H]; first [by left|right; lia].
  - destruct r as [n|[]]; simpl; try (destruct H as [[H _]|H]; first [by left|right; lia]).
    destruct H as [[? _]|H]; [done|]. specialize (IH s1). destruct (sendmsg_retry fuel fd iov passed s1) as [[r s2]|]; [|done].
    destruct IH as [->|IH]; [by left|right; lia].
Qed.

Lemma sendmsg_retry_fuel fuel fuel' fd iov passed s :
  sends_left s <= fuel -> sends_left s <= fuel' -> sendmsg_retry fuel fd iov passed s = sendmsg_retry fuel' fd iov passed s.
Proof.
  revert fuel' s. induction fuel as [|fuel IH]; intros fuel' s Hf Hf'; destruct fuel' as [|fuel']; [done|..];
    cbn [sendmsg_retry]; unfold mbind, stm_bind; pose proof (sendmsg_uses fd iov passed s) as H;
    destruct (sys_sendmsg fd iov passed s) as [[[n|[]] s1]|]; try done; destruct H as [[? _]|H]; try done; try lia.
  apply IH; lia.
Qed.

Lemma bind_ext {A B} (m : stm ubusd A) (k k' : A -> stm ubusd B) s :
  (forall a s', m s = Some (a, s') -> k a s' = k' a s') -> (m ≫= k) s = (m ≫= k') s.
Proof. intros H. unfold mbind, stm_bind. destruct (m s) as [[a s']|] eqn:E; [by apply H|done]. Qed.

Lemma writev_uses fd ubl ofs s r s' :
  ubus_msg_writev fd ubl ofs s = Some (r, s') -> r = SendErr EAGAIN \/ sends_left s' < sends_left s.
Proof.
  unfold ubus_msg_writev, mbind, stm_bind, load, assert, gets. destruct (heap s !! ubl) as [u|]; [|done].
  destruct (iov_fits u _); [|done]. cbn [mret stm_ret]. intros E.
  match type of E with sendmsg_retry ?f ?fd ?iov ?p s = _ => pose proof (sendmsg_retry_uses f fd iov p s) as H end.
  by rewrite E in H.
Qed.

Lemma load_same {T} `{!Heap T} p s x s' : load (T := T) p s = Some (x, s') -> s' = s.
Proof. unfold load. destruct (heap s !! p); [|done]. by intros [= _ <-]. Qed.

Lemma store_sends {T} `{!Heap T} p (f : T -> T) s x s' :
  (forall g s, os (set_heap (T := T) g s) = os s) -> store p f s = Some (x, s') -> sends_left s' = sends_left s.
Proof. intros H. unfold store. destruct (heap s !! p); [|done]. intros [= _ <-]. unfold sends_left. by rewrite H. Qed.

Lemma tx_retry_fuel fuel fuel' cl ubl s :
  S (sends_left s) <= fuel -> S (sends_left s) <= fuel' -> tx_retry fuel cl ubl s = tx_retry fuel' cl ubl s.
Proof.
  revert fuel' s. induction fuel as [|fuel IH]; intros fuel' s Hf Hf'; [lia|]. destruct fuel' as [|fuel']; [lia|].
  cbn [tx_retry]. apply bind_ext. intros c s1 ->%load_same. apply bind_ext. intros r s2 Hw%writev_uses.
  destruct r as [n|[]]; try done; (destruct Hw as [?|Hw]; [done|]); [|apply IH; lia].
  apply bind_ext. intros u s3 ->%load_same. apply bind_ext. intros [] s4 E4%store_sends; [|done].
  destruct (_ <? _)%Z; [|done]. apply IH; lia.
Qed.
End TxLoop.
