(* ===== verification/Daemon.v ===== *)
(** * The daemon as a transition system

    After start-up ([ubusd_init]) the event loop calls [client_cb] and
    [server_cb] in any order and reloads the access control files on a signal;
    between calls the kernel may change what the sockets hold and whether a
    peer has hung up.  [reachable_inv]: the invariant holds in every reachable
    state. *)

From stdpp Require Import base gmap strings list fin_maps sets.
From Stdlib Require Import ZArith Lia.
From S2P Require Import Prelude Wire Cstring Libubox LibuboxModel Ids State MsgBuf Frame SendSpec Wf WfOps.
From S2P Require Import Registry Acl Reply Event Obj AclLoad Proto Main AclSpec Bus ReplySpec RegistrySpec EventSpec.
From S2P Require Import AclLoadSpec ObjSpec ProtoSpec HandlerSpec ClientSpec MainSpec.
Local Open Scope ubus_scope.

(** ** Events *)

Section Daemon.
Context `{AL : AvlLib} `{BL : BlobLib}.
Implicit Types (s : ubusd).

Inductive event :=
  | EvClient (cl : ptr) (ev_write : bool)
  | EvServer (accepts : list accept_result)
  | EvAclLoad (db : user_db) (gl : option (list dir_entry))
  | EvHangup (cl : ptr)
  | EvKernel (o : os_state).

Definition run_event (ev : event) : stm ubusd unit :=
  match ev with
  | EvClient cl ev_write => client_cb cl ev_write
  | EvServer accepts => server_cb accepts
  | EvAclLoad db gl => ubusd_acl_load db gl
  | EvHangup cl => store cl (fun c => c <| cl_sock_eof := true |>)
  | EvKernel o => modify (fun s => s <| os := o |>)
  end.

(** The loop has a descriptor registered for connected clients only. *)
Definition enabled (ev : event) (s : ubusd) : Prop :=
  match ev with
  | EvClient cl _ | EvHangup cl => is_Some (h_clients s !! cl)
  | EvServer _ | EvAclLoad _ _ | EvKernel _ => True
  end.

Inductive reachable : ubusd -> Prop :=
  | reach_init o s : ubusd_init (ubusd_globals o) = Some (tt, s) -> reachable s
  | reach_step s s' ev : reachable s -> enabled ev s -> run_event ev s = Some (tt, s') -> reachable s'.

Context `{!AvlLaws AL} `{!BlobLaws BL}.

(** ** Start-up *)

Lemma globals_inv o : inv idle [] (ubusd_globals o).
Proof.
  split.
  - split; [split; intros p _; apply lookup_empty|..].
    + intros m. simpl. rewrite lookup_empty. unfold owners, map_sum. rewrite map_to_list_empty. simpl. rewrite cnt_nil. lia.
    + intros m u. simpl. by rewrite lookup_empty.
    + intros m u. simpl. by rewrite lookup_empty.
  - split; simpl; rewrite ?fmap_empty, ?omap_empty; try apply tree_ok_init; try apply list_ok_empty; try done.
    + split; intros *; rewrite lookup_empty; done.
    + rewrite (vlist_nodes_init ptr). split; [apply NoDup_nil_2| |apply NoDup_nil_2|].
      * intros k f H. by apply not_elem_of_nil in H.
      * intros f. rewrite lookup_empty. split; [by intros []|]. intros H. by apply not_elem_of_nil in H.
    + intros cl H. by apply not_elem_of_nil in H.
    + constructor.
Qed.

(** A bare object gets its callback: it is a built-in object. *)
Lemma wf_set_recv W s p o cb :
  h_objects s !! p = Some o -> wf (W <| wk_objs ::= cons p |>) s ->
  wf W (s <| h_objects ::= insert p (o <| obj_recv_msg := Some cb |>) |>).
Proof.
  intros Ho []. split; simpl; try wf_keep.
  - destruct wf_sub_active as (H1 & H2 & H3). split; [|split]; wf_keep.
  - intros q x. rewrite lookup_insert_Some. intros [[<- <-]|[Hne Hx]] Hcl Hni; [done|].
    eapply wf_builtin; [done..|]. simpl. set_solver.
Qed.

Lemma create_builtin_spec id cb s :
  inv idle [] s ->
  wp (obj ← ubusd_create_object_internal None id;
      match obj with
      | Some obj => store obj (fun o => o <| obj_recv_msg := Some cb |>)
      | None => mret tt
      end) (fun _ s' => inv idle [] s' /\ h_acls s' = h_acls s /\ bus_of s' = bus_of s) s.
Proof.
  intros Hi. apply wp_bind. eapply wp_mono; [|by apply (create_object_internal_spec idle [])].
  intros [p|] s1 (_ & _ & _ & Ea & Eb & H); [|by apply wp_ret].
  destruct H as (Hi1 & _ & oid & Eh & _). assert (h_objects s1 !! p = Some (bare_object oid None)) as Ho by (rewrite Eh; apply lookup_insert_eq).
  eapply wp_store; [exact Ho|]. split; [|split; [done|]].
  - destruct Hi1 as [Hm Hw]. split; [solve_minv|by eapply wf_set_recv].
  - rewrite <- Eb. by apply (bus_upd_bare s1 p (bare_object oid None)).
Qed.

(** Nobody is connected, nothing is published, nothing is allowed. *)
Definition bus_empty : bus := mk_bus ∅ ∅ ∅ ∅ [] [].

Lemma bus_globals o : bus_of (ubusd_globals o) = bus_empty.
Proof.
  unfold bus_of, rules_of, bus_empty, ubus_init_string_tree. simpl. f_equal.
  unfold ubus_init_string_tree. by rewrite (avl_list_init _ _ _ _).
Qed.

Lemma init_spec o : wp ubusd_init (fun _ s => inv idle [] s /\ bus_of s = bus_empty) (ubusd_globals o).
Proof.
  pose proof (globals_inv o) as Hi. unfold ubusd_init, ubusd_proto_init, ubusd_obj_init.
  apply wp_bind, wp_modify, wp_bind, wp_modify, wp_bind, wp_modify, wp_bind, wp_modify.
  apply wp_bind. unfold ubusd_event_init. apply wp_bind, wp_modify.
  eapply wp_mono; [|apply create_builtin_spec; exact Hi]. intros [] s1 (Hi1 & Ea1 & Eb1). apply wp_bind.
  unfold ubusd_acl_init. apply wp_bind, wp_modify.
  assert (inv idle [] (upd_acls (fun _ => ubus_init_string_tree true ptr) s1)) as Hi1'.
  { destruct Hi1 as [Hm1 Hw1]. split; [unfold upd_acls; solve_minv|]. destruct Hw1. split; try done.
    simpl. rewrite Ea1. simpl. rewrite fmap_empty. apply tree_ok_init. }
  eapply wp_mono; [|by apply create_builtin_spec]. intros [] s2 (Hi2 & _ & Eb2).
  eapply wp_mono; [|by apply create_builtin_spec]. intros [] s3 (Hi3 & _ & Eb3).
  split; [done|]. rewrite Eb3, Eb2. transitivity (bus_of s1); [|by rewrite Eb1; apply (bus_globals o)].
  unfold bus_of, rules_of. simpl. f_equal. unfold ubus_init_string_tree.
  rewrite (avl_list_init _ _ _ _), Ea1. simpl. induction (avl_list _) as [|[k p] l IH]; [done|]. simpl. by rewrite lookup_empty.
Qed.

(** ** The invariant of the event loop *)

(** What an event may do to the bus: a client's event takes steps of this
    client's, the listening socket lets identified peers join, a load replaces
    the rules; a hangup or a change of what the sockets hold does nothing.
    [mem]: the memory suffices. *)
Definition bus_trans (ev : event) (mem : Prop) (b b' : bus) : Prop :=
  match ev with
  | EvClient cl _ => bus_steps cl b b'
  | EvServer accepts => rtc (joined accepts) b b'
  | EvAclLoad db (Some entries) => rules_loaded db entries mem b b'
  | EvAclLoad _ None | EvHangup _ | EvKernel _ => b' = b
  end.

Lemma run_event_spec ev s :
  inv idle [] s -> enabled ev s ->
  wp (run_event ev) (fun _ s' => inv idle [] s' /\ bus_trans ev (os_alloc (os s) = []) (bus_of s) (bus_of s')) s.
Proof.
  intros Hi Hen. destruct ev as [cl w|accepts|db gl|cl|o]; simpl in *.
  - by apply client_cb_spec.
  - by apply server_cb_spec.
  - destruct gl as [entries|]; [|by apply wp_ret]. by apply (acl_load_spec idle [] db entries s).
  - destruct Hen as [c Hc]. eapply wp_store; [exact Hc|]. split; [|by apply (bus_upd_client s cl c)].
    eapply inv_upd_client; [done|exact Hc|done| |done..].
    destruct (minv_clients _ _ (inv_minv _ _ _ Hi) _ _ Hc). by split.
  - apply wp_modify. split; [by apply inv_os|done].
Qed.

Lemma reachable_inv s : reachable s -> inv idle [] s.
Proof.
  induction 1 as [o s E|s s' ev Hs IH Hen E].
  - exact (proj1 (proj1 (wp_eq _ _ _ _ _ E) (init_spec o))).
  - exact (proj1 (proj1 (wp_eq _ _ _ _ _ E) (run_event_spec ev s IH Hen))).
Qed.

(** ** Runs *)

#[export] Instance enabled_dec ev s : Decision (enabled ev s).
Proof. destruct ev; simpl; apply _. Defined.

(** A sequence of events, each enabled in its turn *)
Fixpoint run_events (evs : list event) s : option ubusd :=
  match evs with
  | [] => Some s
  | ev :: evs =>
      if decide (enabled ev s) then
        match run_event ev s with Some (_, s') => run_events evs s' | None => None end
      else None
  end.

Lemma run_events_reachable evs s s' : reachable s -> run_events evs s = Some s' -> reachable s'.
Proof.
  revert s. induction evs as [|ev evs IH]; intros s Hs; simpl; [by intros [= <-]|].
  case_decide as Hen; [|done]. destruct (run_event ev s) as [[[] s1]|] eqn:E; [|done].
  apply IH. by eapply reach_step.
Qed.

Lemma start_reachable o evs s s' :
  snd <$> ubusd_init (ubusd_globals o) = Some s -> run_events evs s = Some s' -> reachable s'.
Proof.
  destruct (ubusd_init (ubusd_globals o)) as [[[] s0]|] eqn:E; [|done]. intros [= <-].
  apply run_events_reachable. by eapply reach_init.
Qed.
End Daemon.
