(* ===== verification/Demo.v ===== *)
(** * A concrete run

    The daemon starts, loads an access control file, accepts a user and root;
    the user publishes an object, root subscribes to it, listens to events and
    becomes a monitor; the answer to the user's ping does not fit its socket.  The
    states [demo n] along the way are the concrete inputs of the theorems'
    witnesses. *)

From stdpp Require Import base gmap strings list fin_maps sets.
From Stdlib Require Import ZArith Lia.
From S2P Require Import Prelude Wire Cstring Libubox LibuboxModel Ids State MsgBuf Frame SendSpec Wf Registry Acl.
From S2P Require Import Reply Event Obj AclLoad Proto Main ReplySpec Daemon.
Local Open Scope Z_scope.
Local Open Scope ubus_scope.
Local Open Scope string_scope.

(** ** The environment *)

Definition demo_db : user_db := mk_user_db
  (fun n => if bool_decide (n = "joe") then Some 1000 else None)
  (fun n => if bool_decide (n = "users") then Some 100 else None).

(** {"user": "joe", "access": {"foo": {"methods": ["hi"]}}, "publish": ["foo*"]} *)
Definition demo_json : list put :=
  [msg_string "user" "joe";
   msg_table (Some "access") [msg_table (Some "foo") [msg_array "methods" [msg_string "" "hi"]]];
   msg_array "publish" [msg_string "" "foo*"]].

Definition root_file : stat_info := mk_stat true 0 0 420.
Definition demo_dir : list dir_entry :=
  [mk_dir_entry "/a.json" (Some root_file) (Some demo_json);
   mk_dir_entry "/b.json" (Some (mk_stat true 0 0 438)) (Some demo_json)].

Definition joe : peer_info := mk_peer (Some (1000, 100)) (Some "joe") (Some "users") None.
Definition root : peer_info := mk_peer (Some (0, 0)) (Some "root") (Some "root") None.

(** A kernel with room in the sockets, random numbers from [r] on, and a request
    waiting on a socket *)
Definition demo_os (r : Z) (fd : Z) (request : bytes) : os_state :=
  mk_os [] (Some <$> [r; r + 1; r + 2; r + 3]) (replicate 20 (Sent 65536)) [Got 65536 []; Got 65536 []]
    {[ fd := request ]} ∅ [] [].

Definition request (type : ubus_msg_type) (seq : Z) (puts : list put) : bytes :=
  encode_hdr (mk_msghdr 0 type seq 0) ++ blob_render puts.

(** ** The run *)

(** joe and root, as clients, their objects, and the ids these get *)
Definition cl_joe : ptr := 7.
Definition cl_root : ptr := 10.
Definition id_foo : Z := 3001.
Definition id_bar : Z := 4000.

Definition demo_events : list event :=
  [EvAclLoad demo_db (Some demo_dir);
   EvServer [Accepted 10 joe; Accepted 11 root];
   EvKernel (demo_os 3000 10 (request UBUS_MSG_ADD_OBJECT 1
     [put_string UBUS_ATTR_OBJPATH "foo"; put_nest UBUS_ATTR_SIGNATURE [msg_table (Some "hi") []]]));
   EvClient cl_joe false;
   EvKernel (demo_os 4000 11 (request UBUS_MSG_ADD_OBJECT 1 []));
   EvClient cl_root false;
   EvKernel (demo_os 5000 11 (request UBUS_MSG_SUBSCRIBE 2
     [put_int32 UBUS_ATTR_OBJID id_bar; put_int32 UBUS_ATTR_TARGET id_foo]));
   EvClient cl_root false;
   EvKernel (demo_os 6000 11 (request UBUS_MSG_INVOKE 3
     [put_int32 UBUS_ATTR_OBJID UBUS_SYSTEM_OBJECT_EVENT; put_string UBUS_ATTR_METHOD "register";
      put_nest UBUS_ATTR_DATA [msg_u32 "object" id_bar; msg_string "pattern" "foo.*"]]));
   EvClient cl_root false;
   EvKernel (demo_os 7000 11 (request UBUS_MSG_INVOKE 4
     [put_int32 UBUS_ATTR_OBJID UBUS_SYSTEM_OBJECT_MONITOR; put_string UBUS_ATTR_METHOD "add"]));
   EvClient cl_root false;
   EvKernel (demo_os 8000 10 (request UBUS_MSG_PING 5 []) <| os_send := [Sent 65536; Sent 65536; Sent 5] |>);
   EvClient cl_joe false].

(** The state after [n] events *)
Definition demo (n : nat) : option ubusd :=
  match snd <$> ubusd_init (ubusd_globals (demo_os 2000 0 [])) with
  | Some s => run_events (take n demo_events) s
  | None => None
  end.
Definition st (n : nat) : ubusd :=
  match demo n with Some s => s | None => ubusd_globals (demo_os 0 0 []) end.

Lemma st_reachable n : has (demo n) = true -> reachable (st n).
Proof.
  unfold st, demo. destruct (snd <$> ubusd_init _) as [s0|] eqn:E0; [|done].
  destruct (run_events (take n demo_events) s0) as [s|] eqn:E; [|done]. intros _.
  exact (start_reachable _ _ _ _ E0 E).
Qed.

(** The same states, evaluated *)
Definition st10 : ubusd := Eval vm_compute in st 10.
Definition st12 : ubusd := Eval vm_compute in st 12.
Definition st13 : ubusd := Eval vm_compute in st 13.
Definition st14 : ubusd := Eval vm_compute in st 14.

Lemma st10_reachable : reachable st10.
Proof.
  assert (st10 = st 10) as -> by (vm_compute; reflexivity). apply st_reachable. vm_compute. reflexivity.
Qed.

Lemma st12_reachable : reachable st12.
Proof.
  assert (st12 = st 12) as -> by (vm_compute; reflexivity). apply st_reachable. vm_compute. reflexivity.
Qed.

Lemma st13_reachable : reachable st13.
Proof.
  assert (st13 = st 13) as -> by (vm_compute; reflexivity). apply st_reachable. vm_compute. reflexivity.
Qed.

Lemma st14_reachable : reachable st14.
Proof.
  assert (st14 = st 14) as -> by (vm_compute; reflexivity). apply st_reachable. vm_compute. reflexivity.
Qed.

(** A run that ends with status 0 *)
Lemma ran_ok {A} (o : option (Z * A * ubusd)) :
  match o with Some (r, _, _) => (r =? 0)%Z | None => false end = true -> exists x s', o = Some ((0, x), s').
Proof. destruct o as [[[r x] s']|]; [|done]. intros ->%Z.eqb_eq. eauto. Qed.

(** ** A message in hand

    In the state [st10], with a request that has everything the handlers look
    at: an object, a method, a target that does not exist and data *)

Definition hand_puts : list put :=
  [put_int32 UBUS_ATTR_OBJID id_foo; put_string UBUS_ATTR_METHOD "hi"; put_int32 UBUS_ATTR_TARGET 77;
   put_nest UBUS_ATTR_DATA []].

Definition message_in_hand (puts : list put) (type : ubus_msg_type) (seq peer : Z) : stm ubusd (option ptr) :=
  ub ← ubus_msg_from_blob puts false;
  match ub with
  | Some n => ubus_msg_init n type seq peer;; mret (Some n)
  | None => mret None
  end.

Lemma message_in_hand_ok puts type seq peer ub s :
  message_in_hand puts type seq peer st10 = Some (Some ub, s) ->
  inv idle [ub] s /\ owners (h_clients s) ub = 0%nat.
Proof.
  intros E. pose proof (reachable_inv st10 st10_reachable) as [Hm Hw].
  assert (wp (message_in_hand puts type seq peer) (fun r s' => match r with
    | Some ub => inv idle [ub] s' /\ owners (h_clients s') ub = 0%nat | None => True end) st10) as H.
  { unfold message_in_hand. apply wp_bind. eapply wp_mono; [|exact (from_blob_spec [] puts false st10 Hm)].
    intros [n|] s1 (Hio & _ & H); [|by apply wp_ret]. destruct H as (Hm1 & _ & Hn & Ho).
    apply wp_bind. eapply wp_store; [exact Hn|]. apply wp_ret. split; [split|done].
    - eapply minv_upd_msg; [exact Hn|done|by split|done].
    - eapply wf_of_reg; [exact (io_reg _ _ _ Hio)|done]. }
  exact (proj1 (wp_eq _ _ _ _ _ E) H).
Qed.

(** [peer] is root's client id. *)
Definition take_in_hand : stm ubusd (option ptr) := message_in_hand hand_puts UBUS_MSG_HELLO 9 2001.

Definition hand : ptr := Eval vm_compute in
  match take_in_hand st10 with Some (Some ub, _) => ub | _ => 1%positive end.
Definition st10h : ubusd := Eval vm_compute in
  match take_in_hand st10 with Some (_, s) => s | None => st10 end.
Definition hand_attr : attrs := ubus_parse_msg (blob_render hand_puts) (blob_raw_len (blob_render hand_puts)).

Lemma st10h_ok : inv idle [hand] st10h /\ owners (h_clients st10h) hand = 0%nat.
Proof. apply (message_in_hand_ok hand_puts UBUS_MSG_HELLO 9 2001). vm_compute. reflexivity. Qed.
