(* ===== verification/Startup.v ===== *)
(** * The daemon's process: [main] and SIGHUP of [src/ubusd_main.c]

    Around the state of the bus the process has the directory of the access
    rules, the pipe through which the signal handler wakes the event loop, what
    the loop watches, and what it has done to the file system.  The answers of
    the operating system are arguments; of the text [perror] prints only the
    prefix is kept.  Logging, the ignored SIGPIPE and the umask of the socket are
    left out. *)

From stdpp Require Import base gmap strings list fin_maps sets.
From Stdlib Require Import ZArith Lia Ascii.
From S2P Require Import Prelude Wire Cstring Libubox LibuboxModel Ids State MsgBuf.
From S2P Require Import Registry Acl Reply Event Obj AclLoad Proto Main Bus MainSpec Daemon Demo.
Local Open Scope string_scope.
Local Open Scope Z_scope.
Local Open Scope ubus_scope.

(** ** The process *)

Inductive file_action := Mkdir (path : string) | Unlink (path : string) | Listen (path : string).

(** What [signal(SIGHUP, ...)] was given: nothing yet, [SIG_IGN], the handler *)
Inductive hup_action := Hup_default | Hup_ignored | Hup_handled.

Section Process.
Context `{AL : AvlLib} `{BL : BlobLib}.

(** [pr_pipe]: the bytes in [sighup_pipe], [None] without a pipe *)
Record process := mk_process {
  pr_bus : ubusd;
  pr_acl_dir : string;
  pr_pipe : option Z;
  pr_hup : hup_action;
  pr_polls_pipe : bool;
  pr_polls_server : bool;
  pr_files : list file_action;
  pr_stderr : list string;
}.
#[export] Instance eta_process : Eta process := fun r =>
  mk_process (pr_bus r) (pr_acl_dir r) (pr_pipe r) (pr_hup r) (pr_polls_pipe r) (pr_polls_server r) (pr_files r) (pr_stderr r).

Definition acl_dir_default : string := "/usr/share/acl.d".

(** Once the constructors have run *)
Definition process_start (s : ubusd) : process := mk_process s acl_dir_default None Hup_default false false [] [].

(** The operating system at start-up: does [pipe2] succeed, [strdup], what does
    [mkdir] say ([Some true]: it exists), is it a directory, the listening socket
    [usock] opens, the user database and what [glob] finds for a pattern *)
Record start_env := mk_start_env {
  se_pipe : bool;
  se_strdup : bool;
  se_mkdir : option bool;
  se_is_dir : bool;
  se_usock : string -> option Z;
  se_db : user_db;
  se_glob : string -> option (list dir_entry);
}.

(** ** Steps *)

Definition on_bus (m : stm ubusd unit) : stm process unit :=
  fun p => match m (pr_bus p) with Some (_, s') => Some (tt, p <| pr_bus := s' |>) | None => None end.

Definition file_act (a : file_action) : stm process unit := modify (fun p => p <| pr_files ::= fun l => (l ++ [a])%list |>).

(** [ubusd_acl_load] of the process's directory *)
Definition acl_load (db : user_db) (glob : string -> option (list dir_entry)) : stm process unit :=
  dir ← gets pr_acl_dir;
  on_bus (ubusd_acl_load db (glob (dir +:+ "/*.json"))).

Definition daemon_usage_text (progname : string) : list string :=
  let tab := String (ascii_of_nat 9) EmptyString in
  ["Usage: " +:+ progname +:+ " [<options>]"; "Options: "; "  -A <path>:" +:+ tab +:+ tab +:+ "Set the path to ACL files";
   "  -s <socket>:" +:+ tab +:+ tab +:+ "Set the unix domain socket to listen on"; ""].

Definition daemon_usage (progname : string) : stm process Z :=
  modify (fun p => p <| pr_stderr ::= fun l => (l ++ daemon_usage_text progname)%list |>);;
  mret 1.

(** The pipe has room for [PIPE_BUF_SIZE] bytes; a [write] that finds it full
    fails, and the handler ignores that. *)
Definition PIPE_BUF_SIZE : Z := 65536.
Definition sighup_handler : stm process unit :=
  modify (fun p => p <| pr_pipe ::= fmap (fun n => if n <? PIPE_BUF_SIZE then n + 1 else n) |>).

(** [k] signals arrive, one after the other *)
Fixpoint signals (k : nat) : stm process unit :=
  match k with
  | O => mret tt
  | S k => sighup_handler;; signals k
  end.

(** The signals that arrive while the callback runs: before each [read] of the
    pipe, from then on until the rules are read, and after that *)
Record hup_arrivals := mk_hup_arrivals {
  ha_reads : list nat;
  ha_drained : nat;
  ha_loaded : nat;
}.

(** [read] of at most 16 bytes from the pipe, which does not block *)
Definition read_pipe : stm process Z :=
  n ← gets (fun p => default 0 (pr_pipe p));
  if 0 <? n then modify (fun p => p <| pr_pipe := Some (n - Z.min n 16) |>);; mret (Z.min n 16)
  else mret (-1).

(** The loop that empties the pipe.  A round takes at least a byte out of it, so
    that the bytes in it and the signals still to come are fuel enough. *)
Fixpoint drain_pipe (fuel : nat) (arrivals : list nat) : stm process unit :=
  match fuel with
  | O => undefined
  | S fuel =>
      signals (hd 0%nat arrivals);;
      r ← read_pipe;
      if 0 <? r then drain_pipe fuel (tl arrivals) else mret tt
  end.

Definition sighup_fd_cb (db : user_db) (glob : string -> option (list dir_entry)) (a : hup_arrivals) : stm process unit :=
  n ← gets (fun p => default 0 (pr_pipe p));
  drain_pipe (S (Z.to_nat n + sum_list (ha_reads a))) (ha_reads a);;
  signals (ha_drained a);;
  acl_load db glob;;
  signals (ha_loaded a).

(** [UBUS_UNIX_SOCKET] of the build *)
Context (UBUS_UNIX_SOCKET : string).

(** The path before its last slash *)
Fixpoint before_last_slash (s : string) : option string :=
  match s with
  | EmptyString => None
  | String c s' =>
      match before_last_slash s' with
      | Some d => Some (String c d)
      | None => if bool_decide (c = "/"%char) then Some EmptyString else None
      end
  end.

Definition mkdir_sockdir (env : start_env) : stm process unit :=
  if negb (se_strdup env) then mret tt
  else
    match before_last_slash UBUS_UNIX_SOCKET with
    | None => mret tt
    | Some dir =>
        file_act (Mkdir dir);;
        when (bool_decide (se_mkdir env = Some true) && negb (se_is_dir env))
          (modify (fun p => p <| pr_stderr ::= fun l => (l ++ [dir +:+ " exists but is not a directory"])%list |>))
    end.

(** ** The event loop *)

(** A SIGHUP arrives; the pipe is readable (and signals arrive while the callback
    runs); something happens on the bus (the rules are loaded in no other way; a
    signal that arrives meanwhile is one that arrives afterwards, since this code
    does not touch the pipe) *)
Inductive process_event :=
  | Signal_hup
  | Sighup_readable (db : user_db) (glob : string -> option (list dir_entry)) (a : hup_arrivals)
  | Bus_event (ev : event).

Definition process_turn (e : process_event) : stm process unit :=
  p ← gets (fun p => p);
  match e with
  | Signal_hup =>
      match pr_hup p with
      | Hup_handled => sighup_handler
      | Hup_ignored => mret tt
      | Hup_default => undefined
      end
  | Sighup_readable db glob a =>
      assert (pr_polls_pipe p && (0 <? default 0 (pr_pipe p)));;
      sighup_fd_cb db glob a
  | Bus_event (EvAclLoad _ _) => undefined
  | Bus_event (EvServer accepts) => assert (pr_polls_server p);; on_bus (run_event (EvServer accepts))
  | Bus_event ev => assert (bool_decide (enabled ev (pr_bus p)));; on_bus (run_event ev)
  end.

(** ** [main] *)

(** The loop over the options: [ubus_socket], [None] when [main] returns
    [usage(argv[0])] *)
Fixpoint daemon_options (l : list getopt_result) (ubus_socket : string) : stm process (option string) :=
  match l with
  | [] => mret (Some ubus_socket)
  | Option c optarg :: l =>
      if bool_decide (c = "s"%char) then daemon_options l optarg
      else if bool_decide (c = "A"%char) then
        modify (fun p => p <| pr_acl_dir := optarg |>);;
        daemon_options l ubus_socket
      else mret None
  | BadOption :: _ => mret None
  end.

(** From [mkdir_sockdir] to the last initialisation *)
Definition daemon_listen (env : start_env) (ubus_socket : string) : stm process bool :=
  mkdir_sockdir env;;
  file_act (Unlink ubus_socket);;
  match se_usock env ubus_socket with
  | None => mret false
  | Some _ =>
      file_act (Listen ubus_socket);;
      modify (fun p => p <| pr_polls_server := true |>);;
      acl_load (se_db env) (se_glob env);;
      mret true
  end.

Definition daemon_main (env : start_env) (progname : string) (argv : list string) (events : list process_event) : stm process Z :=
  modify (fun p => p <| pr_pipe := if se_pipe env then Some 0 else None |>
                     <| pr_hup := if se_pipe env then Hup_handled else Hup_ignored |>
                     <| pr_polls_pipe := se_pipe env |>);;
  ubus_socket ← daemon_options (getopt "A:s:" argv).1 UBUS_UNIX_SOCKET;
  match ubus_socket with
  | None => daemon_usage progname
  | Some ubus_socket =>
      ok ← daemon_listen env ubus_socket;
      if negb ok then
        modify (fun p => p <| pr_stderr ::= fun l => (l ++ ["usock"])%list |>);;
        mret (-1)
      else
        for_each events process_turn;;
        file_act (Unlink ubus_socket);;
        mret 0
  end.

(** ** Start-up *)

(** Only the two options of the program *)
Definition daemon_opts_ok (l : list getopt_result) : bool :=
  forallb (fun o => match o with Option c _ => bool_decide (c = "s"%char \/ c = "A"%char) | BadOption => false end) l.

(** The argument of the last option [c] *)
Definition opt_last (c : ascii) (d : string) (l : list getopt_result) : string :=
  foldl (fun acc o => match o with Option c' a => if bool_decide (c' = c) then a else acc | BadOption => acc end) d l.

Lemma daemon_options_ok l sock p : daemon_opts_ok l = true ->
  daemon_options l sock p = Some (Some (opt_last "s" sock l), p <| pr_acl_dir := opt_last "A" (pr_acl_dir p) l |>).
Proof.
  revert sock p. induction l as [|[c a|] l IH]; intros sock p Hok; [by destruct p| |done].
  apply andb_prop in Hok as [Hc Hl]. apply bool_decide_eq_true in Hc. destruct Hc as [-> | ->].
  - change (daemon_options (Option "s" a :: l) sock p) with (daemon_options l a p). by rewrite IH.
  - change (daemon_options (Option "A" a :: l) sock p) with (daemon_options l sock (p <| pr_acl_dir := a |>)). by rewrite IH.
Qed.

Lemma daemon_options_bad l sock p : daemon_opts_ok l = false ->
  exists dir, daemon_options l sock p = Some (None, p <| pr_acl_dir := dir |>).
Proof.
  revert sock p. induction l as [|[c a|] l IH]; intros sock p Hok; [done| |exists (pr_acl_dir p); by destruct p].
  destruct (decide (c = "s"%char)) as [->|Hs]; [by apply (IH a p)|].
  destruct (decide (c = "A"%char)) as [->|Ha]; [by destruct (IH sock (p <| pr_acl_dir := a |>) Hok) as [dir H]; exists dir|].
  cbn [daemon_options]. rewrite (bool_decide_eq_false_2 (c = "s"%char)) by done.
  - rewrite (bool_decide_eq_false_2 (c = "A"%char)) by done. exists (pr_acl_dir p). by destruct p.
Qed.

Context `{!AvlLaws AL} `{!BlobLaws BL}.

Lemma acl_load_runs db gl s : reachable s -> exists s', ubusd_acl_load db gl s = Some (tt, s') /\ reachable s'.
Proof.
  intros Hs. destruct (wp_run _ _ _ (run_event_spec (EvAclLoad db gl) s (reachable_inv s Hs) I)) as ([] & s' & E & _).
  exists s'. split; [exact E|]. by eapply (reach_step s s' (EvAclLoad db gl)).
Qed.

Lemma on_bus_reachable ev p p' :
  reachable (pr_bus p) -> enabled ev (pr_bus p) -> on_bus (run_event ev) p = Some (tt, p') ->
  exists s', p' = p <| pr_bus := s' |> /\ reachable s'.
Proof.
  unfold on_bus. intros Hs Hen. destruct (run_event ev (pr_bus p)) as [[[] s']|] eqn:E; [|done].
  intros [= <-]. exists s'. split; [done|]. by eapply reach_step.
Qed.

(** ** The event loop *)

(** Signals only fill the pipe. *)
Lemma signals_run k p :
  exists pipe, signals k p = Some (tt, p <| pr_pipe := pipe |>) /\
    (forall n, pr_pipe p = Some n -> 0 <= n <= PIPE_BUF_SIZE -> pipe = Some (Z.min PIPE_BUF_SIZE (n + Z.of_nat k))).
Proof.
  revert p. induction k as [|k IH]; intros p.
  - exists (pr_pipe p). split; [by destruct p|]. intros n -> Hn. f_equal. lia.
  - cbn [signals]. unfold mbind, stm_bind, sighup_handler, modify.
    destruct (IH (p <| pr_pipe ::= fmap (fun n => if n <? PIPE_BUF_SIZE then n + 1 else n) |>)) as (pipe & -> & Hpipe).
    exists pipe. split; [done|]. intros n Hn Hr. cbn in Hpipe. rewrite Hn in Hpipe. cbn in Hpipe.
    rewrite (Hpipe _ eq_refl) by (unfold PIPE_BUF_SIZE in *; destruct (Z.ltb_spec n 65536); lia).
    f_equal. unfold PIPE_BUF_SIZE in *. destruct (Z.ltb_spec n 65536); lia.
Qed.

Lemma read_pipe_run p m : pr_pipe p = Some m -> 0 <= m ->
  read_pipe p = Some (if 0 <? m then Z.min m 16 else -1, p <| pr_pipe := Some (m - Z.min m 16) |>).
Proof.
  intros Hp Hm. unfold read_pipe, mbind, stm_bind, gets. rewrite Hp. cbn [default from_option id].
  destruct (Z.ltb_spec 0 m); [done|]. assert (m = 0) as -> by lia. unfold mret, stm_ret. do 2 f_equal. destruct p. cbn in *. by subst.
Qed.

(** The pipe is empty when the loop that reads it ends, whatever arrived. *)
Lemma drain_pipe_empty fuel arrivals p n :
  pr_pipe p = Some n -> 0 <= n <= PIPE_BUF_SIZE -> (Z.to_nat n + sum_list arrivals < fuel)%nat ->
  drain_pipe fuel arrivals p = Some (tt, p <| pr_pipe := Some 0 |>).
Proof.
  revert arrivals p n. induction fuel as [|fuel IH]; intros arrivals p n Hp Hn Hf; [lia|]. cbn [drain_pipe].
  unfold mbind at 1, stm_bind at 1. destruct (signals_run (hd 0%nat arrivals) p) as (pipe & -> & Hpipe).
  rewrite (Hpipe n) by done. unfold mbind, stm_bind.
  set (m := Z.min PIPE_BUF_SIZE _). assert (0 <= m <= PIPE_BUF_SIZE) as Hm by (unfold m, PIPE_BUF_SIZE in *; lia).
  assert (Z.to_nat m + sum_list (tl arrivals) <= Z.to_nat n + sum_list arrivals)%nat as Hle.
  { unfold m. destruct arrivals as [|k arrivals]; unfold PIPE_BUF_SIZE in *; cbn [hd tl sum_list_with] in *; unfold id; lia. }
  rewrite (read_pipe_run _ m) by (done || lia). destruct (Z.ltb_spec 0 m) as [Hpos|Hz].
  - rewrite (proj2 (Z.ltb_lt _ _)) by lia. rewrite (IH _ _ (m - Z.min m 16)); [done|done|lia|lia].
  - assert (m = 0) as -> by lia. done.
Qed.

Lemma drain_pipe_frame fuel arrivals p p' :
  drain_pipe fuel arrivals p = Some (tt, p') -> exists pipe, p' = p <| pr_pipe := pipe |>.
Proof.
  revert arrivals p. induction fuel as [|fuel IH]; intros arrivals p; [done|]. cbn [drain_pipe].
  unfold mbind, stm_bind. destruct (signals_run (hd 0%nat arrivals) p) as (pipe & -> & _). unfold read_pipe, mbind, stm_bind, gets.
  destruct (0 <? default 0 _).
  - unfold modify, mret, stm_ret. destruct (0 <? _); [|intros [= <-]; by eexists]. intros [pipe' ->]%IH. by eexists.
  - intros [= <-]. by eexists.
Qed.

(** The callback from a state with [n] bytes in the pipe *)
Lemma sighup_fd_cb_run db glob a p n s' :
  pr_pipe p = Some n -> 0 <= n <= PIPE_BUF_SIZE ->
  ubusd_acl_load db (glob (pr_acl_dir p +:+ "/*.json")) (pr_bus p) = Some (tt, s') ->
  sighup_fd_cb db glob a p =
    Some (tt, p <| pr_bus := s' |> <| pr_pipe := Some (Z.min PIPE_BUF_SIZE (Z.of_nat (ha_drained a + ha_loaded a))) |>).
Proof.
  intros Hp Hn Hload. unfold sighup_fd_cb, mbind, stm_bind, gets. rewrite Hp. cbn [default from_option id].
  rewrite (drain_pipe_empty _ _ _ n) by (done || lia).
  destruct (signals_run (ha_drained a) (p <| pr_pipe := Some 0 |>)) as (pipe & -> & H1). rewrite (H1 0) by done.
  unfold acl_load, on_bus, mbind, stm_bind, gets. cbn. rewrite Hload. cbn.
  match goal with |- signals _ ?q = _ => destruct (signals_run (ha_loaded a) q) as (pipe' & -> & H2) end. cbn in H2.
  rewrite (H2 _ eq_refl) by (unfold PIPE_BUF_SIZE; lia). cbn. do 4 f_equal. unfold PIPE_BUF_SIZE. lia.
Qed.

(** What a turn of the loop does to the process: the bus moves on, the pipe may
    change *)
Lemma process_turn_cases e p p' :
  reachable (pr_bus p) -> process_turn e p = Some (tt, p') ->
  exists s' pipe, p' = p <| pr_bus := s' |> <| pr_pipe := pipe |> /\ reachable s' /\
    match e with
    | Signal_hup => pr_hup p = Hup_handled /\ pipe = (fun n => if n <? PIPE_BUF_SIZE then n + 1 else n) <$> pr_pipe p \/
                    pr_hup p = Hup_ignored /\ pipe = pr_pipe p
    | Sighup_readable _ _ _ => True
    | Bus_event _ => pipe = pr_pipe p
    end.
Proof.
  intros Hs. destruct e as [|db glob a|ev]; unfold process_turn, mbind, stm_bind, gets.
  - destruct (pr_hup p) eqn:Eh; [done|..].
    + intros [= <-]. exists (pr_bus p), (pr_pipe p). split; [by destruct p|]. auto.
    + intros [= <-]. eexists (pr_bus p), _. split; [by destruct p|]. auto.
  - destruct (pr_polls_pipe p && _); [|done]. unfold assert, mret, stm_ret, sighup_fd_cb, mbind, stm_bind, gets.
    destruct (drain_pipe _ _ p) as [[[] q]|] eqn:Ed; [|done]. apply drain_pipe_frame in Ed as [pipe ->].
    destruct (signals_run (ha_drained a) (p <| pr_pipe := pipe |>)) as (pipe1 & -> & _).
    unfold acl_load, on_bus, mbind, stm_bind, gets. cbn.
    destruct (acl_load_runs db (glob (pr_acl_dir p +:+ "/*.json")) _ Hs) as (s' & E & Hs'). rewrite E.
    match goal with |- context [signals (ha_loaded a) ?q] => destruct (signals_run (ha_loaded a) q) as (pipe2 & -> & _) end.
    intros [= <-]. exists s', pipe2. by destruct p.
  - assert (forall q, on_bus (run_event ev) p = Some (tt, q) -> enabled ev (pr_bus p) ->
      exists s' pipe, q = p <| pr_bus := s' |> <| pr_pipe := pipe |> /\ reachable s' /\ pipe = pr_pipe p) as Hb.
    { intros q Hq Hen. destruct (on_bus_reachable ev p q Hs Hen Hq) as (s' & -> & Hs').
      exists s', (pr_pipe p). split; [by destruct p|done]. }
    destruct ev; try done.
    1,3,4: case_bool_decide as Hen; [|done]; intros H; by apply Hb.
    destruct (pr_polls_server p); [|done]. intros H. by apply Hb.
Qed.

Lemma process_turns_reachable events p p' :
  reachable (pr_bus p) -> for_each events process_turn p = Some (tt, p') -> reachable (pr_bus p').
Proof.
  revert p. induction events as [|e events IH]; intros p Hs; [by intros [= <-]|].
  cbn [for_each]. unfold mbind, stm_bind. destruct (process_turn e p) as [[[] q]|] eqn:E; [|done].
  apply process_turn_cases in E as (s' & pipe & -> & Hs' & _); [|done]. by apply IH.
Qed.

(** C36: Start-up. With an unknown option [main] prints its usage and returns 1
    before it touches the file system; when it cannot listen on the socket (the
    one of the last -s, or the default) it returns -1 with the bus untouched.
    Otherwise the access rules of the directory (that of the last -A, or the
    default) are loaded, from the state the constructors left, before the first
    event is handled, the run of the event loop stays within the reachable states
    of the daemon, and at its end the socket is removed and 0 returned. *)
Theorem daemon_starts (env : start_env) (prog : string) (argv : list string) (events : list process_event) (o : os_state) (s0 : ubusd) :
  ubusd_init (ubusd_globals o) = Some (tt, s0) ->
  let opts := (getopt "A:s:" argv).1 in
  let sock := opt_last "s" UBUS_UNIX_SOCKET opts in
  let dir := opt_last "A" acl_dir_default opts in
  if daemon_opts_ok opts then
    match se_usock env sock with
    | None => exists p', daemon_main env prog argv events (process_start s0) = Some (-1, p') /\
        pr_bus p' = s0 /\ Listen sock ∉ pr_files p'
    | Some _ => exists p1, ubusd_acl_load (se_db env) (se_glob env (dir +:+ "/*.json")) s0 = Some (tt, pr_bus p1) /\
        last (pr_files p1) = Some (Listen sock) /\ pr_acl_dir p1 = dir /\ pr_polls_server p1 = true /\
        daemon_main env prog argv events (process_start s0) =
          (for_each events process_turn;; file_act (Unlink sock);; mret 0) p1 /\
        (forall p', for_each events process_turn p1 = Some (tt, p') -> reachable (pr_bus p'))
    end
  else exists p', daemon_main env prog argv events (process_start s0) = Some (1, p') /\ pr_bus p' = s0 /\ pr_files p' = [].
Proof.
  intros Hinit opts sock dir. apply reach_init in Hinit as Hs. unfold daemon_main, process_start, mbind, stm_bind, modify. fold opts.
  set (p0 := _ <| pr_polls_pipe := _ |>). destruct (daemon_opts_ok opts) eqn:Hok.
  2: { destruct (daemon_options_bad opts UBUS_UNIX_SOCKET p0 Hok) as [d ->]. by eexists. }
  rewrite daemon_options_ok by done. fold sock. change (pr_acl_dir p0) with acl_dir_default. fold dir.
  set (p1 := p0 <| pr_acl_dir := dir |>).
  assert (exists q, mkdir_sockdir env p1 = Some (tt, q) /\ pr_bus q = s0 /\ pr_acl_dir q = dir /\ forall f, f ∈ pr_files q -> exists d, f = Mkdir d)
    as (q & Eq & Hb & Hd & Hf).
  { unfold mkdir_sockdir. destruct (negb (se_strdup env)); [eexists; repeat split; set_solver|].
    destruct (before_last_slash UBUS_UNIX_SOCKET) as [d|]; [|eexists; repeat split; set_solver].
    unfold mbind, stm_bind, file_act, modify, when, mret, stm_ret. destruct (_ && _); eexists; repeat split; set_solver. }
  unfold daemon_listen, mbind, stm_bind. rewrite Eq. unfold file_act, modify. destruct (se_usock env sock) as [fd|].
  - destruct (acl_load_runs (se_db env) (se_glob env (dir +:+ "/*.json")) s0 Hs) as (s1 & E & Hs1).
    unfold acl_load, mbind, stm_bind, gets, on_bus. cbn. rewrite Hb, Hd. unfold mret, stm_ret. rewrite E. cbn.
    eexists. split; [|split; [|split; [|split; [|split; [reflexivity|]]]]]; cbn; [done|by rewrite last_snoc|done|done|].
    intros p'. by apply process_turns_reachable.
  - eexists. split; [reflexivity|]. cbn. split; [done|]. rewrite elem_of_app, list_elem_of_singleton. intros [[d H]%Hf|H]; done.
Qed.

(** ** SIGHUP *)

(** A signal has arrived that the loop has not dealt with *)
Definition hup_pending (p : process) : Prop :=
  reachable (pr_bus p) /\ pr_hup p = Hup_handled /\ pr_polls_pipe p = true /\
  exists n, pr_pipe p = Some n /\ 0 < n <= PIPE_BUF_SIZE.

(** The process as [main] leaves it to the loop when it has a pipe *)
Definition serving (p : process) : Prop :=
  reachable (pr_bus p) /\ pr_hup p = Hup_handled /\ pr_polls_pipe p = true /\
  exists n, pr_pipe p = Some n /\ 0 <= n <= PIPE_BUF_SIZE.

Definition no_reload (e : process_event) : Prop := match e with Sighup_readable _ _ _ => False | _ => True end.

Lemma signal_pending p : serving p ->
  exists p', process_turn Signal_hup p = Some (tt, p') /\ hup_pending p' /\ pr_acl_dir p' = pr_acl_dir p.
Proof.
  intros (Hs & Hh & Hpp & n & Hn & Hr). unfold process_turn, mbind, stm_bind, gets, sighup_handler, modify. rewrite Hh.
  eexists. split; [reflexivity|]. split; [|done]. do 3 (split; [done|]). cbn. rewrite Hn. eexists. split; [reflexivity|].
  unfold PIPE_BUF_SIZE in *. destruct (Z.ltb_spec n 65536); lia.
Qed.

Lemma pending_serving p : hup_pending p -> serving p.
Proof. intros (? & ? & ? & n & ? & ?). do 3 (split; [done|]). exists n. split; [done|lia]. Qed.

Lemma hup_stays_pending events p p' :
  Forall no_reload events -> hup_pending p -> for_each events process_turn p = Some (tt, p') ->
  hup_pending p' /\ pr_acl_dir p' = pr_acl_dir p.
Proof.
  intros Hall. revert p. induction Hall as [|e events He Hall IH]; intros p Hp; [by intros [= <-]|].
  cbn [for_each]. unfold mbind, stm_bind. destruct (process_turn e p) as [[[] q]|] eqn:E; [|done].
  assert (hup_pending q /\ pr_acl_dir q = pr_acl_dir p) as [Hq Hd].
  { destruct e as [|? ? ?|ev]; [|done|].
    - destruct (signal_pending p (pending_serving p Hp)) as (q' & E' & H). congruence.
    - destruct Hp as (Hs & Hh & Hpp & n & Hn & Hr). apply process_turn_cases in E as (s' & pipe & -> & Hs' & ->); [|done].
      split; [|done]. do 3 (split; [done|]). by exists n. }
  intros H. destruct (IH _ Hq H) as [? ?]. split; [done|congruence].
Qed.

End Process.

(** ** The theorems at concrete inputs *)

(** joe may call "foo" ([Demo.v]); the rules are read from another directory. *)
Definition demo_env (usock : option Z) : start_env :=
  mk_start_env true true (Some true) true (fun _ => usock) demo_db
    (fun pattern => if bool_decide (pattern = "/etc/acl/*.json") then Some [] else None).

Definition demo_started : ubusd :=
  match ubusd_init (ubusd_globals (demo_os 2000 0 [])) with Some (_, s) => s | None => ubusd_globals (demo_os 2000 0 []) end.

Lemma demo_started_ok : ubusd_init (ubusd_globals (demo_os 2000 0 [])) = Some (tt, demo_started).
Proof. vm_compute. reflexivity. Qed.

Lemma daemon_starts_witness :
  exists p1, ubusd_acl_load demo_db (Some []) demo_started = Some (tt, pr_bus p1) /\
    daemon_main "/var/run/ubus/ubus.sock" (demo_env (Some 3)) "ubusd" ["-A"; "/etc/acl"; "-s"; "/tmp/s"] [Signal_hup] (process_start demo_started) =
      (for_each [Signal_hup] process_turn;; file_act (Unlink "/tmp/s");; mret 0) p1.
Proof.
  destruct (daemon_starts "/var/run/ubus/ubus.sock" (demo_env (Some 3)) "ubusd" ["-A"; "/etc/acl"; "-s"; "/tmp/s"] [Signal_hup] _ _ demo_started_ok)
    as (p1 & E & _ & _ & _ & Em & _).
  exists p1. split; [exact E|exact Em].
Defined.

(** A process that serves and has got as many signals as the pipe holds; another
    arrives between the last [read] of the callback and the load *)
Definition demo_serving : process := mk_process demo_started "/etc/acl" (Some 65536) Hup_handled true true [] [].
Definition demo_arrivals : hup_arrivals := mk_hup_arrivals [0%nat; 3%nat] 1 0.

