(* ===== verification/DaemonThms.v ===== *)
(** * Theorems about the daemon

    What holds between the events of any run: no undefined behaviour, and the
    consistency of the registry, of message ownership and of the transmit
    queues. *)

From stdpp Require Import base gmap strings list fin_maps sets.
From Stdlib Require Import ZArith Lia.
From S2P Require Import Prelude Wire Cstring Libubox LibuboxModel Ids State MsgBuf Frame SendSpec Wf WfOps.
From S2P Require Import Registry Acl Reply Event Obj AclLoad Proto Main ReplySpec ObjSpec ClientSpec MainSpec.
From S2P Require Import Daemon Demo.
Local Open Scope ubus_scope.

Section DaemonThms.
Context `{AL : AvlLib} `{BL : BlobLib} `{!AvlLaws AL} `{!BlobLaws BL}.
Implicit Types (s : ubusd).

(** C2: In no run does an event end in what the model counts as undefined: every
    event that is enabled in a reachable state runs to its end, so no pointer is
    used after it was freed or while it is [NULL], no list node or tree entry is
    removed that is not linked, no copy into or out of a message buffer leaves
    it, no reference is dropped that is not held.  Reading the payload of an
    attribute is total in the model ([blob_get_u32] yields some number however
    short it is): that the attributes the parser does not validate are long
    enough is not part of this theorem. *)
Theorem no_undefined_behaviour s ev :
  reachable s -> enabled ev s -> exists s', run_event ev s = Some (tt, s').
Proof.
  intros Hs Hen. destruct (wp_run _ _ _ (run_event_spec ev s (reachable_inv s Hs) Hen)) as ([] & s' & E & _). eauto.
Qed.

(** Looking a key up in a tree that agrees with a heap *)
Lemma tree_find_iff {K} {cmp : K -> K -> Z} `{!CmpOrder cmp} (t : avl_tree cmp false ptr) m k p :
  tree_ok t m -> avl_find t k = Some p <-> m !! p = Some k.
Proof. intros [_ Hin]. by rewrite avl_find_Some, Hin. Qed.

(** C29: The lookup trees agree with what exists: an id or a path finds exactly
    the live object that has it, a client id exactly the connected client, a type
    id exactly the live type that has it. *)
Theorem lookups_exact s :
  reachable s ->
  (forall id p, ubus_find_id (objects s) id = Some p <-> exists o, h_objects s !! p = Some o /\ obj_id o = id) /\
  (forall key p, avl_find (path s) key = Some p <-> exists o, h_objects s !! p = Some o /\ obj_path o = Some key) /\
  (forall id cl, ubus_find_id (clients s) id = Some cl <-> exists c, h_clients s !! cl = Some c /\ cl_id c = id) /\
  (forall id t, ubus_find_id (obj_types s) id = Some t <-> exists ty, h_types s !! t = Some ty /\ type_id ty = id).
Proof.
  intros Hs. destruct (inv_wf _ _ _ (reachable_inv s Hs)). unfold ubus_find_id. split; [|split; [|split]]; intros k p.
  - rewrite (tree_find_iff _ _ _ _ wf_objects), fmap_Some_iff. done.
  - by rewrite (tree_find_iff _ _ _ _ wf_path), omap_Some_iff.
  - rewrite (tree_find_iff _ _ _ _ wf_clients), fmap_Some_iff. done.
  - rewrite (tree_find_iff _ _ _ _ wf_obj_types), fmap_Some_iff. done.
Qed.

(** A client's list holds exactly the objects that belong to it, once each,
    and an object that has a client has a connected one. *)
Lemma objects_owned s :
  reachable s ->
  (forall cl c, h_clients s !! cl = Some c -> NoDup (cl_objects c) /\
     forall p, p ∈ cl_objects c <-> exists o, h_objects s !! p = Some o /\ obj_client o = Some cl) /\
  (forall p o cl, h_objects s !! p = Some o -> obj_client o = Some cl -> is_Some (h_clients s !! cl)).
Proof.
  intros Hs. destruct (wf_owned _ _ (inv_wf _ _ _ (reachable_inv s Hs))) as [Hnd Hin Hlive]. split.
  - intros cl c Hc%(fmap_Some_1 cl_objects). split; [by eapply Hnd|]. intros p.
    by rewrite (Hin _ _ _ Hc), omap_Some_iff.
  - intros p o cl Ho Hcl. destruct (Hlive p cl) as [l Hl]; [by eapply omap_Some_1|].
    apply fmap_Some_2 in Hl as (c & Hc & _). eauto.
Qed.

(** Subscriptions are linked at both ends: the subscribers list of the
    target and the target list of the subscriber hold exactly the live
    subscriptions between them, once each, and both objects belong to connected
    clients. *)
Lemma subscriptions_linked s :
  reachable s ->
  (forall p o, h_objects s !! p = Some o -> NoDup (obj_subscribers o) /\ NoDup (obj_target_list o) /\
     (forall x, x ∈ obj_subscribers o <-> exists sub, h_subs s !! x = Some sub /\ s_target sub = p) /\
     (forall x, x ∈ obj_target_list o <-> exists sub, h_subs s !! x = Some sub /\ s_subscriber sub = p)) /\
  (forall x sub, h_subs s !! x = Some sub ->
     exists t o tcl ocl, h_objects s !! s_target sub = Some t /\ h_objects s !! s_subscriber sub = Some o /\
       obj_client t = Some tcl /\ obj_client o = Some ocl /\
       is_Some (h_clients s !! tcl) /\ is_Some (h_clients s !! ocl)).
Proof.
  intros Hs. pose proof (inv_wf _ _ _ (reachable_inv s Hs)) as Hw.
  destruct (wf_subscribers _ _ Hw) as [Hnd1 Hin1 _], (wf_targets _ _ Hw) as [Hnd2 Hin2 _]. split.
  - intros p o Ho. pose proof (fmap_Some_1 obj_subscribers _ _ _ Ho) as H1.
    pose proof (fmap_Some_1 obj_target_list _ _ _ Ho) as H2.
    split; [by eapply Hnd1|]. split; [by eapply Hnd2|]. split; intros x.
    + rewrite (Hin1 _ _ _ H1), fmap_Some_iff. done.
    + rewrite (Hin2 _ _ _ H2), fmap_Some_iff. done.
  - intros x sub Hx. destruct (sub_ends _ _ _ _ Hw Hx) as (t & o & tcl & ocl & H). exists t, o, tcl, ocl. naive_solver.
Qed.

(** C30: Ownership and subscriptions are linked at both ends.  A client's list holds
    exactly the objects that belong to it, once each, and an object's client is
    connected; an object's two lists hold exactly the live subscriptions to it
    and by it, once each, and both ends of a subscription belong to connected
    clients. *)
Theorem links_exact s :
  reachable s ->
  (forall cl c, h_clients s !! cl = Some c -> NoDup (cl_objects c) /\
     forall p, p ∈ cl_objects c <-> exists o, h_objects s !! p = Some o /\ obj_client o = Some cl) /\
  (forall p o, h_objects s !! p = Some o ->
     (forall cl, obj_client o = Some cl -> is_Some (h_clients s !! cl)) /\
     NoDup (obj_subscribers o) /\ NoDup (obj_target_list o) /\
     (forall x, x ∈ obj_subscribers o <-> exists sub, h_subs s !! x = Some sub /\ s_target sub = p) /\
     (forall x, x ∈ obj_target_list o <-> exists sub, h_subs s !! x = Some sub /\ s_subscriber sub = p)) /\
  (forall x sub, h_subs s !! x = Some sub ->
     exists t o tcl ocl, h_objects s !! s_target sub = Some t /\ h_objects s !! s_subscriber sub = Some o /\
       obj_client t = Some tcl /\ obj_client o = Some ocl /\
       is_Some (h_clients s !! tcl) /\ is_Some (h_clients s !! ocl)).
Proof.
  intros Hs. destruct (objects_owned s Hs) as [H1 H2], (subscriptions_linked s Hs) as [H3 H4].
  split; [done|]. split; [|done]. intros p o Ho. split; [eauto|auto].
Qed.

(** Between events every message buffer is accounted for: one whose data
    belongs to someone else is referenced exactly once, any other exactly as
    often as its reference count says, and at least once.  So no buffer leaks
    and none is freed while a queue still holds it. *)
Lemma message_refcounts s m u :
  reachable s -> h_msgs s !! m = Some u ->
  ub_refcount u = USES_EXTERNAL_BUFFER /\ owners (h_clients s) m = 1 \/
  ub_refcount u = Z.of_nat (owners (h_clients s) m) /\ 1 <= owners (h_clients s) m.
Proof.
  intros Hs Hu. destruct (minv_own _ _ (inv_minv _ _ _ (reachable_inv s Hs)) m) as (_ & _ & H).
  rewrite Hu, cnt_nil, Nat.add_0_r in H. exact H.
Qed.

(** C32: The accounting of a transmit queue: [txq_len] is the number of queued
    bytes still to be written, of the first message [txq_ofs] bytes have been
    written but not all, and the queue never exceeds
    [UBUS_CLIENT_MAX_TXQ_LEN]. *)
Theorem txq_accounting s cl c m q :
  reachable s -> h_clients s !! cl = Some c -> cl_tx_queue c = m :: q ->
  (0 <= cl_txq_ofs c < mlen (h_msgs s) m /\
   cl_txq_len c = qlen (h_msgs s) (m :: q) - cl_txq_ofs c /\
   0 < cl_txq_len c <= UBUS_CLIENT_MAX_TXQ_LEN)%Z.
Proof.
  intros Hs Hc Hq. pose proof (inv_minv _ _ _ (reachable_inv s Hs)) as Hm.
  pose proof (co_tx _ _ (minv_clients _ _ Hm cl c Hc)) as H. rewrite Hq in H. destruct H as (H1 & H2 & H3).
  assert (0 <= qlen (h_msgs s) q)%Z by (apply qlen_nonneg, Hm). simpl in H2. repeat split; simpl; lia.
Qed.

(** An object type is kept exactly as long as an object has it: its
    reference count is the number of such objects, and is positive. *)
Lemma type_refcounts s t :
  reachable s ->
  match h_types s !! t with
  | Some ty => type_refcount ty = Z.of_nat (users (h_objects s) t) /\ 1 <= users (h_objects s) t
  | None => users (h_objects s) t = 0
  end.
Proof.
  intros Hs. pose proof (wf_types _ _ (inv_wf _ _ _ (reachable_inv s Hs)) t) as H. simpl in H.
  by rewrite cnt_nil, Nat.add_0_r in H.
Qed.

(** C31: Reference counts are exact, so nothing leaks and nothing is freed while it
    is in use.  Between events a message buffer is held exactly as often as its
    count says, and at least once (exactly once when its data belongs to someone
    else); an object type's count is the number of objects that have it, and is
    positive. *)
Theorem refcounts_exact s :
  reachable s ->
  (forall m u, h_msgs s !! m = Some u ->
     ub_refcount u = USES_EXTERNAL_BUFFER /\ owners (h_clients s) m = 1 \/
     ub_refcount u = Z.of_nat (owners (h_clients s) m) /\ 1 <= owners (h_clients s) m) /\
  (forall t, match h_types s !! t with
             | Some ty => type_refcount ty = Z.of_nat (users (h_objects s) t) /\ 1 <= users (h_objects s) t
             | None => users (h_objects s) t = 0
             end).
Proof. intros Hs. split; [by intros m u; apply message_refcounts|intros t; by apply type_refcounts]. Qed.
End DaemonThms.

(** ** The theorems at a concrete state *)

Lemma no_undefined_behaviour_witness :
  exists s', run_event (EvClient cl_joe true) st12 = Some (tt, s').
Proof.
  apply no_undefined_behaviour; [exact st12_reachable|]. apply has_Some. vm_compute. reflexivity.
Defined.

Lemma lookups_exact_witness :
  exists p o, ubus_find_id (objects st12) id_foo = Some p /\ h_objects st12 !! p = Some o /\ obj_id o = id_foo.
Proof.
  destruct (lookups_exact st12 st12_reachable) as [H _].
  destruct (proj1 (H id_foo 15%positive)) as (o & Ho & E); [vm_compute; reflexivity|].
  exists 15%positive, o. split; [vm_compute; reflexivity|]. exact (conj Ho E).
Defined.

Lemma txq_accounting_witness :
  exists c m q, h_clients st14 !! cl_joe = Some c /\ cl_tx_queue c = m :: q /\
    (0 < cl_txq_len c <= UBUS_CLIENT_MAX_TXQ_LEN)%Z.
Proof.
  eexists _, _, _. split; [reflexivity|]. split; [reflexivity|].
  exact (proj2 (proj2 (txq_accounting st14 cl_joe _ _ _ st14_reachable eq_refl eq_refl))).
Defined.

Lemma links_exact_witness :
  exists c t o, h_clients st12 !! cl_joe = Some c /\ 15%positive ∈ cl_objects c /\
    h_objects st12 !! 15%positive = Some t /\ h_objects st12 !! 18%positive = Some o /\
    21%positive ∈ obj_subscribers t /\ 21%positive ∈ obj_target_list o.
Proof.
  destruct (links_exact st12 st12_reachable) as (H1 & H2 & _). eexists _, _, _. split; [reflexivity|]. split.
  { apply (H1 cl_joe _ eq_refl). eexists. split; reflexivity. }
  split; [reflexivity|]. split; [reflexivity|].
  split; [apply (H2 15%positive _ eq_refl)|apply (H2 18%positive _ eq_refl)]; exists (mk_subscription 18 15); split; reflexivity.
Defined.

Lemma refcounts_exact_witness :
  exists u ty, h_msgs st12 !! 11%positive = Some u /\ h_types st12 !! 14%positive = Some ty /\
  (ub_refcount u = USES_EXTERNAL_BUFFER /\ owners (h_clients st12) 11%positive = 1 \/
   ub_refcount u = Z.of_nat (owners (h_clients st12) 11%positive) /\ 1 <= owners (h_clients st12) 11%positive) /\
  type_refcount ty = Z.of_nat (users (h_objects st12) 14%positive).
Proof.
  destruct (refcounts_exact st12 st12_reachable) as [H1 H2]. eexists _, _. split; [reflexivity|]. split; [reflexivity|].
  split; [exact (H1 11%positive _ eq_refl)|exact (proj1 (H2 14%positive))].
Defined.
