(* ===== verification/EventThms.v ===== *)
(** * Theorems about events

    Who receives an event: the loop over the sorted patterns equals a loop over
    the matching ones, an object receives an event once, never its sender's. *)

From stdpp Require Import base gmap strings list fin_maps sets sorting.
From Stdlib Require Import ZArith Lia.
From S2P Require Import Prelude Wire Cstring Libubox LibuboxModel Ids State MsgBuf Frame SendSpec Wf WfOps.
From S2P Require Import Registry Acl Reply Event Obj AclLoad Proto Main ReplySpec AclSpec EventSpec Daemon Demo.
Local Open Scope ubus_scope.

Section EventThms.
Context `{AL : AvlLib} `{BL : BlobLib}.
Implicit Types (s : ubusd).

(** ** Frames *)

#[export] Instance blind_events : IoBlind h_events.
Proof. by split. Qed.
#[export] Instance blind_objects : IoBlind h_objects.
Proof. by split. Qed.
#[export] Instance blind_obj_event_seq : IoBlind obj_event_seq.
Proof. by split. Qed.

Lemma blind_msg_from_blob {X} (π : ubusd -> X) `{!IoBlind π} b shared : preserves π (ubus_msg_from_blob b shared).
Proof. unfold ubus_msg_from_blob. solve_pres. Qed.
Hint Resolve blind_msg_from_blob : pres.

Lemma blind_send_to {X} (π : ubusd -> X) `{!IoBlind π} cl ub : preserves π (msg_send_to cl ub).
Proof. destruct cl; simpl; solve_pres. Qed.
Hint Resolve blind_send_to : pres.

Lemma send_event_msg_events ub cl obj fill :
  preserves h_events fill -> preserves h_events (ubusd_send_event_msg ub cl obj fill).
Proof. intros Hf. unfold ubusd_send_event_msg. solve_pres. Qed.

(** ** The reference loop *)

(** Offers the event to the object of every pattern in turn. *)
Fixpoint deliver_each (cl : option ptr) (fill_cb : stm ubusd (option ptr)) (ub : option ptr)
    (l : list (string * ptr)) : stm ubusd (Z * option ptr) :=
  match l with
  | [] => mret (0%Z, ub)
  | (_, p) :: l =>
      ev ← load (T := event_source) p;
      '(ret, ub) ← ubusd_send_event_msg ub cl (ev_obj ev) fill_cb;
      if negb (ret =? 0)%Z then mret (ret, ub) else deliver_each cl fill_cb ub l
  end.

Definition source_partial s (p : ptr) : bool :=
  match h_events s !! p with Some ev => ev_partial ev | None => false end.

Lemma send_event_loop_scan cl id fill s0 m ub l s :
  preserves h_events fill -> h_events s = h_events s0 ->
  (forall k p, (k, p) ∈ l -> is_Some (h_events s0 !! p)) ->
  send_event_loop cl id fill m ub l s = deliver_each cl fill ub (scan (source_partial s0) id m l) s.
Proof.
  intros Hf. revert m ub s. induction l as [|[key p] l IH]; intros m ub s Es Hl; [done|].
  destruct (Hl key p) as [ev Hp]; [by left|].
  assert (forall k p, (k, p) ∈ l -> is_Some (h_events s0 !! p)) as Hl' by (intros k q Hq; apply (Hl k); by right).
  simpl. unfold mbind at 1, stm_bind at 1, load at 1. simpl. rewrite Es, Hp. unfold source_partial at 1. rewrite Hp.
  destruct (ubus_strmatch_len id key) as [f n]. case_match; [done|]. case_match; [by apply IH|].
  simpl. unfold mbind, stm_bind, load. simpl. rewrite Es, Hp.
  destruct (ubusd_send_event_msg ub cl (ev_obj ev) fill s) as [[[ret ub'] s1]|] eqn:E; [|done].
  destruct (negb (ret =? 0)%Z); [done|]. apply IH; [|done]. by rewrite (send_event_msg_events _ _ _ _ Hf _ _ _ E).
Qed.

(** ** Recipients *)

(** The first occurrences, of those not in [seen] *)
Fixpoint first_of (seen l : list ptr) : list ptr :=
  match l with
  | [] => []
  | p :: l => if decide (p ∈ seen) then first_of seen l else p :: first_of (p :: seen) l
  end.

Lemma elem_of_first_of seen l p : p ∈ first_of seen l <-> p ∈ l /\ p ∉ seen.
Proof.
  revert seen. induction l as [|q l IH]; intros seen; simpl; [set_solver|].
  case_decide; [rewrite IH; set_solver|]. rewrite elem_of_cons, IH. destruct (decide (p = q)); set_solver.
Qed.

Lemma first_of_nodup seen l : NoDup (first_of seen l).
Proof.
  revert seen. induction l as [|q l IH]; intros seen; simpl; [constructor|].
  case_decide; [done|]. constructor; [|done]. rewrite elem_of_first_of. set_solver.
Qed.

(** The objects of the patterns in [l], except the sender's *)
Definition offered (cl : option ptr) s (l : list (string * ptr)) : list ptr :=
  filter (fun p => obj_client <$> h_objects s !! p <> Some cl)
    (omap (fun e => ev_obj <$> h_events s !! e.2) l).

(** Who is to receive the event: once each, every object with a matching pattern
    that is not the sender's. *)
Definition recipients (cl : option ptr) (id : string) s : list ptr :=
  first_of [] (offered cl s
    (filter (fun e => pattern_matches (source_partial s) id e = true) (avl_list (patterns s)))).

(** One delivery, unconditionally *)
Definition deliver (fill_cb : stm ubusd (option ptr)) (ub : option ptr) (obj : ptr) : stm ubusd (Z * option ptr) :=
  o ← load (T := ubus_object) obj;
  seq ← gets obj_event_seq;
  store obj (fun o => o <| obj_event_seen := seq |>);;
  ub ← match ub with
       | Some _ => mret ub
       | None =>
           ub ← fill_cb;
           match ub with
           | None => mret None
           | Some u =>
               store u (fun m => m <| ub_hdr ::= fun h =>
                          h <| hdr_type := UBUS_MSG_INVOKE |> <| hdr_peer := 0%Z |> |>);;
               mret (Some u)
           end
       end;
  match ub with
  | None => mret (UBUS_STATUS_UNKNOWN_ERROR : Z, None)
  | Some u =>
      m ← load u;
      assert (fits 8 (be32 (obj_id o)) (ub_data m));;
      store u (fun m => m <| ub_data ::= splice 8 (be32 (obj_id o)) |>);;
      modify (fun s => s <| event_seq ::= fun n => u16 (n + 1) |>);;
      n ← gets event_seq;
      store u (fun m => m <| ub_hdr ::= fun h => h <| hdr_seq := n |> |>);;
      msg_send_to (obj_client o) u;;
      mret (0%Z, Some u)
  end.

(** Delivery to each of a list of objects, until one fails *)
Fixpoint deliver_all (fill_cb : stm ubusd (option ptr)) (ub : option ptr) (l : list ptr) : stm ubusd (Z * option ptr) :=
  match l with
  | [] => mret (0%Z, ub)
  | p :: l =>
      '(ret, ub) ← deliver fill_cb ub p;
      if negb (ret =? 0)%Z then mret (ret, ub) else deliver_all fill_cb ub l
  end.

(** A callback that makes the message touches neither patterns nor objects. *)
Definition makes_message (fill_cb : stm ubusd (option ptr)) : Prop :=
  preserves h_events fill_cb /\ preserves h_objects fill_cb /\ preserves obj_event_seq fill_cb.

(** The daemon's callbacks *)
Lemma event_from_msg_makes msg id : makes_message (ubusd_create_event_from_msg msg id).
Proof. split; [|split]; unfold ubusd_create_event_from_msg; solve_pres. Qed.
Lemma object_event_makes obj id : makes_message (ubusd_create_object_event_msg obj id).
Proof. split; [|split]; unfold ubusd_create_object_event_msg; solve_pres. Qed.
Lemma sequence_event_makes id : makes_message (ubusd_create_sequence_event_msg id).
Proof. split; [|split]; unfold ubusd_create_sequence_event_msg; solve_pres. Qed.

(** During the round with number [n], [seen] have received the event. *)
Record round (s0 : ubusd) (n : Z) (seen : list ptr) s : Prop := {
  rd_events : h_events s = h_events s0;
  rd_seq : obj_event_seq s = n;
  rd_clients : forall p, obj_client <$> h_objects s !! p = obj_client <$> h_objects s0 !! p;
  rd_seen : forall p o, h_objects s !! p = Some o -> obj_event_seen o = n <-> p ∈ seen;
}.

Lemma send_event_msg_deliver ub cl obj o fill s :
  h_objects s !! obj = Some o ->
  ubusd_send_event_msg ub cl obj fill s =
    if decide (obj_client o = cl) then Some ((0%Z, ub), s)
    else if decide (obj_event_seen o = obj_event_seq s) then Some ((0%Z, ub), s)
    else deliver fill ub obj s.
Proof.
  intros Ho. unfold ubusd_send_event_msg, deliver, mbind, stm_bind, load, gets. simpl. rewrite Ho.
  destruct (bool_decide_reflect (obj_client o = cl)); [by rewrite decide_True|rewrite decide_False by done].
  destruct (Z.eqb_spec (obj_event_seen o) (obj_event_seq s)); [by rewrite decide_True|by rewrite decide_False].
Qed.

Lemma deliver_round s0 n seen fill ub obj s r s' :
  makes_message fill -> round s0 n seen s -> deliver fill ub obj s = Some (r, s') -> round s0 n (obj :: seen) s'.
Proof.
  intros (He & Ho & Hs) [Rev Rseq Rcl Rseen]. unfold deliver. unfold mbind at 1, stm_bind at 1, load at 1.
  simpl. destruct (h_objects s !! obj) as [o|] eqn:Hobj; [|done]. unfold mbind at 1, stm_bind at 1, gets at 1.
  unfold mbind at 1, stm_bind at 1, store at 1. simpl. rewrite Hobj. intros E.
  match type of E with ?m ?s1 = _ =>
    assert (preserves h_events m /\ preserves h_objects m /\ preserves obj_event_seq m) as (Pe & Po & Ps) end.
  { split; [|split]; solve_pres. }
  apply Pe in E as E1. apply Po in E as E2. apply Ps in E as E3. simpl in E1, E2, E3. split; [congruence|congruence|..].
  - intros p. rewrite E2. destruct (decide (obj = p)) as [<-|Hne]; [|by rewrite lookup_insert_ne].
    rewrite lookup_insert_eq, <- Rcl, Hobj. done.
  - intros p x. rewrite E2. destruct (decide (obj = p)) as [<-|Hne].
    + rewrite lookup_insert_eq. intros [= <-]. simpl. rewrite Rseq. split; [by left|done].
    + rewrite lookup_insert_ne by done. intros Hx. rewrite (Rseen _ _ Hx). set_solver.
Qed.

(** The guards of the loop pick the first occurrences. *)
Lemma deliver_each_all s0 n cl fill l seen ub s :
  makes_message fill -> round s0 n seen s ->
  (forall k p, (k, p) ∈ l -> exists ev o, h_events s0 !! p = Some ev /\ h_objects s0 !! ev_obj ev = Some o) ->
  deliver_each cl fill ub l s = deliver_all fill ub (first_of seen (offered cl s0 l)) s.
Proof.
  intros Hf. revert seen ub s. induction l as [|[k p] l IH]; intros seen ub s Hr Hl; [done|].
  destruct (Hl k p) as (ev & o0 & Hev & Ho0); [by left|].
  assert (forall k p, (k, p) ∈ l -> exists ev o, h_events s0 !! p = Some ev /\ h_objects s0 !! ev_obj ev = Some o) as Hl'.
  { intros k' q Hq. apply (Hl k'). by right. }
  destruct (h_objects s !! ev_obj ev) as [o|] eqn:Ho;
    pose proof (rd_clients _ _ _ _ Hr (ev_obj ev)) as Ec; rewrite Ho, Ho0 in Ec; [injection Ec as Ec|done].
  assert (offered cl s0 ((k, p) :: l) = (if decide (obj_client o = cl) then [] else [ev_obj ev]) ++ offered cl s0 l) as Hoff.
  { unfold offered. simpl. rewrite Hev. simpl. rewrite filter_cons. destruct (decide (obj_client o = cl)) as [E|E].
    - rewrite decide_False; [done|]. rewrite Ho0. simpl. congruence.
    - rewrite decide_True; [done|]. rewrite Ho0. simpl. congruence. }
  rewrite Hoff. cbn [deliver_each]. unfold mbind at 1, stm_bind at 1, load at 1. simpl.
  rewrite (rd_events _ _ _ _ Hr), Hev. unfold mbind at 1, stm_bind at 1.
  rewrite (send_event_msg_deliver ub cl (ev_obj ev) o fill s Ho). destruct (decide (obj_client o = cl)); simpl.
  { by apply IH. }
  pose proof (rd_seen _ _ _ _ Hr _ _ Ho) as Hseen. rewrite (rd_seq _ _ _ _ Hr).
  destruct (decide (obj_event_seen o = n)) as [E|E].
  { rewrite decide_True by tauto. simpl. by apply IH. }
  rewrite decide_False by tauto. cbn [deliver_all]. unfold mbind at 1, stm_bind at 1.
  destruct (deliver fill ub (ev_obj ev) s) as [[[ret ub'] s1]|] eqn:E1; [|done].
  destruct (negb (ret =? 0)%Z); [done|]. apply IH; [|done]. by eapply deliver_round.
Qed.

(** ** Event numbers *)

(** As long as the numbers have not wrapped around, the last event has got the
    number [events_sent + 1], and no object has seen a later one. *)
Record numbered s : Prop := {
  nd_pos : (0 <= events_sent s)%Z;
  nd_seq : (events_sent s <= 2 ^ 32 - 2)%Z -> obj_event_seq s = (events_sent s + 1)%Z;
  nd_seen : (events_sent s <= 2 ^ 32 - 2)%Z -> forall p o, h_objects s !! p = Some o -> (obj_event_seen o <= obj_event_seq s)%Z;
}.

Definition keeps_numbered {A} (m : stm ubusd A) : Prop :=
  forall s a s', m s = Some (a, s') -> numbered s -> numbered s'.

Create HintDb num discriminated.

Lemma num_bind {A B} (m : stm ubusd A) (k : A -> stm ubusd B) :
  keeps_numbered m -> (forall a, keeps_numbered (k a)) -> keeps_numbered (m ≫= k).
Proof.
  intros Hm Hk s b s'. unfold mbind, stm_bind. destruct (m s) as [[a s1]|] eqn:E; [|done].
  intros H Hs. apply (Hk a s1 b s' H). by eapply Hm.
Qed.

(** The numbers depend on the objects and the counters. *)
Definition num_part s := (h_objects s, obj_event_seq s, events_sent s).

#[export] Instance blind_num_part : IoBlind num_part.
Proof. by split. Qed.

Lemma num_same s s' : num_part s' = num_part s -> numbered s -> numbered s'.
Proof. intros [= Eo Eq En] []. split; rewrite ?Eo, ?Eq, ?En; done. Qed.

Lemma num_pres {A} (m : stm ubusd A) : preserves num_part m -> keeps_numbered m.
Proof. intros Hm s a s' E. apply num_same. by eapply Hm. Qed.

Lemma num_for_each {A} (l : list A) body : (forall x, keeps_numbered (body x)) -> keeps_numbered (for_each l body).
Proof. intros H. induction l; [apply num_pres, pres_ret|]. by apply num_bind. Qed.

Lemma num_for_until {A R} (l : list A) (body : A -> stm ubusd (option R)) :
  (forall x, keeps_numbered (body x)) -> keeps_numbered (for_until l body).
Proof.
  intros H. induction l; [apply num_pres, pres_ret|]. apply num_bind; [done|].
  intros []; [apply num_pres, pres_ret|done].
Qed.

Lemma num_when b m : keeps_numbered m -> keeps_numbered (when b m).
Proof. destruct b; [done|]. intros _. apply num_pres, pres_ret. Qed.

Lemma num_insert s p o :
  ((events_sent s <= 2 ^ 32 - 2)%Z -> (obj_event_seen o <= obj_event_seq s)%Z) ->
  numbered s -> numbered (s <| h_objects ::= insert p o |>).
Proof.
  intros Hle []. split; simpl; [done|done|]. intros Hb q x. rewrite lookup_insert_Some. intros [[<- <-]|[_ Hx]]; eauto.
Qed.

Lemma num_store p (f : ubus_object -> ubus_object) :
  (forall o, obj_event_seen (f o) = obj_event_seen o) -> keeps_numbered (store p f).
Proof.
  intros Hf s a s'. unfold store. simpl. destruct (h_objects s !! p) as [o|] eqn:Ho; [|done]. intros [= _ <-] Hs.
  apply num_insert; [|done]. rewrite Hf. intros Hb. by eapply nd_seen.
Qed.

Lemma num_free p : keeps_numbered (free_ptr (T := ubus_object) p).
Proof.
  intros s a s'. unfold free_ptr. simpl. destruct (h_objects s !! p) as [o|]; [|done]. intros [= _ <-] [].
  split; simpl; [done|done|]. intros Hb q x [_ Hx]%lookup_delete_Some. eauto.
Qed.

Lemma num_alloc : keeps_numbered (alloc object_zero).
Proof.
  intros s a s'. unfold alloc. destruct (os_pop_alloc (os s)) as [[] o]; intros [= _ <-] Hs.
  - apply (num_same (s <| h_objects ::= insert (brk s) object_zero |>)); [done|]. apply num_insert; [|done].
    simpl. intros Hb. rewrite (nd_seq _ Hs Hb). pose proof (nd_pos _ Hs). lia.
  - by eapply num_same, Hs.
Qed.

Lemma pres_alloc_id_num get set node val :
  (forall f s, num_part (set f s) = num_part s) -> preserves num_part (alloc_id get set node val).
Proof.
  intros H s a s'. unfold alloc_id. destruct (ubus_alloc_id _ _ _ _) as [[r t] rnd]. intros [= _ <-]. by rewrite H.
Qed.

Lemma pres_tree_delete_num {K} {cmp : K -> K -> Z} {dup} (get : ubusd -> avl_tree cmp dup ptr) set k p :
  (forall f s, num_part (set f s) = num_part s) -> preserves num_part (tree_delete get set k p).
Proof. intros H s a s'. unfold tree_delete. destruct (linked _ _ _); [|done]. intros [= _ <-]. apply H. Qed.

Lemma pres_recvmsg_num fd want : preserves num_part (sys_recvmsg fd want).
Proof. intros s a s'. unfold sys_recvmsg. repeat case_match; by intros [= _ <-]. Qed.

Lemma pres_status_num st : preserves num_part (status st).
Proof. unfold status. solve_pres. Qed.

Hint Resolve blind_sendmsg_retry pres_status_num pres_alloc_id_num pres_tree_delete_num pres_recvmsg_num : pres.
Hint Resolve num_store num_free num_alloc : num.
Hint Extern 1 (_ = _) => reflexivity : num.
Hint Extern 3 (keeps_numbered _) => apply num_pres; solve [auto with pres nocore] : num.

(** Walks through the code as [solve_pres] does. *)
Ltac solve_num :=
  repeat first
    [ progress intros
    | progress (auto with num nocore)
    | match goal with
      | |- keeps_numbered (mbind _ _) => apply num_bind
      | |- keeps_numbered (when _ _) => apply num_when
      | |- keeps_numbered (for_each _ _) => apply num_for_each
      | |- keeps_numbered (for_until _ _) => apply num_for_until
      | |- keeps_numbered (match ?x with _ => _ end) => destruct x
      end
    | apply num_pres, pres_modify; reflexivity ].

Lemma pres_acl_check_loop {X} (π : ubusd -> X) c obj method type n l : preserves π (acl_check_loop c obj method type n l).
Proof.
  revert n. induction l as [|[key q] l IH]; intros n; simpl; [solve_pres|].
  apply pres_bind; [solve_pres|]. intros acl. destruct (ubus_strmatch_len _ _) as [f m].
  destruct (_ <? _)%Z; [solve_pres|]. destruct (_ && _); [done|]. destruct (negb _); [done|].
  apply pres_bind; [unfold acl_grants; solve_pres|]. intros []; [solve_pres|done].
Qed.
Hint Resolve pres_acl_check_loop : pres.

Lemma pres_acl_check {X} (π : ubusd -> X) cl obj method type : preserves π (ubusd_acl_check cl obj method type).
Proof. unfold ubusd_acl_check. solve_pres. Qed.
Hint Resolve pres_acl_check : pres.

Lemma num_send_event_msg ub cl obj fill : keeps_numbered fill -> keeps_numbered (ubusd_send_event_msg ub cl obj fill).
Proof.
  intros Hf s a s'. unfold ubusd_send_event_msg. unfold mbind at 1, stm_bind at 1, load at 1. simpl.
  destruct (h_objects s !! obj) as [o|] eqn:Ho; [|done]. unfold mbind at 1, stm_bind at 1, gets at 1.
  case_bool_decide; [by intros [= _ <-]|]. destruct (_ =? _)%Z; [by intros [= _ <-]|].
  unfold mbind at 1, stm_bind at 1, store at 1. simpl. rewrite Ho. intros E Hs.
  match type of E with ?m ?s1 = _ => enough (keeps_numbered m) as Hk; [eapply (Hk s1); [exact E|]|] end.
  - apply num_insert; [|done]. simpl. lia.
  - clear E. solve_num.
Qed.

Lemma num_send_event_loop cl id fill m ub l : keeps_numbered fill -> keeps_numbered (send_event_loop cl id fill m ub l).
Proof.
  intros Hf. revert m ub. induction l as [|[key p] l IH]; intros m ub; simpl; [solve_num|].
  pose proof (num_send_event_msg) as Hm. solve_num.
Qed.

Lemma num_number_event : keeps_numbered (modify number_event).
Proof.
  intros s a s' [= _ <-] [Hp Hq Ho]. unfold number_event, next_event_seq. split; simpl; [lia|..]; intros Hb.
  - rewrite Hq by lia. unfold u32. rewrite Z.mod_small by lia. destruct (Z.eqb_spec (events_sent s + 1 + 1) 0); lia.
  - intros p o Hp'. pose proof (Ho ltac:(lia) p o Hp') as Hle. rewrite Hq in Hle |- * by lia. unfold u32. rewrite Z.mod_small by lia.
    destruct (Z.eqb_spec (events_sent s + 1 + 1) 0); lia.
Qed.
Hint Resolve num_number_event : num.

Lemma num_send_event cl id fill : keeps_numbered fill -> keeps_numbered (ubusd_send_event cl id fill).
Proof. intros Hf. pose proof num_send_event_loop. unfold ubusd_send_event. solve_num. Qed.

Lemma num_obj_event obj add : keeps_numbered (ubusd_send_obj_event obj add).
Proof.
  unfold ubusd_send_obj_event. apply num_bind; [|solve_num]. apply num_send_event. unfold ubusd_create_object_event_msg. solve_num.
Qed.
Hint Resolve num_obj_event : num.

Lemma num_notify_subscription obj : keeps_numbered (ubus_notify_subscription obj).
Proof. unfold ubus_notify_subscription, ubus_msg_init. solve_num. Qed.
Hint Resolve num_notify_subscription : num.

Lemma num_unsubscribe p : keeps_numbered (ubus_unsubscribe p).
Proof. unfold ubus_unsubscribe. solve_num. Qed.
Hint Resolve num_unsubscribe : num.

Lemma num_notify_unsubscribe p : keeps_numbered (ubus_notify_unsubscribe p).
Proof. unfold ubus_notify_unsubscribe, ubus_msg_init. solve_num. Qed.
Hint Resolve num_notify_unsubscribe : num.

Lemma num_unref_type t : keeps_numbered (ubus_unref_object_type t).
Proof. unfold ubus_unref_object_type. solve_num. Qed.
Hint Resolve num_unref_type : num.

Lemma num_create_internal t id : keeps_numbered (ubusd_create_object_internal t id).
Proof. unfold ubusd_create_object_internal. solve_num. Qed.
Hint Resolve num_create_internal : num.

Lemma num_free_object obj : keeps_numbered (ubusd_free_object obj).
Proof. unfold ubusd_free_object, ubusd_event_cleanup_object, ubusd_delete_event_source. solve_num. Qed.
Hint Resolve num_free_object : num.

Lemma num_create_object cl attr : keeps_numbered (ubusd_create_object cl attr).
Proof.
  unfold ubusd_create_object, create_object_type, ubus_get_obj_type, ubus_create_obj_type, ubus_create_obj_method,
    create_object_path, path_insert. solve_num.
Qed.
Hint Resolve num_create_object : num.

Lemma num_send_from_blob b cl ub type : keeps_numbered (ubus_proto_send_msg_from_blob b cl ub type).
Proof. unfold ubus_proto_send_msg_from_blob, ubus_reply_from_blob, ubus_msg_init. solve_num. Qed.
Hint Resolve num_send_from_blob : num.

Lemma num_forward_invoke b cl obj method ub data : keeps_numbered (ubusd_forward_invoke b cl obj method ub data).
Proof. unfold ubusd_forward_invoke. solve_num. Qed.
Hint Resolve num_forward_invoke : num.

(** Lookups *)
Lemma num_send_obj cl ub obj : keeps_numbered (ubusd_send_obj cl ub obj).
Proof.
  assert (forall key l, keeps_numbered (visible_methods cl key l)).
  { intros key l. induction l; simpl; solve_num. }
  unfold ubusd_send_obj. solve_num.
Qed.
Hint Resolve num_send_obj : num.

Lemma num_queue_add cl msg obj : keeps_numbered (ubus_client_cmd_queue_add cl msg obj).
Proof. unfold ubus_client_cmd_queue_add, dup_path. solve_num. Qed.
Hint Resolve num_queue_add : num.

Lemma num_lookup_cmd cl ub attr cmd : keeps_numbered (handle_lookup_cmd cl ub attr cmd).
Proof.
  assert (forall pre found l, keeps_numbered (lookup_prefix_loop cl ub pre found l)).
  { intros pre found l. revert found. induction l as [|[]]; intros found; simpl; solve_num. }
  unfold handle_lookup_cmd, lookup_all_step, dup_path, cmd_set_lookup_path. solve_num.
Qed.
Hint Resolve num_lookup_cmd : num.

(** Calls of the daemon's objects *)
Lemma num_reply_add_all l : keeps_numbered (reply_add_all l).
Proof.
  assert (forall key m l, keeps_numbered (reply_add_loop key m l)).
  { intros key m l'. revert m. induction l' as [|[]]; intros m; simpl; solve_num. }
  induction l; simpl; unfold ubusd_reply_add; solve_num.
Qed.
Hint Resolve num_reply_add_all : num.

Lemma num_recv_msg cb cl ub method msg : keeps_numbered (call_recv_msg cb cl ub method msg).
Proof.
  pose proof num_send_event.
  unfold call_recv_msg, ubusd_event_recv, ubusd_alloc_event_pattern, ubusd_forward_event, ubusd_acl_recv, ubusd_reply_query,
    ubusd_find_object, ubusd_monitor_recv, ubusd_monitor_connect, ubusd_monitor_disconnect, ubusd_monitor_free,
    ubusd_create_event_from_msg. solve_num.
Qed.
Hint Resolve num_recv_msg : num.

Lemma num_subscribe obj target : keeps_numbered (ubus_subscribe obj target).
Proof. unfold ubus_subscribe. solve_num. Qed.
Hint Resolve num_subscribe : num.

Lemma num_handlers type cb cl ub attr : handlers type = Some cb -> keeps_numbered (cb cl ub attr).
Proof.
  assert (forall l, keeps_numbered (subscriber_ids l)) by (induction l; simpl; solve_num).
  destruct type; intros [= <-];
    unfold ubusd_send_pong, ubusd_handle_add_object, ubusd_handle_remove_object, ubusd_handle_lookup, ubusd_handle_invoke,
      ubusd_handle_response, ubusd_handle_add_watch, ubusd_handle_remove_watch, ubusd_handle_notify, ubusd_find_object,
      ubusd_get_client_by_id; solve_num.
Qed.
Hint Resolve num_handlers : num.

Lemma num_receive_message cl ub : keeps_numbered (ubusd_proto_receive_message cl ub).
Proof.
  unfold ubusd_proto_receive_message, prepare_retmsg, send_retmsg, ubus_msg_close_fd.
  apply num_bind; [solve_num|]. intros retmsg. apply num_bind; [solve_num|]. intros u.
  apply num_bind; [solve_num|]. intros []. apply num_bind; [|solve_num].
  destruct (msg_of_code _) as [type|]; simpl; [|solve_num]. destruct (handlers type) eqn:E; [by eapply num_handlers|solve_num].
Qed.
Hint Resolve num_receive_message : num.

(** The event loop *)
Lemma num_disconnect cl : keeps_numbered (handle_client_disconnect cl).
Proof.
  unfold handle_client_disconnect, ubus_client_cmd_free, ubusd_monitor_disconnect, ubusd_monitor_free, ubusd_proto_free_client,
    ubus_msg_list_free. solve_num.
Qed.
Hint Resolve num_disconnect : num.

Lemma num_client_rx fuel cl : keeps_numbered (client_rx fuel cl).
Proof.
  assert (keeps_numbered (client_rx_header cl)) by (unfold client_rx_header; solve_num).
  assert (keeps_numbered (client_rx_body cl)) by (unfold client_rx_body; solve_num).
  induction fuel; simpl; solve_num.
Qed.
Hint Resolve num_client_rx : num.

Lemma num_client_tx cl : keeps_numbered (client_tx cl).
Proof.
  assert (forall fuel ubl, keeps_numbered (tx_retry fuel cl ubl)).
  { intros fuel ubl. induction fuel; simpl; unfold ubus_msg_writev, ubus_msg_list_free; solve_num. }
  unfold client_tx. solve_num.
Qed.
Hint Resolve num_client_tx : num.

Lemma num_client_cb cl w : keeps_numbered (client_cb cl w).
Proof.
  unfold client_cb, ubus_client_cmd_queue_process, ubus_client_cmd_free, ubusd_cmd_lookup, prepare_retmsg, send_retmsg. solve_num.
Qed.

Lemma num_server_cb accepts : keeps_numbered (server_cb accepts).
Proof.
  assert (forall r, keeps_numbered (get_next_connection r)).
  { intros r. unfold get_next_connection, sys_accept, ubusd_proto_new_client, ubusd_acl_init_client, ubusd_acl_load_extra_gids,
      ubusd_proto_init_retmsg, ubusd_send_hello, ubus_msg_init. solve_num. }
  induction accepts; simpl; solve_num.
Qed.

Lemma num_acl_load db gl : keeps_numbered (ubusd_acl_load db gl).
Proof.
  pose proof num_send_event.
  unfold ubusd_acl_load, ubusd_acl_load_file, flush_files, ubusd_acl_update_cb, ubusd_acl_file_free, ubusd_acl_file_add,
    acl_for_each, acl_if_string, ubusd_acl_add_access, ubusd_acl_add_subscribe, ubusd_acl_add_publish, ubusd_acl_add_listen,
    ubusd_acl_add_send, acl_add_flag, ubusd_acl_alloc_obj, ubusd_create_sequence_event_msg. solve_num.
Qed.

Lemma num_init : keeps_numbered ubusd_init.
Proof.
  unfold ubusd_init, ubusd_proto_init, ubusd_obj_init, ubusd_event_init, ubusd_acl_init, ubusd_monitor_init. solve_num.
Qed.

(** The numbers of every reachable state *)
Lemma reachable_numbered s : reachable s -> numbered s.
Proof.
  induction 1 as [o s E|s s' ev _ IH _ E].
  - apply (num_init _ _ _ E). split; simpl; [lia|lia|]. intros _ p o'. by rewrite lookup_empty.
  - destruct ev as [cl w|accepts|db gl|cl|o]; simpl in E.
    + by eapply num_client_cb.
    + by eapply num_server_cb.
    + by eapply num_acl_load.
    + eapply (num_pres (store (T := ubus_client) _ _)); [|exact E|exact IH]. by apply pres_store.
    + injection E as <-. by eapply num_same, IH.
Qed.

Context `{!AvlLaws AL} `{!BlobLaws BL}.

(** No object has seen an event of the coming number. *)
Definition number_fresh s : Prop :=
  forall p o, h_objects s !! p = Some o -> obj_event_seen o <> next_event_seq (obj_event_seq s).

Lemma reachable_fresh s : reachable s -> (events_sent s < 2 ^ 32 - 2)%Z -> number_fresh s.
Proof.
  intros Hs Hn p o Ho. destruct (reachable_numbered s Hs) as [Hp Hq Hle]. pose proof (Hle ltac:(lia) p o Ho) as H.
  unfold next_event_seq. rewrite Hq in H |- * by lia. unfold u32. rewrite Z.mod_small by lia.
  destruct (Z.eqb_spec (events_sent s + 1 + 1) 0); lia.
Qed.

Lemma send_event_loop_exact s cl id fill_cb :
  reachable s -> makes_message fill_cb -> number_fresh s ->
  send_event_loop cl id fill_cb 0 None (avl_list (patterns s)) (number_event s) =
  deliver_all fill_cb None (recipients cl id s) (number_event s).
Proof.
  intros Hs Hf Hfresh. pose proof (inv_wf _ _ _ (reachable_inv s Hs)) as Hw.
  assert (forall k p, (k, p) ∈ avl_list (patterns s) ->
    exists ev o, h_events s !! p = Some ev /\ h_objects s !! ev_obj ev = Some o) as Hlive.
  { intros k p Hin. apply (tree_in _ _ (wf_patterns _ _ Hw)), fmap_Some_2 in Hin as (ev & Hev & _).
    destruct (lo_live _ _ (wf_events _ _ Hw) p (ev_obj ev)) as [l Hl]; [by apply fmap_Some_1|].
    apply fmap_Some_2 in Hl as (o & Ho & _). eauto. }
  rewrite (send_event_loop_scan cl id fill_cb s); [|apply Hf|done|].
  2:{ intros k p Hin. destruct (Hlive k p Hin) as (ev & _ & Hev & _). eauto. }
  rewrite scan_filter by apply (avl_list_sorted _ _ _ _ _ _).
  apply (deliver_each_all s (next_event_seq (obj_event_seq s))); [done| |].
  - split; [done|done|done|]. intros p o Ho. split; [by intros ?%(Hfresh p o Ho)|]. intros H. by apply not_elem_of_nil in H.
  - intros k p [_ Hin]%list_elem_of_filter. by apply (Hlive k).
Qed.

(** The recipients of an event are the objects of the clients other than the
    sender that have registered its name, or a prefix of it with a star; each is
    there once. *)
Lemma recipients_spec s cl id :
  reachable s ->
  NoDup (recipients cl id s) /\
  forall p, p ∈ recipients cl id s <-> exists o x ev, h_objects s !! p = Some o /\ obj_client o <> cl /\
    h_events s !! x = Some ev /\ ev_obj ev = p /\
    (ev_key ev = id \/ ev_partial ev = true /\ starts_with (ev_key ev) id = true).
Proof.
  intros Hs. pose proof (inv_wf _ _ _ (reachable_inv s Hs)) as Hw. split; [apply first_of_nodup|]. intros p.
  assert (forall k x ev, h_events s !! x = Some ev -> ev_key ev = k ->
    pattern_matches (source_partial s) id (k, x) = true <->
    (ev_key ev = id \/ ev_partial ev = true /\ starts_with (ev_key ev) id = true)) as Hpm.
  { intros k x ev Hx <-. unfold pattern_matches, source_partial. simpl. rewrite Hx.
    rewrite orb_true_iff, andb_true_iff, bool_decide_eq_true. done. }
  unfold recipients, offered. rewrite elem_of_first_of, list_elem_of_filter, list_elem_of_omap. split.
  - intros [[Hcl ([k x] & Hin & E)] _]. simpl in E. apply list_elem_of_filter in Hin as [Hp Hin].
    apply (tree_in _ _ (wf_patterns _ _ Hw)), fmap_Some_2 in Hin as (ev & Hev & Ek). rewrite Hev in E. injection E as <-.
    destruct (lo_live _ _ (wf_events _ _ Hw) x (ev_obj ev)) as [l Hl]; [by apply fmap_Some_1|].
    apply fmap_Some_2 in Hl as (o & Ho & _). exists o, x, ev. split; [done|]. rewrite Ho in Hcl. split; [simpl in Hcl; congruence|].
    split; [done|]. split; [done|]. by apply (Hpm k x).
  - intros (o & x & ev & Ho & Hcl & Hx & <- & Hm). split; [|apply not_elem_of_nil]. split; [rewrite Ho; simpl; congruence|].
    exists (ev_key ev, x). simpl. rewrite Hx. split; [|done]. apply list_elem_of_filter. split; [by apply (Hpm _ x ev)|].
    apply (tree_in _ _ (wf_patterns _ _ Hw)). by apply fmap_Some_1.
Qed.

(** C7: [ubusd_send_event] delivers an event to exactly its recipients, once
    each: the objects of the clients other than the sender that have registered
    its name, or a prefix of it with a star. The scan over the sorted pattern
    tree, which stops when the common prefix gets shorter, and the guards against
    the sender's own objects and against objects that have several matching
    patterns, do the same as delivering to each recipient in turn; if the sender
    may not send it, nothing happens. An object that has seen the number of the
    current event is passed over, so this rests on every event getting a number
    that no object has seen: proved of every reachable state until 2^32 - 2 events
    have been sent since start-up ([events_sent]), when the numbers start again
    and an object that has received nothing for that long can miss one event.
    [makes_message]: [fill_cb] builds the message and leaves objects, patterns and
    the event number alone, as the daemon's three callbacks do
    ([event_from_msg_makes], [object_event_makes], [sequence_event_makes]). *)
Theorem event_delivery_exact s cl id fill_cb :
  reachable s -> makes_message fill_cb -> (events_sent s < 2 ^ 32 - 2)%Z ->
  (forall p, cl = Some p -> is_Some (h_clients s !! p)) ->
  exists recipients, NoDup recipients /\
    (forall p, p ∈ recipients <-> exists o x ev, h_objects s !! p = Some o /\ obj_client o <> cl /\
      h_events s !! x = Some ev /\ ev_obj ev = p /\
      (ev_key ev = id \/ ev_partial ev = true /\ starts_with (ev_key ev) id = true)) /\
    ubusd_send_event cl id fill_cb s =
      match ubusd_acl_check cl (Some id) None UBUS_ACL_SEND s with
      | Some (0%Z, _) =>
          ('(ret, ub) ← deliver_all fill_cb None recipients;
           match ub with Some u => ubus_msg_free u | None => mret tt end;;
           mret ret) (number_event s)
      | _ => Some (UBUS_STATUS_PERMISSION_DENIED : Z, s)
      end.
Proof.
  intros Hs Hf Hn Hcl. pose proof (reachable_fresh s Hs Hn) as Hfresh. pose proof (inv_wf _ _ _ (reachable_inv s Hs)) as Hw.
  destruct (recipients_spec s cl id Hs) as [Hnd Hrec]. exists (recipients cl id s). split; [exact Hnd|]. split; [exact Hrec|].
  destruct (acl_check_run idle s cl (Some id) None UBUS_ACL_SEND Hw) as [r E]; [done|done|].
  unfold ubusd_send_event. unfold mbind at 1, stm_bind at 1. rewrite E.
  destruct (Z.eqb_spec r 0) as [->|Hne]; [|by destruct r]. simpl.
  pose proof (send_event_loop_exact s cl id fill_cb Hs Hf Hfresh) as El.
  unfold mbind, stm_bind, modify, gets in *. simpl in El |- *. by rewrite El.
Qed.

(** Every recipient gets the event under its own object id: the shared
    message is changed in place, and the result is what rendering the message
    with that object's id as its first attribute would give; the header gets the
    next event sequence number. *)
Lemma event_addressed ext s u m cl obj o ocl fill_cb id v l :
  minv ext s -> mon_live s -> h_objects s !! obj = Some o -> obj_client o = Some ocl ->
  is_Some (h_clients s !! ocl) -> obj_client o <> cl -> obj_event_seen o <> obj_event_seq s ->
  h_msgs s !! u = Some m -> ub_refcount m = USES_EXTERNAL_BUFFER ->
  ub_data m = blob_render (put_int32 id v :: l) ->
  exists s' m', ubusd_send_event_msg (Some u) cl obj fill_cb s = Some ((0%Z, Some u), s') /\
    h_msgs s' !! u = Some m' /\ ub_data m' = blob_render (put_int32 id (obj_id o) :: l) /\
    hdr_seq (ub_hdr m') = u16 (event_seq s + 1).
Proof.
  intros Hm Hl Ho Hocl [c Hc] Hne Hseen Hu Hext Hd.
  assert (12 <= length (ub_data m)) as Hlen by (rewrite Hd; apply render_int_len).
  enough (wp (ubusd_send_event_msg (Some u) cl obj fill_cb) (fun r s' => r = (0%Z, Some u) /\ exists m',
    h_msgs s' !! u = Some m' /\ ub_data m' = blob_render (put_int32 id (obj_id o) :: l) /\
    hdr_seq (ub_hdr m') = u16 (event_seq s + 1)) s) as H.
  { apply wp_run in H as (r & s' & E & -> & m' & H). exists s', m'. split; [exact E|exact H]. }
  unfold ubusd_send_event_msg. apply wp_bind. eapply wp_load; [exact Ho|]. apply wp_bind, wp_gets.
  rewrite bool_decide_false by done. rewrite (proj2 (Z.eqb_neq _ _)) by done.
  apply wp_bind. eapply wp_store; [exact Ho|]. apply wp_bind, wp_ret, wp_bind. eapply wp_load; [exact Hu|].
  apply wp_bind, wp_assert; [apply fits_spec; rewrite length_be32; lia|].
  apply wp_bind. eapply wp_store; [exact Hu|]. apply wp_bind, wp_modify, wp_bind, wp_gets, wp_bind.
  eapply wp_store; [apply lookup_insert_eq|].
  set (m1 := m <| ub_data ::= splice 8 (be32 (obj_id o)) |>). set (m2 := m1 <| ub_hdr ::= _ |>). set (s1 := set_heap _ _).
  assert (minv ext (s <| h_objects ::= insert obj (o <| obj_event_seen := obj_event_seq s |>) |>)) as Hm0 by by eapply minv_upd_object.
  assert (minv ext s1) as Hm1.
  { apply (minv_same ext (s <| h_msgs ::= insert u m1 |> <| h_msgs ::= insert u m2 |>)); [done|done| |].
    - pose proof (minv_fresh _ _ Hm0) as []. split; simpl; try done.
      intros q Hq. rewrite !lookup_insert_ne; [by apply fresh_msgs|intros <-..]; rewrite fresh_msgs in Hu; done.
    - eapply (minv_upd_msg ext _ u m1); [apply lookup_insert_eq|done|by split|].
      eapply (minv_upd_msg ext s u m); [done|done| |done]. apply splice_like; [lia|rewrite length_be32; lia]. }
  rewrite Hocl. unfold msg_send_to. apply wp_bind.
  eapply wp_mono; [|eapply (msg_send_spec ext ocl c u m2 s1 Hm1)]; [|exact Hl|exact Hc|split; [apply lookup_insert_eq|by left]].
  intros [] s2 Hsent. apply wp_ret. split; [done|]. destruct (sent_msg _ _ _ _ _ Hsent) as (m3 & Hm3 & Hsim).
  exists m3. split; [done|]. rewrite (sim_data _ _ Hsim), (sim_hdr _ _ Hsim). split; [|done].
  unfold m2, m1. simpl. rewrite Hd. apply blob_render_poke.
Qed.
End EventThms.

(** ** The theorems at concrete states *)

(** The daemon itself sends an event that root's object, at 18, listens to. *)
Lemma event_delivery_exact_witness :
  exists recipients, 18%positive ∈ recipients /\
    deliver_all (ubusd_create_event_from_msg [] "foo.bar") None recipients (number_event st12) <> None.
Proof.
  destruct (event_delivery_exact st12 None "foo.bar" _ st12_reachable (event_from_msg_makes [] "foo.bar") ltac:(vm_compute; reflexivity) ltac:(discriminate))
    as (l & _ & Hl & E).
  exists l. split.
  - apply Hl. destruct (has_Some (h_objects st12 !! 18%positive)) as [o Ho]; [vm_compute; reflexivity|].
    destruct (has_Some (h_events st12 !! 24%positive)) as [ev Hev]; [vm_compute; reflexivity|].
    pose proof Ho as Eo. pose proof Hev as Eev. vm_compute in Eo, Eev. injection Eo as Eo. injection Eev as Eev.
    exists o, 24%positive, ev. split; [exact Ho|]. rewrite <- Eo. split; [discriminate|].
    split; [exact Hev|]. rewrite <- Eev. split; [reflexivity|]. vm_compute. tauto.
  - intros Hn. assert (ubusd_send_event None "foo.bar" (ubusd_create_event_from_msg [] "foo.bar") st12 = None) as H.
    { rewrite E. unfold mbind, stm_bind. rewrite Hn. vm_compute. reflexivity. }
    revert H. vm_compute. discriminate.
Defined.

