(* ===== verification/BusThms.v ===== *)
(** * The daemon implements the bus

    Every event of the daemon refines a transition of the abstract bus of
    [Bus.v]; from the abstract side it follows that a client's event leaves the
    other clients' part of the bus alone and adds nothing its credentials do not
    permit. *)

From stdpp Require Import base gmap strings list fin_maps sets relations.
From Stdlib Require Import ZArith Lia.
From S2P Require Import Prelude Wire Cstring Libubox LibuboxModel Ids State MsgBuf Frame SendSpec Wf WfOps.
From S2P Require Import Registry Acl Reply Event Obj AclLoad Proto Main AclSpec Bus ReplySpec AclLoadSpec MainSpec.
From S2P Require Import ClientSpec Daemon Demo DaemonThms.
Local Open Scope ubus_scope.

(** ** What a client cannot touch *)

Section Abstract.
Context `{BL : BlobLib}.
Implicit Types (b : bus).

(** The object exists and is not the client's. *)
Definition foreign (who : ptr) b (p : ptr) : Prop :=
  exists o, bus_objects b !! p = Some o /\ po_owner o <> who.

(** The object is the client's. *)
Definition own (who : ptr) b (p : ptr) : Prop :=
  exists o, bus_objects b !! p = Some o /\ po_owner o = who.

(** What is not the client's stays, and everything new is the client's; only a
    subscription to an object of the client's may go, with this object. *)
Record others_kept (who : ptr) b b' : Prop := {
  ok_users : forall x, x <> who -> bus_users b' !! x = bus_users b !! x;
  ok_objects : forall p o, po_owner o <> who -> bus_objects b' !! p = Some o <-> bus_objects b !! p = Some o;
  ok_subs : forall x sub, foreign who b (s_target sub) -> foreign who b (s_subscriber sub) ->
    bus_subs b !! x = Some sub -> bus_subs b' !! x = Some sub;
  ok_subs_new : forall x sub, bus_subs b' !! x = Some sub -> bus_subs b !! x = Some sub \/ own who b' (s_subscriber sub);
  ok_sources : forall x ev, foreign who b (ev_obj ev) -> bus_sources b !! x = Some ev -> bus_sources b' !! x = Some ev;
  ok_sources_new : forall x ev, bus_sources b' !! x = Some ev -> bus_sources b !! x = Some ev \/ own who b' (ev_obj ev);
  ok_monitors : forall x, x <> who -> x ∈ bus_monitors b' <-> x ∈ bus_monitors b;
  ok_rules : bus_rules b' = bus_rules b;
}.

(** What is new was permitted. *)
Record news_permitted (who : ptr) b b' : Prop := {
  np_user : forall u, bus_users b' !! who = Some u -> bus_users b !! who = Some u;
  np_objects : forall p o key, bus_objects b' !! p = Some o -> bus_objects b !! p <> Some o ->
    po_path o = Some key -> po_owner o = who /\ allowed b who key None UBUS_ACL_PUBLISH;
  np_subs : forall x sub, bus_subs b' !! x = Some sub -> bus_subs b !! x <> Some sub ->
    own who b' (s_subscriber sub) /\
    exists t, bus_objects b !! s_target sub = Some t /\ po_owner t <> who /\ may_watch b who t;
  np_sources : forall x ev, bus_sources b' !! x = Some ev -> bus_sources b !! x <> Some ev ->
    own who b' (ev_obj ev) /\ allowed b who (ev_key ev) None UBUS_ACL_LISTEN;
  np_monitors : who ∈ bus_monitors b' -> who ∉ bus_monitors b ->
    exists u, bus_users b !! who = Some u /\ u_uid u = 0%Z /\ u_gid u = 0%Z;
}.

Lemma foreign_kept who b b' p : others_kept who b b' -> foreign who b p -> foreign who b' p.
Proof. intros H (o & Ho & Hne). exists o. split; [|done]. by apply (ok_objects _ _ _ H). Qed.

Lemma others_kept_refl who b : others_kept who b b.
Proof. split; auto. Qed.

Lemma not_foreign who b p o : bus_objects b !! p = Some o -> po_owner o = who -> ~ foreign who b p.
Proof. intros Ho E (o' & Ho' & Hne). by simplify_eq. Qed.

(** An object of the client's stays as long as a subscription or a source of it does. *)
Lemma own_step who b b' p : bus_step who b b' -> own who b p ->
  own who b' p \/ (forall x sub, bus_subs b' !! x = Some sub -> s_subscriber sub <> p) /\
    (forall x ev, bus_sources b' !! x = Some ev -> ev_obj ev <> p).
Proof.
  intros Hstep (o & Ho & Ew). destruct Hstep as [q id path Hq _ _ _ _|q o' Ho' Ew'| | | | | |];
    try (left; by exists o).
  - left. exists o. split; [|done]. simpl. by rewrite lookup_insert_ne by congruence.
  - destruct (decide (q = p)) as [->|Hne]; [right|left].
    + split; [intros x sub|intros x ev]; simpl; rewrite map_lookup_filter_Some; intros [_ H] E; apply H; simpl; [by right|done].
    + exists o. split; [|done]. simpl. by rewrite lookup_delete_ne.
Qed.

Lemma own_sub_step who b b' x sub : bus_step who b b' -> bus_subs b' !! x = Some sub ->
  own who b (s_subscriber sub) -> own who b' (s_subscriber sub).
Proof. intros Hst Hx Ho. destruct (own_step who b b' _ Hst Ho) as [|[H _]]; [done|]. by destruct (H x sub Hx). Qed.

Lemma own_source_step who b b' x ev : bus_step who b b' -> bus_sources b' !! x = Some ev ->
  own who b (ev_obj ev) -> own who b' (ev_obj ev).
Proof. intros Hst Hx Ho. destruct (own_step who b b' _ Hst Ho) as [|[_ H]]; [done|]. by destruct (H x ev Hx). Qed.

Lemma bus_step_others who b b' : bus_step who b b' -> others_kept who b b'.
Proof.
  intros Hstep. destruct Hstep as [p id path Hp _ _ _ _|p o Ho Ew|x p o q t Hx Ho Ew Hq Ht _|x sub o Hx Ho Ew
    |x p o key partial Hx Ho Ew _|u _ _ _|i Hi|_ _]; split; try done; try (simpl; by left); simpl.
  - intros q o Hne. rewrite lookup_insert_Some. split; [by intros [[<- <-]|[_ H]]|]. intros Hq. right. split; [congruence|done].
  - intros q o' Hne. rewrite lookup_delete_Some. split; [by intros []|]. intros Hq. split; [congruence|done].
  - intros x sub Ht Hs Hx. apply map_lookup_filter_Some. split; [done|]. simpl. intros [E|E]; rewrite E in *; by eapply not_foreign.
  - intros x sub [H _]%map_lookup_filter_Some. by left.
  - intros x ev He Hx. apply map_lookup_filter_Some. split; [done|]. simpl. intros E. rewrite E in *. by eapply not_foreign.
  - intros x ev [H _]%map_lookup_filter_Some. by left.
  - intros y sub _ _ Hy. rewrite lookup_insert_ne; [done|congruence].
  - intros y sub. rewrite lookup_insert_Some. intros [[<- <-]|[_ H]]; [right; by exists o|by left].
  - intros y sub' Ht Hs Hy. rewrite lookup_delete_ne; [done|]. intros ->. rewrite Hx in Hy. injection Hy as <-. by eapply not_foreign.
  - intros y sub' [_ H]%lookup_delete_Some. by left.
  - intros y ev _ Hy. rewrite lookup_insert_ne; [done|congruence].
  - intros y ev. rewrite lookup_insert_Some. intros [[<- <-]|[_ H]]; [right; by exists o|by left].
  - intros x Hx. rewrite elem_of_app, list_elem_of_singleton. split; [by intros [|]|by left].
  - intros x Hx. rewrite (delete_Permutation _ _ _ Hi) at 2. rewrite elem_of_cons. split; [by right|]. by intros [|].
  - intros x Hx. by rewrite lookup_delete_ne.
Qed.

Lemma others_kept_step who b b1 b2 : others_kept who b b1 -> bus_step who b1 b2 -> others_kept who b b2.
Proof.
  intros H1 Hst. pose proof (bus_step_others _ _ _ Hst) as H2. split.
  - intros x Hx. by rewrite (ok_users _ _ _ H2), (ok_users _ _ _ H1).
  - intros p o Ho. by rewrite (ok_objects _ _ _ H2), (ok_objects _ _ _ H1).
  - intros x sub Ht Hs Hx. apply H2; [by eapply foreign_kept..|]. by apply H1.
  - intros x sub Hx. destruct (ok_subs_new _ _ _ H2 x sub Hx) as [Hx1|]; [|by right].
    destruct (ok_subs_new _ _ _ H1 x sub Hx1) as [|Ho]; [by left|right]. by eapply (own_sub_step who _ _ x sub).
  - intros x ev Ho Hx. apply H2; [by eapply foreign_kept|]. by apply H1.
  - intros x ev Hx. destruct (ok_sources_new _ _ _ H2 x ev Hx) as [Hx1|]; [|by right].
    destruct (ok_sources_new _ _ _ H1 x ev Hx1) as [|Ho]; [by left|right]. by eapply (own_source_step who _ _ x ev).
  - intros x Hx. by rewrite (ok_monitors _ _ _ H2), (ok_monitors _ _ _ H1).
  - by rewrite (ok_rules _ _ _ H2), (ok_rules _ _ _ H1).
Qed.

(** Permission is judged by what the client cannot change in the meantime. *)
Lemma allowed_before who b b' name method type :
  others_kept who b b' -> news_permitted who b b' -> allowed b' who name method type -> allowed b who name method type.
Proof.
  intros Hk Hn (u & Hu & H). exists u. split; [by apply Hn|]. by rewrite (ok_rules _ _ _ Hk) in H.
Qed.

Lemma may_watch_before who b b' t :
  others_kept who b b' -> news_permitted who b b' -> po_owner t <> who -> may_watch b' who t -> may_watch b who t.
Proof.
  intros Hk Hn Ht. unfold may_watch. destruct (po_path t); [by apply allowed_before|].
  intros (u & v & Hu & Hv & H). exists u, v. split; [by apply Hn|]. split; [|done]. by rewrite <- (ok_users _ _ _ Hk).
Qed.

Lemma news_permitted_refl who b : news_permitted who b b.
Proof. split; naive_solver. Qed.

Lemma news_permitted_step who b b1 b2 :
  others_kept who b b1 -> news_permitted who b b1 -> bus_step who b1 b2 -> news_permitted who b b2.
Proof.
  intros Hk Hn Hstep. pose proof (allowed_before who b b1) as Hal. pose proof (np_objects _ _ _ Hn) as Hno.
  pose proof (np_monitors _ _ _ Hn) as Hnm. pose proof (np_user _ _ _ Hn) as Hnu.
  assert (forall x sub, bus_subs b2 !! x = Some sub -> bus_subs b1 !! x = Some sub -> bus_subs b !! x <> Some sub ->
    own who b2 (s_subscriber sub) /\ exists t, bus_objects b !! s_target sub = Some t /\ po_owner t <> who /\ may_watch b who t) as Hns.
  { intros x sub H2 H1 Hx. destruct (np_subs _ _ _ Hn x sub H1 Hx) as [Ho Ht]. split; [by eapply (own_sub_step who _ _ x sub)|done]. }
  assert (forall x ev, bus_sources b2 !! x = Some ev -> bus_sources b1 !! x = Some ev -> bus_sources b !! x <> Some ev ->
    own who b2 (ev_obj ev) /\ allowed b who (ev_key ev) None UBUS_ACL_LISTEN) as Hne.
  { intros x ev H2 H1 Hx. destruct (np_sources _ _ _ Hn x ev H1 Hx) as [Ho Ht]. split; [by eapply (own_source_step who _ _ x ev)|done]. }
  destruct Hstep as [p id path Hp _ _ _ Hal1|p o Ho Ew|x p o q t Hx Ho Ew Hq Ht Hw|x sub o Hx Ho Ew
    |x p o key partial Hx Ho Ew Hal1|u Hu E1 E2|i Hi|_ _]; split; try done; try (simpl in *; by eauto).
  - intros q o key. simpl. rewrite lookup_insert_Some. intros [[<- <-]|[_ H]] Hnew Ek; [|by eauto]. split; [done|].
    eapply Hal; [done..|]. by apply Hal1.
  - intros q o' key. simpl. rewrite lookup_delete_Some. intros [_ H]. by apply Hno.
  - intros x sub H. apply (Hns x); [done|]. by apply map_lookup_filter_Some in H as [H _].
  - intros x ev H. apply (Hne x); [done|]. by apply map_lookup_filter_Some in H as [H _].
  - intros y sub H Hnew. destruct (decide (y = x)) as [->|Hy].
    + simpl in H. rewrite lookup_insert_eq in H. injection H as <-. split; [by exists o|]. exists t.
      split; [by apply (ok_objects _ _ _ Hk)|]. split; [done|]. by eapply may_watch_before.
    + apply (Hns y); [done| |done]. simpl in H. by rewrite lookup_insert_ne in H by done.
  - intros y sub' H. apply (Hns y); [done|]. simpl in H. by apply lookup_delete_Some in H as [_ H].
  - intros y ev H Hnew. destruct (decide (y = x)) as [->|Hy].
    + simpl in H. rewrite lookup_insert_eq in H. injection H as <-. split; [by exists o|]. by eapply Hal.
    + apply (Hne y); [done| |done]. simpl in H. by rewrite lookup_insert_ne in H by done.
  - intros Hin. apply Hnm. rewrite (delete_Permutation _ _ _ Hi). by right.
  - simpl. intros u. by rewrite lookup_delete_Some; intros [].
Qed.

Lemma bus_steps_safe who b b' : bus_steps who b b' -> others_kept who b b' /\ news_permitted who b b'.
Proof.
  unfold bus_steps. revert b'. apply rtc_ind_r; [split; [apply others_kept_refl|apply news_permitted_refl]|].
  intros b1 b2 _ Hstep [Hk Hn]. split; [by eapply others_kept_step|by eapply news_permitted_step].
Qed.
End Abstract.

(** ** Theorems *)

Section BusThms.
Context `{AL : AvlLib} `{BL : BlobLib} `{!AvlLaws AL} `{!BlobLaws BL}.
Implicit Types (s : ubusd).

(** C1: The daemon refines the abstract bus.  It starts with the empty bus, and
    whatever state it is in, an event takes the bus through a transition of this
    event: a message from a client only through steps that client is entitled to
    ([bus_step]), the listening socket only to more users, each of them who the
    kernel says it is, a reload to the rules of the trusted files, and a hangup
    or the arrival of data nowhere. *)
Theorem bus_refined :
  (forall o s, ubusd_init (ubusd_globals o) = Some (tt, s) -> bus_of s = bus_empty) /\
  (forall s ev, reachable s -> enabled ev s -> exists s', run_event ev s = Some (tt, s') /\
     bus_trans ev (os_alloc (os s) = []) (bus_of s) (bus_of s')).
Proof.
  split.
  - intros o s E. exact (proj2 (proj1 (wp_eq _ _ _ _ _ E) (init_spec o))).
  - intros s ev Hs Hen. destruct (wp_run _ _ _ (run_event_spec ev s (reachable_inv s Hs) Hen)) as ([] & s' & E & _ & H). eauto.
Qed.

Lemma client_event_steps s cl w s' :
  reachable s -> is_Some (h_clients s !! cl) -> run_event (EvClient cl w) s = Some (tt, s') -> steps cl s s'.
Proof. intros Hs Hen E. exact (proj2 (proj1 (wp_eq _ _ _ _ _ E) (run_event_spec (EvClient cl w) s (reachable_inv s Hs) Hen))). Qed.

(** C3: Clients are isolated from each other: whatever a client sends, and even
    if it is disconnected for it, the users, objects and monitors of the others
    and the access rules stay as they are; no subscription and no event source
    of an object of the others is removed, except subscriptions to the client's
    own objects, and none is added: every new one is for an object of the client's
    own. *)
Theorem client_isolated s cl w s' :
  reachable s -> is_Some (h_clients s !! cl) -> run_event (EvClient cl w) s = Some (tt, s') ->
  others_kept cl (bus_of s) (bus_of s').
Proof. intros Hs Hcl E. eapply bus_steps_safe. by eapply client_event_steps. Qed.

(** C4: Access control cannot be bypassed: whatever a client sends, a path it
    then publishes was permitted to it; a new subscription is one of its own
    objects to an object of another client that it may watch; a new event source
    belongs to an object of its own, and the rules let it listen to the source's
    key - the name, or the pattern without its star, which is all the code checks
    (a rule for this one name then suffices for all names that start with it);
    only root becomes a monitor; the credentials, as the kernel gave them at
    connect time, never change. *)
Theorem client_permitted s cl w s' :
  reachable s -> is_Some (h_clients s !! cl) -> run_event (EvClient cl w) s = Some (tt, s') ->
  news_permitted cl (bus_of s) (bus_of s').
Proof. intros Hs Hcl E. eapply bus_steps_safe. by eapply client_event_steps. Qed.

(** C33: A client that leaves takes exactly its own with it: afterwards the bus is
    what it was without the client's user, its objects, the subscriptions one of
    whose ends is an object of its, the event sources of its objects and its
    monitors, and its id finds nobody. *)
Theorem disconnect_forgets s cl c :
  reachable s -> h_clients s !! cl = Some c ->
  exists s', handle_client_disconnect cl s = Some (tt, s') /\ h_clients s' !! cl = None /\
    (forall id, ubus_find_id (clients s') id <> Some cl) /\
    let b := bus_of s in let b' := bus_of s' in
    bus_users b' = delete cl (bus_users b) /\ bus_rules b' = bus_rules b /\
    (forall p o, bus_objects b' !! p = Some o <-> bus_objects b !! p = Some o /\ po_owner o <> cl) /\
    (forall x sub, bus_subs b' !! x = Some sub <->
       bus_subs b !! x = Some sub /\ foreign cl b (s_target sub) /\ foreign cl b (s_subscriber sub)) /\
    (forall x ev, bus_sources b' !! x = Some ev <-> bus_sources b !! x = Some ev /\ foreign cl b (ev_obj ev)) /\
    (forall x, x ∈ bus_monitors b' <-> x ∈ bus_monitors b /\ x <> cl).
Proof.
  intros Hs Hc. pose proof (client_disconnect_spec idle cl c s (reachable_inv s Hs) Hc) as Hd.
  destruct (wp_run _ _ _ (Hd ltac:(apply not_elem_of_nil))) as ([] & s' & E & [_ Hw] & Hn & Hst).
  destruct (bus_steps_safe _ _ _ Hst) as [Hk _].
  assert (bus_users (bus_of s') !! cl = None) as Hu by (simpl; by rewrite lookup_fmap, Hn).
  assert (forall p o, bus_objects (bus_of s') !! p = Some o -> po_owner o <> cl) as Hown.
  { intros p o (x & Hx & Hcl & _)%bus_object_inv <-. destruct (wf_client_live _ _ _ _ _ Hx Hcl Hw). congruence. }
  assert (forall p, is_Some (omap obj_client (h_objects s') !! p) -> foreign cl (bus_of s) p) as Hfor.
  { intros p [cl' Hcl']. rewrite lookup_omap in Hcl'. destruct (h_objects s' !! p) as [o|] eqn:Ho; [|done]. simpl in Hcl'.
    pose proof (bus_object _ _ _ _ Ho Hcl') as Hb. pose proof (Hown _ _ Hb) as Hne. exists (mk_pub cl' (obj_id o) (obj_path o)).
    split; [by apply (ok_objects _ _ _ Hk)|done]. }
  assert (forall p, ~ own cl (bus_of s') p) as Hno by (intros p (o & Ho & Ew); by apply (Hown p o)).
  destruct (wf_sub_active _ _ Hw) as (A1 & A2 & A3). exists s'. split; [done|]. split; [done|]. split.
  { intros id H%(tree_find_iff _ _ _ _ (wf_clients _ _ Hw)). apply fmap_Some_2 in H as (x & Hx & _). congruence. }
  cbv zeta. split; [|split; [apply Hk|split; [|split; [|split]]]].
  - apply map_eq. intros x. destruct (decide (x = cl)) as [->|Hx]; [by rewrite lookup_delete_eq|].
    rewrite lookup_delete_ne by done. by apply Hk.
  - intros p o. split; [intros Ho; pose proof (Hown p o Ho)|intros [Ho Hne]]; [split; [|done]|]; by apply (ok_objects _ _ _ Hk).
  - intros x sub. split; [|intros (Hx & Ht & Hsub); by apply Hk]. intros Hx. split.
    + destruct (ok_subs_new _ _ _ Hk x sub Hx) as [|H]; [done|]. by apply Hno in H.
    + split; apply Hfor; [eapply (A1 x)|eapply (A2 x)]; by apply fmap_Some_1.
  - intros x ev. split; [|intros (Hx & Ho); by apply Hk]. intros Hx. split.
    + destruct (ok_sources_new _ _ _ Hk x ev Hx) as [|H]; [done|]. by apply Hno in H.
    + apply Hfor. eapply (A3 x). by apply fmap_Some_1.
  - intros x. split.
    + intros Hx. assert (x <> cl) as Hne.
      { intros ->. simpl in Hx. destruct (wf_mon_live _ _ Hw cl Hx). congruence. }
      split; [by apply (ok_monitors _ _ _ Hk)|done].
    + intros [Hx Hne]. by apply (ok_monitors _ _ _ Hk).
Qed.

(** C5: [ubusd_acl_check] decides what the rules say: it leaves the state alone,
    and although it scans the sorted rules only as long as the match does not
    get shorter, it answers 0 exactly when the user is root or some rule for the
    user or a group of the user's covers the name and grants the access. *)
Theorem acl_check_exact s cl name method type :
  reachable s -> is_Some (h_clients s !! cl) -> (type = UBUS_ACL_ACCESS -> is_Some method) ->
  exists r, ubusd_acl_check (Some cl) (Some name) method type s = Some (r, s) /\ (r = 0 \/ r = -1)%Z /\
    (r = 0%Z <-> allowed (bus_of s) cl name method type).
Proof. intros Hs. apply (acl_check_allowed idle), (reachable_inv s Hs). Qed.

(** C6: From the files to the decision: after a reload, with enough memory and
    each path once, a client that is not root is granted an access exactly when
    a regular file of root's that nobody else can write parses and contains the
    grant; what earlier files or files of others said has no effect. *)
Theorem access_after_load s db entries cl c name method type :
  reachable s -> h_clients s !! cl = Some c -> cl_uid c <> 0%Z ->
  (type = UBUS_ACL_ACCESS -> is_Some method) -> os_alloc (os s) = [] -> NoDup (de_path <$> entries) ->
  exists s' r, run_event (EvAclLoad db (Some entries)) s = Some (tt, s') /\
    ubusd_acl_check (Some cl) (Some name) method type s' = Some (r, s') /\
    (r = 0%Z <-> exists e puts acl, trusted_entry entries e puts /\ acl ∈ file_entries db (blob_render puts) /\
       path_applies name acl /\ cred_applies c acl /\ acl_allows acl method type = true).
Proof.
  intros Hs Hc Hne Hm Ha Hnd. set (ev := EvAclLoad db (Some entries)).
  destruct (wp_run _ _ _ (run_event_spec ev s (reachable_inv s Hs) I)) as ([] & s' & E & _ & [Hrest Hsound Hcomp]).
  assert (bus_users (bus_of s') !! cl = Some (cred_of c)) as Hu.
  { rewrite Hrest. exact (bus_user s cl c Hc). }
  assert (is_Some (h_clients s' !! cl)) as Hcl'.
  { simpl in Hu. rewrite lookup_fmap in Hu. by destruct (h_clients s' !! cl); [eauto|]. }
  destruct (acl_check_allowed idle s' cl name method type) as (r & Er & _ & Hiff); [|done|done|].
  { exact (inv_wf _ _ _ (reachable_inv s' (reach_step s s' ev Hs I E))). }
  exists s', r. split; [done|]. split; [done|]. rewrite Hiff. split.
  - intros (u & Hu' & [H|(key & acl & Hin & Hcov & Hfor & Hal)]); rewrite Hu in Hu'; injection Hu' as <-; [done|].
    destruct (Hsound _ _ Hin) as (-> & e & puts & Ht & Hf). by exists e, puts, acl.
  - intros (e & puts & acl & Ht & Hf & Hpath & Hcr & Hal). exists (cred_of c). split; [done|]. right.
    exists (acl_key acl), acl. split; [by eapply Hcomp|done].
Qed.
End BusThms.

(** ** The theorems at concrete states *)

Lemma st12_joe : is_Some (h_clients st12 !! cl_joe).
Proof. apply has_Some. vm_compute. reflexivity. Qed.

Lemma st12_event : exists s', run_event (EvClient cl_joe true) st12 = Some (tt, s').
Proof.
  assert (has (run_event (EvClient cl_joe true) st12) = true) as H by (vm_compute; reflexivity).
  apply has_Some in H as [[[] s'] E]. eauto.
Qed.

Lemma bus_refined_witness :
  exists s', run_event (EvClient cl_joe true) st12 = Some (tt, s') /\ bus_steps cl_joe (bus_of st12) (bus_of s').
Proof. exact (proj2 bus_refined st12 (EvClient cl_joe true) st12_reachable st12_joe). Defined.

Lemma client_isolated_witness :
  exists s', run_event (EvClient cl_joe true) st12 = Some (tt, s') /\ others_kept cl_joe (bus_of st12) (bus_of s').
Proof.
  destruct st12_event as [s' E]. exists s'. split; [exact E|].
  exact (client_isolated st12 cl_joe true s' st12_reachable st12_joe E).
Defined.

Lemma client_permitted_witness :
  exists s', run_event (EvClient cl_joe true) st12 = Some (tt, s') /\ news_permitted cl_joe (bus_of st12) (bus_of s').
Proof.
  destruct st12_event as [s' E]. exists s'. split; [exact E|].
  exact (client_permitted st12 cl_joe true s' st12_reachable st12_joe E).
Defined.

Lemma acl_check_exact_witness :
  exists r, ubusd_acl_check (Some cl_joe) (Some "foo"%string) (Some "hi"%string) UBUS_ACL_ACCESS st12 = Some (r, st12) /\
    (r = 0 \/ r = -1)%Z /\ (r = 0%Z <-> allowed (bus_of st12) cl_joe "foo" (Some "hi"%string) UBUS_ACL_ACCESS).
Proof. apply (acl_check_exact st12); [exact st12_reachable|exact st12_joe|eauto]. Defined.

(** The second file of the directory is writable for others and ignored. *)
Lemma access_after_load_witness :
  exists s' r, run_event (EvAclLoad demo_db (Some demo_dir)) st12 = Some (tt, s') /\
    ubusd_acl_check (Some cl_joe) (Some "foo"%string) (Some "hi"%string) UBUS_ACL_ACCESS s' = Some (r, s').
Proof.
  destruct (has_Some (h_clients st12 !! cl_joe)) as [c Hc]; [vm_compute; reflexivity|]. pose proof Hc as Ec. vm_compute in Ec.
  destruct (access_after_load st12 demo_db demo_dir cl_joe c "foo" (Some "hi"%string) UBUS_ACL_ACCESS) as (s' & r & E & Er & _).
  - exact st12_reachable.
  - exact Hc.
  - injection Ec as <-. discriminate.
  - eauto.
  - vm_compute. reflexivity.
  - apply (bool_decide_unpack (NoDup (de_path <$> demo_dir))). vm_compute. exact I.
  - exists s', r. exact (conj E Er).
Defined.

Lemma disconnect_forgets_witness :
  exists s', handle_client_disconnect cl_root st12 = Some (tt, s') /\ h_clients s' !! cl_root = None /\
    forall p o, bus_objects (bus_of s') !! p = Some o <-> bus_objects (bus_of st12) !! p = Some o /\ po_owner o <> cl_root.
Proof.
  destruct (disconnect_forgets st12 cl_root _ st12_reachable eq_refl) as (s' & E & Hn & _ & H). exists s'. split; [exact E|].
  split; [exact Hn|]. exact (proj1 (proj2 (proj2 H))).
Defined.
