(* ===== verification/RxTxThms.v ===== *)
(** * Theorems about reception and transmission

    However the kernel cuts the incoming bytes, [client_cb] puts a message
    together from exactly the bytes received, rejects bad lengths, and its loops
    end.  A client's byte stream consists of whole messages in order; the queue
    obeys its limit; descriptors travel once. *)

From stdpp Require Import base gmap strings list fin_maps sets.
From Stdlib Require Import ZArith Lia.
From S2P Require Import Prelude Wire Cstring Libubox LibuboxModel Ids State MsgBuf Frame SendSpec Stream Wf WfOps.
From S2P Require Import Registry Acl Reply Event Obj AclLoad Proto Main Bus ReplySpec MainSpec RxSpec Daemon Demo.
Local Open Scope ubus_scope.

Section RxThms.
Context `{AL : AvlLib} `{BL : BlobLib} `{!AvlLaws AL} `{!BlobLaws BL}.
Implicit Types (s : ubusd) (bs : bytes).

(** Receiving a header.  When [bs] has arrived of a message and the socket
    yields [new], fewer than twelve bytes are kept as [bs ++ new]; with twelve,
    the connection is dropped if the length they announce is below a blob
    header or above [UBUS_MAX_MSGLEN], and otherwise, memory permitting, a
    message of that length is allocated whose header is the decoding of the
    first eight bytes; if the read fails nothing is lost. *)
Lemma rx_header_exact s cl c bs :
  inv idle [] s -> h_clients s !! cl = Some c -> cl_sock_eof c = false -> received s cl bs (cl_pending_msg_fd c) -> length bs < 12 ->
  exists r s', client_rx_header cl s = Some (r, s') /\
    header_outcome s cl bs (cl_pending_msg_fd c) (next_bytes s (cl_sock_fd c) (sizeof_hdrbuf - Z.of_nat (length bs))) r s'.
Proof.
  intros Hi Hc He Hr Hlt. destruct (wp_run _ _ _ (rx_header_step s cl c bs Hi Hc He Hr Hlt)) as (r & s' & H). eauto.
Qed.

(** Receiving a body.  Never more is read than the message lacks.  What
    arrives is appended; as long as the message is incomplete the callback
    leaves the loop; when it is complete the message handed to the monitors and
    the handlers consists of exactly the bytes received, header decoded, with
    the descriptor that came along, and the next message starts afresh. *)
Lemma rx_body_exact s cl c m bs want :
  inv idle [] s -> h_clients s !! cl = Some c -> cl_pending_msg c = Some m -> received s cl bs (cl_pending_msg_fd c) ->
  want = (sizeof_msghdr + blob_raw_len (drop 8 bs) - Z.of_nat (length bs))%Z ->
  body_outcome cl m (cl_pending_msg_fd c) bs (if (0 <? want)%Z then next_bytes s (cl_sock_fd c) want else Some [])
    (client_rx_body cl s).
Proof. apply rx_body_step. Qed.

(** C19: Reception is exact.  Of a message of which [bs] has arrived, the header
    phase keeps what the socket yields, and the first descriptor passed with it
    (that of the first [SCM_RIGHTS] control message long enough for one,
    [keeps_fd]); it drops the connection when twelve bytes announce a length below
    a blob header or above [UBUS_MAX_MSGLEN], and otherwise allocates a message of
    that length with the decoded header, unless the allocation fails, which drops
    the connection too.  The body phase never reads more than the message lacks,
    appends what arrives, and hands a complete message of exactly the bytes
    received, with the descriptor kept, to the monitors and the handlers. *)
Theorem reception_exact s cl c bs :
  inv idle [] s -> h_clients s !! cl = Some c -> received s cl bs (cl_pending_msg_fd c) ->
  (cl_sock_eof c = false -> length bs < 12 ->
   exists r s', client_rx_header cl s = Some (r, s') /\
     header_outcome s cl bs (cl_pending_msg_fd c) (next_bytes s (cl_sock_fd c) (sizeof_hdrbuf - Z.of_nat (length bs))) r s') /\
  (forall m want, cl_pending_msg c = Some m -> want = (sizeof_msghdr + blob_raw_len (drop 8 bs) - Z.of_nat (length bs))%Z ->
   body_outcome cl m (cl_pending_msg_fd c) bs (if (0 <? want)%Z then next_bytes s (cl_sock_fd c) want else Some [])
     (client_rx_body cl s)).
Proof.
  intros Hi Hc Hr. split; [intros He Hlt; by apply rx_header_exact|]. intros m want Hm Hw. by apply rx_body_exact.
Qed.

(** The receive loop of [client_cb] terminates: with one round for every
    result the socket still has to offer, and one more, it ends by itself, and
    more rounds make no difference. *)
Lemma rx_terminates s cl :
  inv idle [] s -> is_Some (h_clients s !! cl) ->
  exists r s', r <> RxMore /\
    forall fuel, S (length (os_recv (os s))) <= fuel -> client_rx fuel cl s = Some (r, s').
Proof.
  intros Hi Hcl. apply rx_loop_ends; [done|done|]. unfold rx_measure. destruct (_ ≫= _); lia.
Qed.

(** The write loops terminate: [ubus_msg_writev] repeats an interrupted call
    and [client_cb] a partial write no more often than the kernel has answers,
    so the bounds used by the model never cut them short. *)
Lemma tx_terminates s cl ubl fd iov passed n :
  sendmsg_retry (length (os_send (os s)) + n) fd iov passed s = sendmsg_retry (length (os_send (os s))) fd iov passed s /\
  tx_retry (S (length (os_send (os s))) + n) cl ubl s = tx_retry (S (length (os_send (os s)))) cl ubl s.
Proof. split; [apply sendmsg_retry_fuel|apply tx_retry_fuel]; unfold sends_left; lia. Qed.

End RxThms.

(** ** The theorems at concrete states *)

Lemma st13_inv : inv idle [] st13.
Proof. exact (reachable_inv st13 st13_reachable). Qed.

(** joe's ping arrives. *)
Lemma reception_exact_witness :
  exists s', client_rx_header cl_joe st13 = Some (RxMore, s') /\ received s' cl_joe (request UBUS_MSG_PING 5 []) (-1).
Proof.
  destruct (has_Some (h_clients st13 !! cl_joe)) as [c Hc]; [vm_compute; reflexivity|]. pose proof Hc as Ec. vm_compute in Ec.
  injection Ec as Ec.
  assert (received st13 cl_joe [] (cl_pending_msg_fd c)) as Hr.
  { exists c. rewrite <- Ec in Hc |- *. split; [exact Hc|]. split; [reflexivity|]. split; reflexivity. }
  destruct (proj1 (reception_exact st13 cl_joe c [] st13_inv Hc Hr)) as (r & s' & E & H).
  - rewrite <- Ec. reflexivity.
  - simpl. lia.
  - exists s'. rewrite <- Ec in H. vm_compute next_bytes in H. unfold header_outcome in H.
    destruct H as (fd' & Hfd & H). rewrite decide_False in H by (simpl; lia). rewrite decide_True in H by (vm_compute; split; discriminate).
    destruct H as [[-> H]|[_ H]]; [|exfalso; revert H; vm_compute os_alloc; apply not_elem_of_nil].
    assert (fd' = (-1)%Z) as ->.
    { destruct Hfd as (x & [(l1 & m & l2 & El & _)|[_ ->]] & ->); [|reflexivity]. vm_compute in El. by destruct l1. }
    split; [exact E|]. exact H.
Defined.

(** The state after the header *)
Definition st13h : ubusd := Eval vm_compute in
  match client_rx_header cl_joe st13 with Some (_, s) => s | None => st13 end.

Lemma st13h_inv : inv idle [] st13h.
Proof.
  assert (client_rx_header cl_joe st13 = Some (RxMore, st13h)) as E by (vm_compute; reflexivity).
  assert (is_Some (h_clients st13 !! cl_joe)) as Hcl by (apply has_Some; vm_compute; reflexivity).
  exact (proj1 (proj1 (wp_eq _ _ _ _ _ E) (client_rx_header_spec idle cl_joe st13 st13_inv Hcl))).
Qed.

(** joe's ping is complete. *)
Example rx_body_run :
  exists m s1, client_rx_body cl_joe st13h = handle_message cl_joe m s1 /\
    complete s1 cl_joe m (-1) (request UBUS_MSG_PING 5 []).
Proof.
  destruct (has_Some (h_clients st13h !! cl_joe)) as [c Hc]; [vm_compute; reflexivity|]. pose proof Hc as Ec. vm_compute in Ec.
  injection Ec as Ec. pose proof (rx_body_exact st13h cl_joe c (default 1%positive (cl_pending_msg c)) (request UBUS_MSG_PING 5 []) 0 st13h_inv Hc) as H.
  destruct H as (s1 & E & H).
  - rewrite <- Ec. reflexivity.
  - exists c. rewrite <- Ec in Hc |- *. split; [exact Hc|]. split; [reflexivity|]. split; [reflexivity|]. simpl. eexists. split; [vm_compute; reflexivity|].
    split; [vm_compute; reflexivity|]. split; vm_compute; reflexivity.
  - vm_compute. reflexivity.
  - exists (default 1%positive (cl_pending_msg c)), s1. split; [exact E|]. rewrite app_nil_r in H. rewrite <- Ec in H |- *. exact H.
Defined.


Section TxThms.
Context `{AL : AvlLib} `{BL : BlobLib} `{!AvlLaws AL} `{!BlobLaws BL}.
Implicit Types (s : ubusd).

(** C34: [ubus_msg_send] appends the whole message, header and data, to the
    bytes written and queued for the client, or drops the whole message, or the
    client is marked for disconnection: a message is never cut short with
    another one following.  (No monitor is there to be served first.) *)
Theorem send_whole_or_nothing ext s cl c ub u :
  minv ext s -> h_clients s !! cl = Some c -> h_msgs s !! ub = Some u -> cl_sock_eof c = false ->
  monitors s = [] ->
  exists s' c', ubus_msg_send cl ub s = Some (tt, s') /\ h_clients s' !! cl = Some c' /\
    (stream s' c' = stream s c ++ wire u \/ stream s' c' = stream s c \/ cl_sock_eof c' = true).
Proof.
  intros Hm Hc Hu He Hmon. assert (ubus_msg_send cl ub s = ubus_msg_transmit cl ub s) as E.
  { unfold ubus_msg_send, ubusd_monitor_message, when, mbind, stm_bind, load, gets. simpl. rewrite Hc, He, Hu.
    destruct (negb _); simpl; rewrite ?Hmon; done. }
  destruct (wp_run _ _ _ (transmit_stream ext cl c ub u s Hm Hc Hu)) as ([] & s' & E' & c' & Hc' & _ & Hf).
  exists s', c'. rewrite E. split; [done|]. split; [done|]. destruct Hf; auto.
Qed.

(** Writing queued data ([client_cb]'s first loop) sends the queue in
    order and loses nothing: bytes only move from the queue to the socket,
    however the kernel splits the writes. *)
Lemma flushing_keeps_stream s cl c :
  reachable s -> h_clients s !! cl = Some c ->
  exists failed s' c', client_tx cl s = Some (failed, s') /\ h_clients s' !! cl = Some c' /\
    cl_sock_fd c' = cl_sock_fd c /\ stream s' c' = stream s c.
Proof.
  intros Hs Hc. destruct (wp_run _ _ _ (client_tx_spec idle cl c s (reachable_inv s Hs) Hc)) as (b & s' & E & _ & c' & Hc' & Hfd & H & _).
  exists b, s', c'. done.
Qed.

(** A partially written message is continued where it stopped: what
    [ubus_msg_writev] passes to the kernel at an offset is the rest of the
    message's image on the wire. *)
Lemma writev_resumes ext s m u ofs :
  minv ext s -> h_msgs s !! m = Some u -> (0 <= ofs <= sizeof_msghdr + ub_len u)%Z ->
  take (Z.to_nat ofs) (wire u) ++ msg_iov u ofs = wire u.
Proof. intros Hm Hu Hofs. rewrite msg_iov_wire by (done || by eapply minv_msgs). apply take_drop. Qed.

(** The queue limit: a message that would take the queue beyond
    [UBUS_CLIENT_MAX_TXQ_LEN] is refused and nothing changes; one that fits is
    queued, unless memory runs out. *)
Lemma enqueue_limit ext s cl c ub u :
  minv ext s -> h_clients s !! cl = Some c -> sendable ub u s -> enq_ready c u ->
  exists b s', ubus_msg_enqueue cl ub s = Some (b, s') /\
    ((UBUS_CLIENT_MAX_TXQ_LEN < cl_txq_len c + sizeof_msghdr + ub_len u)%Z -> b = false /\ s' = s) /\
    ((cl_txq_len c + sizeof_msghdr + ub_len u <= UBUS_CLIENT_MAX_TXQ_LEN)%Z -> os_alloc (os s) = [] -> b = true).
Proof.
  intros Hm Hc [Hu Hs] Hrdy. destruct (wp_run _ _ _ (msg_enqueue_spec ext cl c ub u s Hm Hc (conj Hu Hs) Hrdy)) as (b & s' & E & _).
  exists b, s'. split; [done|].
  assert (size_t (cl_txq_len c + sizeof_msghdr + ub_len u) = (cl_txq_len c + sizeof_msghdr + ub_len u))%Z as Esz.
  { apply size_t_small. destruct (minv_msgs _ _ Hm _ _ Hu) as [_ Hl]. pose proof (co_tx _ _ (minv_clients _ _ Hm _ _ Hc)) as Htx.
    unfold enq_ready, tx_ok, UBUS_CLIENT_MAX_TXQ_LEN, UBUS_MAX_MSGLEN, sizeof_msghdr in *. destruct (cl_tx_queue c) as [|m q].
    - destruct (Hrdy eq_refl). lia.
    - destruct Htx as (H1 & H2 & H3). pose proof (qlen_nonneg (h_msgs s) q (minv_msgs _ _ Hm)). simpl in H2. lia. }
  revert E. unfold ubus_msg_enqueue, mbind, stm_bind, load. simpl. rewrite Hc, Hu, Esz.
  destruct (Z.ltb_spec UBUS_CLIENT_MAX_TXQ_LEN (cl_txq_len c + sizeof_msghdr + ub_len u)) as [Hgt|Hle].
  - intros [= <- <-]. split; [done|lia].
  - intros E. split; [lia|]. intros _ Ha. revert E. unfold try_alloc, os_pop_alloc. rewrite Ha. simpl.
    destruct (wp_run _ _ _ (msg_ref_succeeds ext ub u (s <| os := os s |>) (minv_os _ _ _ Hm) Hu Ha)) as (r & s1 & E1 & [n ->] & Ec).
    simpl in Ec. match goal with |- match ?x with _ => _ end = _ -> _ => replace x with (Some (Some n, s1)) by (symmetry; exact E1) end.
    simpl. unfold store. simpl. rewrite Ec, Hc. by intros [= <- <-].
Qed.

(** A descriptor attached to a message is passed to the receiver at most
    once: [ubus_msg_writev] passes it only with the first byte, never when it
    resumes a partial write. *)
Lemma fd_with_first_byte fd m u ofs r s s' :
  h_msgs s !! m = Some u -> ubus_msg_writev fd m ofs s = Some (r, s') ->
  os_passed (os s') = os_passed (os s) \/
  ofs = 0%Z /\ (0 <= ub_fd u)%Z /\ (exists n, r = Sent n /\ (0 < n)%Z) /\ os_passed (os s') = (fd, ub_fd u) :: os_passed (os s).
Proof.
  intros Hu. unfold ubus_msg_writev, mbind, stm_bind, load, gets, assert. simpl. rewrite Hu.
  destruct (iov_fits u ofs); [|done]. simpl. intros H%sendmsg_retry_passes.
  destruct H as [H|(x & n & Hx & -> & Hn & H)]; [by left|]. right.
  destruct (Z.ltb_spec (ub_fd u) 0), (Z.eqb_spec ofs 0); simpl in Hx; try done. injection Hx as <-.
  split; [done|]. split; [done|]. split; [by exists n|done].
Qed.

(** Partial writes are continued correctly: at any offset [ubus_msg_writev]
    offers the kernel exactly the rest of the message's image on the wire, and it
    passes an attached descriptor only with the first byte, so at most once. *)
Lemma writes_resume ext s m u ofs :
  minv ext s -> h_msgs s !! m = Some u -> (0 <= ofs <= sizeof_msghdr + ub_len u)%Z ->
  take (Z.to_nat ofs) (wire u) ++ msg_iov u ofs = wire u /\
  (forall fd r s', ubus_msg_writev fd m ofs s = Some (r, s') ->
     os_passed (os s') = os_passed (os s) \/
     ofs = 0%Z /\ (0 <= ub_fd u)%Z /\ (exists n, r = Sent n /\ (0 < n)%Z) /\ os_passed (os s') = (fd, ub_fd u) :: os_passed (os s)).
Proof.
  intros Hm Hu Hofs. split; [by eapply writev_resumes|]. intros fd r s'. by apply fd_with_first_byte.
Qed.

(** C35: Writing queued data loses nothing: however the kernel splits the writes,
    [client_cb]'s first loop only moves bytes from the queue to the socket, and
    the stream the client receives stays the same; at any offset of any message
    [ubus_msg_writev] offers the kernel exactly the rest of the message's image on
    the wire, and passes an attached descriptor only with the first byte, so at
    most once. *)
Theorem flushing_exact s cl c :
  reachable s -> h_clients s !! cl = Some c ->
  (exists failed s' c', client_tx cl s = Some (failed, s') /\ h_clients s' !! cl = Some c' /\
     cl_sock_fd c' = cl_sock_fd c /\ stream s' c' = stream s c) /\
  (forall m u ofs, h_msgs s !! m = Some u -> (0 <= ofs <= sizeof_msghdr + ub_len u)%Z ->
     take (Z.to_nat ofs) (wire u) ++ msg_iov u ofs = wire u /\
     forall fd r s', ubus_msg_writev fd m ofs s = Some (r, s') ->
       os_passed (os s') = os_passed (os s) \/
       ofs = 0%Z /\ (0 <= ub_fd u)%Z /\ (exists n, r = Sent n /\ (0 < n)%Z) /\ os_passed (os s') = (fd, ub_fd u) :: os_passed (os s)).
Proof.
  intros Hs Hc. split; [by apply flushing_keeps_stream|]. intros m u ofs Hu Hofs.
  eapply writes_resume; [|done..]. exact (inv_minv _ _ _ (reachable_inv s Hs)).
Qed.
End TxThms.

(** ** The theorems at concrete states *)

Lemma st10_minv : minv [] st10.
Proof. exact (inv_minv _ _ _ (reachable_inv st10 st10_reachable)). Qed.

(** Root's reply message is sent to root, who is not a monitor yet. *)
Lemma send_whole_or_nothing_witness :
  exists c u s' c', h_clients st10 !! cl_root = Some c /\ h_msgs st10 !! 11%positive = Some u /\
    ubus_msg_send cl_root 11 st10 = Some (tt, s') /\ h_clients s' !! cl_root = Some c' /\
    (stream s' c' = stream st10 c ++ wire u \/ stream s' c' = stream st10 c \/ cl_sock_eof c' = true).
Proof.
  eexists _, _. destruct (send_whole_or_nothing [] st10 cl_root _ 11%positive _ st10_minv eq_refl eq_refl eq_refl eq_refl)
    as (s' & c' & H). exists s', c'. split; [reflexivity|]. split; [reflexivity|]. exact H.
Defined.

Lemma flushing_exact_witness :
  exists c u failed s' c', h_clients st14 !! cl_joe = Some c /\ client_tx cl_joe st14 = Some (failed, s') /\
    stream s' c' = stream st14 c /\ h_msgs st14 !! 27%positive = Some u /\ take 3 (wire u) ++ msg_iov u 3 = wire u.
Proof.
  eexists _, _. destruct (flushing_exact st14 cl_joe _ st14_reachable eq_refl) as [(b & s' & c' & E & _ & _ & H) Hm].
  exists b, s', c'. split; [reflexivity|]. split; [exact E|]. split; [exact H|]. split; [reflexivity|].
  apply (Hm 27%positive _ 3%Z eq_refl). vm_compute. split; discriminate.
Defined.

(** joe has room for another message. *)
Example enqueue_run :
  exists s', ubus_msg_enqueue cl_joe 11 st14 = Some (true, s').
Proof.
  destruct (enqueue_limit [] st14 cl_joe _ 11%positive _ (inv_minv _ _ _ (reachable_inv st14 st14_reachable)) eq_refl
    (conj eq_refl (or_introl eq_refl))) as (b & s' & E & _ & H).
  - intros Hq. discriminate Hq.
  - exists s'. rewrite E. rewrite H; [reflexivity|vm_compute; discriminate|reflexivity].
Defined.
