(* ===== verification/ProtoThms.v ===== *)
(** * Theorems about the protocol

    What the handlers do with a request on every path: who may call, answer,
    watch and see what, and what the others get to read. *)

From stdpp Require Import base gmap strings list fin_maps sets.
From Stdlib Require Import ZArith Lia Sorted.
From S2P Require Import Prelude Wire Cstring Libubox LibuboxModel Ids State MsgBuf Frame SendSpec Stream Wf WfOps.
From S2P Require Import Registry Acl Reply Event Obj AclLoad Proto Main AclSpec Bus ReplySpec RegistrySpec ObjSpec.
From S2P Require Import EventSpec AclLoadSpec ProtoSpec HandlerSpec MainSpec Daemon Demo.
Local Open Scope ubus_scope.

(** ** What reaches a client *)

Section Delivery.
Context `{AL : AvlLib} `{BL : BlobLib} `{!AvlLaws AL} `{!BlobLaws BL}.
Implicit Types (s : ubusd).

(** The bytes [msg] have been appended to what the client reads; only if memory
    or the room in the client's queue does not suffice, or its connection is
    being given up ([refused]), they have been dropped as a whole, or the
    connection is about to be closed. *)
Definition delivered s (cl : ptr) (c : ubus_client) (msg : bytes) s' : Prop :=
  exists c', h_clients s' !! cl = Some c' /\ cl_sock_fd c' = cl_sock_fd c /\
    fate (refused s c msg) (stream s c) (stream s' c') msg (cl_sock_eof c').

Lemma queued_refs c m : m ∈ cl_tx_queue c -> m ∈ client_refs c.
Proof. unfold client_refs. set_solver. Qed.

(** What nobody owns is in no queue. *)
Lemma unowned_not_queued s cl c m :
  h_clients s !! cl = Some c -> owners (h_clients s) m = 0 -> m ∉ cl_tx_queue c.
Proof. intros Hc Ho Hin%queued_refs. pose proof (owners_pos _ cl c m Hc Hin). lia. Qed.

Lemma queued_live ext s cl c m : minv ext s -> h_clients s !! cl = Some c -> m ∈ cl_tx_queue c -> is_Some (h_msgs s !! m).
Proof. intros Hm Hc Hin%queued_refs. by eapply minv_live_owned. Qed.

(** Nothing that bears on what the client gets has changed. *)
Record carried (c : ubus_client) s s' : Prop := {
  ca_sent : os_sent (os s') = os_sent (os s);
  ca_wires : forall m, m ∈ cl_tx_queue c -> wire_at (h_msgs s') m = wire_at (h_msgs s) m;
  ca_allocs : allocs_kept s s';
}.

Lemma carried_pending c s s' : carried c s s' -> pending (h_msgs s') c = pending (h_msgs s) c.
Proof.
  intros [_ Hw _]. unfold pending. do 2 f_equal. apply list_fmap_ext. intros i m Hm%list_elem_of_lookup_2. by apply Hw.
Qed.

Lemma carried_stream c s s' : carried c s s' -> stream s' c = stream s c.
Proof. intros H. unfold stream, sent_on. by rewrite (carried_pending _ _ _ H), (ca_sent _ _ _ H). Qed.

Lemma carried_refused c s s' msg : carried c s s' -> refused s' c msg -> refused s c msg.
Proof.
  intros H. unfold refused. rewrite (carried_pending _ _ _ H). pose proof (ca_allocs _ _ _ H false). tauto.
Qed.

(** What is delivered from a later state on *)
Lemma delivered_carried s0 s cl c msg s' : carried c s0 s -> delivered s cl c msg s' -> delivered s0 cl c msg s'.
Proof.
  intros H (c' & Hc' & Efd & Hf). exists c'. split; [done|]. split; [done|]. rewrite <- (carried_stream _ _ _ H).
  eapply fate_mono; [|exact Hf]. by apply carried_refused.
Qed.

(** What has been delivered stays so. *)
Lemma delivered_later s cl c msg s1 s2 :
  (forall c1, h_clients s1 !! cl = Some c1 -> h_clients s2 !! cl = Some c1 /\ carried c1 s1 s2) ->
  delivered s cl c msg s1 -> delivered s cl c msg s2.
Proof.
  intros H (c1 & Hc1 & Efd & Hf). destruct (H c1 Hc1) as [Hc2 Hs]. exists c1. split; [done|]. split; [done|].
  by rewrite (carried_stream _ _ _ Hs).
Qed.

Lemma send_stream ext cl c ub u s :
  minv ext s -> monitors s = [] -> h_clients s !! cl = Some c -> h_msgs s !! ub = Some u ->
  wp (ubus_msg_send cl ub) (fun _ => delivered s cl c (wire u)) s.
Proof.
  intros Hm Hmon Hc Hu. unfold ubus_msg_send. apply wp_bind. eapply wp_load; [exact Hc|].
  destruct (cl_sock_eof c) eqn:Ee.
  { apply wp_ret. exists c. split; [done|]. split; [done|]. apply fate_broken; [by left|done]. }
  apply wp_bind. eapply wp_load; [exact Hu|]. apply wp_bind.
  assert (forall Q : unit -> ubusd -> Prop, Q tt s ->
    wp (when (negb (hdr_type (ub_hdr u) =? UBUS_MSG_MONITOR)%Z) (ubusd_monitor_message cl ub true)) Q s) as Hno.
  { intros Q HQ. destruct (negb _); [|by apply wp_ret]. unfold when, ubusd_monitor_message. apply wp_bind, wp_gets.
    rewrite decide_True by done. by apply wp_ret. }
  apply Hno. by apply (transmit_stream ext).
Qed.

(** A message made for the occasion, sent and dropped *)
Lemma send_fresh_stream ext cl c ub u s0 s :
  minv (ub :: ext) s -> mon_live s -> monitors s = [] -> h_clients s !! cl = Some c -> h_msgs s !! ub = Some u ->
  owners (h_clients s) ub = 0 -> ub_refcount u = USES_EXTERNAL_BUFFER -> carried c s0 s ->
  wp (ubus_msg_send cl ub;; ubus_msg_free ub) (fun _ => delivered s0 cl c (wire u)) s.
Proof.
  intros Hm Hl Hmon Hc Hu Ho Hx Es. apply wp_bind.
  eapply wp_mono; [|apply wp_and; [by eapply (send_stream (ub :: ext))|eapply (msg_send_spec (ub :: ext)); [done..|by split; [|left]]]].
  intros [] s1 [Hd [Hm1 Hio1 _ Ho1]].
  eapply wp_mono; [|apply (pres_wp (fun s => (os_sent (os s), os_alloc (os s)))); [unfold ubus_msg_free; solve_pres|exact (msg_free_spec ext ub s1 Hm1)]].
  intros [] s2 [(_ & Hio2 & Ec2) [= Eo2 Ea2]]. eapply delivered_carried; [exact Es|]. eapply delivered_later; [|exact Hd].
  intros c1 Hc1. rewrite Ec2. split; [done|]. split; [done| |intros b; by rewrite Ea2]. intros m Hin. unfold wire_at.
  destruct (queued_live _ _ _ _ _ Hm1 Hc1 Hin) as [v Hv].
  rewrite Hv, (io_msgs _ _ _ Hio2 m v); [done| |done]. intros ->%list_elem_of_singleton.
  by eapply (unowned_not_queued s1 cl c1 ub); [|rewrite Ho1|].
Qed.

(** The header of a reply: the sequence number and peer of the request *)
Definition reply_hdr (u : ubus_msg_buf) (type : ubus_msg_type) : ubus_msghdr :=
  mk_msghdr 0 type (hdr_seq (ub_hdr u)) (hdr_peer (ub_hdr u)).

(** The wire image of a message that carries the attributes [b] *)
Definition wire_of (h : ubus_msghdr) (b : list put) : bytes := encode_hdr h ++ blob_render b.

Lemma send_blob_stream ext b cl c ub u type s :
  minv ext s -> mon_live s -> monitors s = [] -> h_clients s !! cl = Some c -> h_msgs s !! ub = Some u ->
  wp (ubus_proto_send_msg_from_blob b cl ub type) (fun _ => delivered s cl c (wire_of (reply_hdr u type) b)) s.
Proof.
  intros Hm Hl Hmon Hc Hu. unfold ubus_proto_send_msg_from_blob, ubus_reply_from_blob.
  assert (forall m, m ∈ cl_tx_queue c -> is_Some (h_msgs s !! m)) as Hlive.
  { intros m. by eapply queued_live. }
  apply wp_bind. eapply wp_load; [exact Hu|]. apply wp_bind, wp_bind.
  eapply wp_mono; [|apply (pres_wp (fun s => (os_sent (os s), monitors s))); [unfold ubus_msg_from_blob, ubus_msg_new; solve_pres|by apply wp_known, from_blob_spec]].
  intros [n|] s1 [[(Hio & Hcl & H) Erun] [= Eo Emon]]; apply msg_new_none in Erun as [Hno Hal].
  2:{ apply wp_ret. assert (delivered s cl c (wire_of (reply_hdr u type) b) s1) as Hd.
      { exists c. rewrite Hcl. split; [done|]. split; [done|].
        apply fate_dropped; [right; left; by apply Hno|]. apply carried_stream. split; [done| |done]. intros m Hin.
        destruct (Hlive m Hin) as [v Hv]. unfold wire_at. by rewrite Hv, (io_msgs _ _ _ Hio m v ltac:(set_solver) Hv). }
      unfold when. case_match; [|by apply wp_ret]. apply wp_modify. exact Hd. }
  destruct H as (Hm1 & Hfresh & Hnew & Hown).
  assert (h_msgs s1 !! ub = Some u) as Hu1 by (eapply io_msgs; [exact Hio|set_solver|done]).
  apply wp_bind. eapply wp_load; [exact Hu1|]. apply wp_bind. eapply wp_store; [exact Hnew|]. apply wp_ret.
  apply wp_bind. eapply wp_store; [apply lookup_insert_eq|].
  set (s2 := set_heap (insert n _) s1). set (u2 := new_msg _ _ _ <| ub_hdr := _ |>).
  set (u3 := u2 <| ub_hdr ::= _ |> <| ub_fd := ub_fd u |>). set (s3 := set_heap (insert n _) s2).
  replace (wire_of (reply_hdr u type) b) with (wire u3).
  2:{ unfold wire, wire_of. simpl. rewrite <- (blob_render_len b), Nat2Z.id, take_ge by done. done. }
  assert (minv (n :: ext) s2) as Hm2 by (eapply (minv_upd_msg _ s1); [exact Hnew|done|by split|done]).
  apply (send_fresh_stream ext cl c n u3 s s3).
  - eapply (minv_upd_msg _ s2); [apply lookup_insert_eq|done|by split|done].
  - intros m Hin. simpl in Hin. rewrite Emon, Hmon in Hin. by apply not_elem_of_nil in Hin.
  - simpl. by rewrite Emon.
  - simpl. by rewrite Hcl.
  - apply lookup_insert_eq.
  - done.
  - done.
  - split; [done| |done]. intros m Hin. destruct (Hlive m Hin) as [v Hv]. unfold wire_at. simpl.
    rewrite !lookup_insert_ne by congruence. by rewrite Hv, (io_msgs _ _ _ Hio m v ltac:(set_solver) Hv).
Qed.
End Delivery.

(** ** Theorems *)

Section ProtoThms.
Context `{AL : AvlLib} `{BL : BlobLib} `{!AvlLaws AL} `{!BlobLaws BL}.
Implicit Types (s : ubusd).

(** An object without a path may be called by everybody who knows its id. *)
Definition may_call (b : bus) (who : ptr) (o : ubus_object) (method : string) : Prop :=
  match obj_path o with
  | None => True
  | Some key => allowed b who key (Some method) UBUS_ACL_ACCESS
  end.

Lemma check_call W s cl o method :
  wf W s -> is_Some (h_clients s !! cl) ->
  exists r, ubusd_acl_check (Some cl) (obj_path o) (Some method) UBUS_ACL_ACCESS s = Some (r, s) /\
    (r = 0%Z <-> may_call (bus_of s) cl o method).
Proof.
  intros Hw Hcl. unfold may_call. destruct (obj_path o) as [key|].
  - destruct (acl_check_allowed W s cl key (Some method) UBUS_ACL_ACCESS Hw Hcl) as (r & E & _ & H); [eauto|]. eauto.
  - exists 0%Z. destruct Hcl as [c Hc]. unfold ubusd_acl_check, mbind, stm_bind, load. simpl. by rewrite Hc.
Qed.

(** Changing a message that is in no queue *)
Lemma unqueued_carried s cl c ub u :
  h_clients s !! cl = Some c -> owners (h_clients s) ub = 0 -> carried c s (s <| h_msgs ::= insert ub u |>).
Proof.
  intros Hc Ho. split; [done| |by intros b]. intros m Hin. unfold wire_at. simpl. rewrite lookup_insert_ne; [done|].
  intros <-. by eapply unowned_not_queued.
Qed.

Lemma run_same {A} (m : stm ubusd A) a s : wp m (fun x s' => x = a /\ s' = s) s -> m s = Some (a, s).
Proof. intros H. by destruct (wp_run _ _ _ H) as (x & s' & E & -> & ->). Qed.

Lemma run_to {A} (m : stm ubusd A) a (P : ubusd -> Prop) s :
  wp m (fun x s' => x = a /\ P s') s -> exists s', m s = Some (a, s') /\ P s'.
Proof. intros H. destruct (wp_run _ _ _ H) as (x & s' & E & -> & Hp). eauto. Qed.

(** The message in hand gets a new header. *)
Lemma store_hand ext s ub u f :
  minv (ub :: ext) s -> h_msgs s !! ub = Some u -> monitors s = [] ->
  minv (ub :: ext) (s <| h_msgs ::= insert ub (u <| ub_hdr ::= f |>) |>) /\
  mon_live (s <| h_msgs ::= insert ub (u <| ub_hdr ::= f |>) |>).
Proof.
  intros Hm Hu Hmon. split; [eapply minv_upd_msg; [exact Hu|done|by split|done]|].
  intros m Hin. simpl in Hin. rewrite Hmon in Hin. by apply not_elem_of_nil in Hin.
Qed.

(** The part of [ubusd_handle_invoke] that forwards a call *)
Lemma forward_call s cl c ub u p o ocl oc method data :
  minv [ub] s -> h_clients s !! cl = Some c -> h_msgs s !! ub = Some u -> owners (h_clients s) ub = 0 ->
  h_objects s !! p = Some o -> obj_client o = Some ocl -> h_clients s !! ocl = Some oc -> monitors s = [] ->
  wp (c ← load (T := ubus_client) cl;
      store ub (fun m => m <| ub_hdr ::= fun h => h <| hdr_peer := cl_id c |> |>);;
      ubusd_forward_invoke [] cl p method ub data;;
      store ub (fun m => m <| ub_fd := (-1)%Z |>);;
      mret (-1)%Z) (fun x s' => x = (-1)%Z /\
    delivered s ocl oc (wire_of (mk_msghdr 0 UBUS_MSG_INVOKE (hdr_seq (ub_hdr u)) (cl_id c))
      (invoke_puts c (obj_id o) method data)) s') s.
Proof.
  intros Hm Hc Hu Hown Ho Hocl Hoc Hmon. apply wp_bind. eapply wp_load; [exact Hc|].
  apply wp_bind. eapply wp_store; [exact Hu|]. set (u1 := u <| ub_hdr ::= _ |>). set (s1 := set_heap _ _).
  destruct (store_hand [] s ub u (fun h => h <| hdr_peer := cl_id c |>) Hm Hu Hmon) as [Hm1 Hl1].
  assert (h_msgs s1 !! ub = Some u1) as Hu1 by apply lookup_insert_eq.
  apply wp_bind. unfold ubusd_forward_invoke. apply wp_bind. eapply wp_load; [exact Hc|].
  apply wp_bind. eapply wp_load; [exact Ho|]. rewrite Hocl.
  eapply wp_mono; [|apply wp_and; [by eapply (send_blob_stream [ub] _ ocl oc ub u1 UBUS_MSG_INVOKE s1)
    |by apply (send_msg_from_blob_spec [ub]); [done|done|exists oc|exists u1]]].
  intros [] s2 [Hd Hq]. pose proof (quiet_msg _ _ _ _ u1 Hq Hu1) as Hu2.
  apply wp_bind. eapply wp_store; [exact Hu2|]. apply wp_ret. split; [done|].
  assert (owners (h_clients s2) ub = 0) as Ho2.
  { rewrite <- Hown. exact (io_owners _ _ _ (quiet_io _ _ _ Hq) ub ltac:(set_solver) (ex_intro _ u1 Hu1)). }
  eapply delivered_carried; [exact (unqueued_carried s ocl oc ub u1 Hoc Hown)|]. eapply delivered_later; [|exact Hd].
  intros c2 Hc2. split; [exact Hc2|]. by eapply unqueued_carried.
Qed.

(** A call that the rules permit *)
Lemma invoke_permitted s cl c ub u attr am aid p o ocl oc :
  inv idle [ub] s -> h_clients s !! cl = Some c -> h_msgs s !! ub = Some u -> owners (h_clients s) ub = 0 ->
  attr UBUS_ATTR_METHOD = Some am -> attr UBUS_ATTR_OBJID = Some aid ->
  ubus_find_id (objects s) (blob_get_u32 aid) = Some p -> h_objects s !! p = Some o ->
  may_call (bus_of s) cl o (blob_string am) -> obj_client o = Some ocl -> h_clients s !! ocl = Some oc -> monitors s = [] ->
  exists s', ubusd_handle_invoke cl ub attr s = Some ((-1)%Z, s') /\
    delivered s ocl oc (wire_of (mk_msghdr 0 UBUS_MSG_INVOKE (hdr_seq (ub_hdr u)) (cl_id c))
      (invoke_puts c (obj_id o) (blob_string am) (attr UBUS_ATTR_DATA))) s'.
Proof.
  intros [Hm Hw] Hc Hu Hown Ham Haid Hfind Ho Hmay Hocl Hoc Hmon. apply run_to.
  destruct (check_call idle s cl o (blob_string am) Hw ltac:(eauto)) as (r & Er & Hiff).
  unfold ubusd_handle_invoke. rewrite Ham, Haid. apply wp_bind, wp_gets. rewrite Hfind.
  apply wp_bind. eapply wp_load; [exact Ho|]. apply wp_bind. eapply wp_eq; [exact Er|].
  apply Hiff in Hmay as ->. simpl negb. cbv iota. rewrite Hocl. by apply (forward_call s cl c ub u p o).
Qed.


(** The attribute that the type of a response requires *)
Definition response_complete (u : ubus_msg_buf) (attr : attrs) : bool :=
  negb ((hdr_type (ub_hdr u) =? UBUS_MSG_STATUS)%Z && bool_decide (attr UBUS_ATTR_STATUS = None))
  && negb ((hdr_type (ub_hdr u) =? UBUS_MSG_DATA)%Z && bool_decide (attr UBUS_ATTR_DATA = None)).

(** A complete response for the sender's own object *)
Lemma response_forwarded s cl ub u attr aid p o peer :
  inv idle [ub] s -> h_msgs s !! ub = Some u -> owners (h_clients s) ub = 0 ->
  attr UBUS_ATTR_OBJID = Some aid -> response_complete u attr = true ->
  ubus_find_id (objects s) (blob_get_u32 aid) = Some p -> h_objects s !! p = Some o -> obj_client o = Some cl ->
  monitors s = [] -> ubus_find_id (clients s) (hdr_peer (ub_hdr u)) = Some peer ->
  exists pc s', h_clients s !! peer = Some pc /\ ubusd_handle_response cl ub attr s = Some ((-1)%Z, s') /\
    delivered s peer pc (wire (u <| ub_hdr ::= fun h => h <| hdr_peer := blob_get_u32 aid |> |>)) s'.
Proof.
  intros [Hm Hw] Hu Hown Haid Hok Hp Ho Hocl Hmon Epeer. unfold response_complete in Hok. rewrite <- negb_orb in Hok.
  apply negb_true_iff in Hok. unfold ubusd_handle_response. rewrite Haid.
  pose proof Epeer as Hpc. apply (tree_ok_find _ _ _ _ (wf_clients _ _ Hw)), fmap_Some_2 in Hpc as (pc & Hpc & _).
  match goal with |- exists _ _, _ /\ ?m s = _ /\ _ =>
    destruct (run_to m (-1)%Z (delivered s peer pc (wire (u <| ub_hdr ::= fun h => h <| hdr_peer := blob_get_u32 aid |> |>))) s)
      as (s' & E & Hd) end; [|exists pc, s'; done].
  apply wp_bind. eapply wp_load; [exact Hu|]. rewrite Hok. apply wp_bind, wp_gets. rewrite Hp.
  apply wp_bind. eapply wp_load; [exact Ho|]. rewrite bool_decide_true by done. simpl negb. cbv iota.
  apply wp_bind, wp_gets. rewrite Epeer. apply wp_bind. eapply wp_store; [exact Hu|].
  destruct (store_hand [] s ub u (fun h => h <| hdr_peer := blob_get_u32 aid |>) Hm Hu Hmon) as [Hm1 _].
  apply wp_bind. eapply wp_mono; [|eapply (send_stream [ub] peer pc ub _ _ Hm1); [exact Hmon|exact Hpc|apply lookup_insert_eq]].
  intros [] s2 Hd. apply wp_ret. split; [done|]. eapply delivered_carried; [|exact Hd]. by eapply unqueued_carried.
Qed.

(** Responses cannot be forged.  A DATA or STATUS message that names no
    object, lacks its payload, or names an object that is not the sender's own
    is dropped without any effect.  Otherwise it goes unchanged, except that the
    peer becomes the object's id, to the client it is addressed to, if there is
    one.  Nothing is ever answered to the responder. *)
Theorem response_routed s cl ub u attr :
  inv idle [ub] s -> h_msgs s !! ub = Some u -> owners (h_clients s) ub = 0 ->
  (attr UBUS_ATTR_OBJID = None \/ response_complete u attr = false ->
   ubusd_handle_response cl ub attr s = Some ((-1)%Z, s)) /\
  (forall aid, attr UBUS_ATTR_OBJID = Some aid ->
   (forall p o, ubus_find_id (objects s) (blob_get_u32 aid) = Some p -> h_objects s !! p = Some o -> obj_client o <> Some cl) ->
   ubusd_handle_response cl ub attr s = Some ((-1)%Z, s)) /\
  (forall aid p o, attr UBUS_ATTR_OBJID = Some aid -> response_complete u attr = true ->
   ubus_find_id (objects s) (blob_get_u32 aid) = Some p -> h_objects s !! p = Some o -> obj_client o = Some cl ->
   monitors s = [] ->
   match ubus_find_id (clients s) (hdr_peer (ub_hdr u)) with
   | None => ubusd_handle_response cl ub attr s = Some ((-1)%Z, s)
   | Some peer => exists pc s', h_clients s !! peer = Some pc /\
       ubusd_handle_response cl ub attr s = Some ((-1)%Z, s') /\
       delivered s peer pc (wire (u <| ub_hdr ::= fun h => h <| hdr_peer := blob_get_u32 aid |> |>)) s'
   end).
Proof.
  intros Hi Hu Hown. pose proof Hi as [Hm Hw]. split; [|split].
  - unfold response_complete, ubusd_handle_response. rewrite <- negb_orb. intros Hno. apply run_same, wp_bind. eapply wp_load; [exact Hu|]. destruct (attr UBUS_ATTR_OBJID); [|by apply wp_ret].
    destruct Hno as [?|Hno%negb_false_iff]; [done|]. rewrite Hno. by apply wp_ret.
  - intros aid Haid Hno. unfold ubusd_handle_response. rewrite Haid. apply run_same, wp_bind. eapply wp_load; [exact Hu|].
    destruct (_ || _); [by apply wp_ret|]. apply wp_bind, wp_gets. destruct (ubus_find_id _ _) as [p|] eqn:Ef; [|by apply wp_ret].
    pose proof Ef as Hp. apply (tree_ok_find _ _ _ _ (wf_objects _ _ Hw)), fmap_Some_2 in Hp as (o & Ho & _).
    apply wp_bind. eapply wp_load; [exact Ho|]. rewrite bool_decide_false by (by eapply Hno). by apply wp_ret.
  - intros aid p o Haid Hok Hp Ho Hocl Hmon. destruct (ubus_find_id (clients s) _) as [peer|] eqn:Epeer.
    + by eapply response_forwarded.
    + unfold response_complete in Hok. rewrite <- negb_orb in Hok. apply negb_true_iff in Hok.
      unfold ubusd_handle_response. rewrite Haid. apply run_same, wp_bind. eapply wp_load; [exact Hu|]. rewrite Hok.
      apply wp_bind, wp_gets. rewrite Hp. apply wp_bind. eapply wp_load; [exact Ho|]. rewrite bool_decide_true by done. simpl negb. cbv iota.
      apply wp_bind, wp_gets. rewrite Epeer. by apply wp_ret.
Qed.

(** Subscribing does not reveal hidden objects: when the client asks to
    watch an id that does not exist, one of the daemon's own objects, or an
    object that it may not subscribe to (by the rules, or without a path by user
    and group), the answer is the same NOT_FOUND and nothing changes. *)
Theorem watch_hidden s cl ub attr aid atg p o :
  inv idle [ub] s -> attr UBUS_ATTR_OBJID = Some aid -> attr UBUS_ATTR_TARGET = Some atg ->
  ubus_find_id (objects s) (blob_get_u32 aid) = Some p -> h_objects s !! p = Some o -> obj_client o = Some cl ->
  is_Some (h_clients s !! cl) ->
  (forall q t, ubus_find_id (objects s) (blob_get_u32 atg) = Some q -> bus_objects (bus_of s) !! q = Some t ->
     po_owner t <> cl /\ ~ may_watch (bus_of s) cl t) ->
  ubusd_handle_add_watch cl ub attr s = Some (UBUS_STATUS_NOT_FOUND : Z, s).
Proof.
  intros [Hm Hw] Haid Hatg Hp Ho Hoc [c Hc] Hhid. apply run_same. unfold ubusd_handle_add_watch. rewrite Haid, Hatg.
  apply wp_bind, wp_gets. rewrite Hp. apply wp_bind. eapply wp_load; [exact Ho|]. rewrite bool_decide_true by done.
  simpl negb. cbv iota. apply wp_bind, wp_gets. destruct (ubus_find_id (objects s) (blob_get_u32 atg)) as [q|] eqn:Eq; [|by apply wp_ret].
  pose proof Eq as Ht. apply (tree_ok_find _ _ _ _ (wf_objects _ _ Hw)), fmap_Some_2 in Ht as (t & Ht & _).
  apply wp_bind. eapply wp_load; [exact Ht|]. destruct (obj_client t) as [tcl|] eqn:Etc; [|by apply wp_ret].
  destruct (Hhid q _ eq_refl (bus_object s q t tcl Ht Etc)) as [Hne Hno]. simpl in Hne. rewrite bool_decide_false by done.
  unfold may_watch in Hno. simpl in Hno. apply wp_bind. destruct (obj_path t) as [key|].
  - destruct (acl_check_allowed idle s cl key None UBUS_ACL_SUBSCRIBE Hw) as (r & Er & _ & Hiff); [eauto|done|].
    apply wp_bind. eapply wp_eq; [exact Er|]. apply wp_ret. destruct (Z.eqb_spec r 0) as [E|]; [by apply Hiff in E|by apply wp_ret].
  - destruct (wf_client_live idle s q t tcl Ht Etc Hw) as [tc Htc].
    apply wp_bind. eapply wp_load; [exact Hc|]. apply wp_bind. eapply wp_load; [exact Htc|]. apply wp_ret.
    destruct (_ || _) eqn:En; [|by apply wp_ret]. exfalso. apply Hno. exists (cred_of c), (cred_of tc).
    split; [by apply bus_user|]. split; [by apply bus_user|].
    apply orb_true_iff in En as [En%same_name_eq|En%same_name_eq]; [by left|by right].
Qed.

(** *** Looking objects up *)

(** [ms] are the methods of [l] that the client may call, in order. *)
Inductive visible (b : bus) (who : ptr) (key : string) : list ubus_method -> list ubus_method -> Prop :=
  | visible_nil : visible b who key [] []
  | visible_show m l ms :
      allowed b who key (Some (blobmsg_name (m_data m))) UBUS_ACL_ACCESS ->
      visible b who key l ms -> visible b who key (m :: l) (m :: ms)
  | visible_hide m l ms :
      ~ allowed b who key (Some (blobmsg_name (m_data m))) UBUS_ACL_ACCESS ->
      visible b who key l ms -> visible b who key (m :: l) ms.

Lemma visible_methods_exact W s cl key l :
  wf W s -> is_Some (h_clients s !! cl) ->
  exists ms, visible (bus_of s) cl key l ms /\
    visible_methods cl key l s = Some ((fun m => msg_blob (m_data m)) <$> ms, s).
Proof.
  intros Hw Hcl. induction l as [|m l (ms & Hv & IH)]; [exists []; split; [constructor|done]|].
  destruct (acl_check_allowed W s cl key (Some (blobmsg_name (m_data m))) UBUS_ACL_ACCESS Hw Hcl) as (r & E & _ & Hiff); [eauto|].
  cbn [visible_methods]. unfold mbind, stm_bind. rewrite E, IH. destruct (Z.eqb_spec r 0) as [E0|Hne].
  - exists (m :: ms). split; [constructor; [by apply Hiff|done]|done].
  - exists ms. split; [|done]. apply visible_hide; [|done]. by intros H%Hiff.
Qed.

(** C27: A lookup shows a client only what it may use: for an object with a type
    the reply carries the path, the ids and exactly the methods the client may
    call, in order, and is appended to what the client reads unless the client is
    [refused] more (its connection is being given up, an allocation fails, or the
    reply does not fit the room in its queue); if the object has methods but none
    of them is for this client, nothing is sent and nothing changes, as if it did
    not exist.  (No monitor is attached, which would be sent a copy first.) *)
Theorem lookup_visible s cl c ub u p o key t ty :
  inv idle [ub] s -> h_clients s !! cl = Some c -> h_msgs s !! ub = Some u -> monitors s = [] ->
  h_objects s !! p = Some o -> obj_path o = Some key -> obj_type o = Some t -> h_types s !! t = Some ty ->
  exists ms, visible (bus_of s) cl key (type_methods ty) ms /\
    if decide (ms = [] /\ type_methods ty <> []) then ubusd_send_obj cl ub p s = Some (tt, s)
    else exists s', ubusd_send_obj cl ub p s = Some (tt, s') /\
      delivered s cl c (wire_of (reply_hdr u UBUS_MSG_DATA)
        [put_string UBUS_ATTR_OBJPATH key; put_int32 UBUS_ATTR_OBJID (obj_id o); put_int32 UBUS_ATTR_OBJTYPE (type_id ty);
         put_nest UBUS_ATTR_SIGNATURE ((fun m => msg_blob (m_data m)) <$> ms)]) s'.
Proof.
  intros [Hm Hw] Hc Hu Hmon Ho Hk Ht Hty.
  destruct (visible_methods_exact idle s cl key (type_methods ty) Hw ltac:(eauto)) as (ms & Hv & E). exists ms. split; [done|].
  assert (mon_live s) as Hl by exact (wf_mon _ _ Hw).
  assert (bool_decide ((fun m => msg_blob (m_data m)) <$> ms <> []) || bool_decide (type_methods ty = []) =
    negb (bool_decide (ms = [] /\ type_methods ty <> []))) as Eb.
  { apply eq_true_iff_eq. rewrite orb_true_iff, negb_true_iff, bool_decide_eq_false, !bool_decide_eq_true.
    destruct ms, (type_methods ty); simpl; naive_solver. }
  destruct (decide _) as [Hno|Hyes]; [apply run_same|apply run_to]; unfold ubusd_send_obj.
  all: apply wp_bind; eapply wp_load; [exact Ho|]; rewrite Ht; apply wp_bind; eapply wp_load; [exact Hty|]; rewrite Hk.
  all: apply wp_bind; eapply wp_eq; [exact E|]; rewrite Eb.
  - rewrite bool_decide_true by done. by apply wp_ret.
  - rewrite bool_decide_false by done. simpl negb. cbv iota.
    eapply wp_mono; [|by eapply (send_blob_stream [ub])]. by intros [] s' H.
Qed.

(** Between a prefix and a string it starts, everything starts with it. *)
Lemma prefix_between q k k' :
  (strcmp q k <= 0)%Z -> (strcmp k k' <= 0)%Z -> starts_with q k' = true -> starts_with q k = true.
Proof.
  unfold starts_with. revert k k'. induction q as [|a q IH]; intros k k'; [by destruct k|].
  destruct k' as [|b' k']; [done|]. destruct k as [|b k]; simpl; [done|].
  destruct (Ascii.ascii_dec a b') as [<-|]; [|done].
  destruct (Ascii.ascii_dec a b) as [<-|Hne].
  - rewrite !decide_True by done. apply IH.
  - rewrite decide_False by done. rewrite (decide_False (P := b = a)) by congruence. intros H1 H2.
    destruct Hne. apply char_code_inj. lia.
Qed.

Lemma filter_none {A} (P : A -> Prop) `{!forall x, Decision (P x)} (l : list A) :
  (forall x, x ∈ l -> ~ P x) -> filter P l = [].
Proof.
  induction l as [|x l IH]; intros Hn; [done|]. rewrite filter_cons_False by (apply Hn; by left).
  apply IH. intros y Hy. apply Hn. by right.
Qed.

Lemma prefix_loop_all cl ub q found l s :
  key_sorted l -> (forall e, e ∈ l -> (strcmp q e.1 <= 0)%Z) ->
  lookup_prefix_loop cl ub q found l s =
    (for_each (filter (fun e => starts_with q e.1 = true) l) (fun e => ubusd_send_obj cl ub e.2);;
     mret (found || bool_decide (filter (fun e => starts_with q e.1 = true) l <> []))) s.
Proof.
  revert found s. induction l as [|[k p] l IH]; intros found s Hs Hge; [by destruct found|].
  apply StronglySorted_inv in Hs as [Hs Hall]. cbn [lookup_prefix_loop]. destruct (starts_with q k) eqn:Ek.
  - rewrite filter_cons_True by done. cbn [for_each]. unfold mbind, stm_bind. simpl snd.
    destruct (ubusd_send_obj cl ub p s) as [[[] s1]|]; [|done].
    rewrite (IH true s1 Hs) by (intros; apply Hge; by right). unfold mbind, stm_bind. by rewrite orb_true_r.
  - rewrite filter_cons_False by (simpl; congruence). rewrite filter_none; [by rewrite orb_false_r|].
    intros e He Hq. rewrite Forall_forall in Hall. rewrite (prefix_between q k e.1) in Ek; [done| |by apply Hall|done].
    apply (Hge (k, p)). by left.
Qed.

Lemma find_split {A} (f : A -> bool) (l : list A) x :
  List.find f l = Some x -> exists l1 l2, l = l1 ++ x :: l2 /\ f x = true /\ forall y, y ∈ l1 -> f y = false.
Proof.
  induction l as [|y l IH]; simpl; [done|]. destruct (f y) eqn:E.
  - intros [= ->]. exists [], l. split; [done|]. split; [done|]. intros z Hz. by apply not_elem_of_nil in Hz.
  - intros (l1 & l2 & -> & Hx & H)%IH. exists (y :: l1), l2. split; [done|]. split; [done|].
    intros z [->|Hz]%elem_of_cons; auto.
Qed.

Lemma sorted_suffix {A} (R : A -> A -> Prop) l1 l2 : StronglySorted R (l1 ++ l2) -> StronglySorted R l2.
Proof. induction l1 as [|x l1 IH]; [done|]. by intros [H _]%StronglySorted_inv; apply IH. Qed.

Lemma from_node_app {K} (p : ptr) (k : K) l1 l2 :
  (forall e, e ∈ l1 -> e.2 <> p) -> from_node p (l1 ++ (k, p) :: l2) = (k, p) :: l2.
Proof.
  induction l1 as [|e l1 IH]; intros Hne; simpl; [by rewrite decide_True|].
  rewrite decide_False by (apply Hne; by left). apply IH. intros e' He'. apply Hne. by right.
Qed.

(** The tail of the tree that [avl_find_ge_element] and the loop run through *)
Lemma find_ge_tail W s q :
  wf W s ->
  match avl_find_ge (path s) q with
  | None => forall e, e ∈ avl_list (path s) -> (strcmp e.1 q < 0)%Z
  | Some p => exists l1, avl_list (path s) = l1 ++ from_node p (avl_list (path s)) /\
      (forall e, e ∈ l1 -> (strcmp e.1 q < 0)%Z) /\
      (forall e, e ∈ from_node p (avl_list (path s)) -> (strcmp q e.1 <= 0)%Z)
  end.
Proof.
  intros Hw. rewrite (avl_find_ge_spec _ _ _ _ _ _ _). pose proof (tree_in _ _ (wf_path _ _ Hw)) as Hin.
  pose proof (avl_list_sorted _ _ _ _ (path s) _) as Hs. set (l := avl_list (path s)) in *.
  destruct (List.find _ l) as [[k p]|] eqn:E.
  2:{ intros e He%list_elem_of_In. pose proof (List.find_none _ _ E e He) as H. simpl in H. lia. }
  apply find_split in E as (l1 & l2 & El & Hk & H1). simpl in Hk. cbn [fmap option_fmap option_map snd].
  assert (from_node p l = (k, p) :: l2) as Ef.
  { rewrite El. apply from_node_app. intros [k' p'] He Ep. simpl in Ep. subst p'. specialize (H1 _ He). simpl in H1.
    assert ((k', p) ∈ l /\ (k, p) ∈ l) as [Hin1%Hin Hin2%Hin] by (rewrite El; set_solver).
    assert (k' = k) as -> by congruence. congruence. }
  exists l1. rewrite Ef. split; [done|]. split; [intros e He; specialize (H1 e He); simpl in H1; lia|].
  assert (strcmp q k <= 0)%Z as Hqk.
  { destruct (Z.le_gt_cases (strcmp q k) 0) as [|Hgt]; [done|]. apply strcmp_opp in Hgt. lia. }
  rewrite El in Hs. apply sorted_suffix, StronglySorted_inv in Hs as [_ Hall]. intros e [->|He]%elem_of_cons; [done|].
  rewrite Forall_forall in Hall. eapply strcmp_trans; [exact Hqk|]. by apply (Hall e).
Qed.

(** C28: A lookup with a trailing star lists exactly the objects whose path
    starts with what precedes the star, in the order of their paths, and answers
    NOT_FOUND if there is none: starting at the first path not below the prefix
    and stopping at the first that does not start with it misses nothing. *)
Theorem lookup_prefix_exact s cl ub attr cmd a q :
  reachable s -> attr UBUS_ATTR_OBJPATH = Some a -> split_last (blob_string a) = Some (q, star) ->
  let found := filter (fun e => starts_with q e.1 = true) (avl_list (path s)) in
  handle_lookup_cmd cl ub attr cmd s =
    (for_each found (fun e => ubusd_send_obj cl ub e.2);;
     mret (if decide (found = []) then (UBUS_STATUS_NOT_FOUND : Z) else 0%Z)) s.
Proof.
  intros Hs Ha Hq found. pose proof (inv_wf _ _ _ (reachable_inv s Hs)) as Hw.
  pose proof (find_ge_tail idle s q Hw) as Htail.
  pose proof (avl_list_sorted _ _ _ _ (path s) _) as Hsorted.
  unfold handle_lookup_cmd. unfold mbind at 1, stm_bind at 1, gets. rewrite Ha, Hq, bool_decide_true by done. cbn [negb].
  destruct (avl_find_ge (path s) q) as [p|].
  - destruct Htail as (l1 & El & H1 & Hge). set (l2 := from_node p (avl_list (path s))) in *.
    assert (found = filter (fun e => starts_with q e.1 = true) l2) as Ef.
    { unfold found. rewrite El, filter_app, filter_none; [done|]. intros e He Hq'%prefix_le. specialize (H1 e He).
      apply strcmp_opp in H1. lia. }
    assert (key_sorted l2) as Hs2.
    { rewrite El in Hsorted. by apply sorted_suffix in Hsorted. }
    pose proof (prefix_loop_all cl ub q false l2 s Hs2 Hge) as Eloop. rewrite <- Ef in Eloop.
    unfold mbind, stm_bind in *. cbn [negb]. rewrite Eloop. destruct (for_each found _ s) as [[[] s1]|]; [|done]. simpl.
    destruct (decide (found = [])) as [->|Hne]; [done|]. by rewrite bool_decide_true.
  - assert (found = []) as ->.
    { apply filter_none. intros e He Hq'%prefix_le. specialize (Htail e He). apply strcmp_opp in Htail. lia. }
    rewrite decide_True by done. done.
Qed.

(** *** Answers *)

(** The client's reply message as [ubusd_proto_init_retmsg] made it, whatever
    status it last carried *)
Definition status_message (ur : ubus_msg_buf) : Prop :=
  hdr_version (ub_hdr ur) = 0%Z /\ hdr_type (ub_hdr ur) = UBUS_MSG_STATUS /\
  ub_len ur = Z.of_nat (length (ub_data ur)) /\ exists v, ub_data ur = blob_render [put_int32 UBUS_ATTR_STATUS v].

Lemma status_message_hdr ur f :
  (forall h, hdr_version (f h) = hdr_version h /\ hdr_type (f h) = hdr_type h) ->
  status_message ur -> status_message (ur <| ub_hdr ::= f |>).
Proof. intros Hf (H1 & H2 & H3). destruct (Hf (ub_hdr ur)) as [E1 E2]. split; [exact (eq_trans E1 H1)|]. split; [exact (eq_trans E2 H2)|done]. Qed.

(** The reply message is in no queue. *)
Lemma retmsg_unqueued ext s cl c r :
  minv ext s -> h_clients s !! cl = Some c -> cl_retmsg c = Some r -> r ∉ cl_tx_queue c.
Proof.
  intros Hm Hc Hr Hin. destruct (minv_own _ _ Hm r) as [Hle _]. rewrite (owners_delete _ cl c r Hc) in Hle.
  unfold client_refs in Hle. rewrite Hr in Hle. simpl in Hle. rewrite !cnt_app, cnt_cons, decide_True in Hle by done.
  apply cnt_pos in Hin. lia.
Qed.

Lemma send_retmsg_stream ext s cl c r ur ret :
  minv ext s -> monitors s = [] -> h_clients s !! cl = Some c -> cl_retmsg c = Some r -> h_msgs s !! r = Some ur ->
  status_message ur ->
  wp (send_retmsg cl r ret) (fun _ => delivered s cl c
    (wire_of (mk_msghdr 0 UBUS_MSG_STATUS (hdr_seq (ub_hdr ur)) (hdr_peer (ub_hdr ur))) [put_int32 UBUS_ATTR_STATUS ret])) s.
Proof.
  intros Hm Hmon Hc Hr Hur (Hv & Ht & Hlen & v & Hd). unfold send_retmsg. apply wp_bind. eapply wp_load; [exact Hur|].
  assert (12 <= length (ub_data ur)) as H12 by (rewrite Hd; apply render_int_len).
  apply wp_bind, wp_assert; [apply fits_spec; rewrite length_be32; lia|]. apply wp_bind. eapply wp_store; [exact Hur|].
  set (u1 := ur <| ub_data ::= _ |>). set (s1 := set_heap _ _).
  assert (minv ext s1) as Hm1.
  { eapply minv_upd_msg; [exact Hur|done| |done]. apply splice_like; [lia|rewrite length_be32; lia]. }
  assert (wire u1 = wire_of (mk_msghdr 0 UBUS_MSG_STATUS (hdr_seq (ub_hdr ur)) (hdr_peer (ub_hdr ur))) [put_int32 UBUS_ATTR_STATUS ret]) as <-.
  { assert (ub_hdr ur = mk_msghdr 0 UBUS_MSG_STATUS (hdr_seq (ub_hdr ur)) (hdr_peer (ub_hdr ur))) as <-.
    { destruct (ub_hdr ur) as [ver ty sq pr]. simpl in *. by subst. }
    assert (8 + length (be32 ret) <= length (ub_data ur)) as Hfit by (rewrite length_be32; lia).
    unfold wire, wire_of. change (ub_hdr u1) with (ub_hdr ur). f_equal.
    change (ub_data u1) with (splice 8 (be32 ret) (ub_data ur)). change (ub_len u1) with (ub_len ur).
    rewrite take_ge; [rewrite Hd; apply blob_render_poke|]. rewrite length_splice; lia. }
  eapply wp_mono; [|eapply (send_stream ext cl c r u1 s1 Hm1); [exact Hmon|exact Hc|apply lookup_insert_eq]].
  intros [] s2 Hdel. eapply delivered_carried; [|exact Hdel]. split; [done| |by intros b]. intros m Hin. unfold wire_at. simpl. rewrite lookup_insert_ne; [done|].
  intros <-. by eapply retmsg_unqueued.
Qed.

(** Closing a descriptor that came with the message in hand *)
Lemma close_fd_frame s ub u b :
  minv [ub] s -> h_msgs s !! ub = Some u ->
  wp (when b (ubus_msg_close_fd ub)) (fun _ s' => minv [ub] s' /\ h_clients s' = h_clients s /\ monitors s' = monitors s /\
    os_sent (os s') = os_sent (os s) /\ os_alloc (os s') = os_alloc (os s) /\ forall m, m <> ub -> h_msgs s' !! m = h_msgs s !! m) s.
Proof.
  intros Hm Hu. destruct b; unfold when; [|by apply wp_ret]. unfold ubus_msg_close_fd. apply wp_bind.
  eapply wp_load; [exact Hu|]. destruct (_ <? 0)%Z; [by apply wp_ret|]. apply wp_bind, wp_modify.
  eapply wp_store; [exact Hu|]. split; [|split; [done|split; [done|split; [done|split; [done|]]]]].
  - eapply (minv_upd_msg _ (s <| os ::= _ |>)); [exact Hu|done|by split|by apply minv_os].
  - intros m Hm'. simpl. by rewrite (lookup_insert_ne _ ub).
Qed.

(** A request of a type the daemon does not handle is not ignored: it is
    released, and the client is sent a STATUS message with the request's
    sequence number and peer that says INVALID_COMMAND. *)
Lemma unknown_answered s cl c ub u r ur :
  inv idle [ub] s -> h_clients s !! cl = Some c -> h_msgs s !! ub = Some u -> owners (h_clients s) ub = 0 ->
  monitors s = [] -> msg_of_code (hdr_type (ub_hdr u)) ≫= handlers = None ->
  cl_retmsg c = Some r -> h_msgs s !! r = Some ur -> status_message ur ->
  exists s', ubusd_proto_receive_message cl ub s = Some (tt, s') /\
    delivered s cl c (wire_of (mk_msghdr 0 UBUS_MSG_STATUS (hdr_seq (ub_hdr u)) (hdr_peer (ub_hdr u)))
      [put_int32 UBUS_ATTR_STATUS UBUS_STATUS_INVALID_COMMAND]) s'.
Proof.
  intros Hi Hc Hu Hown Hmon Hun Hr Hur Hst. pose proof Hi as [Hm Hw].
  assert (r <> ub) as Hne.
  { intros ->. assert (0 < owners (h_clients s) ub); [|lia]. apply (owners_pos _ cl c ub Hc). unfold client_refs. rewrite Hr. set_solver. }
  assert (forall m, m ∈ cl_tx_queue c -> m <> ub /\ m <> r /\ is_Some (h_msgs s !! m)) as Hq.
  { intros m Hin. split; [intros ->; by eapply unowned_not_queued|].
    split; [intros ->; by eapply retmsg_unqueued|by eapply queued_live]. }
  apply run_to. unfold ubusd_proto_receive_message, prepare_retmsg. apply wp_bind, wp_bind. eapply wp_load; [exact Hc|].
  apply wp_bind. eapply wp_load; [exact Hu|]. rewrite Hr. apply wp_bind. eapply wp_store; [exact Hur|]. apply wp_ret.
  set (f := fun h => h <| hdr_seq := _ |> <| hdr_peer := _ |>). set (s1 := set_heap _ _).
  assert (minv [ub] s1) as Hm1 by (eapply minv_upd_msg; [exact Hur|done|by split|done]).
  assert (h_msgs s1 !! ub = Some u) as Hu1 by (simpl; by rewrite lookup_insert_ne).
  apply wp_bind. eapply wp_load; [exact Hu1|]. rewrite Hun. apply wp_bind.
  eapply wp_mono; [|by apply (close_fd_frame s1 ub u)]. intros [] s2 (Hm2 & Ec2 & Emon2 & Eo2 & Ea2 & Em2).
  change (h_clients s1) with (h_clients s) in Ec2. change (monitors s1) with (monitors s) in Emon2. change (os s1) with (os s) in Eo2, Ea2.
  apply wp_bind, wp_ret. simpl Z.eqb. cbv iota. apply wp_bind.
  eapply wp_mono; [|apply (pres_wp (fun s => (os_sent (os s), os_alloc (os s), monitors s))); [unfold ubus_msg_free; solve_pres|by apply msg_free_spec]].
  intros [] s3 [(Hm3 & Hio3 & Ec3) [= Eo3 Ea3 Emon3]].
  assert (h_msgs s3 !! r = Some (ur <| ub_hdr ::= f |>)) as Hr3.
  { eapply (io_msgs _ _ _ Hio3); [set_solver|]. rewrite Em2 by done. apply lookup_insert_eq. }
  eapply wp_mono; [|eapply (send_retmsg_stream [] s3 cl c r _ UBUS_STATUS_INVALID_COMMAND); [done|congruence|congruence|done|exact Hr3|]].
  2:{ by apply status_message_hdr. }
  intros [] s4 Hd. split; [done|]. eapply delivered_carried; [|exact Hd].
  split; [congruence| |intros b; by rewrite Ea3, Ea2]. intros m Hin. destruct (Hq m Hin) as (N1 & N2 & [v Hv]).
  unfold wire_at. rewrite Hv, (io_msgs _ _ _ Hio3 m v); [done|set_solver|]. rewrite Em2 by done. simpl. by rewrite lookup_insert_ne.
Qed.
End ProtoThms.

(** ** The theorems at a concrete state *)


(** joe answers root for his object. *)
Lemma response_routed_witness :
  exists pc s', h_clients st10h !! cl_root = Some pc /\ ubusd_handle_response cl_joe hand hand_attr st10h = Some ((-1)%Z, s').
Proof.
  destruct (has_Some (h_msgs st10h !! hand)) as [u Hu]; [vm_compute; reflexivity|].
  destruct (has_Some (h_objects st10h !! 15%positive)) as [o Ho]; [vm_compute; reflexivity|].
  destruct (has_Some (hand_attr UBUS_ATTR_OBJID)) as [aid Haid]; [vm_compute; reflexivity|].
  pose proof Hu as Eu. vm_compute in Eu. injection Eu as Eu. pose proof Ho as Eo. vm_compute in Eo. injection Eo as Eo.
  pose proof Haid as Ei. vm_compute in Ei. injection Ei as Ei.
  destruct (response_routed st10h cl_joe hand u hand_attr (proj1 st10h_ok) Hu (proj2 st10h_ok)) as (_ & _ & H).
  specialize (H aid 15%positive o Haid).
  assert (ubus_find_id (clients st10h) (hdr_peer (ub_hdr u)) = Some cl_root) as Ep by (rewrite <- Eu; vm_compute; reflexivity).
  rewrite Ep in H. destruct H as (pc & s' & Hpc & E & _).
  - rewrite <- Eu. vm_compute. reflexivity.
  - rewrite <- Ei. vm_compute. reflexivity.
  - exact Ho.
  - rewrite <- Eo. reflexivity.
  - reflexivity.
  - exists pc, s'. exact (conj Hpc E).
Defined.

Lemma watch_hidden_witness : ubusd_handle_add_watch cl_joe hand hand_attr st10h = Some (4%Z, st10h).
Proof.
  destruct (has_Some (h_objects st10h !! 15%positive)) as [o Ho]; [vm_compute; reflexivity|].
  destruct (has_Some (hand_attr UBUS_ATTR_OBJID)) as [aid Haid]; [vm_compute; reflexivity|].
  destruct (has_Some (hand_attr UBUS_ATTR_TARGET)) as [atg Hatg]; [vm_compute; reflexivity|].
  pose proof Ho as Eo. vm_compute in Eo. injection Eo as Eo. pose proof Haid as Ei. vm_compute in Ei. injection Ei as Ei.
  pose proof Hatg as Et. vm_compute in Et. injection Et as Et.
  apply (watch_hidden st10h cl_joe hand hand_attr aid atg 15%positive o (proj1 st10h_ok) Haid Hatg).
  - rewrite <- Ei. vm_compute. reflexivity.
  - exact Ho.
  - rewrite <- Eo. reflexivity.
  - apply has_Some. vm_compute. reflexivity.
  - intros q t Hq. exfalso. revert Hq. rewrite <- Et.
    assert (forall x : option ptr, x = None -> x = Some q -> False) as Hno by congruence. apply Hno. vm_compute. reflexivity.
Defined.

Lemma lookup_visible_witness :
  exists ty ms, h_types st10h !! 14%positive = Some ty /\ visible (bus_of st10h) cl_joe "foo" (type_methods ty) ms.
Proof.
  destruct (has_Some (h_clients st10h !! cl_joe)) as [c Hc]; [vm_compute; reflexivity|].
  destruct (has_Some (h_msgs st10h !! hand)) as [u Hu]; [vm_compute; reflexivity|].
  destruct (has_Some (h_objects st10h !! 15%positive)) as [o Ho]; [vm_compute; reflexivity|].
  destruct (has_Some (h_types st10h !! 14%positive)) as [ty Hty]; [vm_compute; reflexivity|].
  pose proof Ho as Eo. vm_compute in Eo. injection Eo as Eo.
  destruct (lookup_visible st10h cl_joe c hand u 15%positive o "foo" 14%positive ty (proj1 st10h_ok) Hc Hu eq_refl Ho) as (ms & Hv & _).
  - rewrite <- Eo. reflexivity.
  - rewrite <- Eo. reflexivity.
  - exact Hty.
  - exists ty, ms. exact (conj Hty Hv).
Defined.

Lemma lookup_prefix_exact_witness :
  filter (fun e => starts_with "fo" e.1 = true) (avl_list (path st10)) = [("foo"%string, 15%positive)] /\
  exists attr, attr UBUS_ATTR_OBJPATH <> None /\
  handle_lookup_cmd cl_joe 11 attr None st10 =
    (for_each (filter (fun e => starts_with "fo" e.1 = true) (avl_list (path st10))) (fun e => ubusd_send_obj cl_joe 11 e.2);;
     mret (if decide (filter (fun e => starts_with "fo" e.1 = true) (avl_list (path st10)) = []) then 4%Z else 0%Z)) st10.
Proof.
  split; [vm_compute; reflexivity|].
  set (b := blob_render [put_string UBUS_ATTR_OBJPATH "fo*"]). exists (ubus_parse_msg b (blob_raw_len b)).
  destruct (has_Some (ubus_parse_msg b (blob_raw_len b) UBUS_ATTR_OBJPATH)) as [a Ha]; [vm_compute; reflexivity|].
  pose proof Ha as Ea. vm_compute in Ea. injection Ea as Ea. split; [rewrite Ha; discriminate|].
  apply (lookup_prefix_exact st10 cl_joe 11 _ None a "fo" st10_reachable Ha). rewrite <- Ea. vm_compute. reflexivity.
Defined.

Example unknown_answered_run :
  exists s', ubusd_proto_receive_message cl_joe hand st10h = Some (tt, s').
Proof.
  destruct (has_Some (h_clients st10h !! cl_joe)) as [c Hc]; [vm_compute; reflexivity|].
  destruct (has_Some (h_msgs st10h !! hand)) as [u Hu]; [vm_compute; reflexivity|].
  pose proof Hc as Ec. vm_compute in Ec. injection Ec as Ec. pose proof Hu as Eu. vm_compute in Eu. injection Eu as Eu.
  destruct (has_Some (cl_retmsg c)) as [r Hr]; [rewrite <- Ec; reflexivity|].
  destruct (has_Some (h_msgs st10h !! r)) as [ur Hur]; [rewrite <- Ec in Hr; injection Hr as <-; vm_compute; reflexivity|].
  destruct (unknown_answered st10h cl_joe c hand u r ur (proj1 st10h_ok) Hc Hu (proj2 st10h_ok) eq_refl) as (s' & E & _).
  - rewrite <- Eu. vm_compute. reflexivity.
  - exact Hr.
  - exact Hur.
  - rewrite <- Ec in Hr. injection Hr as <-. vm_compute in Hur. injection Hur as <-.
    split; [reflexivity|]. split; [reflexivity|]. split; [vm_compute; reflexivity|]. exists 0%Z. vm_compute. reflexivity.
  - exists s'. exact E.
Defined.
