(* ===== verification/CoreThms.v ===== *)
(** * Theorems about identifiers and the wire format *)

From stdpp Require Import base gmap strings list fin_maps sets.
From Stdlib Require Import ZArith Lia.
From S2P Require Import Prelude Wire Cstring Libubox LibuboxModel Ids State MsgBuf Frame SendSpec Stream Wf.
From S2P Require Import Registry ReplySpec Daemon Demo.
Local Open Scope Z_scope.
Local Open Scope ubus_scope.

(** ** The header *)

Lemma be16_of_be16 a b : 0 <= a < 2 ^ 8 -> 0 <= b < 2 ^ 8 -> be16 (of_be16 [a; b]) = [a; b].
Proof.
  intros Ha Hb. unfold be16, of_be16, u8. simpl Z.pow in *. f_equal; [|f_equal]; Z.to_euclidean_division_equations; lia.
Qed.

Lemma be32_of_be32 a b c d :
  0 <= a < 2 ^ 8 -> 0 <= b < 2 ^ 8 -> 0 <= c < 2 ^ 8 -> 0 <= d < 2 ^ 8 -> be32 (of_be32 [a; b; c; d]) = [a; b; c; d].
Proof.
  intros Ha Hb Hc Hd. unfold be32, of_be32, u8. simpl Z.pow in *. simpl Z.pow_pos in *.
  f_equal; [|f_equal; [|f_equal; [|f_equal]]]; Z.to_euclidean_division_equations; lia.
Qed.

Lemma header_decodes h rest : hdr_in_range h -> decode_hdr (encode_hdr h ++ rest) = h.
Proof.
  intros (Hv & Ht & Hq & Hp). destruct h as [v t q p]. simpl in Hv, Ht, Hq, Hp. unfold decode_hdr.
  assert (take 2 (drop 2 (encode_hdr (mk_msghdr v t q p) ++ rest)) = be16 q) as -> by done.
  assert (take 4 (drop 4 (encode_hdr (mk_msghdr v t q p) ++ rest)) = be32 p) as -> by done.
  rewrite of_be16_be16, of_be32_be32. simpl nth. unfold u8, u16, u32. by rewrite !Z.mod_small.
Qed.

(** The header survives the wire in both directions: reading back what is
    written gives the header, with whatever follows it left aside, for every
    header whose fields fit their widths; and writing what eight received octets
    were read as gives these octets. *)
Lemma header_roundtrip :
  (forall h rest, hdr_in_range h -> decode_hdr (encode_hdr h ++ rest) = h) /\
  (forall bs, length bs = 8%nat -> octets bs -> hdr_in_range (decode_hdr bs) /\ encode_hdr (decode_hdr bs) = bs).
Proof.
  split.
  - apply header_decodes.
  - intros bs Hl Ho. do 8 (destruct bs as [|? bs]; [done|]). destruct bs; [|done].
    unfold octets in Ho. rewrite !Forall_cons in Ho. destruct Ho as (H0 & H1 & H2 & H3 & H4 & H5 & H6 & H7 & _).
    unfold decode_hdr, encode_hdr. cbn [nth take drop hdr_version hdr_type hdr_seq hdr_peer].
    rewrite be16_of_be16, be32_of_be32 by done. unfold u8. rewrite !Z.mod_small by done. split; [|done].
    unfold hdr_in_range, of_be16, of_be32. simpl. lia.
Qed.

(** A message read by its recipient is the message that was sent: the first
    eight bytes of its image on the wire decode to its header, the rest is its
    data, and the length is that of header and data. *)
Lemma wire_roundtrip ext `{AL : AvlLib} `{BL : BlobLib} (s : ubusd) m u :
  minv ext s -> h_msgs s !! m = Some u -> hdr_in_range (ub_hdr u) ->
  decode_hdr (wire u) = ub_hdr u /\ drop 8 (wire u) = ub_data u /\
  Z.of_nat (length (wire u)) = sizeof_msghdr + ub_len u.
Proof.
  intros Hm Hu Hr. pose proof (minv_msgs _ _ Hm _ _ Hu) as Hok. split; [|split; [|by apply wire_len]].
  - unfold wire. by apply header_decodes.
  - destruct Hok as [Hl _]. unfold wire. rewrite (drop_app_length' (encode_hdr _)) by done. apply take_ge. lia.
Qed.

(** Messages survive the wire.  The header is read back as it was written,
    whatever follows it, if its fields fit their widths, and eight received octets
    are written again as they were; the image of a message buffer decodes to its
    header and its data, and its length is that of both. *)
Theorem messages_roundtrip ext `{AL : AvlLib} `{BL : BlobLib} (s : ubusd) m u :
  (forall h rest, hdr_in_range h -> decode_hdr (encode_hdr h ++ rest) = h) /\
  (forall bs, length bs = 8%nat -> octets bs -> hdr_in_range (decode_hdr bs) /\ encode_hdr (decode_hdr bs) = bs) /\
  (minv ext s -> h_msgs s !! m = Some u -> hdr_in_range (ub_hdr u) ->
   decode_hdr (wire u) = ub_hdr u /\ drop 8 (wire u) = ub_data u /\
   Z.of_nat (length (wire u)) = sizeof_msghdr + ub_len u).
Proof. destruct header_roundtrip as [H1 H2]. split; [done|]. split; [done|]. apply wire_roundtrip. Qed.

(** ** Identifiers *)

Section Ids.
Context `{AL : AvlLib} `{!AvlLaws AL} {V : Type}.

(** [ubus_alloc_id] hands out an id only if it was free and, when it chose the
    id itself, only outside the range reserved for the daemon's own objects and
    within 32 bits; exactly that entry is added; when it fails the tree is
    unchanged. *)
Lemma alloc_id_fresh (tree : id_tree V) (node : V) val rnd :
  match ubus_alloc_id tree node val rnd with
  | (Some id, tree', _) =>
      (val = 0 /\ UBUS_SYSTEM_OBJECT_MAX <= id < 2 ^ 32 \/ val <> 0 /\ id = val) /\
      ubus_find_id tree id = None /\ ubus_find_id tree' id = Some node /\
      (forall id', id' <> id -> ubus_find_id tree' id' = ubus_find_id tree id')
  | (None, tree', _) => tree' = tree
  end.
Proof.
  pose proof (alloc_id_cases tree node val rnd) as H.
  destruct (ubus_alloc_id tree node val rnd) as [[[id|] t'] rnd']; [|done].
  destruct H as (Hid & Hfree & Hl). split; [done|]. split; [done|]. unfold ubus_find_id in *. split.
  - apply avl_find_Some. rewrite Hl. by left.
  - intros id' Hne. apply option_eq. intros v. rewrite !avl_find_Some, Hl, elem_of_cons. split; [|by right].
    intros [[=]|]; [done|done].
Qed.

(** Allocating a random id always succeeds in the end: as soon as the random
    source yields a value that is neither reserved nor taken, if it did not fail
    before, the loops stop with an id. *)
Lemma alloc_id_live (tree : id_tree V) (node : V) rnd1 r rnd2 :
  Forall is_Some rnd1 -> usable_id tree r -> is_Some (ubus_alloc_id tree node 0 (rnd1 ++ r :: rnd2)).1.1.
Proof. apply alloc_random_succeeds. Qed.

(** C38: Identifiers. [ubus_alloc_id] hands out an id only if it was free and, when
    it chose the id itself, only outside the range reserved for the daemon's own
    objects and within 32 bits; exactly that entry is added, and when it fails the
    tree is unchanged. Drawing an id always succeeds in the end: as soon as the
    random source yields a value that is neither reserved nor taken, if it did not
    fail before, the loops stop with an id. *)
Theorem alloc_id_exact (tree : id_tree V) (node : V) val rnd :
  match ubus_alloc_id tree node val rnd with
  | (Some id, tree', _) =>
      (val = 0 /\ UBUS_SYSTEM_OBJECT_MAX <= id < 2 ^ 32 \/ val <> 0 /\ id = val) /\
      ubus_find_id tree id = None /\ ubus_find_id tree' id = Some node /\
      (forall id', id' <> id -> ubus_find_id tree' id' = ubus_find_id tree id')
  | (None, tree', _) => tree' = tree
  end /\
  (forall rnd1 r rnd2, rnd = rnd1 ++ r :: rnd2 -> Forall is_Some rnd1 -> usable_id tree r ->
     is_Some (ubus_alloc_id tree node 0 rnd).1.1).
Proof. split; [apply alloc_id_fresh|]. intros rnd1 r rnd2 ->. apply alloc_id_live. Qed.
End Ids.

(** ** The theorems at concrete inputs *)

Lemma alloc_id_exact_witness :
  (exists tree', ubus_alloc_id (ubus_init_id_tree ptr) 1%positive 0 [Some 3; Some 5000] = (Some 5000, tree', []) /\
    ubus_find_id tree' 5000 = Some 1%positive) /\
  is_Some (ubus_alloc_id (ubus_init_id_tree ptr) 1%positive 0 [Some 3; Some 5000]).1.1.
Proof.
  destruct (alloc_id_exact (ubus_init_id_tree ptr) 1%positive 0 [Some 3; Some 5000]) as [H Hl]. split.
  - vm_compute in H. eexists. split; [vm_compute; reflexivity|]. vm_compute. exact (proj1 (proj2 (proj2 H))).
  - apply (Hl [Some 3] (Some 5000) []); [reflexivity|repeat constructor; eauto|].
    exists 5000. split; [reflexivity|]. vm_compute. split; [discriminate|reflexivity].
Defined.

Lemma messages_roundtrip_witness :
  decode_hdr (encode_hdr (mk_msghdr 0 5 7 2001) ++ [1; 2]) = mk_msghdr 0 5 7 2001 /\
  encode_hdr (decode_hdr [0; 5; 1; 2; 3; 4; 5; 6]) = [0; 5; 1; 2; 3; 4; 5; 6] /\
  exists u, h_msgs st10 !! 11%positive = Some u /\ decode_hdr (wire u) = ub_hdr u.
Proof.
  destruct (has_Some (h_msgs st10 !! 11%positive)) as [u Hu]; [vm_compute; reflexivity|].
  destruct (messages_roundtrip [] st10 11%positive u) as (H1 & H2 & H3). split; [|split].
  - apply H1. unfold hdr_in_range. simpl. lia.
  - apply H2; [reflexivity|]. unfold octets. repeat constructor; lia.
  - exists u. split; [exact Hu|]. apply (H3 (inv_minv _ _ _ (reachable_inv st10 st10_reachable)) Hu).
    vm_compute in Hu. injection Hu as <-. unfold hdr_in_range. simpl. lia.
Defined.
