(* ===== verification/LibState.v ===== *)
(** * The client library's state

    The structures of [src/libubus.h] and the file-level variables of
    [src/libubus-io.c], [src/libubus.c] and [src/libubus-acl.c], for a program
    with one [struct ubus_context], with the socket and the allocator it uses.

    Functions the C code stores in structures are values of enumerations: the
    library's own callbacks by name, the program's by number.  Structures of the
    program ([ubus_request], [ubus_object], ...) live in a heap per type; the
    requests that the library declares as local variables are allocated and
    released there like the others.  The structures that embed another one
    ([ubus_notify_request], [ubus_lookup_request], [ubus_subscriber],
    [ubus_event_handler]) are the embedded structure with an optional further
    part, which [container_of] yields. *)

From stdpp Require Import base gmap strings list fin_maps.
From Stdlib Require Import ZArith Lia.
From S2P Require Import Prelude Wire Cstring Libubox Ids State.
Local Open Scope Z_scope.
Local Open Scope ubus_scope.

(** ** Callbacks *)

(** [ubus_data_handler_t] *)
Inductive data_handler :=
  | call_data (n : nat)
  | call_ubus_notify_data_cb | call_ubus_lookup_cb | call_ubus_lookup_id_cb
  | call_ubus_add_object_cb | call_ubus_remove_object_cb | call_acl_recv_cb.

(** [ubus_complete_handler_t] *)
Inductive complete_handler :=
  | call_complete (n : nat)
  | call_ubus_sync_req_cb | call_ubus_notify_complete_cb | call_acl_query_complete_cb.

(** [ubus_lookup_handler_t]: [ubus_auto_sub_lookup] of [libubus-sub.c] looks at
    one subscriber, the one of [libubus-io.c] at all of the context's. *)
Inductive lookup_handler := call_lookup (n : nat) | call_auto_sub_lookup | call_auto_sub_lookup_all.

(** [ubus_handler_t] *)
Inductive method_handler := call_method (n : nat) | call_ubus_event_cb | call_ubus_subscriber_cb.

(** [ubus_event_handler_t] *)
Inductive event_handler_cb := call_event (n : nat) | call_auto_sub_event | call_acl_subscribe_cb.

(** [ctx->connection_lost]; [uloop_timeout_handler] of a [ubus_auto_conn] *)
Inductive lost_handler := call_lost (n : nat) | call_ubus_default_connection_lost | call_ubus_auto_disconnect_cb.
Inductive auto_timer_cb := call_ubus_auto_connect_cb | call_ubus_auto_reconnect_cb.

(** ** Structures *)

(** [req->priv], by what the library's own callbacks take it for *)
Inductive priv_ptr := priv_none | priv_user (n : Z) | priv_obj (p : ptr) | priv_id (p : ptr).

(** [UBUS_MAX_NOTIFY_PEERS] *)
Definition UBUS_MAX_NOTIFY_PEERS : nat := 16.

(** [struct ubus_notify_request] after its [req] *)
Record notify_part := mk_notify {
  nq_status_cb : option nat;
  nq_complete_cb : option nat;
  nq_data_cb : option nat;
  nq_pending : Z;
  nq_id : list Z;
}.
#[export] Instance eta_notify : Eta notify_part := fun r =>
  mk_notify (nq_status_cb r) (nq_complete_cb r) (nq_data_cb r) (nq_pending r) (nq_id r).

(** [struct ubus_pending_data] *)
Record ubus_pending_data := mk_pending_data {
  pd_type : Z;
  pd_data : bytes;
}.

(** [rq_init]: has [INIT_LIST_HEAD] set up the list node (before, it is zero)?
    [rq_pending]: the addresses of its [ubus_pending_data]. *)
Record ubus_request := mk_request {
  rq_init : bool;
  rq_pending : list ptr;
  rq_status_code : Z;
  rq_status_msg : bool;
  rq_blocked : bool;
  rq_cancelled : bool;
  rq_notify : bool;
  rq_peer : Z;
  rq_seq : Z;
  rq_raw_data_cb : option data_handler;
  rq_data_cb : option data_handler;
  rq_fd_cb : option nat;
  rq_complete_cb : option complete_handler;
  rq_fd : Z;
  rq_priv : priv_ptr;
  rq_nreq : option notify_part;
  rq_lookup_cb : option lookup_handler;
}.
#[export] Instance eta_request : Eta ubus_request := fun r =>
  mk_request (rq_init r) (rq_pending r) (rq_status_code r) (rq_status_msg r) (rq_blocked r) (rq_cancelled r)
    (rq_notify r) (rq_peer r) (rq_seq r) (rq_raw_data_cb r) (rq_data_cb r) (rq_fd_cb r) (rq_complete_cb r)
    (rq_fd r) (rq_priv r) (rq_nreq r) (rq_lookup_cb r).

(** [memset(req, 0, sizeof *req)] of a plain request; of a notify request *)
Definition request_zero : ubus_request :=
  mk_request false [] 0 false false false false 0 0 None None None None 0 priv_none None None.
Definition notify_zero : notify_part :=
  mk_notify None None None 0 (replicate (S UBUS_MAX_NOTIFY_PEERS) 0).

(** [struct ubus_method]; a catch-all entry has no name *)
Record lib_method := mk_lib_method {
  lm_name : option string;
  lm_handler : method_handler;
  lm_mask : Z;
  lm_policy : list (string * Z);
}.

(** [obj->methods]: one of the library's tables, or the program's *)
Inductive method_table := watch_method | event_method | methods (l : list lib_method).

(** [struct ubus_object_type] *)
Record lib_object_type := mk_lib_type {
  lt_id : Z;
  lt_methods : list lib_method;
}.
#[export] Instance eta_lib_type : Eta lib_object_type := fun r => mk_lib_type (lt_id r) (lt_methods r).

(** [struct ubus_subscriber] around its [obj]; [sb_init]: has [INIT_LIST_HEAD] set
    up its list node? *)
Record subscriber_part := mk_subscriber {
  sb_init : bool;
  sb_cb : option nat;
  sb_remove_cb : option nat;
  sb_new_obj_cb : option nat;
}.

#[export] Instance eta_subscriber : Eta subscriber_part := fun r =>
  mk_subscriber (sb_init r) (sb_cb r) (sb_remove_cb r) (sb_new_obj_cb r).

(** [struct ubus_object] *)
Record lib_object := mk_lib_object {
  lo_name : option string;
  lo_id : Z;
  lo_type : option ptr;
  lo_subscribe_cb : option nat;
  lo_has_subscribers : bool;
  lo_methods : method_table;
  lo_subscriber : option subscriber_part;
  lo_event_cb : option event_handler_cb;
}.
#[export] Instance eta_lib_object : Eta lib_object := fun r =>
  mk_lib_object (lo_name r) (lo_id r) (lo_type r) (lo_subscribe_cb r) (lo_has_subscribers r) (lo_methods r)
    (lo_subscriber r) (lo_event_cb r).

(** An object of zeros *)
Definition lib_object_zero : lib_object := mk_lib_object None 0 None None false (methods []) None None.

(** [struct ubus_auto_conn] around its [ctx]; its timer: the callback, and the
    milliseconds it has been set to *)
Record auto_conn := mk_auto_conn {
  ac_timer_cb : auto_timer_cb;
  ac_timer : option Z;
  ac_path : option string;
  ac_cb : option nat;
}.
#[export] Instance eta_auto_conn : Eta auto_conn := fun r =>
  mk_auto_conn (ac_timer_cb r) (ac_timer r) (ac_path r) (ac_cb r).

(** [struct ubus_acl_key] *)
Record ubus_acl_key := mk_acl_key {
  ak_user : option string;
  ak_group : option string;
  ak_object : option string;
}.

(** [struct ubus_request_data] *)
Record ubus_request_data := mk_request_data {
  rd_object : Z;
  rd_peer : Z;
  rd_seq : Z;
  rd_acl : ubus_acl_key;
  rd_deferred : bool;
  rd_fd : Z;
  rd_req_fd : Z;
}.
#[export] Instance eta_request_data : Eta ubus_request_data := fun r =>
  mk_request_data (rd_object r) (rd_peer r) (rd_seq r) (rd_acl r) (rd_deferred r) (rd_fd r) (rd_req_fd r).

(** [struct ubus_msghdr_buf]; [struct ubus_pending_msg] holds one *)
Record ubus_msghdr_buf := mk_msghdr_buf {
  mb_hdr : ubus_msghdr;
  mb_data : bytes;
}.

(** [struct acl_object] *)
Record acl_object := mk_acl_object {
  ao_key : ubus_acl_key;
  ao_acl : bytes;
}.

(** ** The operating system

    What the peer has written and the library has not read, how the kernel will
    answer the coming calls, and what it has accepted: bytes, descriptors with
    the number of bytes before them, descriptors closed (latest first).  The
    scripts are finite: when one has run out, the peer has closed the
    connection.  [so_clock] has the coming values of the clock; the last one
    stays. *)

(** [recvmsg]: at most [n] bytes, with a descriptor, or an error *)
Inductive recv_answer := Chunk (n : Z) (fd : option Z) | Refused (e : errno).

Record sock_state := mk_sock {
  so_in : bytes;
  so_recv : list recv_answer;
  so_send : list send_result;
  so_out : bytes;
  so_passed : list (Z * Z);
  so_closed : list Z;
  so_alloc : list bool;
  so_clock : list Z;
}.
#[export] Instance eta_sock : Eta sock_state := fun r =>
  mk_sock (so_in r) (so_recv r) (so_send r) (so_out r) (so_passed r) (so_closed r) (so_alloc r) (so_clock r).

(** What [recvmsg] returned: bytes (none at the end of the stream), with the
    descriptor or -1, or an error *)
Inductive received_msg := Bytes (bs : bytes) (fd : Z) | Failed (e : errno).

(** ** The context *)

(** [acl_cmp] of [libubus-acl.c], by which [acl_objects] is ordered *)
Definition acl_cmp (key1 key2 : ubus_acl_key) : Z :=
  let ret := match ak_user key1, ak_user key2 with
             | Some u1, Some u2 => strcmp u1 u2
             | _, _ => 0
             end in
  if negb (ret =? 0) then ret
  else
    let ret := match ak_group key1, ak_group key2 with
               | Some g1, Some g2 => strcmp g1 g2
               | _, _ => 0
               end in
    if negb (ret =? 0) then ret
    else strcmp (default EmptyString (ak_object key1)) (default EmptyString (ak_object key2)).

(** The memory of the program that uses the library, its own variables and
    output, which only its callbacks touch *)
Class ProgMem := { prog_mem : Type }.

Section LibState.
Context `{AL : AvlLib} `{PM : ProgMem}.

(** The context (its [sock] split into fields), then the file-level variables
    [attrbuf], [acl_event], [acl_req], [acl_blob], [acl_query_active],
    [acl_query_deferred], [acl_objects], whether [uloop] is shutting down,
    whether [uloop_end] has been called, the program's memory, and the world
    outside.  [ctx_auto_conn] is
    what surrounds a context that is part of a [ubus_auto_conn].  [ctx_auto_event] is the address of the handler embedded in
    the context. *)
Record ubus_context := mk_context {
  c_reqs : gmap ptr ubus_request;
  c_objs : gmap ptr lib_object;
  c_types : gmap ptr lib_object_type;
  c_rdata : gmap ptr ubus_request_data;
  c_pdata : gmap ptr ubus_pending_data;
  c_ids : gmap ptr Z;
  c_brk : ptr;
  ctx_requests : list ptr;
  ctx_objects : id_tree ptr;
  ctx_pending : list ubus_msghdr_buf;
  ctx_sock_fd : Z;
  ctx_sock_eof : bool;
  ctx_sock_registered : bool;
  ctx_local_id : Z;
  ctx_request_seq : Z;
  ctx_cancel_poll : bool;
  ctx_stack_depth : Z;
  ctx_connection_lost : lost_handler;
  ctx_monitor_cb : option nat;
  ctx_msgbuf_hdr : ubus_msghdr;
  ctx_msgbuf_data : option bytes;
  ctx_msgbuf_data_len : Z;
  ctx_msgbuf_reduction_counter : Z;
  ctx_auto_subscribers : list ptr;
  ctx_auto_event : ptr;
  ctx_request_handler : option nat;
  ctx_pre_invoke : option nat;
  ctx_auto_conn : option auto_conn;
  attrbuf : ubus_msg_attr -> option bytes;
  acl_event : ptr;
  acl_req : ptr;
  acl_blob : option bytes;
  acl_query_active : bool;
  acl_query_deferred : bool;
  acl_objects : avl_tree acl_cmp true acl_object;
  uloop_cancelling : bool;
  uloop_ended : bool;
  ctx_mem : prog_mem;
  sys : sock_state;
}.
#[export] Instance eta_context : Eta ubus_context := fun r =>
  mk_context (c_reqs r) (c_objs r) (c_types r) (c_rdata r) (c_pdata r) (c_ids r) (c_brk r) (ctx_requests r) (ctx_objects r)
    (ctx_pending r) (ctx_sock_fd r) (ctx_sock_eof r) (ctx_sock_registered r) (ctx_local_id r) (ctx_request_seq r)
    (ctx_cancel_poll r) (ctx_stack_depth r) (ctx_connection_lost r) (ctx_monitor_cb r) (ctx_msgbuf_hdr r)
    (ctx_msgbuf_data r) (ctx_msgbuf_data_len r) (ctx_msgbuf_reduction_counter r) (ctx_auto_subscribers r)
    (ctx_auto_event r) (ctx_request_handler r) (ctx_pre_invoke r) (ctx_auto_conn r) (attrbuf r) (acl_event r) (acl_req r)
    (acl_blob r) (acl_query_active r) (acl_query_deferred r) (acl_objects r) (uloop_cancelling r) (uloop_ended r) (ctx_mem r) (sys r).

(** ** Memory *)

Class LHeap (T : Type) := {
  lheap : ubus_context -> gmap ptr T;
  set_lheap : (gmap ptr T -> gmap ptr T) -> ubus_context -> ubus_context;
}.
#[export] Instance lheap_req : LHeap ubus_request :=
  {| lheap := c_reqs; set_lheap f s := s <| c_reqs ::= f |> |}.
#[export] Instance lheap_obj : LHeap lib_object :=
  {| lheap := c_objs; set_lheap f s := s <| c_objs ::= f |> |}.
#[export] Instance lheap_type : LHeap lib_object_type :=
  {| lheap := c_types; set_lheap f s := s <| c_types ::= f |> |}.
#[export] Instance lheap_rdata : LHeap ubus_request_data :=
  {| lheap := c_rdata; set_lheap f s := s <| c_rdata ::= f |> |}.
#[export] Instance lheap_pdata : LHeap ubus_pending_data :=
  {| lheap := c_pdata; set_lheap f s := s <| c_pdata ::= f |> |}.
#[export] Instance lheap_id : LHeap Z :=
  {| lheap := c_ids; set_lheap f s := s <| c_ids ::= f |> |}.

(** [*p], [p->f = ...]: undefined when nothing lives there *)
Definition lload {T} `{LHeap T} (p : ptr) : stm ubus_context T :=
  fun s => match lheap s !! p with Some x => Some (x, s) | None => None end.

Definition lstore {T} `{LHeap T} (p : ptr) (f : T -> T) : stm ubus_context unit :=
  fun s => match lheap s !! p with Some x => Some (tt, set_lheap (insert p (f x)) s) | None => None end.

(** A local variable whose address is taken, and the end of its scope *)
Definition new_local {T} `{LHeap T} (x : T) : stm ubus_context ptr :=
  fun s => Some (c_brk s, set_lheap (insert (c_brk s) x) (s <| c_brk ::= Pos.succ |>)).

Definition end_local {T} `{LHeap T} (p : ptr) : stm ubus_context unit :=
  fun s => match lheap s !! p with Some _ => Some (tt, set_lheap (delete p) s) | None => None end.

(** ** System calls *)

Definition sys_alloc : stm ubus_context bool :=
  fun s => match so_alloc (sys s) with
           | [] => Some (true, s)
           | ok :: rest => Some (ok, s <| sys ::= fun o => o <| so_alloc := rest |> |>)
           end.

Definition sys_close_fd (fd : Z) : stm ubus_context unit :=
  modify (fun s => s <| sys ::= fun o => o <| so_closed ::= cons fd |> |>).

(** [if (fd >= 0) close(fd);] *)
Definition close_if (fd : Z) : stm ubus_context unit := when (0 <=? fd) (sys_close_fd fd).

(** [clock_gettime] in milliseconds *)
Definition sys_clock : stm ubus_context Z :=
  fun s => match so_clock (sys s) with
           | [] => Some (0, s)
           | [t] => Some (t, s)
           | t :: rest => Some (t, s <| sys ::= fun o => o <| so_clock := rest |> |>)
           end.

(** [sendmsg]: the kernel takes at least one byte, a descriptor travels with the
    first. *)
Definition sys_send (iov : bytes) (fd : option Z) : stm ubus_context send_result :=
  fun s =>
    let o := sys s in
    match so_send o with
    | [] => Some (SendErr EPIPE, s)
    | SendErr e :: rest => Some (SendErr e, s <| sys := o <| so_send := rest |> |>)
    | Sent n :: rest =>
        let n := Z.max 1 (Z.min n (Z.of_nat (length iov))) in
        let o := o <| so_send := rest |>
                   <| so_out ::= fun out => out ++ take (Z.to_nat n) iov |>
                   <| so_passed ::= fun l => match fd with
                                             | Some f => (Z.of_nat (length (so_out o)), f) :: l
                                             | None => l
                                             end |> in
        Some (Sent n, s <| sys := o |>)
    end.

(** [recvmsg] of at most [want] bytes; without a control buffer the kernel
    drops a descriptor. *)
Definition sys_recv (want : Z) (control : bool) : stm ubus_context received_msg :=
  fun s =>
    let o := sys s in
    match so_recv o with
    | [] => Some (Bytes [] (-1), s)
    | Refused e :: rest => Some (Failed e, s <| sys := o <| so_recv := rest |> |>)
    | Chunk n fd :: rest =>
        let k := Z.to_nat (Z.min n want) in
        Some (Bytes (take k (so_in o)) (if control then default (-1) fd else -1),
              s <| sys := o <| so_recv := rest |> <| so_in := drop k (so_in o) |> |>)
    end.
End LibState.
