(* ===== verification/LibIo.v ===== *)
(** * The client library's input and output: [src/libubus-io.c]

    Writing a message (with a descriptor) to the socket and reading the next
    one from it, both over as many system calls as the kernel makes necessary,
    and the message buffer of the context. *)

From stdpp Require Import base gmap strings list fin_maps.
From Stdlib Require Import ZArith Lia.
From S2P Require Import Prelude Wire Cstring Libubox Ids State LibState.
Local Open Scope Z_scope.
Local Open Scope ubus_scope.

Definition UBUS_MSGBUF_REDUCTION_INTERVAL : Z := 16.

(** [ubus_policy] of the library *)
Definition lib_policy (id : Z) : blob_attr_type :=
  if id =? UBUS_ATTR_STATUS then BLOB_ATTR_INT32
  else if id =? UBUS_ATTR_OBJID then BLOB_ATTR_INT32
  else if id =? UBUS_ATTR_OBJPATH then BLOB_ATTR_STRING
  else if id =? UBUS_ATTR_METHOD then BLOB_ATTR_STRING
  else if id =? UBUS_ATTR_ACTIVE then BLOB_ATTR_INT8
  else if id =? UBUS_ATTR_NO_REPLY then BLOB_ATTR_INT8
  else if id =? UBUS_ATTR_SUBSCRIBERS then BLOB_ATTR_NESTED
  else BLOB_ATTR_UNSPEC.

(** The two fragments of a [writev] after [cur_len] more bytes are written:
    [None] when that was all. *)
Fixpoint iov_advance (iov : list bytes) (cur_len : Z) : option (list bytes) :=
  match iov with
  | [] => None
  | v :: rest =>
      if Z.of_nat (length v) <=? cur_len then iov_advance rest (cur_len - Z.of_nat (length v))
      else Some (drop (Z.to_nat cur_len) v :: rest)
  end.

Section LibIo.
Context `{AL : AvlLib} `{PM : ProgMem} `{BL : BlobLib}.
Implicit Types (s : ubus_context).

(** [ubus_parse_msg]: the table is a static variable. *)
Definition lib_parse_msg (msg : bytes) (len : Z) : stm ubus_context (ubus_msg_attr -> option bytes) :=
  let tb := fun a : ubus_msg_attr => blob_parse_untrusted lib_policy UBUS_ATTR_MAX msg len a in
  modify (fun s => s <| attrbuf := tb |>);;
  mret tb.

(** The loop of [writev_retry]; the kernel answers at most [fuel] more calls
    from its script. *)
Fixpoint writev_loop (fuel : nat) (iov : list bytes) (sock_fd len : Z) : stm ubus_context Z :=
  r ← sys_send (concat iov) (if sock_fd <? 0 then None else Some sock_fd);
  match r, fuel with
  | SendErr EAGAIN, S fuel | SendErr EINTR, S fuel => writev_loop fuel iov sock_fd len
  | SendErr _, _ => mret (-1)
  | Sent cur_len, _ =>
      let len := len + cur_len in
      match iov_advance iov cur_len, fuel with
      | None, _ => mret len
      | Some iov, S fuel => writev_loop fuel iov (-1) len
      | Some _, O => mret (-1)
      end
  end.

Definition writev_retry (iov : list bytes) (sock_fd : Z) : stm ubus_context Z :=
  fuel ← gets (fun s => length (so_send (sys s)));
  writev_loop fuel iov sock_fd 0.

(** [ubus_send_msg]; without a message an empty one is sent. *)
Definition ubus_send_msg (seq : Z) (msg : option bytes) (cmd peer fd : Z) : stm ubus_context Z :=
  let hdr := mk_msghdr 0 cmd seq peer in
  let msg := default (blob_render []) msg in
  if UBUS_MAX_MSGLEN <? blob_pad_len msg then
    close_if fd;;
    mret (-1)
  else
    assert (blob_raw_len msg <=? Z.of_nat (length msg));;
    ret ← writev_retry [encode_hdr hdr; take (Z.to_nat (blob_raw_len msg)) msg] fd;
    when (ret <? 0) (modify (fun s => s <| ctx_sock_eof := true |>));;
    close_if fd;;
    mret ret.

(** The loop of [recv_retry]: [got] has been read, [want] is what is to be read
    in all; [recv_fd] is the caller's variable, [control] whether it is still to
    be set.  Returns -1, 0 (nothing there yet) or the number of bytes, what was
    read and the variable. *)
Fixpoint recv_loop (fuel : nat) (want : Z) (wait control : bool) (recv_fd : Z) (got : bytes)
    : stm ubus_context (Z * bytes * Z) :=
  if want <=? Z.of_nat (length got) then mret (Z.of_nat (length got), got, recv_fd)
  else
    r ← sys_recv (want - Z.of_nat (length got)) control;
    match r, fuel with
    | Bytes [] _, _ => mret (-1, got, recv_fd)
    | Bytes bs fd, S fuel => recv_loop fuel want true false (if control then fd else recv_fd) (got ++ bs)
    | Failed EINTR, S fuel => recv_loop fuel want wait control recv_fd got
    | Failed EAGAIN, S fuel =>
        if negb wait then mret (0, got, recv_fd)
        else recv_loop fuel want true false (if control then -1 else recv_fd) got
    | _, _ => mret (-1, got, recv_fd)
    end.

Definition recv_retry (want : Z) (wait : bool) (recv_fd : option Z) : stm ubus_context (Z * bytes * Z) :=
  fuel ← gets (fun s => length (so_recv (sys s)));
  recv_loop fuel want wait (has recv_fd) (default (-1) recv_fd) [].

Definition ubus_validate_hdr (hdr : ubus_msghdr) (data : bytes) : bool :=
  if negb (hdr_version hdr =? 0) then false
  else if blob_raw_len data <? sizeof_blob_attr then false
  else if UBUS_MAX_MSGLEN <? blob_pad_len data then false
  else true.

(** [realloc]: the common part is kept. *)
Definition realloc_data (data : option bytes) (len : Z) : bytes :=
  let old := take (Z.to_nat len) (default [] data) in
  old ++ replicate (Z.to_nat len - length old) 0.

Definition alloc_msg_buf (len : Z) : stm ubus_context bool :=
  s ← gets (fun s => s);
  let buf_len := if has (ctx_msgbuf_data s) then ctx_msgbuf_data_len s else 0 in
  let rem := len mod UBUS_MSG_CHUNK_SIZE in
  let len := if 0 <? rem then len + (UBUS_MSG_CHUNK_SIZE - rem) else len in
  buf_len ← (if len <? buf_len then
               let n := ctx_msgbuf_reduction_counter s + 1 in
               modify (fun s => s <| ctx_msgbuf_reduction_counter := n |>);;
               if UBUS_MSGBUF_REDUCTION_INTERVAL <? n then
                 modify (fun s => s <| ctx_msgbuf_reduction_counter := 0 |>);;
                 mret 0
               else mret buf_len
             else mret buf_len);
  if len <=? buf_len then mret true
  else
    ok ← sys_alloc;
    if negb ok then mret false
    else
      modify (fun s => s <| ctx_msgbuf_data := Some (realloc_data (ctx_msgbuf_data s) len) |>
                         <| ctx_msgbuf_data_len := len |>);;
      mret true.

Definition set_eof : stm ubus_context unit := modify (fun s => s <| ctx_sock_eof := true |>).

(** [memcpy(ctx->msgbuf.data + off, bs, length bs)]: undefined out of bounds *)
Definition msgbuf_write (off : Z) (bs : bytes) : stm ubus_context unit :=
  s ← gets (fun s => s);
  match ctx_msgbuf_data s with
  | None => undefined
  | Some d =>
      assert (fits off bs d);;
      modify (fun s => s <| ctx_msgbuf_data := Some (splice (Z.to_nat off) bs d) |>)
  end.

(** [get_next_msg(ctx, &recv_fd)]: the result and the variable *)
Definition get_next_msg (recv_fd : Z) : stm ubus_context (bool * Z) :=
  '(r, hdrbuf, recv_fd) ← recv_retry (sizeof_msghdr + sizeof_blob_attr) false (Some recv_fd);
  if r <=? 0 then
    when (r <? 0) set_eof;;
    mret (false, recv_fd)
  else
    let hdr := decode_hdr hdrbuf in
    let data := drop 8 hdrbuf in
    if negb (ubus_validate_hdr hdr data) then set_eof;; mret (false, recv_fd)
    else
      ok ← alloc_msg_buf (blob_raw_len data);
      if negb ok then set_eof;; mret (false, recv_fd)
      else
        modify (fun s => s <| ctx_msgbuf_hdr := hdr |>);;
        msgbuf_write 0 data;;
        let iov_len := blob_raw_len data - sizeof_blob_attr in
        if 0 <? iov_len then
          '(r, body, _) ← recv_retry iov_len true None;
          msgbuf_write sizeof_blob_attr body;;
          if r <=? 0 then set_eof;; mret (false, recv_fd)
          else mret (true, recv_fd)
        else mret (true, recv_fd).
End LibIo.
