(* ===== verification/LibCalls.v ===== *)
(** * Starting requests, and the library's own callbacks

    [__ubus_start_request] and the functions built on it without waiting
    ([src/libubus-req.c]), the cache of the access rules
    ([src/libubus-acl.c]), and the callbacks the library passes to itself
    ([src/libubus.c], [src/libubus-obj.c], [src/libubus-sub.c]).

    The program's callbacks are the parameter [program]: whatever they do, they
    do to this state (they may call the library again).  [nested_subscribe] is
    [ubus_subscribe] as called from within a callback of the library; it waits
    for an answer and so runs the whole input path again ([LibLoops.v] supplies
    it). *)

From stdpp Require Import base gmap strings list fin_maps.
From Stdlib Require Import ZArith Lia.
From S2P Require Import Prelude Wire Cstring Libubox Ids State LibState LibIo.
Local Open Scope Z_scope.
Local Open Scope ubus_scope.

(** ** The program's callbacks *)

(** [struct ubus_object_data] *)
Record ubus_object_data := mk_object_data {
  od_id : Z;
  od_type_id : Z;
  od_path : string;
  od_signature : option bytes;
}.

(** A call of one of the program's functions, by its type in [libubus.h] *)
Inductive program_call :=
  | ubus_data_handler (n : nat) (req : ptr) (type : Z) (msg : bytes)
  | ubus_fd_handler (n : nat) (req : ptr) (fd : Z)
  | ubus_complete_handler (n : nat) (req : ptr) (ret : Z)
  | ubus_notify_complete_handler (n : nat) (req : ptr) (idx ret : Z)
  | ubus_notify_data_handler (n : nat) (req : ptr) (type : Z) (msg : bytes)
  | ubus_handler (n : nat) (obj : option ptr) (req : ptr) (method : string) (msg : bytes)
  | ubus_invoke_handler (n : nat) (obj : ptr) (method : lib_method) (req : ptr) (msg : bytes)
  | ubus_state_handler (n : nat) (obj : ptr)
  | ubus_remove_handler (n : nat) (obj : ptr) (id : Z)
  | ubus_event_handler (n : nat) (ev : ptr) (type : string) (msg : bytes)
  | ubus_new_object_handler (n : nat) (sub : ptr) (path : string)
  | ubus_lookup_handler (n : nat) (obj : ubus_object_data) (priv : priv_ptr)
  | monitor_cb (n : nat) (seq : Z) (data : bytes)
  | connection_lost (n : nat)
  | ubus_connect_handler (n : nat).

Class Program `{AL : AvlLib} `{PM : ProgMem} := {
  program : program_call -> stm ubus_context Z;
  nested_subscribe : ptr -> Z -> stm ubus_context Z;
  (** how many requests it starts while those of a broken connection are flushed *)
  flush_restarts : nat;
}.

(** [int] of 32 bits *)
Definition i32 (z : Z) : Z := (z + 2 ^ 31) mod 2 ^ 32 - 2 ^ 31.

(** A message a function is given: none, one of the program's, or [b.head] of
    the library's own buffer, which the function fills anew before it copies
    the message. *)
Inductive msg_arg := no_msg | msg_at (msg : bytes) | msg_in_b.

Section LibCalls.
Context `{AL : AvlLib} `{PM : ProgMem} `{BL : BlobLib}.
Implicit Types (s : ubus_context).

(** ** Requests *)

Definition ubus_context_is_channel s : bool := ctx_local_id s =? UBUS_CLIENT_ID_CHANNEL.

(** Is the request's node in the context's list? *)
Definition req_linked (req : ptr) : stm ubus_context bool :=
  gets (fun s => bool_decide (req ∈ ctx_requests s)).

(** [list_empty(&req->list)]: a node that is all zero does not point to itself. *)
Definition req_list_empty (req : ptr) : stm ubus_context bool :=
  r ← lload (T := ubus_request) req;
  l ← req_linked req;
  mret (rq_init r && negb l).

(** [list_del_init(&req->list)]: undefined when the node is all zero *)
Definition req_list_del (req : ptr) : stm ubus_context unit :=
  l ← req_linked req;
  assert l;;
  modify (fun s => s <| ctx_requests ::= list_del req |>).

(** [memset(req, 0, sizeof *req); req->fd = fd;]: undefined when the node is
    linked, the list would be broken. *)
Definition clear_request (req : ptr) (fd : Z) : stm ubus_context unit :=
  l ← req_linked req;
  assert (negb l);;
  lstore req (fun r => request_zero <| rq_fd := fd |> <| rq_nreq := rq_nreq r |> <| rq_lookup_cb := rq_lookup_cb r |>).

(** [__ubus_start_request] *)
Definition start_request (req : ptr) (msg : option bytes) (cmd peer : Z) : stm ubus_context Z :=
  r ← lload (T := ubus_request) req;
  if match msg with Some m => UBUS_MAX_MSGLEN <? blob_pad_len m | None => false end then
    close_if (rq_fd r);;
    mret (-1)
  else
    modify (fun s => s <| ctx_request_seq ::= fun n => u16 (n + 1) |>);;
    seq ← gets ctx_request_seq;
    lstore req (fun r => r <| rq_init := true |> <| rq_pending := [] |> <| rq_peer := peer |> <| rq_seq := seq |>);;
    ubus_send_msg seq msg cmd peer (rq_fd r).

Definition ubus_start_request (req : ptr) (msg : option bytes) (cmd peer : Z) : stm ubus_context Z :=
  clear_request req (-1);;
  start_request req msg cmd peer.

Definition ubus_complete_request_async (req : ptr) : stm ubus_context unit :=
  e ← req_list_empty req;
  if negb e then mret tt
  else modify (fun s => s <| ctx_requests ::= cons req |>).

(** [ubus_put_data(&b, msg)] *)
Definition ubus_put_data (buf : list put) (msg : msg_arg) : list put :=
  buf ++ [put_blob UBUS_ATTR_DATA
            match msg with
            | no_msg => []
            | msg_at m => blob_data m
            | msg_in_b => blob_data (blob_render buf)
            end].

Definition ubus_invoke_async_fd (obj : Z) (method : string) (msg : msg_arg) (req : ptr) (fd : Z) : stm ubus_context Z :=
  let buf := [put_int32 UBUS_ATTR_OBJID obj; put_string UBUS_ATTR_METHOD method] in
  clear_request req fd;;
  r ← start_request req (Some (blob_render (ubus_put_data buf msg))) UBUS_MSG_INVOKE obj;
  if r <? 0 then mret (UBUS_STATUS_INVALID_ARGUMENT : Z) else mret 0.

Definition ubus_invoke_async (obj : Z) (method : string) (msg : msg_arg) (req : ptr) : stm ubus_context Z :=
  ubus_invoke_async_fd obj method msg req (-1).

Definition ubus_complete_deferred_request (req : ptr) (ret : Z) : stm ubus_context unit :=
  r ← lload (T := ubus_request_data) req;
  ubus_send_msg (rd_seq r)
    (Some (blob_render [put_int32 UBUS_ATTR_STATUS ret; put_int32 UBUS_ATTR_OBJID (rd_object r)]))
    UBUS_MSG_STATUS (rd_peer r) (rd_fd r);;
  mret tt.

Definition ubus_send_reply (req : ptr) (msg : msg_arg) : stm ubus_context Z :=
  r ← lload (T := ubus_request_data) req;
  ret ← ubus_send_msg (rd_seq r) (Some (blob_render (ubus_put_data [put_int32 UBUS_ATTR_OBJID (rd_object r)] msg)))
          UBUS_MSG_DATA (rd_peer r) (-1);
  if ret <? 0 then mret (UBUS_STATUS_NO_DATA : Z) else mret 0.

(** What a handler may do with its request (inline functions of [libubus.h]) *)
Definition ubus_defer_request (req : ptr) : stm ubus_context ubus_request_data :=
  r ← lload (T := ubus_request_data) req;
  lstore req (fun r => r <| rd_deferred := true |>);;
  mret r.

Definition ubus_request_set_fd (req : ptr) (fd : Z) : stm ubus_context unit :=
  lstore (T := ubus_request_data) req (fun r => r <| rd_fd := fd |>).

Definition ubus_request_get_caller_fd (req : ptr) : stm ubus_context Z :=
  r ← lload (T := ubus_request_data) req;
  lstore req (fun r => r <| rd_req_fd := -1 |>);;
  mret (rd_req_fd r).

(** ** The cache of the access rules *)

(** [acl_obj_policy] *)
Definition acl_obj_field (obj : bytes) (name : string) (type : blobmsg_type_t) : option bytes :=
  blobmsg_parse (blobmsg_data obj) name type.

Definition acl_add (obj : bytes) : stm ubus_context unit :=
  let tb_object := acl_obj_field obj "obj" BLOBMSG_TYPE_STRING in
  let tb_user := acl_obj_field obj "user" BLOBMSG_TYPE_STRING in
  let tb_group := acl_obj_field obj "group" BLOBMSG_TYPE_STRING in
  match tb_object, acl_obj_field obj "acl" BLOBMSG_TYPE_TABLE with
  | Some o, Some a =>
      if negb (has tb_user) && negb (has tb_group) then mret tt
      else
        ok ← sys_alloc;
        if negb ok then mret tt
        else
          let key := mk_acl_key (blobmsg_get_string <$> tb_user) (blobmsg_get_string <$> tb_group)
                       (Some (blobmsg_get_string o)) in
          modify (fun s => s <| acl_objects ::= fun t => snd (avl_insert t key (mk_acl_object key a)) |>)
  | _, _ => mret tt
  end.

(** [acl_policy] *)
Definition acl_recv_cb (msg : bytes) : stm ubus_context unit :=
  ok ← sys_alloc;
  if negb ok then mret tt
  else
    old ← gets acl_blob;
    when (has old) (modify (fun s => s <| acl_objects := avl_init acl_cmp true acl_object |>));;
    modify (fun s => s <| acl_blob := Some msg |>);;
    let tb_seq := blobmsg_parse (blobmsg_data msg) "seq" BLOBMSG_TYPE_INT32 in
    let tb_acl := blobmsg_parse (blobmsg_data msg) "acl" BLOBMSG_TYPE_ARRAY in
    if negb (has tb_seq) && negb (has tb_acl) then mret tt
    else
      match tb_acl with
      | None => mret tt
      | Some a => for_each (blobmsg_for_each_attr a) acl_add
      end.

Definition acl_query : stm ubus_context unit :=
  active ← gets acl_query_active;
  if (active : bool) then modify (fun s => s <| acl_query_deferred := true |>)
  else
    modify (fun s => s <| acl_query_active := true |>);;
    req ← gets acl_req;
    ubus_invoke_async_fd UBUS_SYSTEM_OBJECT_ACL "query" no_msg req (-1);;
    lstore req (fun r => r <| rq_data_cb := Some call_acl_recv_cb |>);;
    lstore req (fun r => r <| rq_complete_cb := Some call_acl_query_complete_cb |>);;
    ubus_complete_request_async req.

Definition acl_query_complete_cb : stm ubus_context unit :=
  modify (fun s => s <| acl_query_active := false |>);;
  deferred ← gets acl_query_deferred;
  if negb deferred then mret tt
  else
    modify (fun s => s <| acl_query_deferred := false |>);;
    acl_query.

Definition acl_subscribe_cb (type : string) : stm ubus_context unit :=
  if negb (strcmp type "ubus.acl.sequence" =? 0) then mret tt else acl_query.

(** ** Callbacks of the library's own requests *)

Context `{PR : !Program}.

(** [container_of(req, struct ubus_notify_request, req)] *)
Definition notify_of (req : ptr) : stm ubus_context notify_part :=
  r ← lload (T := ubus_request) req;
  match rq_nreq r with Some n => mret n | None => undefined end.

Definition ubus_notify_complete_cb (req : ptr) : stm ubus_context unit :=
  n ← notify_of req;
  match nq_complete_cb n with
  | None => mret tt
  | Some cb => program (ubus_notify_complete_handler cb req 0 0);; mret tt
  end.

Definition ubus_notify_data_cb (req : ptr) (type : Z) (msg : bytes) : stm ubus_context unit :=
  n ← notify_of req;
  match nq_data_cb n with
  | None => mret tt
  | Some cb => program (ubus_notify_data_handler cb req type msg);; mret tt
  end.

(** [s->new_obj_cb(ctx, s, path)], then [ubus_subscribe(ctx, s, id)] *)
Definition auto_subscribe (id : Z) (path : string) (sub : ptr) : stm ubus_context unit :=
  o ← lload (T := lib_object) sub;
  match lo_subscriber o ≫= sb_new_obj_cb with
  | None => undefined
  | Some cb =>
      ok ← program (ubus_new_object_handler cb sub path);
      if ok =? 0 then mret tt else nested_subscribe sub id;; mret tt
  end.

Definition ubus_auto_sub_lookup (obj : ubus_object_data) (priv : priv_ptr) : stm ubus_context unit :=
  match priv with
  | priv_obj sub => auto_subscribe (od_id obj) (od_path obj) sub
  | _ => undefined
  end.

(** [ubus_auto_sub_lookup] of [libubus-io.c] *)
Definition ubus_auto_sub_lookup_all (obj : ubus_object_data) : stm ubus_context unit :=
  l ← gets ctx_auto_subscribers;
  for_each l (auto_subscribe (od_id obj) (od_path obj)).

Definition ubus_lookup_cb (ureq : ptr) (msg : bytes) : stm ubus_context unit :=
  r ← lload (T := ubus_request) ureq;
  attr ← lib_parse_msg msg (blob_raw_len msg);
  match attr UBUS_ATTR_OBJID, attr UBUS_ATTR_OBJPATH, attr UBUS_ATTR_OBJTYPE with
  | Some aid, Some apath, Some atype =>
      let obj := mk_object_data (blob_get_u32 aid) (blob_get_u32 atype) (blob_string apath) (attr UBUS_ATTR_SIGNATURE) in
      match rq_lookup_cb r with
      | None => undefined
      | Some (call_lookup n) => program (ubus_lookup_handler n obj (rq_priv r));; mret tt
      | Some call_auto_sub_lookup => ubus_auto_sub_lookup obj (rq_priv r)
      | Some call_auto_sub_lookup_all => ubus_auto_sub_lookup_all obj
      end
  | _, _, _ => mret tt
  end.

Definition ubus_lookup_id_cb (req : ptr) (msg : bytes) : stm ubus_context unit :=
  r ← lload (T := ubus_request) req;
  attr ← lib_parse_msg msg (blob_raw_len msg);
  match attr UBUS_ATTR_OBJID with
  | None => mret tt
  | Some aid =>
      match rq_priv r with
      | priv_id p => lstore p (fun _ => blob_get_u32 aid)
      | _ => undefined
      end
  end.

(** [req->priv] of the requests that add and remove an object *)
Definition request_obj (req : ptr) : stm ubus_context ptr :=
  r ← lload (T := ubus_request) req;
  match rq_priv r with priv_obj p => mret p | _ => undefined end.

Definition ubus_add_object_cb (req : ptr) (msg : bytes) : stm ubus_context unit :=
  obj ← request_obj req;
  attr ← lib_parse_msg msg (blob_raw_len msg);
  match attr UBUS_ATTR_OBJID with
  | None => mret tt
  | Some aid =>
      lstore obj (fun o => o <| lo_id := blob_get_u32 aid |>);;
      o ← lload (T := lib_object) obj;
      match attr UBUS_ATTR_OBJTYPE with
      | None => mret tt
      | Some atype =>
          match lo_type o with
          | None => undefined
          | Some t => lstore (T := lib_object_type) t (fun t => t <| lt_id := blob_get_u32 atype |>)
          end
      end;;
      modify (fun s => s <| ctx_objects ::= fun t => snd (avl_insert t (lo_id o) obj) |>)
  end.

Definition ubus_remove_object_cb (req : ptr) (msg : bytes) : stm ubus_context unit :=
  obj ← request_obj req;
  attr ← lib_parse_msg msg (blob_raw_len msg);
  match attr UBUS_ATTR_OBJID with
  | None => mret tt
  | Some _ =>
      o ← lload (T := lib_object) obj;
      l ← gets (fun s => linked (ctx_objects s) (lo_id o) obj);
      assert l;;
      modify (fun s => s <| ctx_objects ::= fun t => avl_delete t (lo_id o) obj |>);;
      lstore obj (fun o => o <| lo_id := 0 |>);;
      match attr UBUS_ATTR_OBJTYPE, lo_type o with
      | Some _, Some t => lstore (T := lib_object_type) t (fun t => t <| lt_id := 0 |>)
      | _, _ => mret tt
      end
  end.

(** ** Calling what a request has stored *)

Definition call_data_handler (cb : data_handler) (req : ptr) (type : Z) (data : bytes) : stm ubus_context unit :=
  match cb with
  | call_data n => program (ubus_data_handler n req type data);; mret tt
  | call_ubus_notify_data_cb => ubus_notify_data_cb req type data
  | call_ubus_lookup_cb => ubus_lookup_cb req data
  | call_ubus_lookup_id_cb => ubus_lookup_id_cb req data
  | call_ubus_add_object_cb => ubus_add_object_cb req data
  | call_ubus_remove_object_cb => ubus_remove_object_cb req data
  | call_acl_recv_cb => acl_recv_cb data
  end.

Definition ubus_sync_req_cb (req : ptr) (ret : Z) : stm ubus_context unit :=
  lstore (T := ubus_request) req (fun r => r <| rq_status_msg := true |> <| rq_status_code := ret |>);;
  modify (fun s => s <| ctx_cancel_poll := true |>).

Definition call_complete_handler (cb : complete_handler) (req : ptr) (ret : Z) : stm ubus_context unit :=
  match cb with
  | call_complete n => program (ubus_complete_handler n req ret);; mret tt
  | call_ubus_sync_req_cb => ubus_sync_req_cb req ret
  | call_ubus_notify_complete_cb => ubus_notify_complete_cb req
  | call_acl_query_complete_cb => acl_query_complete_cb
  end.
End LibCalls.
