(* ===== verification/LibReq.v ===== *)
(** * Answers to requests: [src/libubus-req.c]

    How a STATUS or DATA message finds its request, what it does to it, and how
    requests end. *)

From stdpp Require Import base gmap strings list fin_maps.
From Stdlib Require Import ZArith Lia.
From S2P Require Import Prelude Wire Cstring Libubox Ids State LibState LibIo LibCalls.
Local Open Scope Z_scope.
Local Open Scope ubus_scope.

(** [ubus_find_notify_id]: the position of an awaited peer, -1 when there is
    none, [None] when the loop leaves the array. *)
Fixpoint find_notify_id (ids : list Z) (pending objid i : Z) : option Z :=
  if pending =? 0 then Some (-1)
  else
    match ids with
    | [] => None
    | id :: ids =>
        if Z.odd pending && (id =? objid) then Some i
        else find_notify_id ids (Z.shiftr pending 1) objid (i + 1)
    end.

Definition ubus_find_notify_id (n : notify_part) (objid : Z) : option Z :=
  find_notify_id (nq_id n) (nq_pending n) objid 0.

Section LibReq.
Context `{AL : AvlLib} `{PM : ProgMem} `{BL : BlobLib} `{PR : !Program}.
Implicit Types (s : ubus_context).

Definition req_data_cb (req : ptr) (type : Z) (data : bytes) : stm ubus_context unit :=
  r ← lload (T := ubus_request) req;
  match rq_raw_data_cb r with
  | Some cb => call_data_handler cb req type data
  | None => mret tt
  end;;
  r ← lload (T := ubus_request) req;
  match rq_data_cb r with
  | None => mret tt
  | Some _ =>
      attr ← lib_parse_msg data (blob_raw_len data);
      match attr UBUS_ATTR_DATA, rq_data_cb r with
      | Some d, Some cb => call_data_handler cb req type d
      | _, _ => mret tt
      end
  end.

(** One turn of [__ubus_process_req_data]: undefined when the entry the loop is
    at has been released meanwhile. *)
Definition process_pending_data (req : ptr) (data : ptr) : stm ubus_context unit :=
  r ← lload (T := ubus_request) req;
  assert (bool_decide (data ∈ rq_pending r));;
  d ← lload (T := ubus_pending_data) data;
  lstore req (fun r => r <| rq_pending ::= list_del data |>);;
  when (negb (rq_cancelled r)) (req_data_cb req (pd_type d) (pd_data d));;
  end_local (T := ubus_pending_data) data.

(** [__ubus_process_req_data] *)
Definition process_all_pending_data (req : ptr) : stm ubus_context unit :=
  r ← lload (T := ubus_request) req;
  for_each (rq_pending r) (process_pending_data req).

Definition ubus_abort_request (req : ptr) : stm ubus_context unit :=
  e ← req_list_empty req;
  if (e : bool) then mret tt
  else
    lstore (T := ubus_request) req (fun r => r <| rq_cancelled := true |>);;
    process_all_pending_data req;;
    req_list_del req.

Definition ubus_req_complete_cb (req : ptr) : stm ubus_context unit :=
  r ← lload (T := ubus_request) req;
  match rq_complete_cb r with
  | None => mret tt
  | Some cb =>
      lstore req (fun r => r <| rq_complete_cb := None |>);;
      call_complete_handler cb req (rq_status_code r)
  end.

Definition ubus_set_req_status (req : ptr) (ret : Z) : stm ubus_context unit :=
  e ← req_list_empty req;
  when (negb e) (req_list_del req);;
  lstore (T := ubus_request) req (fun r => r <| rq_status_msg := true |> <| rq_status_code := ret |>);;
  r ← lload (T := ubus_request) req;
  when (negb (rq_blocked r)) (ubus_req_complete_cb req).

(** The loop of [ubus_flush_requests]: a completed request's callback may start
    another one; if that goes on for ever the loop has no result. *)
Fixpoint flush_loop (fuel : nat) : stm ubus_context unit :=
  l ← gets ctx_requests;
  match l, fuel with
  | [], _ => mret tt
  | req :: _, S fuel => ubus_set_req_status req UBUS_STATUS_TIMEOUT;; flush_loop fuel
  | _ :: _, O => undefined
  end.

Definition ubus_flush_requests : stm ubus_context unit :=
  n ← gets (fun s => length (ctx_requests s));
  flush_loop (n + flush_restarts).

(** [ubus_get_status]: [ret] stays when there is no status. *)
Definition ubus_get_status (data : bytes) (ret : Z) : stm ubus_context Z :=
  attr ← lib_parse_msg data (blob_raw_len data);
  mret (match attr UBUS_ATTR_STATUS with Some a => i32 (blob_get_u32 a) | None => ret end).

Definition ubus_process_req_status (req : ptr) (buf : ubus_msghdr_buf) : stm ubus_context unit :=
  ret ← ubus_get_status (mb_data buf) UBUS_STATUS_INVALID_ARGUMENT;
  lstore (T := ubus_request) req (fun r => r <| rq_peer := hdr_peer (mb_hdr buf) |>);;
  ubus_set_req_status req ret.

Definition ubus_process_req_data (req : ptr) (buf : ubus_msghdr_buf) : stm ubus_context unit :=
  r ← lload (T := ubus_request) req;
  if negb (rq_blocked r) then
    lstore req (fun r => r <| rq_blocked := true |>);;
    req_data_cb req (hdr_type (mb_hdr buf)) (mb_data buf);;
    process_all_pending_data req;;
    lstore (T := ubus_request) req (fun r => r <| rq_blocked := false |>);;
    r ← lload (T := ubus_request) req;
    when (rq_status_msg r) (ubus_req_complete_cb req)
  else
    ok ← sys_alloc;
    if negb ok then mret tt
    else
      data ← new_local (mk_pending_data (hdr_type (mb_hdr buf)) (take (Z.to_nat (blob_raw_len (mb_data buf))) (mb_data buf)));
      lstore (T := ubus_request) req (fun r => r <| rq_pending ::= cons data |>).

(** The request an answer belongs to; [id] is the position of the peer when it
    is a notify request. *)
Fixpoint find_request_loop (l : list ptr) (seq peer id : Z) : stm ubus_context (option ptr * Z) :=
  match l with
  | [] => mret (None, id)
  | req :: l =>
      r ← lload (T := ubus_request) req;
      if negb (seq =? rq_seq r) then find_request_loop l seq peer id
      else if rq_notify r then
        n ← notify_of req;
        if nq_pending n =? 0 then find_request_loop l seq peer id
        else
          match ubus_find_notify_id n peer with
          | None => undefined
          | Some id => if id <? 0 then find_request_loop l seq peer id else mret (Some req, id)
          end
      else if negb (peer =? rq_peer r) then find_request_loop l seq peer id
      else mret (Some req, id)
  end.

Definition ubus_find_request (seq peer : Z) : stm ubus_context (option ptr * Z) :=
  l ← gets ctx_requests;
  find_request_loop l seq peer (-1).

Definition store_notify (req : ptr) (f : notify_part -> notify_part) : stm ubus_context unit :=
  n ← notify_of req;
  lstore (T := ubus_request) req (fun r => r <| rq_nreq := Some (f n) |>).

(** The loop over the subscribers of the daemon's answer *)
Fixpoint notify_subscribers (l : list bytes) (idx : nat) (n : notify_part) : notify_part :=
  match l with
  | [] => n
  | cur :: l =>
      if negb (blob_check_type cur BLOB_ATTR_INT32) then notify_subscribers l idx n
      else
        let n := n <| nq_pending ::= fun p => Z.lor p (Z.shiftl 1 (Z.of_nat idx)) |>
                   <| nq_id ::= insert idx (blob_get_u32 cur) |> in
        if (S idx =? S UBUS_MAX_NOTIFY_PEERS)%nat then n else notify_subscribers l (S idx) n
  end.

Definition ubus_process_notify_status (req : ptr) (id : Z) (buf : ubus_msghdr_buf) : stm ubus_context unit :=
  store_notify req (fun n => n <| nq_pending ::= fun p => Z.land p (u32 (Z.lnot (Z.shiftl 1 id))) |>);;
  (if id =? 0 then
     tb ← lib_parse_msg (mb_data buf) (blob_raw_len (mb_data buf));
     match tb UBUS_ATTR_SUBSCRIBERS with
     | None => mret tt
     | Some a => store_notify req (notify_subscribers (blob_for_each_attr a) 1)
     end
   else
     ret ← ubus_get_status (mb_data buf) 0;
     n ← notify_of req;
     match nq_status_cb n with
     | None => mret tt
     | Some cb => program (ubus_notify_complete_handler cb req id ret);; mret tt
     end);;
  n ← notify_of req;
  when (nq_pending n =? 0) (ubus_set_req_status req 0).

Definition ubus_process_req_msg (buf : ubus_msghdr_buf) (fd : Z) : stm ubus_context unit :=
  let hdr := mb_hdr buf in
  if hdr_type hdr =? UBUS_MSG_STATUS then
    '(req, id) ← ubus_find_request (hdr_seq hdr) (hdr_peer hdr);
    match req with
    | None => close_if fd
    | Some req =>
        r ← lload (T := ubus_request) req;
        fd ← match rq_fd_cb r with
             | Some cb => if 0 <=? fd then program (ubus_fd_handler cb req fd);; mret (-1) else mret fd
             | None => mret fd
             end;
        (if 0 <=? id then ubus_process_notify_status req id buf else ubus_process_req_status req buf);;
        close_if fd
    end
  else if hdr_type hdr =? UBUS_MSG_DATA then
    '(req, id) ← ubus_find_request (hdr_seq hdr) (hdr_peer hdr);
    match req with
    | None => mret tt
    | Some req =>
        r ← lload (T := ubus_request) req;
        when (has (rq_data_cb r) || has (rq_raw_data_cb r)) (ubus_process_req_data req buf)
    end;;
    close_if fd
  else close_if fd.
End LibReq.
