(* ===== verification/LibObj.v ===== *)
(** * Calls and notifications for the program's objects: [src/libubus-obj.c] *)

From stdpp Require Import base gmap strings list fin_maps.
From Stdlib Require Import ZArith Lia.
From S2P Require Import Prelude Wire Cstring Libubox Ids State LibState LibIo LibCalls.
Local Open Scope Z_scope.
Local Open Scope ubus_scope.

(** The entries of [obj->methods]; the library's two tables have one catch-all
    each. *)
Definition method_list (t : method_table) : list lib_method :=
  match t with
  | watch_method => [mk_lib_method None call_ubus_subscriber_cb 0 []]
  | event_method => [mk_lib_method None call_ubus_event_cb 0 []]
  | methods l => l
  end.

Definition ubus_object_find_method (obj : lib_object) (name : string) : option lib_method :=
  List.find (fun m => match lm_name m with None => true | Some n => strcmp n name =? 0 end)
    (method_list (lo_methods obj)).

Section LibObj.
Context `{AL : AvlLib} `{PM : ProgMem} `{BL : BlobLib} `{PR : !Program}.
Implicit Types (s : ubus_context).

(** [attrbuf[a]], read now *)
Definition attr (a : ubus_msg_attr) : stm ubus_context (option bytes) := gets (fun s => attrbuf s a).

Definition ubus_process_unsubscribe (obj : option ptr) (fd : Z) : stm ubus_context unit :=
  close_if fd;;
  target ← attr UBUS_ATTR_TARGET;
  match obj, target with
  | Some obj, Some t =>
      o ← lload (T := lib_object) obj;
      match lo_methods o, lo_subscriber o with
      | watch_method, Some sub =>
          match sb_remove_cb sub with
          | None => mret tt
          | Some cb => program (ubus_remove_handler cb obj (blob_get_u32 t));; mret tt
          end
      | watch_method, None => undefined
      | _, _ => mret tt
      end
  | _, _ => mret tt
  end.

Definition ubus_process_notify (obj : option ptr) (fd : Z) : stm ubus_context unit :=
  close_if fd;;
  active ← attr UBUS_ATTR_ACTIVE;
  match obj, active with
  | Some obj, Some a =>
      lstore (T := lib_object) obj (fun o => o <| lo_has_subscribers := negb (blob_get_int8 a =? 0) |>);;
      o ← lload (T := lib_object) obj;
      match lo_subscribe_cb o with
      | None => mret tt
      | Some cb => program (ubus_state_handler cb obj);; mret tt
      end
  | _, _ => mret tt
  end.

(** An object has appeared: every automatic subscriber is asked. *)
Definition ubus_auto_sub_event_handler_cb (msg : bytes) : stm ubus_context unit :=
  match blobmsg_parse (blob_data msg) "id" BLOBMSG_TYPE_INT32, blobmsg_parse (blob_data msg) "path" BLOBMSG_TYPE_STRING with
  | Some aid, Some apath =>
      l ← gets ctx_auto_subscribers;
      for_each l (auto_subscribe (blobmsg_get_u32 aid) (blobmsg_get_string apath))
  | _, _ => mret tt
  end.

(** [ubus_event_cb], with the callback of the handler around the object *)
Definition ubus_event_cb (obj : ptr) (method : string) (msg : bytes) : stm ubus_context Z :=
  o ← lload (T := lib_object) obj;
  match lo_event_cb o with
  | None => undefined
  | Some (call_event n) => program (ubus_event_handler n obj method msg);; mret tt
  | Some call_auto_sub_event => ubus_auto_sub_event_handler_cb msg
  | Some call_acl_subscribe_cb => acl_subscribe_cb method
  end;;
  mret 0.

Definition ubus_subscriber_cb (obj req : ptr) (method : string) (msg : bytes) : stm ubus_context Z :=
  o ← lload (T := lib_object) obj;
  match lo_subscriber o with
  | None => undefined
  | Some sub =>
      match sb_cb sub with
      | Some cb => program (ubus_handler cb (Some obj) req method msg)
      | None => mret 0
      end
  end.

(** [method->handler(ctx, obj, req, name, msg)] *)
Definition call_method_handler (h : method_handler) (obj req : ptr) (name : string) (msg : bytes) : stm ubus_context Z :=
  match h with
  | call_method n => program (ubus_handler n (Some obj) req name msg)
  | call_ubus_event_cb => ubus_event_cb obj name msg
  | call_ubus_subscriber_cb => ubus_subscriber_cb obj req name msg
  end.

(** From the label [found] on: the status, [None] when none is to be sent.
    [method] comes with its object; without it the context is a channel. *)
Definition invoke_found (method : option (ptr * lib_method)) (req : ptr) (no_reply : bool) : stm ubus_context (option Z) :=
  data ← attr UBUS_ATTR_DATA;
  match data with
  | None => mret (Some (UBUS_STATUS_INVALID_ARGUMENT : Z))
  | Some d =>
      pre ← gets ctx_pre_invoke;
      ret ← match method, pre with
            | Some (obj, m), Some cb => program (ubus_invoke_handler cb obj m req d)
            | _, _ => mret 0
            end;
      ret ← (if negb (ret =? 0) then mret ret
             else
               name ← attr UBUS_ATTR_METHOD;
               data ← attr UBUS_ATTR_DATA;
               match name, data with
               | Some name, Some data =>
                   match method with
                   | Some (obj, m) => call_method_handler (lm_handler m) obj req (blob_string name) data
                   | None =>
                       h ← gets ctx_request_handler;
                       match h with
                       | Some h => program (ubus_handler h None req (blob_string name) data)
                       | None => undefined
                       end
                   end
               | _, _ => undefined
               end);
      r ← lload (T := ubus_request_data) req;
      mret (if rd_deferred r || no_reply then None else Some ret)
  end.

(** [ubus_process_invoke] up to the label [send]: the status, [None] when none
    is to be sent. *)
Definition invoke_status (hdr : ubus_msghdr) (obj : option ptr) (req : ptr) : stm ubus_context (option Z) :=
  s ← gets (fun s => s);
  let channel := ubus_context_is_channel s in
  if (negb (has obj) && negb channel) || (negb (has (ctx_request_handler s)) && channel) then
    mret (Some (UBUS_STATUS_NOT_FOUND : Z))
  else
    name ← attr UBUS_ATTR_METHOD;
    match name with
    | None => mret (Some (UBUS_STATUS_INVALID_ARGUMENT : Z))
    | Some name =>
        nr ← attr UBUS_ATTR_NO_REPLY;
        let no_reply := match nr with Some a => negb (blob_get_int8 a =? 0) | None => false end in
        lstore (T := ubus_request_data) req (fun r => r <| rd_peer := hdr_peer hdr |> <| rd_seq := hdr_seq hdr |>);;
        match obj, channel with
        | _, true => invoke_found None req no_reply
        | None, false => undefined
        | Some obj, false =>
            o ← lload (T := lib_object) obj;
            lstore (T := ubus_request_data) req (fun r => r <| rd_object := lo_id o |>);;
            user ← attr UBUS_ATTR_USER;
            group ← attr UBUS_ATTR_GROUP;
            match user, group with
            | Some u, Some g =>
                lstore (T := ubus_request_data) req (fun r =>
                  r <| rd_acl := mk_acl_key (Some (blobmsg_get_string u)) (Some (blobmsg_get_string g)) (lo_name o) |>)
            | _, _ => mret tt
            end;;
            match ubus_object_find_method o (blob_string name) with
            | None => mret (Some (UBUS_STATUS_METHOD_NOT_FOUND : Z))
            | Some m => invoke_found (Some (obj, m)) req no_reply
            end
        end
    end.

Definition ubus_process_invoke (hdr : ubus_msghdr) (obj : option ptr) (fd : Z) : stm ubus_context unit :=
  req ← new_local (mk_request_data 0 0 0 (mk_acl_key None None None) false (-1) fd);
  ret ← invoke_status hdr obj req;
  r ← lload (T := ubus_request_data) req;
  close_if (rd_req_fd r);;
  match ret with
  | Some ret => ubus_complete_deferred_request req ret
  | None => mret tt
  end;;
  end_local (T := ubus_request_data) req.

(** [ubus_process_obj_msg]; [in_msgbuf]: [buf == &ctx->msgbuf].  While the
    callback runs the context has no buffer, so that a nested call gets one of
    its own. *)
Definition ubus_process_obj_msg (buf : ubus_msghdr_buf) (in_msgbuf : bool) (fd : Z) : stm ubus_context unit :=
  let hdr := mb_hdr buf in
  tb ← lib_parse_msg (mb_data buf) (blob_raw_len (mb_data buf));
  match tb UBUS_ATTR_OBJID with
  | None => close_if fd
  | Some aid =>
      obj ← gets (fun s => avl_find (ctx_objects s) (blob_get_u32 aid));
      let cb := if hdr_type hdr =? UBUS_MSG_INVOKE then Some (ubus_process_invoke hdr obj fd)
                else if hdr_type hdr =? UBUS_MSG_UNSUBSCRIBE then Some (ubus_process_unsubscribe obj fd)
                else if hdr_type hdr =? UBUS_MSG_NOTIFY then Some (ubus_process_notify obj fd)
                else None in
      match cb with
      | None => close_if fd
      | Some cb =>
          prev_data ← (if in_msgbuf then
                         d ← gets ctx_msgbuf_data;
                         modify (fun s => s <| ctx_msgbuf_data := None |>);;
                         mret d
                       else mret None);
          cb;;
          match prev_data with
          | Some d => modify (fun s => s <| ctx_msgbuf_data ::= fun cur => if has cur then cur else Some d |>)
          | None => mret tt
          end
      end
  end.
End LibObj.
