(* ===== verification/LibMain.v ===== *)
(** * Dispatch, waiting and the functions a program calls

    [ubus_process_msg] and the queue of deferred messages ([src/libubus.c]),
    [ubus_handle_data] ([src/libubus-io.c]), [ubus_complete_request]
    ([src/libubus-req.c]) and the requests built on it. *)

From stdpp Require Import base gmap strings list fin_maps.
From Stdlib Require Import ZArith Lia.
From S2P Require Import Prelude Wire Cstring Libubox Ids State LibState LibIo LibCalls LibReq LibObj.
Local Open Scope Z_scope.
Local Open Scope ubus_scope.

(** [ubus_push_method_data] *)
Definition method_policy_puts (m : lib_method) : list put :=
  (fun e => msg_u32 e.2.1 e.2.2) <$>
    List.filter (fun e => (lm_mask m =? 0) || Z.testbit (lm_mask m) (Z.of_nat e.1)) (imap pair (lm_policy m)).

Definition ubus_push_method_data (m : lib_method) : put := msg_table (lm_name m) (method_policy_puts m).

Definition ubus_push_object_type (t : lib_object_type) : put :=
  put_nest UBUS_ATTR_SIGNATURE (ubus_push_method_data <$> lt_methods t).

Section LibMain.
Context `{AL : AvlLib} `{PM : ProgMem} `{BL : BlobLib} `{PR : !Program}.
Implicit Types (s : ubus_context).

(** ** Dispatch *)

Definition ubus_queue_msg (buf : ubus_msghdr_buf) : stm ubus_context unit :=
  ok ← sys_alloc;
  if negb ok then mret tt
  else
    modify (fun s => s <| ctx_pending ::= fun l =>
      l ++ [mk_msghdr_buf (mb_hdr buf) (take (Z.to_nat (blob_raw_len (mb_data buf))) (mb_data buf))] |>).

Definition process_obj_or_queue (buf : ubus_msghdr_buf) (in_msgbuf : bool) (fd : Z) : stm ubus_context unit :=
  depth ← gets ctx_stack_depth;
  if negb (depth =? 0) then ubus_queue_msg buf;; close_if fd
  else
    modify (fun s => s <| ctx_stack_depth ::= Z.add 1 |>);;
    ubus_process_obj_msg buf in_msgbuf fd;;
    modify (fun s => s <| ctx_stack_depth ::= fun n => n - 1 |>).

Definition ubus_process_msg (buf : ubus_msghdr_buf) (in_msgbuf : bool) (fd : Z) : stm ubus_context unit :=
  let type := hdr_type (mb_hdr buf) in
  channel ← gets ubus_context_is_channel;
  if (type =? UBUS_MSG_STATUS) || (type =? UBUS_MSG_DATA) then ubus_process_req_msg buf fd
  else if (type =? UBUS_MSG_UNSUBSCRIBE) || (type =? UBUS_MSG_NOTIFY) then
    if (channel : bool) then close_if fd else process_obj_or_queue buf in_msgbuf fd
  else if type =? UBUS_MSG_INVOKE then process_obj_or_queue buf in_msgbuf fd
  else if type =? UBUS_MSG_MONITOR then
    if (channel : bool) then close_if fd
    else
      cb ← gets ctx_monitor_cb;
      match cb with
      | Some cb => program (monitor_cb cb (hdr_seq (mb_hdr buf)) (mb_data buf));; mret tt
      | None => mret tt
      end;;
      close_if fd
  else close_if fd.

(** [ubus_process_pending_msg], the callback of [pending_timer]: handling a
    message may queue others, which come from the socket. *)
Fixpoint process_pending_loop (fuel : nat) : stm ubus_context unit :=
  s ← gets (fun s => s);
  match ctx_pending s, fuel with
  | [], _ | _ :: _, O => mret tt
  | buf :: rest, S fuel =>
      if negb (ctx_stack_depth s =? 0) then mret tt
      else
        modify (fun s => s <| ctx_pending := rest |>);;
        ubus_process_msg buf false (-1);;
        process_pending_loop fuel
  end.

Definition ubus_process_pending_msg : stm ubus_context unit :=
  fuel ← gets (fun s => (length (ctx_pending s) + length (so_recv (sys s)))%nat);
  process_pending_loop fuel.

(** [if (!ctx->stack_depth) ctx->pending_timer.cb(&ctx->pending_timer);] *)
Definition process_pending_if_idle : stm ubus_context unit :=
  depth ← gets ctx_stack_depth;
  when (depth =? 0) ubus_process_pending_msg.

(** ** Input *)

(** The loop of [ubus_handle_data]: the variable [recv_fd] at its end; every
    message takes an answer of the socket. *)
Fixpoint handle_data_loop (fuel : nat) : stm ubus_context Z :=
  process_pending_if_idle;;
  '(ok, recv_fd) ← get_next_msg (-1);
  if negb ok then mret recv_fd
  else
    s ← gets (fun s => s);
    match ctx_msgbuf_data s with
    | None => undefined
    | Some d => ubus_process_msg (mk_msghdr_buf (ctx_msgbuf_hdr s) d) true recv_fd
    end;;
    s ← gets (fun s => s);
    match fuel with
    | S fuel => if uloop_cancelling s || ctx_cancel_poll s then mret (-1) else handle_data_loop fuel
    | O => mret (-1)
    end.

Definition ubus_default_connection_lost : stm ubus_context unit :=
  registered ← gets ctx_sock_registered;
  when registered (modify (fun s => s <| uloop_ended := true |>)).

(** [conn], found from the context within it, and its fields *)
Definition auto_conn_of : stm ubus_context auto_conn :=
  s ← gets (fun s => s);
  match ctx_auto_conn s with Some c => mret c | None => undefined end.

Definition auto_conn_set (f : auto_conn -> auto_conn) : stm ubus_context unit :=
  conn ← auto_conn_of;
  modify (fun s => s <| ctx_auto_conn := Some (f conn) |>).

(** [uloop_timeout_set(&conn->timer, 1000)] *)
Definition auto_timer_set : stm ubus_context unit := auto_conn_set (fun c => c <| ac_timer := Some 1000 |>).

Definition ubus_auto_disconnect_cb : stm ubus_context unit :=
  auto_conn_set (fun c => c <| ac_timer_cb := call_ubus_auto_reconnect_cb |>);;
  auto_timer_set.

Definition call_connection_lost : stm ubus_context unit :=
  cb ← gets ctx_connection_lost;
  match cb with
  | call_lost cb => program (connection_lost cb);; mret tt
  | call_ubus_default_connection_lost => ubus_default_connection_lost
  | call_ubus_auto_disconnect_cb => ubus_auto_disconnect_cb
  end.

Definition ubus_handle_data : stm ubus_context unit :=
  fuel ← gets (fun s => length (so_recv (sys s)));
  recv_fd ← handle_data_loop fuel;
  close_if recv_fd;;
  process_pending_if_idle;;
  eof ← gets ctx_sock_eof;
  when eof (ubus_flush_requests;; call_connection_lost).

(** [ctx->sock.cb] is [ubus_handle_data]. *)
Definition ubus_handle_event : stm ubus_context unit := ubus_handle_data.

(** [poll] waits until there is something to read or the time is over. *)
Definition ubus_poll_data : stm ubus_context unit :=
  modify (fun s => s <| ctx_cancel_poll := false |>);;
  ubus_handle_data.

(** ** Waiting for an answer *)

(** The loop of [ubus_complete_request]; [time_end] is [None] without a time
    limit. *)
Fixpoint complete_loop (fuel : nat) (req : ptr) (time_end : option Z) : stm ubus_context unit :=
  r ← lload (T := ubus_request) req;
  if rq_status_msg r then mret tt
  else
    expired ← match time_end with
              | None => mret false
              | Some t => now ← sys_clock; mret (t - now <=? 0)
              end;
    if (expired : bool) then ubus_set_req_status req UBUS_STATUS_TIMEOUT
    else
      ubus_poll_data;;
      eof ← gets ctx_sock_eof;
      if (eof : bool) then
        ubus_set_req_status req UBUS_STATUS_CONNECTION_FAILED;;
        modify (fun s => s <| ctx_cancel_poll := true |>)
      else
        match fuel with
        | S fuel => complete_loop fuel req time_end
        | O => mret tt
        end.

Definition ubus_complete_request (req : ptr) (req_timeout : Z) : stm ubus_context Z :=
  r ← lload (T := ubus_request) req;
  let complete_cb := rq_complete_cb r in
  time_end ← (if req_timeout =? 0 then mret None else now ← sys_clock; mret (Some (now + req_timeout)));
  ubus_complete_request_async req;;
  lstore (T := ubus_request) req (fun r => r <| rq_complete_cb := Some call_ubus_sync_req_cb |>);;
  modify (fun s => s <| ctx_stack_depth ::= Z.add 1 |>);;
  fuel ← gets (fun s => length (so_recv (sys s)));
  complete_loop fuel req time_end;;
  modify (fun s => s <| ctx_stack_depth ::= fun n => n - 1 |>);;
  depth ← gets ctx_stack_depth;
  when (negb (depth =? 0)) (modify (fun s => s <| ctx_cancel_poll := true |>));;
  r ← lload (T := ubus_request) req;
  let status := if rq_status_msg r then rq_status_code r else (UBUS_STATUS_NO_DATA : Z) in
  lstore (T := ubus_request) req (fun r => r <| rq_complete_cb := complete_cb |>);;
  match complete_cb with
  | Some cb => call_complete_handler cb req status
  | None => mret tt
  end;;
  s ← gets (fun s => s);
  when ((ctx_stack_depth s =? 0) && negb (ctx_sock_registered s)) ubus_process_pending_msg;;
  mret status.

(** ** Requests *)

(** [if (ubus_context_is_channel(ctx)) return UBUS_STATUS_INVALID_ARGUMENT;] *)
Definition not_on_channel (m : stm ubus_context Z) : stm ubus_context Z :=
  channel ← gets ubus_context_is_channel;
  if (channel : bool) then mret (UBUS_STATUS_INVALID_ARGUMENT : Z) else m.

(** A request in a local variable: started, given its callbacks, completed *)
Definition local_request (init : ubus_request) (msg : list put) (cmd peer : Z)
    (callbacks : ubus_request -> ubus_request) : stm ubus_context Z :=
  req ← new_local init;
  ret ← ubus_start_request req (Some (blob_render msg)) cmd peer;
  ret ← (if ret <? 0 then mret (UBUS_STATUS_INVALID_ARGUMENT : Z)
         else lstore req callbacks;; ubus_complete_request req 0);
  end_local (T := ubus_request) req;;
  mret ret.

Definition ubus_invoke_fd (obj : Z) (method : string) (msg : msg_arg) (cb : option nat) (priv : priv_ptr)
    (timeout fd : Z) : stm ubus_context Z :=
  req ← new_local request_zero;
  rc ← ubus_invoke_async_fd obj method msg req fd;
  rc ← (if negb (rc =? 0) then mret rc
        else
          lstore (T := ubus_request) req (fun r => r <| rq_data_cb := call_data <$> cb |> <| rq_priv := priv |>);;
          ubus_complete_request req timeout);
  end_local (T := ubus_request) req;;
  mret rc.

Definition ubus_invoke (obj : Z) (method : string) (msg : msg_arg) (cb : option nat) (priv : priv_ptr)
    (timeout : Z) : stm ubus_context Z := ubus_invoke_fd obj method msg cb priv timeout (-1).

Definition opt_path (path : option string) : list put :=
  match path with Some p => [put_string UBUS_ATTR_OBJPATH p] | None => [] end.

Definition lookup_with (path : option string) (cb : lookup_handler) (priv : priv_ptr) : stm ubus_context Z :=
  not_on_channel (local_request request_zero (opt_path path) UBUS_MSG_LOOKUP 0 (fun r =>
    r <| rq_raw_data_cb := Some call_ubus_lookup_cb |> <| rq_priv := priv |> <| rq_lookup_cb := Some cb |>)).

Definition ubus_lookup (path : option string) (cb : nat) (priv : priv_ptr) : stm ubus_context Z :=
  lookup_with path (call_lookup cb) priv.

Definition ubus_lookup_id (path : option string) (id : ptr) : stm ubus_context Z :=
  not_on_channel (local_request request_zero (opt_path path) UBUS_MSG_LOOKUP 0 (fun r =>
    r <| rq_raw_data_cb := Some call_ubus_lookup_id_cb |> <| rq_priv := priv_id id |>)).

(** [data] is what the program's blob holds. *)
Definition ubus_send_event (id : string) (data : bytes) : stm ubus_context Z :=
  local_request request_zero
    [put_int32 UBUS_ATTR_OBJID UBUS_SYSTEM_OBJECT_EVENT; put_string UBUS_ATTR_METHOD "send";
     put_nest UBUS_ATTR_DATA [msg_string "id" id; msg_field BLOBMSG_TYPE_TABLE "data" (blob_data data)]]
    UBUS_MSG_INVOKE UBUS_SYSTEM_OBJECT_EVENT (fun r => r).

(** ** Objects *)

Definition ubus_add_object (obj : ptr) : stm ubus_context Z :=
  not_on_channel (
    o ← lload (T := lib_object) obj;
    puts ← match lo_name o, lo_type o with
           | Some name, Some t =>
               ty ← lload (T := lib_object_type) t;
               mret [put_string UBUS_ATTR_OBJPATH name;
                     if negb (lt_id ty =? 0) then put_int32 UBUS_ATTR_OBJTYPE (lt_id ty)
                     else ubus_push_object_type ty]
           | _, _ => mret []
           end;
    ret ← local_request request_zero puts UBUS_MSG_ADD_OBJECT 0 (fun r =>
            r <| rq_raw_data_cb := Some call_ubus_add_object_cb |> <| rq_priv := priv_obj obj |>);
    if negb (ret =? 0) then mret ret
    else
      o ← lload (T := lib_object) obj;
      mret (if lo_id o =? 0 then (UBUS_STATUS_NO_DATA : Z) else 0)).

Definition ubus_remove_object (obj : ptr) : stm ubus_context Z :=
  not_on_channel (
    o ← lload (T := lib_object) obj;
    ret ← local_request request_zero [put_int32 UBUS_ATTR_OBJID (lo_id o)] UBUS_MSG_REMOVE_OBJECT 0 (fun r =>
            r <| rq_raw_data_cb := Some call_ubus_remove_object_cb |> <| rq_priv := priv_obj obj |>);
    if negb (ret =? 0) then mret ret
    else
      o ← lload (T := lib_object) obj;
      mret (if negb (lo_id o =? 0) then (UBUS_STATUS_NO_DATA : Z) else 0)).

(** [__ubus_subscribe_request] *)
Definition subscribe_request (obj : ptr) (id : Z) (type : Z) : stm ubus_context Z :=
  not_on_channel (
    o ← lload (T := lib_object) obj;
    local_request request_zero [put_int32 UBUS_ATTR_OBJID (lo_id o); put_int32 UBUS_ATTR_TARGET id] type 0 (fun r => r)).

(** [ubus_subscribe] and [ubus_unsubscribe] of [libubus-sub.c] *)
Definition lib_subscribe (obj : ptr) (id : Z) : stm ubus_context Z := subscribe_request obj id UBUS_MSG_SUBSCRIBE.
Definition lib_unsubscribe (obj : ptr) (id : Z) : stm ubus_context Z := subscribe_request obj id UBUS_MSG_UNSUBSCRIBE.

(** ** Events *)

Definition ubus_register_event_handler (ev : ptr) (pattern : option string) : stm ubus_context Z :=
  not_on_channel (
    o ← lload (T := lib_object) ev;
    ret ← (if negb (lo_id o =? 0) then mret 0
           else
             lstore ev (fun o => o <| lo_methods := event_method |>);;
             if xorb (has (lo_name o)) (has (lo_type o)) then mret (UBUS_STATUS_INVALID_ARGUMENT : Z)
             else ubus_add_object ev);
    if negb (ret =? 0) then mret ret
    else
      o ← lload (T := lib_object) ev;
      let b2 := blob_render (msg_u32 "object" (lo_id o) ::
                  match pattern with Some p => [msg_string "pattern" p] | None => [] end) in
      ubus_invoke UBUS_SYSTEM_OBJECT_EVENT "register" (msg_at b2) None priv_none 0).

Definition ubus_register_subscriber (sub : ptr) : stm ubus_context Z :=
  not_on_channel (
    l ← gets ctx_auto_subscribers;
    assert (negb (bool_decide (sub ∈ l)));;
    lstore (T := lib_object) sub (fun o =>
      o <| lo_subscriber ::= fmap (fun p => p <| sb_init := true |>) |> <| lo_methods := watch_method |>);;
    ret ← ubus_add_object sub;
    if negb (ret =? 0) then mret ret
    else
      o ← lload (T := lib_object) sub;
      match lo_subscriber o with
      | None => undefined
      | Some p =>
          (if has (sb_new_obj_cb p) then
             modify (fun s => s <| ctx_auto_subscribers ::= cons sub |>);;
             ev ← gets ctx_auto_event;
             lstore (T := lib_object) ev (fun o => o <| lo_event_cb := Some call_auto_sub_event |>);;
             o ← lload (T := lib_object) ev;
             (if lo_id o =? 0 then _ ← ubus_register_event_handler ev (Some "ubus.object.add"%string); mret tt else mret tt);;
             _ ← lookup_with None call_auto_sub_lookup (priv_obj sub);
             mret tt
           else mret tt);;
          mret 0
      end).

(** [list_del_init] of a node that was never set up is undefined. *)
Definition ubus_unregister_subscriber (sub : ptr) : stm ubus_context Z :=
  o ← lload (T := lib_object) sub;
  match lo_subscriber o with
  | Some p =>
      assert (sb_init p);;
      modify (fun s => s <| ctx_auto_subscribers ::= list_del sub |>);;
      ubus_remove_object sub
  | None => undefined
  end.

Definition ubus_unregister_event_handler (ev : ptr) : stm ubus_context Z := ubus_remove_object ev.

Definition ubus_register_acl : stm ubus_context Z :=
  ev ← gets acl_event;
  lstore (T := lib_object) ev (fun o => o <| lo_event_cb := Some call_acl_subscribe_cb |>);;
  ret ← ubus_register_event_handler ev (Some "ubus.acl.sequence"%string);
  when (ret =? 0) acl_query;;
  mret ret.

(** [__ubus_monitor]: the message is the library's own buffer. *)
Definition lib_monitor (type : string) : stm ubus_context Z :=
  not_on_channel (ubus_invoke UBUS_SYSTEM_OBJECT_MONITOR type msg_in_b None priv_none 1000).

Definition ubus_monitor_start : stm ubus_context Z := lib_monitor "add".
Definition ubus_monitor_stop : stm ubus_context Z := lib_monitor "remove".

(** ** Notifications *)

(** [__ubus_notify_async] *)
Definition notify_async (obj : ptr) (type : string) (msg : msg_arg) (req : ptr) (reply : bool) : stm ubus_context Z :=
  not_on_channel (
    l ← req_linked req;
    assert (negb l);;
    lstore req (fun _ => request_zero <| rq_nreq := Some notify_zero |>);;
    o ← lload (T := lib_object) obj;
    let buf := ubus_put_data [put_int32 UBUS_ATTR_OBJID (lo_id o); put_string UBUS_ATTR_METHOD type] msg in
    let buf := if reply then buf else buf ++ [put_int8 UBUS_ATTR_NO_REPLY 1] in
    ret ← ubus_start_request req (Some (blob_render buf)) UBUS_MSG_NOTIFY (lo_id o);
    if ret <? 0 then mret (UBUS_STATUS_INVALID_ARGUMENT : Z)
    else
      store_notify req (fun n => n <| nq_pending := 1 |> <| nq_id ::= insert 0%nat (lo_id o) |>);;
      lstore (T := ubus_request) req (fun r => r <| rq_notify := true |>
        <| rq_complete_cb := Some call_ubus_notify_complete_cb |> <| rq_data_cb := Some call_ubus_notify_data_cb |>);;
      mret 0).

Definition ubus_notify_async (obj : ptr) (type : string) (msg : msg_arg) (req : ptr) : stm ubus_context Z :=
  notify_async obj type msg req true.

Definition ubus_notify (obj : ptr) (type : string) (msg : msg_arg) (timeout : Z) : stm ubus_context Z :=
  req ← new_local request_zero;
  ret ← notify_async obj type msg req (0 <=? timeout);
  ret ← (if negb (ret =? 0) then mret ret
         else if timeout <? 0 then ubus_abort_request req;; mret 0
         else ubus_complete_request req timeout);
  end_local (T := ubus_request) req;;
  mret ret.
End LibMain.
