(* ===== verification/LibConn.v ===== *)
(** * Connections of the client library

    Initialising, connecting, reconnecting and closing a context: [src/libubus.c]
    from [__ubus_ctx_init] on and [ubus_reconnect] of [src/libubus-io.c]. *)

From stdpp Require Import base gmap strings list fin_maps.
From Stdlib Require Import ZArith Lia.
From S2P Require Import Prelude Wire Cstring Libubox Ids State LibState LibIo LibCalls LibReq LibObj LibMain.
Local Open Scope Z_scope.
Local Open Scope ubus_scope.

(** What [usock] yields when somebody listens: a descriptor, what the peer will
    send and how the kernel will answer, whether [fcntl] will succeed *)
Record connection := mk_connection {
  cn_fd : Z;
  cn_in : bytes;
  cn_recv : list recv_answer;
  cn_send : list send_result;
  cn_fcntl : bool;
}.

Section LibConn.
Context `{AL : AvlLib} `{PM : ProgMem} `{BL : BlobLib} `{PR : !Program}.
(** [usock(USOCK_UNIX, path, NULL)] of libubox and the path set at build time *)
Context (usock : string -> option connection) (UBUS_UNIX_SOCKET : string).
Implicit Types (s : ubus_context).

(** ** Initialisation *)

(** [memset(ctx, 0, sizeof *ctx)], the handler of the automatic subscriptions
    included, and the assignments after it; [uloop_init] *)
Definition ctx_cleared s : ubus_context :=
  s <| c_objs ::= insert (ctx_auto_event s) lib_object_zero |>
    <| ctx_requests := [] |> <| ctx_objects := avl_init ubus_cmp_id false ptr |> <| ctx_pending := [] |>
    <| ctx_sock_fd := -1 |> <| ctx_sock_eof := false |> <| ctx_sock_registered := false |>
    <| ctx_local_id := 0 |> <| ctx_request_seq := 0 |> <| ctx_cancel_poll := false |> <| ctx_stack_depth := 0 |>
    <| ctx_connection_lost := call_ubus_default_connection_lost |> <| ctx_monitor_cb := None |>
    <| ctx_msgbuf_hdr := mk_msghdr 0 0 0 0 |> <| ctx_msgbuf_data := None |> <| ctx_msgbuf_data_len := 0 |>
    <| ctx_msgbuf_reduction_counter := 0 |> <| ctx_auto_subscribers := [] |> <| ctx_request_handler := None |>
    <| ctx_pre_invoke := None |>.

(** [__ubus_ctx_init] *)
Definition ubus_ctx_init : stm ubus_context Z :=
  modify ctx_cleared;;
  ok ← sys_alloc;
  if negb ok then mret (-1)
  else
    modify (fun s => s <| ctx_msgbuf_data := Some (replicate (Z.to_nat UBUS_MSG_CHUNK_SIZE) 0) |>
                       <| ctx_msgbuf_data_len := UBUS_MSG_CHUNK_SIZE |>);;
    mret 0.

(** [free(ctx->msgbuf.data); ctx->msgbuf.data = NULL;] *)
Definition free_msgbuf : stm ubus_context unit := modify (fun s => s <| ctx_msgbuf_data := None |>).

(** ** Reconnecting *)

Definition ubus_refresh_auto_subscribe : stm ubus_context unit :=
  s ← gets (fun s => s);
  match ctx_auto_subscribers s with
  | [] => mret tt
  | _ :: _ =>
      _ ← ubus_register_event_handler (ctx_auto_event s) (Some "ubus.object.add"%string);
      _ ← lookup_with None call_auto_sub_lookup_all priv_none;
      mret tt
  end.

(** The two loops over [ctx->objects] *)
Definition clear_type (obj : ptr) : stm ubus_context unit :=
  o ← lload (T := lib_object) obj;
  match lo_type o with
  | Some t => lstore (T := lib_object_type) t (fun ty => ty <| lt_id := 0 |>)
  | None => mret tt
  end.

Definition clear_id (obj : ptr) : stm ubus_context unit :=
  lstore (T := lib_object) obj (fun o => o <| lo_id := 0 |>).

Definition ubus_refresh_state : stm ubus_context unit :=
  objs ← gets (fun s => (avl_list (ctx_objects s)).*2);
  for_each objs clear_type;;
  modify (fun s => s <| ctx_objects := avl_init ubus_cmp_id false ptr |>);;
  for_each objs clear_id;;
  for_each objs (fun obj => _ ← ubus_add_object obj; mret tt);;
  ubus_refresh_auto_subscribe.

(** [if (ctx->sock.fd >= 0) { if (registered) uloop_fd_delete(...); close(...); }] *)
Definition close_sock : stm ubus_context unit :=
  s ← gets (fun s => s);
  when (0 <=? ctx_sock_fd s)
    (modify (fun s => s <| ctx_sock_registered := false |>);;
     sys_close_fd (ctx_sock_fd s)).

(** [read(fd, buf, n) == n]: the bytes; a [read] of nothing takes nothing *)
Definition sys_read (n : Z) : stm ubus_context (option bytes) :=
  if n <=? 0 then mret (Some [])
  else
    r ← sys_recv n false;
    mret (match r with
          | Bytes bs _ => if Z.of_nat (length bs) =? n then Some bs else None
          | Failed _ => None
          end).

(** [usock]: a new socket takes the place of the old one. *)
Definition open_sock (path : string) : stm ubus_context (option connection) :=
  match usock path with
  | None => modify (fun s => s <| ctx_sock_fd := -1 |>);; mret None
  | Some c =>
      modify (fun s => s <| ctx_sock_fd := cn_fd c |>
        <| sys ::= fun o => o <| so_in := cn_in c |> <| so_recv := cn_recv c |> <| so_send := cn_send c |>
                              <| so_out := [] |> <| so_passed := [] |> |>);;
      mret (Some c)
  end.

(** From the first [read] to [ret = UBUS_STATUS_OK] *)
Definition read_hello (fcntl_ok : bool) : stm ubus_context bool :=
  hdr ← sys_read (sizeof_msghdr + sizeof_blob_attr);
  match hdr with
  | None => mret false
  | Some hdr =>
      let data := drop 8 hdr in
      let hdr := decode_hdr hdr in
      if negb (ubus_validate_hdr hdr data) then mret false
      else if negb (hdr_type hdr =? UBUS_MSG_HELLO) then mret false
      else
        ok ← sys_alloc;
        if negb ok then mret false
        else
          body ← sys_read (blob_raw_len data - sizeof_blob_attr);
          match body with
          | None => mret false
          | Some _ =>
              modify (fun s => s <| ctx_local_id := hdr_peer hdr |>);;
              mret (negb (hdr_peer hdr <=? UBUS_CLIENT_ID_CHANNEL) && fcntl_ok)
          end
  end.

Definition ubus_reconnect (path : option string) : stm ubus_context Z :=
  channel ← gets ubus_context_is_channel;
  if (channel : bool) then mret (-1)
  else
    close_sock;;
    modify (fun s => s <| ctx_sock_eof := false |>);;
    c ← open_sock (default UBUS_UNIX_SOCKET path);
    match c with
    | None => mret (UBUS_STATUS_CONNECTION_FAILED : Z)
    | Some c =>
        ok ← read_hello (cn_fcntl c);
        if (ok : bool) then
          ubus_refresh_state;;
          mret (UBUS_STATUS_OK : Z)
        else
          s ← gets (fun s => s);
          sys_close_fd (ctx_sock_fd s);;
          modify (fun s => s <| ctx_sock_fd := -1 |>);;
          mret (UBUS_STATUS_UNKNOWN_ERROR : Z)
    end.

(** ** Connecting and closing *)

Definition ubus_connect_ctx (path : option string) : stm ubus_context Z :=
  ret ← ubus_ctx_init;
  if negb (ret =? 0) then mret (-1)
  else
    modify (fun s => s <| ctx_auto_subscribers := [] |>);;
    ret ← ubus_reconnect path;
    if negb (ret =? 0) then free_msgbuf;; mret (-1)
    else mret 0.

(** Is a context returned? *)
Definition ubus_connect (path : option string) : stm ubus_context bool :=
  ok ← sys_alloc;
  if negb ok then mret false
  else
    ret ← ubus_connect_ctx path;
    mret (ret =? 0).

(** [c]: the descriptor and what is behind it *)
Definition ubus_channel_connect (c : connection) (handler : option nat) : stm ubus_context Z :=
  ret ← ubus_ctx_init;
  if negb (ret =? 0) then mret (-1)
  else
    close_sock;;
    if negb (cn_fcntl c) then
      modify (fun s => s <| ctx_sock_fd := -1 |>);;
      free_msgbuf;;
      mret (-1)
    else
      modify (fun s => s <| ctx_sock_eof := false |> <| ctx_sock_fd := cn_fd c |>
        <| sys ::= fun o => o <| so_in := cn_in c |> <| so_recv := cn_recv c |> <| so_send := cn_send c |>
                              <| so_out := [] |> <| so_passed := [] |> |>
        <| ctx_local_id := UBUS_CLIENT_ID_CHANNEL |> <| ctx_request_handler := handler |>);;
      mret 0.

(** [sfd]: what [socketpair] yields, our end and the number of the other; the
    result and [*remote_fd] *)
Definition ubus_channel_create (sfd : option (connection * Z)) (handler : option nat) : stm ubus_context (Z * option Z) :=
  match sfd with
  | None => mret (-1, None)
  | Some (c, remote) =>
      ret ← ubus_channel_connect c handler;
      if ret <? 0 then
        sys_close_fd (cn_fd c);;
        sys_close_fd remote;;
        mret (-1, None)
      else mret (0, Some remote)
  end.

(** [uloop_fd_add(&ctx->sock, ...)] *)
Definition ubus_add_uloop : stm ubus_context unit := modify (fun s => s <| ctx_sock_registered := true |>).

Definition ubus_shutdown : stm ubus_context unit :=
  modify (fun s => s <| ctx_sock_registered := false |>);;
  s ← gets (fun s => s);
  when (0 <=? ctx_sock_fd s)
    (sys_close_fd (ctx_sock_fd s);;
     modify (fun s => s <| ctx_sock_fd := -1 |>));;
  modify (fun s => s <| ctx_pending := [] |>);;
  free_msgbuf.

(** ** Automatic connections *)

Definition ubus_auto_reconnect_cb : stm ubus_context unit :=
  conn ← auto_conn_of;
  ret ← ubus_reconnect (ac_path conn);
  if ret =? 0 then ubus_add_uloop else auto_timer_set.

Definition ubus_auto_connect_cb : stm ubus_context unit :=
  conn ← auto_conn_of;
  ret ← ubus_connect_ctx (ac_path conn);
  if negb (ret =? 0) then auto_timer_set
  else
    modify (fun s => s <| ctx_connection_lost := call_ubus_auto_disconnect_cb |>);;
    match ac_cb conn with
    | Some cb => program (ubus_connect_handler cb);; mret tt
    | None => mret tt
    end;;
    ubus_add_uloop.

Definition ubus_auto_connect : stm ubus_context unit :=
  auto_conn_set (fun c => c <| ac_timer_cb := call_ubus_auto_connect_cb |>);;
  ubus_auto_connect_cb.

(** The timer has run out ([uloop] clears it first). *)
Definition auto_timer_expired : stm ubus_context unit :=
  auto_conn_set (fun c => c <| ac_timer := None |>);;
  conn ← auto_conn_of;
  match ac_timer_cb conn with
  | call_ubus_auto_connect_cb => ubus_auto_connect_cb
  | call_ubus_auto_reconnect_cb => ubus_auto_reconnect_cb
  end.

Definition ubus_auto_shutdown : stm ubus_context unit :=
  auto_conn_set (fun c => c <| ac_timer := None |>);;
  ubus_shutdown.
End LibConn.
