(* ===== verification/LibDemo.v ===== *)
(** * A concrete program on the bus

    A program with an object, two requests and no interest in its callbacks
    connects to a daemon, calls a method of object 100 and notifies the
    subscribers of its own object.  The states along the way are the concrete
    inputs of the witnesses of the client library's theorems. *)

From stdpp Require Import base gmap strings list fin_maps.
From Stdlib Require Import ZArith Lia.
From S2P Require Import Prelude Wire Cstring Libubox LibuboxModel Ids State LibState LibIo LibCalls LibReq LibObj LibMain LibConn.
Local Open Scope Z_scope.
Local Open Scope ubus_scope.
Local Open Scope string_scope.

(** ** The program *)

(** Its callbacks do nothing, and it has no variables. *)
#[export] Instance demo_mem : ProgMem := {| prog_mem := unit |}.
#[export] Instance demo_program : Program := {|
  program := fun _ => mret 0;
  nested_subscribe := fun _ _ => mret 0;
  flush_restarts := 0;
|}.

(** The object, the two requests and the library's own variables *)
Definition demo_obj : ptr := 1.
Definition demo_call_req : ptr := 2.
Definition demo_notify_req : ptr := 3.
Definition demo_acl_req : ptr := 4.
Definition demo_acl_event : ptr := 5.
Definition demo_auto_event : ptr := 6.

Definition demo_methods : list lib_method := [mk_lib_method (Some "hi") (call_method 0) 0 []].
Definition demo_object : lib_object := mk_lib_object (Some "foo") 42 (Some 7%positive) None false (methods demo_methods) None None.

Definition quiet_sock : sock_state := mk_sock [] [] [] [] [] [] [] [].

Definition demo_lib_raw : ubus_context := mk_context
  (list_to_map [(demo_call_req, request_zero); (demo_notify_req, request_zero); (demo_acl_req, request_zero)])
  (list_to_map [(demo_obj, demo_object); (demo_acl_event, lib_object_zero); (demo_auto_event, lib_object_zero)])
  (list_to_map [(7%positive, mk_lib_type 77 demo_methods)]) ∅ ∅ ∅ 8
  [] (avl_init ubus_cmp_id false ptr) [] (-1) false false 0 0 false 0 call_ubus_default_connection_lost None (mk_msghdr 0 0 0 0) None 0 0
  [] demo_auto_event None None None (fun _ => None) demo_acl_event demo_acl_req None false false
  (avl_init acl_cmp true acl_object) false false tt quiet_sock.

(** ** The daemon *)

Definition demo_frame (type : ubus_msg_type) (seq peer : Z) (puts : list put) : bytes :=
  encode_hdr (mk_msghdr 0 type seq peer) ++ blob_render puts.

(** It greets with client id 1234. *)
Definition demo_connection : connection :=
  mk_connection 5 (demo_frame UBUS_MSG_HELLO 0 1234 []) [Chunk 4096 None; Chunk 4096 None] (replicate 20 (Sent 65536)) true.

Definition demo_usock (path : string) : option connection :=
  if bool_decide (path = "/var/run/ubus/ubus.sock") then Some demo_connection else None.

(** ** The run *)

Definition after {A} (m : stm ubus_context A) (s : ubus_context) : ubus_context :=
  match m s with Some (_, s') => s' | None => s end.

Definition lib_connected : ubus_context := after (ubus_connect_ctx demo_usock "/var/run/ubus/ubus.sock" None) demo_lib_raw.

Definition lib_calling : ubus_context :=
  after (_ ← ubus_invoke_async_fd 100 "hi" no_msg demo_call_req (-1); ubus_complete_request_async demo_call_req) lib_connected.

Definition lib_notifying : ubus_context :=
  after (_ ← ubus_notify_async demo_obj "news" no_msg demo_notify_req; ubus_complete_request_async demo_notify_req) lib_connected.

(** The answers: the called object's status; the daemon's, with the subscribers *)
Definition demo_status : ubus_msghdr_buf :=
  mk_msghdr_buf (mk_msghdr 0 UBUS_MSG_STATUS 1 100) (blob_render [put_int32 UBUS_ATTR_STATUS 4; put_int32 UBUS_ATTR_OBJID 100]).
Definition demo_subscribers : ubus_msghdr_buf :=
  mk_msghdr_buf (mk_msghdr 0 UBUS_MSG_STATUS 1 42)
    (blob_render [put_int32 UBUS_ATTR_STATUS 0; put_nest UBUS_ATTR_SUBSCRIBERS [put_int32 UBUS_ATTR_UNSPEC 900; put_int32 UBUS_ATTR_UNSPEC 901]]).

(** A call of method [hi] of the program's object, parsed *)
Definition demo_call : bytes :=
  blob_render [put_int32 UBUS_ATTR_OBJID 42; put_string UBUS_ATTR_METHOD "hi"; put_nest UBUS_ATTR_DATA []].
Definition lib_called : ubus_context := after (lib_parse_msg demo_call (blob_raw_len demo_call)) lib_connected.

(** The context with something to read *)
Definition receiving (bs : bytes) (s : ubus_context) : ubus_context :=
  s <| sys ::= fun o => o <| so_in := bs |> <| so_recv := replicate 40 (Chunk 4096 None) |> |>.

(** ** What the run shows *)

Example demo_is_connected :
  ctx_local_id lib_connected = 1234 /\ ctx_sock_fd lib_connected = 5 /\ ctx_sock_eof lib_connected = false.
Proof. vm_compute. done. Qed.

(** The answer to the call arrives: waiting for it ends with its status, 4. *)
Example demo_call_completes :
  fst <$> (ubus_complete_request demo_call_req 0) (receiving (encode_hdr (mb_hdr demo_status) ++ mb_data demo_status) lib_calling)
    = Some 4.
Proof. vm_compute. done. Qed.

(** Two subscribers answer the notification. *)
Example demo_notify_completes :
  fst <$> (ubus_complete_request demo_notify_req 0)
    (receiving (encode_hdr (mb_hdr demo_subscribers) ++ mb_data demo_subscribers ++
       demo_frame UBUS_MSG_STATUS 1 901 [put_int32 UBUS_ATTR_STATUS 0] ++ demo_frame UBUS_MSG_STATUS 1 900 [put_int32 UBUS_ATTR_STATUS 0]) lib_notifying)
    = Some 0.
Proof. vm_compute. done. Qed.

(** The program publishes its object and gets the id the daemon chose. *)
Example demo_object_added :
  (fun r => (fst r, lo_id <$> c_objs (snd r) !! demo_obj)) <$> ubus_add_object demo_obj
    (receiving (demo_frame UBUS_MSG_DATA 1 0 [put_int32 UBUS_ATTR_OBJID 4711; put_int32 UBUS_ATTR_OBJTYPE 78] ++
       demo_frame UBUS_MSG_STATUS 1 0 [put_int32 UBUS_ATTR_STATUS 0]) lib_connected)
    = Some (0, Some 4711).
Proof. vm_compute. done. Qed.
