(* ===== verification/LibIoSpec.v ===== *)
(** * Reading and writing messages: specifications

    What the loops of [src/libubus-io.c] do, in one step each, whatever the
    kernel answers. *)

From stdpp Require Import base gmap strings list fin_maps.
From Stdlib Require Import ZArith Lia.
From S2P Require Import Prelude Wire Cstring Libubox Ids State LibState LibIo.
Local Open Scope Z_scope.
Local Open Scope ubus_scope.

Section LibIoSpec.
Context `{AL : AvlLib} `{PM : ProgMem} `{BL : BlobLib}.
Implicit Types (s : ubus_context) (bs w : bytes).

(** ** Writing *)

Lemma iov_advance_spec iov n :
  0 <= n ->
  match iov_advance iov n with
  | None => Z.of_nat (length (concat iov)) <= n
  | Some iov' => n < Z.of_nat (length (concat iov)) /\ concat iov' = drop (Z.to_nat n) (concat iov)
  end.
Proof.
  revert n. induction iov as [|v iov IH]; intros n Hn; simpl; [lia|].
  rewrite length_app. destruct (Z.leb_spec (Z.of_nat (length v)) n) as [Hle|Hgt].
  - specialize (IH (n - Z.of_nat (length v)) ltac:(lia)). destruct (iov_advance iov _); [|lia].
    destruct IH as [Hl ->]. split; [lia|]. rewrite drop_app_ge by lia. f_equal. lia.
  - simpl. split; [lia|]. by rewrite drop_app_le by lia.
Qed.

(** Changes of the world outside *)
Lemma upd_sys_ext (f g : sock_state -> sock_state) s :
  f (sys s) = g (sys s) -> s <| sys ::= f |> = s <| sys ::= g |>.
Proof. simpl. by intros ->. Qed.

Lemma upd_sys_twice (f g h : sock_state -> sock_state) s :
  g (f (sys s)) = h (sys s) -> (s <| sys ::= f |>) <| sys ::= g |> = s <| sys ::= h |>.
Proof. simpl. by intros ->. Qed.

Lemma upd_sys_id (f : sock_state -> sock_state) s : f (sys s) = sys s -> s <| sys ::= f |> = s.
Proof. intros H. simpl. rewrite H. by destruct s. Qed.

(** The state after [k] bytes of [w] have been written *)
Definition wrote (k : nat) w (fd : Z) (rest : list send_result) s : ubus_context :=
  s <| sys ::= fun o => o <| so_send := rest |> <| so_out ::= fun out => out ++ take k w |>
    <| so_passed ::= fun l => if (0 <=? fd) && (0 <? k)%nat then (Z.of_nat (length (so_out o)), fd) :: l else l |> |>.

Lemma wrote_nothing w fd rest s : wrote 0 w fd rest s = s <| sys ::= fun o => o <| so_send := rest |> |>.
Proof. apply upd_sys_ext. destruct (sys s). simpl. by rewrite take_0, app_nil_r, andb_false_r. Qed.

Lemma wrote_more k k' w fd rest rest' s :
  (k <= length w)%nat -> (0 < k)%nat ->
  wrote k' (drop k w) (-1) rest' (wrote k w fd rest s) = wrote (k + k') w fd rest' s.
Proof.
  intros Hk Hpos. apply upd_sys_twice. destruct (sys s). simpl.
  rewrite (proj2 (Nat.ltb_lt 0 k)), (proj2 (Nat.ltb_lt 0 (k + k'))) by lia.
  by rewrite <- app_assoc, take_take_drop.
Qed.

Lemma sys_send_spec w fd s :
  (0 < length w)%nat ->
  match so_send (sys s) with
  | [] => sys_send w (if fd <? 0 then None else Some fd) s = Some (SendErr EPIPE, wrote 0 w fd [] s)
  | SendErr e :: rest => sys_send w (if fd <? 0 then None else Some fd) s = Some (SendErr e, wrote 0 w fd rest s)
  | Sent _ :: rest => exists n, (0 < n <= length w)%nat /\
      sys_send w (if fd <? 0 then None else Some fd) s = Some (Sent (Z.of_nat n), wrote n w fd rest s)
  end.
Proof.
  intros Hw. unfold sys_send. destruct (so_send (sys s)) as [|[n|e] rest] eqn:E.
  - rewrite wrote_nothing, upd_sys_id; [done|]. destruct (sys s). simpl in *. by rewrite E.
  - set (n' := Z.max 1 (Z.min n (Z.of_nat (length w)))). assert (0 < n' <= Z.of_nat (length w)) as Hn by (unfold n'; lia).
    exists (Z.to_nat n'). split; [lia|]. rewrite Z2Nat.id by lia. do 2 f_equal.
    apply (upd_sys_ext (fun o => o <| so_send := rest |> <| so_out ::= _ |> <| so_passed ::= _ |>)). destruct (sys s). simpl.
    rewrite (proj2 (Nat.ltb_lt 0 (Z.to_nat n'))), andb_true_r by lia.
    by destruct (Z.ltb_spec fd 0), (Z.leb_spec 0 fd); try lia.
  - by rewrite wrote_nothing.
Qed.

Lemma writev_loop_spec fuel iov fd len s :
  (0 < length (concat iov))%nat -> (length (so_send (sys s)) <= fuel)%nat ->
  exists k rest, (k <= length (concat iov))%nat /\
    writev_loop fuel iov fd len s =
      Some (if (k <? length (concat iov))%nat then -1 else len + Z.of_nat (length (concat iov)),
            wrote k (concat iov) fd rest s).
Proof.
  revert iov fd len s. induction fuel as [|fuel IH]; intros iov fd len s Hne Hf.
  all: pose proof (sys_send_spec (concat iov) fd s Hne) as Hs.
  all: cbn [writev_loop]; unfold mbind at 1, stm_bind at 1.
  all: destruct (so_send (sys s)) as [|[n|e] rest] eqn:E; simpl in Hf; [|try lia..].
  1,2: exists 0%nat, []; split; [lia|]; rewrite Hs, (proj2 (Nat.ltb_lt _ _)) by lia; done.
  - destruct Hs as (k & Hk & ->). pose proof (iov_advance_spec iov (Z.of_nat k) ltac:(lia)) as Ha.
    destruct (iov_advance iov (Z.of_nat k)) as [iov'|] eqn:Ea.
    + rewrite Nat2Z.id in Ha. destruct Ha as [Hlt Hc].
      assert (length (concat iov') = length (concat iov) - k)%nat as Hl' by (rewrite Hc, length_drop; lia).
      destruct (IH iov' (-1) (len + Z.of_nat k) (wrote k (concat iov) fd rest s)) as (k' & rest' & Hk' & Er); [lia|simpl; lia|].
      exists (k + k')%nat, rest'. split; [lia|]. rewrite Er, Hc, wrote_more, length_drop by lia. do 2 f_equal.
      destruct (Nat.ltb_spec k' (length (concat iov) - k)), (Nat.ltb_spec (k + k') (length (concat iov))); lia.
    + assert (k = length (concat iov)) as -> by lia. exists (length (concat iov)), rest. split; [done|]. by rewrite Nat.ltb_irrefl.
  - rewrite Hs. assert (exists k rest', (k <= length (concat iov))%nat /\
      writev_loop fuel iov fd len (wrote 0 (concat iov) fd rest s) =
      Some (if (k <? length (concat iov))%nat then -1 else len + Z.of_nat (length (concat iov)), wrote k (concat iov) fd rest' s)) as H.
    { destruct (IH iov fd len (wrote 0 (concat iov) fd rest s)) as (k & rest' & Hk & Er); [done|simpl; lia|].
      exists k, rest'. split; [done|]. rewrite Er. do 2 f_equal. by rewrite wrote_nothing. }
    destruct e; [exact H|exact H|..].
    all: exists 0%nat, rest; split; [lia|]; rewrite (proj2 (Nat.ltb_lt _ _)) by lia; done.
Qed.

(** ** Reading *)

(** The state after [k] bytes have been read *)
Definition took (k : nat) (rest : list recv_answer) s : ubus_context :=
  s <| sys ::= fun o => o <| so_recv := rest |> <| so_in ::= drop k |> |>.

Lemma took_more k k' rest rest' s : took k' rest' (took k rest s) = took (k + k') rest' s.
Proof. apply upd_sys_twice. destruct (sys s). simpl. by rewrite drop_drop. Qed.

(** The descriptor that comes with the first bytes *)
Fixpoint first_fd (l : list recv_answer) : Z :=
  match l with
  | Refused EINTR :: l => first_fd l
  | Chunk _ fd :: _ => default (-1) fd
  | _ => -1
  end.

Lemma sys_recv_spec want control s :
  0 < want ->
  match so_recv (sys s) with
  | [] => sys_recv want control s = Some (Bytes [] (-1), took 0 [] s)
  | Refused e :: rest => sys_recv want control s = Some (Failed e, took 0 rest s)
  | Chunk n fd :: rest => exists k, (Z.of_nat k <= want) /\ (k <= length (so_in (sys s)))%nat /\
      (0 < n -> (0 < length (so_in (sys s)))%nat -> (0 < k)%nat) /\
      sys_recv want control s =
        Some (Bytes (take k (so_in (sys s))) (if control then default (-1) fd else -1), took k rest s)
  end.
Proof.
  intros Hw. unfold sys_recv. destruct (so_recv (sys s)) as [|[n fd|e] rest] eqn:E.
  - unfold took. rewrite upd_sys_id; [done|]. destruct (sys s). simpl in *. by rewrite E.
  - exists (Z.to_nat (Z.min n want) `min` length (so_in (sys s)))%nat. split; [lia|]. split; [lia|]. split; [lia|].
    do 2 f_equal; [f_equal|].
    + rewrite <- take_take. by rewrite (take_ge (so_in (sys s)) (length (so_in (sys s)))).
    + apply (upd_sys_ext (fun o => o <| so_recv := rest |> <| so_in := _ |>)). destruct (sys s) as [i ? ? ? ? ? ? ?]. simpl.
      destruct (decide (Z.to_nat (Z.min n want) <= length i)%nat); [by rewrite Nat.min_l|].
      rewrite Nat.min_r by lia. by rewrite !drop_ge by lia.
  - done.
Qed.

(** The end of [recv_retry]: everything was read, nothing was there, or the
    connection is broken. *)
Inductive recv_end (want : Z) (wait : bool) (got : nat) (k : nat) : Z -> Prop :=
  | recv_all : Z.of_nat (got + k) = want -> recv_end want wait got k want
  | recv_nothing : wait = false -> k = 0%nat -> recv_end want wait got k 0
  | recv_broken : Z.of_nat (got + k) < want -> recv_end want wait got k (-1).

Lemma recv_loop_spec fuel want wait control fdv got s :
  Z.of_nat (length got) <= want -> (length (so_recv (sys s)) <= fuel)%nat ->
  exists k rest r fdv', recv_loop fuel want wait control fdv got s =
      Some ((r, got ++ take k (so_in (sys s)), fdv'), took k rest s) /\
    (k <= length (so_in (sys s)))%nat /\ recv_end want wait (length got) k r /\
    (control = false -> fdv' = fdv) /\
    (control = true -> wait = false -> fdv' = if (0 <? k)%nat then first_fd (so_recv (sys s)) else fdv).
Proof.
  revert wait control fdv got s. induction fuel as [|fuel IH]; intros wait control fdv got s Hg Hf.
  all: cbn [recv_loop]; destruct (Z.leb_spec want (Z.of_nat (length got))) as [Hle|Hlt].
  1,3: exists 0%nat, (so_recv (sys s)), want, fdv; rewrite take_0, app_nil_r; split;
    [replace (Z.of_nat (length got)) with want by lia; do 2 f_equal; unfold took; rewrite upd_sys_id; [done|]; by destruct (sys s)|];
    split; [lia|]; split; [constructor; lia|done].
  all: pose proof (sys_recv_spec (want - Z.of_nat (length got)) control s ltac:(lia)) as Hs.
  all: unfold mbind, stm_bind; destruct (so_recv (sys s)) as [|[n fd|e] rest] eqn:E; simpl in Hf; [|try lia..].
  1,2: rewrite Hs; exists 0%nat, [], (-1), fdv; rewrite take_0, app_nil_r; split; [done|]; split; [lia|];
    split; [constructor; lia|done].
  - destruct Hs as (k & Hkw & Hk & _ & ->). destruct (take k (so_in (sys s))) as [|b bs] eqn:Ht.
    + exists 0%nat, rest, (-1), fdv. assert (k = 0)%nat as ->.
      { apply (f_equal length) in Ht. rewrite length_take in Ht. simpl in Ht. lia. }
      rewrite take_0, app_nil_r. split; [done|]. split; [lia|]. split; [constructor; lia|done].
    + assert (length (b :: bs) = k) as Hlk by (rewrite <- Ht, length_take; lia).
      destruct (IH true false (if control then if control then default (-1) fd else -1 else fdv) (got ++ b :: bs) (took k rest s))
        as (k' & rest' & r & fdv' & Er & Hk' & He & Hc & _); [rewrite length_app; lia|simpl; lia|].
      simpl in Hk'. rewrite length_drop in Hk'. exists (k + k')%nat, rest', r, fdv'.
      rewrite Er, took_more. simpl. rewrite <- app_assoc, <- Ht, take_take_drop. split; [done|]. split; [lia|].
      rewrite (Hc eq_refl). split; [|split; [by intros ->|]].
      * rewrite length_app, Hlk in He. inversion He as [H|? _|H]; subst; [constructor; lia|done|constructor; lia].
      * intros -> _. simpl in Hlk. rewrite (proj2 (Nat.ltb_lt 0 (k + k'))) by lia. done.
  - rewrite Hs. destruct e.
    + destruct (IH wait control fdv got (took 0 rest s)) as (k' & rest' & r & fdv' & Er & Hk' & He & Hc & Hd); [lia|simpl; lia|].
      exists k', rest', r, fdv'. rewrite Er, took_more. simpl in *. done.
    + destruct wait; simpl.
      * destruct (IH true false (if control then -1 else fdv) got (took 0 rest s)) as (k' & rest' & r & fdv' & Er & Hk' & He & Hc & _);
          [lia|simpl; lia|].
        exists k', rest', r, fdv'. rewrite Er, took_more. simpl in *. split; [done|]. split; [done|]. split; [done|].
        rewrite (Hc eq_refl). split; [by intros ->|done].
      * exists 0%nat, rest, 0, fdv. rewrite take_0, app_nil_r. split; [done|]. split; [lia|]. split; [by constructor|done].
    + exists 0%nat, rest, (-1), fdv. rewrite take_0, app_nil_r. split; [done|]. split; [lia|]. split; [constructor; lia|done].
    + exists 0%nat, rest, (-1), fdv. rewrite take_0, app_nil_r. split; [done|]. split; [lia|]. split; [constructor; lia|done].
Qed.

(** *** When it succeeds *)

(** The kernel hands over at least a byte, or asks to come again. *)
Definition patient (a : recv_answer) : Prop :=
  match a with Chunk n _ => 0 < n | Refused EINTR | Refused EAGAIN => True | Refused _ => False end.

Definition chunks (l : list recv_answer) : nat :=
  length (List.filter (fun a => match a with Chunk _ _ => true | Refused _ => false end) l).

Lemma chunks_chunk n fd l : chunks (Chunk n fd :: l) = S (chunks l).
Proof. done. Qed.

Lemma chunks_refused e l : chunks (Refused e :: l) = chunks l.
Proof. done. Qed.

#[global] Arguments chunks : simpl never.

(** There is something to read at once. *)
Fixpoint ready (l : list recv_answer) : Prop :=
  match l with
  | Refused EAGAIN :: _ => False
  | Refused EINTR :: l => ready l
  | _ => True
  end.

Lemma recv_loop_complete fuel want wait control fdv got s :
  Z.of_nat (length got) <= want -> (length (so_recv (sys s)) <= fuel)%nat ->
  Forall patient (so_recv (sys s)) -> wait = true \/ ready (so_recv (sys s)) ->
  want <= Z.of_nat (length got + chunks (so_recv (sys s))) -> want <= Z.of_nat (length got + length (so_in (sys s))) ->
  exists rest fdv', recv_loop fuel want wait control fdv got s =
      Some ((want, got ++ take (Z.to_nat want - length got) (so_in (sys s)), fdv'), took (Z.to_nat want - length got) rest s) /\
    Forall patient rest /\ (chunks (so_recv (sys s)) <= chunks rest + (Z.to_nat want - length got))%nat.
Proof.
  revert wait control fdv got s. induction fuel as [|fuel IH]; intros wait control fdv got s Hg Hf Hp Hr Hc Hi.
  all: cbn [recv_loop]; destruct (Z.leb_spec want (Z.of_nat (length got))) as [Hle|Hlt].
  1,3: exists (so_recv (sys s)), fdv; replace (Z.to_nat want - length got)%nat with 0%nat by lia; rewrite take_0, app_nil_r; split;
    [replace (Z.of_nat (length got)) with want by lia; do 2 f_equal; unfold took; rewrite upd_sys_id; [done|]; by destruct (sys s)|];
    split; [done|lia].
  all: pose proof (sys_recv_spec (want - Z.of_nat (length got)) control s ltac:(lia)) as Hs.
  all: unfold mbind, stm_bind; destruct (so_recv (sys s)) as [|[n fd|e] rest] eqn:E; simpl in Hf, Hc; [|try lia..].
  1,2: unfold chunks in Hc; simpl in Hc; lia.
  all: apply Forall_cons in Hp as [Ha Hp]; simpl in Ha; rewrite ?chunks_chunk, ?chunks_refused in *.
  - destruct Hs as (k & Hkw & Hk & Hpos & ->). specialize (Hpos Ha ltac:(lia)).
    destruct (take k (so_in (sys s))) as [|b bs] eqn:Ht.
    { apply (f_equal length) in Ht. rewrite length_take in Ht. simpl in Ht. lia. }
    assert (length (b :: bs) = k) as Hlk by (rewrite <- Ht, length_take; lia).
    destruct (IH true false (if control then if control then default (-1) fd else -1 else fdv) (got ++ b :: bs) (took k rest s))
      as (rest' & fdv' & Er & Hp' & Hc'); try (rewrite length_app, Hlk); simpl; rewrite ?length_drop; [lia|lia|done|by left|lia|lia|].
    rewrite length_app, Hlk in Er, Hc'. simpl in Er, Hc'. exists rest', fdv'. rewrite Er, took_more.
    rewrite <- app_assoc, <- Ht, take_take_drop. replace (k + (Z.to_nat want - (length got + k)))%nat with (Z.to_nat want - length got)%nat by lia.
    split; [done|]. split; [done|lia].
  - rewrite Hs. destruct e; try done.
    + destruct (IH wait control fdv got (took 0 rest s)) as (rest' & fdv' & Er & Hp' & Hc'); simpl; try done; [lia|].
      exists rest', fdv'. rewrite Er, took_more. simpl in *. done.
    + destruct Hr as [->|[]]. simpl.
      destruct (IH true false (if control then -1 else fdv) got (took 0 rest s)) as (rest' & fdv' & Er & Hp' & Hc'); simpl; try done; [lia|by left|].
      exists rest', fdv'. rewrite Er, took_more. simpl in *. done.
Qed.

(** ** The message buffer *)

(** The buffer has the size the context remembers. *)
Definition msgbuf_ok s : Prop :=
  forall d, ctx_msgbuf_data s = Some d -> Z.of_nat (length d) = ctx_msgbuf_data_len s.

(** The state with another buffer *)
Definition with_msgbuf (d : option bytes) (len counter : Z) (al : list bool) s : ubus_context :=
  s <| ctx_msgbuf_data := d |> <| ctx_msgbuf_data_len := len |> <| ctx_msgbuf_reduction_counter := counter |>
    <| sys ::= fun o => o <| so_alloc := al |> |>.

Lemma with_msgbuf_twice d len c al d' len' c' al' s :
  with_msgbuf d' len' c' al' (with_msgbuf d len c al s) = with_msgbuf d' len' c' al' s.
Proof. done. Qed.

Lemma with_msgbuf_id s :
  s = with_msgbuf (ctx_msgbuf_data s) (ctx_msgbuf_data_len s) (ctx_msgbuf_reduction_counter s) (so_alloc (sys s)) s.
Proof. destruct s. match goal with o : sock_state |- _ => by destruct o end. Qed.

Lemma with_msgbuf_counter n s :
  s <| ctx_msgbuf_reduction_counter := n |> =
  with_msgbuf (ctx_msgbuf_data s) (ctx_msgbuf_data_len s) n (so_alloc (sys s)) s.
Proof. destruct s. match goal with o : sock_state |- _ => by destruct o end. Qed.

Lemma length_realloc d len : 0 <= len -> Z.of_nat (length (realloc_data d len)) = len.
Proof. intros H. unfold realloc_data. rewrite length_app, length_replicate, length_take. lia. Qed.

(** The size of the buffer for a message, in chunks *)
Definition chunked (len : Z) : Z :=
  let rem := len mod UBUS_MSG_CHUNK_SIZE in if 0 <? rem then len + (UBUS_MSG_CHUNK_SIZE - rem) else len.

#[local] Arguments chunked : simpl never.

Lemma chunked_ge len : len <= chunked len.
Proof.
  unfold chunked, UBUS_MSG_CHUNK_SIZE. pose proof (Z.mod_pos_bound len 65536 ltac:(lia)).
  destruct (Z.ltb_spec 0 (len mod 65536)); lia.
Qed.

(** The last step of [alloc_msg_buf] *)
Lemma alloc_msg_buf_spec len s :
  0 < len -> msgbuf_ok s ->
  exists ok d dl c al, alloc_msg_buf len s = Some (ok, with_msgbuf d dl c al s) /\
    msgbuf_ok (with_msgbuf d dl c al s) /\
    (ok = true -> exists d', d = Some d' /\ len <= Z.of_nat (length d')) /\
    (so_alloc (sys s) = [] -> ok = true /\ al = []).
Proof.
  intros Hlen Hok. unfold alloc_msg_buf. unfold mbind at 1, stm_bind at 1, gets. cbv zeta. fold (chunked len).
  pose proof (chunked_ge len) as Hge. set (buf_len := if has (ctx_msgbuf_data s) then ctx_msgbuf_data_len s else 0).
  assert (forall b c s1, s1 = with_msgbuf (ctx_msgbuf_data s) (ctx_msgbuf_data_len s) c (so_alloc (sys s)) s ->
    (b = buf_len \/ b = 0) ->
    exists ok d dl c al, (if chunked len <=? b then mret true
      else ok ← sys_alloc;
        if negb ok then mret false
        else modify (fun s => s <| ctx_msgbuf_data := Some (realloc_data (ctx_msgbuf_data s) (chunked len)) |>
                           <| ctx_msgbuf_data_len := chunked len |>);; mret true) s1 = Some (ok, with_msgbuf d dl c al s) /\
    msgbuf_ok (with_msgbuf d dl c al s) /\
    (ok = true -> exists d', d = Some d' /\ len <= Z.of_nat (length d')) /\
    (so_alloc (sys s) = [] -> ok = true /\ al = [])) as Hend.
  { intros b c s1 -> Hb. destruct (Z.leb_spec (chunked len) b) as [Hle|Hgt].
    - destruct (ctx_msgbuf_data s) as [d|] eqn:Hd; simpl in *; unfold buf_len in *.
      + exists true, (Some d), (ctx_msgbuf_data_len s), c, (so_alloc (sys s)). split; [done|].
        split; [by intros ? [= <-]; apply Hok|]. split; [|done]. intros _. exists d. split; [done|]. pose proof (Hok d Hd). lia.
      + exists true, None, (ctx_msgbuf_data_len s), c, (so_alloc (sys s)). split; [done|].
        split; [by intros ? [=]|]. split; [|done]. lia.
    - unfold mbind at 1, stm_bind at 1, sys_alloc. simpl. destruct (so_alloc (sys s)) as [|ok al] eqn:Eal.
      + exists true, (Some (realloc_data (ctx_msgbuf_data s) (chunked len))), (chunked len), c, []. simpl. split; [done|].
        split; [intros d [= <-]; rewrite length_realloc; [done|lia]|]. split; [|done]. intros _. eexists. split; [done|].
        rewrite length_realloc; lia.
      + destruct ok; simpl.
        * exists true, (Some (realloc_data (ctx_msgbuf_data s) (chunked len))), (chunked len), c, al. split; [done|].
          split; [intros d [= <-]; rewrite length_realloc; [done|lia]|]. split; [|done]. intros _. eexists. split; [done|].
          rewrite length_realloc; lia.
        * exists false, (ctx_msgbuf_data s), (ctx_msgbuf_data_len s), c, al. split; [done|]. split; [exact Hok|]. done. }
  unfold mbind at 1, stm_bind at 1. destruct (chunked len <? buf_len).
  - unfold modify, mbind, stm_bind. destruct (UBUS_MSGBUF_REDUCTION_INTERVAL <? ctx_msgbuf_reduction_counter s + 1); simpl.
    + eapply Hend; [|by right]. apply (with_msgbuf_counter 0).
    + eapply Hend; [|by left]. apply with_msgbuf_counter.
  - eapply Hend; [|by left]. apply with_msgbuf_id.
Qed.
End LibIoSpec.
