(* ===== verification/LibIoThms.v ===== *)
(** * Theorems about the client library's input and output *)

From stdpp Require Import base gmap strings list fin_maps.
From Stdlib Require Import ZArith Lia.
From S2P Require Import Prelude Wire Cstring Libubox LibuboxModel Ids State LibState LibIo LibIoSpec LibDemo.
Local Open Scope Z_scope.
Local Open Scope ubus_scope.

Section LibIoThms.
Context `{AL : AvlLib} `{PM : ProgMem} `{BL : BlobLib} `{!BlobLaws BL}.
Implicit Types (s : ubus_context).

(** The bytes [ubus_send_msg] is to put on the wire *)
Definition msg_image (seq : Z) (msg : bytes) (cmd peer : Z) : bytes :=
  encode_hdr (mk_msghdr 0 cmd seq peer) ++ take (Z.to_nat (blob_raw_len msg)) msg.

Lemma send_msg_spec s seq msg cmd peer fd :
  blob_raw_len msg <= Z.of_nat (length msg) ->
  exists r s', ubus_send_msg seq (Some msg) cmd peer fd s = Some (r, s') /\
    so_closed (sys s') = (if 0 <=? fd then [fd] else []) ++ so_closed (sys s) /\
    if UBUS_MAX_MSGLEN <? blob_pad_len msg then
      r = -1 /\ so_out (sys s') = so_out (sys s) /\ so_passed (sys s') = so_passed (sys s) /\
      ctx_sock_eof s' = ctx_sock_eof s
    else
      exists k, so_out (sys s') = so_out (sys s) ++ take k (msg_image seq msg cmd peer) /\
        so_passed (sys s') = (if (0 <=? fd) && (0 <? k)%nat then [(Z.of_nat (length (so_out (sys s))), fd)] else []) ++ so_passed (sys s) /\
        (k = length (msg_image seq msg cmd peer) /\ r = Z.of_nat k /\ ctx_sock_eof s' = ctx_sock_eof s \/
         (k < length (msg_image seq msg cmd peer))%nat /\ r = -1 /\ ctx_sock_eof s' = true).
Proof.
  intros Hlen. unfold ubus_send_msg. change (default (blob_render []) (Some msg)) with msg. cbv zeta. destruct (UBUS_MAX_MSGLEN <? blob_pad_len msg).
  { unfold close_if, when, mbind, stm_bind. destruct (0 <=? fd); do 2 eexists; (split; [reflexivity|]); done. }
  unfold mbind at 1, stm_bind at 1. rewrite (proj2 (Z.leb_le _ _) Hlen). simpl assert. unfold mbind at 1, stm_bind at 1.
  unfold mret at 1, stm_ret at 1. unfold writev_retry. unfold mbind at 1, stm_bind at 1, gets at 1. set (iov := [encode_hdr _; _]).
  assert (concat iov = msg_image seq msg cmd peer) as Hw by (unfold iov, msg_image; simpl; by rewrite app_nil_r).
  destruct (writev_loop_spec (length (so_send (sys s))) iov fd 0 s) as (k & rest & Hk & E); [rewrite Hw; simpl; lia|lia|].
  unfold mbind at 1, stm_bind at 1. rewrite Hw in *. rewrite E.
  destruct (Nat.ltb_spec k (length (msg_image seq msg cmd peer))) as [Hlt|Hge].
  - unfold close_if, when, mbind, stm_bind. simpl. destruct (0 <=? fd) eqn:Hfd; simpl; do 2 eexists; (split; [reflexivity|]).
    all: simpl; rewrite ?Hfd; split; [done|]; exists k; split; [done|]; split; [by destruct (0 <? k)%nat|]; right; done.
  - assert (k = length (msg_image seq msg cmd peer)) as -> by lia.
    rewrite (proj2 (Z.ltb_ge _ 0)) by lia. unfold close_if, when, mbind, stm_bind. simpl.
    destruct (0 <=? fd) eqn:Hfd; simpl; do 2 eexists; (split; [reflexivity|]).
    all: simpl; rewrite ?Hfd; split; [done|]; exists (length (msg_image seq msg cmd peer)); split; [done|]; split; [done|]; left; done.
Qed.

(** C11: [ubus_send_msg] sends the whole message or fails: however the kernel
    splits, delays or interrupts the writes, the bytes of header and message go
    out in order; the call returns their number, or -1 with the connection given
    up when not all of them went out.  A message above the limit is refused with
    nothing sent.  A descriptor travels with the first byte, and is closed exactly
    once whatever happens. *)
Theorem send_msg_exact s seq msg cmd peer fd :
  blob_raw_len msg <= Z.of_nat (length msg) ->
  exists r s', ubus_send_msg seq (Some msg) cmd peer fd s = Some (r, s') /\
    so_closed (sys s') = (if 0 <=? fd then [fd] else []) ++ so_closed (sys s) /\
    if UBUS_MAX_MSGLEN <? blob_pad_len msg then
      r = -1 /\ so_out (sys s') = so_out (sys s) /\ so_passed (sys s') = so_passed (sys s) /\
      ctx_sock_eof s' = ctx_sock_eof s
    else
      exists k, so_out (sys s') = so_out (sys s) ++ take k (msg_image seq msg cmd peer) /\
        so_passed (sys s') = (if (0 <=? fd) && (0 <? k)%nat then [(Z.of_nat (length (so_out (sys s))), fd)] else []) ++ so_passed (sys s) /\
        (k = length (msg_image seq msg cmd peer) /\ r = Z.of_nat k /\ ctx_sock_eof s' = ctx_sock_eof s \/
         (k < length (msg_image seq msg cmd peer))%nat /\ r = -1 /\ ctx_sock_eof s' = true).
Proof. apply send_msg_spec. Qed.

(** ** Reading *)

Lemma decode_hdr_take bs rest : (8 <= length bs)%nat -> decode_hdr (bs ++ rest) = decode_hdr bs.
Proof. intros H. do 8 (destruct bs as [|? bs]; [simpl in H; lia|]). done. Qed.

(** The header of the message at the start of [bs] is acceptable. *)
Definition frame_ok (bs : bytes) : bool := ubus_validate_hdr (decode_hdr bs) (drop 8 bs).
Definition frame_len (bs : bytes) : nat := 8 + Z.to_nat (blob_raw_len (drop 8 bs)).

Lemma frame_ok_len bs : frame_ok bs = true -> 4 <= blob_raw_len (drop 8 bs) < 2 ^ 24.
Proof.
  unfold frame_ok, ubus_validate_hdr. destruct (negb _); [done|]. pose proof (blob_raw_len_bound (drop 8 bs)).
  destruct (Z.ltb_spec (blob_raw_len (drop 8 bs)) sizeof_blob_attr); [done|]. unfold sizeof_blob_attr in *. lia.
Qed.

(** The 12 bytes read first decide like the whole stream. *)
Lemma frame_take bs :
  (12 <= length bs)%nat ->
  decode_hdr (take 12 bs) = decode_hdr bs /\ blob_raw_len (drop 8 (take 12 bs)) = blob_raw_len (drop 8 bs) /\
  ubus_validate_hdr (decode_hdr (take 12 bs)) (drop 8 (take 12 bs)) = frame_ok bs.
Proof.
  intros H. assert (take 4 (drop 8 (take 12 bs)) = take 4 (drop 8 bs)) as Hh.
  { rewrite <- (take_drop 12 bs) at 2. rewrite drop_app_le by (rewrite length_take; lia).
    rewrite take_app_le; [done|]. rewrite length_drop, length_take. lia. }
  assert (decode_hdr (take 12 bs) = decode_hdr bs) as Hd.
  { rewrite <- (take_drop 12 bs) at 2. symmetry. apply decode_hdr_take. rewrite length_take. lia. }
  unfold frame_ok, ubus_validate_hdr. by rewrite Hd, (blob_raw_len_hdr _ _ Hh), (blob_pad_len_hdr _ _ Hh).
Qed.

(** What [get_next_msg] leaves when it has read the frame at the start of the
    stream *)
Record frame_read s s' : Prop := {
  fr_ok : frame_ok (so_in (sys s)) = true;
  fr_len : (frame_len (so_in (sys s)) <= length (so_in (sys s)))%nat;
  fr_hdr : ctx_msgbuf_hdr s' = decode_hdr (so_in (sys s));
  fr_data : exists d, ctx_msgbuf_data s' = Some d /\
    take (frame_len (so_in (sys s)) - 8) d = take (frame_len (so_in (sys s)) - 8) (drop 8 (so_in (sys s)));
  fr_in : so_in (sys s') = drop (frame_len (so_in (sys s))) (so_in (sys s));
  fr_eof : ctx_sock_eof s' = ctx_sock_eof s;
}.

(** The body of the message, once the header is accepted and there is a buffer *)
Definition read_body (len fdv : Z) : stm ubus_context (bool * Z) :=
  let iov_len := len - sizeof_blob_attr in
  if 0 <? iov_len then
    '(r, body, _) ← recv_retry iov_len true None;
    msgbuf_write sizeof_blob_attr body;;
    if r <=? 0 then set_eof;; mret (false, fdv)
    else mret (true, fdv)
  else mret (true, fdv).

Lemma msgbuf_write_spec off bs d s :
  ctx_msgbuf_data s = Some d -> 0 <= off -> off + Z.of_nat (length bs) <= Z.of_nat (length d) ->
  msgbuf_write off bs s = Some (tt, s <| ctx_msgbuf_data := Some (splice (Z.to_nat off) bs d) |>).
Proof.
  intros Hd Ho Hl. unfold msgbuf_write, mbind, stm_bind, gets. rewrite Hd.
  assert (fits off bs d = true) as -> by by apply fits_spec. done.
Qed.

Lemma read_body_spec len fdv s d :
  4 <= len -> ctx_msgbuf_data s = Some d -> len <= Z.of_nat (length d) ->
  exists ok s' k d', read_body len fdv s = Some ((ok, fdv), s') /\
    (k <= length (so_in (sys s)))%nat /\ Z.of_nat k <= len - 4 /\ so_in (sys s') = drop k (so_in (sys s)) /\
    ctx_msgbuf_data s' = Some d' /\ d' = splice 4 (take k (so_in (sys s))) d /\
    ctx_msgbuf_data_len s' = ctx_msgbuf_data_len s /\ ctx_msgbuf_hdr s' = ctx_msgbuf_hdr s /\
    (if ok then Z.of_nat k = len - 4 /\ ctx_sock_eof s' = ctx_sock_eof s else ctx_sock_eof s' = true) /\
    (Forall patient (so_recv (sys s)) -> len - 4 <= Z.of_nat (chunks (so_recv (sys s))) ->
     len - 4 <= Z.of_nat (length (so_in (sys s))) -> ok = true).
Proof.
  intros Hlen Hd Hld. unfold read_body, sizeof_blob_attr. cbv zeta. destruct (Z.ltb_spec 0 (len - 4)) as [Hpos|Hz].
  2:{ exists true, s, 0%nat, d. split; [done|]. split; [lia|]. split; [lia|]. split; [done|]. split; [done|].
      split; [|repeat split; done || lia]. rewrite take_0. unfold splice. simpl. by rewrite (take_drop 4 d). }
  unfold recv_retry. unfold mbind at 1, stm_bind at 1. unfold mbind at 1, stm_bind at 1, gets at 1.
  destruct (recv_loop_spec (length (so_recv (sys s))) (len - 4) true (has (None : option Z)) (default (-1) None) [] s)
    as (k & rest & r & fdv' & E & Hk & He & _); [simpl; lia|lia|].
  rewrite E. simpl app. assert (length (take k (so_in (sys s))) = k) as Hlk by (rewrite length_take; lia).
  assert (Z.of_nat k <= len - 4) as Hkl by (inversion He; simpl in *; [lia|done|lia]).
  unfold mbind at 1, stm_bind at 1. rewrite (msgbuf_write_spec 4 _ d); [|done|lia|rewrite Hlk; lia].
  destruct (Z.leb_spec r 0) as [Hr|Hr].
  - do 4 eexists. split; [reflexivity|]. repeat (split; [done|]). intros Hp Hc Hi. exfalso.
    destruct (recv_loop_complete (length (so_recv (sys s))) (len - 4) true (has (None : option Z)) (default (-1) None) [] s)
      as (rest' & fdv'' & E' & _); [simpl; lia|lia|done|by left|simpl; lia|simpl; lia|]. rewrite E in E'. injection E' as E' _ _ _. lia.
  - do 4 eexists. split; [reflexivity|]. repeat (split; [done|]). split; [|done].
    inversion He; simpl in *; [|done|lia]. split; [lia|done].
Qed.

(** The steps after the header *)
Definition read_frame (hdrbuf : bytes) (fdv : Z) : stm ubus_context (bool * Z) :=
  let hdr := decode_hdr hdrbuf in
  let data := drop 8 hdrbuf in
  if negb (ubus_validate_hdr hdr data) then set_eof;; mret (false, fdv)
  else
    ok ← alloc_msg_buf (blob_raw_len data);
    if negb ok then set_eof;; mret (false, fdv)
    else
      modify (fun s => s <| ctx_msgbuf_hdr := hdr |>);;
      msgbuf_write 0 data;;
      read_body (blob_raw_len data) fdv.

(** The stream of [s0] starts with the 12 bytes of [hdrbuf], which have been read. *)
Lemma read_frame_spec s0 s hdrbuf fdv :
  hdrbuf = take 12 (so_in (sys s0)) -> (12 <= length (so_in (sys s0)))%nat ->
  so_in (sys s) = drop 12 (so_in (sys s0)) -> ctx_sock_eof s = ctx_sock_eof s0 -> msgbuf_ok s ->
  exists ok s', read_frame hdrbuf fdv s = Some ((ok, fdv), s') /\ msgbuf_ok s' /\
    (if ok then frame_read s0 s' else ctx_sock_eof s' = true) /\
    (frame_ok (so_in (sys s0)) = true -> (frame_len (so_in (sys s0)) <= length (so_in (sys s0)))%nat -> so_alloc (sys s) = [] ->
     Forall patient (so_recv (sys s)) -> (frame_len (so_in (sys s0)) <= 12 + chunks (so_recv (sys s)))%nat -> ok = true).
Proof.
  intros -> H12 Hin Heof Hok. destruct (frame_take _ H12) as (Hd & Hlen & Hv). unfold read_frame. cbv zeta.
  rewrite Hv, Hd, Hlen. destruct (frame_ok (so_in (sys s0))) eqn:Hf; simpl.
  2:{ do 2 eexists. split; [reflexivity|]. done. }
  apply frame_ok_len in Hf as Hl. set (in0 := so_in (sys s0)) in *. set (len := blob_raw_len (drop 8 in0)) in *.
  unfold mbind at 1, stm_bind at 1.
  destruct (alloc_msg_buf_spec len s) as (ok & d & dl & c & al & -> & Hok1 & Htrue & Hal); [lia|done|].
  destruct ok; simpl.
  2:{ do 2 eexists. split; [reflexivity|]. split; [done|]. split; [done|]. intros _ _ Ha. by destruct (Hal Ha). }
  destruct (Htrue eq_refl) as (d' & -> & Hd').
  unfold mbind at 1, stm_bind at 1, modify at 1. unfold mbind at 1, stm_bind at 1. set (s1 := with_msgbuf _ _ _ _ _) in *.
  assert (length (drop 8 (take 12 in0)) = 4%nat) as Hl4 by (rewrite length_drop, length_take; lia).
  rewrite (msgbuf_write_spec 0 _ d'); [|done|lia|rewrite Hl4; lia].
  set (s2 := _ <| ctx_msgbuf_data := _ |>). set (d2 := splice _ _ d') in s2.
  assert (length d2 = length d') as Hl2 by (unfold d2; apply length_splice; simpl; lia).
  destruct (read_body_spec len fdv s2 d2) as (ok & s' & k & d3 & E & Hk & Hkl & Hin' & Hd3 & Ed3 & Hdl & Hh & Hend & Hcomp); [lia|done|lia|].
  exists ok, s'. split; [exact E|]. change (so_in (sys s2)) with (so_in (sys s)) in *. rewrite Hin in *. rewrite length_drop in Hk.
  assert (length d3 = length d') as Hl3.
  { rewrite Ed3, length_splice; [done|]. rewrite length_take, length_drop. lia. }
  split.
  { intros x Hx. rewrite Hd3 in Hx. injection Hx as <-. rewrite Hdl, Hl3. exact (Hok1 d' eq_refl). }
  split.
  2:{ intros _ Hfl _ Hp Hc. apply Hcomp; [done|..].
      - change (so_recv (sys s2)) with (so_recv (sys s)). unfold frame_len in Hc. fold len in Hc. lia.
      - rewrite length_drop. unfold frame_len in Hfl. fold len in Hfl. lia. }
  destruct ok; [|done]. destruct Hend as [Hkk He]. assert (frame_len in0 = 12 + k)%nat as Hfl by (unfold frame_len; fold len; lia).
  assert (blob_raw_len (drop 8 in0) = Z.of_nat (4 + k)) as Hraw by (fold len; lia).
  split; fold in0; rewrite ?Hfl; [done|lia|done| |by rewrite Hin', drop_drop|by rewrite He].
  exists d3. split; [done|]. replace (12 + k - 8)%nat with (4 + k)%nat by lia. rewrite Ed3. unfold splice at 1.
  assert (take 4 d2 = drop 8 (take 12 in0)) as Ht4.
  { unfold d2, splice. simpl. rewrite take_app_le by lia. apply take_ge. lia. }
  assert (length (take k (drop 12 in0)) = k) as Hlk by (rewrite length_take, length_drop; lia).
  rewrite Ht4, app_assoc, (take_app_le _ _ (4 + k)) by (rewrite length_app; lia). rewrite take_ge by (rewrite length_app; lia).
  rewrite <- (take_drop 4 (drop 8 in0)), drop_drop. simpl. rewrite take_app_ge by (rewrite length_take, length_drop; lia).
  rewrite length_take, length_drop. f_equal.
  - rewrite <- (take_drop 12 in0) at 2. rewrite drop_app_le by (rewrite length_take; lia).
    rewrite take_app_le by lia. symmetry. apply take_ge. lia.
  - f_equal. lia.
Qed.

Lemma next_msg_spec s fdv :
  msgbuf_ok s ->
  exists ok fd s', get_next_msg fdv s = Some ((ok, fd), s') /\ msgbuf_ok s' /\
    if ok then frame_read s s' /\ fd = first_fd (so_recv (sys s))
    else
      (ctx_sock_eof s' = true \/
       so_in (sys s') = so_in (sys s) /\ fd = fdv /\ ctx_sock_eof s' = ctx_sock_eof s) /\
      ~ (frame_ok (so_in (sys s)) = true /\ (frame_len (so_in (sys s)) <= length (so_in (sys s)))%nat /\
         so_alloc (sys s) = [] /\ Forall patient (so_recv (sys s)) /\ ready (so_recv (sys s)) /\
         (frame_len (so_in (sys s)) <= chunks (so_recv (sys s)))%nat).
Proof.
  intros Hok. unfold get_next_msg, recv_retry. unfold mbind at 1, stm_bind at 1. unfold mbind at 1, stm_bind at 1, gets at 1.
  destruct (recv_loop_spec (length (so_recv (sys s))) (sizeof_msghdr + sizeof_blob_attr) false (has (Some fdv)) (default (-1) (Some fdv)) [] s)
    as (k & rest & r & fdv' & E & Hk & He & _ & Hfd); [unfold sizeof_msghdr, sizeof_blob_attr; simpl; lia|lia|].
  specialize (Hfd eq_refl eq_refl).
  match goal with |- exists _ _ _, _ /\ _ /\ (if _ then _ else _ /\ ~ ?C) => set (there := C) end.
  assert (there -> r = 12 /\ Forall patient rest /\ (chunks (so_recv (sys s)) <= chunks rest + 12)%nat) as Hcomp.
  { intros (Hf & Hfl & Ha & Hp & Hr & Hc). apply frame_ok_len in Hf. unfold frame_len in Hfl, Hc.
    destruct (recv_loop_complete (length (so_recv (sys s))) (sizeof_msghdr + sizeof_blob_attr) false (has (Some fdv)) (default (-1) (Some fdv)) [] s)
      as (rest' & fdv'' & E' & Hp' & Hc'); [done|lia|done|by right|unfold sizeof_msghdr, sizeof_blob_attr; simpl; lia..|].
    rewrite E in E'. injection E' as Er _ _ _ Es. by subst rest'. }
  rewrite E. simpl app. inversion He as [Hall|_ Hk0|Hbr]; subst r; simpl in Hfd, Hk.
  - assert (k = 12%nat) as -> by (unfold sizeof_msghdr, sizeof_blob_attr in *; simpl in Hall; lia).
    destruct (read_frame_spec s (took 12 rest s) (take 12 (so_in (sys s))) fdv') as (ok & s' & E' & Hok' & H & Hc); [done|done|done|done|exact Hok|].
    exists ok, fdv', s'. split; [exact E'|]. split; [done|]. destruct ok; [done|]. split; [by left|]. intros Hth.
    destruct (Hcomp Hth) as (_ & Hp & Hch). destruct Hth as (Hf & Hfl & Ha & _ & _ & Hc12).
    assert (false = true); [|done]. apply Hc; [done|done|done|done|]. simpl. lia.
  - subst k. do 3 eexists. split; [reflexivity|]. split; [exact Hok|]. split; [right; done|]. by intros [? _]%Hcomp.
  - do 3 eexists. split; [reflexivity|]. split; [exact Hok|]. split; [by left|]. by intros [? _]%Hcomp.
Qed.

(** C10: [get_next_msg] reads exactly one message: however the kernel splits the
    stream, it either takes the frame at the start of the stream, whole and
    nothing more, with an acceptable header, and stores its header and its data
    within the message buffer; or it marks the connection as broken; or, when
    nothing is there, it changes nothing.  It does read the message when a whole
    acceptable one is there, memory suffices, and the kernel keeps handing over
    bytes.  It reports the descriptor that came
    with the first bytes, and the buffer keeps the size the context remembers. *)
Theorem next_msg_exact s fdv :
  msgbuf_ok s ->
  exists ok fd s', get_next_msg fdv s = Some ((ok, fd), s') /\ msgbuf_ok s' /\
    if ok then frame_read s s' /\ fd = first_fd (so_recv (sys s))
    else
      (ctx_sock_eof s' = true \/
       so_in (sys s') = so_in (sys s) /\ fd = fdv /\ ctx_sock_eof s' = ctx_sock_eof s) /\
      ~ (frame_ok (so_in (sys s)) = true /\ (frame_len (so_in (sys s)) <= length (so_in (sys s)))%nat /\
         so_alloc (sys s) = [] /\ Forall patient (so_recv (sys s)) /\ ready (so_recv (sys s)) /\
         (frame_len (so_in (sys s)) <= chunks (so_recv (sys s)))%nat).
Proof. apply next_msg_spec. Qed.

(** ** From one end to the other *)

Lemma frame_image seq msg cmd peer later :
  sizeof_blob_attr <= blob_raw_len msg <= Z.of_nat (length msg) -> blob_pad_len msg <= UBUS_MAX_MSGLEN ->
  frame_ok (msg_image seq msg cmd peer ++ later) = true /\
  frame_len (msg_image seq msg cmd peer ++ later) = length (msg_image seq msg cmd peer).
Proof.
  unfold sizeof_blob_attr. intros Hlen Hpad. set (body := take (Z.to_nat (blob_raw_len msg)) msg ++ later).
  assert (msg_image seq msg cmd peer ++ later = encode_hdr (mk_msghdr 0 cmd seq peer) ++ body) as ->.
  { unfold msg_image, body. by rewrite app_assoc. }
  assert (take 4 body = take 4 msg) as Hh.
  { unfold body. rewrite take_app_le by (rewrite length_take; lia). rewrite take_take. f_equal. lia. }
  assert (length (msg_image seq msg cmd peer) = 8 + Z.to_nat (blob_raw_len msg))%nat as Hl.
  { unfold msg_image. rewrite length_app, length_take. change (length (encode_hdr _)) with 8%nat. lia. }
  unfold frame_ok, frame_len. change (drop 8 (encode_hdr ?h ++ body)) with body.
  rewrite (blob_raw_len_hdr _ _ Hh), Hl. split; [|done]. unfold ubus_validate_hdr.
  rewrite (blob_raw_len_hdr _ _ Hh), (blob_pad_len_hdr _ _ Hh). change (hdr_version (decode_hdr _)) with (u8 0). simpl.
  unfold sizeof_blob_attr. rewrite (proj2 (Z.ltb_ge _ _)) by lia. by rewrite (proj2 (Z.ltb_ge _ _)) by lia.
Qed.

(** C9: What one end of a connection sends is what the other end receives: when
    [ubus_send_msg] has succeeded and the bytes it put out are at the front of
    the peer's stream, [get_next_msg] of the peer yields the type, sequence number and
    peer sent (cut to the widths of the header) and the message, and leaves the
    stream at what was sent later, whatever pieces the kernel makes of it on
    either side. *)
Theorem send_receive_roundtrip s1 s2 seq msg cmd peer fd r s1' later fdv :
  sizeof_blob_attr <= blob_raw_len msg <= Z.of_nat (length msg) ->
  ubus_send_msg seq (Some msg) cmd peer fd s1 = Some (r, s1') -> 0 <= r ->
  so_in (sys s2) = drop (length (so_out (sys s1))) (so_out (sys s1')) ++ later ->
  msgbuf_ok s2 -> so_alloc (sys s2) = [] -> Forall patient (so_recv (sys s2)) -> ready (so_recv (sys s2)) ->
  r <= Z.of_nat (chunks (so_recv (sys s2))) ->
  exists fd' s2' d, get_next_msg fdv s2 = Some ((true, fd'), s2') /\
    ctx_msgbuf_hdr s2' = mk_msghdr 0 (u8 cmd) (u16 seq) (u32 peer) /\
    ctx_msgbuf_data s2' = Some d /\
    take (Z.to_nat (blob_raw_len msg)) d = take (Z.to_nat (blob_raw_len msg)) msg /\
    so_in (sys s2') = later /\ ctx_sock_eof s2' = ctx_sock_eof s2.
Proof.
  intros Hlen E Hr Hin Hok Ha Hp Hrd Hc.
  assert (blob_pad_len msg <= UBUS_MAX_MSGLEN /\ r = Z.of_nat (length (msg_image seq msg cmd peer)) /\
    so_in (sys s2) = msg_image seq msg cmd peer ++ later) as (Hpad & -> & Hin').
  { destruct (send_msg_spec s1 seq msg cmd peer fd) as (r' & s' & E' & _ & H); [apply Hlen|]. rewrite E in E'. injection E' as <- <-.
    destruct (Z.ltb_spec UBUS_MAX_MSGLEN (blob_pad_len msg)); [lia|]. split; [done|].
    destruct H as (k & Ho & _ & [(-> & -> & _)|(_ & -> & _)]); [|lia]. split; [done|].
    rewrite Hin, Ho, take_ge by done. by rewrite drop_app_length. }
  destruct (frame_image seq msg cmd peer later Hlen Hpad) as [Hfok Hfl].
  destruct (next_msg_spec s2 fdv Hok) as (ok & fd' & s2' & Eg & _ & H). rewrite Hin' in H.
  destruct ok.
  2:{ destruct H as [_ []]. rewrite Hfl. split; [done|]. rewrite length_app. repeat (split; [done || lia|]). lia. }
  destruct H as [[_ _ Hh Hd Hi He] _]. rewrite Hin', Hfl in *. destruct Hd as (d & Hd & Htk). exists fd', s2', d.
  split; [done|]. unfold msg_image in *. rewrite <- app_assoc in *. split.
  { rewrite Hh. unfold decode_hdr. cbn [hdr_version hdr_type hdr_seq hdr_peer]. f_equal; [apply of_be16_be16|apply of_be32_be32]. }
  split; [done|]. rewrite length_app, length_take in Htk, Hi. change (length (encode_hdr _)) with 8%nat in Htk, Hi.
  replace (8 + Z.to_nat (blob_raw_len msg) `min` length msg - 8)%nat with (Z.to_nat (blob_raw_len msg)) in Htk by lia.
  change (drop 8 (encode_hdr ?h ++ ?x)) with x in Htk. rewrite Htk. split.
  - rewrite take_app_le by (rewrite length_take; lia). rewrite take_take. f_equal. lia.
  - split; [|done]. rewrite Hi. change (drop (8 + ?n) (encode_hdr ?h ++ ?x)) with (drop n x).
    rewrite drop_app_ge by (rewrite length_take; lia). rewrite length_take. by rewrite Nat.sub_diag.
Qed.
End LibIoThms.

(** ** Witnesses *)

Lemma lib_calling_msgbuf : msgbuf_ok lib_calling.
Proof.
  assert ((fun d => Z.of_nat (length d)) <$> ctx_msgbuf_data lib_calling = Some (ctx_msgbuf_data_len lib_calling)) as H by (vm_compute; reflexivity).
  intros d Hd. rewrite Hd in H. by injection H.
Qed.

Lemma send_msg_exact_witness :
  exists r s', ubus_send_msg 9 (Some demo_call) UBUS_MSG_INVOKE 77 3 lib_connected = Some (r, s') /\
    so_closed (sys s') = 3 :: so_closed (sys lib_connected).
Proof.
  destruct (send_msg_exact lib_connected 9 demo_call UBUS_MSG_INVOKE 77 3) as (r & s' & E & Hc & _).
  - vm_compute. discriminate.
  - exists r, s'. split; [exact E|exact Hc].
Defined.

Lemma next_msg_exact_witness :
  exists ok fd s', get_next_msg (-1) lib_calling = Some ((ok, fd), s') /\ msgbuf_ok s'.
Proof.
  destruct (next_msg_exact lib_calling (-1) lib_calling_msgbuf) as (ok & fd & s' & E & H & _).
  exists ok, fd, s'. split; [exact E|exact H].
Defined.

Lemma send_receive_roundtrip_witness :
  exists r s1', ubus_send_msg 9 (Some demo_call) UBUS_MSG_INVOKE 77 (-1) lib_connected = Some (r, s1') /\
  exists fd' s2' d,
    get_next_msg (-1) (receiving (drop (length (so_out (sys lib_connected))) (so_out (sys s1'))) lib_calling) = Some ((true, fd'), s2') /\
    ctx_msgbuf_hdr s2' = mk_msghdr 0 UBUS_MSG_INVOKE 9 77 /\ ctx_msgbuf_data s2' = Some d.
Proof.
  assert (exists r s1', ubus_send_msg 9 (Some demo_call) UBUS_MSG_INVOKE 77 (-1) lib_connected = Some (r, s1') /\ 0 <= r <= 40)
    as (r & s1' & E & Hr).
  { assert (match ubus_send_msg 9 (Some demo_call) UBUS_MSG_INVOKE 77 (-1) lib_connected with
            | Some (r, _) => (0 <=? r) && (r <=? 40) | None => false end = true) as H by (vm_compute; reflexivity).
    destruct (ubus_send_msg _ _ _ _ _ _) as [[r s1']|]; [|discriminate H]. apply andb_prop in H as [?%Z.leb_le ?%Z.leb_le].
    exists r, s1'. split; [reflexivity|lia]. }
  exists r, s1'. split; [exact E|]. set (s2 := receiving _ _).
  destruct (send_receive_roundtrip lib_connected s2 9 demo_call UBUS_MSG_INVOKE 77 (-1) r s1' [] (-1)) as (fd' & s2' & d & H1 & H2 & H3 & _).
  - vm_compute. split; discriminate.
  - exact E.
  - lia.
  - unfold s2. simpl. by rewrite app_nil_r.
  - exact lib_calling_msgbuf.
  - reflexivity.
  - vm_compute. repeat constructor.
  - vm_compute. done.
  - change (chunks (so_recv (sys s2))) with 40%nat. lia.
  - exists fd', s2', d. split; [exact H1|]. split; [exact H2|exact H3].
Defined.
