(* ===== verification/LibReqSpec.v ===== *)
(** * Requests: specifications

    What awaits an answer, and the effect of answers on requests. *)

From stdpp Require Import base gmap strings list fin_maps.
From Stdlib Require Import ZArith Lia.
From S2P Require Import Prelude Wire Cstring Libubox Ids State LibState LibIo LibCalls LibReq.
Local Open Scope Z_scope.
Local Open Scope ubus_scope.

(** ** The peers a notification waits for *)

(** The ids at the positions whose bit is set in [pending], with their position *)
Fixpoint awaited_from (ids : list Z) (pending i : Z) : list (Z * Z) :=
  match ids with
  | [] => []
  | id :: ids => (if Z.odd pending then [(i, id)] else []) ++ awaited_from ids (Z.shiftr pending 1) (i + 1)
  end.

Definition awaited (n : notify_part) : list (Z * Z) := awaited_from (nq_id n) (nq_pending n) 0.

(** A bit for every entry of the array and no other *)
Record notify_ok (n : notify_part) : Prop := {
  no_len : length (nq_id n) = S UBUS_MAX_NOTIFY_PEERS;
  no_pending : 0 <= nq_pending n < 2 ^ Z.of_nat (S UBUS_MAX_NOTIFY_PEERS);
}.

Lemma shiftr_half z : Z.shiftr z 1 = z / 2.
Proof. by rewrite Z.shiftr_div_pow2. Qed.

Lemma half_bound z n : 0 <= z < 2 ^ Z.of_nat (S n) -> 0 <= Z.shiftr z 1 < 2 ^ Z.of_nat n.
Proof.
  rewrite shiftr_half. rewrite Nat2Z.inj_succ, Z.pow_succ_r by lia. intros H.
  split; [apply Z.div_pos; lia|]. apply Z.div_lt_upper_bound; lia.
Qed.

Lemma awaited_zero ids i : awaited_from ids 0 i = [].
Proof. revert i. induction ids as [|id ids IH]; intros i; [done|]. simpl. apply IH. Qed.

Lemma awaited_empty ids p i : 0 <= p < 2 ^ Z.of_nat (length ids) -> awaited_from ids p i = [] -> p = 0.
Proof.
  revert p i. induction ids as [|id ids IH]; intros p i Hp; simpl; [simpl in Hp; lia|].
  intros [Ho Hr]%app_eq_nil. apply IH in Hr; [|by apply half_bound].
  rewrite shiftr_half in Hr. destruct (Z.odd p) eqn:E; [done|]. rewrite <- Z.negb_even in E. apply negb_false_iff in E.
  apply Z.even_spec in E as [k ->]. rewrite Z.mul_comm, Z.div_mul in Hr by lia. lia.
Qed.

Lemma notify_done n : notify_ok n -> nq_pending n = 0 <-> awaited n = [].
Proof.
  intros [Hl Hp]. unfold awaited. split; [intros ->; apply awaited_zero|]. apply awaited_empty. by rewrite Hl.
Qed.

(** The search finds the first awaited entry of that id and stays in the array. *)
Lemma find_notify_id_spec ids p objid i :
  0 <= p < 2 ^ Z.of_nat (length ids) ->
  find_notify_id ids p objid i =
    Some (match List.find (fun e => e.2 =? objid) (awaited_from ids p i) with Some e => e.1 | None => -1 end).
Proof.
  revert p i. induction ids as [|id ids IH]; intros p i Hp; simpl.
  - simpl in Hp. by replace p with 0 by lia.
  - destruct (Z.eqb_spec p 0) as [->|Hne]; simpl; [by rewrite awaited_zero|].
    destruct (Z.odd p); simpl; [|by apply IH, half_bound]. destruct (Z.eqb_spec id objid); [done|]. by apply IH, half_bound.
Qed.

Lemma ubus_find_notify_id_spec n objid :
  notify_ok n ->
  ubus_find_notify_id n objid =
    Some (match List.find (fun e => e.2 =? objid) (awaited n) with Some e => e.1 | None => -1 end).
Proof. intros [Hl Hp]. apply find_notify_id_spec. by rewrite Hl. Qed.

Lemma awaited_pos ids p i e : e ∈ awaited_from ids p i -> i <= e.1 < i + Z.of_nat (length ids).
Proof.
  revert p i. induction ids as [|id ids IH]; intros p i; simpl; [by intros ?%not_elem_of_nil|].
  rewrite elem_of_app. intros [H|H%IH]; [|lia]. destruct (Z.odd p); [|by apply not_elem_of_nil in H].
  apply list_elem_of_singleton in H as ->. simpl. lia.
Qed.

(** *** Bits *)

Lemma awaited_lookup ids p i j id :
  0 <= p -> (j, id) ∈ awaited_from ids p i <-> exists k, j = i + Z.of_nat k /\ ids !! k = Some id /\ Z.testbit p (Z.of_nat k) = true.
Proof.
  revert p i. induction ids as [|x ids IH]; intros p i Hp; simpl.
  - split; [by intros ?%not_elem_of_nil|]. intros (k & _ & H & _). done.
  - rewrite elem_of_app, IH by (apply Z.shiftr_nonneg; lia). split.
    + intros [H|(k & -> & Hk & Hb)].
      * destruct (Z.odd p) eqn:Ho; [|by apply not_elem_of_nil in H]. apply list_elem_of_singleton in H as [= -> ->].
        exists 0%nat. split; [lia|]. split; [done|]. by rewrite Z.bit0_odd.
      * exists (S k). split; [lia|]. split; [done|]. rewrite Z.shiftr_spec in Hb by lia. by replace (Z.of_nat (S k)) with (Z.of_nat k + 1) by lia.
    + intros ([|k] & -> & Hk & Hb).
      * left. rewrite Z.bit0_odd in Hb. rewrite Hb. injection Hk as <-. apply list_elem_of_singleton. f_equal. lia.
      * right. exists k. split; [lia|]. split; [done|]. rewrite Z.shiftr_spec by lia. by replace (Z.of_nat k + 1) with (Z.of_nat (S k)) by lia.
Qed.

(** Clearing bits removes the entries of these positions. *)
Lemma awaited_clear (f : Z -> bool) ids p q i :
  0 <= p -> 0 <= q ->
  (forall k, (k < length ids)%nat -> Z.testbit q (Z.of_nat k) = Z.testbit p (Z.of_nat k) && f (i + Z.of_nat k)) ->
  awaited_from ids q i = List.filter (fun e => f e.1) (awaited_from ids p i).
Proof.
  revert p q i. induction ids as [|x ids IH]; intros p q i Hp Hq H; [done|]. simpl. rewrite List.filter_app. f_equal.
  - specialize (H 0%nat ltac:(simpl; lia)). change (Z.of_nat 0) with 0 in H. rewrite !Z.bit0_odd in H. rewrite H. replace (i + 0) with i by lia.
    destruct (Z.odd p); simpl; [|done]. by destruct (f i).
  - apply IH; [by apply Z.shiftr_nonneg..|]. intros k Hk. rewrite !Z.shiftr_spec by lia.
    specialize (H (S k) ltac:(simpl; lia)). replace (Z.of_nat (S k)) with (Z.of_nat k + 1) in H by lia.
    rewrite H. f_equal. f_equal. lia.
Qed.

(** Setting the bit above all others appends an entry. *)
Lemma awaited_set idx ids p i v :
  (idx < length ids)%nat -> 0 <= p < 2 ^ Z.of_nat idx ->
  awaited_from (<[idx := v]> ids) (Z.lor p (Z.shiftl 1 (Z.of_nat idx))) i = awaited_from ids p i ++ [(i + Z.of_nat idx, v)].
Proof.
  revert ids p i. induction idx as [|idx IH]; intros [|x ids] p i Hl Hp; simpl in Hl; [lia| |lia|].
  - change (2 ^ Z.of_nat 0) with 1 in Hp. replace p with 0 by lia. rewrite Z.lor_0_l, awaited_zero.
    change (<[0%nat:=v]> (x :: ids)) with (v :: ids). cbn [awaited_from].
    change (Z.shiftr (Z.shiftl 1 (Z.of_nat 0)) 1) with 0. rewrite awaited_zero. simpl. do 2 f_equal. lia.
  - change (<[S idx:=v]> (x :: ids)) with (x :: <[idx:=v]> ids). cbn [awaited_from]. rewrite <- app_assoc. f_equal.
    + assert (Z.odd (Z.lor p (Z.shiftl 1 (Z.of_nat (S idx)))) = Z.odd p) as ->; [|done].
      rewrite <- !Z.bit0_odd, Z.lor_spec, Z.shiftl_spec_low by lia. apply orb_false_r.
    + rewrite Z.shiftr_lor. replace (Z.shiftr (Z.shiftl 1 (Z.of_nat (S idx))) 1) with (Z.shiftl 1 (Z.of_nat idx)).
      * rewrite IH; [|lia|by apply half_bound]. do 3 f_equal. lia.
      * rewrite Z.shiftr_shiftl_l by lia. f_equal. lia.
Qed.

(** ** Answers to a notification *)

(** Position [i] has answered. *)
Definition answered (i : Z) (n : notify_part) : notify_part :=
  n <| nq_pending ::= fun p => Z.land p (u32 (Z.lnot (Z.shiftl 1 i))) |>.

Lemma answered_bits p i k :
  0 <= p < 2 ^ 32 -> 0 <= i -> 0 <= k ->
  Z.testbit (Z.land p (u32 (Z.lnot (Z.shiftl 1 i)))) k = Z.testbit p k && negb (k =? i).
Proof.
  intros Hp Hi Hk. rewrite Z.land_spec. unfold u32. destruct (decide (k < 32)) as [Hlt|Hge].
  - rewrite Z.mod_pow2_bits_low by lia. rewrite Z.lnot_spec, Z.shiftl_spec by lia. f_equal. f_equal.
    destruct (Z.eqb_spec k i) as [->|Hne]; [by rewrite Z.sub_diag|].
    destruct (decide (k < i)); [by apply Z.testbit_neg_r; lia|]. apply (Z.bits_above_log2 1); simpl; lia.
  - rewrite (Z.bits_above_log2 p k); [done|lia|]. destruct (decide (p = 0)) as [->|]; [simpl; lia|].
    apply Z.log2_lt_pow2; [lia|]. eapply Z.lt_le_trans; [apply Hp|]. apply Z.pow_le_mono_r; lia.
Qed.

Lemma answered_ok i n : notify_ok n -> notify_ok (answered i n).
Proof.
  intros [Hl Hp]. split; [done|]. simpl nq_pending. set (m := u32 _). set (w := Z.of_nat (S UBUS_MAX_NOTIFY_PEERS)) in *.
  assert (Z.land (nq_pending n) m = Z.land (nq_pending n) m mod 2 ^ w) as ->; [|apply Z.mod_pos_bound; lia].
  rewrite <- Z.land_ones, <- Z.land_assoc, (Z.land_comm m), Z.land_assoc by done. rewrite Z.land_ones by done.
  by rewrite (Z.mod_small (nq_pending n)).
Qed.

Lemma awaited_answered i n :
  notify_ok n -> 0 <= i -> awaited (answered i n) = List.filter (fun e => negb (e.1 =? i)) (awaited n).
Proof.
  intros Hn Hi. pose proof (no_pending _ (answered_ok i n Hn)) as Hp'. pose proof (no_pending _ Hn) as Hp.
  unfold awaited. apply (awaited_clear (fun k => negb (k =? i))); [lia|lia|]. intros k _. simpl nq_pending.
  rewrite answered_bits; [by replace (0 + Z.of_nat k) with (Z.of_nat k) by lia|change (Z.of_nat _) with 17 in Hp; lia|done|lia].
Qed.

(** The subscribers the daemon lists, numbered from 1 *)
Fixpoint numbered (i : Z) (l : list Z) : list (Z * Z) :=
  match l with [] => [] | x :: l => (i, x) :: numbered (i + 1) l end.

Section Subscribers.
Context `{BL : BlobLib}.

Definition subscriber_list (l : list bytes) : list Z :=
  blob_get_u32 <$> List.filter (fun cur => blob_check_type cur BLOB_ATTR_INT32) l.

Lemma lor_bound p k : 0 <= p < 2 ^ Z.of_nat k -> 0 <= Z.lor p (Z.shiftl 1 (Z.of_nat k)) < 2 ^ Z.of_nat (S k).
Proof.
  intros Hp. assert (0 < 2 ^ Z.of_nat k) by (apply Z.pow_pos_nonneg; lia).
  rewrite Z.shiftl_1_l. split; [apply Z.lor_nonneg; lia|].
  apply Z.log2_lt_cancel. rewrite Z.log2_lor, !Z.log2_pow2 by lia.
  destruct (decide (p = 0)) as [->|]; [simpl; lia|]. assert (Z.log2 p < Z.of_nat k) by (apply Z.log2_lt_pow2; lia). lia.
Qed.

Lemma notify_subscribers_spec l idx n :
  length (nq_id n) = S UBUS_MAX_NOTIFY_PEERS -> (idx <= UBUS_MAX_NOTIFY_PEERS)%nat -> 0 <= nq_pending n < 2 ^ Z.of_nat idx ->
  notify_ok (notify_subscribers l idx n) /\
  awaited (notify_subscribers l idx n) =
    awaited n ++ numbered (Z.of_nat idx) (take (S UBUS_MAX_NOTIFY_PEERS - idx) (subscriber_list l)).
Proof.
  revert idx n. induction l as [|cur l IH]; intros idx n Hl Hidx Hp.
  - cbn [notify_subscribers]. change (subscriber_list []) with (@nil Z). rewrite take_nil. simpl numbered. rewrite app_nil_r. split; [|done]. split; [done|]. split; [lia|].
    eapply Z.lt_le_trans; [apply Hp|]. apply Z.pow_le_mono_r; lia.
  - unfold subscriber_list. cbn [notify_subscribers List.filter].
    destruct (blob_check_type cur BLOB_ATTR_INT32); cbn [negb]; [|by apply IH]. cbv zeta. set (n' := _ <| nq_id ::= _ |>).
    assert (length (nq_id n') = S UBUS_MAX_NOTIFY_PEERS) as Hl' by (simpl; by rewrite length_insert).
    assert (0 <= nq_pending n' < 2 ^ Z.of_nat (S idx)) as Hp' by by apply lor_bound.
    assert (awaited n' = awaited n ++ [(Z.of_nat idx, blob_get_u32 cur)]) as Ha.
    { unfold awaited, n'. simpl nq_pending. simpl nq_id. rewrite awaited_set; [done|rewrite Hl; lia|done]. }
    rewrite fmap_cons. replace (S UBUS_MAX_NOTIFY_PEERS - idx)%nat with (S (UBUS_MAX_NOTIFY_PEERS - idx)) by lia.
    cbn [take numbered]. destruct (Nat.eqb_spec (S idx) (S UBUS_MAX_NOTIFY_PEERS)) as [E|E].
    + replace (UBUS_MAX_NOTIFY_PEERS - idx)%nat with 0%nat by lia. rewrite take_0. split; [|done].
      split; [done|]. by rewrite <- E.
    + destruct (IH (S idx) n' Hl' ltac:(lia) Hp') as [Hok Haw]. split; [done|]. rewrite Haw, Ha, <- app_assoc. simpl app.
      replace (Z.of_nat (S idx)) with (Z.of_nat idx + 1) by lia. done.
Qed.
End Subscribers.

(** ** Running code on a known state *)

Lemma bind_run {S A B} (m : stm S A) (k : A -> stm S B) s a s' : m s = Some (a, s') -> (m ≫= k) s = k a s'.
Proof. unfold mbind, stm_bind. by intros ->. Qed.

Lemma bind_assoc {S A B C} (m : stm S A) (f : A -> stm S B) (g : B -> stm S C) s :
  ((m ≫= f) ≫= g) s = (m ≫= fun a => f a ≫= g) s.
Proof. unfold mbind, stm_bind. by destruct (m s) as [[]|]. Qed.

Section LibReqSpec.
Context `{AL : AvlLib} `{PM : ProgMem} `{BL : BlobLib} `{PR : !Program}.
Implicit Types (s : ubus_context).

Lemma lload_run {T} `{!LHeap T} p (x : T) s : lheap (T := T) s !! p = Some x -> lload p s = Some (x, s).
Proof. unfold lload. by intros ->. Qed.

Lemma lstore_run {T} `{!LHeap T} p (f : T -> T) (x : T) s :
  lheap (T := T) s !! p = Some x -> lstore p f s = Some (tt, set_lheap (insert p (f x)) s).
Proof. unfold lstore. by intros ->. Qed.

(** ** The requests that wait *)

Record req_ok (r : ubus_request) : Prop := {
  ro_init : rq_init r = true;
  ro_notify : rq_notify r = true -> exists n, rq_nreq r = Some n /\ notify_ok n;
}.

Record req_list_ok s : Prop := {
  rl_nodup : NoDup (ctx_requests s);
  rl_live : forall p, p ∈ ctx_requests s -> exists r, c_reqs s !! p = Some r /\ req_ok r;
}.

(** Does the request wait for an answer from [peer] with this sequence number? *)
Definition expects (seq peer : Z) (r : ubus_request) : bool :=
  (rq_seq r =? seq) &&
  if rq_notify r then
    match rq_nreq r with Some n => existsb (fun e => e.2 =? peer) (awaited n) | None => false end
  else rq_peer r =? peer.

Definition expecting s (seq peer : Z) : option ptr :=
  List.find (fun p => match c_reqs s !! p with Some r => expects seq peer r | None => false end) (ctx_requests s).

(** The position that [ubus_find_request] reports *)
Definition position (peer : Z) (r : ubus_request) (id : Z) : Prop :=
  if rq_notify r then exists n, rq_nreq r = Some n /\ List.find (fun e => e.2 =? peer) (awaited n) = Some (id, peer)
  else id = -1.

Lemma find_loop_spec s seq peer l :
  (forall p, p ∈ l -> exists r, c_reqs s !! p = Some r /\ req_ok r) ->
  exists id, find_request_loop l seq peer (-1) s =
    Some ((List.find (fun p => match c_reqs s !! p with Some r => expects seq peer r | None => false end) l, id), s) /\
    match List.find (fun p => match c_reqs s !! p with Some r => expects seq peer r | None => false end) l with
    | Some p => exists r, c_reqs s !! p = Some r /\ position peer r id
    | None => True
    end.
Proof.
  induction l as [|p l IH]; intros Hl; [by exists (-1)|].
  destruct (Hl p) as (r & Hr & Hok); [by left|]. destruct IH as (id & IH & Hid); [intros q Hq; apply Hl; by right|].
  cbn [find_request_loop List.find]. rewrite Hr. erewrite bind_run by (by apply lload_run).
  unfold expects. rewrite (Z.eqb_sym seq). destruct (rq_seq r =? seq); simpl; [|eauto].
  destruct (rq_notify r) eqn:En.
  - destruct (ro_notify _ Hok En) as (n & Hn & Hnok). rewrite Hn. unfold notify_of. rewrite bind_assoc.
    erewrite bind_run by (by apply lload_run). rewrite Hn. erewrite bind_run by done.
    destruct (Z.eqb_spec (nq_pending n) 0) as [E|E].
    { apply (notify_done _ Hnok) in E. rewrite E. simpl. eauto. }
    rewrite (ubus_find_notify_id_spec n peer Hnok). destruct (List.find _ (awaited n)) as [[i x]|] eqn:Ef.
    + assert (x = peer /\ 0 <= i) as [-> Hi].
      { apply List.find_some in Ef as [Hin Hx%Z.eqb_eq]. split; [done|]. apply list_elem_of_In, awaited_pos in Hin. simpl in *. lia. }
      simpl. rewrite (proj2 (Z.ltb_ge i 0)) by lia. assert (existsb (fun e => e.2 =? peer) (awaited n) = true) as ->.
      { apply existsb_exists. apply List.find_some in Ef as [? ?]. eauto. }
      exists i. split; [done|]. exists r. split; [done|]. unfold position. rewrite En. eauto.
    + simpl. assert (existsb (fun e => e.2 =? peer) (awaited n) = false) as ->; [|eauto].
      apply not_true_is_false. intros (e & He & Hx)%existsb_exists. by rewrite (List.find_none _ _ Ef e He) in Hx.
  - rewrite (Z.eqb_sym peer). destruct (rq_peer r =? peer) eqn:Ep; simpl; [|eauto].
    exists (-1). split; [done|]. exists r. split; [done|]. unfold position. by rewrite En.
Qed.

Lemma find_request_spec s seq peer :
  req_list_ok s ->
  exists id, ubus_find_request seq peer s = Some ((expecting s seq peer, id), s) /\
    match expecting s seq peer with
    | Some p => exists r, c_reqs s !! p = Some r /\ position peer r id
    | None => True
    end.
Proof. intros Hs. unfold ubus_find_request. erewrite bind_run by done. apply find_loop_spec, Hs. Qed.

Lemma expecting_linked s seq peer p : expecting s seq peer = Some p -> p ∈ ctx_requests s.
Proof. unfold expecting. intros [H _]%List.find_some. by apply list_elem_of_In. Qed.

(** ** Completion *)

(** The request after its status has arrived *)
Definition with_status (ret : Z) (r : ubus_request) : ubus_request :=
  r <| rq_status_msg := true |> <| rq_status_code := ret |>.

(** The state after it, the request no longer waiting *)
Definition finished (p : ptr) (r : ubus_request) s : ubus_context :=
  s <| ctx_requests ::= list_del p |> <| c_reqs ::= insert p r |>.

Lemma set_status_run s p r ret :
  p ∈ ctx_requests s -> c_reqs s !! p = Some r ->
  ubus_set_req_status p ret s =
    if rq_blocked r then Some (tt, finished p (with_status ret r) s)
    else match rq_complete_cb r with
         | None => Some (tt, finished p (with_status ret r) s)
         | Some cb => call_complete_handler cb p ret (finished p (with_status ret r <| rq_complete_cb := None |>) s)
         end.
Proof.
  intros Hp Hr. unfold ubus_set_req_status, req_list_empty, req_linked. rewrite bind_assoc.
  erewrite bind_run by (by apply lload_run). rewrite bind_assoc. erewrite bind_run by done. erewrite bind_run by done.
  rewrite bool_decide_true by done. rewrite andb_false_r. cbn [negb when]. unfold req_list_del, req_linked.
  rewrite bind_assoc. erewrite bind_run by done. rewrite bool_decide_true by done. rewrite bind_assoc.
  erewrite bind_run by done. erewrite bind_run by done.
  erewrite bind_run by (apply lstore_run; exact Hr). erewrite bind_run by (apply lload_run, lookup_insert_eq).
  change (rq_blocked (_ <| rq_status_code := ret |>)) with (rq_blocked r). destruct (rq_blocked r); [done|]. cbn [negb when]. unfold ubus_req_complete_cb.
  erewrite bind_run by (apply lload_run, lookup_insert_eq). change (rq_complete_cb (_ <| rq_status_code := ret |>)) with (rq_complete_cb r).
  destruct (rq_complete_cb r) as [cb|]; [|done].
  erewrite bind_run by (apply lstore_run, lookup_insert_eq). cbn [rq_status_code]. unfold finished, with_status. simpl.
  by rewrite insert_insert_eq.
Qed.
End LibReqSpec.
