(* ===== verification/LibReqThms.v ===== *)
(** * Theorems about requests of the client library *)

From stdpp Require Import base gmap strings list fin_maps.
From Stdlib Require Import ZArith Lia.
From S2P Require Import Prelude Wire Cstring Libubox LibuboxModel Ids State LibState LibIo LibCalls LibReq LibReqSpec LibDemo.
Local Open Scope Z_scope.
Local Open Scope ubus_scope.

Section LibReqThms.
Context `{AL : AvlLib} `{PM : ProgMem} `{BL : BlobLib} `{PR : !Program}.
Implicit Types (s : ubus_context).

(** The attributes of a message, as the library reads them *)
Definition msg_attr (data : bytes) (a : ubus_msg_attr) : option bytes :=
  blob_parse_untrusted lib_policy UBUS_ATTR_MAX data (blob_raw_len data) a.

Definition status_in (data : bytes) (otherwise : Z) : Z :=
  match msg_attr data UBUS_ATTR_STATUS with Some a => i32 (blob_get_u32 a) | None => otherwise end.

Definition parsed (data : bytes) s : ubus_context := s <| attrbuf := msg_attr data |>.

(** The descriptor is not for the program: there is none, or no callback for it. *)
Definition fd_kept (r : ubus_request) (fd : Z) : Prop := fd < 0 \/ rq_fd_cb r = None.

Lemma fd_step s p r fd :
  fd_kept r fd ->
  (match rq_fd_cb r with
   | Some cb => if 0 <=? fd then program (ubus_fd_handler cb p fd);; mret (-1) else mret fd
   | None => mret fd
   end : stm ubus_context Z) s = Some (fd, s).
Proof. intros [H| ->]; [|done]. destruct (rq_fd_cb r); [|done]. by rewrite (proj2 (Z.leb_gt 0 fd)) by lia. Qed.

(** A STATUS message for a plain request *)
Lemma status_run s buf fd p r :
  req_list_ok s -> hdr_type (mb_hdr buf) = UBUS_MSG_STATUS ->
  expecting s (hdr_seq (mb_hdr buf)) (hdr_peer (mb_hdr buf)) = Some p ->
  c_reqs s !! p = Some r -> rq_notify r = false -> fd_kept r fd ->
  let code := status_in (mb_data buf) UBUS_STATUS_INVALID_ARGUMENT in
  let r' := with_status code (r <| rq_peer := hdr_peer (mb_hdr buf) |>) in
  ubus_process_req_msg buf fd s =
    match rq_blocked r, rq_complete_cb r with
    | false, Some cb =>
        (call_complete_handler cb p code;; close_if fd)
          (finished p (r' <| rq_complete_cb := None |>) (parsed (mb_data buf) s))
    | _, _ => close_if fd (finished p r' (parsed (mb_data buf) s))
    end.
Proof.
  intros Hs Ht Ee Hr Hn Hfd. cbv zeta. unfold ubus_process_req_msg. rewrite Ht, Z.eqb_refl.
  destruct (find_request_spec s (hdr_seq (mb_hdr buf)) (hdr_peer (mb_hdr buf)) Hs) as (id & Ef & Hid). rewrite Ee in *.
  destruct Hid as (r0 & Hr0 & Hpos). rewrite Hr in Hr0. injection Hr0 as <-.
  unfold position in Hpos. rewrite Hn in Hpos. subst id.
  erewrite bind_run by exact Ef. cbv beta iota. erewrite bind_run by (by apply lload_run).
  erewrite bind_run by (by apply fd_step). cbn [Z.leb Z.compare]. cbv zeta.
  unfold ubus_process_req_status, ubus_get_status, lib_parse_msg. rewrite !bind_assoc. erewrite bind_run by done.
  erewrite bind_run by done. erewrite bind_run by done. rewrite bind_assoc. erewrite bind_run by (apply lstore_run; exact Hr).
  unfold mbind at 1, stm_bind at 1. rewrite (set_status_run _ _ (r <| rq_peer := hdr_peer (mb_hdr buf) |>)).
  - change (rq_blocked (r <| rq_peer := _ |>)) with (rq_blocked r). change (rq_complete_cb (r <| rq_peer := _ |>)) with (rq_complete_cb r).
    unfold finished, parsed. simpl. rewrite !insert_insert_eq. destruct (rq_blocked r); [done|]. by destruct (rq_complete_cb r).
  - exact (expecting_linked _ _ _ _ Ee).
  - apply lookup_insert_eq.
Qed.

(** C12: A STATUS message ends the request it answers and no other: the request
    found is the first waiting one with this sequence number that expects the
    sender, or none, and then only the descriptor is closed.  A request that is
    not a notification (those are C13) leaves the list with the status code of
    the message; its completion callback, which is cleared first, is called with
    that code, unless the request is just handling data ([rq_blocked]), which
    leaves the call to the end of that.  The descriptor is closed after that:
    there is none, or the request has no callback for it ([fd_kept]). *)
Theorem status_completes s buf fd :
  req_list_ok s -> hdr_type (mb_hdr buf) = UBUS_MSG_STATUS ->
  match expecting s (hdr_seq (mb_hdr buf)) (hdr_peer (mb_hdr buf)) with
  | None => ubus_process_req_msg buf fd s = close_if fd s
  | Some p => forall r, c_reqs s !! p = Some r -> rq_notify r = false -> fd_kept r fd ->
      let code := status_in (mb_data buf) UBUS_STATUS_INVALID_ARGUMENT in
      let r' := with_status code (r <| rq_peer := hdr_peer (mb_hdr buf) |>) in
      ubus_process_req_msg buf fd s =
        match rq_blocked r, rq_complete_cb r with
        | false, Some cb =>
            (call_complete_handler cb p code;; close_if fd)
              (finished p (r' <| rq_complete_cb := None |>) (parsed (mb_data buf) s))
        | _, _ => close_if fd (finished p r' (parsed (mb_data buf) s))
        end
  end.
Proof.
  intros Hs Ht. destruct (expecting s _ _) as [p|] eqn:Ee; [intros r Hr Hn Hfd; by apply status_run|].
  unfold ubus_process_req_msg. rewrite Ht, Z.eqb_refl.
  destruct (find_request_spec s (hdr_seq (mb_hdr buf)) (hdr_peer (mb_hdr buf)) Hs) as (id & Ef & _). rewrite Ee in Ef.
  by erewrite bind_run by exact Ef.
Qed.

(** ** Notifications *)

(** The notification after an answer from [peer] at position [i] *)
Definition notified (i : Z) (data : bytes) (n : notify_part) : notify_part :=
  if i =? 0 then
    match msg_attr data UBUS_ATTR_SUBSCRIBERS with
    | Some a => notify_subscribers (blob_for_each_attr a) 1 (answered 0 n)
    | None => answered 0 n
    end
  else answered i n.

(** The subscribers named in the daemon's answer, as far as the library waits
    for them *)
Definition listed (data : bytes) : list Z :=
  match msg_attr data UBUS_ATTR_SUBSCRIBERS with
  | Some a => take UBUS_MAX_NOTIFY_PEERS (subscriber_list (blob_for_each_attr a))
  | None => []
  end.

(** Who is still to answer: the daemon itself, or these peers. *)
Inductive outstanding := for_daemon (obj : Z) | for_peers (l : list Z).

(** The state of a notification, told apart by whether position 0 is awaited *)
Definition outstanding_of (n : notify_part) (w : outstanding) : Prop :=
  match w with
  | for_daemon obj => awaited n = [(0, obj)]
  | for_peers l => (awaited n).*2 ≡ₚ l /\ Forall (fun e => e.1 <> 0) (awaited n)
  end.

(** What an answer from [peer] does to it *)
Inductive answer_step (peer : Z) (data : bytes) : outstanding -> outstanding -> Prop :=
  | daemon_answers : answer_step peer data (for_daemon peer) (for_peers (listed data))
  | peer_answers l l' : l ≡ₚ peer :: l' -> answer_step peer data (for_peers l) (for_peers l').

Lemma filter_one (l : list (Z * Z)) i x :
  NoDup l.*1 -> (i, x) ∈ l -> l.*2 ≡ₚ x :: (List.filter (fun e => negb (e.1 =? i)) l).*2.
Proof.
  induction l as [|[j y] l IH]; [by intros _ ?%not_elem_of_nil|]. rewrite fmap_cons. intros [Hj Hnd]%NoDup_cons Hin. simpl.
  apply elem_of_cons in Hin as [[= -> ->]|Hin].
  - rewrite Z.eqb_refl. simpl. apply Permutation_cons; [done|].
    assert (List.filter (fun e => negb (e.1 =? j)) l = l) as ->; [|done]. clear IH. simpl in Hj.
    induction l as [|[k z] l IH]; [done|]. simpl in Hj |- *. apply not_elem_of_cons in Hj as [Hne Hj].
    destruct (Z.eqb_spec k j); [congruence|]. simpl. f_equal. apply IH; [done|]. by apply NoDup_cons in Hnd as [].
  - assert (j <> i) as Hne by (intros ->; apply Hj; apply list_elem_of_fmap; by exists (i, x)).
    destruct (Z.eqb_spec j i); [done|]. simpl. rewrite (IH Hnd Hin). apply perm_swap.
Qed.

Lemma awaited_nodup ids p i : NoDup (awaited_from ids p i).*1.
Proof.
  revert p i. induction ids as [|x ids IH]; intros p i; simpl; [constructor|].
  destruct (Z.odd p); simpl; [|apply IH]. constructor; [|apply IH]. intros (e & He & Hin%awaited_pos)%list_elem_of_fmap. lia.
Qed.

Lemma numbered_snd i l : (numbered i l).*2 = l.
Proof. revert i. induction l as [|x l IH]; intros i; [done|]. simpl. by rewrite IH. Qed.

Lemma numbered_pos i l : 0 < i -> Forall (fun e => e.1 <> 0) (numbered i l).
Proof. revert i. induction l as [|x l IH]; intros i Hi; constructor; [simpl; lia|]. apply IH. lia. Qed.

(** The bits of [pending] implement the abstract notification. *)
Lemma notified_step n w peer data i :
  notify_ok n -> outstanding_of n w -> List.find (fun e => e.2 =? peer) (awaited n) = Some (i, peer) ->
  notify_ok (notified i data n) /\ exists w', answer_step peer data w w' /\ outstanding_of (notified i data n) w'.
Proof.
  intros Hn Hw Hf. apply List.find_some in Hf as [Hin%list_elem_of_In _].
  pose proof (awaited_pos _ _ _ _ Hin) as Hi. simpl in Hi. unfold notified. destruct w as [obj|l]; simpl in Hw.
  - rewrite Hw in Hin. apply list_elem_of_singleton in Hin as [= -> ->]. simpl.
    pose proof (answered_ok 0 n Hn) as Hok. pose proof (awaited_answered 0 n Hn ltac:(lia)) as Ha. rewrite Hw in Ha. simpl in Ha.
    destruct (msg_attr data UBUS_ATTR_SUBSCRIBERS) as [a|] eqn:Es.
    + apply (notify_done _ Hok) in Ha as Hz. destruct (notify_subscribers_spec (blob_for_each_attr a) 1 (answered 0 n)) as [Hok' Haw].
      { apply Hok. } { unfold UBUS_MAX_NOTIFY_PEERS. lia. } { rewrite Hz. simpl. lia. }
      split; [done|]. exists (for_peers (listed data)). split; [constructor|]. unfold listed, outstanding_of. rewrite Es, Haw, Ha. simpl app.
      change (Z.of_nat 1) with 1. change (S UBUS_MAX_NOTIFY_PEERS - 1)%nat with UBUS_MAX_NOTIFY_PEERS.
      split; [by rewrite numbered_snd|by apply numbered_pos].
    + split; [done|]. exists (for_peers (listed data)). split; [constructor|]. unfold listed, outstanding_of. rewrite Es, Ha. done.
  - destruct Hw as [Hl Hz]. assert (i <> 0) as Hi0 by (rewrite Forall_forall in Hz; apply (Hz _ Hin)).
    rewrite (proj2 (Z.eqb_neq i 0)) by done. split; [by apply answered_ok|]. pose proof (awaited_answered i n Hn ltac:(lia)) as Ha.
    exists (for_peers (awaited (answered i n)).*2). split.
    + constructor. rewrite <- Hl, Ha. apply filter_one; [apply awaited_nodup|done].
    + split; [done|]. rewrite Ha. rewrite Forall_forall in *. intros e [He _]%list_elem_of_In%List.filter_In.
      apply Hz. by apply list_elem_of_In.
Qed.

(** Storing into the notify part of a request *)
Lemma store_notify_run s p r n f :
  c_reqs s !! p = Some r -> rq_nreq r = Some n ->
  store_notify p f s = Some (tt, s <| c_reqs ::= insert p (r <| rq_nreq := Some (f n) |>) |>).
Proof.
  intros Hr Hn. unfold store_notify, notify_of. rewrite bind_assoc. erewrite bind_run by (by apply lload_run). rewrite Hn.
  erewrite bind_run by done. by erewrite lstore_run by exact Hr.
Qed.

Lemma notify_of_run s p r n : c_reqs s !! p = Some r -> rq_nreq r = Some n -> notify_of p s = Some (n, s).
Proof. intros Hr Hn. unfold notify_of. erewrite bind_run by (by apply lload_run). by rewrite Hn. Qed.

Lemma parse_run data s : lib_parse_msg data (blob_raw_len data) s = Some (msg_attr data, parsed data s).
Proof. done. Qed.

(** [ubus_process_notify_status] up to the test whether all have answered *)
Lemma notify_status_run s p r n buf i :
  c_reqs s !! p = Some r -> rq_nreq r = Some n -> nq_status_cb n = None ->
  ubus_process_notify_status p i buf s =
    (n ← notify_of p; when (nq_pending n =? 0) (ubus_set_req_status p 0))
      (parsed (mb_data buf) s <| c_reqs ::= insert p (r <| rq_nreq := Some (notified i (mb_data buf) n) |>) |>).
Proof.
  intros Hr Hn Hcb. unfold ubus_process_notify_status. erewrite bind_run by (by apply store_notify_run).
  unfold notified. destruct (i =? 0) eqn:Ei.
  - apply Z.eqb_eq in Ei as ->. rewrite bind_assoc. erewrite bind_run by apply parse_run. cbv beta. destruct (msg_attr (mb_data buf) UBUS_ATTR_SUBSCRIBERS) as [a|]; [|done].
    erewrite bind_run by (apply store_notify_run; [apply lookup_insert_eq|reflexivity]).
    unfold parsed. simpl. by rewrite insert_insert_eq.
  - unfold ubus_get_status. rewrite !bind_assoc. erewrite bind_run by apply parse_run. cbv beta.
    erewrite bind_run by done. rewrite bind_assoc. erewrite bind_run by (eapply notify_of_run; [apply lookup_insert_eq|reflexivity]).
    cbn [nq_status_cb]. simpl nq_status_cb. rewrite Hcb. done.
Qed.

(** C13: A notification waits for exactly those who are to answer.  First it waits
    for the daemon; the daemon's STATUS names the subscribers, of which the
    library waits for the first sixteen; each of their STATUS messages takes one
    away; and when the last is gone, and not before, the request completes with
    status 0.  (The bit set and the array of ids implement this list; answers
    from others are not taken for this request.) *)
Theorem notify_answered s buf fd p r n w :
  req_list_ok s -> hdr_type (mb_hdr buf) = UBUS_MSG_STATUS ->
  expecting s (hdr_seq (mb_hdr buf)) (hdr_peer (mb_hdr buf)) = Some p ->
  c_reqs s !! p = Some r -> rq_notify r = true -> rq_nreq r = Some n -> nq_status_cb n = None -> fd_kept r fd ->
  outstanding_of n w ->
  exists n' w', notify_ok n' /\ answer_step (hdr_peer (mb_hdr buf)) (mb_data buf) w w' /\ outstanding_of n' w' /\
    let r' := r <| rq_nreq := Some n' |> in
    let s' := parsed (mb_data buf) s in
    ubus_process_req_msg buf fd s =
      match w' with
      | for_peers [] =>
          match rq_blocked r, rq_complete_cb r with
          | false, Some cb =>
              (call_complete_handler cb p 0;; close_if fd) (finished p (with_status 0 r' <| rq_complete_cb := None |>) s')
          | _, _ => close_if fd (finished p (with_status 0 r') s')
          end
      | _ => close_if fd (s' <| c_reqs ::= insert p r' |>)
      end.
Proof.
  intros Hs Ht Ee Hr Hnt Hn Hcb Hfd Hw. destruct (rl_live _ Hs p (expecting_linked _ _ _ _ Ee)) as (r0 & Hr0 & Hok).
  rewrite Hr in Hr0. injection Hr0 as <-. destruct (ro_notify _ Hok Hnt) as (n0 & Hn0 & Hnok). rewrite Hn in Hn0. injection Hn0 as <-.
  destruct (find_request_spec s (hdr_seq (mb_hdr buf)) (hdr_peer (mb_hdr buf)) Hs) as (i & Ef & Hpos). rewrite Ee in *.
  destruct Hpos as (r0 & Hr0 & Hpos). rewrite Hr in Hr0. injection Hr0 as <-. unfold position in Hpos. rewrite Hnt in Hpos.
  destruct Hpos as (n0 & Hn0 & Hfind). rewrite Hn in Hn0. injection Hn0 as <-.
  assert (0 <= i) as Hi.
  { apply List.find_some in Hfind as [Hin%list_elem_of_In%awaited_pos _]. simpl in Hin. lia. }
  destruct (notified_step n w _ (mb_data buf) i Hnok Hw Hfind) as (Hok' & w' & Hstep & Hw').
  exists (notified i (mb_data buf) n), w'. split; [done|]. split; [done|]. split; [done|]. cbv zeta.
  unfold ubus_process_req_msg. rewrite Ht, Z.eqb_refl. erewrite bind_run by exact Ef. cbv beta iota.
  erewrite bind_run by (by apply lload_run). erewrite bind_run by (by apply fd_step). rewrite (proj2 (Z.leb_le 0 i)) by done.
  unfold mbind at 1, stm_bind at 1. rewrite (notify_status_run s p r n buf i Hr Hn Hcb).
  erewrite bind_run by (eapply notify_of_run; [apply lookup_insert_eq|reflexivity]).
  assert ((nq_pending (notified i (mb_data buf) n) =? 0) = match w' with for_peers [] => true | _ => false end) as ->.
  { apply eq_bool_prop_intro. rewrite !Is_true_true, Z.eqb_eq, (notify_done _ Hok').
    destruct Hstep as [|l l' Hl]; simpl in Hw'; destruct Hw' as [Hp _].
    all: match goal with |- _ <-> match ?l with _ => _ end = true => destruct l as [|x l0] end.
    all: split; [intros E; rewrite E in Hp; simpl in Hp; try done; by apply Permutation_nil_cons in Hp|intros E; try done].
    all: symmetry in Hp; apply Permutation_nil in Hp; by apply fmap_nil_inv in Hp. }
  assert (match w' with for_peers [] => true | _ => false end = true -> w' = for_peers []) as Hnil by (by destruct w' as [|[]]).
  destruct (match w' with for_peers [] => true | _ => false end) eqn:E.
  - rewrite (Hnil eq_refl). cbn [when]. erewrite set_status_run; [|exact (expecting_linked _ _ _ _ Ee)|apply lookup_insert_eq].
    change (rq_blocked (r <| rq_nreq := _ |>)) with (rq_blocked r). change (rq_complete_cb (r <| rq_nreq := _ |>)) with (rq_complete_cb r).
    unfold finished, parsed. simpl. rewrite !insert_insert_eq. destruct (rq_blocked r); [done|]. by destruct (rq_complete_cb r).
  - cbn [when]. destruct w' as [|[|]]; done.
Qed.
End LibReqThms.

(** ** Witnesses *)

Lemma single_req_ok s p r : ctx_requests s = [p] -> c_reqs s !! p = Some r -> req_ok r -> req_list_ok s.
Proof.
  intros Hl Hr Hok. split; rewrite Hl; [repeat constructor; by intros ?%not_elem_of_nil|].
  intros q ->%list_elem_of_singleton. eauto.
Qed.

Lemma status_completes_witness :
  exists r, c_reqs lib_calling !! demo_call_req = Some r /\
    ubus_process_req_msg demo_status (-1) lib_calling =
      close_if (-1) (finished demo_call_req (with_status 4 (r <| rq_peer := 100 |>)) (parsed (mb_data demo_status) lib_calling)).
Proof.
  assert (exists r, c_reqs lib_calling !! demo_call_req = Some r /\ rq_init r = true /\ rq_notify r = false /\
    rq_fd_cb r = None /\ rq_blocked r = false /\ rq_complete_cb r = None) as (r & Hr & Hi & Hn & Hf & Hb & Hc).
  { vm_compute. eexists. split; [reflexivity|]. done. }
  exists r. split; [exact Hr|].
  assert (req_list_ok lib_calling) as Hok.
  { apply (single_req_ok _ demo_call_req r); [reflexivity|exact Hr|]. split; [exact Hi|congruence]. }
  pose proof (status_completes lib_calling demo_status (-1) Hok eq_refl) as H.
  assert (expecting lib_calling 1 100 = Some demo_call_req) as Ee by (vm_compute; reflexivity).
  change (hdr_seq (mb_hdr demo_status)) with 1 in H. change (hdr_peer (mb_hdr demo_status)) with 100 in H. rewrite Ee in H.
  specialize (H r Hr Hn (or_intror Hf)). cbv zeta in H. rewrite Hb, Hc in H.
  assert (status_in (mb_data demo_status) UBUS_STATUS_INVALID_ARGUMENT = 4) as Es by (vm_compute; reflexivity).
  rewrite Es in H. exact H.
Defined.

Lemma notify_answered_witness :
  exists r n n' w', c_reqs lib_notifying !! demo_notify_req = Some r /\ rq_nreq r = Some n /\
    outstanding_of n (for_daemon 42) /\ answer_step 42 (mb_data demo_subscribers) (for_daemon 42) w' /\ outstanding_of n' w'.
Proof.
  assert (exists r n, c_reqs lib_notifying !! demo_notify_req = Some r /\ rq_init r = true /\ rq_notify r = true /\
    rq_fd_cb r = None /\ rq_nreq r = Some n /\ nq_status_cb n = None /\ length (nq_id n) = 17%nat /\ nq_pending n = 1 /\
    awaited n = [(0, 42)]) as (r & n & Hr & Hi & Hnt & Hf & Hn & Hcb & Hl & Hp & Haw).
  { vm_compute. eexists _, _. split; [reflexivity|]. done. }
  assert (notify_ok n) as Hnok by (split; [exact Hl|rewrite Hp; done]).
  assert (req_list_ok lib_notifying) as Hok.
  { apply (single_req_ok _ demo_notify_req r); [reflexivity|exact Hr|]. split; [exact Hi|eauto]. }
  assert (expecting lib_notifying 1 42 = Some demo_notify_req) as Ee by (vm_compute; reflexivity).
  destruct (notify_answered lib_notifying demo_subscribers (-1) demo_notify_req r n (for_daemon 42) Hok eq_refl Ee Hr Hnt Hn Hcb (or_intror Hf) Haw)
    as (n' & w' & _ & H1 & H2 & _).
  exists r, n, n', w'. split; [exact Hr|]. split; [exact Hn|]. split; [exact Haw|]. split; [exact H1|exact H2].
Defined.
