(* ===== verification/LibObjThms.v ===== *)
(** * Theorems about calls of the program's objects, and the cached rules *)

From stdpp Require Import base gmap strings list fin_maps.
From Stdlib Require Import ZArith Lia.
From S2P Require Import Prelude Wire Cstring Libubox LibuboxModel Ids State LibState LibIo LibIoSpec LibCalls LibReq LibReqSpec LibObj LibDemo.
Local Open Scope Z_scope.
Local Open Scope ubus_scope.

(** ** Finding the method *)

(** A method without a name is a catch-all. *)
Definition goes_by (name : string) (m : lib_method) : Prop := lm_name m = None \/ lm_name m = Some name.

(** The method of the object that [name] is for: the first that goes by it *)
Definition method_for (o : lib_object) (name : string) (r : option lib_method) : Prop :=
  match r with
  | Some m => exists before after, method_list (lo_methods o) = before ++ m :: after /\ goes_by name m /\
      Forall (fun m' => ~ goes_by name m') before
  | None => Forall (fun m => ~ goes_by name m) (method_list (lo_methods o))
  end.

Lemma find_first (l : list lib_method) name :
  match List.find (fun m => match lm_name m with None => true | Some n => strcmp n name =? 0 end) l with
  | Some m => exists before after, l = before ++ m :: after /\ goes_by name m /\ Forall (fun m' => ~ goes_by name m') before
  | None => Forall (fun m => ~ goes_by name m) l
  end.
Proof.
  assert (forall m, (match lm_name m with None => true | Some n => strcmp n name =? 0 end) = true <-> goes_by name m) as Hg.
  { intros m. unfold goes_by. destruct (lm_name m) as [n|]; [|tauto]. rewrite Z.eqb_eq, strcmp_eq.
    split; [intros ->; by right|]. intros [?|[= ->]]; [discriminate|done]. }
  induction l as [|m l IH]; simpl; [constructor|]. specialize (Hg m).
  destruct (match lm_name m with None => true | Some n => strcmp n name =? 0 end).
  - exists [], l. split; [done|]. split; [by apply Hg|constructor].
  - assert (~ goes_by name m) as Hm by (intros H%Hg; discriminate). destruct (List.find _ l) as [x|].
    + destruct IH as (l1 & l2 & -> & Hx & Hl). exists (m :: l1), l2. split; [done|]. split; [done|]. by constructor.
    + by constructor.
Qed.

Lemma first_unique {A} (P : A -> Prop) (l1 l2 l1' l2' : list A) x x' :
  l1 ++ x :: l2 = l1' ++ x' :: l2' -> P x -> P x' -> Forall (fun y => ~ P y) l1 -> Forall (fun y => ~ P y) l1' -> x = x'.
Proof.
  revert l1'. induction l1 as [|y l1 IH]; intros [|y' l1']; simpl; intros [= -> E] Hx Hx' H H'; try done.
  - by apply Forall_cons in H' as [].
  - by apply Forall_cons in H as [].
  - apply Forall_cons in H as [_ H]. apply Forall_cons in H' as [_ H']. by eapply IH.
Qed.

(** [ubus_object_find_method] finds it. *)
Lemma find_method_for o name r : method_for o name r <-> ubus_object_find_method o name = r.
Proof.
  pose proof (find_first (method_list (lo_methods o)) name) as H. unfold ubus_object_find_method.
  destruct (List.find _ _) as [m|]; (split; [|by intros <-]); destruct r as [m'|]; try done; simpl.
  - destruct H as (l1 & l2 & E & Hm & Hl). intros (l1' & l2' & E' & Hm' & Hl'). rewrite E in E'. f_equal. by eapply first_unique.
  - destruct H as (l1 & l2 & E & Hm & Hl). rewrite E, Forall_app, Forall_cons. tauto.
  - intros (l1' & l2' & E' & Hm' & _). rewrite E', Forall_app, Forall_cons in H. tauto.
Qed.

Section Invoke.
Context `{AL : AvlLib} `{PM : ProgMem} `{BL : BlobLib} `{PR : !Program}.
Implicit Types (s : ubus_context).

(** The state in which [struct ubus_request_data req] holds [rd] *)
Definition with_call (rd : ubus_request_data) s : ubus_context :=
  s <| c_brk ::= Pos.succ |> <| c_rdata ::= insert (c_brk s) rd |>.

(** The end of [ubus_process_invoke] without a handler: the call is answered
    with a status. *)
Definition refuse (req : ptr) (st : ubus_msg_status) (rd : ubus_request_data) : stm ubus_context unit :=
  close_if (rd_req_fd rd);;
  ubus_send_msg (rd_seq rd) (Some (blob_render [put_int32 UBUS_ATTR_STATUS st; put_int32 UBUS_ATTR_OBJID (rd_object rd)]))
    UBUS_MSG_STATUS (rd_peer rd) (rd_fd rd);;
  end_local (T := ubus_request_data) req.

(** The end after a handler returned [ret]: the call is answered with it, under
    the sequence number and to the peer of the call, unless the handler has
    deferred the answer or the caller wants none. *)
Definition conclude (req : ptr) (no_reply : bool) (ret : Z) : stm ubus_context unit :=
  r ← lload (T := ubus_request_data) req;
  close_if (rd_req_fd r);;
  (if rd_deferred r || no_reply then mret tt
   else
     ubus_send_msg (rd_seq r) (Some (blob_render [put_int32 UBUS_ATTR_STATUS ret; put_int32 UBUS_ATTR_OBJID (rd_object r)]))
       UBUS_MSG_STATUS (rd_peer r) (rd_fd r);;
     mret tt);;
  end_local (T := ubus_request_data) req.

Definition flag_set (a : option bytes) : bool :=
  match a with Some a => negb (blob_get_int8 a =? 0) | None => false end.

(** What the handler learns about the caller *)
Definition caller_data hdr fd (o : lib_object) s : ubus_request_data :=
  mk_request_data (lo_id o) (hdr_peer hdr) (hdr_seq hdr)
    (match attrbuf s UBUS_ATTR_USER, attrbuf s UBUS_ATTR_GROUP with
     | Some u, Some g => mk_acl_key (Some (blobmsg_get_string u)) (Some (blobmsg_get_string g)) (lo_name o)
     | _, _ => mk_acl_key None None None
     end) false (-1) fd.

(** Before the caller is known *)
Definition no_caller fd : ubus_request_data := mk_request_data 0 0 0 (mk_acl_key None None None) false (-1) fd.

Lemma close_sys fd s : exists o, close_if fd s = Some (tt, s <| sys := o |>).
Proof.
  unfold close_if, when. destruct (0 <=? fd); [by eexists|]. exists (sys s). by destruct s.
Qed.

Lemma refuse_run hdr obj fd s (st : ubus_msg_status) rd :
  invoke_status hdr obj (c_brk s) (with_call (no_caller fd) s) = Some (Some (st : Z), with_call rd s) ->
  ubus_process_invoke hdr obj fd s = refuse (c_brk s) st rd (with_call rd s).
Proof.
  intros E. unfold ubus_process_invoke. erewrite bind_run by done. erewrite bind_run by exact E.
  erewrite bind_run by (apply lload_run, lookup_insert_eq). unfold refuse.
  destruct (close_sys (rd_req_fd rd) (with_call rd s)) as [o Ec]. rewrite !(bind_run _ _ _ _ _ Ec).
  unfold ubus_complete_deferred_request. rewrite bind_assoc.
  erewrite bind_run by (apply lload_run, lookup_insert_eq). rewrite bind_assoc. by unfold mbind, stm_bind.
Qed.

(** [invoke_status] up to the search for the method *)
Lemma invoke_status_run hdr p o fd name s :
  ubus_context_is_channel s = false -> c_objs s !! p = Some o -> attrbuf s UBUS_ATTR_METHOD = Some name ->
  invoke_status hdr (Some p) (c_brk s) (with_call (no_caller fd) s) =
    match ubus_object_find_method o (blob_string name) with
    | None => mret (Some (UBUS_STATUS_METHOD_NOT_FOUND : Z))
    | Some m => invoke_found (Some (p, m)) (c_brk s) (flag_set (attrbuf s UBUS_ATTR_NO_REPLY))
    end (with_call (caller_data hdr fd o s) s).
Proof.
  intros Hc Ho Hn. unfold invoke_status. erewrite bind_run by done.
  change (ubus_context_is_channel (with_call (no_caller fd) s)) with (ubus_context_is_channel s). rewrite Hc, andb_false_r.
  change (negb (has (Some p)) && negb false || false) with false. cbv iota. erewrite bind_run by done. change (attrbuf (with_call (no_caller fd) s)) with (attrbuf s). rewrite Hn.
  erewrite bind_run by done. erewrite bind_run by (apply lstore_run, lookup_insert_eq).
  erewrite bind_run by (apply lload_run; exact Ho). erewrite bind_run by (apply lstore_run, lookup_insert_eq).
  erewrite bind_run by done. erewrite bind_run by done.
  cbn [set_lheap lheap_rdata].
  match goal with |- (match attrbuf ?x _ with _ => _ end ≫= _) _ = _ => change (attrbuf x) with (attrbuf s) end.
  unfold caller_data, with_call. destruct (attrbuf s UBUS_ATTR_USER) as [u|]; [destruct (attrbuf s UBUS_ATTR_GROUP) as [g|]|].
  - erewrite bind_run by (apply lstore_run, lookup_insert_eq). simpl. rewrite !insert_insert_eq. done.
  - erewrite bind_run by done. simpl. rewrite !insert_insert_eq. done.
  - erewrite bind_run by done. simpl. rewrite !insert_insert_eq. done.
Qed.

(** A call of a method there is, with data *)
Lemma invoke_run s hdr p o fd name m d :
  ubus_context_is_channel s = false -> ctx_pre_invoke s = None -> c_objs s !! p = Some o ->
  attrbuf s UBUS_ATTR_METHOD = Some name -> ubus_object_find_method o (blob_string name) = Some m -> attrbuf s UBUS_ATTR_DATA = Some d ->
  ubus_process_invoke hdr (Some p) fd s =
    (ret ← call_method_handler (lm_handler m) p (c_brk s) (blob_string name) d;
     conclude (c_brk s) (flag_set (attrbuf s UBUS_ATTR_NO_REPLY)) ret) (with_call (caller_data hdr fd o s) s).
Proof.
  intros Hc Hpre Ho Hn Hm Hd. pose proof (invoke_status_run hdr p o fd name s Hc Ho Hn) as E. set (rd := caller_data hdr fd o s) in *.
  rewrite Hm in E. unfold invoke_found in E.
  assert (forall k : option bytes -> stm ubus_context (option Z), (attr UBUS_ATTR_DATA ≫= k) (with_call rd s) = k (attrbuf s UBUS_ATTR_DATA) (with_call rd s)) as Hattr by done.
  rewrite Hattr, Hd in E.
  unfold ubus_process_invoke. rewrite (bind_run _ _ s (c_brk s) (with_call (no_caller fd) s)) by done.
  unfold mbind at 1, stm_bind at 1. rewrite E.
  erewrite bind_run by done. change (ctx_pre_invoke (with_call rd s)) with (ctx_pre_invoke s). rewrite Hpre.
  erewrite bind_run by done. simpl negb. cbv iota. rewrite bind_assoc. erewrite bind_run by done.
  rewrite bind_assoc. erewrite bind_run by done. change (attrbuf (with_call rd s)) with (attrbuf s). rewrite Hn, Hd.
  unfold mbind, stm_bind. destruct (call_method_handler _ _ _ _ _ (with_call rd s)) as [[ret s1]|]; [|done].
  unfold conclude, mbind, stm_bind, lload. destruct (lheap s1 !! c_brk s) as [r|] eqn:Er; [|done]. simpl in Er |- *. rewrite Er.
  destruct (close_sys (rd_req_fd r) s1) as [o1 ->].
  destruct (rd_deferred r || _); [done|]. unfold ubus_complete_deferred_request, mbind, stm_bind, lload. simpl. by rewrite Er.
Qed.

(** C14: Every call that reaches an object of the program goes to the handler of
    the first method of that name (or without a name, a catch-all), with the
    object's id and the caller's client id, sequence number and, when the daemon
    gave both, user and group; when the handler is done, its status is sent to
    the caller under the call's sequence number, unless the handler has deferred
    the answer or the caller wants none.  (The program has set no [pre_invoke]
    hook; the connection is not a channel.)  Calls of unknown methods and
    calls without data are refused with a status for the caller; a call of an
    unknown object or without a method name is refused with a status that names
    neither the caller nor the request. *)
Theorem invoke_dispatched s hdr obj fd :
  ubus_context_is_channel s = false -> ctx_pre_invoke s = None ->
  match obj, attrbuf s UBUS_ATTR_METHOD with
  | None, _ =>
      ubus_process_invoke hdr obj fd s =
        refuse (c_brk s) UBUS_STATUS_NOT_FOUND (no_caller fd) (with_call (no_caller fd) s)
  | Some _, None =>
      ubus_process_invoke hdr obj fd s =
        refuse (c_brk s) UBUS_STATUS_INVALID_ARGUMENT (no_caller fd) (with_call (no_caller fd) s)
  | Some p, Some name => forall o r, c_objs s !! p = Some o -> method_for o (blob_string name) r ->
      let rd := caller_data hdr fd o s in
      match r, attrbuf s UBUS_ATTR_DATA with
      | None, _ =>
          ubus_process_invoke hdr obj fd s = refuse (c_brk s) UBUS_STATUS_METHOD_NOT_FOUND rd (with_call rd s)
      | Some _, None =>
          ubus_process_invoke hdr obj fd s = refuse (c_brk s) UBUS_STATUS_INVALID_ARGUMENT rd (with_call rd s)
      | Some m, Some d =>
          ubus_process_invoke hdr obj fd s =
            (ret ← call_method_handler (lm_handler m) p (c_brk s) (blob_string name) d;
             conclude (c_brk s) (flag_set (attrbuf s UBUS_ATTR_NO_REPLY)) ret) (with_call rd s)
      end
  end.
Proof.
  intros Hc Hpre. destruct obj as [p|].
  2:{ apply refuse_run. unfold invoke_status. erewrite bind_run by done.
      change (ubus_context_is_channel (with_call (no_caller fd) s)) with (ubus_context_is_channel s). by rewrite Hc. }
  destruct (attrbuf s UBUS_ATTR_METHOD) as [name|] eqn:Hn.
  2:{ apply refuse_run. unfold invoke_status. erewrite bind_run by done.
      change (ubus_context_is_channel (with_call (no_caller fd) s)) with (ubus_context_is_channel s). rewrite Hc, andb_false_r.
      change (negb (has (Some p)) && negb false || false) with false. cbv iota. erewrite bind_run by done. change (attrbuf (with_call (no_caller fd) s)) with (attrbuf s). by rewrite Hn. }
  intros o r Ho Hr%find_method_for. cbv zeta. pose proof (invoke_status_run hdr p o fd name s Hc Ho Hn) as E.
  set (rd := caller_data hdr fd o s) in *. rewrite Hr in E. destruct r as [m|]; [|by apply refuse_run].
  assert (forall k : option bytes -> stm ubus_context (option Z), (attr UBUS_ATTR_DATA ≫= k) (with_call rd s) = k (attrbuf s UBUS_ATTR_DATA) (with_call rd s)) as Hattr by done.
  unfold invoke_found in E. rewrite Hattr in E. destruct (attrbuf s UBUS_ATTR_DATA) as [d|] eqn:Hd; [|by apply refuse_run].
  by apply invoke_run.
Qed.
End Invoke.

(** ** Witness *)

Lemma invoke_dispatched_witness :
  exists o m d, c_objs lib_called !! demo_obj = Some o /\ method_for o "hi" (Some m) /\
    ubus_process_invoke (mk_msghdr 0 UBUS_MSG_INVOKE 3 77) (Some demo_obj) (-1) lib_called =
      (ret ← call_method_handler (lm_handler m) demo_obj (c_brk lib_called) "hi" d;
       conclude (c_brk lib_called) false ret) (with_call (caller_data (mk_msghdr 0 UBUS_MSG_INVOKE 3 77) (-1) o lib_called) lib_called).
Proof.
  pose proof (invoke_dispatched lib_called (mk_msghdr 0 UBUS_MSG_INVOKE 3 77) (Some demo_obj) (-1) eq_refl eq_refl) as H.
  assert (exists name, attrbuf lib_called UBUS_ATTR_METHOD = Some name /\ blob_string name = "hi"%string) as (name & En & Es).
  { assert (blob_string <$> attrbuf lib_called UBUS_ATTR_METHOD = Some "hi"%string) as E by (vm_compute; reflexivity).
    destruct (attrbuf lib_called UBUS_ATTR_METHOD) as [name|]; [|discriminate E]. injection E as E. eauto. }
  assert (exists o m, c_objs lib_called !! demo_obj = Some o /\ method_for o "hi" (Some m)) as (o & m & Eo & Em).
  { eexists demo_object, _. split; [vm_compute; reflexivity|]. apply find_method_for. vm_compute. reflexivity. }
  assert (exists d, attrbuf lib_called UBUS_ATTR_DATA = Some d) as [d Ed] by (apply has_Some; vm_compute; reflexivity).
  assert (flag_set (attrbuf lib_called UBUS_ATTR_NO_REPLY) = false) as Ef by (vm_compute; reflexivity).
  rewrite En in H. rewrite Es in H. specialize (H o (Some m) Eo Em). cbv zeta in H. rewrite Ed, Ef in H.
  exists o, m, d. split; [exact Eo|]. split; [exact Em|exact H].
Defined.
