(* ===== verification/LibAclThms.v ===== *)
(** * The cache of the access rules stays in step

    [src/libubus-acl.c] keeps one request, [acl_req], in a static variable; a
    new query must not start while it is waiting.  The flags
    [acl_query_active] and [acl_query_deferred] implement a machine of four
    states, two of which the library does not tell apart. *)

From stdpp Require Import base gmap strings list fin_maps.
From Stdlib Require Import ZArith Lia.
From S2P Require Import Prelude Wire Cstring Libubox LibuboxModel Ids State LibState LibIo LibIoSpec LibIoThms.
From S2P Require Import LibCalls LibReq LibReqSpec LibDemo.
Local Open Scope Z_scope.
Local Open Scope ubus_scope.

(** How the cached rules stand: the last query, started after the last change,
    has succeeded; it has failed; it is under way; the rules have changed while
    one was. *)
Inductive acl_cache := up_to_date | stale | querying | querying_again.

(** What happens to it: the daemon announces a change; the query is answered. *)
Inductive acl_input := rules_changed | query_answered (status : Z).

Inductive acl_step : acl_cache -> acl_input -> acl_cache -> Prop :=
  | change_queries : acl_step up_to_date rules_changed querying
  | change_retries : acl_step stale rules_changed querying
  | change_deferred : acl_step querying rules_changed querying_again
  | change_again : acl_step querying_again rules_changed querying_again
  | answer_done : acl_step querying (query_answered 0) up_to_date
  | answer_failed ret : ret <> 0 -> acl_step querying (query_answered ret) stale
  | answer_requeries ret : acl_step querying_again (query_answered ret) querying.

Section LibAclThms.
Context `{AL : AvlLib} `{PM : ProgMem} `{BL : BlobLib} `{!BlobLaws BL} `{PR : !Program}.
Implicit Types (s : ubus_context).

(** ** Sending leaves the rest of the context alone *)

Definition no_sock : sock_state := mk_sock [] [] [] [] [] [] [] [].

(** The context without its connection *)
Definition lib_core s : ubus_context := s <| sys := no_sock |> <| ctx_sock_eof := false |>.
#[local] Arguments lib_core : simpl never.

Lemma pres_sys_send iov fd : preserves lib_core (sys_send iov fd).
Proof.
  intros s a s'. unfold sys_send. destruct (so_send (sys s)) as [|[n|e] rest]; intros [= _ <-]; done.
Qed.

Lemma pres_close_if fd : preserves lib_core (close_if fd).
Proof. unfold close_if, sys_close_fd. solve_pres. Qed.
Hint Resolve pres_sys_send pres_close_if : pres.

Lemma pres_writev_loop fuel iov fd len : preserves lib_core (writev_loop fuel iov fd len).
Proof. revert iov fd len. induction fuel as [|fuel IH]; intros iov fd len; simpl; solve_pres. Qed.
Hint Resolve pres_writev_loop : pres.

Lemma pres_send_msg seq msg cmd peer fd : preserves lib_core (ubus_send_msg seq msg cmd peer fd).
Proof. unfold ubus_send_msg, writev_retry. solve_pres. Qed.

(** The message has gone out, or the connection is given up. *)
Definition put_out (image : bytes) s s' : Prop :=
  exists k, so_out (sys s') = so_out (sys s) ++ take k image /\ (k = length image \/ ctx_sock_eof s' = true).

(** [__ubus_start_request] of a message within the limit *)
Lemma start_request_run s p r msg cmd peer :
  c_reqs s !! p = Some r -> blob_raw_len msg <= Z.of_nat (length msg) -> blob_pad_len msg <= UBUS_MAX_MSGLEN ->
  let seq := u16 (ctx_request_seq s + 1) in
  exists ret s', start_request p (Some msg) cmd peer s = Some (ret, s') /\
    lib_core s' = lib_core (s <| ctx_request_seq := seq |>
      <| c_reqs ::= insert p (r <| rq_init := true |> <| rq_pending := [] |> <| rq_peer := peer |> <| rq_seq := seq |>) |>) /\
    put_out (msg_image seq msg cmd peer) s s'.
Proof.
  intros Hr Hl Hp seq. unfold start_request. erewrite bind_run by (by apply lload_run).
  rewrite (proj2 (Z.ltb_ge _ _)) by lia. erewrite bind_run by done. erewrite bind_run by done.
  erewrite bind_run by (apply lstore_run; exact Hr).
  match goal with |- exists _ _, ubus_send_msg ?q _ _ _ ?fd ?s1 = _ /\ _ =>
    destruct (send_msg_spec s1 q msg cmd peer fd Hl) as (ret & s' & E & _ & Hout) end.
  exists ret, s'. split; [exact E|]. split; [exact (pres_send_msg _ _ _ _ _ _ _ _ E)|].
  rewrite (proj2 (Z.ltb_ge _ _)) in Hout by lia. destruct Hout as (k & Ho & _ & Hk). exists k. split; [exact Ho|].
  destruct Hk as [(Hk & _)|(_ & _ & He)]; auto.
Qed.

(** ** The states *)

Definition query_msg : bytes :=
  blob_render (ubus_put_data [put_int32 UBUS_ATTR_OBJID UBUS_SYSTEM_OBJECT_ACL; put_string UBUS_ATTR_METHOD "query"] no_msg).

(** The ACL object has been asked: the message is out, or the connection is given
    up, and [acl_req] is the request that it is the message of. *)
Definition query_sent s s' : Prop :=
  let seq := u16 (ctx_request_seq s + 1) in
  put_out (msg_image seq query_msg UBUS_MSG_INVOKE UBUS_SYSTEM_OBJECT_ACL) s s' /\
  exists r, c_reqs s' !! acl_req s' = Some r /\ rq_seq r = seq /\ rq_peer r = UBUS_SYSTEM_OBJECT_ACL.

(** [acl_req] is waiting for its answer. *)
Definition query_waits s : Prop :=
  acl_req s ∈ ctx_requests s /\
  exists r, c_reqs s !! acl_req s = Some r /\ rq_init r = true /\ rq_blocked r = false /\
    rq_data_cb r = Some call_acl_recv_cb /\ rq_complete_cb r = Some call_acl_query_complete_cb.

Definition acl_rep s (a : acl_cache) : Prop :=
  NoDup (ctx_requests s) /\
  match a with
  | up_to_date | stale => acl_query_active s = false /\ acl_query_deferred s = false /\
      acl_req s ∉ ctx_requests s /\ is_Some (c_reqs s !! acl_req s)
  | querying => acl_query_active s = true /\ acl_query_deferred s = false /\ query_waits s
  | querying_again => acl_query_active s = true /\ acl_query_deferred s = true /\ query_waits s
  end.

Lemma acl_rep_core s s' a : lib_core s' = lib_core s -> acl_rep s a -> acl_rep s' a.
Proof.
  intros E. assert (ctx_requests s' = ctx_requests s /\ c_reqs s' = c_reqs s /\ acl_req s' = acl_req s /\
    acl_query_active s' = acl_query_active s /\ acl_query_deferred s' = acl_query_deferred s) as (E1 & E2 & E3 & E4 & E5).
  { split_and!; [exact (f_equal ctx_requests E)|exact (f_equal c_reqs E)|exact (f_equal acl_req E)|
      exact (f_equal acl_query_active E)|exact (f_equal acl_query_deferred E)]. }
  unfold acl_rep, query_waits. by rewrite E1, E2, E3, E4, E5.
Qed.

Context (query_fits : blob_pad_len query_msg <= UBUS_MAX_MSGLEN).

(** Starting the query when none is under way *)
Lemma acl_query_starts s :
  acl_query_active s = false -> acl_query_deferred s = false -> NoDup (ctx_requests s) ->
  acl_req s ∉ ctx_requests s -> is_Some (c_reqs s !! acl_req s) ->
  exists s', acl_query s = Some (tt, s') /\ acl_rep s' querying /\ query_sent s s'.
Proof.
  intros Ha Hd Hnd Hni [r Hr]. unfold acl_query. erewrite bind_run by done. rewrite Ha. erewrite bind_run by done.
  erewrite bind_run by done. cbn [acl_req]. set (s0 := s <| acl_query_active := true |>).
  unfold ubus_invoke_async_fd, clear_request, req_linked. rewrite !bind_assoc. erewrite bind_run by done.
  change (ctx_requests s0) with (ctx_requests s). change (acl_req s0) with (acl_req s).
  rewrite bool_decide_false by done. cbn [negb assert]. rewrite !bind_assoc. erewrite bind_run by done.
  erewrite bind_run by (apply lstore_run; exact Hr). cbv beta. set (r1 := _ <| rq_lookup_cb ::= _ |>). set (s1 := set_lheap _ s0).
  rewrite bind_assoc. fold query_msg.
  destruct (start_request_run s1 (acl_req s) r1 query_msg UBUS_MSG_INVOKE UBUS_SYSTEM_OBJECT_ACL) as (ret & s2 & E2 & Hcore & Hout);
    [apply lookup_insert_eq|unfold query_msg; rewrite blob_render_len; lia|done|].
  erewrite bind_run by exact E2. set (r2 := _ <| rq_seq ::= _ |>) in Hcore.
  assert (c_reqs s2 !! acl_req s = Some r2) as Hr2.
  { pose proof (f_equal c_reqs Hcore) as H. simpl in H. rewrite H. apply lookup_insert_eq. }
  assert (ctx_requests s2 = ctx_requests s) as Hl2 by exact (f_equal ctx_requests Hcore).
  rewrite (bind_run _ _ s2 (if ret <? 0 then (UBUS_STATUS_INVALID_ARGUMENT : Z) else 0) s2) by (by destruct (ret <? 0)).
  erewrite bind_run by (apply lstore_run; exact Hr2). erewrite bind_run by (apply lstore_run, lookup_insert_eq).
  unfold ubus_complete_request_async, req_list_empty, req_linked. rewrite bind_assoc.
  erewrite bind_run by (apply lload_run, lookup_insert_eq). rewrite bind_assoc. erewrite bind_run by done. erewrite bind_run by done.
  cbn [set_lheap lheap_req]. match goal with |- context [ctx_requests ?x] => change (ctx_requests x) with (ctx_requests s2) end.
  rewrite Hl2, bool_decide_false by done. cbn [negb andb rq_init]. simpl negb. cbv iota.
  assert (acl_req s2 = acl_req s) as Hq by exact (f_equal acl_req Hcore).
  eexists. split; [reflexivity|]. split.
  2:{ split; [exact Hout|]. simpl. rewrite Hq, insert_insert_eq, lookup_insert_eq. eexists. split; [reflexivity|]. done. }
  split; [simpl; rewrite Hl2; by constructor|].
  split; [exact (f_equal acl_query_active Hcore)|]. split; [by rewrite <- Hd; exact (f_equal acl_query_deferred Hcore)|].
  unfold query_waits. simpl. rewrite Hq. split; [by left|]. rewrite insert_insert_eq, lookup_insert_eq. eexists. split; [reflexivity|]. done.
Qed.

(** The code behind an input *)
Definition acl_run (e : acl_input) : stm ubus_context unit :=
  match e with
  | rules_changed => acl_subscribe_cb "ubus.acl.sequence"
  | query_answered ret => req ← gets acl_req; ubus_set_req_status req ret
  end.

(** C15: The cache of the access rules implements its state machine.  Every
    change that the daemon announces is followed by a query sent after it: at
    once (an INVOKE of "query" on the daemon's ACL object, written to the
    connection unless that is given up), or, when a query is under way, when that
    one ends.  The request that all queries share is never started while it is
    still waiting, which would break the list of requests.  The library does not
    look at the status a query ends with: after a query that failed the cache is
    stale until the next change is announced.  ([query_fits]: the message is below
    the size limit.) *)
Theorem acl_refreshed s a e a' :
  acl_rep s a -> acl_step a e a' ->
  exists s', acl_run e s = Some (tt, s') /\ acl_rep s' a' /\
    match a' with querying => query_sent s s' | _ => so_out (sys s') = so_out (sys s) end.
Proof.
  intros [Hnd Hrep] Hstep.
  assert (a' = querying_again -> acl_query_active s = true -> query_waits s -> exists s', acl_subscribe_cb "ubus.acl.sequence" s = Some (tt, s') /\ acl_rep s' a' /\ so_out (sys s') = so_out (sys s)) as Hdefer.
  { intros -> Ha Hw. change (acl_subscribe_cb "ubus.acl.sequence") with acl_query. unfold acl_query. erewrite bind_run by done. rewrite Ha.
    eexists. split; [reflexivity|]. done. }
  assert (forall ret, acl_rep s querying ->
    exists s', acl_run (query_answered ret) s = Some (tt, s') /\ acl_rep s' up_to_date /\ so_out (sys s') = so_out (sys s)) as Hdone.
  { intros ret (_ & Ha & Hd & Hl & r & Hr & Hi & Hb & Hdc & Hc). simpl acl_run. erewrite bind_run by done.
    rewrite (set_status_run s _ r ret Hl Hr), Hb, Hc. simpl call_complete_handler. unfold acl_query_complete_cb.
    erewrite bind_run by done. erewrite bind_run by done.
    match goal with |- context [acl_query_deferred ?x] => change (acl_query_deferred x) with (acl_query_deferred s) end.
    rewrite Hd. eexists. split; [reflexivity|]. split; [|done]. split; [by apply NoDup_list_del|]. split; [done|]. split; [done|]. simpl.
    split; [rewrite elem_of_list_del; tauto|]. rewrite lookup_insert_eq. eauto. }
  destruct Hstep as [| | | | |ret _|ret]; simpl in Hrep.
  - destruct Hrep as (Ha & Hd & Hni & Hr). by apply (acl_query_starts s).
  - destruct Hrep as (Ha & Hd & Hni & Hr). by apply (acl_query_starts s).
  - destruct Hrep as (Ha & _ & Hw). by apply Hdefer.
  - destruct Hrep as (Ha & _ & Hw). by apply Hdefer.
  - by apply Hdone.
  - by apply Hdone.
  - simpl acl_run. destruct Hrep as (Ha & Hd & Hl & r & Hr & Hi & Hb & Hdc & Hc). erewrite bind_run by done.
    rewrite (set_status_run s _ r ret Hl Hr), Hb, Hc. simpl call_complete_handler. unfold acl_query_complete_cb.
    erewrite bind_run by done. erewrite bind_run by done.
    match goal with |- context [acl_query_deferred ?x] => change (acl_query_deferred x) with (acl_query_deferred s) end.
    rewrite Hd. cbn [negb]. erewrite bind_run by done.
    match goal with |- exists _, acl_query ?x = _ /\ _ =>
      enough (exists s', acl_query x = Some (tt, s') /\ acl_rep s' querying /\ query_sent x s') as H by exact H end.
    apply acl_query_starts; simpl; [done|done|by apply NoDup_list_del| |].
    + rewrite elem_of_list_del. tauto.
    + rewrite lookup_insert_eq. eauto.
Qed.
End LibAclThms.

(** ** Witness *)

Lemma acl_refreshed_witness :
  exists s', acl_run rules_changed lib_connected = Some (tt, s') /\ acl_rep s' querying /\ query_sent lib_connected s'.
Proof.
  assert (blob_pad_len query_msg <= UBUS_MAX_MSGLEN) as Hfits by (vm_compute; discriminate).
  apply (acl_refreshed Hfits lib_connected up_to_date rules_changed querying).
  - split; [vm_compute; constructor|]. split; [reflexivity|]. split; [reflexivity|]. split.
    + change (ctx_requests lib_connected) with (@nil ptr). apply not_elem_of_nil.
    + vm_compute. eexists. reflexivity.
  - constructor.
Defined.
