(* ===== verification/LibConnThms.v ===== *)
(** * Theorems about connections of the client library *)

From stdpp Require Import base gmap strings list fin_maps.
From Stdlib Require Import ZArith Lia.
From S2P Require Import Prelude Wire Cstring Libubox LibuboxModel Ids State LibState LibIo LibCalls LibReq LibReqSpec LibObj LibMain LibConn LibIoSpec LibIoThms LibDemo.
Local Open Scope Z_scope.
Local Open Scope ubus_scope.

Section LibConnThms.
Context `{AL : AvlLib} `{PM : ProgMem} `{BL : BlobLib} `{!BlobLaws BL} `{PR : !Program}.
Context (usock : string -> option connection) (UBUS_UNIX_SOCKET : string).
Implicit Types (s : ubus_context).

(** ** The greeting *)

(** A single [read] of [n] bytes succeeds. *)
Definition reads (n : Z) (bs : bytes) (answers : list recv_answer) : bool :=
  (n <=? 0) ||
  match answers with
  | Chunk k _ :: _ => n <=? Z.min k (Z.of_nat (length bs))
  | _ => false
  end.

(** The answers left after it *)
Definition answers_after (n : Z) (answers : list recv_answer) : list recv_answer :=
  if n <=? 0 then answers else tail answers.

(** Only the socket's input and the allocator's script are touched. *)
Definition only_input s s' : Prop :=
  exists i l al, s' = s <| sys ::= fun o => o <| so_in := i |> <| so_recv := l |> <| so_alloc := al |> |>.

#[local] Instance only_input_preorder : PreOrder only_input.
Proof.
  split.
  - intros s. exists (so_in (sys s)), (so_recv (sys s)), (so_alloc (sys s)). symmetry. apply upd_sys_id. by destruct (sys s).
  - intros s1 s2 s3 (i & l & al & ->) (i' & l' & al' & ->). exists i', l', al'. by apply upd_sys_twice.
Qed.

Lemma sys_read_reads n s :
  exists o s', sys_read n s = Some (o, s') /\ only_input s s' /\ so_alloc (sys s') = so_alloc (sys s) /\
    if reads n (so_in (sys s)) (so_recv (sys s)) then
      o = Some (take (Z.to_nat n) (so_in (sys s))) /\ so_in (sys s') = drop (Z.to_nat n) (so_in (sys s)) /\
      so_recv (sys s') = answers_after n (so_recv (sys s))
    else o = None.
Proof.
  unfold sys_read, reads, answers_after. destruct (Z.leb_spec n 0) as [Hn|Hn].
  { do 2 eexists. split; [reflexivity|]. split; [done|]. simpl. by replace (Z.to_nat n) with O by lia. }
  unfold mbind, stm_bind, sys_recv. destruct (so_recv (sys s)) as [|[k fd|e] rest] eqn:Er; simpl orb.
  - do 2 eexists. split; [reflexivity|]. split; [done|]. split; [done|]. destruct n; [lia|done|lia].
  - do 2 eexists. split; [reflexivity|]. split; [|split; [done|]].
    { exists (drop (Z.to_nat (Z.min k n)) (so_in (sys s))), rest, (so_alloc (sys s)). reflexivity. }
    cbn -[take drop Z.eqb]. rewrite length_take. destruct (Z.leb_spec n (Z.min k (Z.of_nat (length (so_in (sys s)))))).
    + rewrite (proj2 (Z.eqb_eq _ n)) by lia. by rewrite Z.min_r by lia.
    + by rewrite (proj2 (Z.eqb_neq _ n)) by lia.
  - do 2 eexists. split; [reflexivity|]. split; [|done].
    exists (so_in (sys s)), rest, (so_alloc (sys s)). reflexivity.
Qed.

(** The stream starts with an acceptable HELLO message that names a client id,
    each [read] gets what it asks for, memory suffices and [fcntl] succeeds. *)
Definition welcomed (bs : bytes) (answers : list recv_answer) (alloc : list bool) (fcntl_ok : bool) : bool :=
  let body := blob_raw_len (drop 8 bs) - sizeof_blob_attr in
  reads 12 bs answers && frame_ok bs && (hdr_type (decode_hdr bs) =? UBUS_MSG_HELLO) &&
  default true (head alloc) && reads body (drop 12 bs) (tail answers) &&
  (UBUS_CLIENT_ID_CHANNEL <? hdr_peer (decode_hdr bs)) && fcntl_ok.

Lemma sys_alloc_run s :
  exists s', sys_alloc s = Some (default true (head (so_alloc (sys s))), s') /\ only_input s s' /\
    so_in (sys s') = so_in (sys s) /\ so_recv (sys s') = so_recv (sys s).
Proof.
  unfold sys_alloc. destruct (so_alloc (sys s)) as [|ok rest]; [by exists s|].
  eexists. split; [reflexivity|]. split; [|done]. exists (so_in (sys s)), (so_recv (sys s)), rest. reflexivity.
Qed.

Lemma read_hello_spec s fcntl_ok :
  let bs := so_in (sys s) in
  exists id s1, let ok := welcomed bs (so_recv (sys s)) (so_alloc (sys s)) fcntl_ok in
    read_hello fcntl_ok s = Some (ok, s1 <| ctx_local_id := id |>) /\ only_input s s1 /\
    (ok = true -> id = hdr_peer (decode_hdr bs) /\ so_in (sys s1) = drop (frame_len bs) bs).
Proof.
  intros bs. unfold read_hello, welcomed. change (sizeof_msghdr + sizeof_blob_attr) with 12.
  destruct (sys_read_reads 12 s) as (o & s1 & E1 & Hi1 & Ha1 & H1). erewrite bind_run by exact E1. fold bs in H1.
  assert (forall s' b, only_input s s' -> exists id s1,
    mret (M := stm ubus_context) false s' = Some (false, s1 <| ctx_local_id := id |>) /\ only_input s s1 /\
    (false = true -> b id s1)) as Hno.
  { intros s' b H. exists (ctx_local_id s'), s'. split; [|done]. by destruct s'. }
  destruct (reads 12 bs _) eqn:Er; [|subst o; by apply Hno].
  assert (12 <= length bs)%nat as Hlen.
  { unfold reads in Er. simpl orb in Er. destruct (so_recv (sys s)) as [|[]]; try done. apply Z.leb_le in Er. lia. }
  destruct H1 as (-> & Hin1 & Hr1). cbv zeta iota beta. change (Z.to_nat 12) with 12%nat in *.
  destruct (frame_take bs Hlen) as (-> & -> & ->). cbn [andb].
  destruct (frame_ok bs) eqn:Ef; cbn [negb andb]; [|by apply Hno].
  destruct (hdr_type (decode_hdr bs) =? UBUS_MSG_HELLO); cbn [negb andb]; [|by apply Hno].
  destruct (sys_alloc_run s1) as (s2 & E2 & Hi2 & Hin2 & Hr2). erewrite bind_run by exact E2. rewrite Ha1 in *.
  assert (only_input s s2) as Hi by (by transitivity s1).
  destruct (default true _); cbn [negb andb]; [|by apply Hno].
  destruct (sys_read_reads (blob_raw_len (drop 8 bs) - sizeof_blob_attr) s2) as (o & s3 & E3 & Hi3 & _ & H3).
  erewrite bind_run by exact E3. rewrite Hin2, Hr2, Hin1, Hr1 in H3. change (answers_after 12 _) with (tail (so_recv (sys s))) in H3.
  assert (only_input s s3) as Hi' by (by transitivity s2).
  destruct (reads _ (drop 12 bs) _); [|subst o; by apply Hno]. destruct H3 as (-> & Hin3 & _). cbn [andb].
  exists (hdr_peer (decode_hdr bs)), s3. rewrite Z.leb_antisym, negb_involutive. split; [done|]. split; [done|]. intros _. split; [done|].
  rewrite Hin3, drop_drop. f_equal. apply frame_ok_len in Ef. unfold frame_len, sizeof_blob_attr. lia.
Qed.
(** ** Forgetting the old connection *)

(** The entries of [l], changed by [f]; the others stay *)
Definition updated {V} (f : V -> V) (l : list ptr) (m : gmap ptr V) : gmap ptr V :=
  map_imap (fun p v => Some (if bool_decide (p ∈ l) then f v else v)) m.

Lemma updated_nil {V} (f : V -> V) m : updated f [] m = m.
Proof. apply map_eq. intros q. unfold updated. rewrite map_lookup_imap. by destruct (m !! q). Qed.

Lemma updated_cons {V} (f : V -> V) p l m v :
  (forall v, f (f v) = f v) -> m !! p = Some v -> updated f l (<[p := f v]> m) = updated f (p :: l) m.
Proof.
  intros Hf Hp. apply map_eq. intros q. unfold updated. rewrite !map_lookup_imap. destruct (decide (p = q)) as [<-|Hne].
  - rewrite lookup_insert_eq, Hp. simpl. rewrite (bool_decide_true (p ∈ p :: l)) by set_solver. case_bool_decide; by rewrite ?Hf.
  - rewrite lookup_insert_ne by done. destruct (m !! q); [|done]. simpl. do 2 f_equal. by repeat case_bool_decide; set_solver.
Qed.

Lemma updated_live {V} (f : V -> V) l m p v :
  m !! p = Some v -> exists v', updated f l m !! p = Some v'.
Proof. intros H. unfold updated. rewrite map_lookup_imap, H. simpl. eauto. Qed.

(** The objects of the tree, and their types, are alive. *)
Definition objects_live s : Prop :=
  forall p, p ∈ (avl_list (ctx_objects s)).*2 -> exists o, c_objs s !! p = Some o /\
    (forall t, lo_type o = Some t -> is_Some (c_types s !! t)).

Definition types_of s (objs : list ptr) : list ptr := omap (fun p => c_objs s !! p ≫= lo_type) objs.

Lemma clear_types_run objs s :
  (forall p, p ∈ objs -> exists o, c_objs s !! p = Some o /\ (forall t, lo_type o = Some t -> is_Some (c_types s !! t))) ->
  for_each objs clear_type s = Some (tt, s <| c_types ::= updated (fun ty => ty <| lt_id := 0 |>) (types_of s objs) |>).
Proof.
  revert s. induction objs as [|p objs IH]; intros s H.
  { simpl. rewrite updated_nil. by destruct s. }
  destruct (H p) as (o & Ho & Ht); [by left|]. change (for_each (p :: objs) clear_type) with (clear_type p;; for_each objs clear_type).
  unfold clear_type at 2. rewrite bind_assoc. erewrite bind_run by (apply lload_run; exact Ho).
  assert (types_of s (p :: objs) = (match lo_type o with Some t => [t] | None => [] end) ++ types_of s objs) as ->
    by (unfold types_of; simpl; rewrite Ho; simpl; by destruct (lo_type o)).
  destruct (lo_type o) as [t|] eqn:Et.
  - destruct (Ht t eq_refl) as [ty Hty]. erewrite bind_run by (apply lstore_run; exact Hty). rewrite IH.
    + exact (f_equal (fun m => Some (tt, s <| c_types := m |>)) (updated_cons (fun ty => ty <| lt_id := 0 |>) t (types_of s objs) _ _ (fun _ => eq_refl) Hty)).
    + intros q Hq. destruct (H q) as (o' & Ho' & Ht'); [by right|]. exists o'. split; [done|]. intros t' E. simpl.
      destruct (decide (t = t')) as [<-|]; [rewrite lookup_insert_eq; eauto|rewrite lookup_insert_ne by done; auto].
  - erewrite bind_run by done. rewrite IH; [done|]. intros q Hq. apply H. by right.
Qed.

Lemma clear_ids_run objs s :
  (forall p, p ∈ objs -> is_Some (c_objs s !! p)) ->
  for_each objs clear_id s = Some (tt, s <| c_objs ::= updated (fun o => o <| lo_id := 0 |>) objs |>).
Proof.
  revert s. induction objs as [|p objs IH]; intros s H.
  { simpl. rewrite updated_nil. by destruct s. }
  destruct (H p) as (o & Ho); [by left|]. change (for_each (p :: objs) clear_id) with (clear_id p;; for_each objs clear_id).
  unfold clear_id at 2. erewrite bind_run by (apply lstore_run; exact Ho). rewrite IH.
  - exact (f_equal (fun m => Some (tt, s <| c_objs := m |>)) (updated_cons (fun o => o <| lo_id := 0 |>) p objs _ _ (fun _ => eq_refl) Ho)).
  - intros q Hq. simpl. destruct (decide (p = q)) as [<-|]; [rewrite lookup_insert_eq; eauto|].
    rewrite lookup_insert_ne by done. apply H. by right.
Qed.

(** The state when the objects are announced again: no id of the old connection is
    left, neither of an object nor of a type. *)
Definition forgotten s : ubus_context :=
  let objs := (avl_list (ctx_objects s)).*2 in
  s <| c_types ::= updated (fun ty => ty <| lt_id := 0 |>) (types_of s objs) |>
    <| ctx_objects := avl_init ubus_cmp_id false ptr |>
    <| c_objs ::= updated (fun o => o <| lo_id := 0 |>) objs |>.

Definition announce_all (objs : list ptr) : stm ubus_context unit :=
  for_each objs (fun obj => _ ← ubus_add_object obj; mret tt);;
  ubus_refresh_auto_subscribe.

Lemma refresh_run s :
  objects_live s -> ubus_refresh_state s = announce_all (avl_list (ctx_objects s)).*2 (forgotten s).
Proof.
  intros H. unfold ubus_refresh_state. erewrite bind_run by done. erewrite bind_run by (by apply clear_types_run).
  erewrite bind_run by done. erewrite bind_run by (apply clear_ids_run; intros p Hp; destruct (H p Hp) as (o & Ho & _); by exists o).
  done.
Qed.

(** ** The outcome *)

(** The old socket closed, the new one in its place *)
Definition reopened (c : connection) s : ubus_context :=
  s <| ctx_sock_registered ::= andb (ctx_sock_fd s <? 0) |> <| ctx_sock_eof := false |> <| ctx_sock_fd := cn_fd c |>
    <| sys ::= fun o => o <| so_in := cn_in c |> <| so_recv := cn_recv c |> <| so_send := cn_send c |>
                          <| so_out := [] |> <| so_passed := [] |>
                          <| so_closed ::= app (if 0 <=? ctx_sock_fd s then [ctx_sock_fd s] else []) |> |>.

(** The code once the socket is open *)
Definition after_open (c : connection) : stm ubus_context Z :=
  ok ← read_hello (cn_fcntl c);
  if (ok : bool) then
    ubus_refresh_state;;
    mret (UBUS_STATUS_OK : Z)
  else
    s ← gets (fun s => s);
    sys_close_fd (ctx_sock_fd s);;
    modify (fun s => s <| ctx_sock_fd := -1 |>);;
    mret (UBUS_STATUS_UNKNOWN_ERROR : Z).

Lemma reconnect_opened s path :
  ubus_context_is_channel s = false ->
  exists s', ubus_reconnect usock UBUS_UNIX_SOCKET path s = match usock (default UBUS_UNIX_SOCKET path) with
    | None => Some ((UBUS_STATUS_CONNECTION_FAILED : Z), s')
    | Some c => after_open c (reopened c s) end /\ ctx_sock_fd s' = -1 /\
    so_closed (sys s') = (if 0 <=? ctx_sock_fd s then [ctx_sock_fd s] else []) ++ so_closed (sys s).
Proof.
  intros Hch. unfold ubus_reconnect. erewrite bind_run by done. rewrite Hch. cbv iota.
  set (s0 := s <| ctx_sock_registered ::= andb (ctx_sock_fd s <? 0) |>
    <| sys ::= fun o => o <| so_closed ::= app (if 0 <=? ctx_sock_fd s then [ctx_sock_fd s] else []) |> |>).
  assert (close_sock s = Some (tt, s0)) as Ec.
  { unfold close_sock. erewrite bind_run by done. unfold s0, when. rewrite Z.ltb_antisym. destruct (0 <=? ctx_sock_fd s); [done|].
    simpl. destruct s. match goal with o : sock_state |- _ => by destruct o end. }
  erewrite bind_run by exact Ec. erewrite bind_run by done. unfold open_sock. destruct (usock _) as [c|]; rewrite bind_assoc.
  - erewrite bind_run by done. erewrite bind_run by done. by exists (s <| ctx_sock_fd := -1 |>
      <| sys ::= fun o => o <| so_closed ::= app (if 0 <=? ctx_sock_fd s then [ctx_sock_fd s] else []) |> |>).
  - erewrite bind_run by done. eexists. split; [reflexivity|]. done.
Qed.

(** C16: [ubus_reconnect] is right about the outcome.  It succeeds exactly when
    somebody listens and the first thing to come is a whole acceptable HELLO
    message with a client id above the reserved ones (and memory and [fcntl] do
    not fail); then the context has that id, the stream stands right after the
    message, and the objects of the program are announced again, one after the
    other, in a state that has no id of the old connection left, neither of an
    object nor of a type.  In every other case it reports an error, and no socket is
    open: the old one and the new one are both closed, each once. *)
Theorem reconnect_outcome s path :
  ubus_context_is_channel s = false -> objects_live s ->
  let objs := (avl_list (ctx_objects s)).*2 in
  match usock (default UBUS_UNIX_SOCKET path) with
  | None =>
      exists s', ubus_reconnect usock UBUS_UNIX_SOCKET path s = Some ((UBUS_STATUS_CONNECTION_FAILED : Z), s') /\
        ctx_sock_fd s' = -1 /\ so_closed (sys s') = (if 0 <=? ctx_sock_fd s then [ctx_sock_fd s] else []) ++ so_closed (sys s)
  | Some c =>
      exists id s1, only_input (reopened c s) s1 /\
      if welcomed (cn_in c) (cn_recv c) (so_alloc (sys s)) (cn_fcntl c) then
        id = hdr_peer (decode_hdr (cn_in c)) /\ so_in (sys s1) = drop (frame_len (cn_in c)) (cn_in c) /\
        ubus_reconnect usock UBUS_UNIX_SOCKET path s =
          (announce_all objs;; mret (UBUS_STATUS_OK : Z)) (forgotten (s1 <| ctx_local_id := id |>))
      else
        exists s', ubus_reconnect usock UBUS_UNIX_SOCKET path s = Some ((UBUS_STATUS_UNKNOWN_ERROR : Z), s') /\ ctx_sock_fd s' = -1 /\
          so_closed (sys s') = cn_fd c :: (if 0 <=? ctx_sock_fd s then [ctx_sock_fd s] else []) ++ so_closed (sys s)
  end.
Proof.
  intros Hch Hlive objs.
  destruct (reconnect_opened s path Hch) as (s' & -> & Hs').
  destruct (usock _) as [c|]; [|by eauto]. unfold after_open.
  destruct (read_hello_spec (reopened c s) (cn_fcntl c)) as (id & s1 & E & Hin & Hok).
  change (so_in (sys (reopened c s))) with (cn_in c) in *. change (so_recv (sys (reopened c s))) with (cn_recv c) in *.
  change (so_alloc (sys (reopened c s))) with (so_alloc (sys s)) in *.
  exists id, s1. split; [done|]. erewrite bind_run by exact E. destruct Hin as (i & l & al & ->). destruct (welcomed _ _ _ _).
  - destruct Hok as [-> Hrest]; [done|]. split; [done|]. split; [done|].
    unfold mbind, stm_bind. rewrite refresh_run; [done|exact Hlive].
  - eexists. split; [reflexivity|]. done.
Qed.
End LibConnThms.

(** ** Witness *)

Lemma reconnect_outcome_witness :
  exists id s1, only_input (reopened demo_connection demo_lib_raw) s1 /\ id = 1234 /\ so_in (sys s1) = [] /\
    ubus_reconnect demo_usock "/var/run/ubus/ubus.sock" None demo_lib_raw =
      (announce_all [];; mret (UBUS_STATUS_OK : Z)) (forgotten (s1 <| ctx_local_id := id |>)).
Proof.
  assert (objects_live demo_lib_raw) as Hl.
  { intros p. change (avl_list (ctx_objects demo_lib_raw)) with (@nil (Z * ptr)). intros []%not_elem_of_nil. }
  pose proof (reconnect_outcome demo_usock "/var/run/ubus/ubus.sock" demo_lib_raw None eq_refl Hl) as H.
  change (demo_usock (default "/var/run/ubus/ubus.sock"%string None)) with (Some demo_connection) in H.
  destruct H as (id & s1 & Hin & H). exists id, s1. split; [exact Hin|].
  assert (welcomed (cn_in demo_connection) (cn_recv demo_connection) (so_alloc (sys demo_lib_raw)) (cn_fcntl demo_connection) = true)
    as Hw by (vm_compute; reflexivity).
  rewrite Hw in H. destruct H as (Hid & Hrest & E). split; [exact Hid|]. split; [exact Hrest|exact E].
Defined.
