(* ===== verification/LibLoops.v ===== *)
(** * The loops of the client library end

    [within R m]: whatever [m] does, it moves the state along the preorder [R].
    Here [R] says that the socket's script gets no longer, that no messages
    appear in the queue from nowhere, and that a broken connection stays broken;
    the loops make progress along it. *)

From stdpp Require Import base gmap strings list fin_maps.
From Stdlib Require Import ZArith Lia.
From S2P Require Import Prelude Wire Cstring Libubox LibuboxModel Ids State LibState LibIo LibCalls LibReq LibReqSpec LibObj LibMain LibDemo.
Local Open Scope Z_scope.
Local Open Scope ubus_scope.

(** ** Code that follows a preorder *)

Definition within {S A} (R : S -> S -> Prop) (m : stm S A) : Prop :=
  forall s a s', m s = Some (a, s') -> R s s'.

Create HintDb within discriminated.

Section Within.
Context {S : Type} (R : S -> S -> Prop) `{!PreOrder R}.

Lemma wi_ret {A} (a : A) : within R (mret (M := stm S) a).
Proof. by intros s b s' [= _ <-]. Qed.

Lemma wi_bind {A B} (m : stm S A) (k : A -> stm S B) :
  within R m -> (forall a, within R (k a)) -> within R (m ≫= k).
Proof.
  intros Hm Hk s b s'. unfold mbind, stm_bind. destruct (m s) as [[a s1]|] eqn:E; [|done].
  intros H. transitivity s1; [by eapply Hm|by eapply Hk].
Qed.

Lemma wi_undefined {A} : within R (undefined (A := A)).
Proof. by intros s a s'. Qed.

Lemma wi_gets {A} (f : S -> A) : within R (gets f).
Proof. by intros s a s' [= _ <-]. Qed.

Lemma wi_modify (f : S -> S) : (forall s, R s (f s)) -> within R (modify f).
Proof. intros H s a s' [= _ <-]. apply H. Qed.

Lemma wi_assert b : within R (assert b).
Proof. destruct b; [apply wi_ret|apply wi_undefined]. Qed.

Lemma wi_when b (m : stm S unit) : within R m -> within R (when b m).
Proof. destruct b; [done|intros _; apply wi_ret]. Qed.

Lemma wi_for_each {A} (l : list A) (body : A -> stm S unit) :
  (forall x, within R (body x)) -> within R (for_each l body).
Proof. intros H. induction l; [apply wi_ret|]. by apply wi_bind. Qed.
End Within.

#[export] Hint Resolve wi_ret wi_undefined wi_gets wi_assert : within.

Ltac solve_within :=
  repeat first
    [ progress intros
    | progress (auto with within nocore)
    | apply wi_bind
    | apply wi_when | apply wi_for_each
    | match goal with |- within _ (match ?x with _ => _ end) => destruct x end ].

Section LibLoops.
Context `{AL : AvlLib} `{PM : ProgMem} `{BL : BlobLib} `{PR : !Program}.
Implicit Types (s : ubus_context).

(** ** Progress *)

(** Answers of the socket still to come; messages to be handled at most *)
Definition answers s : nat := length (so_recv (sys s)).
Definition work s : nat := (length (ctx_pending s) + answers s)%nat.

Record follows s s' : Prop := {
  fo_answers : (answers s' <= answers s)%nat;
  fo_work : (work s' <= work s)%nat;
  fo_eof : ctx_sock_eof s = true -> ctx_sock_eof s' = true;
}.

#[export] Instance follows_preorder : PreOrder follows.
Proof.
  split.
  - by intros s.
  - intros s1 s2 s3 [A1 W1 E1] [A2 W2 E2]. split; [lia|lia|auto].
Qed.

(** What the program's callbacks are assumed not to do: refill the socket,
    queue messages, repair the connection. *)
Class Quiet : Prop := {
  quiet_program : forall c, within follows (program c);
  quiet_subscribe : forall p id, within follows (nested_subscribe p id);
}.

Ltac follow := intros; split; unfold work, answers; simpl; (done || lia).

Lemma wi_lload {T} `{!LHeap T} p : within follows (lload (T := T) p).
Proof. intros s a s'. unfold lload. destruct (lheap s !! p); [|done]. by intros [= _ <-]. Qed.

Lemma wi_lstore {T} `{!LHeap T} p (f : T -> T) : (forall g s, follows s (set_lheap (T := T) g s)) -> within follows (lstore p f).
Proof. intros H s a s'. unfold lstore. destruct (lheap s !! p); [|done]. by intros [= _ <-]. Qed.

Lemma wi_new_local {T} `{!LHeap T} (x : T) : (forall g s, follows s (set_lheap (T := T) g s)) -> within follows (new_local x).
Proof. intros H s a s' [= _ <-]. etransitivity; [|apply H]. follow. Qed.

Lemma wi_end_local {T} `{!LHeap T} p : (forall g s, follows s (set_lheap (T := T) g s)) -> within follows (end_local (T := T) p).
Proof. intros H s a s'. unfold end_local. destruct (lheap s !! p); [|done]. by intros [= _ <-]. Qed.

Lemma wi_sys_alloc : within follows sys_alloc.
Proof. intros s a s'. unfold sys_alloc. destruct (so_alloc (sys s)); intros [= _ <-]; follow. Qed.

Lemma wi_sys_clock : within follows sys_clock.
Proof. intros s a s'. unfold sys_clock. destruct (so_clock (sys s)) as [|? []]; intros [= _ <-]; follow. Qed.

Lemma wi_sys_send iov fd : within follows (sys_send iov fd).
Proof. intros s a s'. unfold sys_send. destruct (so_send (sys s)) as [|[n|e] rest]; intros [= _ <-]; follow. Qed.

Lemma wi_sys_recv want c : within follows (sys_recv want c).
Proof.
  intros s a s'. unfold sys_recv. destruct (so_recv (sys s)) as [|[n fd|e] rest] eqn:E; intros [= _ <-]; [done|..].
  all: split; unfold work, answers; simpl; rewrite ?E; simpl; (done || lia).
Qed.

Lemma wi_modify_follow (f : ubus_context -> ubus_context) : (forall s, follows s (f s)) -> within follows (modify f).
Proof. by apply wi_modify. Qed.

Hint Resolve wi_lload wi_lstore wi_new_local wi_end_local wi_sys_alloc wi_sys_clock wi_sys_send wi_sys_recv : within.
Hint Resolve follows_preorder : within.
Hint Extern 1 (forall _ _, follows _ _) => follow : within.
Hint Extern 1 (within follows (modify _)) => (apply wi_modify_follow; follow) : within.

(** ** Functions without loops over the socket *)

Lemma wi_close_if fd : within follows (close_if fd).
Proof. unfold close_if, sys_close_fd. solve_within. Qed.
Hint Resolve wi_close_if : within.

Lemma wi_writev_loop fuel iov fd len : within follows (writev_loop fuel iov fd len).
Proof. revert iov fd len. induction fuel as [|fuel IH]; intros iov fd len; simpl; solve_within. Qed.
Hint Resolve wi_writev_loop : within.

Lemma wi_send_msg seq msg cmd peer fd : within follows (ubus_send_msg seq msg cmd peer fd).
Proof. unfold ubus_send_msg, writev_retry. solve_within. Qed.
Hint Resolve wi_send_msg : within.

Lemma wi_parse msg len : within follows (lib_parse_msg msg len).
Proof. unfold lib_parse_msg. solve_within. Qed.
Hint Resolve wi_parse : within.

Lemma wi_req_list_empty req : within follows (req_list_empty req).
Proof. unfold req_list_empty, req_linked. solve_within. Qed.
Lemma wi_req_list_del req : within follows (req_list_del req).
Proof. unfold req_list_del, req_linked. solve_within. Qed.
Hint Resolve wi_req_list_empty wi_req_list_del : within.

Lemma wi_start_request req msg cmd peer : within follows (start_request req msg cmd peer).
Proof. unfold start_request. solve_within. Qed.
Lemma wi_clear_request req fd : within follows (clear_request req fd).
Proof. unfold clear_request, req_linked. solve_within. Qed.
Hint Resolve wi_start_request wi_clear_request : within.

Lemma wi_complete_async req : within follows (ubus_complete_request_async req).
Proof. unfold ubus_complete_request_async. solve_within. Qed.
Lemma wi_invoke_async obj method msg req fd : within follows (ubus_invoke_async_fd obj method msg req fd).
Proof. unfold ubus_invoke_async_fd. solve_within. Qed.
Lemma wi_deferred req ret : within follows (ubus_complete_deferred_request req ret).
Proof. unfold ubus_complete_deferred_request. solve_within. Qed.
Hint Resolve wi_complete_async wi_invoke_async wi_deferred : within.

Lemma wi_acl_query : within follows acl_query.
Proof. unfold acl_query. solve_within. Qed.
Lemma wi_acl_recv msg : within follows (acl_recv_cb msg).
Proof. unfold acl_recv_cb, acl_add. solve_within. Qed.
Hint Resolve wi_acl_query wi_acl_recv : within.

Context `{QU : !Quiet}.
Hint Resolve quiet_program quiet_subscribe : within.

Lemma wi_notify_of req : within follows (notify_of req).
Proof. unfold notify_of. solve_within. Qed.
Lemma wi_auto_subscribe id path sub : within follows (auto_subscribe id path sub).
Proof. unfold auto_subscribe. solve_within. Qed.
Hint Resolve wi_notify_of wi_auto_subscribe : within.

Lemma wi_call_data cb req type data : within follows (call_data_handler cb req type data).
Proof.
  unfold call_data_handler, ubus_notify_data_cb, ubus_lookup_cb, ubus_auto_sub_lookup, ubus_auto_sub_lookup_all, ubus_lookup_id_cb,
    ubus_add_object_cb, ubus_remove_object_cb, request_obj.
  solve_within.
Qed.
Lemma wi_call_complete cb req ret : within follows (call_complete_handler cb req ret).
Proof. unfold call_complete_handler, ubus_sync_req_cb, ubus_notify_complete_cb, acl_query_complete_cb. solve_within. Qed.
Hint Resolve wi_call_data wi_call_complete : within.

Lemma wi_req_complete req : within follows (ubus_req_complete_cb req).
Proof. unfold ubus_req_complete_cb. solve_within. Qed.
Hint Resolve wi_req_complete : within.
Lemma wi_set_status req ret : within follows (ubus_set_req_status req ret).
Proof. unfold ubus_set_req_status. solve_within. Qed.
Hint Resolve wi_set_status : within.

Lemma wi_req_data req type data : within follows (req_data_cb req type data).
Proof. unfold req_data_cb. solve_within. Qed.
Hint Resolve wi_req_data : within.
Lemma wi_process_data req : within follows (process_all_pending_data req).
Proof. unfold process_all_pending_data, process_pending_data. solve_within. Qed.
Hint Resolve wi_process_data : within.

Lemma wi_find_request seq peer : within follows (ubus_find_request seq peer).
Proof.
  unfold ubus_find_request. apply wi_bind; [apply _|solve_within|]. intros l. generalize (-1).
  induction l as [|req l IH]; intros id; simpl; solve_within.
Qed.
Hint Resolve wi_find_request : within.

Lemma wi_process_req_msg buf fd : within follows (ubus_process_req_msg buf fd).
Proof.
  unfold ubus_process_req_msg, ubus_process_notify_status, ubus_process_req_status, ubus_process_req_data, ubus_get_status, store_notify.
  solve_within.
Qed.
Hint Resolve wi_process_req_msg : within.

Lemma wi_flush_loop fuel : within follows (flush_loop fuel).
Proof. induction fuel as [|fuel IH]; simpl; solve_within. Qed.
Hint Resolve wi_flush_loop : within.

Lemma wi_method h obj req name msg : within follows (call_method_handler h obj req name msg).
Proof. unfold call_method_handler, ubus_event_cb, ubus_auto_sub_event_handler_cb, ubus_subscriber_cb, acl_subscribe_cb. solve_within. Qed.
Hint Resolve wi_method : within.

Lemma wi_process_obj_msg buf in_msgbuf fd : within follows (ubus_process_obj_msg buf in_msgbuf fd).
Proof.
  assert (forall hdr obj, within follows (ubus_process_invoke hdr obj fd)) as Hinv.
  { intros hdr obj. unfold ubus_process_invoke, invoke_status, invoke_found, attr. solve_within. }
  assert (forall obj, within follows (ubus_process_unsubscribe obj fd)) as Hun.
  { intros obj. unfold ubus_process_unsubscribe, attr. solve_within. }
  assert (forall obj, within follows (ubus_process_notify obj fd)) as Hno.
  { intros obj. unfold ubus_process_notify, attr. solve_within. }
  unfold ubus_process_obj_msg. cbv zeta. apply wi_bind; [apply _|solve_within|]. intros tb.
  destruct (tb UBUS_ATTR_OBJID); [|solve_within]. apply wi_bind; [apply _|solve_within|]. intros obj.
  destruct (_ =? _); [solve_within|]. destruct (_ =? _); [solve_within|]. destruct (_ =? _); solve_within.
Qed.
Hint Resolve wi_process_obj_msg : within.

(** ** Reading takes answers from the socket *)

(** An answer was taken, or the connection is broken. *)
Definition moved s s' : Prop := (answers s' < answers s)%nat \/ ctx_sock_eof s' = true.

Lemma moved_follows s1 s2 s3 : moved s1 s2 -> follows s2 s3 -> moved s1 s3.
Proof. intros [H|H] [A _ E]; [left; lia|right; auto]. Qed.

Lemma follows_moved s1 s2 s3 : follows s1 s2 -> moved s2 s3 -> moved s1 s3.
Proof. intros [A _ _] [H|H]; [left; lia|by right]. Qed.

Lemma sys_recv_moves want c s r s' :
  sys_recv want c s = Some (r, s') -> (answers s' < answers s)%nat \/ r = Bytes [] (-1).
Proof.
  unfold sys_recv, answers. destruct (so_recv (sys s)) as [|[n fd|e] rest]; intros [= <- <-]; [by right|left; simpl; lia..].
Qed.

Lemma recv_loop_moves fuel want wait c fdv got s r bs fd s' :
  Z.of_nat (length got) < want ->
  recv_loop fuel want wait c fdv got s = Some ((r, bs, fd), s') ->
  follows s s' /\ (r = -1 \/ (answers s' < answers s)%nat).
Proof.
  revert wait c fdv got s. induction fuel as [|fuel IH]; intros wait c fdv got s Hg; cbn [recv_loop].
  all: rewrite (proj2 (Z.leb_gt want _)) by done; unfold mbind, stm_bind.
  all: destruct (sys_recv _ c s) as [[a s1]|] eqn:E; [|done].
  all: pose proof (wi_sys_recv _ _ _ _ _ E) as Hf; apply sys_recv_moves in E.
  - destruct a as [[|] ?|[]]; intros [= <- _ _ <-]; auto.
  - assert (forall w c' f g, (answers s1 < answers s)%nat -> recv_loop fuel want w c' f g s1 = Some (r, bs, fd, s') ->
      follows s s' /\ (r = -1 \/ (answers s' < answers s)%nat)) as Hrec.
    { intros w c' f g Hlt H. destruct (Z.leb_spec want (Z.of_nat (length g))) as [Hle|Hgt].
      - destruct fuel; cbn [recv_loop] in H; rewrite (proj2 (Z.leb_le want _)) in H by done; injection H as _ _ _ <-; auto.
      - destruct (IH _ _ _ _ _ Hgt H) as [Hf' Hm]. split; [by transitivity s1|]. right. destruct Hf'. lia. }
    destruct a as [[|b l] f|[]].
    all: try (intros [= <- _ _ <-]; by auto).
    all: destruct E as [E|[=]].
    + by apply Hrec.
    + by apply Hrec.
    + destruct (negb wait); [intros [= <- _ _ <-]; auto|]. by apply Hrec.
Qed.

Lemma wi_recv_retry want wait fd : within follows (recv_retry want wait fd).
Proof.
  unfold recv_retry. intros s [[r bs] f] s'. unfold mbind, stm_bind, gets. intros H.
  destruct (Z.leb_spec want 0) as [Hle|Hgt]; [|by apply recv_loop_moves in H as [? _]; simpl; [|lia]].
  destruct (length (so_recv (sys s))); cbn [recv_loop] in H; rewrite (proj2 (Z.leb_le _ _)) in H by (simpl; lia); by injection H as _ _ _ <-.
Qed.
Hint Resolve wi_recv_retry : within.

Lemma wi_alloc_msg_buf len : within follows (alloc_msg_buf len).
Proof. unfold alloc_msg_buf. solve_within. Qed.
Lemma wi_msgbuf_write off bs : within follows (msgbuf_write off bs).
Proof. unfold msgbuf_write. solve_within. Qed.
Lemma wi_set_eof : within follows set_eof.
Proof. unfold set_eof. solve_within. Qed.
Hint Resolve wi_alloc_msg_buf wi_msgbuf_write wi_set_eof : within.

Lemma get_next_msg_moves fdv s ok fd s' :
  get_next_msg fdv s = Some ((ok, fd), s') ->
  follows s s' /\ moved s s' /\ (ok = true -> (answers s' < answers s)%nat).
Proof.
  unfold get_next_msg. unfold mbind at 1, stm_bind at 1.
  destruct (recv_retry _ _ _ s) as [[[[r bs] f] s1]|] eqn:E; [|done].
  unfold recv_retry in E. unfold mbind at 1, stm_bind at 1, gets at 1 in E. apply recv_loop_moves in E as [Hf Hm]; [|done].
  destruct (Z.leb_spec r 0) as [Hr|Hr].
  - unfold when, set_eof, modify, mbind, stm_bind. destruct (Z.ltb_spec r 0); intros [= <- _ <-].
    + split; [etransitivity; [exact Hf|follow]|]. split; [by right|done].
    + split; [done|]. split; [left; destruct Hm; lia|done].
  - intros H. assert (follows s1 s') as Hf1.
    { match type of H with ?m s1 = _ => enough (within follows m) as Hw by (by apply Hw in H) end. solve_within. }
    split; [by transitivity s1|]. assert (answers s' < answers s)%nat by (destruct Hm, Hf1; lia). split; [by left|done].
Qed.

(** ** Dispatch *)

(** Handling a message may put it into the queue. *)
Lemma process_msg_follows buf in_msgbuf fd s a s' :
  ubus_process_msg buf in_msgbuf fd s = Some (a, s') ->
  (answers s' <= answers s)%nat /\ (ctx_sock_eof s = true -> ctx_sock_eof s' = true) /\
  (work s' <= S (work s))%nat /\ (ctx_stack_depth s = 0 -> follows s s').
Proof.
  assert (forall m : stm ubus_context unit, within follows m -> m s = Some (a, s') ->
    (answers s' <= answers s)%nat /\ (ctx_sock_eof s = true -> ctx_sock_eof s' = true) /\
    (work s' <= S (work s))%nat /\ (ctx_stack_depth s = 0 -> follows s s')) as Hin.
  { intros m Hm E. apply Hm in E. pose proof E as []. split; [done|]. split; [done|]. split; [lia|done]. }
  assert (process_obj_or_queue buf in_msgbuf fd s = Some (a, s') ->
    (answers s' <= answers s)%nat /\ (ctx_sock_eof s = true -> ctx_sock_eof s' = true) /\
    (work s' <= S (work s))%nat /\ (ctx_stack_depth s = 0 -> follows s s')) as Hq.
  { unfold process_obj_or_queue. unfold mbind at 1, stm_bind at 1, gets. destruct (Z.eqb_spec (ctx_stack_depth s) 0) as [Hd|Hd]; simpl.
    - intros E. match type of E with ?m s = _ => apply (Hin m); [|exact E] end. solve_within.
    - unfold ubus_queue_msg. rewrite bind_assoc. unfold mbind at 1, stm_bind at 1.
      destruct (sys_alloc s) as [[ok s1]|] eqn:E1; [|done]. pose proof (wi_sys_alloc _ _ _ E1) as [A1 W1 B1].
      destruct ok; simpl negb; cbv iota; unfold mbind, stm_bind, modify; cbn [mret stm_ret]; intros E2%wi_close_if.
      all: destruct E2 as [A2 W2 B2]; unfold work, answers in *; simpl in *; rewrite ?length_app in W2; simpl in W2.
      all: split; [lia|]; split; [auto|]; split; [lia|done]. }
  unfold ubus_process_msg. unfold mbind at 1, stm_bind at 1, gets at 1.
  destruct (_ || _); [apply Hin; solve_within|]. destruct (_ || _).
  { destruct (ubus_context_is_channel s); [apply Hin; solve_within|exact Hq]. }
  destruct (_ =? _); [exact Hq|]. destruct (_ =? _); apply Hin; solve_within.
Qed.

Lemma pending_loop_follows fuel : within follows (process_pending_loop fuel).
Proof.
  induction fuel as [|fuel IH]; intros s a s'; cbn [process_pending_loop]; unfold mbind, stm_bind, gets.
  - destruct (ctx_pending s); by intros [= _ <-].
  - destruct (ctx_pending s) as [|buf rest] eqn:Ep; [by intros [= _ <-]|]. destruct (Z.eqb_spec (ctx_stack_depth s) 0); simpl; [|by intros [= _ <-]].
    destruct (ubus_process_msg _ _ _ _) as [[? s1]|] eqn:E; [|done]. apply process_msg_follows in E as (_ & _ & _ & Hf).
    intros H%IH. transitivity s1; [|done]. etransitivity; [|by apply Hf]. split; unfold work, answers; simpl; rewrite ?Ep; simpl; (done || lia).
Qed.

Lemma pending_loop_fuel f1 f2 s :
  (work s <= f1)%nat -> (work s <= f2)%nat -> process_pending_loop f1 s = process_pending_loop f2 s.
Proof.
  assert (forall f s, ctx_pending s = [] -> process_pending_loop f s = Some (tt, s)) as Hnil.
  { intros f s0 E. destruct f; cbn [process_pending_loop]; unfold mbind, stm_bind, gets; by rewrite E. }
  revert f2 s. induction f1 as [|f1 IH]; intros f2 s H1 H2.
  - assert (ctx_pending s = []) by (unfold work in H1; destruct (ctx_pending s); [done|simpl in H1; lia]). by rewrite !Hnil.
  - destruct (ctx_pending s) as [|buf rest] eqn:Ep; [by rewrite !Hnil|].
    destruct f2 as [|f2]; [unfold work in H2; rewrite Ep in H2; simpl in H2; lia|].
    cbn [process_pending_loop]. unfold mbind, stm_bind, gets. rewrite Ep. destruct (Z.eqb_spec (ctx_stack_depth s) 0); simpl; [|done].
    destruct (ubus_process_msg _ _ _ _) as [[? s1]|] eqn:E; [|done]. apply process_msg_follows in E as (_ & _ & _ & Hf).
    assert (S (work s1) <= work s)%nat as Hw.
    { destruct Hf as [_ Hw _]; [done|]. unfold work, answers in *. simpl in Hw. rewrite Ep. simpl. lia. }
    apply IH; lia.
Qed.

Lemma wi_process_pending : within follows process_pending_if_idle.
Proof.
  unfold process_pending_if_idle, ubus_process_pending_msg. solve_within. apply pending_loop_follows.
Qed.
Hint Resolve wi_process_pending : within.

(** ** Input *)

Definition keeps_pending s s' : Prop := ctx_pending s' = ctx_pending s.

#[local] Instance keeps_pending_preorder : PreOrder keeps_pending.
Proof. split; [done|]. unfold keeps_pending. intros s1 s2 s3 E1 E2. congruence. Qed.

Hint Resolve keeps_pending_preorder : within.
Hint Extern 1 (within keeps_pending (modify _)) => (apply wi_modify; done) : within.

Lemma kp_recv_loop fuel want wait c fdv got : within keeps_pending (recv_loop fuel want wait c fdv got).
Proof.
  assert (forall want c, within keeps_pending (sys_recv want c)) as Hrecv.
  { intros w c0 s a s'. unfold sys_recv. destruct (so_recv (sys s)) as [|[]]; by intros [= _ <-]. }
  revert wait c fdv got. induction fuel as [|fuel IH]; intros wait c fdv got; cbn [recv_loop]; solve_within.
Qed.
Hint Resolve kp_recv_loop : within.

Lemma kp_get_next_msg fdv : within keeps_pending (get_next_msg fdv).
Proof.
  assert (within keeps_pending sys_alloc) as Halloc.
  { intros s a s'. unfold sys_alloc. destruct (so_alloc (sys s)); by intros [= _ <-]. }
  unfold get_next_msg, recv_retry, alloc_msg_buf, msgbuf_write, set_eof. solve_within.
Qed.

(** A round of the loop that handles a message *)
Lemma get_then_process fdv s fd s1 buf in_msgbuf fd' a s2 :
  get_next_msg fdv s = Some ((true, fd), s1) ->
  ubus_process_msg buf in_msgbuf fd' s1 = Some (a, s2) ->
  follows s s2 /\ (answers s2 < answers s)%nat.
Proof.
  intros E1 E2. pose proof (kp_get_next_msg _ _ _ _ E1) as Hk. apply get_next_msg_moves in E1 as ([A1 _ B1] & _ & Hlt).
  specialize (Hlt eq_refl). apply process_msg_follows in E2 as (A2 & B2 & W2 & _).
  split; [|lia]. split; [lia| |auto]. unfold work in *. rewrite Hk in W2. lia.
Qed.

Lemma handle_loop_follows fuel s fd s' :
  handle_data_loop fuel s = Some (fd, s') -> follows s s' /\ moved s s'.
Proof.
  revert s. induction fuel as [|fuel IH]; intros s; cbn [handle_data_loop]; unfold mbind, stm_bind, gets.
  all: destruct (process_pending_if_idle s) as [[? s1]|] eqn:E1; [apply wi_process_pending in E1|done].
  all: destruct (get_next_msg _ s1) as [[[[|] rfd] s2]|] eqn:E2; [| |done]; cbn [negb]; cbv beta iota.
  all: try (apply get_next_msg_moves in E2 as (F2 & M2 & _); intros [= _ <-]; split; [by transitivity s1|by eapply follows_moved]).
  all: destruct (ctx_msgbuf_data s2) as [d|]; [|done].
  all: destruct (ubus_process_msg _ _ _ s2) as [[? s3]|] eqn:E3; [|done].
  all: destruct (get_then_process _ _ _ _ _ _ _ _ _ E2 E3) as [F3 M3].
  all: assert (follows s s3 /\ moved s s3) as [F M]
    by (split; [by transitivity s1|eapply follows_moved; [exact E1|by left]]).
  - by intros [= _ <-].
  - destruct (_ || _); [by intros [= _ <-]|]. intros [F4 M4]%IH. split; [by transitivity s3|by eapply moved_follows].
Qed.

Lemma handle_loop_fuel f1 f2 s :
  (answers s <= f1)%nat -> (answers s <= f2)%nat -> handle_data_loop f1 s = handle_data_loop f2 s.
Proof.
  revert f2 s. induction f1 as [|f1 IH]; intros f2 s H1 H2; destruct f2 as [|f2]; [done|..];
    cbn [handle_data_loop]; unfold mbind, stm_bind, gets.
  all: destruct (process_pending_if_idle s) as [[? s1]|] eqn:E1; [apply wi_process_pending in E1 as [A1 _ _]|done].
  all: destruct (get_next_msg _ s1) as [[[[|] rfd] s2]|] eqn:E2; [|done|done]; cbn [negb]; cbv beta iota.
  1,2: apply get_next_msg_moves in E2 as (_ & _ & Hlt); specialize (Hlt eq_refl); lia.
  destruct (ctx_msgbuf_data s2) as [d|]; [|done].
  destruct (ubus_process_msg _ _ _ s2) as [[? s3]|] eqn:E3; [|done].
  destruct (get_then_process _ _ _ _ _ _ _ _ _ E2 E3) as [F3 M3].
  destruct (_ || _); [done|]. apply IH; lia.
Qed.

Lemma wi_handle_data : within follows ubus_handle_data.
Proof.
  assert (forall fuel, within follows (handle_data_loop fuel)) as Hl by (by intros fuel s a s' [? _]%handle_loop_follows).
  unfold ubus_handle_data, ubus_flush_requests, call_connection_lost, ubus_default_connection_lost, ubus_auto_disconnect_cb, auto_timer_set, auto_conn_set, auto_conn_of. solve_within.
Qed.
Hint Resolve wi_handle_data : within.

(** Every round of waiting takes something from the socket. *)
Lemma poll_data_moves s a s' : ubus_poll_data s = Some (a, s') -> follows s s' /\ moved s s'.
Proof.
  unfold ubus_poll_data, ubus_handle_data. unfold mbind at 1, stm_bind at 1, modify. unfold mbind at 1, stm_bind at 1, gets at 1.
  unfold mbind at 1, stm_bind at 1.
  destruct (handle_data_loop _ _) as [[fd s1]|] eqn:E1; [|done].
  apply handle_loop_follows in E1 as [F1 M1]. intros H.
  assert (follows s1 s') as F2.
  { match type of H with ?m s1 = _ => enough (within follows m) as Hw by (by apply Hw in H) end.
    unfold ubus_flush_requests, call_connection_lost, ubus_default_connection_lost, ubus_auto_disconnect_cb, auto_timer_set, auto_conn_set, auto_conn_of. solve_within. }
  assert (follows s (s <| ctx_cancel_poll := false |>)) as F0 by follow.
  split; [by transitivity s1; [transitivity (s <| ctx_cancel_poll := false |>)|]|].
  eapply moved_follows; [|exact F2]. by eapply follows_moved.
Qed.

(** ** Waiting *)

Lemma complete_loop_fuel f1 f2 req time_end s :
  (answers s <= f1)%nat -> (answers s <= f2)%nat -> complete_loop f1 req time_end s = complete_loop f2 req time_end s.
Proof.
  pose (check_time := match time_end with None => mret false | Some t => now ← sys_clock; mret (t - now <=? 0) end : stm ubus_context bool).
  assert (within follows check_time) as Hc by (unfold check_time; solve_within).
  revert f2 s. induction f1 as [|f1 IH]; intros f2 s H1 H2; destruct f2 as [|f2]; [done|..];
    cbn [complete_loop]; fold check_time; clearbody check_time; unfold mbind, stm_bind;
    (destruct (lload req s) as [[r s1]|] eqn:E1; [apply wi_lload in E1 as [A1 _ _]|done]).
  all: destruct (rq_status_msg r); [done|].
  all: destruct (check_time s1) as [[[|] s2]|] eqn:E2; [done| |done]; apply Hc in E2 as [A2 _ _].
  all: destruct (ubus_poll_data s2) as [[? s3]|] eqn:E3; [|done]; apply poll_data_moves in E3 as [[A3 _ _] M3].
  all: unfold gets; destruct (ctx_sock_eof s3) eqn:Ee; [done|].
  all: destruct M3 as [M3|M3]; [|congruence].
  - lia.
  - lia.
  - apply IH; lia.
Qed.

Lemma wi_complete_request req timeout : within follows (ubus_complete_request req timeout).
Proof.
  assert (forall fuel time_end, within follows (complete_loop fuel req time_end)) as Hl.
  { induction fuel as [|fuel IH]; intros time_end; cbn [complete_loop]; unfold ubus_poll_data; solve_within. }
  assert (within follows ubus_process_pending_msg) as Hp.
  { unfold ubus_process_pending_msg. solve_within. apply pending_loop_follows. }
  unfold ubus_complete_request. solve_within.
Qed.
Hint Resolve wi_complete_request : within.

(** The library's own subscription, called from one of its callbacks, is as
    quiet as the program it is given. *)
Lemma wi_lib_subscribe obj id : within follows (lib_subscribe obj id).
Proof. unfold lib_subscribe, subscribe_request, not_on_channel, local_request, ubus_start_request. solve_within. Qed.

(** ** Flushing the requests of a broken connection *)

(** Requests that wait, and a query of the access rules that is still to start *)
Definition flush_work s : nat := (length (ctx_requests s) + if acl_query_deferred s then 1 else 0)%nat.

(** No request is started. *)
Definition calm s s' : Prop := (flush_work s' <= flush_work s)%nat.

#[local] Instance calm_preorder : PreOrder calm.
Proof. unfold calm. split; [intros s; lia|]. intros s1 s2 s3 ??. lia. Qed.

Definition flush_part s := (ctx_requests s, acl_query_deferred s).

Lemma calm_pres {A} (m : stm ubus_context A) : preserves flush_part m -> within calm m.
Proof. intros Hm s a s' E. apply Hm in E. injection E as E1 E2. unfold calm, flush_work. by rewrite E1, E2. Qed.

Lemma fp_lload {T} `{!LHeap T} p : preserves flush_part (lload (T := T) p).
Proof. intros s a s'. unfold lload. destruct (lheap s !! p); [|done]. by intros [= _ <-]. Qed.

Lemma fp_lstore p (f : ubus_request -> ubus_request) : preserves flush_part (lstore p f).
Proof. intros s a s'. unfold lstore. destruct (lheap s !! p); [|done]. by intros [= _ <-]. Qed.

Lemma fp_sys_send iov fd : preserves flush_part (sys_send iov fd).
Proof. intros s a s'. unfold sys_send. destruct (so_send (sys s)) as [|[]]; by intros [= _ <-]. Qed.
Hint Resolve fp_lload fp_lstore fp_sys_send : pres.

Lemma fp_writev_loop fuel iov fd len : preserves flush_part (writev_loop fuel iov fd len).
Proof. revert iov fd len. induction fuel as [|fuel IH]; intros iov fd len; simpl; solve_pres. Qed.
Hint Resolve fp_writev_loop : pres.

Lemma fp_close_if fd : preserves flush_part (close_if fd).
Proof. unfold close_if, sys_close_fd. solve_pres. Qed.
Hint Resolve fp_close_if : pres.

Lemma fp_send_msg seq msg cmd peer fd : preserves flush_part (ubus_send_msg seq msg cmd peer fd).
Proof. unfold ubus_send_msg, writev_retry. solve_pres. Qed.
Hint Resolve fp_send_msg : pres.

Lemma fp_invoke_async obj method msg req fd : preserves flush_part (ubus_invoke_async_fd obj method msg req fd).
Proof. unfold ubus_invoke_async_fd, clear_request, req_linked, start_request. solve_pres. Qed.
Hint Resolve fp_invoke_async : pres.

(** Starting a query adds one request. *)
Definition adds_one s s' : Prop := (flush_work s' <= S (flush_work s))%nat.

Lemma adds_one_bind {A B} (m : stm ubus_context A) (k : A -> stm ubus_context B) :
  preserves flush_part m -> (forall a, within adds_one (k a)) -> within adds_one (m ≫= k).
Proof.
  intros Hm%calm_pres Hk s b s'. unfold mbind, stm_bind. destruct (m s) as [[a s1]|] eqn:E; [|done].
  intros H%Hk. apply Hm in E. unfold calm, adds_one in *. lia.
Qed.

Lemma acl_query_adds s a s' : acl_query_active s = false -> acl_query s = Some (a, s') -> adds_one s s'.
Proof.
  intros Hact. unfold acl_query. unfold mbind at 1, stm_bind at 1, gets at 1. rewrite Hact.
  match goal with |- ?m s = _ -> _ => enough (within adds_one m) as H by apply H end.
  apply adds_one_bind; [solve_pres|]. intros _. apply adds_one_bind; [solve_pres|]. intros req.
  do 3 (apply adds_one_bind; [solve_pres|]; intros _). unfold ubus_complete_request_async, req_list_empty, req_linked.
  apply adds_one_bind; [solve_pres|]. intros []; simpl negb; cbv iota.
  - intros s1 b s1' [= _ <-]. unfold adds_one, flush_work. simpl. lia.
  - intros s1 b s1' [= _ <-]. unfold adds_one. lia.
Qed.

Lemma calm_acl_complete : within calm acl_query_complete_cb.
Proof.
  intros s a s'. unfold acl_query_complete_cb, mbind, stm_bind, modify, gets. simpl. destruct (acl_query_deferred s) eqn:Hd; simpl.
  - intros H%acl_query_adds; [|done]. unfold calm, adds_one, flush_work in *. simpl in H. rewrite Hd. lia.
  - intros [= _ <-]. unfold calm, flush_work. simpl. rewrite Hd. lia.
Qed.

(** A callback of the program that starts no request *)
Definition calm_program : Prop := forall c, within calm (program c).

Lemma calm_complete cb req ret : calm_program -> within calm (call_complete_handler cb req ret).
Proof.
  intros Hp. destruct cb; simpl.
  - apply wi_bind; [apply _|apply Hp|]. intros _. apply wi_ret, _.
  - apply calm_pres. unfold ubus_sync_req_cb. solve_pres.
  - unfold ubus_notify_complete_cb, notify_of. apply wi_bind; [apply _|apply calm_pres; solve_pres|]. intros n.
    destruct (nq_complete_cb n); [|apply wi_ret, _]. apply wi_bind; [apply _|apply Hp|]. intros _. apply wi_ret, _.
  - apply calm_acl_complete.
Qed.

(** Every round ends a request. *)
Lemma flush_round req rest ret s a s' :
  calm_program -> ctx_requests s = req :: rest -> ubus_set_req_status req ret s = Some (a, s') -> (flush_work s' < flush_work s)%nat.
Proof.
  intros Hp Hl E.
  assert (req ∈ ctx_requests s) as Hin by (rewrite Hl; by left).
  assert (exists r, c_reqs s !! req = Some r) as [r Hr].
  { revert E. unfold ubus_set_req_status, req_list_empty. unfold mbind at 1, stm_bind at 1. unfold mbind at 1, stm_bind at 1, lload at 1.
    simpl. destruct (c_reqs s !! req); [eauto|done]. }
  assert (forall r', (flush_work (finished req r' s) < flush_work s)%nat) as Hlt.
  { intros r'. unfold flush_work, finished. simpl. rewrite Hl. unfold list_del. rewrite filter_cons_False by tauto.
    pose proof (length_filter (fun y => y <> req) rest). simpl. lia. }
  rewrite (set_status_run s req r ret Hin Hr) in E. destruct (rq_blocked r); [by injection E as _ <-|].
  destruct (rq_complete_cb r) as [cb|]; [|by injection E as _ <-]. apply calm_complete in E; [|done].
  eapply Nat.le_lt_trans; [exact E|apply Hlt].
Qed.

Lemma flush_loop_fuel f1 f2 s :
  calm_program -> (flush_work s <= f1)%nat -> (flush_work s <= f2)%nat -> flush_loop f1 s = flush_loop f2 s.
Proof.
  intros Hp. revert f2 s. induction f1 as [|f1 IH]; intros f2 s H1 H2.
  - assert (ctx_requests s = []) as E by (unfold flush_work in H1; destruct (ctx_requests s); [done|simpl in H1; lia]).
    destruct f2; cbn [flush_loop]; unfold mbind, stm_bind, gets; by rewrite E.
  - destruct (ctx_requests s) as [|req rest] eqn:E.
    { destruct f2; cbn [flush_loop]; unfold mbind, stm_bind, gets; by rewrite E. }
    destruct f2 as [|f2]; [unfold flush_work in H2; rewrite E in H2; simpl in H2; lia|].
    cbn [flush_loop]. unfold mbind, stm_bind, gets. rewrite E.
    destruct (ubus_set_req_status req _ s) as [[a s1]|] eqn:E1; [|done]. apply (flush_round req rest) in E1; [|done..].
    apply IH; lia.
Qed.

End LibLoops.

(** ** The memory of the program *)

(** The library leaves the program's memory alone: what its functions do to it,
    they do through callbacks.  So they follow any preorder on it that the
    callbacks follow. *)
Section ProgMemory.
Context `{AL : AvlLib} `{PM : ProgMem} `{BL : BlobLib} `{PR : !Program}.
Context (Q : prog_mem -> prog_mem -> Prop) `{!PreOrder Q}.

Definition mem_by (s s' : ubus_context) : Prop := Q (ctx_mem s) (ctx_mem s').

#[local] Instance mem_by_preorder : PreOrder mem_by.
Proof. unfold mem_by. split; [intros s; reflexivity|]. intros s1 s2 s3 H1 H2. by transitivity (ctx_mem s2). Qed.

Lemma mb_pres {A} (m : stm ubus_context A) : preserves ctx_mem m -> within mem_by m.
Proof. intros Hm s a s' E. unfold mem_by. rewrite (Hm _ _ _ E). reflexivity. Qed.

Lemma mb_lload {T} `{!LHeap T} p : within mem_by (lload (T := T) p).
Proof. apply mb_pres. intros s a s'. unfold lload. destruct (lheap s !! p); [|done]. by intros [= _ <-]. Qed.
Lemma mb_lstore {T} `{!LHeap T} p (f : T -> T) : (forall g s, ctx_mem (set_lheap (T := T) g s) = ctx_mem s) -> within mem_by (lstore p f).
Proof. intros H. apply mb_pres. intros s a s'. unfold lstore. destruct (lheap s !! p); [|done]. by intros [= _ <-]. Qed.
Lemma mb_new_local {T} `{!LHeap T} (x : T) : (forall g s, ctx_mem (set_lheap (T := T) g s) = ctx_mem s) -> within mem_by (new_local x).
Proof. intros H. apply mb_pres. intros s a s' [= _ <-]. by rewrite H. Qed.
Lemma mb_end_local {T} `{!LHeap T} p : (forall g s, ctx_mem (set_lheap (T := T) g s) = ctx_mem s) -> within mem_by (end_local (T := T) p).
Proof. intros H. apply mb_pres. intros s a s'. unfold end_local. destruct (lheap s !! p); [|done]. by intros [= _ <-]. Qed.
Lemma mb_sys_alloc : within mem_by sys_alloc.
Proof. apply mb_pres. intros s a s'. unfold sys_alloc. destruct (so_alloc (sys s)); by intros [= _ <-]. Qed.
Lemma mb_sys_clock : within mem_by sys_clock.
Proof. apply mb_pres. intros s a s'. unfold sys_clock. destruct (so_clock (sys s)) as [|? []]; by intros [= _ <-]. Qed.
Lemma mb_sys_send iov fd : within mem_by (sys_send iov fd).
Proof. apply mb_pres. intros s a s'. unfold sys_send. destruct (so_send (sys s)) as [|[]]; by intros [= _ <-]. Qed.
Lemma mb_sys_recv want c : within mem_by (sys_recv want c).
Proof. apply mb_pres. intros s a s'. unfold sys_recv. destruct (so_recv (sys s)) as [|[]]; by intros [= _ <-]. Qed.
Lemma mb_modify (f : ubus_context -> ubus_context) : (forall s, ctx_mem (f s) = ctx_mem s) -> within mem_by (modify f).
Proof. intros H. apply mb_pres, pres_modify, H. Qed.

Hint Resolve mb_lload mb_lstore mb_new_local mb_end_local mb_sys_alloc mb_sys_clock mb_sys_send mb_sys_recv : within.
Hint Resolve mem_by_preorder : within.
Hint Extern 1 (forall _ _, ctx_mem _ = ctx_mem _) => reflexivity : within.
Hint Extern 1 (within mem_by (modify _)) => (apply mb_modify; reflexivity) : within.

Context (Hprog : forall c, within mem_by (program c)) (Hsub : forall p id, within mem_by (nested_subscribe p id)).
Hint Resolve Hprog Hsub : within.

Lemma mb_writev_loop fuel iov fd len : within mem_by (writev_loop fuel iov fd len).
Proof. revert iov fd len. induction fuel as [|fuel IH]; intros iov fd len; simpl; unfold close_if, sys_close_fd; solve_within. Qed.
Hint Resolve mb_writev_loop : within.
Lemma mb_close_if fd : within mem_by (close_if fd).
Proof. unfold close_if, sys_close_fd. solve_within. Qed.
Hint Resolve mb_close_if : within.
Lemma mb_send_msg seq msg cmd peer fd : within mem_by (ubus_send_msg seq msg cmd peer fd).
Proof. unfold ubus_send_msg, writev_retry. solve_within. Qed.
Hint Resolve mb_send_msg : within.
Lemma mb_parse msg len : within mem_by (lib_parse_msg msg len).
Proof. unfold lib_parse_msg. solve_within. Qed.
Lemma mb_start_request req msg cmd peer : within mem_by (start_request req msg cmd peer).
Proof. unfold start_request. solve_within. Qed.
Lemma mb_clear_request req fd : within mem_by (clear_request req fd).
Proof. unfold clear_request, req_linked. solve_within. Qed.
Lemma mb_complete_async req : within mem_by (ubus_complete_request_async req).
Proof. unfold ubus_complete_request_async, req_list_empty, req_linked. solve_within. Qed.
Hint Resolve mb_parse mb_start_request mb_clear_request mb_complete_async : within.
Lemma mb_invoke_async obj method msg req fd : within mem_by (ubus_invoke_async_fd obj method msg req fd).
Proof. unfold ubus_invoke_async_fd. solve_within. Qed.
Hint Resolve mb_invoke_async : within.
Lemma mb_acl_query : within mem_by acl_query.
Proof. unfold acl_query. solve_within. Qed.
Hint Resolve mb_acl_query : within.

Lemma mb_auto_subscribe id path sub : within mem_by (auto_subscribe id path sub).
Proof. unfold auto_subscribe. solve_within. Qed.
Hint Resolve mb_auto_subscribe : within.
Lemma mb_call_data cb req type data : within mem_by (call_data_handler cb req type data).
Proof.
  unfold call_data_handler, ubus_notify_data_cb, ubus_lookup_cb, ubus_auto_sub_lookup, ubus_auto_sub_lookup_all, ubus_lookup_id_cb,
    ubus_add_object_cb, ubus_remove_object_cb, request_obj, acl_recv_cb, acl_add, notify_of.
  solve_within.
Qed.
Lemma mb_call_complete cb req ret : within mem_by (call_complete_handler cb req ret).
Proof. unfold call_complete_handler, ubus_sync_req_cb, ubus_notify_complete_cb, notify_of, acl_query_complete_cb. solve_within. Qed.
Hint Resolve mb_call_data mb_call_complete : within.
Lemma mb_req_complete req : within mem_by (ubus_req_complete_cb req).
Proof. unfold ubus_req_complete_cb. solve_within. Qed.
Hint Resolve mb_req_complete : within.
Lemma mb_set_status req ret : within mem_by (ubus_set_req_status req ret).
Proof. unfold ubus_set_req_status, req_list_empty, req_list_del, req_linked. solve_within. Qed.
Hint Resolve mb_set_status : within.
Lemma mb_req_data req type data : within mem_by (req_data_cb req type data).
Proof. unfold req_data_cb. solve_within. Qed.
Hint Resolve mb_req_data : within.
Lemma mb_process_data req : within mem_by (process_all_pending_data req).
Proof. unfold process_all_pending_data, process_pending_data. solve_within. Qed.
Hint Resolve mb_process_data : within.
Lemma mb_find_request seq peer : within mem_by (ubus_find_request seq peer).
Proof.
  unfold ubus_find_request. apply wi_bind; [apply _|solve_within|]. intros l. generalize (-1).
  induction l as [|req l IH]; intros id; simpl; solve_within.
Qed.
Hint Resolve mb_find_request : within.
Lemma mb_process_req_msg buf fd : within mem_by (ubus_process_req_msg buf fd).
Proof.
  unfold ubus_process_req_msg, ubus_process_notify_status, ubus_process_req_status, ubus_process_req_data, ubus_get_status, store_notify, notify_of.
  solve_within.
Qed.
Hint Resolve mb_process_req_msg : within.
Lemma mb_flush_loop fuel : within mem_by (flush_loop fuel).
Proof. induction fuel as [|fuel IH]; simpl; solve_within. Qed.
Hint Resolve mb_flush_loop : within.
Lemma mb_method h obj req name msg : within mem_by (call_method_handler h obj req name msg).
Proof. unfold call_method_handler, ubus_event_cb, ubus_auto_sub_event_handler_cb, ubus_subscriber_cb, acl_subscribe_cb. solve_within. Qed.
Hint Resolve mb_method : within.

Lemma mb_process_obj_msg buf in_msgbuf fd : within mem_by (ubus_process_obj_msg buf in_msgbuf fd).
Proof.
  assert (forall hdr obj, within mem_by (ubus_process_invoke hdr obj fd)) as Hinv.
  { intros hdr obj. unfold ubus_process_invoke, invoke_status, invoke_found, attr, ubus_complete_deferred_request. solve_within. }
  assert (forall obj, within mem_by (ubus_process_unsubscribe obj fd)) as Hun.
  { intros obj. unfold ubus_process_unsubscribe, attr. solve_within. }
  assert (forall obj, within mem_by (ubus_process_notify obj fd)) as Hno.
  { intros obj. unfold ubus_process_notify, attr. solve_within. }
  unfold ubus_process_obj_msg. cbv zeta. apply wi_bind; [apply _|solve_within|]. intros tb.
  destruct (tb UBUS_ATTR_OBJID); [|solve_within]. apply wi_bind; [apply _|solve_within|]. intros obj.
  destruct (_ =? _); [solve_within|]. destruct (_ =? _); [solve_within|]. destruct (_ =? _); solve_within.
Qed.
Hint Resolve mb_process_obj_msg : within.
Lemma mb_process_msg buf in_msgbuf fd : within mem_by (ubus_process_msg buf in_msgbuf fd).
Proof. unfold ubus_process_msg, process_obj_or_queue, ubus_queue_msg. solve_within. Qed.
Hint Resolve mb_process_msg : within.
Lemma mb_pending_loop fuel : within mem_by (process_pending_loop fuel).
Proof. induction fuel as [|fuel IH]; cbn [process_pending_loop]; solve_within. Qed.
Hint Resolve mb_pending_loop : within.
Lemma mb_process_pending : within mem_by ubus_process_pending_msg.
Proof. unfold ubus_process_pending_msg. solve_within. Qed.
Hint Resolve mb_process_pending : within.
Lemma mb_get_next_msg fd : within mem_by (get_next_msg fd).
Proof.
  assert (forall fuel want wait c fdv got, within mem_by (recv_loop fuel want wait c fdv got)).
  { induction fuel as [|fuel IH]; intros want wait c fdv got; cbn [recv_loop]; solve_within. }
  unfold get_next_msg, recv_retry, alloc_msg_buf, msgbuf_write, set_eof. solve_within.
Qed.
Hint Resolve mb_get_next_msg : within.
Lemma mb_handle_data : within mem_by ubus_handle_data.
Proof.
  assert (forall fuel, within mem_by (handle_data_loop fuel)).
  { induction fuel as [|fuel IH]; cbn [handle_data_loop]; unfold process_pending_if_idle; solve_within. }
  unfold ubus_handle_data, ubus_flush_requests, call_connection_lost, ubus_default_connection_lost, ubus_auto_disconnect_cb, auto_timer_set,
    auto_conn_set, auto_conn_of. solve_within.
Qed.
Hint Resolve mb_handle_data : within.
Lemma mb_complete_request req timeout : within mem_by (ubus_complete_request req timeout).
Proof.
  assert (forall fuel time_end, within mem_by (complete_loop fuel req time_end)).
  { induction fuel as [|fuel IH]; intros time_end; cbn [complete_loop]; unfold ubus_poll_data; solve_within. }
  unfold ubus_complete_request. solve_within.
Qed.
Hint Resolve mb_complete_request : within.
Lemma mb_local_request init msg cmd peer f : within mem_by (local_request init msg cmd peer f).
Proof. unfold local_request, ubus_start_request. solve_within. Qed.
Hint Resolve mb_local_request : within.
Lemma mb_lookup path cb priv : within mem_by (ubus_lookup path cb priv).
Proof. unfold ubus_lookup, lookup_with, not_on_channel. solve_within. Qed.
Lemma mb_lookup_id path id : within mem_by (ubus_lookup_id path id).
Proof. unfold ubus_lookup_id, lookup_with, not_on_channel. solve_within. Qed.
Lemma mb_invoke obj method msg cb priv timeout : within mem_by (ubus_invoke obj method msg cb priv timeout).
Proof. unfold ubus_invoke, ubus_invoke_fd. solve_within. Qed.
Hint Resolve mb_invoke : within.
Lemma mb_register_event ev pattern : within mem_by (ubus_register_event_handler ev pattern).
Proof. unfold ubus_register_event_handler, ubus_add_object, ubus_invoke, ubus_invoke_fd, not_on_channel. solve_within. Qed.
End ProgMemory.

(** ** The library called from its own callbacks *)

(** A program whose callbacks reach the library [depth] levels deep: the
    automatic subscription of level [n + 1] is the library itself, over level
    [n]. *)
Fixpoint lib_at `{AL : AvlLib} `{PM : ProgMem} `{BL : BlobLib} (P : Program) (depth : nat) : Program :=
  match depth with
  | O => P
  | S n => {| program := program (Program := P);
              nested_subscribe := lib_subscribe (PR := lib_at P n);
              flush_restarts := flush_restarts (Program := P) |}
  end.

#[export] Instance lib_at_quiet `{AL : AvlLib} `{PM : ProgMem} `{BL : BlobLib} (P : Program) (depth : nat) :
  Quiet (PR := P) -> Quiet (PR := lib_at P depth).
Proof.
  intros HP. induction depth as [|n IH]; [done|]. split; simpl.
  - apply quiet_program.
  - intros p id. apply wi_lib_subscribe.
Qed.

(** ** Witness *)

#[export] Instance demo_quiet : Quiet (PR := demo_program).
Proof. split; intros; apply wi_ret; apply follows_preorder. Qed.

