(* ===== verification/LibSafe.v ===== *)
(** * The list of waiting requests never dangles

    A waiting request is linked into [ctx->requests]; many of them are local
    variables of the library's functions.  [reqs_ok]: every entry of the list is
    a live, initialised request that has not been answered.  [safe own] relates
    the states before and after library code: [reqs_ok] is kept, and nothing is
    added to the list but requests of the program ([own]), the one of the access
    rules, and locals of functions called meanwhile.  So when a function returns,
    its own local request is not in the list any more. *)

From stdpp Require Import base gmap strings list fin_maps.
From Stdlib Require Import ZArith Lia.
From S2P Require Import Prelude Wire Cstring Libubox LibuboxModel Ids State LibState LibIo LibCalls LibReq LibReqSpec LibObj LibMain LibConn LibDemo LibAclThms LibLoops.
Local Open Scope Z_scope.
Local Open Scope ubus_scope.

Lemma bind_inv {S A B} (m : stm S A) (k : A -> stm S B) s b s' :
  (m ≫= k) s = Some (b, s') -> exists a s1, m s = Some (a, s1) /\ k a s1 = Some (b, s').
Proof. unfold mbind, stm_bind. destruct (m s) as [[a s1]|]; [eauto|done]. Qed.

Lemma assert_inv {S} b (s : S) a s' : assert b s = Some (a, s') -> b = true /\ s' = s.
Proof. destruct b; [|done]. by intros [= _ <-]. Qed.

Section LibSafe.
Context `{AL : AvlLib} `{PM : ProgMem} `{BL : BlobLib} `{PR : !Program}.
Implicit Types (s : ubus_context) (p : ptr).

(** The requests of the program *)
Context (own : ptr -> Prop).

Record reqs_ok s : Prop := {
  rk_nodup : NoDup (ctx_requests s);
  rk_waiting : forall p, p ∈ ctx_requests s ->
    exists r, c_reqs s !! p = Some r /\ rq_init r = true /\ rq_status_msg r = false;
  rk_fresh : forall p r, c_reqs s !! p = Some r -> (p < c_brk s)%positive;
  rk_own : forall p, own p \/ p = acl_req s -> (p < c_brk s)%positive;
}.

Definition may_wait s p : Prop := own p \/ p = acl_req s \/ (c_brk s <= p)%positive.

Record safe_step s s' : Prop := {
  sf_ok : reqs_ok s';
  sf_brk : (c_brk s <= c_brk s')%positive;
  sf_acl : acl_req s' = acl_req s;
  sf_new : forall p, p ∈ ctx_requests s' -> p ∈ ctx_requests s \/ may_wait s p;
}.

Definition safe s s' : Prop := reqs_ok s -> safe_step s s'.

Lemma safe_step_trans s1 s2 s3 : safe_step s1 s2 -> safe s2 s3 -> safe_step s1 s3.
Proof.
  intros H12 [K3 B3 A3 N3]; [apply H12|]. destruct H12 as [K2 B2 A2 N2]. split; [done|lia|congruence|].
  intros p Hp%N3. unfold may_wait in *. rewrite A2 in Hp.
  destruct Hp as [Hp|[Hp|[Hp|Hp]]]; [auto|auto|auto|]. right. right. right. lia.
Qed.

#[export] Instance safe_preorder : PreOrder safe.
Proof.
  split.
  - intros s H. split; [done|lia|done|auto].
  - intros s1 s2 s3 H12 H23 H1. eapply safe_step_trans; [by apply H12|done].
Qed.

(** What the list and the requests are made of is untouched. *)
Lemma same_safe s s' :
  ctx_requests s' = ctx_requests s -> c_reqs s' = c_reqs s -> c_brk s' = c_brk s -> acl_req s' = acl_req s -> safe s s'.
Proof.
  intros H1 H2 H3 H4 [K1 K2 K3 K4]. split; [split|lia|done|]; rewrite ?H1, ?H2, ?H3, ?H4; auto.
Qed.

(** ** Primitives *)

Ltac same := intros; apply same_safe; reflexivity.

Lemma sa_lload {T} `{!LHeap T} p : within safe (lload (T := T) p).
Proof. intros s a s'. unfold lload. destruct (lheap s !! p); [|done]. by intros [= _ <-]. Qed.

(** Heaps of other structures *)
Class OtherHeap (T : Type) `{!LHeap T} := other_heap : forall g s, safe s (set_lheap (T := T) g s).
#[export] Instance other_obj : OtherHeap lib_object. Proof. intros g s. same. Qed.
#[export] Instance other_type : OtherHeap lib_object_type. Proof. intros g s. same. Qed.
#[export] Instance other_rdata : OtherHeap ubus_request_data. Proof. intros g s. same. Qed.
#[export] Instance other_pdata : OtherHeap ubus_pending_data. Proof. intros g s. same. Qed.
#[export] Instance other_id : OtherHeap Z. Proof. intros g s. same. Qed.

Lemma brk_safe s : safe s (s <| c_brk ::= Pos.succ |>).
Proof.
  intros [K1 K2 K3 K4]. split; [split; [done|done| |]|simpl; lia|done|auto].
  - intros p r Hp%K3. simpl. lia.
  - intros p Hp%K4. simpl. lia.
Qed.

Lemma sa_lstore_other {T} `{!LHeap T, !OtherHeap T} p (f : T -> T) : within safe (lstore p f).
Proof. intros s a s'. unfold lstore. destruct (lheap s !! p); [|done]. intros [= _ <-]. apply other_heap. Qed.
Lemma sa_new_other {T} `{!LHeap T, !OtherHeap T} (x : T) : within safe (new_local x).
Proof. intros s a s' [= _ <-]. transitivity (s <| c_brk ::= Pos.succ |>); [apply brk_safe|apply other_heap]. Qed.
Lemma sa_end_other {T} `{!LHeap T, !OtherHeap T} p : within safe (end_local (T := T) p).
Proof. intros s a s'. unfold end_local. destruct (lheap s !! p); [|done]. intros [= _ <-]. apply other_heap. Qed.

(** Storing to a request without answering it *)
Definition same_phase (r r' : ubus_request) : Prop :=
  (rq_init r = true -> rq_init r' = true) /\ (rq_status_msg r = false -> rq_status_msg r' = false).

(** A request is replaced: it does not wait, or its phase stays. *)
Lemma insert_safe s p r r' :
  c_reqs s !! p = Some r -> p ∉ ctx_requests s \/ same_phase r r' -> safe s (s <| c_reqs ::= insert p r' |>).
Proof.
  intros Hr Hp [K1 K2 K3 K4]. split; [split; [done| | |done]|simpl; lia|done|auto]; simpl.
  - intros q Hq. destruct (decide (q = p)) as [->|Hne]; [|rewrite lookup_insert_ne by done; by apply K2].
    destruct Hp as [Hp|[Hi Hs]]; [done|]. destruct (K2 p Hq) as (r0 & Hr0 & H1 & H2). simplify_eq.
    rewrite lookup_insert_eq. exists r'. auto.
  - intros q x. destruct (decide (q = p)) as [->|Hne]; [intros _; by eapply K3|rewrite lookup_insert_ne by done; apply K3].
Qed.

Lemma sa_lstore_req p (f : ubus_request -> ubus_request) : (forall r, same_phase r (f r)) -> within safe (lstore p f).
Proof.
  intros Hf s a s'. unfold lstore. simpl lheap. destruct (c_reqs s !! p) as [r|] eqn:E; [|done]. intros [= _ <-].
  eapply insert_safe; eauto.
Qed.

Lemma sa_lstore_idle p (f : ubus_request -> ubus_request) s a s' :
  p ∉ ctx_requests s -> lstore p f s = Some (a, s') -> safe s s'.
Proof.
  intros Hp. unfold lstore. simpl lheap. destruct (c_reqs s !! p) as [r|] eqn:E; [|done]. intros [= _ <-].
  eapply insert_safe; eauto.
Qed.

Lemma sa_sys_alloc : within safe sys_alloc.
Proof. intros s a s'. unfold sys_alloc. destruct (so_alloc (sys s)); intros [= _ <-]; same. Qed.
Lemma sa_sys_clock : within safe sys_clock.
Proof. intros s a s'. unfold sys_clock. destruct (so_clock (sys s)) as [|? []]; intros [= _ <-]; same. Qed.
Lemma sa_sys_send iov fd : within safe (sys_send iov fd).
Proof. intros s a s'. unfold sys_send. destruct (so_send (sys s)) as [|[n|e] rest]; intros [= _ <-]; same. Qed.
Lemma sa_sys_recv want c : within safe (sys_recv want c).
Proof. intros s a s'. unfold sys_recv. destruct (so_recv (sys s)) as [|[n fd|e] rest]; intros [= _ <-]; same. Qed.

Lemma sa_modify (f : ubus_context -> ubus_context) : (forall s, safe s (f s)) -> within safe (modify f).
Proof. by apply wi_modify. Qed.

Hint Resolve sa_lload sa_lstore_other sa_new_other sa_end_other sa_lstore_req sa_sys_alloc sa_sys_clock sa_sys_send sa_sys_recv : within.
Hint Resolve safe_preorder : within.
Hint Extern 1 (forall _, same_phase _ _) => (by split) : within.
Hint Extern 1 (within safe (modify _)) => (apply sa_modify; same) : within.
Hint Extern 1 (LHeap _) => apply _ : within.
Hint Extern 1 (OtherHeap _) => apply _ : within.

(** ** Input and output *)

Lemma sa_close_if fd : within safe (close_if fd).
Proof. unfold close_if, sys_close_fd. solve_within. Qed.
Hint Resolve sa_close_if : within.

Lemma sa_writev_loop fuel iov fd len : within safe (writev_loop fuel iov fd len).
Proof. revert iov fd len. induction fuel as [|fuel IH]; intros iov fd len; simpl; solve_within. Qed.
Hint Resolve sa_writev_loop : within.

Lemma sa_send_msg seq msg cmd peer fd : within safe (ubus_send_msg seq msg cmd peer fd).
Proof. unfold ubus_send_msg, writev_retry. solve_within. Qed.
Hint Resolve sa_send_msg : within.

Lemma sa_parse msg len : within safe (lib_parse_msg msg len).
Proof. unfold lib_parse_msg. solve_within. Qed.
Hint Resolve sa_parse : within.

Lemma sa_recv_loop fuel want wait control fd got : within safe (recv_loop fuel want wait control fd got).
Proof. revert wait control fd got. induction fuel as [|fuel IH]; intros; simpl; solve_within. Qed.
Hint Resolve sa_recv_loop : within.

Lemma sa_get_next_msg fd : within safe (get_next_msg fd).
Proof. unfold get_next_msg, recv_retry, alloc_msg_buf, msgbuf_write, set_eof. solve_within. Qed.
Hint Resolve sa_get_next_msg : within.

(** ** Starting requests *)

Definition unanswered p s : Prop := exists r, c_reqs s !! p = Some r /\ rq_status_msg r = false.

Lemma sa_list_del p : within safe (req_list_del p).
Proof.
  unfold req_list_del, req_linked. solve_within. apply sa_modify. intros s [K1 K2 K3 K4].
  split; [split; [by apply NoDup_list_del| |done|done]|simpl; lia|done|]; simpl; intros q [Hq _]%elem_of_list_del; auto.
Qed.

Lemma list_del_unlinks p s a s' : req_list_del p s = Some (a, s') -> p ∉ ctx_requests s'.
Proof.
  unfold req_list_del. intros (l & s1 & _ & H)%bind_inv. apply bind_inv in H as ([] & s2 & _ & H).
  injection H as _ <-. simpl. rewrite elem_of_list_del. tauto.
Qed.

Lemma clear_inv p fd s a s' :
  clear_request p fd s = Some (a, s') ->
  p ∉ ctx_requests s /\ exists r r', c_reqs s !! p = Some r /\ rq_status_msg r' = false /\ rq_complete_cb r' = None /\ s' = s <| c_reqs ::= insert p r' |>.
Proof.
  unfold clear_request, req_linked. intros (l & s1 & [= <- <-] & H)%bind_inv. apply bind_inv in H as ([] & s2 & [Hb ->]%assert_inv & H).
  apply negb_true_iff, bool_decide_eq_false in Hb. split; [done|]. unfold lstore in H. simpl lheap in H.
  destruct (c_reqs s !! p) as [r|] eqn:E; [|done]. injection H as _ <-. eexists r, _. split; [done|]. by split; [|split; [|reflexivity]].
Qed.

Lemma sa_clear_request p fd : within safe (clear_request p fd).
Proof. intros s a s' (Hp & r & r' & Hr & _ & _ & ->)%clear_inv. eapply insert_safe; eauto. Qed.

Lemma sa_start_request req msg cmd peer : within safe (start_request req msg cmd peer).
Proof. unfold start_request. solve_within. Qed.
Hint Resolve sa_list_del sa_clear_request sa_start_request : within.

Lemma sa_invoke_async obj method msg req fd : within safe (ubus_invoke_async_fd obj method msg req fd).
Proof. unfold ubus_invoke_async_fd. solve_within. Qed.
Lemma sa_deferred req ret : within safe (ubus_complete_deferred_request req ret).
Proof. unfold ubus_complete_deferred_request. solve_within. Qed.
Lemma sa_req_list_empty req : within safe (req_list_empty req).
Proof. unfold req_list_empty, req_linked. solve_within. Qed.
Hint Resolve sa_invoke_async sa_deferred sa_req_list_empty : within.

(** Sending leaves the requests alone. *)
Lemma core_requests s s' : lib_core s' = lib_core s -> ctx_requests s' = ctx_requests s /\ c_reqs s' = c_reqs s.
Proof. intros E. split; [exact (f_equal ctx_requests E)|exact (f_equal c_reqs E)]. Qed.

(** A started request does not wait yet and is not answered. *)
Definition started p s : Prop :=
  p ∉ ctx_requests s /\ exists r, c_reqs s !! p = Some r /\ rq_status_msg r = false /\ rq_complete_cb r <> Some call_ubus_sync_req_cb.

Lemma start_started p msg cmd peer s ret s' :
  started p s -> start_request p msg cmd peer s = Some (ret, s') -> started p s'.
Proof.
  intros [Hp (r & Hr & Hs & Hc)]. unfold start_request. intros (r0 & s1 & H1 & H)%bind_inv. unfold lload in H1. simpl lheap in H1.
  rewrite Hr in H1. injection H1 as <- <-. destruct (match msg with Some m => _ | None => _ end).
  - apply bind_inv in H as ([] & s1 & E%pres_close_if & [= _ <-]). unfold started.
    apply core_requests in E as [-> ->]. eauto.
  - apply bind_inv in H as ([] & s1 & [= <-] & H). apply bind_inv in H as (seq & s2 & [= <- <-] & H).
    apply bind_inv in H as ([] & s2 & E & H). unfold lstore in E. cbn in E. rewrite Hr in E. injection E as <-.
    apply pres_send_msg, core_requests in H as [Hl He]. unfold started. rewrite Hl, He.
    split; [done|]. eexists. split; [apply lookup_insert_eq|done].
Qed.

Lemma clear_started p fd s a s' : clear_request p fd s = Some (a, s') -> started p s'.
Proof.
  intros (Hp & r & r' & Hr & Hs & Hc & ->)%clear_inv. split; [done|]. exists r'. split; [apply lookup_insert_eq|]. by rewrite Hc.
Qed.

Lemma start_request_started p msg cmd peer s ret s' : ubus_start_request p msg cmd peer s = Some (ret, s') -> started p s'.
Proof. unfold ubus_start_request. intros ([] & s1 & E%clear_started & H)%bind_inv. by eapply start_started. Qed.

Lemma invoke_async_started obj method msg p fd s ret s' :
  ubus_invoke_async_fd obj method msg p fd s = Some (ret, s') -> started p s'.
Proof.
  unfold ubus_invoke_async_fd. intros ([] & s1 & E%clear_started & H)%bind_inv. apply bind_inv in H as (r & s2 & H & H2).
  apply start_started in H; [|done]. destruct (r <? 0); by injection H2 as _ <-.
Qed.

Lemma lstore_unanswered p q (f : ubus_request -> ubus_request) s a s' :
  (forall r, same_phase r (f r)) -> lstore q f s = Some (a, s') -> unanswered p s -> unanswered p s'.
Proof.
  unfold lstore. simpl lheap. intros Hf. destruct (c_reqs s !! q) as [r|] eqn:E; [|done]. intros [= _ <-] (r0 & Hr0 & Hs).
  unfold unanswered. simpl. destruct (decide (p = q)) as [->|Hne]; [|rewrite lookup_insert_ne by done; eauto].
  rewrite E in Hr0. injection Hr0 as <-. exists (f r). split; [apply lookup_insert_eq|]. by apply Hf.
Qed.

(** Linking a request that is not answered *)
Lemma complete_async_safe s0 p s a s' :
  safe s0 s -> unanswered p s -> may_wait s0 p -> ubus_complete_request_async p s = Some (a, s') -> safe s0 s'.
Proof.
  intros H0 (r & Hr & Hs) Hp. unfold ubus_complete_request_async, req_list_empty, req_linked.
  intros (e & s1 & E & H)%bind_inv. apply bind_inv in E as (r1 & s2 & E & E2). unfold lload in E. simpl lheap in E. rewrite Hr in E.
  injection E as <- <-. apply bind_inv in E2 as (l & s2 & [= <- <-] & [= <- <-]).
  destruct (rq_init r) eqn:Hi; cbn [andb negb] in H; [|by injection H as _ <-].
  case_bool_decide as Hl; cbn [negb] in H; [by injection H as _ <-|]. injection H as _ <-.
  intros K0. destruct (H0 K0) as [[K1 K2 K3 K4] B A N]. split; [split|done|done|]; simpl.
  - by constructor.
  - intros q [->|Hq]%elem_of_cons; [eauto|by apply K2].
  - done.
  - done.
  - intros q [->|Hq]%elem_of_cons; [by right|by apply N].
Qed.

Lemma sa_acl_query : within safe acl_query.
Proof.
  intros s a s'. unfold acl_query. intros (active & s1 & [= <- <-] & H)%bind_inv.
  destruct (acl_query_active s); [by injection H as _ <-; apply same_safe|].
  apply bind_inv in H as ([] & s1 & [= <-] & H). apply bind_inv in H as (req & s2 & [= <- <-] & H).
  apply bind_inv in H as (ret & s2 & E2 & H). apply bind_inv in H as ([] & s3 & E3 & H). apply bind_inv in H as ([] & s4 & E4 & H).
  eapply complete_async_safe; [| | |exact H].
  - transitivity (s <| acl_query_active := true |>); [by apply same_safe|]. transitivity s2; [by eapply sa_invoke_async|].
    transitivity s3; [|revert E4; apply sa_lstore_req; by split]. revert E3. apply sa_lstore_req. by split.
  - apply invoke_async_started in E2 as (_ & r & Hr & Hs & _). eapply (lstore_unanswered (acl_req s)) in E3; [|by split|by exists r].
    by eapply lstore_unanswered in E4; [|by split|].
  - by right; left.
Qed.
Lemma sa_acl_recv msg : within safe (acl_recv_cb msg).
Proof. unfold acl_recv_cb, acl_add. solve_within. Qed.
Hint Resolve sa_acl_query sa_acl_recv : within.

(** ** Callbacks and answers *)

(** What is asked of the program's callbacks: whatever they do is safe. *)
Class Careful : Prop := {
  careful_program : forall c, within safe (program c);
  careful_subscribe : forall p id, within safe (nested_subscribe p id);
}.
Context `{CA : !Careful}.
Hint Resolve careful_program careful_subscribe : within.

Lemma sa_notify_of req : within safe (notify_of req).
Proof. unfold notify_of. solve_within. Qed.
Lemma sa_auto_subscribe id path sub : within safe (auto_subscribe id path sub).
Proof. unfold auto_subscribe. solve_within. Qed.
Hint Resolve sa_notify_of sa_auto_subscribe : within.

Lemma sa_call_data cb req type data : within safe (call_data_handler cb req type data).
Proof.
  unfold call_data_handler, ubus_notify_data_cb, ubus_lookup_cb, ubus_auto_sub_lookup, ubus_auto_sub_lookup_all, ubus_lookup_id_cb,
    ubus_add_object_cb, ubus_remove_object_cb, request_obj.
  solve_within.
Qed.
Hint Resolve sa_call_data : within.

Lemma sa_call_complete cb p ret : cb <> call_ubus_sync_req_cb -> within safe (call_complete_handler cb p ret).
Proof.
  intros Hcb. destruct cb; cbn [call_complete_handler]; [|done|..];
    unfold ubus_notify_complete_cb, acl_query_complete_cb; solve_within.
Qed.

Lemma call_complete_safe cb p ret s a s' :
  p ∉ ctx_requests s -> call_complete_handler cb p ret s = Some (a, s') -> safe s s'.
Proof.
  intros Hp. destruct cb; [by apply sa_call_complete| |by apply sa_call_complete|by apply sa_call_complete].
  cbn [call_complete_handler]. unfold ubus_sync_req_cb. intros ([] & s1 & E & H)%bind_inv.
  transitivity s1; [by eapply sa_lstore_idle|]. injection H as _ <-. by apply same_safe.
Qed.

Lemma lstore_list p (f : ubus_request -> ubus_request) s a s' : lstore p f s = Some (a, s') -> ctx_requests s' = ctx_requests s.
Proof. unfold lstore. destruct (lheap s !! p); [|done]. by intros [= _ <-]. Qed.

Lemma req_complete_safe p s a s' :
  p ∉ ctx_requests s -> ubus_req_complete_cb p s = Some (a, s') -> safe s s'.
Proof.
  intros Hp. unfold ubus_req_complete_cb. intros (r & s1 & E & H)%bind_inv. unfold lload in E. simpl lheap in E.
  destruct (c_reqs s !! p); [|done]. injection E as <- <-. destruct (rq_complete_cb _); [|by injection H as _ <-].
  apply bind_inv in H as ([] & s1 & E & H). transitivity s1; [by eapply sa_lstore_idle|].
  eapply call_complete_safe; [|exact H]. by rewrite (lstore_list _ _ _ _ _ E).
Qed.

(** On the way the request leaves the list. *)
Lemma set_status_split p ret s a s' :
  ubus_set_req_status p ret s = Some (a, s') -> exists s1, safe s s1 /\ p ∉ ctx_requests s1 /\ safe s1 s'.
Proof.
  unfold ubus_set_req_status. intros (e & s0 & E & H)%bind_inv.
  assert (safe s s0 /\ (e = true -> p ∉ ctx_requests s0)) as [H0 He].
  { split; [by eapply sa_req_list_empty|]. unfold req_list_empty, req_linked in E. apply bind_inv in E as (r & s1 & E & H1).
    unfold lload in E. destruct (lheap s !! p); [|done]. injection E as <- <-. apply bind_inv in H1 as (l & s1 & [= <- <-] & [= <- <-]).
    intros [_ H2]%andb_prop. by apply negb_true_iff, bool_decide_eq_false in H2. }
  apply bind_inv in H as ([] & s1 & E1 & H). assert (safe s0 s1 /\ p ∉ ctx_requests s1) as [H1 Hp].
  { destruct e; cbn [negb when] in E1; [injection E1 as <-; split; [done|by apply He]|]. split; [by eapply sa_list_del|by eapply list_del_unlinks]. }
  exists s1. split; [by transitivity s0|]. split; [done|]. apply bind_inv in H as ([] & s2 & E2 & H).
  apply lstore_list in E2 as Hl. transitivity s2; [by eapply sa_lstore_idle|]. apply bind_inv in H as (r & s3 & E3 & H).
  unfold lload in E3. simpl lheap in E3. destruct (c_reqs s2 !! p) as [u|]; [|done]. injection E3 as <- <-.
  destruct (rq_blocked u); cbn [when negb] in H; [by injection H as _ <-|]. eapply req_complete_safe; [|exact H]. by rewrite Hl.
Qed.

Lemma sa_set_status req ret : within safe (ubus_set_req_status req ret).
Proof. intros s a s' (s1 & H1 & _ & H2)%set_status_split. by transitivity s1. Qed.
Hint Resolve sa_set_status : within.

Lemma sa_req_data req type data : within safe (req_data_cb req type data).
Proof. unfold req_data_cb. solve_within. Qed.
Hint Resolve sa_req_data : within.
Lemma sa_process_data req : within safe (process_all_pending_data req).
Proof. unfold process_all_pending_data, process_pending_data. solve_within. Qed.
Hint Resolve sa_process_data : within.
Lemma sa_find_request seq peer : within safe (ubus_find_request seq peer).
Proof.
  unfold ubus_find_request. apply wi_bind; [apply _|solve_within|]. intros l. generalize (-1).
  induction l as [|req l IH]; intros id; simpl; solve_within.
Qed.
Hint Resolve sa_find_request : within.

Lemma answered_idle s p r : reqs_ok s -> c_reqs s !! p = Some r -> rq_status_msg r = true -> p ∉ ctx_requests s.
Proof. intros [_ K2 _ _] Hr Hs Hp. destruct (K2 p Hp) as (r0 & Hr0 & _ & H0). congruence. Qed.

Lemma sa_complete_answered req :
  within safe (r ← lload (T := ubus_request) req; when (rq_status_msg r) (ubus_req_complete_cb req)).
Proof.
  intros s a s' (r & s1 & E & H)%bind_inv. unfold lload in E. simpl lheap in E. destruct (c_reqs s !! req) as [u|] eqn:Er; [|done].
  injection E as <- <-. destruct (rq_status_msg u) eqn:Es; cbn [when] in H; [|by injection H as _ <-].
  intros K. eapply req_complete_safe; [|exact H|exact K]. by eapply answered_idle.
Qed.

Lemma sa_process_req_data req buf : within safe (ubus_process_req_data req buf).
Proof.
  unfold ubus_process_req_data. apply wi_bind; [apply _|solve_within|]. intros r. destruct (negb _); [|solve_within].
  do 4 (apply wi_bind; [apply _|solve_within|intros _]). apply sa_complete_answered.
Qed.
Hint Resolve sa_process_req_data : within.

Lemma sa_process_req_msg buf fd : within safe (ubus_process_req_msg buf fd).
Proof.
  unfold ubus_process_req_msg, ubus_process_notify_status, ubus_process_req_status, ubus_get_status, store_notify. solve_within.
Qed.
Hint Resolve sa_process_req_msg : within.

(** ** Dispatch *)

Lemma sa_flush_loop fuel : within safe (flush_loop fuel).
Proof. induction fuel as [|fuel IH]; simpl; solve_within. Qed.
Lemma sa_method h obj req name msg : within safe (call_method_handler h obj req name msg).
Proof. unfold call_method_handler, ubus_event_cb, ubus_auto_sub_event_handler_cb, ubus_subscriber_cb, acl_subscribe_cb. solve_within. Qed.
Hint Resolve sa_flush_loop sa_method : within.

Lemma sa_process_obj_msg buf in_msgbuf fd : within safe (ubus_process_obj_msg buf in_msgbuf fd).
Proof.
  assert (forall hdr obj, within safe (ubus_process_invoke hdr obj fd)) as Hinv.
  { intros hdr obj. unfold ubus_process_invoke, invoke_status, invoke_found, attr. solve_within. }
  assert (forall obj, within safe (ubus_process_unsubscribe obj fd)) as Hun.
  { intros obj. unfold ubus_process_unsubscribe, attr. solve_within. }
  assert (forall obj, within safe (ubus_process_notify obj fd)) as Hno.
  { intros obj. unfold ubus_process_notify, attr. solve_within. }
  unfold ubus_process_obj_msg. cbv zeta. apply wi_bind; [apply _|solve_within|]. intros tb.
  destruct (tb UBUS_ATTR_OBJID); [|solve_within]. apply wi_bind; [apply _|solve_within|]. intros obj.
  destruct (_ =? _); [solve_within|]. destruct (_ =? _); [solve_within|]. destruct (_ =? _); solve_within.
Qed.
Hint Resolve sa_process_obj_msg : within.

Lemma sa_process_msg buf in_msgbuf fd : within safe (ubus_process_msg buf in_msgbuf fd).
Proof. unfold ubus_process_msg, process_obj_or_queue, ubus_queue_msg. solve_within. Qed.
Hint Resolve sa_process_msg : within.

Lemma sa_pending_loop fuel : within safe (process_pending_loop fuel).
Proof. induction fuel as [|fuel IH]; simpl; solve_within. Qed.
Hint Resolve sa_pending_loop : within.

Lemma sa_process_pending : within safe ubus_process_pending_msg.
Proof. unfold ubus_process_pending_msg. solve_within. Qed.
Hint Resolve sa_process_pending : within.

Lemma sa_handle_loop fuel : within safe (handle_data_loop fuel).
Proof. induction fuel as [|fuel IH]; cbn [handle_data_loop]; unfold process_pending_if_idle; solve_within. Qed.
Hint Resolve sa_handle_loop : within.

Lemma sa_handle_data : within safe ubus_handle_data.
Proof.
  unfold ubus_handle_data, ubus_flush_requests, process_pending_if_idle, call_connection_lost, ubus_default_connection_lost,
    ubus_auto_disconnect_cb, auto_timer_set, auto_conn_set, auto_conn_of.
  solve_within.
Qed.
Hint Resolve sa_handle_data : within.

(** ** Waiting *)

(** A local request of the library: no code but its own function links it. *)
Definition hidden s p : Prop := ~ own p /\ p <> acl_req s /\ (p < c_brk s)%positive.

Lemma safe_hidden s s' p : reqs_ok s -> safe s s' -> hidden s p -> hidden s' p /\ (p ∉ ctx_requests s -> p ∉ ctx_requests s').
Proof.
  intros K H (H1 & H2 & H3). destruct (H K) as [K' B A N]. split; [split; [done|split; [congruence|lia]]|].
  intros Hp [Hq|[Hq|[Hq|Hq]]]%N; [done|done|done|lia].
Qed.

Lemma set_status_unlinks p ret s a s' :
  reqs_ok s -> hidden s p -> ubus_set_req_status p ret s = Some (a, s') -> p ∉ ctx_requests s'.
Proof.
  intros K Hh (s1 & H1 & Hp & H2)%set_status_split. destruct (safe_hidden s s1 p K H1 Hh) as [Hh1 _].
  by apply (safe_hidden s1 s' p (sf_ok _ _ (H1 K)) H2 Hh1).
Qed.

Lemma sa_complete_loop fuel req time_end : within safe (complete_loop fuel req time_end).
Proof. induction fuel as [|fuel IH]; cbn [complete_loop]; unfold ubus_poll_data; solve_within. Qed.
Hint Resolve sa_complete_loop : within.

Context `{QU : !Quiet}.

(** The loop ends only when the request has been answered or given up. *)
Lemma complete_loop_unlinks fuel p time_end s a s' :
  (answers s <= fuel)%nat -> reqs_ok s -> hidden s p -> complete_loop fuel p time_end s = Some (a, s') -> p ∉ ctx_requests s'.
Proof.
  revert s. induction fuel as [|fuel IH]; intros s Hf K Hh; cbn [complete_loop]; intros (r & s1 & E & H)%bind_inv.
  all: unfold lload in E; simpl lheap in E; destruct (c_reqs s !! p) as [u|] eqn:Er; [|done]; injection E as <- <-.
  all: destruct (rq_status_msg u) eqn:Es; [injection H as _ <-; by eapply answered_idle|].
  all: apply bind_inv in H as (expired & s2 & E2 & H).
  all: assert (safe s s2 /\ (answers s2 <= answers s)%nat) as [S2 A2]
    by (split; [revert E2; match goal with |- ?m _ = _ -> _ => assert (within safe m) as W by solve_within; apply W end|
                destruct time_end; [apply bind_inv in E2 as (now & s3 & E3%wi_sys_clock & [= _ <-]); apply fo_answers, E3|by injection E2 as _ <-]]).
  all: pose proof (sf_ok _ _ (S2 K)) as K2; destruct (safe_hidden _ _ _ K S2 Hh) as [Hh2 _].
  all: destruct expired; [by eapply set_status_unlinks|].
  all: apply bind_inv in H as ([] & s3 & E3 & H); pose proof E3 as E3'; apply poll_data_moves in E3' as [[A3 _ _] M3].
  all: assert (safe s2 s3) as S3
    by (revert E3; assert (within safe ubus_poll_data) as W by (unfold ubus_poll_data; solve_within); apply W).
  all: pose proof (sf_ok _ _ (S3 K2)) as K3; destruct (safe_hidden _ _ _ K2 S3 Hh2) as [Hh3 _].
  all: apply bind_inv in H as (eof & s4 & [= <- <-] & H); destruct (ctx_sock_eof s3) eqn:Ee.
  1,3: apply bind_inv in H as ([] & s4 & E4%set_status_unlinks & [= _ <-]); done.
  all: destruct M3 as [M3|M3]; [|congruence].
  - lia.
  - eapply IH; [|exact K3|exact Hh3|exact H]. lia.
Qed.

Lemma async_brk p s a s' : ubus_complete_request_async p s = Some (a, s') -> c_brk s' = c_brk s.
Proof.
  unfold ubus_complete_request_async, req_list_empty, req_linked, lload, gets, modify, mbind, stm_bind, mret, stm_ret.
  destruct (lheap s !! p); [|done]. destruct (negb _); by intros [= _ <-].
Qed.

(** Waiting for a started request: safe, and a local one has left the list. *)
Lemma complete_request_safe s0 p timeout s ret s' :
  safe s0 s -> started p s -> may_wait s0 p -> ubus_complete_request p timeout s = Some (ret, s') ->
  safe s0 s' /\ (reqs_ok s0 -> hidden s p -> p ∉ ctx_requests s').
Proof.
  intros S0 (Hp & r & Hr & Hs & Hc) Hw. unfold ubus_complete_request. intros (r0 & s1 & E & H)%bind_inv.
  unfold lload in E. simpl lheap in E. rewrite Hr in E. injection E as <- <-.
  set (cb := rq_complete_cb r) in *. clearbody cb. apply bind_inv in H as (te & s1 & E1 & H).
  assert (safe s s1 /\ c_reqs s1 = c_reqs s) as [S1 C1].
  { destruct (timeout =? 0); [by injection E1 as _ <-|]. apply bind_inv in E1 as (now & s2 & E2 & [= _ <-]).
    split; [by eapply sa_sys_clock|]. unfold sys_clock in E2. by destruct (so_clock (sys s)) as [|? []]; injection E2 as _ <-. }
  apply bind_inv in H as ([] & s2 & E2 & H).
  assert (safe s0 s2) as S2.
  { eapply complete_async_safe; [by transitivity s| |exact Hw|exact E2]. exists r. by rewrite C1. }
  apply bind_inv in H as ([] & s3 & E3 & H). apply sa_lstore_req in E3; [|by split].
  apply bind_inv in H as ([] & s4 & [= <-] & H). apply bind_inv in H as (fuel & s4 & [= <- <-] & H).
  apply bind_inv in H as ([] & s5 & E5 & H). set (s4 := s3 <| ctx_stack_depth ::= Z.add 1 |>) in *.
  assert (safe s3 s4) as S4 by by apply same_safe. pose proof (sa_complete_loop _ _ _ _ _ _ E5) as S5.
  assert (safe s5 s') as S6.
  { revert H. match goal with |- ?m _ = _ -> _ => assert (within safe m) as W; [|apply W] end. destruct cb as [c|]; [|solve_within].
    assert (forall st, within safe (call_complete_handler c p st)) by (intros st; apply sa_call_complete; congruence). solve_within. }
  split; [transitivity s2; [done|]; transitivity s3; [done|]; transitivity s4; [done|]; by transitivity s5|].
  intros K0 Hh. assert (safe s0 s4) as S04 by (transitivity s2; [done|]; by transitivity s3).
  pose proof (sf_ok _ _ (S04 K0)) as K4. pose proof (sf_ok _ _ (S5 K4)) as K5.
  assert (hidden s4 p) as Hh4.
  { destruct Hh as (H1 & H2 & H3). split; [done|]. destruct (S0 K0) as [_ _ A0 _]. destruct (S04 K0) as [_ _ A4 _].
    split; [congruence|]. apply async_brk in E2. destruct (S1 (sf_ok _ _ (S0 K0))) as [_ B1 _ _].
    destruct (E3 (sf_ok _ _ (S2 K0))) as [_ B3 _ _]. change (c_brk s4) with (c_brk s3). lia. }
  eapply complete_loop_unlinks in E5; [|done|exact K4|exact Hh4]. by apply (safe_hidden s5 s' p K5 S6 (proj1 (safe_hidden s4 s5 p K4 S5 Hh4))).
Qed.

(** ** Local requests *)

Lemma new_req_safe (init : ubus_request) s p s1 :
  new_local init s = Some (p, s1) -> reqs_ok s ->
  p = c_brk s /\ safe_step s s1 /\ hidden s1 p /\ p ∉ ctx_requests s1.
Proof.
  intros [= <- <-] [K1 K2 K3 K4]. assert (c_brk s ∉ ctx_requests s) as Hp.
  { intros (r & Hr%K3 & _)%K2. lia. }
  split; [done|]. split; [|split; [|done]].
  - unfold set_lheap, lheap_req. split; [split|simpl; lia|done|auto]; simpl.
    + done.
    + intros q Hq. assert (c_brk s <> q) by (intros <-; done). rewrite lookup_insert_ne by done. by apply K2.
    + intros q r. destruct (decide (q = c_brk s)) as [->|]; [intros _; lia|]. rewrite lookup_insert_ne by done. intros Hq%K3. lia.
    + intros q Hq%K4. lia.
  - split; [intros H; apply (or_introl (B := c_brk s = acl_req s)), K4 in H; lia|].
    split; [intros H; apply (or_intror (A := own (c_brk s))), K4 in H; lia|]. simpl. lia.
Qed.

Lemma end_req_safe p s a s' : p ∉ ctx_requests s -> end_local (T := ubus_request) p s = Some (a, s') -> safe s s'.
Proof.
  intros Hp. unfold end_local. simpl lheap. destruct (c_reqs s !! p); [|done]. intros [= _ <-] [K1 K2 K3 K4].
  split; [split; [done| | |done]|simpl; lia|done|auto]; simpl.
  - intros q Hq. assert (p <> q) by (intros <-; done). rewrite lookup_delete_ne by done. by apply K2.
  - intros q r [_ H]%lookup_delete_Some. by eapply K3.
Qed.

(** Storing the callbacks of a started request *)
Definition callbacks_only (f : ubus_request -> ubus_request) : Prop :=
  forall r, same_phase r (f r) /\
    (rq_complete_cb r <> Some call_ubus_sync_req_cb -> rq_complete_cb (f r) <> Some call_ubus_sync_req_cb).

Lemma lstore_started p f s a s' : callbacks_only f -> lstore p f s = Some (a, s') -> started p s -> started p s'.
Proof.
  intros Hf E (Hp & r & Hr & Hs & Hc). split; [by rewrite (lstore_list _ _ _ _ _ E)|]. unfold lstore in E. simpl lheap in E. rewrite Hr in E.
  injection E as _ <-. exists (f r). destruct (Hf r) as [[_ H1] H2]. split; [apply lookup_insert_eq|]. auto.
Qed.

Lemma wait_local s p s2 f timeout ret s3 :
  reqs_ok s -> p = c_brk s -> safe s s2 -> started p s2 -> hidden s2 p -> callbacks_only f ->
  (lstore p f;; ubus_complete_request p timeout) s2 = Some (ret, s3) -> safe s s3 /\ p ∉ ctx_requests s3.
Proof.
  intros K -> S2 Hst Hh Hf ([] & s1 & E & H)%bind_inv. apply lstore_started in E as Hst1; [|done|done].
  apply sa_lstore_req in E; [|intros r; apply Hf]. pose proof (safe_hidden s2 s1 _ (sf_ok _ _ (S2 K)) E Hh) as [Hh1 _].
  eapply complete_request_safe in H; [|by transitivity s2|exact Hst1|right; right; simpl; lia].
  destruct H as [S3 H]. auto.
Qed.

Lemma sa_local_request init msg cmd peer f : callbacks_only f -> within safe (local_request init msg cmd peer f).
Proof.
  intros Hf s a s' H K. unfold local_request in H. apply bind_inv in H as (p & s1 & E1 & H).
  destruct (new_req_safe _ _ _ _ E1 K) as (Hp & S1 & Hh1 & Hl1). apply bind_inv in H as (ret & s2 & E2 & H).
  assert (safe s1 s2) as S2 by (revert E2; match goal with |- ?m _ = _ -> _ => assert (within safe m) as W by (unfold ubus_start_request; solve_within); apply W end).
  apply start_request_started in E2 as Hst. destruct (safe_hidden _ _ _ (sf_ok _ _ S1) S2 Hh1) as [Hh2 _].
  assert (safe s s2) as S02 by (intros _; by eapply safe_step_trans).
  apply bind_inv in H as (ret' & s3 & E3 & H). assert (safe s s3 /\ p ∉ ctx_requests s3) as [S3 Hl3].
  { destruct (ret <? 0); [injection E3 as _ <-; split; [done|apply Hst]|]. by eapply wait_local. }
  apply bind_inv in H as ([] & s4 & E4 & [= _ <-]). apply end_req_safe in E4; [|done].
  eapply safe_step_trans; [by apply S3|done].
Qed.

Lemma sa_invoke_fd obj method msg cb priv timeout fd : within safe (ubus_invoke_fd obj method msg cb priv timeout fd).
Proof.
  intros s a s' H K. unfold ubus_invoke_fd in H. apply bind_inv in H as (p & s1 & E1 & H).
  destruct (new_req_safe _ _ _ _ E1 K) as (Hp & S1 & Hh1 & Hl1). apply bind_inv in H as (rc & s2 & E2 & H).
  apply sa_invoke_async in E2 as S2. apply invoke_async_started in E2 as Hst.
  destruct (safe_hidden _ _ _ (sf_ok _ _ S1) S2 Hh1) as [Hh2 _].
  assert (safe s s2) as S02 by (intros _; by eapply safe_step_trans).
  apply bind_inv in H as (rc' & s3 & E3 & H). assert (safe s s3 /\ p ∉ ctx_requests s3) as [S3 Hl3].
  { destruct (rc =? 0); cbn [negb] in E3; [|injection E3 as _ <-; split; [done|apply Hst]].
    eapply wait_local; [done|done|done|done|done| |exact E3]. by split. }
  apply bind_inv in H as ([] & s4 & E4 & [= _ <-]). apply end_req_safe in E4; [|done].
  eapply safe_step_trans; [by apply S3|done].
Qed.

Lemma sa_abort req : within safe (ubus_abort_request req).
Proof. unfold ubus_abort_request. solve_within. Qed.
Hint Resolve sa_abort : within.

(** [ubus_notify] *)
Lemma store_notify_started p f s a s' : store_notify p f s = Some (a, s') -> safe s s' /\ (started p s -> started p s').
Proof.
  unfold store_notify. intros (n & s1 & E & H)%bind_inv. apply sa_notify_of in E as S1.
  assert (s1 = s) as ->.
  { unfold notify_of, lload, mbind, stm_bind in E. destruct (lheap s !! p); [|done]. destruct (rq_nreq _); [|done]. by injection E as _ <-. }
  split; [revert H; apply sa_lstore_req; by split|]. intros Hs. eapply lstore_started; [|exact H|done]. by split.
Qed.

Lemma notify_async_started obj type msg p reply s ret s' :
  p ∉ ctx_requests s -> notify_async obj type msg p reply s = Some (ret, s') ->
  safe s s' /\ p ∉ ctx_requests s' /\ (ret = 0 -> started p s').
Proof.
  intros Hp. unfold notify_async, not_on_channel. intros (ch & s1 & [= <- <-] & H)%bind_inv.
  destruct (ubus_context_is_channel s); [by injection H as <- <-|].
  apply bind_inv in H as (l & s1 & [= <- <-] & H). apply bind_inv in H as ([] & s1 & [_ ->]%assert_inv & H).
  apply bind_inv in H as ([] & s1 & E1 & H). apply sa_lstore_idle in E1; [|done].
  apply bind_inv in H as (o & s2 & E2 & H). apply sa_lload in E2.
  apply bind_inv in H as (rc & s3 & E3 & H). apply start_request_started in E3 as Hst.
  assert (safe s2 s3) as S3 by (revert E3; match goal with |- ?m _ = _ -> _ => assert (within safe m) as W by (unfold ubus_start_request; solve_within); apply W end).
  assert (safe s s3) as S03 by (transitivity s1; [done|]; by transitivity s2).
  destruct (rc <? 0); [injection H as <- <-; split; [done|]; split; [apply Hst|done]|].
  apply bind_inv in H as ([] & s4 & [S4 H4]%store_notify_started & H).
  apply bind_inv in H as ([] & s5 & E5 & [= <- <-]). apply H4 in Hst. eapply lstore_started in Hst; [|  |exact E5]; [|by split].
  split; [|split; [apply Hst|done]]. transitivity s4; [by transitivity s3|]. revert E5. apply sa_lstore_req. by split.
Qed.

Lemma sa_notify obj type msg timeout : within safe (ubus_notify obj type msg timeout).
Proof.
  intros s a s' H K. unfold ubus_notify in H. apply bind_inv in H as (p & s1 & E1 & H).
  destruct (new_req_safe _ _ _ _ E1 K) as (Hp & S1 & Hh1 & Hl1). apply bind_inv in H as (rc & s2 & E2 & H).
  apply notify_async_started in E2 as (S2 & Hl2 & Hst); [|done].
  destruct (safe_hidden _ _ _ (sf_ok _ _ S1) S2 Hh1) as [Hh2 _].
  assert (safe s s2) as S02 by (intros _; by eapply safe_step_trans).
  apply bind_inv in H as (rc' & s3 & E3 & H). assert (safe s s3 /\ p ∉ ctx_requests s3) as [S3 Hl3].
  { destruct (Z.eqb_spec rc 0) as [->|]; cbn [negb] in E3; [|by injection E3 as _ <-].
    destruct (timeout <? 0).
    - apply bind_inv in E3 as ([] & s4 & E3%sa_abort & [= _ <-]). split; [by transitivity s2|].
      by apply (safe_hidden _ _ _ (sf_ok _ _ (S02 K)) E3 Hh2).
    - eapply complete_request_safe in E3 as [S3 Hu]; [|exact S02|by apply Hst|right; right; rewrite Hp; lia]. auto. }
  apply bind_inv in H as ([] & s4 & E4 & [= _ <-]). apply end_req_safe in E4; [|done].
  eapply safe_step_trans; [by apply S3|done].
Qed.
Hint Resolve sa_invoke_fd sa_notify sa_local_request : within.
Hint Extern 1 (callbacks_only _) => (by split) : within.

(** ** The functions a program calls *)

Lemma sa_lookup_with path cb priv : within safe (lookup_with path cb priv).
Proof. unfold lookup_with, not_on_channel. solve_within. Qed.
Lemma sa_lookup_id path id : within safe (ubus_lookup_id path id).
Proof. unfold ubus_lookup_id, not_on_channel. solve_within. Qed.
Lemma sa_send_event id data : within safe (ubus_send_event id data).
Proof. unfold ubus_send_event. solve_within. Qed.
Lemma sa_add_object obj : within safe (ubus_add_object obj).
Proof. unfold ubus_add_object, not_on_channel. solve_within. Qed.
Lemma sa_remove_object obj : within safe (ubus_remove_object obj).
Proof. unfold ubus_remove_object, not_on_channel. solve_within. Qed.
Lemma sa_subscribe_request obj id type : within safe (subscribe_request obj id type).
Proof. unfold subscribe_request, not_on_channel. solve_within. Qed.
Hint Resolve sa_lookup_with sa_lookup_id sa_send_event sa_add_object sa_remove_object sa_subscribe_request : within.

Lemma sa_register_event ev pattern : within safe (ubus_register_event_handler ev pattern).
Proof. unfold ubus_register_event_handler, ubus_invoke, not_on_channel. solve_within. Qed.
Hint Resolve sa_register_event : within.
Lemma sa_register_subscriber sub : within safe (ubus_register_subscriber sub).
Proof. unfold ubus_register_subscriber, not_on_channel. solve_within. Qed.
Lemma sa_register_acl : within safe ubus_register_acl.
Proof. unfold ubus_register_acl. solve_within. Qed.
Lemma sa_monitor type : within safe (lib_monitor type).
Proof. unfold lib_monitor, ubus_invoke, not_on_channel. solve_within. Qed.
Hint Resolve sa_register_subscriber sa_register_acl sa_monitor : within.

Lemma sa_send_reply req msg : within safe (ubus_send_reply req msg).
Proof. unfold ubus_send_reply. solve_within. Qed.
Hint Resolve sa_send_reply : within.

Context (usock : string -> option connection) (UBUS_UNIX_SOCKET : string).

Lemma sa_reconnect path : within safe (ubus_reconnect usock UBUS_UNIX_SOCKET path).
Proof.
  unfold ubus_reconnect, close_sock, sys_close_fd, open_sock, read_hello, sys_read, ubus_refresh_state, clear_type, clear_id,
    ubus_refresh_auto_subscribe.
  solve_within.
Qed.
Hint Resolve sa_reconnect : within.

Lemma cleared_safe s : safe s (ctx_cleared s).
Proof.
  intros [K1 K2 K3 K4]. split; [split; [apply NoDup_nil_2| |done|done]|simpl; lia|done|]; intros p Hp%not_elem_of_nil; done.
Qed.

Lemma sa_connect path : within safe (ubus_connect usock UBUS_UNIX_SOCKET path).
Proof.
  assert (within safe (modify ctx_cleared)) by (apply sa_modify, cleared_safe).
  unfold ubus_connect, ubus_connect_ctx, ubus_ctx_init, free_msgbuf. solve_within.
Qed.

Lemma sa_shutdown : within safe ubus_shutdown.
Proof. unfold ubus_shutdown, sys_close_fd, free_msgbuf. solve_within. Qed.
Hint Resolve sa_connect sa_shutdown : within.

(** What a program can ask of the library, and what [uloop] calls *)
Inductive api_call :=
  | api_connect (path : option string)
  | api_reconnect (path : option string)
  | api_shutdown
  | api_handle_event
  | api_process_pending
  | api_invoke (obj : Z) (method : string) (msg : msg_arg) (cb : option nat) (priv : priv_ptr) (timeout fd : Z)
  | api_invoke_async (obj : Z) (method : string) (msg : msg_arg) (req : ptr)
  | api_abort (req : ptr)
  | api_lookup (path : option string) (cb : nat) (priv : priv_ptr)
  | api_lookup_id (path : option string) (id : ptr)
  | api_send_event (id : string) (data : bytes)
  | api_add_object (obj : ptr)
  | api_remove_object (obj : ptr)
  | api_subscribe (obj : ptr) (id : Z)
  | api_unsubscribe (obj : ptr) (id : Z)
  | api_register_event (ev : ptr) (pattern : option string)
  | api_register_subscriber (sub : ptr)
  | api_register_acl
  | api_monitor_start
  | api_monitor_stop
  | api_notify (obj : ptr) (type : string) (msg : msg_arg) (timeout : Z)
  | api_send_reply (req : ptr) (msg : msg_arg)
  | api_complete_deferred (req : ptr) (ret : Z).

Definition ignore {A} (m : stm ubus_context A) : stm ubus_context unit := m ≫= fun _ => mret tt.

(** An asynchronous call is started and then put on the list, as [libubus.h]
    asks for. *)
Definition run_api (c : api_call) : stm ubus_context unit :=
  match c with
  | api_connect path => ignore (ubus_connect usock UBUS_UNIX_SOCKET path)
  | api_reconnect path => ignore (ubus_reconnect usock UBUS_UNIX_SOCKET path)
  | api_shutdown => ubus_shutdown
  | api_handle_event => ubus_handle_event
  | api_process_pending => ubus_process_pending_msg
  | api_invoke obj method msg cb priv timeout fd => ignore (ubus_invoke_fd obj method msg cb priv timeout fd)
  | api_invoke_async obj method msg req => ubus_invoke_async obj method msg req;; ubus_complete_request_async req
  | api_abort req => ubus_abort_request req
  | api_lookup path cb priv => ignore (ubus_lookup path cb priv)
  | api_lookup_id path id => ignore (ubus_lookup_id path id)
  | api_send_event id data => ignore (ubus_send_event id data)
  | api_add_object obj => ignore (ubus_add_object obj)
  | api_remove_object obj => ignore (ubus_remove_object obj)
  | api_subscribe obj id => ignore (lib_subscribe obj id)
  | api_unsubscribe obj id => ignore (lib_unsubscribe obj id)
  | api_register_event ev pattern => ignore (ubus_register_event_handler ev pattern)
  | api_register_subscriber sub => ignore (ubus_register_subscriber sub)
  | api_register_acl => ignore ubus_register_acl
  | api_monitor_start => ignore ubus_monitor_start
  | api_monitor_stop => ignore ubus_monitor_stop
  | api_notify obj type msg timeout => ignore (ubus_notify obj type msg timeout)
  | api_send_reply req msg => ignore (ubus_send_reply req msg)
  | api_complete_deferred req ret => ubus_complete_deferred_request req ret
  end.

(** A program starts requests of its own only. *)
Definition api_owned (c : api_call) : Prop := match c with api_invoke_async _ _ _ req => own req | _ => True end.

Lemma sa_api c : api_owned c -> within safe (run_api c).
Proof.
  destruct c; intros Ho; cbn [run_api]; unfold ignore, ubus_lookup, lib_subscribe, lib_unsubscribe, ubus_monitor_start, ubus_monitor_stop, ubus_handle_event;
    try (solve_within; fail).
  intros s a s' (rc & s1 & E & H)%bind_inv. unfold ubus_invoke_async in E. apply sa_invoke_async in E as S1.
  apply invoke_async_started in E as (_ & r & Hr & Hs & _). eapply complete_async_safe; [exact S1|by exists r|by left|exact H].
Qed.

(** C17: The list of waiting requests never dangles. Many requests are local
    variables of the library's functions, and the kernel and the program's
    callbacks decide how a function ends: with an answer, a time-out, a broken
    connection, or while other calls are nested in it. In every state that
    a sequence of library calls leads to, each entry of [ctx->requests] is a
    live, initialised request without an answer, linked once; so no function
    leaves its local request behind. The callbacks are any that keep to the same
    discipline. *)
Theorem requests_never_dangle (calls : list api_call) s s' :
  reqs_ok s -> Forall api_owned calls -> for_each calls run_api s = Some (tt, s') ->
  reqs_ok s' /\ (forall p, p ∈ ctx_requests s' -> p ∈ ctx_requests s \/ may_wait s p).
Proof.
  intros K Hall H. enough (safe_step s s') as [K' _ _ N] by done. revert H K. revert s. induction Hall as [|c calls Hc Hall IH]; intros s; cbn [for_each].
  - intros [= <-] K. by apply safe_preorder.
  - intros ([] & s1 & E & H)%bind_inv K. apply sa_api in E; [|done]. eapply safe_step_trans; [by apply E|]. intros K1. by apply IH.
Qed.
End LibSafe.

(** A program stays careful when its callbacks reach the library itself. *)
#[export] Instance lib_at_careful `{AL : AvlLib} `{PM : ProgMem} `{BL : BlobLib} (P : Program) (own : ptr -> Prop) (depth : nat) :
  Quiet (PR := P) -> Careful (PR := P) own -> Careful (PR := lib_at P depth) own.
Proof.
  intros HQ HP. induction depth as [|n IH]; [done|]. split; simpl.
  - by destruct HP.
  - intros p id. by apply sa_subscribe_request, lib_at_quiet.
Qed.

(** ** Witness *)

#[export] Instance demo_careful own : Careful (PR := demo_program) own.
Proof. split; intros; apply wi_ret; apply safe_preorder. Qed.

(** The program's own request *)
Definition demo_own (p : ptr) : Prop := p = demo_call_req.

Lemma lib_connected_ok : reqs_ok demo_own lib_connected.
Proof.
  assert (ctx_requests lib_connected = []) as E by (vm_compute; reflexivity). split.
  - rewrite E. apply NoDup_nil_2.
  - intros p. rewrite E. by intros ?%not_elem_of_nil.
  - intros p r Hp. assert (map_Forall (fun p _ => (p <? c_brk lib_connected)%positive = true) (c_reqs lib_connected)) as H.
    { apply (bool_decide_unpack _). vm_compute. exact I. }
    apply Pos.ltb_lt. exact (H p r Hp).
  - intros p [-> | ->]; vm_compute; reflexivity.
Qed.

(** It starts a call, then makes another and waits until the connection breaks. *)
Definition demo_calls : list api_call :=
  [api_invoke_async 100 "hi" no_msg demo_call_req; api_invoke 100 "hi" no_msg None priv_none 0 (-1)].

Lemma requests_never_dangle_witness :
  exists s', for_each demo_calls (run_api (PR := lib_at demo_program 2) demo_usock "/var/run/ubus/ubus.sock") lib_connected = Some (tt, s') /\
    reqs_ok demo_own s' /\ ctx_sock_eof s' = true.
Proof.
  assert ((fun x => ctx_sock_eof x.2) <$>
    for_each demo_calls (run_api (PR := lib_at demo_program 2) demo_usock "/var/run/ubus/ubus.sock") lib_connected = Some true) as E
    by (vm_compute; reflexivity).
  destruct (for_each demo_calls _ lib_connected) as [[[] s']|] eqn:Er; [|discriminate E].
  exists s'. split; [reflexivity|]. split; [|injection E as E; exact E].
  refine (proj1 (requests_never_dangle (PR := lib_at demo_program 2) demo_own _ _ demo_calls lib_connected s' lib_connected_ok _ Er)).
  repeat constructor.
Defined.
