(* ===== verification/EndToEnd.v ===== *)
(** * A call and its answer, from program to program

    The library of the caller, the daemon and the library of the callee put
    together: every hop's theorem is about the bytes the previous hop put on the
    wire, and the hops agree on what the bytes mean. *)

From stdpp Require Import base gmap strings list fin_maps.
From Stdlib Require Import ZArith Lia.
From S2P Require Import Prelude Wire Cstring Libubox LibuboxModel Ids State MsgBuf Frame SendSpec Stream Wf Reply Obj Proto Bus ReplySpec Daemon Demo.
From S2P Require Import ProtoThms LibState LibIo LibIoSpec LibCalls LibReq LibReqSpec LibObj LibDemo LibIoThms LibReqThms LibObjThms.
Local Open Scope Z_scope.
Local Open Scope ubus_scope.

Section EndToEnd.
Context `{AL : AvlLib} `{PM : ProgMem} `{BL : BlobLib} `{!AvlLaws AL} `{!BlobLaws BL} `{!BlobParseLaws BL} `{PR : !Program}.

(** ** Frames *)

(** The message that the library, and the daemon, read from a frame *)
Definition frame_msg (F : bytes) : ubus_msghdr_buf := mk_msghdr_buf (decode_hdr F) (drop 8 F).

Definition arrived (F : bytes) (u : ubus_msg_buf) : Prop :=
  ub_hdr u = decode_hdr F /\ ub_data u = drop 8 F /\ ub_len u = Z.of_nat (length (ub_data u)).

Lemma image_render seq l cmd peer :
  msg_image seq (blob_render l) cmd peer = encode_hdr (mk_msghdr 0 cmd seq peer) ++ blob_render l.
Proof. unfold msg_image. rewrite take_ge; [done|]. pose proof (blob_render_len l). lia. Qed.

Lemma decode_encode h rest :
  decode_hdr (encode_hdr h ++ rest) =
    mk_msghdr (u8 (hdr_version h)) (u8 (hdr_type h)) (u16 (hdr_seq h)) (u32 (hdr_peer h)).
Proof.
  unfold decode_hdr. assert (take 2 (drop 2 (encode_hdr h ++ rest)) = be16 (hdr_seq h)) as -> by done.
  assert (take 4 (drop 4 (encode_hdr h ++ rest)) = be32 (hdr_peer h)) as -> by done. by rewrite of_be16_be16, of_be32_be32.
Qed.

(** ** Attributes both sides agree on *)

(** The attribute with id [id] is the put [p], under both policies. *)
Lemma found l p (a : ubus_msg_attr) :
  puts_ok l -> p ∈ l -> put_id p = Some (attr_code a) ->
  accepts (lib_policy a) p = true ->
  exists x, msg_attr (blob_render l) a = Some x /\ holds x p.
Proof. intros Hok Hp Hid Hacc. apply blob_parse_found; [done..| |done]. by destruct a. Qed.

Lemma daemon_found l p (a : ubus_msg_attr) :
  puts_ok l -> p ∈ l -> put_id p = Some (attr_code a) ->
  accepts (ubus_policy a) p = true ->
  exists x, ubus_parse_msg (blob_render l) (blob_raw_len (blob_render l)) a = Some x /\ holds x p.
Proof. intros Hok Hp Hid Hacc. apply blob_parse_found; [done..| |done]. by destruct a. Qed.

Lemma absent l (a : ubus_msg_attr) :
  puts_ok l -> attr_code a ∉ omap put_id l -> msg_attr (blob_render l) a = None.
Proof. intros Hok Hni. by apply blob_parse_absent. Qed.
(** ** The messages of a call *)

Ltac solve_puts :=
  split;
  [ repeat (constructor; [eexists; split; [reflexivity|done]|]); done
  | match goal with |- NoDup ?l => let v := eval vm_compute in l in change (NoDup v) end; by apply (bool_decide_unpack _)
  | repeat (constructor; [try done|]); try done
  | cbn [foldr put_len]; unfold strlen in *; lia ].

(** A name that fits, with room for the message's data *)
Definition name_ok (s : string) : Prop := nul_free s = true /\ strlen s < 2 ^ 16.

(** The user or group of a client *)
Definition opt_name_ok (o : option string) : Prop := match o with Some s => name_ok s | None => True end.

Lemma call_puts_ok obj method msg :
  name_ok method -> Z.of_nat (length (blob_data msg)) <= UBUS_MAX_MSGLEN ->
  puts_ok (ubus_put_data [put_int32 UBUS_ATTR_OBJID obj; put_string UBUS_ATTR_METHOD method] (msg_at msg)).
Proof. intros [Hn Hl] Hd. unfold UBUS_MAX_MSGLEN in Hd. cbn [ubus_put_data app]. solve_puts. Qed.

Lemma invoke_puts_ok c id method d :
  name_ok method -> opt_name_ok (cl_user c) -> opt_name_ok (cl_group c) ->
  Z.of_nat (length (blob_data d)) <= UBUS_MAX_MSGLEN -> puts_ok (invoke_puts c id method (Some d)).
Proof.
  intros [Hn Hl] Hu Hg Hd. unfold UBUS_MAX_MSGLEN in Hd. unfold invoke_puts.
  destruct (cl_user c) as [us|], (cl_group c) as [gr|]; cbn [app opt_name_ok] in *.
  all: repeat match goal with H : name_ok _ |- _ => destruct H end; solve_puts.
Qed.

Lemma status_puts_ok ret id : puts_ok [put_int32 UBUS_ATTR_STATUS ret; put_int32 UBUS_ATTR_OBJID id].
Proof. solve_puts. Qed.

(** ** At the callee *)

(** What the daemon tells the callee about the caller *)
Definition caller_key (c : ubus_client) (lo : lib_object) : ubus_acl_key :=
  match cl_user c, cl_group c with
  | Some us, Some gr => mk_acl_key (Some us) (Some gr) (lo_name lo)
  | _, _ => mk_acl_key None None None
  end.

Lemma bind_ret_tt (m : stm ubus_context unit) L : (m;; mret tt) L = m L.
Proof. unfold mbind, stm_bind. by destruct (m L) as [[[] ?]|]. Qed.

Lemma caller_data_run c id method d hdr fd lo L :
  puts_ok (invoke_puts c id method (Some d)) ->
  caller_data hdr fd lo (parsed (blob_render (invoke_puts c id method (Some d))) L) =
    mk_request_data (lo_id lo) (hdr_peer hdr) (hdr_seq hdr) (caller_key c lo) false (-1) fd.
Proof.
  intros Hok. unfold caller_data, caller_key. change (attrbuf (parsed ?x L)) with (msg_attr x).
  assert (match cl_user c with
          | Some us => exists x, msg_attr (blob_render (invoke_puts c id method (Some d))) UBUS_ATTR_USER = Some x /\ blobmsg_get_string x = us
          | None => msg_attr (blob_render (invoke_puts c id method (Some d))) UBUS_ATTR_USER = None end) as Hu.
  { destruct (cl_user c) as [us|] eqn:Eu.
    - destruct (found _ (put_string UBUS_ATTR_USER us) UBUS_ATTR_USER Hok) as (x & Hx & _ & Hs); [|done..|eauto].
      unfold invoke_puts. rewrite Eu. set_solver.
    - apply absent; [done|]. unfold invoke_puts. rewrite Eu. by destruct (cl_group c); apply (bool_decide_unpack _). }
  assert (match cl_group c with
          | Some gr => exists x, msg_attr (blob_render (invoke_puts c id method (Some d))) UBUS_ATTR_GROUP = Some x /\ blobmsg_get_string x = gr
          | None => msg_attr (blob_render (invoke_puts c id method (Some d))) UBUS_ATTR_GROUP = None end) as Hg.
  { destruct (cl_group c) as [gr|] eqn:Eg.
    - destruct (found _ (put_string UBUS_ATTR_GROUP gr) UBUS_ATTR_GROUP Hok) as (x & Hx & _ & Hs); [|done..|eauto].
      unfold invoke_puts. rewrite Eg. set_solver.
    - apply absent; [done|]. unfold invoke_puts. rewrite Eg. by destruct (cl_user c); apply (bool_decide_unpack _). }
  destruct (cl_user c) as [us|]; [destruct Hu as (x & -> & <-)|by rewrite Hu].
  destruct (cl_group c) as [gr|]; [destruct Hg as (y & -> & <-)|rewrite Hg]; done.
Qed.

Lemma callee_side c id method d sq cid fd L q lo m :
  name_ok method -> opt_name_ok (cl_user c) -> opt_name_ok (cl_group c) -> Z.of_nat (length (blob_data d)) <= UBUS_MAX_MSGLEN ->
  ubus_context_is_channel L = false -> ctx_pre_invoke L = None ->
  avl_find (ctx_objects L) (u32 id) = Some q -> c_objs L !! q = Some lo -> ubus_object_find_method lo method = Some m ->
  let F := wire_of (mk_msghdr 0 UBUS_MSG_INVOKE sq cid) (invoke_puts c id method (Some d)) in
  let L' := parsed (drop 8 F) L in
  exists dat, blob_data dat = blob_data d /\
    ubus_process_obj_msg (frame_msg F) false fd L =
      (ret ← call_method_handler (lm_handler m) q (c_brk L') method dat;
       conclude (c_brk L') false ret)
        (with_call (mk_request_data (lo_id lo) (u32 cid) (u16 sq) (caller_key c lo) false (-1) fd) L').
Proof.
  intros Hn Hu Hg Hd Hch Hpre Hfind Ho Hm F L'. pose proof (invoke_puts_ok c id method d Hn Hu Hg Hd) as Hok.
  assert (drop 8 F = blob_render (invoke_puts c id method (Some d))) as Hdata by done.
  destruct (found _ (put_int32 UBUS_ATTR_OBJID id) UBUS_ATTR_OBJID Hok) as (ai & Hai & Hid); [set_solver|done|done|].
  destruct (found _ (put_string UBUS_ATTR_METHOD method) UBUS_ATTR_METHOD Hok) as (am & Ham & Hname & _); [set_solver|done|done|].
  destruct (found _ (put_blob UBUS_ATTR_DATA (blob_data d)) UBUS_ATTR_DATA Hok) as (ad & Had & Hdat);
    [unfold invoke_puts; set_solver|done|done|].
  exists ad. split; [exact Hdat|].
  unfold ubus_process_obj_msg, frame_msg. cbn [mb_hdr mb_data]. cbv zeta.
  assert (decode_hdr F = mk_msghdr 0 UBUS_MSG_INVOKE (u16 sq) (u32 cid)) as -> by apply decode_encode.
  rewrite Hdata. erewrite bind_run by apply parse_run. rewrite Hai. erewrite bind_run by done.
  change (ctx_objects (parsed _ L)) with (ctx_objects L). cbn [holds] in Hid. rewrite Hid, Hfind.
  cbn [hdr_type]. rewrite Z.eqb_refl. erewrite bind_run by done. rewrite bind_ret_tt.
  rewrite <- Hdata. fold L'. cbn [holds] in Hname.
  rewrite (invoke_run L' _ q lo fd am m ad); [|done|done|done|exact Ham|by rewrite Hname|exact Had].
  rewrite Hname. unfold L'. rewrite Hdata, caller_data_run by done. cbn [hdr_peer hdr_seq].
  assert (flag_set (attrbuf (parsed (blob_render (invoke_puts c id method (Some d))) L) UBUS_ATTR_NO_REPLY) = false) as ->; [|done].
  change (attrbuf (parsed ?x L)) with (msg_attr x). rewrite absent; [done|done|].
  unfold invoke_puts. by destruct (cl_user c), (cl_group c); apply (bool_decide_unpack _).
Qed.

(** ** At the caller *)

Lemma caller_side ret id sq hid fd K p r :
  - 2 ^ 31 <= ret < 2 ^ 31 ->
  req_list_ok K -> expecting K (u16 sq) (u32 hid) = Some p -> c_reqs K !! p = Some r -> rq_notify r = false -> fd_kept r fd ->
  let F := wire_of (mk_msghdr 0 UBUS_MSG_STATUS sq hid) [put_int32 UBUS_ATTR_STATUS ret; put_int32 UBUS_ATTR_OBJID id] in
  let K' := parsed (drop 8 F) K in
  let r' := with_status ret (r <| rq_peer := u32 hid |>) in
  ubus_process_req_msg (frame_msg F) fd K =
    match rq_blocked r, rq_complete_cb r with
    | false, Some cb => (call_complete_handler cb p ret;; close_if fd) (finished p (r' <| rq_complete_cb := None |>) K')
    | _, _ => close_if fd (finished p r' K')
    end.
Proof.
  intros Hret HK Hexp Hr Hnot Hfd F K' r'.
  assert (decode_hdr F = mk_msghdr 0 UBUS_MSG_STATUS (u16 sq) (u32 hid)) as Hh by apply decode_encode.
  assert (drop 8 F = blob_render [put_int32 UBUS_ATTR_STATUS ret; put_int32 UBUS_ATTR_OBJID id]) as Hdata by done.
  assert (status_in (drop 8 F) UBUS_STATUS_INVALID_ARGUMENT = ret) as Hst.
  { destruct (found _ (put_int32 UBUS_ATTR_STATUS ret) UBUS_ATTR_STATUS (status_puts_ok ret id)) as (x & Hx & Hv); [set_solver|done|done|].
    unfold status_in. rewrite Hdata, Hx. cbn [holds] in Hv. rewrite Hv. unfold i32, u32.
    rewrite <- Zplus_mod_idemp_l, Z.mod_mod, Zplus_mod_idemp_l, Z.mod_small by lia. lia. }
  pose proof (status_run K (frame_msg F) fd p r HK) as H. unfold frame_msg in H. cbn [mb_hdr mb_data] in H. rewrite Hh in H.
  cbn [hdr_type hdr_seq hdr_peer] in H. rewrite Hst in H. unfold frame_msg. rewrite Hh. by apply H.
Qed.

(** ** The theorem *)

(** C8: A call goes all the way, and so does its answer.  The frame that
    [ubus_invoke_async_fd] puts on the caller's connection makes the daemon, once
    it has arrived as a whole ([arrived]; C19 is about that) and when the rules
    permit the call, append one frame to what the callee will read, unless the
    callee is [refused] more (its connection is being given up, an allocation
    fails, or its queue has no room for the frame); from that frame the callee's
    library calls the handler of the method named by the caller, with
    the caller's data, its client id, and its user and group as the kernel gave
    them to the daemon.  The frame that the callee's library sends for the
    handler's status makes the daemon append one to what the caller will read,
    on the same terms, which completes the waiting request with exactly that
    status.  No monitor is attached (it would be sent a copy first); the callee's
    program has set no [pre_invoke] hook and is not a channel; the caller's
    request is not a notification, and keeps no descriptor for itself
    ([fd_kept]). *)
Theorem call_end_to_end seq obj method msg ret :
  name_ok method -> Z.of_nat (length (blob_data msg)) <= UBUS_MAX_MSGLEN -> - 2 ^ 31 <= ret < 2 ^ 31 ->
  (forall s cl c ub u p o ocl oc L q lo m fd,
    inv idle [ub] s -> h_clients s !! cl = Some c -> h_msgs s !! ub = Some u -> owners (h_clients s) ub = 0%nat -> monitors s = [] ->
    arrived (msg_image seq (blob_render (ubus_put_data [put_int32 UBUS_ATTR_OBJID obj; put_string UBUS_ATTR_METHOD method] (msg_at msg)))
      UBUS_MSG_INVOKE obj) u ->
    ubus_find_id (objects s) (u32 obj) = Some p -> h_objects s !! p = Some o ->
    may_call (bus_of s) cl o method -> obj_client o = Some ocl -> h_clients s !! ocl = Some oc ->
    opt_name_ok (cl_user c) -> opt_name_ok (cl_group c) ->
    ubus_context_is_channel L = false -> ctx_pre_invoke L = None ->
    avl_find (ctx_objects L) (u32 (obj_id o)) = Some q -> c_objs L !! q = Some lo -> method_for lo method (Some m) ->
    exists s' F dat,
      ubusd_handle_invoke cl ub (ubus_parse_msg (ub_data u) (blob_raw_len (ub_data u))) s = Some (-1, s') /\
      delivered s ocl oc F s' /\ blob_data dat = blob_data msg /\
      let L' := parsed (drop 8 F) L in
      ubus_process_obj_msg (frame_msg F) false fd L =
        (ret ← call_method_handler (lm_handler m) q (c_brk L') method dat;
         conclude (c_brk L') false ret)
          (with_call (mk_request_data (lo_id lo) (u32 (cl_id c)) (u16 seq) (caller_key c lo) false (-1) fd) L')) /\
  (forall s cl ub u p o id cid pcl K q r fd,
    inv idle [ub] s -> h_msgs s !! ub = Some u -> owners (h_clients s) ub = 0%nat -> monitors s = [] ->
    arrived (msg_image seq (blob_render [put_int32 UBUS_ATTR_STATUS ret; put_int32 UBUS_ATTR_OBJID id]) UBUS_MSG_STATUS cid) u ->
    ubus_find_id (objects s) (u32 id) = Some p -> h_objects s !! p = Some o -> obj_client o = Some cl ->
    ubus_find_id (clients s) (u32 cid) = Some pcl ->
    req_list_ok K -> expecting K (u16 seq) (u32 id) = Some q -> c_reqs K !! q = Some r -> rq_notify r = false -> fd_kept r fd ->
    exists pc s' F,
      h_clients s !! pcl = Some pc /\
      ubusd_handle_response cl ub (ubus_parse_msg (ub_data u) (blob_raw_len (ub_data u))) s = Some (-1, s') /\
      delivered s pcl pc F s' /\
      let K' := parsed (drop 8 F) K in
      let r' := with_status ret (r <| rq_peer := u32 id |>) in
      ubus_process_req_msg (frame_msg F) fd K =
        match rq_blocked r, rq_complete_cb r with
        | false, Some cb => (call_complete_handler cb q ret;; close_if fd) (finished q (r' <| rq_complete_cb := None |>) K')
        | _, _ => close_if fd (finished q r' K')
        end).
Proof.
  intros Hn Hd Hret. split.
  - intros s cl c ub u p o ocl oc L q lo m fd Hi Hc Hu Hown Hmon (Hh & Hdata & _) Hp Ho Hmay Hocl Hoc Hus Hgr Hch Hpre Hq Hlo Hm%find_method_for.
    rewrite image_render in Hh, Hdata. rewrite decode_encode in Hh.
    set (l := ubus_put_data _ _) in *. assert (ub_data u = blob_render l) as -> by exact Hdata.
    pose proof (call_puts_ok obj method msg Hn Hd) as Hok. fold l in Hok.
    destruct (daemon_found _ (put_int32 UBUS_ATTR_OBJID obj) UBUS_ATTR_OBJID Hok) as (ai & Hai & Hid); [set_solver|done|done|].
    destruct (daemon_found _ (put_string UBUS_ATTR_METHOD method) UBUS_ATTR_METHOD Hok) as (am & Ham & Hname & _); [set_solver|done|done|].
    destruct (daemon_found _ (put_blob UBUS_ATTR_DATA (blob_data msg)) UBUS_ATTR_DATA Hok) as (ad & Had & Hdat); [set_solver|done|done|].
    cbn [holds] in Hid, Hname, Hdat.
    destruct (invoke_permitted s cl c ub u _ am ai p o ocl oc Hi Hc Hu Hown Ham Hai) as (s' & E & Hdel); [by rewrite Hid|done|by rewrite Hname|done..|].
    rewrite Hname, Had in Hdel. eexists s', _.
    destruct (callee_side c (obj_id o) method ad (hdr_seq (ub_hdr u)) (cl_id c) fd L q lo m) as (dat & Hdd & Ep); try done; [by rewrite Hdat|].
    exists dat. split; [exact E|]. split; [exact Hdel|]. split; [congruence|]. cbv zeta. rewrite Ep. rewrite Hh. cbn [hdr_seq].
    assert (u16 (u16 seq) = u16 seq) as -> by (unfold u16; apply Z.mod_mod; lia). done.
  - intros s cl ub u p o id cid pcl K q r fd Hi Hu Hown Hmon (Hh & Hdata & Hlen) Hp Ho Hocl Hpcl HK Hexp Hr Hnot Hfd.
    rewrite image_render in Hh, Hdata. rewrite decode_encode in Hh.
    set (l := [_; _]) in *. assert (ub_data u = blob_render l) as Hdata' by exact Hdata. clear Hdata.
    pose proof (status_puts_ok ret id) as Hok. fold l in Hok.
    destruct (daemon_found _ (put_int32 UBUS_ATTR_OBJID id) UBUS_ATTR_OBJID Hok) as (ai & Hai & Hid); [set_solver|done|done|].
    destruct (daemon_found _ (put_int32 UBUS_ATTR_STATUS ret) UBUS_ATTR_STATUS Hok) as (ast & Hast & _); [set_solver|done|done|].
    cbn [holds] in Hid. rewrite Hdata'.
    destruct (response_forwarded s cl ub u (ubus_parse_msg (blob_render l) (blob_raw_len (blob_render l))) ai p o pcl Hi Hu Hown Hai)
      as (pc & s' & Hpc & E & Hdel); [|by rewrite Hid|done..|by rewrite Hh|].
    { unfold response_complete. rewrite Hast, Hh. done. }
    exists pc, s', (wire_of (mk_msghdr 0 UBUS_MSG_STATUS (u16 seq) (u32 id)) l). split; [done|]. split; [done|]. split.
    + unfold wire in Hdel. cbn [ub_hdr ub_len ub_data] in Hdel. simpl in Hdel. rewrite Hlen, Nat2Z.id, take_ge, Hh, Hid, Hdata' in Hdel by done.
      exact Hdel.
    + assert (u16 (u16 seq) = u16 seq) as E16 by (unfold u16; apply Z.mod_mod; lia).
      assert (u32 (u32 id) = u32 id) as E32 by (unfold u32; apply Z.mod_mod; lia).
      pose proof (caller_side ret id (u16 seq) (u32 id) fd K q r Hret HK) as H. rewrite E16, E32 in H. by apply H.
Qed.
End EndToEnd.

(** ** Witness: root calls joe's object *)

Definition e2e_msg : bytes := blob_render [].
Definition e2e_call : list put :=
  ubus_put_data [put_int32 UBUS_ATTR_OBJID id_foo; put_string UBUS_ATTR_METHOD "hi"] (msg_at e2e_msg).
Definition e2e_answer : list put := [put_int32 UBUS_ATTR_STATUS 4; put_int32 UBUS_ATTR_OBJID id_foo].

(** The daemon with the request, and with the answer in hand *)
Definition e2e_ub : ptr := hand.
Definition st10_call : ubusd := Eval vm_compute in
  match message_in_hand e2e_call UBUS_MSG_INVOKE 1 id_foo st10 with Some (_, s) => s | None => st10 end.
Definition st10_answer : ubusd := Eval vm_compute in
  match message_in_hand e2e_answer UBUS_MSG_STATUS 1 2001 st10 with Some (_, s) => s | None => st10 end.

(** joe's program, and root's, waiting *)
Definition lib_serving : ubus_context :=
  lib_connected <| ctx_objects ::= fun t => snd (avl_insert t id_foo demo_obj) |>.
Definition lib_waiting : ubus_context :=
  after (_ ← ubus_invoke_async id_foo "hi" (msg_at e2e_msg) demo_call_req; ubus_complete_request_async demo_call_req) lib_connected.

Lemma st10_call_ok : inv idle [e2e_ub] st10_call /\ owners (h_clients st10_call) e2e_ub = 0%nat.
Proof. apply (message_in_hand_ok e2e_call UBUS_MSG_INVOKE 1 id_foo). vm_compute. reflexivity. Qed.

Lemma st10_answer_ok : inv idle [e2e_ub] st10_answer /\ owners (h_clients st10_answer) e2e_ub = 0%nat.
Proof. apply (message_in_hand_ok e2e_answer UBUS_MSG_STATUS 1 2001). vm_compute. reflexivity. Qed.

Lemma lib_waiting_ok :
  exists r, c_reqs lib_waiting !! demo_call_req = Some r /\ rq_notify r = false /\ rq_fd_cb r = None /\
    rq_blocked r = false /\ rq_complete_cb r = None /\ req_list_ok lib_waiting.
Proof.
  assert (exists r, c_reqs lib_waiting !! demo_call_req = Some r /\ rq_init r = true /\ rq_notify r = false /\ rq_fd_cb r = None /\
    rq_blocked r = false /\ rq_complete_cb r = None) as (r & Hr & Hi & Hn & Hf & Hb & Hc) by (vm_compute; eexists; split; [reflexivity|done]).
  exists r. split; [exact Hr|]. split; [exact Hn|]. split; [exact Hf|]. split; [exact Hb|]. split; [exact Hc|].
  apply (single_req_ok _ demo_call_req r); [reflexivity|exact Hr|]. split; [exact Hi|congruence].
Qed.

Lemma call_end_to_end_witness :
  (exists c s' F dat, h_clients st10_call !! cl_root = Some c /\
    ubusd_handle_invoke cl_root e2e_ub (ubus_parse_msg (blob_render e2e_call) (blob_raw_len (blob_render e2e_call))) st10_call = Some (-1, s') /\
    blob_data dat = blob_data e2e_msg /\
    ubus_process_obj_msg (frame_msg F) false (-1) lib_serving =
      (ret ← call_method_handler (call_method 0) demo_obj (c_brk lib_serving) "hi" dat;
       conclude (c_brk lib_serving) false ret)
        (with_call (mk_request_data 42 (u32 (cl_id c)) 1 (caller_key c demo_object) false (-1) (-1)) (parsed (drop 8 F) lib_serving))) /\
  (exists r s' F, c_reqs lib_waiting !! demo_call_req = Some r /\
    ubusd_handle_response cl_joe e2e_ub (ubus_parse_msg (blob_render e2e_answer) (blob_raw_len (blob_render e2e_answer))) st10_answer = Some (-1, s') /\
    ubus_process_req_msg (frame_msg F) (-1) lib_waiting =
      close_if (-1) (finished demo_call_req (with_status 4 (r <| rq_peer := id_foo |>)) (parsed (drop 8 F) lib_waiting))).
Proof.
  destruct (call_end_to_end 1 id_foo "hi" e2e_msg 4) as [Hcall Hans]; [split; vm_compute; done|vm_compute; done|lia|]. split.
  - destruct (has_Some (h_clients st10_call !! cl_root)) as [c Hc]; [vm_compute; reflexivity|].
    destruct (has_Some (h_msgs st10_call !! e2e_ub)) as [u Hu]; [vm_compute; reflexivity|].
    destruct (has_Some (h_objects st10_call !! 15%positive)) as [o Ho]; [vm_compute; reflexivity|].
    destruct (has_Some (h_clients st10_call !! cl_joe)) as [j Hj]; [vm_compute; reflexivity|].
    pose proof Ho as Eo. vm_compute in Eo. injection Eo as Eo. pose proof Hc as Ec. vm_compute in Ec. injection Ec as Ec.
    pose proof Hu as Eu. vm_compute in Eu. injection Eu as Eu.
    destruct (Hcall st10_call cl_root c e2e_ub u 15%positive o cl_joe j lib_serving demo_obj demo_object
      (mk_lib_method (Some "hi"%string) (call_method 0) 0 []) (-1) (proj1 st10_call_ok) Hc Hu (proj2 st10_call_ok)) as (s' & F & dat & E & _ & Hdat & EL).
    + reflexivity.
    + rewrite <- Eu. vm_compute. done.
    + vm_compute. reflexivity.
    + exact Ho.
    + rewrite <- Eo. simpl. exists (cred_of c). split; [exact (bus_user st10_call cl_root c Hc)|]. left. rewrite <- Ec. reflexivity.
    + rewrite <- Eo. reflexivity.
    + exact Hj.
    + rewrite <- Ec. split; vm_compute; done.
    + rewrite <- Ec. split; vm_compute; done.
    + reflexivity.
    + reflexivity.
    + rewrite <- Eo. vm_compute. reflexivity.
    + vm_compute. reflexivity.
    + apply find_method_for. vm_compute. reflexivity.
    + exists c, s', F, dat. rewrite <- Eu in E. split; [exact Hc|]. split; [exact E|]. split; [exact Hdat|exact EL].
  - destruct (has_Some (h_msgs st10_answer !! e2e_ub)) as [u Hu]; [vm_compute; reflexivity|].
    destruct (has_Some (h_objects st10_answer !! 15%positive)) as [o Ho]; [vm_compute; reflexivity|].
    pose proof Ho as Eo. vm_compute in Eo. injection Eo as Eo. pose proof Hu as Eu. vm_compute in Eu. injection Eu as Eu.
    destruct lib_waiting_ok as (r & Hr & Hn & Hf & Hb & Hcb & Hok).
    destruct (Hans st10_answer cl_joe e2e_ub u 15%positive o id_foo 2001 cl_root lib_waiting demo_call_req r (-1)
      (proj1 st10_answer_ok) Hu (proj2 st10_answer_ok)) as (pc & s' & F & _ & E & _ & EK).
    + reflexivity.
    + rewrite <- Eu. vm_compute. done.
    + vm_compute. reflexivity.
    + exact Ho.
    + rewrite <- Eo. reflexivity.
    + vm_compute. reflexivity.
    + exact Hok.
    + vm_compute. reflexivity.
    + exact Hr.
    + exact Hn.
    + right. exact Hf.
    + exists r, s', F. rewrite <- Eu in E. split; [exact Hr|]. split; [exact E|]. cbv zeta in EK. rewrite Hb, Hcb in EK. exact EK.
Defined.
