(* ===== verification/BlobMsg.v ===== *)
(** * Messages of named fields

    The part of libubox's [blobmsg.h] by which programs exchange data: a message
    is a sequence of named, typed fields, and a field may be a table or an array
    of fields.  [BlobWalk] is the loop over raw attributes; [BlobMsgLaws] states
    that a message that has been built is read back as it was. *)

From stdpp Require Import base strings list.
From Stdlib Require Import ZArith Lia.
From S2P Require Import Prelude Wire Cstring Libubox.
Local Open Scope Z_scope.

(** [__blob_for_each_attr(pos, data, len)] over the bytes [data] *)
Class BlobWalk := { blob_walk : bytes -> list bytes }.

(** [cpu_to_be64], [be64_to_cpu] *)
Definition be64 (z : Z) : bytes := be32 (z / 2 ^ 32) ++ be32 z.
Definition of_be64 (bs : bytes) : Z := of_be32 (take 4 bs) * 2 ^ 32 + of_be32 (take 4 (drop 4 bs)).
Definition u64 (z : Z) : Z := z mod 2 ^ 64.

Lemma of_be64_be64 z : of_be64 (be64 z) = u64 z.
Proof.
  unfold of_be64, be64, u64. change (take 4 (be32 ?a ++ ?b)) with (be32 a). change (take 4 (drop 4 (be32 ?a ++ ?b))) with b.
  rewrite !of_be32_be32. unfold u32. change (2 ^ 64) with (2 ^ 32 * 2 ^ 32). rewrite Z.rem_mul_r by lia. lia.
Qed.

(** ** Fields *)

Definition field_name (p : put) : option string :=
  match p with
  | msg_u32 n _ | msg_string n _ | msg_field _ n _ | msg_array n _ => Some n
  | msg_table n _ => Some (default EmptyString n)
  | _ => None
  end.

Definition field_type (p : put) : blobmsg_type_t :=
  match p with
  | msg_u32 _ _ => BLOBMSG_TYPE_INT32
  | msg_string _ _ => BLOBMSG_TYPE_STRING
  | msg_field ty _ _ => ty
  | msg_table _ _ => BLOBMSG_TYPE_TABLE
  | msg_array _ _ => BLOBMSG_TYPE_ARRAY
  | _ => BLOBMSG_TYPE_UNSPEC
  end.

(** How many bytes a plain field of this type has *)
Definition type_width (t : blobmsg_type_t) : option nat :=
  match t with
  | BLOBMSG_TYPE_INT8 => Some 1%nat
  | BLOBMSG_TYPE_INT16 => Some 2%nat
  | BLOBMSG_TYPE_INT32 => Some 4%nat
  | BLOBMSG_TYPE_INT64 | BLOBMSG_TYPE_DOUBLE => Some 8%nat
  | _ => None
  end.

(** A field that a reader accepts: a name of less than 2^16 characters, a string
    without NUL, a number of the width of its type, a table or array of such
    fields *)
Fixpoint field_ok (p : put) : bool :=
  match field_name p with
  | None => false
  | Some n =>
      nul_free n && (strlen n <? 2 ^ 16) &&
      match p with
      | msg_string _ s => nul_free s
      | msg_field ty _ payload => bool_decide (type_width ty = Some (length payload))
      | msg_table _ l | msg_array _ l => forallb field_ok l
      | _ => true
      end
  end.

(** A bound of its length in a buffer, with its header and padding *)
Fixpoint field_len (p : put) : Z :=
  strlen (default EmptyString (field_name p)) + 16 +
  match p with
  | msg_u32 _ _ => 4
  | msg_string _ s => strlen s + 1
  | msg_field _ _ payload => Z.of_nat (length payload)
  | msg_table _ l | msg_array _ l => foldr Z.add 0 (List.map field_len l)
  | _ => 0
  end.

(** Fields that fit one buffer *)
Definition fields_ok (l : list put) : Prop :=
  forallb field_ok l = true /\ 4 + foldr Z.add 0 (List.map field_len l) < 2 ^ 24.

(** What the accessors yield for a field *)
Inductive field_holds `{BL : BlobLib} `{BW : BlobWalk} : put -> bytes -> Prop :=
  | holds_u32 a n v :
      blobmsg_check_attr a false = true -> blobmsg_type a = BLOBMSG_TYPE_INT32 -> blobmsg_name a = n ->
      blobmsg_data a = be32 v -> blobmsg_get_u32 a = u32 v ->
      field_holds (msg_u32 n v) a
  | holds_string a n s :
      blobmsg_check_attr a false = true -> blobmsg_type a = BLOBMSG_TYPE_STRING -> blobmsg_name a = n ->
      blobmsg_data a = c_bytes s -> blobmsg_get_string a = s ->
      field_holds (msg_string n s) a
  | holds_field a ty n payload :
      blobmsg_check_attr a false = true -> blobmsg_type a = ty -> blobmsg_name a = n -> blobmsg_data a = payload ->
      field_holds (msg_field ty n payload) a
  | holds_table a n l :
      blobmsg_check_attr a false = true -> blobmsg_type a = BLOBMSG_TYPE_TABLE -> blobmsg_name a = default EmptyString n ->
      Forall2 field_holds l (blob_walk (blobmsg_data a)) ->
      field_holds (msg_table n l) a
  | holds_array a n l :
      blobmsg_check_attr a false = true -> blobmsg_type a = BLOBMSG_TYPE_ARRAY -> blobmsg_name a = n ->
      Forall2 field_holds l (blob_walk (blobmsg_data a)) ->
      field_holds (msg_array n l) a.

(** A message is read back field by field, and by the names of its fields. *)
Class BlobMsgLaws (BL : BlobLib) (BW : BlobWalk) : Prop := {
  msg_walk : forall l, fields_ok l -> Forall2 field_holds l (blob_walk (blob_data (blob_render l)));
  msg_parse_found : forall l p n,
    fields_ok l -> NoDup (omap field_name l) -> p ∈ l -> field_name p = Some n ->
    exists a, blobmsg_parse (blob_data (blob_render l)) n (field_type p) = Some a /\ field_holds p a;
  msg_parse_absent : forall l n t,
    fields_ok l -> n ∉ omap field_name l -> blobmsg_parse (blob_data (blob_render l)) n t = None;
}.

(** Induction over nested calls *)
Definition sub_puts (p : put) : list put :=
  match p with put_nest _ l | msg_table _ l | msg_array _ l => l | _ => [] end.

Lemma put_nested_ind (P : put -> Prop) : (forall p, Forall P (sub_puts p) -> P p) -> forall p, P p.
Proof. intros H. fix IH 1. intros p. apply H. destruct p; simpl; try constructor; induction l; by constructor. Qed.

Lemma field_len_nonneg p : 0 <= field_len p.
Proof.
  induction p as [p IH] using put_nested_ind.
  assert (0 <= foldr Z.add 0 (List.map field_len (sub_puts p))) as Hl by (induction IH; simpl; lia).
  destruct p; cbn [field_len field_name default from_option sub_puts] in *; unfold strlen; lia.
Qed.

Lemma fields_len_nonneg l : 0 <= foldr Z.add 0 (List.map field_len l).
Proof. induction l as [|p l IH]; [done|]. simpl. pose proof (field_len_nonneg p). lia. Qed.

(** Reading one field of a message *)
Lemma msg_u32_found `{BL : BlobLib} `{BW : BlobWalk} `{!BlobMsgLaws BL BW} l n v :
  fields_ok l -> NoDup (omap field_name l) -> msg_u32 n v ∈ l ->
  exists a, blobmsg_parse (blob_data (blob_render l)) n BLOBMSG_TYPE_INT32 = Some a /\ blobmsg_get_u32 a = u32 v.
Proof.
  intros Hok Hnd Hin. destruct (msg_parse_found l (msg_u32 n v) n Hok Hnd Hin eq_refl) as (a & Ha & Hh).
  exists a. split; [done|]. by inversion Hh.
Qed.

Lemma msg_string_found `{BL : BlobLib} `{BW : BlobWalk} `{!BlobMsgLaws BL BW} l n s :
  fields_ok l -> NoDup (omap field_name l) -> msg_string n s ∈ l ->
  exists a, blobmsg_parse (blob_data (blob_render l)) n BLOBMSG_TYPE_STRING = Some a /\ blobmsg_get_string a = s.
Proof.
  intros Hok Hnd Hin. destruct (msg_parse_found l (msg_string n s) n Hok Hnd Hin eq_refl) as (a & Ha & Hh).
  exists a. split; [done|]. by inversion Hh.
Qed.
