(* ===== verification/BlobMsgModel.v ===== *)
(** * Messages of named fields as bytes

    The instance of [LibuboxModel.v] satisfies the laws of [BlobMsg.v]. *)

From stdpp Require Import base strings list.
From Stdlib Require Import ZArith Lia.
From S2P Require Import Prelude Wire Cstring Libubox LibuboxModel BlobMsg.
Local Open Scope Z_scope.

#[export] Instance byte_walk : BlobWalk := {| blob_walk := attrs_of |}.

(** ** A field in a buffer *)

Definition fname (p : put) : string := default EmptyString (field_name p).

Definition field_data (p : put) : bytes :=
  match p with
  | msg_u32 _ v => be32 v
  | msg_string _ s => c_bytes s
  | msg_field _ _ payload => payload
  | msg_table _ l | msg_array _ l => concat (List.map enc l)
  | _ => []
  end.

(** The field as a parser cuts it out, without its padding *)
Definition name_part (n : string) : bytes := padded (be16 (strlen n) ++ c_bytes n).
Definition item (p : put) : bytes :=
  let body := name_part (fname p) ++ field_data p in
  attr_hdr 1 (msg_code_of (field_type p)) (4 + Z.of_nat (length body)) ++ body.

Lemma enc_item p : is_Some (field_name p) -> enc p = padded (item p).
Proof. destruct p; simpl; try done; by intros []. Qed.

Lemma length_c_bytes s : Z.of_nat (length (c_bytes s)) = strlen s + 1.
Proof. unfold c_bytes, strlen. rewrite length_app, length_string_bytes. simpl. lia. Qed.

Lemma length_padded bs : (length bs <= length (padded bs) <= length bs + 3)%nat.
Proof. unfold padded. rewrite length_app, length_replicate. pose proof (pad4_le (length bs)). lia. Qed.

Lemma length_item p : length (item p) = (4 + length (name_part (fname p)) + length (field_data p))%nat.
Proof. unfold item. cbv zeta. rewrite !length_app. change (length (attr_hdr _ _ _)) with 4%nat. lia. Qed.

Lemma length_enc_le p : is_Some (field_name p) -> field_ok p = true -> Z.of_nat (length (enc p)) <= field_len p.
Proof.
  induction p as [p IH] using put_nested_ind. intros Hn Hok.
  assert (Z.of_nat (length (field_data p)) + 16 + strlen (fname p) <= field_len p) as Hd.
  { assert (forall l, Forall (fun p => is_Some (field_name p) -> field_ok p = true -> Z.of_nat (length (enc p)) <= field_len p) l ->
      forallb field_ok l = true -> Z.of_nat (length (concat (List.map enc l))) <= foldr Z.add 0 (List.map field_len l)) as Hl.
    { induction 1 as [|q l Hq Hl IHl]; [done|]. simpl. intros [Hok1 Hok2]%andb_prop. rewrite length_app.
      specialize (IHl Hok2). enough (Z.of_nat (length (enc q)) <= field_len q) by lia. apply Hq; [|done].
      destruct (field_name q) eqn:E; [done|]. destruct q; discriminate. }
    destruct p; cbn [field_data field_len fname field_name default from_option sub_puts field_ok] in *; unfold fname; cbn [field_name default from_option];
      rewrite ?length_c_bytes, ?length_be32; try lia.
    all: apply andb_prop in Hok as [_ Hok]; specialize (Hl _ IH Hok); unfold strlen in *; lia. }
  rewrite (enc_item p Hn). pose proof (length_padded (item p)) as Hp. rewrite length_item in Hp.
  pose proof (length_padded (be16 (strlen (fname p)) ++ c_bytes (fname p))) as Hq. rewrite length_app in Hq. change (length (be16 _)) with 2%nat in Hq.
  pose proof (length_c_bytes (fname p)). unfold name_part in *. lia.
Qed.

Lemma item_hdr p rest :
  Z.of_nat (length (item p)) < 2 ^ 24 ->
  hdr_len (item p ++ rest) = Z.of_nat (length (item p)) /\
  attr_id (item p ++ rest) = msg_code_of (field_type p) /\ extended (item p ++ rest) = true.
Proof.
  intros Hn. pose proof (length_item p) as Hl. rewrite Hl in *. unfold item. cbv zeta. set (body := name_part _ ++ _).
  assert (length body = (length (name_part (fname p)) + length (field_data p))%nat) as Hb by (unfold body; by rewrite length_app).
  assert (0 <= msg_code_of (field_type p) < 2 ^ 4) as Hc by (destruct (field_type p); simpl; lia).
  unfold hdr_len, attr_id, extended, attr_hdr. rewrite <- app_assoc. change (take 4 (be32 ?z ++ ?r)) with (be32 z).
  set (c := msg_code_of _) in *. set (n := Z.of_nat (length body)).
  replace (1 * 2 ^ 31 + c * 2 ^ 24 + (4 + n)) with ((4 + n) + (2 ^ 7 + c) * 2 ^ 24) by lia.
  rewrite of_be32_be32, u32_small by lia. rewrite Z.mod_add, Z.div_add, (Z.mod_small (4 + n)), (Z.div_small (4 + n)), Z.add_0_l by lia.
  split; [lia|]. split; [|apply Z.leb_le; lia]. rewrite <- Zplus_mod_idemp_l. change (2 ^ 7 mod 2 ^ 7) with 0.
  rewrite Z.add_0_l. apply Z.mod_small. lia.
Qed.

Lemma item_payload p : Z.of_nat (length (item p)) < 2 ^ 24 -> payload (item p) = name_part (fname p) ++ field_data p.
Proof.
  intros Hn. destruct (item_hdr p [] Hn) as [Hh _]. rewrite app_nil_r in Hh. unfold payload. rewrite Hh, Nat2Z.id.
  unfold item. cbv zeta. set (body := _ ++ field_data p). rewrite length_app. change (length (attr_hdr _ _ _)) with 4%nat.
  change (drop 4 (attr_hdr _ _ ?z ++ body)) with body. by rewrite take_ge by lia.
Qed.

Lemma bytes_string_exact s rest : nul_free s = true -> bytes_string (take (String.length s) (string_bytes s ++ rest)) = s.
Proof.
  revert rest. induction s as [|c s IH]; intros rest; [done|]. simpl. intros [Hc Hs]%andb_prop.
  apply negb_true_iff in Hc. rewrite Hc, (IH _ Hs). unfold char_code. by rewrite N2Z.id, Ascii.ascii_N_embedding.
Qed.

Lemma item_accessors p :
  Z.of_nat (length (item p)) < 2 ^ 24 -> nul_free (fname p) = true -> strlen (fname p) < 2 ^ 16 ->
  msg_name (item p) = fname p /\ msg_payload (item p) = field_data p.
Proof.
  intros Hn Hf Hs. unfold msg_name, msg_payload. destruct (item_hdr p [] Hn) as (_ & _ & Hx). rewrite app_nil_r in Hx.
  rewrite Hx, item_payload by done. unfold name_part, padded. set (n := fname p) in *.
  assert (length (be16 (strlen n) ++ c_bytes n) = (String.length n + 3)%nat) as Hl.
  { rewrite length_app. change (length (be16 _)) with 2%nat. unfold c_bytes. rewrite length_app, length_string_bytes. simpl. lia. }
  rewrite Hl. rewrite <- !app_assoc. change (take 2 (be16 ?z ++ ?r)) with (be16 z). change (drop 2 (be16 ?z ++ ?r)) with r.
  rewrite of_be16_be16. unfold u16. rewrite Z.mod_small by (unfold strlen in *; lia). unfold strlen. rewrite Nat2Z.id. split.
  - unfold c_bytes. rewrite <- app_assoc. by apply bytes_string_exact.
  - rewrite !app_assoc. apply drop_app_length'. rewrite length_app, length_replicate. fold (strlen n). by rewrite Hl.
Qed.

(** ** Walking over a message *)

Lemma split_items fuel l :
  Forall (fun p => is_Some (field_name p) /\ Z.of_nat (length (item p)) < 2 ^ 24) l ->
  (length (concat (List.map enc l)) <= fuel)%nat ->
  split_attrs fuel (concat (List.map enc l)) = item <$> l.
Proof.
  revert l. induction fuel as [|fuel IH]; intros l Hl Hf.
  - destruct l as [|p l]; [done|]. exfalso. apply Forall_cons in Hl as [[Hn _] _]. simpl in Hf. rewrite (enc_item p Hn), length_app in Hf.
    pose proof (length_padded (item p)). rewrite length_item in *. lia.
  - destruct l as [|p l]; [done|]. apply Forall_cons in Hl as [[Hn Hp] Hl]. cbn [List.map concat] in *. rewrite (enc_item p Hn) in *.
    set (rest := concat _) in *. unfold padded in *. rewrite <- app_assoc in *. set (tl := replicate _ 0 ++ rest) in *.
    destruct (item_hdr p tl Hp) as (Hh & _). cbn [split_attrs]. rewrite Hh, Nat2Z.id.
    pose proof (length_item p) as Hli. rewrite !length_app in *.
    rewrite (proj2 (Nat.ltb_ge _ 4)), (proj2 (Nat.ltb_ge (length (item p)) 4)), (proj2 (Nat.ltb_ge _ (length (item p)))) by lia.
    cbn [orb]. rewrite take_app_length, fmap_cons. f_equal.
    rewrite <- drop_drop, drop_app_length. unfold tl. rewrite drop_app_length' by (by rewrite length_replicate).
    apply IH; [done|]. unfold tl in Hf. rewrite length_app in Hf. fold rest. lia.
Qed.

Lemma item_le_enc p : is_Some (field_name p) -> (length (item p) <= length (enc p))%nat.
Proof. intros Hn. rewrite (enc_item p Hn). apply length_padded. Qed.

Lemma field_ok_name p : field_ok p = true ->
  is_Some (field_name p) /\ nul_free (fname p) = true /\ strlen (fname p) < 2 ^ 16.
Proof.
  unfold fname. destruct p; cbn [field_ok field_name]; try done; intros [[? ?%Z.ltb_lt]%andb_prop _]%andb_prop; by eauto.
Qed.

Lemma fields_sized l : forallb field_ok l = true -> foldr Z.add 0 (List.map field_len l) < 2 ^ 24 ->
  Forall (fun p => is_Some (field_name p) /\ Z.of_nat (length (item p)) < 2 ^ 24) l.
Proof.
  induction l as [|p l IH]; [constructor|]. cbn [forallb List.map foldr]. intros [Hp Hl]%andb_prop Hlen.
  pose proof (field_len_nonneg p). pose proof (fields_len_nonneg l). destruct (field_ok_name p Hp) as [Hn _].
  pose proof (length_enc_le p Hn Hp). pose proof (item_le_enc p Hn). constructor; [split; [done|lia]|]. apply IH; [done|lia].
Qed.

Lemma msg_type_of_code t : msg_type_of (msg_code_of t) = t.
Proof. by destruct t. Qed.

Lemma item_holds p : field_ok p = true -> field_len p < 2 ^ 24 -> field_holds p (item p).
Proof.
  induction p as [p IH] using put_nested_ind. intros Hok Hlen.
  destruct (field_ok_name p Hok) as (Hn & Hnul & Hlong).
  assert (Z.of_nat (length (item p)) < 2 ^ 24) as Hi by (pose proof (length_enc_le p Hn Hok); pose proof (item_le_enc p Hn); lia).
  destruct (item_hdr p [] Hi) as (_ & Hid & Hx). rewrite app_nil_r in Hid, Hx.
  destruct (item_accessors p Hi Hnul Hlong) as [Hname Hdata].
  assert (msg_type_of (attr_id (item p)) = field_type p) as Hty by (rewrite Hid; apply msg_type_of_code).
  assert (forall l, sub_puts p = l -> field_data p = concat (List.map enc l) -> forallb field_ok l = true ->
      foldr Z.add 0 (List.map field_len l) < 2 ^ 24 -> Forall2 field_holds l (attrs_of (msg_payload (item p)))) as Hsub.
  { intros l Hl Hd Hokl Hroom. rewrite Hdata, Hd. unfold attrs_of. rewrite split_items; [|by apply fields_sized|done].
    rewrite Hl in IH. clear -IH Hokl Hroom. induction IH as [|q l Hq Hl IHl]; [constructor|]. simpl in *.
    apply andb_prop in Hokl as [Ho1 Ho2]. pose proof (field_len_nonneg q). pose proof (fields_len_nonneg l).
    constructor; [apply Hq; [done|lia]|apply IHl; [done|lia]]. }
  destruct p; simpl in Hn; try (by destruct Hn); cbn [field_type field_data] in Hty, Hdata.
  - apply holds_u32; [done..|]. cbn -[item]. rewrite Hdata. apply of_be32_be32.
  - apply holds_string; [done..|]. cbn -[item]. rewrite Hdata. apply bytes_string_c.
    cbn [field_ok] in Hok. by apply andb_prop in Hok as [_ ?].
  - by apply holds_field.
  - cbn [field_ok field_len] in Hok, Hlen. apply andb_prop in Hok as [_ Hok]. apply holds_table; [done..|]. apply Hsub; [done..|]. unfold strlen in *; lia.
  - cbn [field_ok field_len] in Hok, Hlen. apply andb_prop in Hok as [_ Hok]. apply holds_array; [done..|]. apply Hsub; [done..|]. unfold strlen in *; lia.
Qed.

Lemma items_hold l : forallb field_ok l = true -> foldr Z.add 0 (List.map field_len l) < 2 ^ 24 ->
  Forall2 field_holds l (item <$> l).
Proof.
  induction l as [|p l IH]; [constructor|]. simpl. intros [Hp Hl]%andb_prop Hlen.
  pose proof (field_len_nonneg p). pose proof (fields_len_nonneg l).
  constructor; [apply item_holds; [done|lia]|apply IH; [done|lia]].
Qed.

Lemma append_fields len l :
  forallb field_ok l = true -> 0 <= len -> len + foldr Z.add 0 (List.map field_len l) < 2 ^ 24 ->
  append_fitting len l = concat (List.map enc l).
Proof.
  revert len. induction l as [|p l IH]; intros len; [done|]. simpl. intros [Hp Hl]%andb_prop Hlen Hroom.
  destruct (field_ok_name p Hp) as [Hn _]. pose proof (length_enc_le p Hn Hp). pose proof (fields_len_nonneg l).
  rewrite (proj2 (Z.ltb_lt _ _)) by lia. f_equal. apply IH; [done|lia|lia].
Qed.

Lemma walk_render l : fields_ok l -> attrs_of (payload (render l)) = item <$> l.
Proof.
  intros [Hok Hroom]. pose proof (append_fields 4 l Hok) as Ha. unfold payload. rewrite hdr_len_render. unfold render.
  rewrite Ha by lia. set (body := concat _). change (drop 4 (be32 ?n ++ body)) with body. rewrite take_ge by lia.
  apply split_items; [|done]. apply fields_sized; [done|lia].
Qed.

Lemma filter_named (n : string) (t : blobmsg_type_t) l :
  forallb field_ok l = true -> foldr Z.add 0 (List.map field_len l) < 2 ^ 24 ->
  List.filter (fun a => bool_decide (msg_name a = n) && bool_decide (msg_type_of (attr_id a) = t)) (item <$> l) =
  item <$> List.filter (fun p => bool_decide (fname p = n) && bool_decide (field_type p = t)) l.
Proof.
  induction l as [|p l IH]; [done|]. cbn [forallb List.map foldr]. intros [Hp Hl]%andb_prop Hlen.
  pose proof (field_len_nonneg p). pose proof (fields_len_nonneg l). destruct (field_ok_name p Hp) as (Hn & Hnul & Hlong).
  assert (Z.of_nat (length (item p)) < 2 ^ 24) as Hi by (pose proof (length_enc_le p Hn Hp); pose proof (item_le_enc p Hn); lia).
  destruct (item_hdr p [] Hi) as (_ & Hid & _). rewrite app_nil_r in Hid. destruct (item_accessors p Hi Hnul Hlong) as [Hname _].
  rewrite fmap_cons. cbn [List.filter]. rewrite Hname, Hid, msg_type_of_code, IH by (done || lia).
  by destruct (bool_decide (fname p = n) && _).
Qed.

Lemma filter_absent n t l :
  forallb field_ok l = true -> n ∉ omap field_name l ->
  List.filter (fun p => bool_decide (fname p = n) && bool_decide (field_type p = t)) l = [].
Proof.
  induction l as [|p l IH]; [done|]. cbn [forallb List.filter]. intros [Hp Hl]%andb_prop Hni.
  destruct (field_ok_name p Hp) as ([m Hm] & _). simpl in Hni. rewrite Hm in Hni. apply not_elem_of_cons in Hni as [Hne Hni].
  rewrite bool_decide_eq_false_2 by (unfold fname; rewrite Hm; simpl; congruence). by apply IH.
Qed.

#[export] Instance byte_blob_msg_laws : BlobMsgLaws byte_blob byte_walk.
Proof.
  split.
  - intros l Hok. cbn [blob_walk byte_walk blob_data blob_render byte_blob]. rewrite walk_render by done.
    destruct Hok. apply items_hold; [done|lia].
  - intros l p n Hok Hnd Hin Hn. exists (item p). cbn [blobmsg_parse blob_data blob_render byte_blob]. rewrite walk_render by done.
    destruct Hok as [Hok Hroom]. rewrite filter_named by (done || lia). apply list_elem_of_split in Hin as (l1 & l2 & ->).
    rewrite omap_app in Hnd. simpl in Hnd. rewrite Hn in Hnd. apply NoDup_app in Hnd as (_ & Hd & Hnd). apply NoDup_cons in Hnd as [Hd2 _].
    rewrite forallb_app in Hok. simpl in Hok. apply andb_prop in Hok as [Ho1 [Hop Ho2]%andb_prop].
    rewrite List.filter_app. cbn [List.filter]. rewrite (filter_absent n _ l1), (filter_absent n _ l2); [|done..|intros Hin; by apply (Hd n Hin); left].
    rewrite !bool_decide_eq_true_2 by (done || (unfold fname; by rewrite Hn)). split; [done|].
    apply item_holds; [done|]. rewrite List.map_app, foldr_app in Hroom. simpl in Hroom.
    pose proof (fields_len_nonneg l2). clear -Hroom H. revert Hroom. induction l1 as [|q l1 IH]; simpl; intros; [lia|].
    pose proof (field_len_nonneg q). apply IH. lia.
  - intros l n t Hok Hni. cbn [blobmsg_parse blob_data blob_render byte_blob]. rewrite walk_render by done. destruct Hok as [Hok Hroom].
    rewrite filter_named by (done || lia). by rewrite filter_absent.
Qed.
