(* ===== verification/Count.v ===== *)
(** * The counting text of the examples: [src/examples/count.c]

    [count_to_number] runs over the numbers twice: first to add up the size of
    the text, then to write it into the buffer of that size.  The theorem relates
    both runs to the text itself. *)

From stdpp Require Import base strings list pretty.
From Stdlib Require Import ZArith Lia Ascii.
From S2P Require Import Prelude Cstring Libubox.
Local Open Scope Z_scope.

(** ** The code *)

Definition NUL : ascii := ascii_of_nat 0.
Fixpoint chars (s : string) : list ascii := match s with EmptyString => [] | String c s => c :: chars s end.

(** What [sprintf] makes of the format "%u " *)
Definition fmt_number (i : Z) : string := pretty (u32 i) +:+ " ".

Definition new_line : string := String (ascii_of_nat 10) EmptyString.

(** [i > 0 && i % new_line_every_n_numbers == 0] *)
Definition line_full (i : Z) : bool := (0 <? i) && (i mod 30 =? 0).

(** One turn of the first loop *)
Definition size_step (size i : Z) : Z :=
  let size := u32 (size + strlen (fmt_number i)) in
  if line_full i then u32 (size + 1) else size.

Definition count_size (num : Z) : Z := u32 (foldl size_step 0 (seqZ 0 num) + 1).

(** [sprintf(&s[ptr], ...)] with that output: undefined outside the buffer *)
Definition sprintf_at (s : list ascii) (ptr : Z) (text : string) : option (list ascii) :=
  let p := Z.to_nat ptr in
  let q := (p + String.length text + 1)%nat in
  if (q <=? length s)%nat then Some (take p s ++ chars text ++ NUL :: drop q s) else None.

(** The second loop *)
Fixpoint write_loop (l : list Z) (s : list ascii) (ptr : Z) : option (list ascii) :=
  match l with
  | [] => Some s
  | i :: l =>
      s ← sprintf_at s ptr (fmt_number i);
      let ptr := u32 (ptr + strlen (fmt_number i)) in
      if line_full i then
        s ← sprintf_at s ptr new_line;
        write_loop l s (u32 (ptr + 1))
      else write_loop l s ptr
  end.

(** [count_to_number] once [calloc] has succeeded: the buffer *)
Definition count_buffer (num : Z) : option (list ascii) :=
  write_loop (seqZ 0 num) (replicate (Z.to_nat (count_size num)) NUL) 0.

(** The string at the start of a buffer *)
Fixpoint cstr (s : list ascii) : string :=
  match s with
  | [] => EmptyString
  | c :: s => if bool_decide (c = NUL) then EmptyString else String c (cstr s)
  end.

(** ** The text *)

Definition piece (i : Z) : string := fmt_number i +:+ (if line_full i then new_line else EmptyString).
Definition text_of (l : list Z) : string := foldr (fun i text => piece i +:+ text) EmptyString l.
Definition count_text (num : Z) : string := text_of (seqZ 0 num).

Lemma string_length_app s t : String.length (s +:+ t) = (String.length s + String.length t)%nat.
Proof. induction s as [|c s IH]; [done|]. simpl. by f_equal. Qed.

Lemma strlen_app s t : strlen (s +:+ t) = strlen s + strlen t.
Proof. unfold strlen. rewrite string_length_app. lia. Qed.

Lemma chars_app s t : chars (s +:+ t) = chars s ++ chars t.
Proof. induction s as [|c s IH]; [done|]. simpl. by f_equal. Qed.

Lemma length_chars s : length (chars s) = String.length s.
Proof. induction s as [|c s IH]; [done|]. simpl. by f_equal. Qed.

Lemma strlen_piece i : strlen (piece i) = strlen (fmt_number i) + (if line_full i then 1 else 0).
Proof. unfold piece. rewrite strlen_app. by destruct (line_full i). Qed.

Lemma size_step_piece size i : size_step size i = u32 (size + strlen (piece i)).
Proof.
  unfold size_step. rewrite strlen_piece. unfold u32. destruct (line_full i); [|by rewrite Z.add_0_r].
  by rewrite Zplus_mod_idemp_l, Z.add_assoc.
Qed.

Lemma size_loop l size : u32 (foldl size_step size l) = u32 (size + strlen (text_of l)).
Proof.
  revert size. induction l as [|i l IH]; intros size; simpl; [by rewrite Z.add_0_r|].
  rewrite IH, size_step_piece, strlen_app. unfold u32. by rewrite Zplus_mod_idemp_l, Z.add_assoc.
Qed.

Lemma count_size_text num : count_size num = u32 (strlen (count_text num) + 1).
Proof. unfold count_size, u32. rewrite <- Zplus_mod_idemp_l. fold (u32 (foldl size_step 0 (seqZ 0 num))). rewrite size_loop. apply Zplus_mod_idemp_l. Qed.

(** ** Writing *)

(** The buffer after some text has been written *)
Definition filled (t : string) (room : nat) : list ascii := chars t ++ replicate room NUL.

Lemma sprintf_filled t room text :
  sprintf_at (filled t room) (strlen t) text =
    if (String.length text <? room)%nat then Some (filled (t +:+ text) (room - String.length text)) else None.
Proof.
  unfold sprintf_at, filled, strlen. rewrite Nat2Z.id, length_app, length_chars, length_replicate.
  destruct (Nat.leb_spec (String.length t + String.length text + 1) (String.length t + room)), (Nat.ltb_spec (String.length text) room);
    try lia; [|done].
  f_equal. rewrite chars_app, <- app_assoc. rewrite take_app_length', drop_app_ge by (rewrite length_chars; lia). do 2 f_equal.
  rewrite length_chars, drop_replicate. replace (room - String.length text)%nat with (S (room - String.length text - 1)) by lia.
  simpl. do 2 f_equal. lia.
Qed.

Lemma string_app_assoc (s t u : string) : s +:+ (t +:+ u) = (s +:+ t) +:+ u.
Proof. induction s as [|c s IH]; [done|]. exact (f_equal (String c) IH). Qed.

Lemma string_app_nil_r (s : string) : s +:+ EmptyString = s.
Proof. induction s as [|c s IH]; [done|]. exact (f_equal (String c) IH). Qed.

(** One turn of the second loop: the piece is written if there is room. *)
Lemma write_turn i l t room :
  strlen t + Z.of_nat room < 2 ^ 32 ->
  write_loop (i :: l) (filled t room) (strlen t) =
    if (String.length (piece i) <? room)%nat
    then write_loop l (filled (t +:+ piece i) (room - String.length (piece i))) (strlen (t +:+ piece i))
    else None.
Proof.
  intros Hr. cbn [write_loop]. rewrite sprintf_filled. pose proof (strlen_piece i) as Hp. unfold strlen in Hp.
  destruct (Nat.ltb_spec (String.length (fmt_number i)) room) as [Hf|Hf]; cbn [mbind option_bind].
  - rewrite (u32_small (strlen t + strlen (fmt_number i))) by (unfold strlen in *; lia). rewrite <- strlen_app. unfold piece in *. destruct (line_full i) eqn:El.
    + rewrite sprintf_filled. change (String.length new_line) with 1%nat.
      destruct (Nat.ltb_spec 1 (room - String.length (fmt_number i))), (Nat.ltb_spec (String.length (fmt_number i +:+ new_line)) room); try lia; [|done].
      cbn [mbind option_bind]. rewrite <- string_app_assoc. f_equal.
      * f_equal. lia.
      * rewrite !strlen_app. change (strlen new_line) with 1. rewrite u32_small by (unfold strlen in *; lia). lia.
    + rewrite string_app_nil_r in *. rewrite (proj2 (Nat.ltb_lt _ _)) by lia. done.
  - destruct (Nat.ltb_spec (String.length (piece i)) room); [destruct (line_full i); lia|done].
Qed.

Lemma write_loop_spec l t room :
  strlen t + Z.of_nat room < 2 ^ 32 -> l <> [] ->
  write_loop l (filled t room) (strlen t) =
    if (String.length (text_of l) <? room)%nat then Some (filled (t +:+ text_of l) (room - String.length (text_of l))) else None.
Proof.
  revert t room. induction l as [|i l IH]; intros t room Hr Hl; [done|]. rewrite write_turn by done. cbn [text_of foldr]. fold (text_of l).
  pose proof (strlen_app (piece i) (text_of l)) as Ha. unfold strlen in Ha.
  destruct (Nat.ltb_spec (String.length (piece i)) room) as [Hp|Hp]; [|by rewrite (proj2 (Nat.ltb_ge _ _)) by lia].
  destruct l as [|j l].
  - cbn [text_of foldr write_loop] in *. rewrite string_app_nil_r. by rewrite (proj2 (Nat.ltb_lt _ _)).
  - rewrite IH; [|rewrite strlen_app; unfold strlen in *; lia|done]. rewrite <- string_app_assoc.
    destruct (Nat.ltb_spec (String.length (text_of (j :: l))) (room - String.length (piece i))),
      (Nat.ltb_spec (String.length (piece i +:+ text_of (j :: l))) room); try lia; [|done].
    do 2 f_equal. lia.
Qed.

(** ** Sizes *)

Lemma pretty_go_length (k : nat) (x : N) acc :
  (x < 10 ^ N.of_nat k)%N -> (String.length (pretty_N_go x acc) <= k + String.length acc)%nat.
Proof.
  revert x acc. induction k as [|k IH]; intros x acc Hx.
  - assert (x = 0%N) as -> by (simpl in Hx; lia). by rewrite pretty_N_go_0.
  - destruct (decide (x = 0%N)) as [->|Hne]; [rewrite pretty_N_go_0; lia|].
    rewrite pretty_N_go_step by lia. etransitivity; [apply IH|simpl; lia].
    rewrite Nat2N.inj_succ, N.pow_succ_r' in Hx. apply N.Div0.div_lt_upper_bound. lia.
Qed.

Lemma pretty_length (k : nat) (z : Z) : 0 <= z < 10 ^ Z.of_nat (S k) -> (String.length (pretty z) <= S k)%nat.
Proof.
  intros Hz. destruct z as [|p|p]; [simpl; lia| |lia].
  change (pretty (Z.pos p)) with (pretty (N.pos p)). unfold pretty, pretty_N. rewrite decide_False by done.
  etransitivity; [apply (pretty_go_length (S k))|simpl; lia]. apply N2Z.inj_lt. rewrite N2Z.inj_pow, nat_N_Z. simpl Z.of_N. lia.
Qed.

Lemma piece_length i : (String.length (piece i) <= 12)%nat.
Proof.
  unfold piece, fmt_number. rewrite !string_length_app. change (String.length " ") with 1%nat.
  assert (String.length (if line_full i then new_line else EmptyString) <= 1)%nat by (destruct (line_full i); simpl; lia).
  pose proof (pretty_length 9 (u32 i)) as Hp. unfold u32 in *. specialize (Hp ltac:(pose proof (Z.mod_pos_bound i (2 ^ 32)); lia)). lia.
Qed.

Lemma text_length l : strlen (text_of l) <= 12 * Z.of_nat (length l).
Proof.
  induction l as [|i l IH]; [done|]. cbn [text_of foldr length]. fold (text_of l). rewrite strlen_app. pose proof (piece_length i). unfold strlen in *. lia.
Qed.

Lemma count_exact_cases (num : Z) :
  let len := strlen (count_text num) + 1 in
  (len < 2 ^ 32 -> count_size num = len /\ count_buffer num = Some (chars (count_text num) ++ [NUL])) /\
  (2 ^ 32 <= len -> count_size num < len /\ count_buffer num = None) /\
  (num <= 357913941 -> len < 2 ^ 32).
Proof.
  intros len. pose proof (count_size_text num) as Hs. fold len in Hs.
  assert (0 < len) as Hpos by (unfold len, strlen; lia).
  assert (seqZ 0 num <> [] -> count_buffer num =
    if (String.length (count_text num) <? Z.to_nat (count_size num))%nat
    then Some (filled (count_text num) (Z.to_nat (count_size num) - String.length (count_text num))) else None) as Hw.
  { intros Hl. unfold count_buffer. change (replicate ?n NUL) with (filled EmptyString n).
    change 0 with (strlen EmptyString) at 2. apply (write_loop_spec (seqZ 0 num) EmptyString); [|done].
    rewrite Hs. pose proof (Z.mod_pos_bound len (2 ^ 32)). unfold u32. change (strlen EmptyString) with 0. lia. }
  split; [|split].
  - intros Hlen. rewrite u32_small in Hs by lia. split; [done|]. destruct (seqZ 0 num) as [|i l] eqn:E.
    + unfold count_buffer. unfold len, count_text in *. rewrite E in *. rewrite Hs. done.
    + rewrite Hw by done. rewrite Hs. unfold len, strlen in *. rewrite (proj2 (Nat.ltb_lt _ _)) by lia. f_equal. unfold filled.
      replace (_ - _)%nat with 1%nat by lia. done.
  - intros Hlen. assert (count_size num < len) as Hlt by (rewrite Hs; unfold u32; pose proof (Z.mod_pos_bound len (2 ^ 32)); lia).
    split; [done|]. rewrite Hw.
    + unfold len, strlen in *. rewrite (proj2 (Nat.ltb_ge _ _)) by lia. done.
    + intros E. unfold len, count_text in *. rewrite E in *. change (strlen (text_of [])) with 0 in *. lia.
  - intros Hn. pose proof (text_length (seqZ 0 num)) as Ht. rewrite length_seqZ in Ht. unfold len, count_text. lia.
Qed.

(** From below *)
Lemma pretty_go_length_ge (k : nat) (x : N) acc :
  (10 ^ N.of_nat k <= x)%N -> (k + 1 + String.length acc <= String.length (pretty_N_go x acc))%nat.
Proof.
  revert x acc. induction k as [|k IH]; intros x acc Hx.
  - simpl in Hx. rewrite pretty_N_go_step by lia.
    assert (forall m y acc, (y < 10 ^ N.of_nat m)%N -> (String.length acc <= String.length (pretty_N_go y acc))%nat) as Hge.
    { clear. induction m as [|m IHm]; intros y acc Hy.
      - assert (y = 0%N) as -> by (simpl in Hy; lia). by rewrite pretty_N_go_0.
      - destruct (decide (y = 0%N)) as [->|Hne]; [by rewrite pretty_N_go_0|]. rewrite pretty_N_go_step by lia.
        etransitivity; [|apply IHm]; [simpl; lia|]. rewrite Nat2N.inj_succ, N.pow_succ_r' in Hy. apply N.Div0.div_lt_upper_bound. lia. }
    etransitivity; [|apply (Hge (N.to_nat (x / 10)))]; [simpl; lia|]. rewrite N2Nat.id. apply N.pow_gt_lin_r. lia.
  - rewrite Nat2N.inj_succ, N.pow_succ_r' in Hx. rewrite pretty_N_go_step by (pose proof (N.pow_nonzero 10 (N.of_nat k)); lia).
    etransitivity; [|apply IH]; [simpl; lia|]. apply N.div_le_lower_bound; lia.
Qed.

Lemma text_length_ge (k : nat) l :
  Forall (fun i => 10 ^ Z.of_nat k <= i < 2 ^ 32) l -> Z.of_nat (k + 2) * Z.of_nat (length l) <= strlen (text_of l).
Proof.
  induction 1 as [|i l Hi Hl IH]; [unfold strlen; simpl; lia|]. cbn [text_of foldr length]. fold (text_of l). rewrite strlen_app.
  enough (Z.of_nat (k + 2) <= strlen (piece i)) by lia. rewrite strlen_piece. unfold fmt_number. rewrite strlen_app, u32_small by lia.
  change (strlen " ") with 1. enough (Z.of_nat (k + 1) <= strlen (pretty i)) by (destruct (line_full i); lia).
  destruct i as [|p|p]; [lia| |lia]. change (pretty (Z.pos p)) with (pretty (N.pos p)). unfold pretty, pretty_N. rewrite decide_False by done.
  pose proof (pretty_go_length_ge k (N.pos p) EmptyString) as Hp. unfold strlen. apply inj_le. etransitivity; [|apply Hp]; [simpl; lia|].
  apply N2Z.inj_le. rewrite N2Z.inj_pow, nat_N_Z. simpl Z.of_N. lia.
Qed.

Lemma text_of_app l1 l2 : strlen (text_of (l1 ++ l2)) = strlen (text_of l1) + strlen (text_of l2).
Proof.
  induction l1 as [|i l IH]; [done|]. cbn [app text_of foldr]. fold (text_of l). fold (text_of (l ++ l2)). rewrite !strlen_app, IH. lia.
Qed.

(** The text of 175000 numbers and more is longer than 2^20 bytes. *)
Lemma count_text_long num : 175000 <= num < 2 ^ 32 -> 2 ^ 20 < strlen (count_text num).
Proof.
  intros Hn. unfold count_text. replace num with (10000 + (90000 + (num - 100000))) by lia.
  rewrite seqZ_app, seqZ_app by lia. rewrite !text_of_app.
  pose proof (text_length_ge 4 (seqZ (0 + 10000) 90000)) as H4. pose proof (text_length_ge 5 (seqZ (0 + 10000 + 90000) (num - 100000))) as H5.
  rewrite length_seqZ in H4, H5. specialize (H4 ltac:(apply Forall_forall; intros i Hi%elem_of_seqZ; lia)).
  specialize (H5 ltac:(apply Forall_forall; intros i Hi%elem_of_seqZ; lia)).
  assert (0 <= strlen (text_of (seqZ 0 10000))) by (unfold strlen; lia). lia.
Qed.

(** ** The text as a C string *)

Lemma nul_free_app s t : nul_free (s +:+ t) = nul_free s && nul_free t.
Proof.
  induction s as [|c s IH]; [done|]. change (nul_free (String c s +:+ t)) with (negb (char_code c =? 0) && nul_free (s +:+ t)).
  rewrite IH. by rewrite andb_assoc.
Qed.

Lemma pretty_go_nul_free (k : nat) (x : N) acc :
  (x < 10 ^ N.of_nat k)%N -> nul_free acc = true -> nul_free (pretty_N_go x acc) = true.
Proof.
  revert x acc. induction k as [|k IH]; intros x acc Hx Ha.
  - assert (x = 0%N) as -> by (simpl in Hx; lia). by rewrite pretty_N_go_0.
  - destruct (decide (x = 0%N)) as [->|Hne]; [by rewrite pretty_N_go_0|]. rewrite pretty_N_go_step by lia. apply IH.
    + rewrite Nat2N.inj_succ, N.pow_succ_r' in Hx. apply N.Div0.div_lt_upper_bound. lia.
    + cbn [nul_free]. rewrite Ha, andb_true_r. unfold pretty_N_char. destruct (x mod 10)%N as [|p]; [done|]. by do 4 (destruct p as [p|p|]; try done).
Qed.

Lemma pretty_u32_nul_free z : nul_free (pretty (u32 z)) = true.
Proof.
  unfold u32. pose proof (Z.mod_pos_bound z (2 ^ 32)) as Hz. destruct (z mod 2 ^ 32) as [|p|p]; [done| |lia].
  change (pretty (Z.pos p)) with (pretty (N.pos p)). unfold pretty, pretty_N. rewrite decide_False by done.
  apply (pretty_go_nul_free 10); [|done]. apply N2Z.inj_lt. simpl Z.of_N. lia.
Qed.

Lemma text_nul_free l : nul_free (text_of l) = true.
Proof.
  induction l as [|i l IH]; [done|]. cbn [text_of foldr]. fold (text_of l). rewrite nul_free_app, IH, andb_true_r.
  unfold piece, fmt_number. rewrite !nul_free_app, pretty_u32_nul_free. by destruct (line_full i).
Qed.

Lemma cstr_chars s rest : nul_free s = true -> cstr (chars s ++ NUL :: rest) = s.
Proof.
  induction s as [|c s IH]; [done|]. cbn [chars app cstr nul_free]. intros [Hc Hs]%andb_prop.
  rewrite bool_decide_eq_false_2, (IH Hs); [done|]. intros ->. done.
Qed.

(** C40: [count_to_number] and its two loops over 32-bit counters.  Whenever the text
    fits 2^32 bytes with its NUL, the size added up by the first loop is exactly
    the length of the text and its NUL, and the second loop writes the text into
    the buffer without leaving it; that is so for every number up to 357 million.
    For numbers whose text is longer the size wraps around and the second loop
    writes behind the end of the buffer. *)
Theorem count_to_number_exact (num : Z) :
  let len := strlen (count_text num) + 1 in
  (len < 2 ^ 32 -> count_size num = len /\ count_buffer num = Some (chars (count_text num) ++ [NUL])) /\
  (2 ^ 32 <= len -> count_size num < len /\ count_buffer num = None) /\
  (num <= 357913941 -> len < 2 ^ 32).
Proof. apply count_exact_cases. Qed.
