(* ===== verification/ProgLib.v ===== *)
(** * What the programs of the library share

    The command line client, the two examples and the Lua binding call the library in the same
    ways: the text of a status, the id of a path in a local variable, the text
    of the counting test, the loop of [uloop_run] over the events that occur. *)

From stdpp Require Import base gmap strings list fin_maps pretty.
From Stdlib Require Import ZArith Lia Ascii.
From S2P Require Import Prelude Wire Cstring Libubox Ids State LibState LibIo LibCalls LibReq LibObj LibMain LibConn Count.
Local Open Scope Z_scope.
Local Open Scope ubus_scope.

(** ** Texts of the status codes: [ubus_strerror] of [src/libubus.c] *)

(** [__ubus_strerror] *)
Definition ubus_strerror_table (s : ubus_msg_status) : string :=
  match s with
  | UBUS_STATUS_OK => "Success"
  | UBUS_STATUS_INVALID_COMMAND => "Invalid command"
  | UBUS_STATUS_INVALID_ARGUMENT => "Invalid argument"
  | UBUS_STATUS_METHOD_NOT_FOUND => "Method not found"
  | UBUS_STATUS_NOT_FOUND => "Not found"
  | UBUS_STATUS_NO_DATA => "No response"
  | UBUS_STATUS_PERMISSION_DENIED => "Permission denied"
  | UBUS_STATUS_TIMEOUT => "Request timed out"
  | UBUS_STATUS_NOT_SUPPORTED => "Operation not supported"
  | UBUS_STATUS_UNKNOWN_ERROR => "Unknown error"
  | UBUS_STATUS_CONNECTION_FAILED => "Connection failed"
  | UBUS_STATUS_NO_MEMORY => "Out of memory"
  | UBUS_STATUS_PARSE_ERROR => "Parsing message data failed"
  | UBUS_STATUS_SYSTEM_ERROR => "System error"
  end.

Definition all_statuses : list ubus_msg_status :=
  [UBUS_STATUS_OK; UBUS_STATUS_INVALID_COMMAND; UBUS_STATUS_INVALID_ARGUMENT; UBUS_STATUS_METHOD_NOT_FOUND;
   UBUS_STATUS_NOT_FOUND; UBUS_STATUS_NO_DATA; UBUS_STATUS_PERMISSION_DENIED; UBUS_STATUS_TIMEOUT;
   UBUS_STATUS_NOT_SUPPORTED; UBUS_STATUS_UNKNOWN_ERROR; UBUS_STATUS_CONNECTION_FAILED; UBUS_STATUS_NO_MEMORY;
   UBUS_STATUS_PARSE_ERROR; UBUS_STATUS_SYSTEM_ERROR].

(** [sprintf] of a text into an array of [n] characters: undefined when the text
    and its end do not fit *)
Definition sprintf_to (n : nat) (text : string) : option string :=
  if (String.length text <? n)%nat then Some text else None.

(** The text, [None] when the static buffer overflows *)
Definition ubus_strerror (error : Z) : option string :=
  let out := sprintf_to 32 ("Unknown error: " +:+ pretty error) in
  if (error <? 0) || (Z.of_nat (length all_statuses) <=? error) then out
  else
    match all_statuses !! Z.to_nat error with
    | Some s => Some (ubus_strerror_table s)
    | None => out
    end.

(** ** How long a number gets *)

Lemma length_pretty_N_go x s k :
  (x < 10 ^ N.of_nat k)%N -> (String.length (pretty_N_go x s) <= k + String.length s)%nat.
Proof.
  revert x s. induction k as [|k IH]; intros x s Hx.
  - assert (x = 0)%N as -> by (simpl in Hx; lia). by rewrite pretty_N_go_0.
  - destruct (decide (x = 0)%N) as [->|]; [rewrite pretty_N_go_0; lia|].
    rewrite pretty_N_go_step by lia. etransitivity; [apply IH|simpl; lia].
    rewrite Nat2N.inj_succ, N.pow_succ_r' in Hx. apply N.Div0.div_lt_upper_bound. lia.
Qed.

Lemma length_pretty_N x k : (x < 10 ^ N.of_nat k)%N -> (1 <= k)%nat -> (String.length (pretty x) <= k)%nat.
Proof.
  intros Hx Hk. unfold pretty, pretty_N. destruct (decide (x = 0)%N); [simpl; lia|].
  pose proof (length_pretty_N_go x "" k Hx). simpl in *. lia.
Qed.

Lemma length_pretty_int z : - 2 ^ 31 <= z < 2 ^ 31 -> (String.length (pretty z) <= 11)%nat.
Proof.
  intros Hz. unfold pretty, pretty_Z. destruct z as [|p|p]; [simpl; lia|..].
  - etransitivity; [apply (length_pretty_N (Npos p) 10); [change (10 ^ N.of_nat 10)%N with 10000000000%N|]; lia|lia].
  - change (String.length ("-" +:+ ?t)) with (S (String.length t)). apply le_n_S.
    apply (length_pretty_N (Npos p) 10); [change (10 ^ N.of_nat 10)%N with 10000000000%N|]; lia.
Qed.

Lemma status_at_code s : all_statuses !! Z.to_nat (status_code s) = Some s.
Proof. by destruct s. Qed.

Lemma code_at_status error :
  0 <= error < 14 -> exists s, all_statuses !! Z.to_nat error = Some s /\ status_code s = error.
Proof.
  intros H. assert (error ∈ seqZ 0 14) as Hin by (apply elem_of_seqZ; lia). revert Hin. vm_compute seqZ.
  repeat (setoid_rewrite elem_of_cons || setoid_rewrite elem_of_nil). intros Hin.
  repeat destruct Hin as [->|Hin]; try done; eexists; split; reflexivity.
Qed.

(** [ubus_strerror] has a text for every [int]: the table's for a status code
    of the protocol, and for any other a text with the number, which always fits
    the static buffer of 32 characters.  Different codes have different texts. *)
Lemma strerror_total (error : Z) :
  - 2 ^ 31 <= error < 2 ^ 31 ->
  exists text, ubus_strerror error = Some text /\
    (forall s, status_code s = error -> text = ubus_strerror_table s) /\
    (forall error', - 2 ^ 31 <= error' < 2 ^ 31 -> ubus_strerror error' = Some text -> error' = error).
Proof.
  assert (forall e, - 2 ^ 31 <= e < 2 ^ 31 ->
    (e < 0 \/ 14 <= e) /\ ubus_strerror e = Some ("Unknown error: " +:+ pretty e) \/
    exists s, status_code s = e /\ ubus_strerror e = Some (ubus_strerror_table s)) as Hcase.
  { intros e He. unfold ubus_strerror. cbv zeta. change (Z.of_nat (length all_statuses)) with 14.
    destruct (Z.ltb_spec e 0); simpl; [left|destruct (Z.leb_spec 14 e); [left|right]].
    1,2: split; [lia|]; unfold sprintf_to; pose proof (length_pretty_int e He);
      change (String.length ("Unknown error: " +:+ pretty e)) with (15 + String.length (pretty e))%nat;
      by rewrite (proj2 (Nat.ltb_lt _ 32)) by lia.
    destruct (code_at_status e) as (s & -> & <-); [lia|]. eauto. }
  assert (forall s n, ubus_strerror_table s <> "Unknown error: " +:+ n) as Htab by (by intros []).
  assert (forall s s', ubus_strerror_table s = ubus_strerror_table s' -> s = s') as Hinj by (by intros [] []).
  intros He. destruct (Hcase error He) as [(Hout & E)|(s & Hs & E)]; eexists; (split; [exact E|]); split.
  - intros s <-. pose proof (status_nonneg s). destruct s; simpl in *; lia.
  - intros e' He' E'. destruct (Hcase e' He') as [(_ & E2)|(s & _ & E2)]; rewrite E2 in E'; injection E' as E'.
    + by apply (inj pretty).
    + by destruct (Htab s (pretty error)).
  - intros s' Hs'. f_equal. pose proof (status_at_code s). pose proof (status_at_code s'). congruence.
  - intros e' He' E'. destruct (Hcase e' He') as [(_ & E2)|(s' & Hs' & E2)]; rewrite E2 in E'; injection E' as E'.
    + by destruct (Htab s (pretty e')).
    + apply Hinj in E'. congruence.
Qed.

Example strerror_99 : ubus_strerror 99 = Some "Unknown error: 99".
Proof. reflexivity. Qed.

(** ** Programs *)

(** [%08x] *)
Definition hex_digit (d : Z) : ascii := ascii_of_nat (Z.to_nat (if d <? 10 then 48 + d else 87 + d)).
Fixpoint hex_digits (n : nat) (z : Z) (acc : string) : string :=
  match n with
  | O => acc
  | S n => hex_digits n (z / 16) (String (hex_digit (z mod 16)) acc)
  end.
Definition fmt_08x (z : Z) : string := hex_digits 8 (u32 z) EmptyString.

(** What [uloop_run] waits for: the socket becomes readable, the library's
    [pending_timer] runs out, or something of the program's own *)
Inductive prog_event (E : Type) := Sock_readable | Pending_expired | Own_event (e : E).
Arguments Sock_readable {E}.
Arguments Pending_expired {E}.
Arguments Own_event {E}.

(** [ubus_socket] after the loop over the options of the examples, "cs:" *)
Definition example_socket (argv : list string) : option string :=
  foldl (fun sock o => match o with Option "s" optarg => Some optarg | _ => sock end) None (getopt "cs:" argv).1.

Section ProgLib.
Context `{AL : AvlLib} `{PM : ProgMem} `{BL : BlobLib}.
Implicit Types (s : ubus_context).

(** [ubus_strerror], undefined where its buffer overflows *)
Definition strerror (err : Z) : stm ubus_context string :=
  match ubus_strerror err with Some text => mret text | None => undefined end.

(** The string, [None] when there is no memory; undefined when the buffer
    overflows *)
Definition count_to_number (num : Z) : stm ubus_context (option string) :=
  ok ← sys_alloc;
  if negb ok then mret None
  else
    match count_buffer num with
    | Some s => mret (Some (cstr s))
    | None => undefined
    end.

(** The memory of the context is not used any more. *)
Definition ubus_free : stm ubus_context unit := ubus_shutdown.

Context `{PR : !Program}.

(** [ubus_lookup_id(ctx, path, &id)] with a local variable [id] (at first
    [indet]): the result, and the variable *)
Definition lookup_local_id (indet : Z) (path : string) : stm ubus_context (Z * Z) :=
  p ← new_local indet;
  ret ← ubus_lookup_id (Some path) p;
  id ← lload (T := Z) p;
  end_local (T := Z) p;;
  mret (ret, id).

(** The events until [uloop_end]; when there are no more the process has got a
    SIGINT or SIGTERM, which end the loop too. *)
Context {E : Type} (own_event : E -> stm ubus_context unit).

Definition prog_turn (e : prog_event E) : stm ubus_context unit :=
  match e with
  | Sock_readable =>
      registered ← gets ctx_sock_registered;
      when registered ubus_handle_data
  | Pending_expired => ubus_process_pending_msg
  | Own_event e => own_event e
  end.

Fixpoint prog_events (events : list (prog_event E)) : stm ubus_context unit :=
  match events with
  | [] => mret tt
  | e :: events =>
      ended ← gets uloop_ended;
      if (ended : bool) then mret tt
      else prog_turn e;; prog_events events
  end.

Definition prog_run (events : list (prog_event E)) : stm ubus_context unit :=
  modify (fun s => s <| uloop_ended := false |> <| uloop_cancelling := false |>);;
  prog_events events;;
  modify (fun s => s <| uloop_cancelling := false |>).
End ProgLib.
