(* ===== verification/Cli.v ===== *)
(** * The command line client: [src/cli.c]

    A program of the library: its callbacks are the instance [cli_program] of
    [Program], its static variables and its output the memory [cli_state] behind
    the context.  The JSON functions of libubox are the parameter [JsonLib]; the
    values of uninitialised variables and the events [uloop_run] waits for are
    inputs. *)

From stdpp Require Import base gmap strings list fin_maps pretty.
From Stdlib Require Import ZArith Lia Ascii.
From S2P Require Import Prelude Wire Cstring Libubox Ids State LibState LibIo LibCalls LibReq LibObj LibMain LibConn ProgLib.
Local Open Scope string_scope.
Local Open Scope Z_scope.
Local Open Scope ubus_scope.

(** ** Formatting *)

Definition quote : string := String (ascii_of_nat 34) EmptyString.
Definition quoted (s : string) : string := quote +:+ s +:+ quote.
Definition tab : string := String (ascii_of_nat 9) EmptyString.

(** [%14s] *)
Fixpoint spaces (n : nat) : string := match n with O => EmptyString | S n => String (ascii_of_nat 32) (spaces n) end.
Definition fmt_14s (s : string) : string := spaces (14 - String.length s) +:+ s.

(** ** State *)

(** libubox's JSON functions: formatting a message, and reading one into a
    buffer *)
Class JsonLib := {
  blobmsg_format_json : bytes -> bool -> string;
  blobmsg_format_json_indent : bytes -> bool -> Z -> string;
  blobmsg_format_json_with_cb : bytes -> bool -> (bytes -> option string) -> Z -> string;
  blobmsg_add_json_from_string : string -> option (list put);
}.

(** The static variables, the lines printed, is [stderr] a terminal; the local
    variables that callbacks reach through pointers ([data->timed_out] of
    [do_listen], [data->pending] of [ubus_cli_wait_for]); the one timer a command
    sets (milliseconds), and whether [uloop_run] is running.  [wait_seen] is no
    variable of the program: it keeps the paths that [wait_check_object] was
    called with, the last first, for the theorem on [wait_for]; no code reads it. *)
Record cli_state := mk_cli {
  listen_timeout : Z;
  timeout : Z;
  simple_output : bool;
  verbose : Z;
  monitor_dir : Z;
  monitor_mask : Z;
  cli_stdout : list string;
  cli_stderr : list string;
  stderr_tty : bool;
  timed_out : bool;
  wait_pending : list string;
  cli_timer : option Z;
  uloop_running : bool;
  wait_seen : list string;
}.
#[export] Instance eta_cli : Eta cli_state := fun r =>
  mk_cli (listen_timeout r) (timeout r) (simple_output r) (verbose r) (monitor_dir r) (monitor_mask r)
    (cli_stdout r) (cli_stderr r) (stderr_tty r) (timed_out r) (wait_pending r) (cli_timer r) (uloop_running r)
    (wait_seen r).

Definition cli_initial (tty : bool) : cli_state := mk_cli 0 30 false 0 (-1) 0 [] [] tty false [] None false [].

#[export] Instance cli_mem : ProgMem := {| prog_mem := cli_state |}.

(** [monitor_types], by the code of the message type *)
Definition monitor_types : list string :=
  ["hello"; "status"; "data"; "ping"; "lookup"; "invoke"; "add_object"; "remove_object"; "subscribe"; "unsubscribe"; "notify"].

(** [UBUS_MONITOR_MAX] *)
Definition UBUS_MONITOR_MAX : Z := 6.

(** ** Pure helpers *)

(** [attr_types] of [format_type], by the code of the blobmsg type *)
Definition attr_types : list (option string) :=
  [None; Some (quoted "Array"); Some (quoted "Table"); Some (quoted "String"); None; Some (quoted "Integer"); None;
   Some (quoted "Boolean")].

Definition format_type `{BL : BlobLib} (attr : bytes) : option string :=
  if negb (bool_decide (blobmsg_type attr = BLOBMSG_TYPE_INT32)) then None
  else
    let typeid := blobmsg_get_u32 attr in
    let type := if typeid <? Z.of_nat (length attr_types) then mjoin (attr_types !! Z.to_nat typeid) else None in
    Some (default (quoted "(unknown)") type).

(** [snprintf] keeps 15 characters of the number. *)
Definition ubus_cli_msg_type (type : Z) : string :=
  let ret := if type <? Z.of_nat (length monitor_types) then monitor_types !! Z.to_nat type else None in
  match ret with
  | Some ret => ret
  | None => String.substring 0 15 (pretty (i32 type))
  end.

(** The loop of [add_monitor_type] from index [i] on *)
Fixpoint find_monitor_type (types : list string) (type : string) (i : Z) : option Z :=
  match types with
  | [] => None
  | t :: types => if negb (strcmp t type =? 0) then find_monitor_type types type (i + 1) else Some i
  end.

(** The loop of [wait_check_object] from index [i] on, over the array that
    [data->pending] and [data->n_pending] describe: every turn either moves on
    or shortens the array. *)
Fixpoint wait_check_loop (fuel : nat) (path : string) (pending : list string) (i : nat) : list string :=
  match fuel, pending !! i with
  | S fuel, Some p =>
      if negb (strcmp path p =? 0) then wait_check_loop fuel path pending (S i)
      else if (i =? length pending - 1)%nat then take i pending
      else wait_check_loop fuel path (take i pending ++ drop (S i) pending)%list i
  | _, _ => pending
  end.

(** [policy] of [ubus_cli_get_monitor_data] *)
Definition monitor_data_policy (a : Z) : blob_attr_type :=
  if a =? UBUS_ATTR_STATUS then BLOB_ATTR_INT32
  else if a =? UBUS_ATTR_OBJPATH then BLOB_ATTR_STRING
  else if a =? UBUS_ATTR_OBJID then BLOB_ATTR_INT32
  else if a =? UBUS_ATTR_METHOD then BLOB_ATTR_STRING
  else if a =? UBUS_ATTR_OBJTYPE then BLOB_ATTR_INT32
  else if a =? UBUS_ATTR_SIGNATURE then BLOB_ATTR_NESTED
  else if a =? UBUS_ATTR_DATA then BLOB_ATTR_NESTED
  else if a =? UBUS_ATTR_ACTIVE then BLOB_ATTR_INT8
  else if a =? UBUS_ATTR_NO_REPLY then BLOB_ATTR_INT8
  else if a =? UBUS_ATTR_USER then BLOB_ATTR_STRING
  else if a =? UBUS_ATTR_GROUP then BLOB_ATTR_STRING
  else BLOB_ATTR_UNSPEC.

(** [names] of [ubus_cli_get_monitor_data] *)
Definition monitor_data_name (a : Z) : option string :=
  if a =? UBUS_ATTR_STATUS then Some "status"
  else if a =? UBUS_ATTR_OBJPATH then Some "objpath"
  else if a =? UBUS_ATTR_OBJID then Some "objid"
  else if a =? UBUS_ATTR_METHOD then Some "method"
  else if a =? UBUS_ATTR_OBJTYPE then Some "objtype"
  else if a =? UBUS_ATTR_SIGNATURE then Some "signature"
  else if a =? UBUS_ATTR_DATA then Some "data"
  else if a =? UBUS_ATTR_ACTIVE then Some "active"
  else if a =? UBUS_ATTR_NO_REPLY then Some "no_reply"
  else if a =? UBUS_ATTR_USER then Some "user"
  else if a =? UBUS_ATTR_GROUP then Some "group"
  else None.

(** [policy] of [ubus_cli_monitor_cb] *)
Definition monitor_policy (a : Z) : blob_attr_type :=
  if a =? UBUS_MONITOR_CLIENT then BLOB_ATTR_INT32
  else if a =? UBUS_MONITOR_PEER then BLOB_ATTR_INT32
  else if a =? UBUS_MONITOR_SEND then BLOB_ATTR_INT8
  else if a =? UBUS_MONITOR_TYPE then BLOB_ATTR_INT32
  else if a =? UBUS_MONITOR_DATA then BLOB_ATTR_NESTED
  else BLOB_ATTR_UNSPEC.

Section Cli.
Context `{AL : AvlLib} `{BL : BlobLib} `{JL : JsonLib}.
Implicit Types (s : ubus_context).

(** ** Output and variables *)

Definition cli_gets {A} (f : cli_state -> A) : stm ubus_context A := gets (fun s => f (ctx_mem s)).
Definition with_cli (f : cli_state -> cli_state) s : ubus_context := s <| ctx_mem ::= f |>.
Definition cli_modify (f : cli_state -> cli_state) : stm ubus_context unit := modify (with_cli f).

(** A line on [stdout]; on [stderr] *)
Definition print (line : string) : stm ubus_context unit :=
  cli_modify (fun m => m <| cli_stdout ::= fun l => (l ++ [line])%list |>).
Definition eprint (line : string) : stm ubus_context unit :=
  cli_modify (fun m => m <| cli_stderr ::= fun l => (l ++ [line])%list |>).

(** [seconds * 1000]: undefined when it overflows an [int] *)
Definition to_ms (seconds : Z) : stm ubus_context Z :=
  assert (i32 (seconds * 1000) =? seconds * 1000);;
  mret (seconds * 1000).

(** ** [uloop] *)

(** [uloop_end]: a running loop is then being cancelled. *)
Definition uloop_end : stm ubus_context unit :=
  running ← cli_gets uloop_running;
  modify (fun s => s <| uloop_ended := true |> <| uloop_cancelling := running |>).

(** ** Callbacks *)

Definition receive_list_result (obj : ubus_object_data) : stm ubus_context unit :=
  simple ← cli_gets simple_output;
  verb ← cli_gets verbose;
  if simple || (verb =? 0) then print (od_path obj)
  else
    print ("'" +:+ od_path obj +:+ "' @" +:+ fmt_08x (od_id obj));;
    match od_signature obj with
    | None => mret tt
    | Some sig =>
        for_each (blob_for_each_attr sig) (fun cur =>
          print (tab +:+ blobmsg_format_json_with_cb cur false format_type (-1)))
    end.

Definition receive_call_result_data (msg : option bytes) : stm ubus_context unit :=
  match msg with
  | None => mret tt
  | Some msg =>
      simple ← cli_gets simple_output;
      print (blobmsg_format_json_indent msg true (if (simple : bool) then -1 else 0))
  end.

Definition print_event (type : string) (msg : bytes) : stm ubus_context unit :=
  print ("{ " +:+ quoted type +:+ ": " +:+ blobmsg_format_json msg true +:+ " }").

Definition receive_request (method : string) (msg : bytes) : stm ubus_context Z :=
  print_event method msg;;
  mret 0.

Definition receive_event (type : string) (msg : bytes) : stm ubus_context unit := print_event type msg.

Definition wait_check_object (path : string) : stm ubus_context unit :=
  cli_modify (fun m => m <| wait_seen ::= cons path |>);;
  cli_modify (fun m => m <| wait_pending ::= fun pending => wait_check_loop (length pending) path pending 0 |>);;
  pending ← cli_gets wait_pending;
  when (bool_decide (pending = [])) uloop_end.

Definition wait_event_cb (type : string) (msg : bytes) : stm ubus_context unit :=
  if negb (strcmp type "ubus.object.add" =? 0) then mret tt
  else
    match blobmsg_parse (blob_data msg) "path" BLOBMSG_TYPE_STRING with
    | None => mret tt
    | Some attr => wait_check_object (blobmsg_get_string attr)
    end.

Definition wait_list_cb (obj : ubus_object_data) : stm ubus_context unit := wait_check_object (od_path obj).

(** One turn of the loop of [ubus_cli_get_monitor_data] *)
Definition monitor_data_put (tb : Z -> option bytes) (i : Z) : list put :=
  match tb i, monitor_data_name i with
  | Some v, Some n =>
      match monitor_data_policy i with
      | BLOB_ATTR_INT32 => [msg_u32 n (blob_get_u32 v)]
      | BLOB_ATTR_STRING => [msg_string n (blob_string v)]
      | BLOB_ATTR_INT8 => [msg_field BLOBMSG_TYPE_INT8 n [if blob_get_int8 v =? 0 then 0 else 1]]
      | BLOB_ATTR_NESTED => [msg_field BLOBMSG_TYPE_TABLE n (blobmsg_data v)]
      | _ => []
      end
  | _, _ => []
  end.

Definition ubus_cli_get_monitor_data (data : bytes) : string :=
  let tb := blob_parse_untrusted monitor_data_policy UBUS_ATTR_MAX data (blob_raw_len data) in
  blobmsg_format_json (blob_render (concat (monitor_data_put tb <$> seqZ 0 UBUS_ATTR_MAX))) true.

(** Is a message left out? *)
Definition monitor_filtered (m : cli_state) (type : Z) (send : bool) : bool :=
  (negb (monitor_mask m =? 0) && (type <? 32) && (Z.land (monitor_mask m) (Z.shiftl 1 type) =? 0)) ||
  ((0 <=? monitor_dir m) && negb ((if send then 1 else 0) =? monitor_dir m)).

Definition ubus_cli_monitor_cb (msg : bytes) : stm ubus_context unit :=
  let tb := blob_parse_untrusted monitor_policy UBUS_MONITOR_MAX msg (blob_raw_len msg) in
  match tb UBUS_MONITOR_CLIENT, tb UBUS_MONITOR_PEER, tb UBUS_MONITOR_SEND, tb UBUS_MONITOR_TYPE, tb UBUS_MONITOR_DATA with
  | Some client, Some peer, Some send, Some type, Some data =>
      let send := negb (blob_get_u32 send =? 0) in
      let client := blob_get_u32 client in
      let peer := blob_get_u32 peer in
      let type := blob_get_u32 type in
      m ← cli_gets (fun m => m);
      if monitor_filtered m type send then mret tt
      else
        print ((if send then "->" else "<-") +:+ " " +:+ fmt_08x client +:+ " #" +:+ fmt_08x peer +:+ " " +:+
               fmt_14s (ubus_cli_msg_type type) +:+ ": " +:+ ubus_cli_get_monitor_data data)
  | _, _, _, _, _ => print "Invalid monitor msg"
  end.

(** The callbacks by the numbers under which they are registered *)
Definition cli_callback (c : program_call) : stm ubus_context Z :=
  match c with
  | ubus_data_handler 0 _ _ msg => receive_call_result_data (Some msg);; mret 0
  | ubus_lookup_handler 0 obj _ => receive_list_result obj;; mret 0
  | ubus_lookup_handler 1 obj _ => wait_list_cb obj;; mret 0
  | ubus_event_handler 0 _ type msg => receive_event type msg;; mret 0
  | ubus_event_handler 1 _ type msg => wait_event_cb type msg;; mret 0
  | ubus_handler 0 _ _ method msg => receive_request method msg
  | monitor_cb 0 _ data => ubus_cli_monitor_cb data;; mret 0
  | _ => undefined
  end.

(** No subscriber of this program has a [new_obj_cb], so the library never
    subscribes on its own; no callback starts a request. *)
#[export] Instance cli_program : Program := {|
  program := cli_callback;
  nested_subscribe := fun _ _ => undefined;
  flush_restarts := 0;
|}.

(** [uloop_timeout_set] of the command's timer *)
Definition cli_timer_set (ms : Z) : stm ubus_context unit := cli_modify (fun m => m <| cli_timer := Some ms |>).

(** What [uloop_run] waits for: the socket becomes readable, the command's timer
    or the library's [pending_timer] runs out *)
Inductive loop_event := Socket_readable | Timer_expired | Pending_timer.

Definition loop_turn (timer_cb : stm ubus_context unit) (e : loop_event) : stm ubus_context unit :=
  match e with
  | Socket_readable =>
      registered ← gets ctx_sock_registered;
      when registered ubus_handle_data
  | Timer_expired =>
      set ← cli_gets (fun m => has (cli_timer m));
      when set (cli_modify (fun m => m <| cli_timer := None |>);; timer_cb)
  | Pending_timer => ubus_process_pending_msg
  end.

(** The events until [uloop_end]; when there are no more the process has got a
    SIGINT or SIGTERM, which end the loop too. *)
Fixpoint uloop_events (timer_cb : stm ubus_context unit) (events : list loop_event) : stm ubus_context unit :=
  match events with
  | [] => mret tt
  | e :: events =>
      ended ← gets uloop_ended;
      if (ended : bool) then mret tt
      else loop_turn timer_cb e;; uloop_events timer_cb events
  end.

Definition uloop_run (timer_cb : stm ubus_context unit) (events : list loop_event) : stm ubus_context unit :=
  modify (fun s => s <| uloop_ended := false |> <| uloop_cancelling := false |>);;
  cli_modify (fun m => m <| uloop_running := true |>);;
  uloop_events timer_cb events;;
  cli_modify (fun m => m <| uloop_running := false |>);;
  modify (fun s => s <| uloop_cancelling := false |>).

(** [uloop_done] cancels all timers. *)
Definition uloop_done : stm ubus_context unit := cli_modify (fun m => m <| cli_timer := None |>).

(** ** Commands *)

(** [usock] and the path set at build time ([LibConn.v]); the values of
    uninitialised variables; the events of the command's loop *)
Context (usock : string -> option connection) (UBUS_UNIX_SOCKET : string).
Context (indet : Z) (events : list loop_event).

Definition ubus_cli_error (cmd : string) (argv : list string) (err : Z) : stm ubus_context Z :=
  simple ← cli_gets simple_output;
  tty ← cli_gets stderr_tty;
  if negb simple && negb tty then
    text ← strerror err;
    eprint ("Command failed: ubus " +:+ cmd +:+ " " +:+ String.concat EmptyString ((fun a => a +:+ " ") <$> argv) +:+
            "(" +:+ text +:+ ")");;
    mret (- err)
  else mret err.

Definition ubus_cli_list (argv : list string) : stm ubus_context Z :=
  match argv with
  | [] => ubus_lookup None 0 priv_none
  | [path] => ubus_lookup (Some path) 0 priv_none
  | _ => mret (-2)
  end.

(** The rest of [ubus_cli_call] once [b] is filled *)
Definition cli_call_with (argv : list string) (path method : string) (b : list put) : stm ubus_context Z :=
  '(ret, id) ← lookup_local_id indet path;
  if negb (ret =? 0) then mret ret
  else
    t ← cli_gets timeout;
    ms ← to_ms t;
    ret ← ubus_invoke id method (msg_at (blob_render b)) (Some 0%nat) priv_none ms;
    if negb (ret =? 0) then ubus_cli_error "call" argv ret else mret ret.

Definition ubus_cli_call (argv : list string) : stm ubus_context Z :=
  match argv with
  | [path; method] => cli_call_with argv path method []
  | [path; method; json] =>
      match blobmsg_add_json_from_string json with
      | None => ubus_cli_error "call" argv UBUS_STATUS_PARSE_ERROR
      | Some b => cli_call_with argv path method b
      end
  | _ => mret (-2)
  end.

Definition ubus_cli_listen_timeout : stm ubus_context unit :=
  cli_modify (fun m => m <| timed_out := true |>);;
  uloop_end.

Definition do_listen : stm ubus_context unit :=
  cli_modify (fun m => m <| timed_out := false |>);;
  ubus_add_uloop;;
  lt ← cli_gets listen_timeout;
  (if negb (lt =? 0) then ms ← to_ms lt; cli_timer_set ms else mret tt);;
  uloop_run ubus_cli_listen_timeout events;;
  uloop_done.

(** The message when registering fails, and the result *)
Definition register_failed (event : string) (ret : Z) : stm ubus_context Z :=
  simple ← cli_gets simple_output;
  (if negb simple then
     text ← strerror ret;
     eprint ("Error while registering for event '" +:+ event +:+ "': " +:+ text)
   else mret tt);;
  mret (-1).

(** The loop of [ubus_cli_listen]: the result and the [event] it stopped at *)
Fixpoint listen_loop (ev : ptr) (event : string) (rest : list string) : stm ubus_context (Z * string) :=
  ret ← ubus_register_event_handler ev (Some event);
  if negb (ret =? 0) then mret (ret, event)
  else
    match rest with
    | [] => mret (ret, event)
    | event :: rest => listen_loop ev event rest
    end.

Definition ubus_cli_listen (argv : list string) : stm ubus_context Z :=
  ev ← new_local (lib_object_zero <| lo_event_cb := Some (call_event 0) |>);
  '(ret, event) ← match argv with
                  | event :: rest => listen_loop ev event rest
                  | [] => listen_loop ev "*" []
                  end;
  ret ← (if negb (ret =? 0) then register_failed event ret else do_listen;; mret 0);
  end_local (T := lib_object) ev;;
  mret ret.

(** The loop of [ubus_cli_subscribe] *)
Fixpoint subscribe_loop (sub : ptr) (argv : list string) : stm ubus_context Z :=
  match argv with
  | [] => mret 0
  | path :: argv =>
      '(ret, id) ← lookup_local_id indet path;
      if negb (ret =? 0) then mret ret
      else
        ret ← lib_subscribe sub id;
        if negb (ret =? 0) then mret ret else subscribe_loop sub argv
  end.

Definition ubus_cli_subscribe (argv : list string) : stm ubus_context Z :=
  match argv with
  | [] =>
      simple ← cli_gets simple_output;
      when (negb simple) (eprint "You need to specify an object to subscribe to");;
      mret (-1)
  | event :: _ =>
      sub ← new_local (lib_object_zero <| lo_subscriber := Some (mk_subscriber false (Some 0%nat) None None) |>);
      ret ← ubus_register_subscriber sub;
      ret ← (if negb (ret =? 0) then mret ret else subscribe_loop sub argv);
      ret ← (if negb (ret =? 0) then register_failed event ret else do_listen;; mret 0);
      end_local (T := lib_object) sub;;
      mret ret
  end.

Definition ubus_cli_send (argv : list string) : stm ubus_context Z :=
  match argv with
  | [id] => ubus_send_event id (blob_render [])
  | [id; json] =>
      match blobmsg_add_json_from_string json with
      | None => mret (UBUS_STATUS_PARSE_ERROR : Z)
      | Some b => ubus_send_event id (blob_render b)
      end
  | _ => mret (-2)
  end.

Definition wait_timeout : stm ubus_context unit := uloop_end.

(** [ubus_cli_wait_for] from [ubus_lookup] on *)
Definition wait_for_objects : stm ubus_context Z :=
  ret ← ubus_lookup None 1 priv_none;
  if negb (ret =? 0) then mret ret
  else
    pending ← cli_gets wait_pending;
    if bool_decide (pending = []) then mret ret
    else
      t ← cli_gets timeout;
      ms ← to_ms t;
      cli_timer_set ms;;
      uloop_run wait_timeout events;;
      uloop_done;;
      pending ← cli_gets wait_pending;
      mret (if bool_decide (pending = []) then ret else (UBUS_STATUS_TIMEOUT : Z)).

Definition ubus_cli_wait_for (argv : list string) : stm ubus_context Z :=
  if bool_decide (argv = []) then mret (-2)
  else
    cli_modify (fun m => m <| wait_pending := argv |>);;
    ev ← new_local (lib_object_zero <| lo_event_cb := Some (call_event 1) |>);
    ubus_add_uloop;;
    ret ← ubus_register_event_handler ev (Some "ubus.object.add");
    ret ← (if negb (ret =? 0) then mret ret
           else
             pending ← cli_gets wait_pending;
             if bool_decide (pending = []) then mret ret else wait_for_objects);
    end_local (T := lib_object) ev;;
    mret ret.

Definition ubus_cli_monitor (argv : list string) : stm ubus_context Z :=
  ubus_add_uloop;;
  modify (fun s => s <| ctx_monitor_cb := Some 0%nat |>);;
  ret ← ubus_monitor_start;
  if negb (ret =? 0) then mret ret
  else
    uloop_run (mret tt) events;;
    uloop_done;;
    ubus_monitor_stop;;
    mret 0.

(** ** [main] *)

Definition add_monitor_type (type : string) : stm ubus_context Z :=
  match find_monitor_type monitor_types type 0 with
  | Some i =>
      cli_modify (fun m => m <| monitor_mask ::= fun mask => Z.lor mask (Z.shiftl 1 i) |>);;
      mret 0
  | None => mret (-1)
  end.

Definition usage_text (prog : string) : list string :=
  ["Usage: " +:+ prog +:+ " [<options>] <command> [arguments...]";
   "Options:";
   " -s <socket>:" +:+ tab +:+ tab +:+ "Set the unix domain socket to connect to";
   " -t <timeout>:" +:+ tab +:+ tab +:+ "Set the timeout (in seconds) for a command to complete";
   " -S:" +:+ tab +:+ tab +:+ tab +:+ "Use simplified output (for scripts)";
   " -v:" +:+ tab +:+ tab +:+ tab +:+ "More verbose output";
   " -m <type>:" +:+ tab +:+ tab +:+ "(for monitor): include a specific message type";
   tab +:+ tab +:+ tab +:+ "(can be used more than once)";
   " -M <r|t>" +:+ tab +:+ tab +:+ "(for monitor): only capture received or transmitted traffic";
   "";
   "Commands:";
   " - list [<path>]" +:+ tab +:+ tab +:+ tab +:+ "List objects";
   " - call <path> <method> [<message>]" +:+ tab +:+ "Call an object method";
   " - subscribe <path> [<path>...]" +:+ tab +:+ "Subscribe to object(s) notifications";
   " - listen [<path>...]" +:+ tab +:+ tab +:+ tab +:+ "Listen for events";
   " - send <type> [<message>]" +:+ tab +:+ tab +:+ "Send an event";
   " - wait_for <object> [<object>...]" +:+ tab +:+ "Wait for multiple objects to appear on ubus";
   " - monitor" +:+ tab +:+ tab +:+ tab +:+ tab +:+ "Monitor ubus traffic";
   ""].

Definition usage (prog : string) : stm ubus_context Z :=
  for_each (usage_text prog) eprint;;
  mret 1.

Definition commands : list (string * (list string -> stm ubus_context Z)) :=
  [("list", ubus_cli_list); ("call", ubus_cli_call); ("listen", ubus_cli_listen); ("subscribe", ubus_cli_subscribe);
   ("send", ubus_cli_send); ("wait_for", ubus_cli_wait_for); ("monitor", ubus_cli_monitor)].

(** One turn of the loop over the options: [ubus_socket] after it, [None] when
    [main] returns [usage(progname)]; [atoi] of a number that is no [int] and an
    overflow of [verbose] are undefined. *)
Definition main_option (o : getopt_result) (ubus_socket : option string) : stm ubus_context (option (option string)) :=
  match o with
  | BadOption => mret None
  | Option c optarg =>
      if bool_decide (c = "s"%char) then mret (Some (Some optarg))
      else if bool_decide (c = "t"%char) then
        assert (i32 (atoi optarg) =? atoi optarg);;
        cli_modify (fun m => m <| listen_timeout := atoi optarg |> <| timeout := atoi optarg |>);;
        mret (Some ubus_socket)
      else if bool_decide (c = "S"%char) then
        cli_modify (fun m => m <| simple_output := true |>);;
        mret (Some ubus_socket)
      else if bool_decide (c = "v"%char) then
        v ← cli_gets verbose;
        assert (v <? 2 ^ 31 - 1);;
        cli_modify (fun m => m <| verbose := v + 1 |>);;
        mret (Some ubus_socket)
      else if bool_decide (c = "m"%char) then
        ret ← add_monitor_type optarg;
        mret (if negb (ret =? 0) then None else Some ubus_socket)
      else if bool_decide (c = "M"%char) then
        match String.get 0 optarg with
        | Some "r"%char => cli_modify (fun m => m <| monitor_dir := 0 |>);; mret (Some ubus_socket)
        | Some "t"%char => cli_modify (fun m => m <| monitor_dir := 1 |>);; mret (Some ubus_socket)
        | _ => mret None
        end
      else mret None
  end.

Fixpoint main_options (l : list getopt_result) (ubus_socket : option string) : stm ubus_context (option (option string)) :=
  match l with
  | [] => mret (Some ubus_socket)
  | o :: l =>
      r ← main_option o ubus_socket;
      match r with
      | None => mret None
      | Some ubus_socket => main_options l ubus_socket
      end
  end.

(** The loop over [commands] *)
Definition find_command (cmd : string) : option (list string -> stm ubus_context Z) :=
  snd <$> List.find (fun c => strcmp (fst c) cmd =? 0) commands.

(** From [ret = -2] to the return *)
Definition run_command (progname cmd : string) (argv : list string) : stm ubus_context Z :=
  ret ← match find_command cmd with
        | Some cb => cb argv
        | None => mret (-2)
        end;
  simple ← cli_gets simple_output;
  (if (0 <? ret) && negb simple then
     text ← strerror ret;
     eprint ("Command failed: " +:+ text)
   else if ret =? -2 then usage progname;; mret tt
   else mret tt);;
  ubus_shutdown;;
  mret ret.

Definition cli_main (progname : string) (argv : list string) : stm ubus_context Z :=
  let '(options, argv) := getopt "m:M:vs:t:S" argv in
  ubus_socket ← main_options options None;
  match ubus_socket, argv with
  | Some ubus_socket, cmd :: argv =>
      ctx ← ubus_connect usock UBUS_UNIX_SOCKET ubus_socket;
      if negb ctx then
        simple ← cli_gets simple_output;
        when (negb simple) (eprint "Failed to connect to ubus");;
        mret (-1)
      else run_command progname cmd argv
  | _, _ => usage progname
  end.
End Cli.
