(* ===== verification/CliThms.v ===== *)
(** * Properties of the command line client

    Which messages [ubus monitor] shows and how (from the daemon's
    [ubusd_monitor_message] to the printed line), how the options select them,
    when [ubus wait_for] ends; the library's loops end for this program. *)

From stdpp Require Import base gmap strings list fin_maps pretty.
From Stdlib Require Import ZArith Lia Ascii.
From S2P Require Import Prelude Wire Cstring Libubox LibuboxModel Ids State MsgBuf LibState LibIo LibCalls LibReq LibObj LibMain LibConn ProgLib LibLoops LibSafe Cli.
Local Open Scope string_scope.
Local Open Scope Z_scope.
Local Open Scope ubus_scope.

(** ** What a result says about the state it comes with *)

Definition yields {S A} (P : A -> S -> Prop) (m : stm S A) : Prop := forall s a s', m s = Some (a, s') -> P a s'.

Lemma yi_bind {S A B} (P : B -> S -> Prop) (m : stm S A) (k : A -> stm S B) :
  (forall a, yields P (k a)) -> yields P (m ≫= k).
Proof. intros Hk s b s'. unfold mbind, stm_bind. destruct (m s) as [[a s1]|]; [apply Hk|done]. Qed.

Lemma yi_then {S A B} (P : A -> S -> Prop) (Q : B -> S -> Prop) (m : stm S A) (k : A -> stm S B) :
  yields P m -> (forall a s b s', P a s -> k a s = Some (b, s') -> Q b s') -> yields Q (m ≫= k).
Proof.
  intros Hm Hk s b s'. unfold mbind, stm_bind. destruct (m s) as [[a s1]|] eqn:E; [|done]. apply Hk. by eapply Hm.
Qed.

(** ** Waiting for objects *)

Lemma wait_check_loop_spec fuel path l i :
  (length l - i <= fuel)%nat ->
  wait_check_loop fuel path l i = (take i l ++ filter (fun p => p <> path) (drop i l))%list.
Proof.
  revert l i. induction fuel as [|fuel IH]; intros l i Hf; cbn [wait_check_loop].
  { by rewrite drop_ge, take_ge, app_nil_r by lia. }
  destruct (l !! i) as [p|] eqn:E.
  2: { apply lookup_ge_None in E. by rewrite drop_ge, take_ge, app_nil_r by lia. }
  pose proof (lookup_lt_Some _ _ _ E) as Hi. rewrite (drop_S _ _ _ E). destruct (Z.eqb_spec (strcmp path p) 0) as [Hp%strcmp_eq|Hp]; cbn [negb].
  - subst p. rewrite filter_cons_False by naive_solver. destruct (Nat.eqb_spec i (length l - 1)).
    + by rewrite drop_ge, app_nil_r by lia.
    + rewrite IH by (rewrite length_app, length_take, length_drop; lia).
      rewrite take_app_length', drop_app_length' by (rewrite length_take; lia). done.
  - rewrite filter_cons_True by (intros ->; apply Hp; by apply strcmp_eq).
    rewrite IH by lia. rewrite (take_S_r _ _ _ E), <- app_assoc. done.
Qed.

(** ** Selecting message types *)

Lemma find_monitor_type_Some l t k i :
  find_monitor_type l t k = Some i -> k <= i /\ l !! Z.to_nat (i - k) = Some t.
Proof.
  revert k. induction l as [|t' l IH]; intros k; simpl; [done|].
  destruct (Z.eqb_spec (strcmp t' t) 0) as [->%strcmp_eq|]; cbn [negb].
  - intros [= ->]. by rewrite Z.sub_diag.
  - intros [Hk Hl]%IH. split; [lia|]. by replace (Z.to_nat (i - k)) with (S (Z.to_nat (i - (k + 1)))) by lia.
Qed.

Lemma find_monitor_type_None l t k : find_monitor_type l t k = None <-> t ∉ l.
Proof.
  revert k. induction l as [|t' l IH]; intros k; simpl; [set_solver|].
  destruct (Z.eqb_spec (strcmp t' t) 0) as [->%strcmp_eq|Hne]; cbn [negb]; [set_solver|].
  rewrite IH, not_elem_of_cons. rewrite (strcmp_eq t' t) in Hne. naive_solver.
Qed.

Definition type_bit (t : string) : Z :=
  match find_monitor_type monitor_types t 0 with Some i => Z.shiftl 1 i | None => 0 end.

Lemma type_bit_spec t n : 0 <= n -> Z.testbit (type_bit t) n = true <-> monitor_types !! Z.to_nat n = Some t.
Proof.
  intros Hn. unfold type_bit. destruct (find_monitor_type _ _ _) as [i|] eqn:E.
  - apply find_monitor_type_Some in E as [Hi Hl]. rewrite Z.sub_0_r in Hl. rewrite Z.shiftl_1_l, Z.pow2_bits_eqb, Z.eqb_eq by done.
    split; [by intros ->|]. intros Hl'. assert (NoDup monitor_types) as Hnd by (apply (bool_decide_unpack _); by vm_compute).
    pose proof (proj1 (NoDup_alt _) Hnd _ _ _ Hl Hl'). lia.
  - rewrite Z.bits_0. split; [done|]. intros Hl%list_elem_of_lookup_2. by apply find_monitor_type_None in E.
Qed.

Definition select_types (types : list string) (mask : Z) : Z := foldl (fun mask t => Z.lor mask (type_bit t)) mask types.

Lemma select_types_spec types mask n : 0 <= n ->
  Z.testbit (select_types types mask) n = true <->
  Z.testbit mask n = true \/ exists t, t ∈ types /\ monitor_types !! Z.to_nat n = Some t.
Proof.
  intros Hn. unfold select_types. revert mask. induction types as [|t types IH]; intros mask; simpl; [set_solver|].
  rewrite IH, Z.lor_spec, orb_true_iff, (type_bit_spec t n Hn). set_solver.
Qed.

(** The arguments with which the types are selected *)
Definition type_args (types : list string) : list string := concat ((fun t => ["-m"; t]) <$> types).

Lemma getopt_types types cmd rest : plain_word cmd = true ->
  getopt "m:M:vs:t:S" (type_args types ++ cmd :: rest) = (Option "m"%char <$> types, cmd :: rest).
Proof.
  intros Hc. induction types as [|t types IH].
  - by apply getopt_plain.
  - change (type_args (t :: types) ++ cmd :: rest)%list with ("-m" :: t :: (type_args types ++ cmd :: rest))%list.
    cbn [getopt]. rewrite IH. reflexivity.
Qed.

Section CliThms.
Context `{AL : AvlLib} `{BL : BlobLib} `{JL : JsonLib}.
Implicit Types (s : ubus_context) (m : cli_state).

(** An object that has appeared is taken off the list, and the loop ended when
    none is left. *)
Definition seen (path : string) s : ubus_context :=
  let rest := filter (fun p => p <> path) (wait_pending (ctx_mem s)) in
  let s1 := with_cli (fun m => m <| wait_pending := rest |> <| wait_seen ::= cons path |>) s in
  if decide (rest = []) then s1 <| uloop_ended := true |> <| uloop_cancelling := uloop_running (ctx_mem s) |> else s1.

Lemma wait_check_seen path s : wait_check_object path s = Some (tt, seen path s).
Proof.
  unfold wait_check_object, seen, cli_modify, cli_gets, uloop_end, modify, gets, mbind, stm_bind. cbn.
  rewrite wait_check_loop_spec by lia. rewrite take_0, drop_0. cbn [app].
  case_bool_decide; case_decide; done.
Qed.

(** What a callback does stays a callback's doing: no callback of the client
    touches the socket, the requests or the queue. *)
#[local] Hint Resolve follows_preorder : within.
#[export] Instance cli_quiet : Quiet (PR := cli_program).
Proof.
  assert (forall f, within follows (cli_modify f)) as Hm.
  { intros f. apply wi_modify. intros s. by split. }
  assert (forall path, within follows (wait_check_object path)) as Hw.
  { intros path s a s'. rewrite wait_check_seen. intros [= _ <-]. unfold seen. case_decide; by split. }
  split; cbn [program nested_subscribe cli_program].
  - intros c. unfold cli_callback, receive_call_result_data, receive_list_result, wait_list_cb, receive_event, wait_event_cb,
      receive_request, ubus_cli_monitor_cb, print_event, print, cli_gets. destruct c; solve_within.
  - intros p id. apply wi_undefined.
Qed.

(** Nor do they start requests: the client keeps the library's request list in
    order. *)
#[export] Instance cli_careful : Careful (PR := cli_program) (fun _ => False).
Proof.
  assert (forall f, within (safe (fun _ => False)) (cli_modify f)) as Hm.
  { intros f. apply wi_modify. intros s. by apply same_safe. }
  assert (forall path, within (safe (fun _ => False)) (wait_check_object path)) as Hw.
  { intros path s a s'. rewrite wait_check_seen. intros [= _ <-]. unfold seen. case_decide; by apply same_safe. }
  assert (PreOrder (safe (fun _ => False))) as HP by apply _.
  split; cbn [program nested_subscribe cli_program].
  - intros c. unfold cli_callback, receive_call_result_data, receive_list_result, wait_list_cb, receive_event, wait_event_cb,
      receive_request, ubus_cli_monitor_cb, print_event, print, cli_gets. destruct c; solve_within.
  - intros p id. apply wi_undefined.
Qed.

(** Success means that the list is empty. *)
Definition empties (ret : Z) s : Prop := ret = 0 -> wait_pending (ctx_mem s) = [].

Lemma pending_empties ret other : other <> 0 ->
  yields empties (pending ← cli_gets wait_pending; mret (if bool_decide (pending = []) then ret else other)).
Proof. intros Ho s a s' [= <- <-]. unfold empties. by case_bool_decide. Qed.

Lemma wait_for_empties events argv : yields empties (ubus_cli_wait_for events argv).
Proof.
  assert (forall ret : Z, ret <> 0 -> yields empties (mret ret)) as Hne by (by intros ret Hr s a s' [= <- <-] ?).
  assert (forall m : stm ubus_context Z, yields empties m ->
    yields empties (pending ← cli_gets wait_pending; if bool_decide (pending = []) then mret 0 else m)) as Hp.
  { intros m Hm s a s'. unfold cli_gets, gets, mbind, stm_bind. case_bool_decide; [|apply Hm]. by intros [= <- <-] _. }
  assert (yields empties (wait_for_objects events)) as Hw.
  { unfold wait_for_objects. apply yi_bind. intros ret. destruct (Z.eqb_spec ret 0) as [->|]; [|by apply Hne]. apply Hp.
    do 5 (apply yi_bind; intros ?). by apply pending_empties. }
  unfold ubus_cli_wait_for. case_bool_decide; [by apply Hne|]. do 4 (apply yi_bind; intros ?).
  eapply yi_then; [|intros ret s b s' He; unfold mbind, stm_bind, end_local].
  { destruct (Z.eqb_spec a2 0) as [->|]; [|by apply Hne]. by apply Hp. }
  destruct (lheap s !! a0); [|done]. by intros [= <- <-].
Qed.

(** The list of what is waited for shrinks by the paths seen, and by nothing
    else. *)
Definition seen_off m m' : Prop :=
  exists l, wait_seen m' = (l ++ wait_seen m)%list /\ wait_pending m' = filter (fun p => p ∉ l) (wait_pending m).

Lemma filter_no_paths (l : list string) : filter (fun p => p ∉ []) l = l.
Proof. induction l as [|p l IH]; [done|]. rewrite filter_cons_True by set_solver. by rewrite IH. Qed.

#[local] Instance seen_off_preorder : PreOrder seen_off.
Proof.
  split.
  - intros m. exists []. split; [done|]. by rewrite filter_no_paths.
  - intros m1 m2 m3 (l1 & E1 & F1) (l2 & E2 & F2). exists (l2 ++ l1)%list. split; [by rewrite E2, E1, app_assoc|].
    rewrite F2, F1, list_filter_filter. apply list_filter_iff. set_solver.
Qed.

(** Code of the program that leaves both lists alone *)
Lemma off_same (f : ubus_context -> ubus_context) :
  (forall s, wait_seen (ctx_mem (f s)) = wait_seen (ctx_mem s) /\ wait_pending (ctx_mem (f s)) = wait_pending (ctx_mem s)) ->
  within (mem_by seen_off) (modify f).
Proof.
  intros H s a s' [= _ <-]. destruct (H s) as [Hs Hp]. exists []. rewrite Hs, Hp. split; [done|].
  by rewrite filter_no_paths.
Qed.

Lemma off_check path : within (mem_by seen_off) (wait_check_object path).
Proof.
  intros s a s'. rewrite wait_check_seen. intros [= _ <-]. exists [path].
  unfold seen. case_decide; cbn; (split; [done|]); apply list_filter_iff; set_solver.
Qed.

#[local] Instance mem_off_preorder : PreOrder (mem_by seen_off).
Proof. apply mem_by_preorder, _. Qed.
#[local] Hint Resolve off_check mem_off_preorder : within.
#[local] Hint Extern 1 (within (mem_by seen_off) (modify _)) => (apply off_same; done) : within.

Lemma off_callback c : within (mem_by seen_off) (cli_callback c).
Proof.
  unfold cli_callback, receive_call_result_data, receive_list_result, wait_list_cb, receive_event, wait_event_cb,
    receive_request, ubus_cli_monitor_cb, print_event, print, cli_gets, cli_modify. destruct c; solve_within.
Qed.
Lemma off_subscribe p id : within (mem_by seen_off) (nested_subscribe (Program := cli_program) p id).
Proof. apply wi_undefined. Qed.

Lemma off_uloop events : within (mem_by seen_off) (uloop_run wait_timeout events).
Proof.
  assert (within (mem_by seen_off) (uloop_events wait_timeout events)) as He.
  { induction events as [|e events IH]; cbn [uloop_events]; [solve_within|]. unfold loop_turn, wait_timeout, uloop_end, cli_modify, cli_gets.
    pose proof (mb_handle_data seen_off off_callback off_subscribe). pose proof (mb_process_pending seen_off off_callback off_subscribe).
    solve_within. }
  unfold uloop_run, cli_modify. solve_within.
Qed.

(** [ubus_cli_wait_for] once it knows its arguments *)
Lemma off_wait events ev :
  within (mem_by seen_off)
    (ubus_add_uloop;;
     ret ← ubus_register_event_handler ev (Some "ubus.object.add");
     ret ← (if negb (ret =? 0) then mret ret
            else
              pending ← cli_gets wait_pending;
              if bool_decide (pending = []) then mret ret else wait_for_objects events);
     end_local (T := lib_object) ev;;
     mret ret).
Proof.
  pose proof (off_uloop events). pose proof (mb_register_event seen_off off_callback off_subscribe ev (Some "ubus.object.add")).
  pose proof (mb_lookup seen_off off_callback off_subscribe None 1 priv_none).
  assert (within (mem_by seen_off) (end_local (T := lib_object) ev)) by (apply mb_end_local; [apply _|done]).
  unfold ubus_add_uloop, wait_for_objects, to_ms, cli_timer_set, uloop_done, cli_gets, cli_modify. solve_within.
Qed.

(** An object's path is announced in the [path] field of the event
    [ubus.object.add]. *)
Definition announces (type : string) (msg : bytes) (path : string) : Prop :=
  type = "ubus.object.add" /\
  exists attr, blobmsg_parse (blob_data msg) "path" BLOBMSG_TYPE_STRING = Some attr /\ path = blobmsg_get_string attr.

(** C24: What [ubus wait_for] waits for.  [wait_check_object], which deletes
    entries from the array while it walks over it, removes exactly the entries
    equal to the path (all of them, in any position), keeps the others in order,
    and ends the loop exactly when nothing is left.  It is called with the path of
    every object that the lookup lists and of every object that an
    [ubus.object.add] event announces; other events, and those without a path,
    change nothing.  When the command reports success it was given at least one
    path, and each of the paths it was given was listed or announced while it ran
    ([l]: the paths [wait_check_object] was called with meanwhile). *)
Theorem wait_for_exact s :
  (forall path, wait_check_object path s = Some (tt, seen path s)) /\
  (forall obj, wait_list_cb obj s = Some (tt, seen (od_path obj) s)) /\
  (forall type msg path, announces type msg path -> wait_event_cb type msg s = Some (tt, seen path s)) /\
  (forall type msg, (forall path, ~ announces type msg path) -> wait_event_cb type msg s = Some (tt, s)) /\
  (forall events argv s', ubus_cli_wait_for events argv s = Some (0, s') ->
     argv <> [] /\
     exists l, wait_seen (ctx_mem s') = (l ++ wait_seen (ctx_mem s))%list /\ forall path, path ∈ argv -> path ∈ l).
Proof.
  split; [intros; apply wait_check_seen|]. split; [intros; apply wait_check_seen|]. unfold wait_event_cb. split; [|split].
  - intros type msg path (-> & attr & -> & ->). rewrite (proj2 (strcmp_eq _ _) eq_refl). apply wait_check_seen.
  - intros type msg Hno. destruct (Z.eqb_spec (strcmp type "ubus.object.add") 0) as [->%strcmp_eq|]; cbn [negb]; [|done].
    destruct (blobmsg_parse _ _ _) as [attr|] eqn:E; [|done]. exfalso. apply (Hno (blobmsg_get_string attr)). split; [done|].
    by exists attr.
  - intros events argv s' H. pose proof (wait_for_empties _ _ _ _ _ H eq_refl) as Hnil. revert H.
    unfold ubus_cli_wait_for. case_bool_decide as Ha; [done|]. intros H. split; [done|]. revert H.
    unfold cli_modify at 1, modify at 1, new_local at 1. unfold mbind at 1 2, stm_bind at 1 2. cbn -[ubus_add_uloop].
    intros H. apply off_wait in H as (l & El & Ep). cbn in El, Ep. exists l. split; [done|].
    rewrite Hnil in Ep. symmetry in Ep. intros path Hp. destruct (decide (path ∈ l)) as [|Hl]; [done|].
    assert (path ∈ filter (fun p => p ∉ l) argv) as Hf by by apply list_elem_of_filter.
    rewrite Ep in Hf. set_solver.
Qed.

(** ** Monitoring *)

Lemma add_type_run t s : t ∈ monitor_types ->
  add_monitor_type t s = Some (0, with_cli (fun m => m <| monitor_mask ::= fun mask => Z.lor mask (type_bit t) |>) s).
Proof.
  intros Ht. unfold add_monitor_type, type_bit. destruct (find_monitor_type _ _ _) eqn:E; [done|].
  by apply find_monitor_type_None in E.
Qed.

Lemma main_options_types types sock s : Forall (.∈ monitor_types) types ->
  main_options (Option "m"%char <$> types) sock s =
    Some (Some sock, with_cli (fun m => m <| monitor_mask ::= select_types types |>) s).
Proof.
  intros Hall. revert s. induction Hall as [|t types Ht Hall IH]; intros s.
  - destruct s as [? ? ? ? ? ? ? ? ? ? ? ? ? ? ? ? ? ? ? ? ? ? ? ? ? ? ? ? ? ? ? ? ? ? ? ? ? mem ?]. by destruct mem.
  - rewrite fmap_cons. cbn [main_options]. unfold mbind, stm_bind. unfold main_option.
    rewrite bool_decide_eq_false_2, bool_decide_eq_false_2, bool_decide_eq_false_2, bool_decide_eq_false_2, bool_decide_eq_true_2 by done.
    unfold mbind, stm_bind. rewrite add_type_run by done. cbn [negb Z.eqb]. unfold mret, stm_ret. by rewrite IH.
Qed.

Lemma main_options_unknown types sock s : Exists (.∉ monitor_types) types ->
  exists mask, main_options (Option "m"%char <$> types) sock s = Some (None, with_cli (fun m => m <| monitor_mask := mask |>) s).
Proof.
  revert s. induction types as [|t types IH]; intros s He; [by apply Exists_nil in He|].
  rewrite fmap_cons. cbn [main_options]. unfold mbind, stm_bind. unfold main_option.
  rewrite bool_decide_eq_false_2, bool_decide_eq_false_2, bool_decide_eq_false_2, bool_decide_eq_false_2, bool_decide_eq_true_2 by done.
  unfold mbind, stm_bind. destruct (decide (t ∈ monitor_types)) as [Ht|Ht].
  - rewrite add_type_run by done. cbn [negb Z.eqb]. unfold mret, stm_ret. apply Exists_cons in He as [|He]; [done|].
    destruct (IH (with_cli (fun m => m <| monitor_mask ::= fun mask => Z.lor mask (type_bit t) |>) s) He) as [mask Hm].
    rewrite Hm. by exists mask.
  - unfold add_monitor_type. rewrite (proj2 (find_monitor_type_None _ _ _) Ht). exists (monitor_mask (ctx_mem s)). cbn.
    destruct s as [? ? ? ? ? ? ? ? ? ? ? ? ? ? ? ? ? ? ? ? ? ? ? ? ? ? ? ? ? ? ? ? ? ? ? ? ? mem ?]. by destruct mem.
Qed.

Context `{!BlobLaws BL} `{!BlobParseLaws BL} `{!BlobViewLaws BL}.

(** Does the selection made with [-m] and [-M] let a message through? *)
Definition shows m (type : Z) (send : bool) : bool :=
  ((monitor_mask m =? 0) || (32 <=? type) || Z.testbit (monitor_mask m) type) &&
  ((monitor_dir m <? 0) || (monitor_dir m =? if send then 1 else 0)).

Lemma eprint_all l s :
  for_each l eprint s = Some (tt, with_cli (fun m => m <| cli_stderr ::= fun old => (old ++ l)%list |>) s).
Proof.
  revert s. induction l as [|x l IH]; intros s.
  - destruct s as [? ? ? ? ? ? ? ? ? ? ? ? ? ? ? ? ? ? ? ? ? ? ? ? ? ? ? ? ? ? ? ? ? ? ? ? ? mem ?]. destruct mem. simpl.
    unfold mret, stm_ret, with_cli. cbn. by rewrite app_nil_r.
  - cbn [for_each]. unfold mbind, stm_bind. cbn [eprint]. unfold eprint, cli_modify, modify. rewrite IH. unfold with_cli. cbn.
    by rewrite <- app_assoc.
Qed.

Lemma usage_run prog s :
  usage prog s = Some (1, with_cli (fun m => m <| cli_stderr ::= fun old => (old ++ usage_text prog)%list |>) s).
Proof. unfold usage, mbind, stm_bind. by rewrite eprint_all. Qed.

(** The options -m select what they name: given any number of them, all with
    names of message types, a message is let through exactly when no -m was
    given, or its type is one of those named, or is beyond the 32 bits of the
    mask - and its direction is the one selected with -M, if any. With a name
    that is none, the program prints its usage and ends before it connects. *)
Theorem monitor_selected (types : list string) (prog cmd : string) (rest : list string)
    (usock : string -> option connection) (path : string) (indet : Z) (events : list loop_event) s :
  plain_word cmd = true -> monitor_mask (ctx_mem s) = 0 ->
  (Forall (.∈ monitor_types) types ->
   exists s', (let '(options, args) := getopt "m:M:vs:t:S" (type_args types ++ cmd :: rest) in
               r ← main_options options None; mret (r, args)) s = Some (Some None, cmd :: rest, s') /\
     forall type send, 0 <= type ->
       shows (ctx_mem s') type send = true <->
       (types = [] \/ 32 <= type \/ exists t, t ∈ types /\ monitor_types !! Z.to_nat type = Some t) /\
       (monitor_dir (ctx_mem s) < 0 \/ monitor_dir (ctx_mem s) = if send then 1 else 0)) /\
  (Exists (.∉ monitor_types) types ->
   exists mask, cli_main usock path indet events prog (type_args types ++ cmd :: rest) s =
     Some (1, with_cli (fun m => m <| monitor_mask := mask |> <| cli_stderr ::= fun old => (old ++ usage_text prog)%list |>) s)).
Proof.
  intros Hc Hmask. split; intros Ht.
  - rewrite getopt_types by done. unfold mbind, stm_bind. rewrite main_options_types by done. eexists. split; [reflexivity|].
    intros type send Hn. unfold shows. cbn -[select_types]. rewrite Hmask, andb_true_iff, !orb_true_iff, Z.eqb_eq, Z.leb_le, Z.ltb_lt, Z.eqb_eq.
    rewrite select_types_spec by done. rewrite Z.bits_0. apply and_iff_compat_r. enough (select_types types 0 = 0 <-> types = []) by naive_solver.
    split; [|by intros ->]. destruct types as [|t types]; [done|]. intros H0. exfalso.
    apply Forall_cons in Ht as [(i & Hi)%list_elem_of_lookup_1 _].
    assert (Z.testbit (select_types (t :: types) 0) (Z.of_nat i) = true) as Hb.
    { apply select_types_spec; [lia|]. right. exists t. rewrite Nat2Z.id. split; [left|done]. }
    by rewrite H0, Z.bits_0 in Hb.
  - destruct (main_options_unknown types None s Ht) as [mask Hm]. exists mask. unfold cli_main. rewrite getopt_types by done.
    unfold mbind, stm_bind. rewrite Hm. by rewrite usage_run.
Qed.

Lemma monitor_filtered_spec m type send : 0 <= type -> monitor_filtered m type send = negb (shows m type send).
Proof.
  intros Ht. unfold monitor_filtered, shows. rewrite negb_andb, !negb_orb, Z.ltb_antisym. f_equal.
  - f_equal. destruct (Z.testbit (monitor_mask m) type) eqn:E; cbn [negb].
    + apply Z.eqb_neq. intros H. assert (Z.testbit (Z.land (monitor_mask m) (Z.shiftl 1 type)) type = true) as H1.
      { rewrite Z.land_spec, E, Z.shiftl_spec, Z.sub_diag by lia. done. }
      rewrite H in H1. by rewrite Z.bits_0 in H1.
    + apply Z.eqb_eq. apply Z.bits_inj'. intros n Hn. rewrite Z.bits_0, Z.land_spec, Z.shiftl_spec by lia.
      destruct (Z.eqb_spec n type) as [->|]; [by rewrite E|].
      destruct (Z.ltb_spec n type); [rewrite (Z.testbit_neg_r 1 (n - type)) by lia; by rewrite andb_false_r|].
      rewrite (Z.bits_above_log2 1 (n - type)) by (simpl; lia). by rewrite andb_false_r.
  - rewrite Z.ltb_antisym. f_equal; [by rewrite negb_involutive|]. by rewrite Z.eqb_sym.
Qed.

Lemma monitor_puts_ok c u send :
  Z.of_nat (length (blob_data (ub_data u))) < 2 ^ 24 - 64 -> puts_ok (monitor_puts c u send).
Proof.
  intros Hl. split.
  - unfold monitor_puts. repeat constructor; eexists; (split; [reflexivity|simpl; lia]).
  - unfold monitor_puts. cbn -[monitor_code]. apply (bool_decide_unpack _). by vm_compute.
  - unfold monitor_puts. by repeat constructor.
  - unfold monitor_puts. cbn -[blob_data Z.pow]. lia.
Qed.

(** What a message type is called *)
Definition type_label (t : ubus_msg_type) : option string :=
  match t with
  | UBUS_MSG_HELLO => Some "hello"
  | UBUS_MSG_STATUS => Some "status"
  | UBUS_MSG_DATA => Some "data"
  | UBUS_MSG_PING => Some "ping"
  | UBUS_MSG_LOOKUP => Some "lookup"
  | UBUS_MSG_INVOKE => Some "invoke"
  | UBUS_MSG_ADD_OBJECT => Some "add_object"
  | UBUS_MSG_REMOVE_OBJECT => Some "remove_object"
  | UBUS_MSG_SUBSCRIBE => Some "subscribe"
  | UBUS_MSG_UNSUBSCRIBE => Some "unsubscribe"
  | UBUS_MSG_NOTIFY => Some "notify"
  | UBUS_MSG_MONITOR => None
  end.

(** Any other is shown as its number. *)
Definition label_of (type : Z) : string :=
  default (String.substring 0 15 (pretty (i32 type))) (msg_of_code type ≫= type_label).

Lemma msg_type_label type : 0 <= type -> ubus_cli_msg_type type = label_of type.
Proof.
  intros H0. unfold ubus_cli_msg_type, label_of. destruct (Z.ltb_spec type (Z.of_nat (length monitor_types))) as [Hlt|Hge].
  - simpl in Hlt. assert (type ∈ seqZ 0 11) as Hin by (apply elem_of_seqZ; lia). clear H0 Hlt. revert type Hin.
    apply Forall_forall. by repeat constructor.
  - destruct (msg_of_code type) as [t|] eqn:E; [|done]. apply msg_code_of_code in E. simpl in Hge. by destruct t; simpl in E; try lia.
Qed.

(** How the attributes of a message are called, in the order in which they are
    shown *)
Definition attr_labels : list (ubus_msg_attr * string) :=
  [(UBUS_ATTR_STATUS, "status"); (UBUS_ATTR_OBJPATH, "objpath"); (UBUS_ATTR_OBJID, "objid"); (UBUS_ATTR_METHOD, "method");
   (UBUS_ATTR_OBJTYPE, "objtype"); (UBUS_ATTR_SIGNATURE, "signature"); (UBUS_ATTR_DATA, "data"); (UBUS_ATTR_ACTIVE, "active");
   (UBUS_ATTR_NO_REPLY, "no_reply"); (UBUS_ATTR_USER, "user"); (UBUS_ATTR_GROUP, "group")].

(** An attribute of the message as a field of what is printed *)
Definition shown_field (name : string) (p : put) : list put :=
  match p with
  | put_int32 _ v => [msg_u32 name (u32 v)]
  | put_int8 _ v => [msg_field BLOBMSG_TYPE_INT8 name [if u8 v =? 0 then 0 else 1]]
  | put_string _ s => [msg_string name s]
  | put_blob _ payload => [msg_field BLOBMSG_TYPE_TABLE name payload]
  | _ => []
  end.

Definition attr_of (l : list put) (a : ubus_msg_attr) : option put := List.find (fun p => bool_decide (put_id p = Some (a : Z))) l.

(** What is printed of a message with the attributes [l] *)
Definition shown_fields (l : list put) : list put :=
  concat ((fun e => match attr_of l e.1 with Some p => shown_field e.2 p | None => [] end) <$> attr_labels).

(** The attributes have the types of the protocol. *)
Definition typed_ok (p : put) : Prop :=
  match p with
  | put_int32 id _ => id ∈ (attr_code <$> [UBUS_ATTR_STATUS; UBUS_ATTR_OBJID; UBUS_ATTR_OBJTYPE; UBUS_ATTR_TARGET])
  | put_int8 id _ => id ∈ (attr_code <$> [UBUS_ATTR_ACTIVE; UBUS_ATTR_NO_REPLY])
  | put_string id _ => id ∈ (attr_code <$> [UBUS_ATTR_OBJPATH; UBUS_ATTR_METHOD; UBUS_ATTR_USER; UBUS_ATTR_GROUP])
  | put_blob id _ => id ∈ (attr_code <$> [UBUS_ATTR_SIGNATURE; UBUS_ATTR_DATA; UBUS_ATTR_SUBSCRIBERS])
  | _ => False
  end.

Lemma typed_accepted p id : typed_ok p -> put_id p = Some id -> accepts (monitor_data_policy id) p = true.
Proof. destruct p; try done; simpl; intros H [= <-]; set_unfold in H; repeat destruct H as [->|H]; done. Qed.

Lemma attr_of_spec l a p : attr_of l a = Some p -> p ∈ l /\ put_id p = Some (a : Z).
Proof. intros [H1%list_elem_of_In H2%bool_decide_eq_true]%List.find_some. done. Qed.

Lemma attr_of_none l a : attr_of l a = None -> (a : Z) ∉ omap put_id l.
Proof.
  intros H. rewrite list_elem_of_omap. intros (p & Hp%list_elem_of_In & Ha).
  apply (List.find_none _ _ H) in Hp. by apply bool_decide_eq_false in Hp.
Qed.

Section MonitorData.
Context (l : list put) (Hok : puts_ok l) (Ht : Forall typed_ok l).
Let tb := blob_parse_untrusted monitor_data_policy UBUS_ATTR_MAX (blob_render l) (blob_raw_len (blob_render l)).

(** One turn of the loop *)
Lemma monitor_data_put_shown (a : ubus_msg_attr) n :
  monitor_data_name a = Some n ->
  monitor_data_put tb a = match attr_of l a with Some p => shown_field n p | None => [] end.
Proof.
  intros Hn. unfold monitor_data_put. rewrite Hn. destruct (attr_of l a) as [p|] eqn:E.
  - apply attr_of_spec in E as [Hp Hid]. rewrite Forall_forall in Ht. pose proof (Ht p Hp) as Hty.
    pose proof (typed_accepted p a Hty Hid) as Hacc. assert ((a : Z) < UBUS_ATTR_MAX) as Hmax by (by destruct a).
    destruct (blob_parse_found monitor_data_policy UBUS_ATTR_MAX l p a Hok Hp Hid Hmax Hacc) as (x & Hx & Hh).
    pose proof (blob_parse_views monitor_data_policy UBUS_ATTR_MAX l p a x Hok Hp Hid Hmax Hacc Hx) as Hv.
    unfold tb. rewrite Hx. clear Hx Hid Hmax Hp.
    destruct a; simpl in Hn; try discriminate Hn; injection Hn as <-; destruct p; simpl in Hacc; try discriminate Hacc; simpl in Hh, Hv |- *.
    all: first [by rewrite Hh|by rewrite Hv|by rewrite (proj1 Hh)|by rewrite (proj1 Hv)].
  - unfold tb. rewrite blob_parse_absent; [done|done|]. by apply attr_of_none.
Qed.

Lemma monitor_data_shown a :
  sizeof_blob_attr <= blob_raw_len a -> sizeof_blob_attr <= blob_raw_len (blob_render l) -> blob_data a = blob_data (blob_render l) ->
  ubus_cli_get_monitor_data a = blobmsg_format_json (blob_render (shown_fields l)) true.
Proof.
  intros Ha Hr Hd. unfold ubus_cli_get_monitor_data. f_equal. f_equal.
  assert (forall i, blob_parse_untrusted monitor_data_policy UBUS_ATTR_MAX a (blob_raw_len a) i = tb i) as Htb.
  { intros i. by apply blob_parse_payload. }
  assert (forall i, monitor_data_put (blob_parse_untrusted monitor_data_policy UBUS_ATTR_MAX a (blob_raw_len a)) i =
    monitor_data_put tb i) as Hput by (intros i; unfold monitor_data_put; by rewrite Htb).
  erewrite list_fmap_ext; [|intros; apply Hput]. clear Hput Htb.
  change (seqZ 0 UBUS_ATTR_MAX) with (attr_code <$> [UBUS_ATTR_UNSPEC; UBUS_ATTR_STATUS; UBUS_ATTR_OBJPATH; UBUS_ATTR_OBJID; UBUS_ATTR_METHOD;
    UBUS_ATTR_OBJTYPE; UBUS_ATTR_SIGNATURE; UBUS_ATTR_DATA; UBUS_ATTR_TARGET; UBUS_ATTR_ACTIVE; UBUS_ATTR_NO_REPLY; UBUS_ATTR_SUBSCRIBERS;
    UBUS_ATTR_USER; UBUS_ATTR_GROUP]).
  assert (forall b : ubus_msg_attr, monitor_data_name b = None -> monitor_data_put tb b = []) as Hnone.
  { intros b Hb. unfold monitor_data_put. rewrite Hb. by destruct (tb b). }
  unfold shown_fields. rewrite <- list_fmap_compose. cbn [fmap list_fmap compose concat attr_labels fst snd].
  repeat first [rewrite Hnone by reflexivity|erewrite monitor_data_put_shown by reflexivity]. done.
Qed.
End MonitorData.

(** The line for a message with the attributes [l] *)
Definition monitor_line (send : bool) (client peer type : Z) (l : list put) : string :=
  (if send then "->" else "<-") +:+ " " +:+ fmt_08x client +:+ " #" +:+ fmt_08x peer +:+ " " +:+
  fmt_14s (label_of type) +:+ ": " +:+ blobmsg_format_json (blob_render (shown_fields l)) true.

(** C23: What the daemon reports to a monitor is what [ubus monitor] prints: for
    the message built by [ubusd_monitor_message] about a message that a client
    sent or is sent, the callback prints one line with the direction, the
    client's id, the peer, the name of the type, and the message's own attributes
    under their names, as JSON - or nothing, exactly when types were selected
    with -m and this one, below 32, is not among them, or the direction is not
    the one selected with -M.  The message has attributes of the protocol, each
    at most once and with its type ([puts_ok], [typed_ok]); those that the client
    has a name for are shown.  (The direction, one byte, is read as four.) *)
Theorem monitor_shown (c : ubus_client) (u : ubus_msg_buf) (send : bool) (l : list put) s :
  Z.of_nat (length (blob_data (ub_data u))) < 2 ^ 24 - 64 ->
  ub_data u = blob_render l -> puts_ok l -> Forall typed_ok l ->
  ubus_cli_monitor_cb (blob_render (monitor_puts c u send)) s =
    Some (tt,
      if shows (ctx_mem s) (u32 (hdr_type (ub_hdr u))) send
      then with_cli (fun m => m <| cli_stdout ::= fun old =>
             (old ++ [monitor_line send (u32 (cl_id c)) (u32 (hdr_peer (ub_hdr u))) (u32 (hdr_type (ub_hdr u))) l])%list |>) s
      else s).
Proof.
  intros Hl%(monitor_puts_ok c u send) Hu Hok Hty.
  assert (forall p id, p ∈ monitor_puts c u send -> put_id p = Some id -> id < UBUS_MONITOR_MAX ->
    accepts (monitor_policy id) p = true ->
    exists a, blob_parse_untrusted monitor_policy UBUS_MONITOR_MAX (blob_render (monitor_puts c u send))
                (blob_raw_len (blob_render (monitor_puts c u send))) id = Some a /\ holds a p) as Hf.
  { intros p id. by apply blob_parse_found. }
  destruct (Hf (put_int32 UBUS_MONITOR_CLIENT (cl_id c)) UBUS_MONITOR_CLIENT) as (a1 & E1 & H1); [set_solver|done..|].
  destruct (Hf (put_int32 UBUS_MONITOR_PEER (hdr_peer (ub_hdr u))) UBUS_MONITOR_PEER) as (a2 & E2 & H2); [set_solver|done..|].
  destruct (Hf (put_int8 UBUS_MONITOR_SEND (if send then 1 else 0)) UBUS_MONITOR_SEND) as (a3 & E3 & H3); [set_solver|done..|].
  destruct (Hf (put_int32 UBUS_MONITOR_TYPE (hdr_type (ub_hdr u))) UBUS_MONITOR_TYPE) as (a4 & E4 & H4); [set_solver|done..|].
  destruct (Hf (put_blob UBUS_MONITOR_DATA (blob_data (ub_data u))) UBUS_MONITOR_DATA) as (a5 & E5 & H5); [set_solver|done..|].
  pose proof (blob_parse_views monitor_policy UBUS_MONITOR_MAX (monitor_puts c u send) (put_blob UBUS_MONITOR_DATA (blob_data (ub_data u)))
    UBUS_MONITOR_DATA a5 Hl ltac:(set_solver) eq_refl eq_refl eq_refl E5) as [_ Hlen].
  simpl in H5. rewrite Hu in H5. pose proof (monitor_data_shown l Hok Hty a5 Hlen (blob_render_hdr l) H5) as Hdata.
  unfold ubus_cli_monitor_cb. rewrite E1, E2, E3, E4, E5. simpl in H1, H2, H3, H4.
  rewrite H1, H2, H3, H4. assert (negb (u8 (if send then 1 else 0) * 2 ^ 24 =? 0) = send) as -> by by destruct send.
  unfold cli_gets, gets, mbind, stm_bind. rewrite monitor_filtered_spec by (unfold u32; apply Z.mod_pos_bound; lia).
  rewrite msg_type_label, Hdata by (unfold u32; apply Z.mod_pos_bound; lia). by destruct (shows _ _ _).
Qed.
End CliThms.

(** ** Runs of the program *)

(** A stand-in for the JSON functions: a message is printed as its length, and
    the only text that can be read is the empty object. *)
#[local] Instance demo_json : JsonLib := {|
  blobmsg_format_json b _ := "<" +:+ pretty (length b) +:+ ">";
  blobmsg_format_json_indent b _ _ := "<" +:+ pretty (length b) +:+ ">";
  blobmsg_format_json_with_cb b _ _ _ := "<" +:+ pretty (length b) +:+ ">";
  blobmsg_add_json_from_string text := if bool_decide (text = "{}") then Some [] else None;
|}.

Definition cli_start (tty : bool) : ubus_context := mk_context
  (list_to_map [(4%positive, request_zero)]) (list_to_map [(5%positive, lib_object_zero); (6%positive, lib_object_zero)]) ∅ ∅ ∅ ∅ 8
  [] (avl_init ubus_cmp_id false ptr) [] (-1) false false 0 0 false 0 call_ubus_default_connection_lost None (mk_msghdr 0 0 0 0) None 0 0
  [] 6%positive None None None (fun _ => None) 5%positive 4%positive None false false
  (avl_init acl_cmp true acl_object) false false (cli_initial tty) (mk_sock [] [] [] [] [] [] [] []).

(** A daemon that greets and then sends these messages *)
Definition frame (type : ubus_msg_type) (seq peer : Z) (puts : list put) : bytes :=
  (encode_hdr (mk_msghdr 0 type seq peer) ++ blob_render puts)%list.
Definition cli_daemon (frames : list bytes) (path : string) : option connection :=
  Some (mk_connection 5 (frame UBUS_MSG_HELLO 0 1234 [] ++ concat frames)%list
          (replicate (1 + 2 * length frames) (Chunk 4096 None)) (replicate 20 (Sent 65536)) true).

(** What a run leaves: the exit status and the lines printed *)
Definition outcome (r : option (Z * ubus_context)) : option (Z * list string * list string) :=
  (fun x => (x.1, cli_stdout (ctx_mem x.2), cli_stderr (ctx_mem x.2))) <$> r.

(** [ubus wait_for foo]: the object appears after the first look. *)
Definition wait_frames : list bytes :=
  [frame UBUS_MSG_DATA 1 0 [put_int32 UBUS_ATTR_OBJID 99]; frame UBUS_MSG_STATUS 1 0 [put_int32 UBUS_ATTR_STATUS 0];
   frame UBUS_MSG_STATUS 2 1 [put_int32 UBUS_ATTR_STATUS 0];
   frame UBUS_MSG_STATUS 3 0 [put_int32 UBUS_ATTR_STATUS 0];
   frame UBUS_MSG_INVOKE 7 1 [put_int32 UBUS_ATTR_OBJID 99; put_string UBUS_ATTR_METHOD "ubus.object.add";
     put_nest UBUS_ATTR_DATA [msg_u32 "id" 100; msg_string "path" "foo"]]].

(** [ubus call foo bar]: the answer is this status. *)
Definition call_frames (status : Z) : list bytes :=
  [frame UBUS_MSG_DATA 1 0 [put_int32 UBUS_ATTR_OBJID 100]; frame UBUS_MSG_STATUS 1 0 [put_int32 UBUS_ATTR_STATUS 0];
   frame UBUS_MSG_STATUS 2 100 [put_int32 UBUS_ATTR_STATUS status]].

Definition run (frames : list bytes) (events : list loop_event) (argv : list string) (tty : bool) : option (Z * ubus_context) :=
  cli_main (cli_daemon frames) "/var/run/ubus/ubus.sock" 0 events "ubus" argv (cli_start tty).

(** The object appears: success; it does not: the time is over. *)
Example wait_for_run :
  outcome (run wait_frames [Socket_readable] ["wait_for"; "foo"] true) = Some (0, [], []) /\
  outcome (run wait_frames [Timer_expired] ["wait_for"; "foo"] true) = Some (7, [], ["Command failed: Request timed out"]).
Proof. split; vm_compute; reflexivity. Qed.

(** A failed call on a terminal: the reason, and the status as exit status.  In a
    script ([stderr] is no terminal) the status is returned negated: a call that
    fails with [UBUS_STATUS_INVALID_ARGUMENT] returns -2, which [main] takes for
    wrong arguments, and the usage text follows the reason. *)
Theorem call_error_prints_usage :
  outcome (run (call_frames UBUS_STATUS_INVALID_ARGUMENT) [] ["call"; "foo"; "bar"] true) =
    Some (2, [], ["Command failed: Invalid argument"]) /\
  outcome (run (call_frames UBUS_STATUS_INVALID_ARGUMENT) [] ["call"; "foo"; "bar"] false) =
    Some (-2, [], "Command failed: ubus call foo bar (Invalid argument)" :: usage_text "ubus").
Proof. split; vm_compute; reflexivity. Qed.

(** ** The theorems at concrete inputs *)

(** The client once it is connected *)
Definition cli_ready : ubus_context :=
  match ubus_connect (cli_daemon wait_frames) "/var/run/ubus/ubus.sock" None (cli_start true) with Some (_, s) => s | None => cli_start true end.

Lemma wait_for_exact_witness :
  (exists s' l, ubus_cli_wait_for [Socket_readable] ["foo"] cli_ready = Some (0, s') /\
     wait_seen (ctx_mem s') = (l ++ wait_seen (ctx_mem cli_ready))%list /\ "foo" ∈ l) /\
  wait_check_object "foo" cli_ready = Some (tt, seen "foo" cli_ready).
Proof.
  destruct (wait_for_exact cli_ready) as (Hw & _ & _ & _ & Hf). split; [|exact (Hw "foo")].
  assert (fst <$> ubus_cli_wait_for [Socket_readable] ["foo"] cli_ready = Some 0) as E by (vm_compute; reflexivity).
  destruct (ubus_cli_wait_for [Socket_readable] ["foo"] cli_ready) as [[r s']|] eqn:Er; [|discriminate E].
  injection E as ->. destruct (Hf _ _ _ Er) as [_ (l & El & Hl)]. exists s', l. split; [reflexivity|]. split; [exact El|].
  apply Hl. by apply list_elem_of_here.
Defined.

Lemma monitor_selected_witness :
  (exists s', (let '(options, args) := getopt "m:M:vs:t:S" (type_args ["ping"; "invoke"] ++ ["monitor"]) in
               r ← main_options options None; mret (r, args)) (cli_start true) = Some (Some None, ["monitor"], s') /\
     shows (ctx_mem s') UBUS_MSG_INVOKE true = true) /\
  exists mask, run [] [] (type_args ["invoke"; "smurf"] ++ ["monitor"]) true =
    Some (1, with_cli (fun m => m <| monitor_mask := mask |> <| cli_stderr ::= fun old => (old ++ usage_text "ubus")%list |>) (cli_start true)).
Proof.
  split.
  - destruct (proj1 (monitor_selected ["ping"; "invoke"] "ubus" "monitor" [] (cli_daemon []) "/var/run/ubus/ubus.sock" 0 [] (cli_start true)
      eq_refl eq_refl)) as (s' & E & H); [apply (bool_decide_unpack _); vm_compute; exact I|].
    exists s'. split; [exact E|]. apply H; [vm_compute; discriminate|].
    split; [right; right; exists "invoke"; split; [right; left|reflexivity]|left; reflexivity].
  - apply (proj2 (monitor_selected ["invoke"; "smurf"] "ubus" "monitor" [] (cli_daemon []) "/var/run/ubus/ubus.sock" 0 [] (cli_start true) eq_refl eq_refl)).
    apply (bool_decide_unpack _). vm_compute. exact I.
Defined.

(** joe's call, as the daemon reports it *)
Definition joe_client : ubus_client :=
  mk_client 3000 10 false (Some false) 1000 1000 [] (Some "joe") None [] [] [] 0 0 None None 0 (-1) [].
Definition joe_attrs : list put := [put_int32 UBUS_ATTR_OBJID 100; put_string UBUS_ATTR_METHOD "bar"].
Definition joe_call : ubus_msg_buf :=
  let data := blob_render joe_attrs in
  mk_msg_buf 1 (mk_msghdr 0 UBUS_MSG_INVOKE 7 100) data (-1) (blob_raw_len data).

Lemma monitor_shown_witness :
  ubus_cli_monitor_cb (blob_render (monitor_puts joe_client joe_call true)) (cli_start true) =
    Some (tt, with_cli (fun m => m <| cli_stdout ::= fun l => (l ++ [monitor_line true 3000 100 5 joe_attrs])%list |>) (cli_start true)).
Proof.
  rewrite (monitor_shown joe_client joe_call true joe_attrs (cli_start true)).
  - reflexivity.
  - vm_compute. reflexivity.
  - reflexivity.
  - split.
    + repeat constructor; eexists; (split; [reflexivity|]); simpl; lia.
    + apply (bool_decide_unpack _). vm_compute. exact I.
    + repeat constructor.
    + vm_compute. reflexivity.
  - repeat constructor; set_solver.
Defined.

Example monitor_run :
  (fun x => cli_stdout (ctx_mem x.2)) <$>
    ubus_cli_monitor_cb (blob_render (monitor_puts joe_client joe_call true)) (cli_start true) =
  Some ["-> 00000bb8 #00000064         invoke: <40>"].
Proof. vm_compute. reflexivity. Qed.
