(* ===== verification/ExServer.v ===== *)
(** * The example server: [src/examples/server.c]

    A program of the library that offers the object "test".  Its static variables
    and its output are the memory [server_state] behind the context.  The
    callbacks are [server_callback]; [test_watch] calls the library from within a
    callback, so the program is given by the depth to which calls may nest. *)

From stdpp Require Import base gmap strings list fin_maps pretty.
From Stdlib Require Import ZArith Lia Ascii.
From S2P Require Import Prelude Wire Cstring Libubox Ids State LibState LibIo LibCalls LibReq LibObj LibMain LibConn ProgLib Count.
Local Open Scope string_scope.
Local Open Scope Z_scope.
Local Open Scope ubus_scope.

(** ** State *)

Inductive hello_cb := call_test_hello_reply | call_test_hello_fd_reply.

(** [struct hello_request]; its [req], the first member, lives at the same address
    in the heap of request data.  [hr_timer]: the milliseconds the timer is set
    to *)
Record hello_request := mk_hello {
  hr_timer : option Z;
  hr_cb : hello_cb;
  hr_fd : Z;
  hr_idx : Z;
  hr_data : string;
}.
#[export] Instance eta_hello : Eta hello_request := fun r =>
  mk_hello (hr_timer r) (hr_cb r) (hr_fd r) (hr_idx r) (hr_data r).

(** The requests allocated, the addresses of the static structures, the lines on
    [stderr]; what [pipe] and [write] will answer (at the end [pipe] fails and
    the reader is gone), and what has been written to which descriptor *)
Record server_state := mk_server {
  hellos : gmap ptr hello_request;
  test_event : ptr;
  test_object : ptr;
  server_stderr : list string;
  pipes : list (option (Z * Z));
  writes : list (option nat);
  written : list (Z * string);
}.
#[export] Instance eta_server : Eta server_state := fun r =>
  mk_server (hellos r) (test_event r) (test_object r) (server_stderr r) (pipes r) (writes r) (written r).

#[local] Instance server_mem : ProgMem := {| prog_mem := server_state |}.

(** ** The object *)

(** [.policy] and [.type] by their codes *)
Definition hello_policy : list (string * Z) := [("id", 5); ("msg", 3)].
Definition watch_policy : list (string * Z) := [("id", 5); ("counter", 5)].
Definition count_policy : list (string * Z) := [("to", 5); ("string", 3)].

Definition test_methods : list lib_method :=
  [mk_lib_method (Some "hello") (call_method 0) 0 hello_policy;
   mk_lib_method (Some "watch") (call_method 1) 0 watch_policy;
   mk_lib_method (Some "count") (call_method 2) 0 count_policy].

Definition test_object_type : lib_object_type := mk_lib_type 0 test_methods.

Definition test_object_init (type : ptr) : lib_object :=
  lib_object_zero <| lo_name := Some "test" |> <| lo_type := Some type |> <| lo_methods := methods test_methods |>.

(** [test_event], all zero *)
Definition test_event_init : lib_object :=
  lib_object_zero <| lo_subscriber := Some (mk_subscriber false None None None) |>.

(** The texts of [test_hello] and of [test_hello_fd_reply] *)
Definition hello_text (name msgstr : string) : string := name +:+ " received a message: " +:+ msgstr.
Definition line_text (idx : Z) (data : string) : string := "msg" +:+ pretty idx +:+ ": " +:+ data +:+ new_line.

Section Server.
Context `{AL : AvlLib} `{BL : BlobLib}.
Implicit Types (s : ubus_context).

(** ** Memory and system calls *)

Definition server_gets {A} (f : server_state -> A) : stm ubus_context A := gets (fun s => f (ctx_mem s)).
Definition with_server (f : server_state -> server_state) s : ubus_context := s <| ctx_mem ::= f |>.
Definition server_modify (f : server_state -> server_state) : stm ubus_context unit := modify (with_server f).

Definition eprint (line : string) : stm ubus_context unit :=
  server_modify (fun m => m <| server_stderr ::= fun l => (l ++ [line])%list |>).

(** [*req], [req->f = ...] *)
Definition hello_at (p : ptr) : stm ubus_context hello_request :=
  l ← server_gets hellos;
  match l !! p with Some h => mret h | None => undefined end.
Definition hello_set (p : ptr) (f : hello_request -> hello_request) : stm ubus_context unit :=
  h ← hello_at p;
  server_modify (fun m => m <| hellos ::= insert p (f h) |>).

(** [calloc(1, len)] of a request with that text in [data]; [free(req)] *)
Definition new_hello (data : string) : stm ubus_context ptr :=
  p ← new_local (mk_request_data 0 0 0 (mk_acl_key None None None) false 0 0);
  server_modify (fun m => m <| hellos ::= insert p (mk_hello None call_test_hello_reply 0 0 data) |>);;
  mret p.
Definition free_hello (p : ptr) : stm ubus_context unit :=
  _ ← hello_at p;
  server_modify (fun m => m <| hellos ::= delete p |>);;
  end_local (T := ubus_request_data) p.

Definition sys_pipe : stm ubus_context (option (Z * Z)) :=
  l ← server_gets pipes;
  match l with
  | [] => mret None
  | r :: rest => server_modify (fun m => m <| pipes := rest |>);; mret r
  end.

(** [write(fd, data, strlen(data)) < 0]? *)
Definition sys_write (fd : Z) (data : string) : stm ubus_context bool :=
  l ← server_gets writes;
  match l with
  | [] => mret true
  | None :: rest => server_modify (fun m => m <| writes := rest |>);; mret true
  | Some n :: rest =>
      server_modify (fun m => m <| writes := rest |> <| written ::= fun w => (w ++ [(fd, String.substring 0 n data)])%list |>);;
      mret false
  end.

(** ** [hello] *)

(** [alloca] has room for the text; an overflow of [idx] is undefined. *)
Definition test_hello_fd_reply (p : ptr) : stm ubus_context unit :=
  h ← hello_at p;
  assert (hr_idx h <? 2 ^ 31 - 1);;
  let idx := hr_idx h + 1 in
  hello_set p (fun h => h <| hr_idx := idx |>);;
  let data := line_text idx (hr_data h) in
  assert (strlen data <? strlen (hr_data h) + 32);;
  failed ← sys_write (hr_fd h) data;
  if (failed : bool) then
    sys_close_fd (hr_fd h);;
    free_hello p
  else hello_set p (fun h => h <| hr_timer := Some 1000 |>).

Definition test_hello_reply (p : ptr) : stm ubus_context unit :=
  h ← hello_at p;
  _ ← ubus_send_reply p (msg_at (blob_render [msg_string "message" (hr_data h)]));
  fds ← sys_pipe;
  match fds with
  | None => eprint "Failed to create pipe"
  | Some (fd0, fd1) =>
      ubus_request_set_fd p fd0;;
      ubus_complete_deferred_request p 0;;
      hello_set p (fun h => h <| hr_fd := fd1 |>);;
      hello_set p (fun h => h <| hr_cb := call_test_hello_fd_reply |>);;
      test_hello_fd_reply p
  end.

(** [sizeof(format)] is 26: the text of [snprintf] must fit what is allocated
    after the structure. *)
Definition test_hello (obj : option ptr) (req : ptr) (msg : bytes) : stm ubus_context Z :=
  match obj with
  | None => undefined
  | Some obj =>
      o ← lload (T := lib_object) obj;
      match lo_name o with
      | None => undefined
      | Some name =>
          let msgstr := match blobmsg_parse (blob_data msg) "msg" BLOBMSG_TYPE_STRING with
                        | Some a => blobmsg_get_string a
                        | None => "(unknown)"
                        end in
          let room := 26 + strlen name + strlen msgstr + 1 in
          ok ← sys_alloc;
          if negb ok then mret (UBUS_STATUS_UNKNOWN_ERROR : Z)
          else
            assert (strlen (hello_text name msgstr) <? room);;
            hreq ← new_hello (hello_text name msgstr);
            new_req ← ubus_defer_request req;
            lstore hreq (fun _ => new_req);;
            hello_set hreq (fun h => h <| hr_cb := call_test_hello_reply |>);;
            hello_set hreq (fun h => h <| hr_timer := Some 1000 |>);;
            mret 0
      end
  end.

(** The timer of a request runs out. *)
Definition hello_expired (p : ptr) : stm ubus_context unit :=
  l ← server_gets hellos;
  match l !! p with
  | Some h =>
      when (has (hr_timer h))
        (hello_set p (fun h => h <| hr_timer := None |>);;
         match hr_cb h with
         | call_test_hello_reply => test_hello_reply p
         | call_test_hello_fd_reply => test_hello_fd_reply p
         end)
  | None => mret tt
  end.

(** ** [watch] and [count] *)

Definition test_handle_remove (id : Z) : stm ubus_context unit := eprint ("Object " +:+ fmt_08x id +:+ " went away").

Definition test_notify : stm ubus_context Z := mret 0.

(** [subscribe]: [ubus_subscribe] as called from a callback *)
Definition test_watch (subscribe : ptr -> Z -> stm ubus_context Z) (msg : bytes) : stm ubus_context Z :=
  match blobmsg_parse (blob_data msg) "id" BLOBMSG_TYPE_INT32 with
  | None => mret (UBUS_STATUS_INVALID_ARGUMENT : Z)
  | Some a =>
      ev ← server_gets test_event;
      lstore (T := lib_object) ev (fun o => o <| lo_subscriber ::= fmap (fun p => p <| sb_remove_cb := Some 0%nat |>) |>);;
      lstore (T := lib_object) ev (fun o => o <| lo_subscriber ::= fmap (fun p => p <| sb_cb := Some 3%nat |>) |>);;
      ret ← subscribe ev (blobmsg_get_u32 a);
      text ← strerror ret;
      eprint ("Watching object " +:+ fmt_08x (blobmsg_get_u32 a) +:+ ": " +:+ text);;
      mret ret
  end.

Definition test_count (req : ptr) (msg : bytes) : stm ubus_context Z :=
  match blobmsg_parse (blob_data msg) "to" BLOBMSG_TYPE_INT32, blobmsg_parse (blob_data msg) "string" BLOBMSG_TYPE_STRING with
  | Some a, Some b =>
      let num := blobmsg_get_u32 a in
      let s1 := blobmsg_get_string b in
      s2 ← count_to_number num;
      match s2 with
      | None => mret (UBUS_STATUS_UNKNOWN_ERROR : Z)
      | Some s2 =>
          _ ← ubus_send_reply req (msg_at (blob_render [msg_u32 "rc" (strcmp s1 s2)]));
          mret 0
      end
  | _, _ => mret (UBUS_STATUS_INVALID_ARGUMENT : Z)
  end.

(** ** The program *)

(** The callbacks by the numbers under which they are registered *)
Definition server_callback (subscribe : ptr -> Z -> stm ubus_context Z) (c : program_call) : stm ubus_context Z :=
  match c with
  | ubus_handler 0 obj req _ msg => test_hello obj req msg
  | ubus_handler 1 _ _ _ msg => test_watch subscribe msg
  | ubus_handler 2 _ req _ msg => test_count req msg
  | ubus_handler 3 _ _ _ _ => test_notify
  | ubus_remove_handler 0 _ id => test_handle_remove id;; mret 0
  | _ => undefined
  end.

(** The callbacks of calls nested at most [depth] deep; no subscriber has a
    [new_obj_cb], no request a completion callback. *)
Fixpoint server_program (depth : nat) : Program :=
  {| program := server_callback match depth with
                                | O => fun _ _ => undefined
                                | S depth => lib_subscribe (PR := server_program depth)
                                end;
     nested_subscribe := fun _ _ => undefined;
     flush_restarts := 0 |}.

Context (usock : string -> option connection) (UBUS_UNIX_SOCKET : string).
Context (depth : nat) (events : list (prog_event ptr)).
#[local] Instance server_prog : Program := server_program depth.

Definition server_main : stm ubus_context unit :=
  obj ← server_gets test_object;
  ret ← ubus_add_object obj;
  (if negb (ret =? 0) then text ← strerror ret; eprint ("Failed to add object: " +:+ text) else mret tt);;
  ev ← server_gets test_event;
  ret ← ubus_register_subscriber ev;
  (if negb (ret =? 0) then text ← strerror ret; eprint ("Failed to add watch handler: " +:+ text) else mret tt);;
  prog_run hello_expired events.

(** [uloop_done] cancels all timers. *)
Definition uloop_done : stm ubus_context unit :=
  server_modify (fun m => m <| hellos ::= fmap (fun h => h <| hr_timer := None |>) |>).

Definition main (argv : list string) : stm ubus_context Z :=
  ctx ← ubus_connect usock UBUS_UNIX_SOCKET (example_socket argv);
  if negb ctx then
    eprint "Failed to connect to ubus";;
    mret (-1)
  else
    ubus_add_uloop;;
    server_main;;
    ubus_free;;
    uloop_done;;
    mret 0.
End Server.
