(* ===== verification/ExClient.v ===== *)
(** * The example client: [src/examples/client.c]

    A program of the library that calls the example server.  Its static variables
    and its output are the memory [client_state] behind the context; libubox's
    streams are the parameter [UstreamLib]. *)

From stdpp Require Import base gmap strings list fin_maps pretty.
From Stdlib Require Import ZArith Lia Ascii.
From S2P Require Import Prelude Wire Cstring Libubox Ids State LibState LibIo LibCalls LibReq LibObj LibMain LibConn ProgLib Count.
Local Open Scope string_scope.
Local Open Scope Z_scope.
Local Open Scope ubus_scope.

(** [struct ustream_fd]: the buffer [ustream_get_read_buf] yields (behind its
    end there is a NUL), and dropping its first bytes *)
Class UstreamLib := {
  ustream : Type;
  ustream_fd_init : Z -> ustream;
  ustream_get_read_buf : ustream -> list ascii;
  ustream_consume : ustream -> Z -> ustream;
}.

(** ** State *)

(** The static variables, the timers (milliseconds), the addresses of the static
    structures, the stream, the lines on [stderr], and the coming values of
    [gettimeofday] (seconds, microseconds) *)
Record client_state `{US : UstreamLib} := mk_client_state {
  counter : Z;
  count_to : Z;
  count_progression : Z;
  notify_timer : option Z;
  count_timer : option Z;
  test_client_object : ptr;
  client_req : ptr;
  test_fd : option ustream;
  client_stderr : list string;
  times : list (Z * Z);
}.
#[export] Instance eta_client `{US : UstreamLib} : Eta client_state := fun r =>
  mk_client_state _ (counter r) (count_to r) (count_progression r) (notify_timer r) (count_timer r) (test_client_object r)
    (client_req r) (test_fd r) (client_stderr r) (times r).

#[local] Instance client_mem `{US : UstreamLib} : ProgMem := {| prog_mem := client_state |}.

Definition COUNT_TO_MIN : Z := 10000.
Definition COUNT_TO_MAX : Z := 1000000.
Definition PROGRESSION : Z := 100.

(** Before [main] *)
Definition client_initial `{US : UstreamLib} (obj req : ptr) (times : list (Z * Z)) : client_state :=
  mk_client_state _ 0 100000 PROGRESSION None None obj req None [] times.

(** [test_client_object], before it has an id *)
Definition test_client_object_init : lib_object := lib_object_zero <| lo_subscribe_cb := Some 0%nat |>.

(** The first lines of [test_count]: [count_progression] and [count_to] *)
Definition next_count (count_to count_progression : Z) : Z * Z :=
  let count_progression := if count_to <=? COUNT_TO_MIN then PROGRESSION
                           else if COUNT_TO_MAX <=? count_to then - PROGRESSION
                           else count_progression in
  (count_progression, u32 (count_to + count_progression)).

(** [strchr]: the characters before the first [c] *)
Fixpoint strchr (s : string) (c : ascii) : option string :=
  match s with
  | EmptyString => None
  | String d s => if bool_decide (d = c) then Some EmptyString else String d <$> strchr s c
  end.

Section Client.
Context `{AL : AvlLib} `{BL : BlobLib} `{US : UstreamLib}.
Implicit Types (s : ubus_context).

Definition client_gets {A} (f : client_state -> A) : stm ubus_context A := gets (fun s => f (ctx_mem s)).
Definition with_client (f : client_state -> client_state) s : ubus_context := s <| ctx_mem ::= f |>.
Definition client_modify (f : client_state -> client_state) : stm ubus_context unit := modify (with_client f).

Definition eprint (line : string) : stm ubus_context unit :=
  client_modify (fun m => m <| client_stderr ::= fun l => (l ++ [line])%list |>).

(** [gettimeofday]; the last value stays *)
Definition gettimeofday : stm ubus_context (Z * Z) :=
  l ← client_gets times;
  match l with
  | [] => mret (0, 0)
  | [t] => mret t
  | t :: rest => client_modify (fun m => m <| times := rest |>);; mret t
  end.

(** ** Callbacks *)

Definition test_client_subscribe_cb (obj : ptr) : stm ubus_context unit :=
  o ← lload (T := lib_object) obj;
  eprint ("Subscribers active: " +:+ (if lo_has_subscribers o then "1" else "0")).

(** [req->priv] is [&count_to]. *)
Definition test_count_data_cb (msg : bytes) : stm ubus_context unit :=
  n ← client_gets count_to;
  match blobmsg_parse (blob_data msg) "rc" BLOBMSG_TYPE_INT32 with
  | None => eprint "No return code received from server"
  | Some a =>
      let rc := i32 (blobmsg_get_u32 a) in
      if negb (rc =? 0) then eprint ("Corruption of data with count up to '" +:+ pretty n +:+ "'")
      else eprint ("Server validated our count up to '" +:+ pretty n +:+ "'")
  end.

(** The NUL written at [sep] is gone with the bytes consumed. *)
Definition test_client_fd_data_cb : stm ubus_context unit :=
  st ← client_gets test_fd;
  match st with
  | None => undefined
  | Some st =>
      let data := ustream_get_read_buf st in
      if Z.of_nat (length data) <? 1 then mret tt
      else
        match strchr (cstr data) (ascii_of_nat 10) with
        | None => mret tt
        | Some line =>
            eprint ("Got line: " +:+ line);;
            client_modify (fun m => m <| test_fd := Some (ustream_consume st (strlen line + 1)) |>)
        end
  end.

Definition test_client_fd_cb (fd : Z) : stm ubus_context unit :=
  eprint "Got fd from the server, watching...";;
  client_modify (fun m => m <| test_fd := Some (ustream_fd_init fd) |>).

Definition test_client_complete_cb (ret : Z) : stm ubus_context unit :=
  eprint ("completed request, ret: " +:+ pretty ret).

(** The callbacks by the numbers under which they are registered; none calls the
    library. *)
Definition client_callback (c : program_call) : stm ubus_context Z :=
  match c with
  | ubus_state_handler 0 obj => test_client_subscribe_cb obj;; mret 0
  | ubus_data_handler 0 _ _ msg => test_count_data_cb msg;; mret 0
  | ubus_fd_handler 0 _ fd => test_client_fd_cb fd;; mret 0
  | ubus_complete_handler 0 _ ret => test_client_complete_cb ret;; mret 0
  | _ => undefined
  end.

#[local] Instance client_program : Program := {|
  program := client_callback;
  nested_subscribe := fun _ _ => undefined;
  flush_restarts := 0;
|}.

(** ** Timers *)

(** The loop of [test_client_notify_cb]: the last [err] *)
Fixpoint notify_loop (n : nat) (obj : ptr) (msg : bytes) (err : Z) : stm ubus_context Z :=
  match n with
  | O => mret err
  | S n =>
      err ← ubus_notify obj "ping" (msg_at msg) 1000;
      notify_loop n obj msg err
  end.

(** The values of uninitialised variables *)
Context (indet : Z).

(** Overflows of [counter] and of [delta] are undefined. *)
Definition test_client_notify_cb : stm ubus_context unit :=
  n ← client_gets counter;
  assert (n <? 2 ^ 31 - 1);;
  let b := blob_render [msg_u32 "counter" n] in
  client_modify (fun m => m <| counter := n + 1 |>);;
  '(sec1, usec1) ← gettimeofday;
  obj ← client_gets test_client_object;
  err ← notify_loop 1000 obj b indet;
  '(sec2, usec2) ← gettimeofday;
  (if negb (err =? 0) then text ← strerror err; eprint ("Notify failed: " +:+ text) else mret tt);;
  let delta := (sec2 - sec1) * 1000000 + (usec2 - usec1) in
  assert ((- 2 ^ 63 <=? delta) && (delta <? 2 ^ 63));;
  eprint ("Avg time per iteration: " +:+ pretty (Z.quot delta 1000) +:+ " usec");;
  client_modify (fun m => m <| notify_timer := Some 1000 |>).

(** The message of [test_count] *)
Definition count_msg (count_to : Z) (s : string) : bytes := blob_render [msg_u32 "to" count_to; msg_string "string" s].

Definition test_count : stm ubus_context unit :=
  m ← client_gets (fun m => m);
  let '(progression, n) := next_count (count_to m) (count_progression m) in
  client_modify (fun m => m <| count_progression := progression |> <| count_to := n |>);;
  s ← count_to_number n;
  match s with
  | None => eprint ("Could not allocate memory to count up to '" +:+ pretty n +:+ "'")
  | Some s =>
      eprint ("Sending count up to '" +:+ pretty n +:+ "'; string has length '" +:+ pretty (u32 (strlen s)) +:+ "'");;
      let b := count_msg n s in
      '(ret, id) ← lookup_local_id indet "test";
      if negb (ret =? 0) then eprint "Failed to look up test object"
      else
        _ ← ubus_invoke id "count" (msg_at b) (Some 0%nat) (priv_user 0) 5000;
        client_modify (fun m => m <| count_timer := Some 2000 |>)
  end.

(** What the loop waits for besides the library: the two timers, and the stream,
    which libubox has filled *)
Inductive client_event := Notify_expired | Count_expired | Stream_filled (st : ustream).

Definition client_turn (e : client_event) : stm ubus_context unit :=
  match e with
  | Notify_expired =>
      set ← client_gets (fun m => has (notify_timer m));
      when set (client_modify (fun m => m <| notify_timer := None |>);; test_client_notify_cb)
  | Count_expired =>
      set ← client_gets (fun m => has (count_timer m));
      when set (client_modify (fun m => m <| count_timer := None |>);; test_count)
  | Stream_filled st =>
      open ← client_gets (fun m => has (test_fd m));
      when open (client_modify (fun m => m <| test_fd := Some st |>);; test_client_fd_data_cb)
  end.

(** ** The program *)

Context (usock : string -> option connection) (UBUS_UNIX_SOCKET : string) (events : list (prog_event client_event)).

Definition client_main : stm ubus_context unit :=
  obj ← client_gets test_client_object;
  ret ← ubus_add_object obj;
  if negb (ret =? 0) then text ← strerror ret; eprint ("Failed to add_object object: " +:+ text)
  else
    '(ret, id) ← lookup_local_id indet "test";
    if negb (ret =? 0) then eprint "Failed to look up test object"
    else
      o ← lload (T := lib_object) obj;
      _ ← ubus_invoke id "watch" (msg_at (blob_render [msg_u32 "id" (lo_id o)])) None priv_none 3000;
      test_client_notify_cb;;
      req ← client_gets client_req;
      _ ← ubus_invoke_async id "hello" (msg_at (blob_render [msg_string "msg" "blah"])) req;
      lstore (T := ubus_request) req (fun r => r <| rq_fd_cb := Some 0%nat |>);;
      lstore (T := ubus_request) req (fun r => r <| rq_complete_cb := Some (call_complete 0) |>);;
      ubus_complete_request_async req;;
      client_modify (fun m => m <| count_timer := Some 2000 |>);;
      prog_run client_turn events.

(** [uloop_done] cancels all timers. *)
Definition uloop_done : stm ubus_context unit :=
  client_modify (fun m => m <| notify_timer := None |> <| count_timer := None |>).

Definition main (argv : list string) : stm ubus_context Z :=
  ctx ← ubus_connect usock UBUS_UNIX_SOCKET (example_socket argv);
  if negb ctx then
    eprint "Failed to connect to ubus";;
    mret (-1)
  else
    ubus_add_uloop;;
    client_main;;
    ubus_free;;
    uloop_done;;
    mret 0.
End Client.
