(* ===== verification/ExThms.v ===== *)
(** * Properties of the examples

    The counting test between the example client and the example server: what
    the client counts to, what the server answers, what the client makes of the
    answer; and what the server keeps of a call it has deferred. *)

From stdpp Require Import base gmap strings list fin_maps pretty.
From Stdlib Require Import ZArith Lia Ascii.
From S2P Require Import Prelude Wire Cstring Libubox LibuboxModel BlobMsg BlobMsgModel Ids State LibState LibIo LibCalls LibReq LibObj LibMain LibConn LibReqSpec LibLoops ProgLib Count ExServer ExClient.
Local Open Scope string_scope.
Local Open Scope Z_scope.
Local Open Scope ubus_scope.

(** ** [strcmp] as a return code *)

Lemma strcmp_bound s t : - 256 < strcmp s t < 256.
Proof.
  assert (forall c, 0 <= char_code c < 256) as Hc.
  { intros c. unfold char_code. pose proof (N_ascii_bounded c). lia. }
  revert t. induction s as [|c s IH]; intros [|d t]; simpl; try lia. case_decide; [apply IH|].
  pose proof (Hc c). pose proof (Hc d). lia.
Qed.

(** The code as it comes out of the message: an [int] again *)
Lemma rc_zero s t : (i32 (u32 (strcmp s t)) =? 0) = bool_decide (s = t).
Proof.
  pose proof (strcmp_bound s t) as Hb. assert (i32 (u32 (strcmp s t)) = strcmp s t) as ->.
  { unfold i32, u32. rewrite Zplus_mod_idemp_l, Z.mod_small by lia. lia. }
  case_bool_decide as E; [by apply Z.eqb_eq, strcmp_eq|]. apply Z.eqb_neq. by rewrite strcmp_eq.
Qed.

(** ** The values the client counts to *)

Definition counting `{US : UstreamLib} (m : client_state) : Prop :=
  (100 | count_to m) /\ COUNT_TO_MIN <= count_to m <= COUNT_TO_MAX /\
  (count_progression m = PROGRESSION \/ count_progression m = - PROGRESSION).

Lemma next_counting n p : (100 | n) -> COUNT_TO_MIN <= n <= COUNT_TO_MAX -> p = PROGRESSION \/ p = - PROGRESSION ->
  let '(p', n') := next_count n p in
  (100 | n') /\ COUNT_TO_MIN <= n' <= COUNT_TO_MAX /\ (p' = PROGRESSION \/ p' = - PROGRESSION) /\ n' = n + p'.
Proof.
  unfold next_count, COUNT_TO_MIN, COUNT_TO_MAX, PROGRESSION. intros [k ->] Hn Hp.
  destruct (Z.leb_spec (k * 100) 10000), (Z.leb_spec 1000000 (k * 100)); cbv zeta; try lia.
  all: rewrite u32_small by lia; split; [|lia].
  - exists (k + 1). lia.
  - exists (k - 1). lia.
  - destruct Hp as [->| ->]; [exists (k + 1)|exists (k - 1)]; lia.
Qed.

Section ExThms.
Context `{AL : AvlLib} `{BL : BlobLib} `{BW : BlobWalk} `{US : UstreamLib} `{!BlobMsgLaws BL BW}.

Lemma count_to_number_run `{PM : ProgMem} num s ok s' :
  sys_alloc s = Some (ok, s') -> num <= 357913941 ->
  count_to_number num s = Some (if (ok : bool) then Some (count_text num) else None, s').
Proof.
  intros Ha Hn. destruct (count_exact_cases num) as (Hfit & _ & Hbound). destruct (Hfit (Hbound Hn)) as [_ Hb].
  unfold count_to_number, mbind, stm_bind. rewrite Ha. destruct ok; cbn [negb]; [|done]. rewrite Hb. unfold mret, stm_ret.
  by rewrite cstr_chars by apply text_nul_free.
Qed.

Lemma count_fields_ok num text :
  nul_free text = true -> strlen text < 2 ^ 24 - 64 -> fields_ok [msg_u32 "to" num; msg_string "string" text].
Proof.
  intros Hn Hl. split; [simpl; by rewrite Hn|]. cbn. change (strlen "to") with 2. change (strlen "string") with 6. set (n := strlen text) in *. clearbody n. lia.
Qed.

(** What the server makes of a count it is asked for *)
Lemma server_counts q msg num text ok (S S' : @ubus_context AL server_mem) :
  sys_alloc S = Some (ok, S') -> 0 <= num <= 357913941 -> nul_free text = true -> strlen text < 2 ^ 24 - 64 ->
  blob_data msg = blob_data (count_msg num text) ->
  ExServer.test_count q msg S =
    if (ok : bool) then (_ ← ubus_send_reply q (msg_at (blob_render [msg_u32 "rc" (strcmp text (count_text num))])); mret 0) S'
    else Some (UBUS_STATUS_UNKNOWN_ERROR : Z, S').
Proof.
  intros Ha Hnum Hnul Hlen Hmsg. unfold ExServer.test_count. rewrite Hmsg. unfold count_msg.
  pose proof (count_fields_ok num text Hnul Hlen) as Hok.
  assert (NoDup (omap field_name [msg_u32 "to" num; msg_string "string" text])) as Hnd by (apply (bool_decide_unpack _); by vm_compute).
  destruct (msg_u32_found _ "to" num Hok Hnd) as (a & -> & ->); [set_solver|].
  destruct (msg_string_found _ "string" text Hok Hnd) as (b & -> & ->); [set_solver|].
  rewrite u32_small by lia. unfold mbind at 1, stm_bind at 1. rewrite (count_to_number_run _ _ ok S') by (done || lia). by destruct ok.
Qed.

(** A line on the client's [stderr] *)
Definition client_printed (line : string) (K : @ubus_context AL client_mem) : @ubus_context AL client_mem :=
  with_client (fun m => m <| client_stderr ::= fun l => (l ++ [line])%list |>) K.

(** What the client makes of the server's answer *)
Lemma client_judges msg num text (K : @ubus_context AL client_mem) :
  blob_data msg = blob_data (blob_render [msg_u32 "rc" (strcmp text (count_text num))]) ->
  test_count_data_cb msg K =
    Some (tt, client_printed
      ((if bool_decide (text = count_text num) then "Server validated our count up to '" else "Corruption of data with count up to '")
       +:+ pretty (count_to (ctx_mem K)) +:+ "'") K).
Proof.
  intros Hmsg. unfold test_count_data_cb, client_gets, gets, mbind at 1, stm_bind at 1. rewrite Hmsg.
  destruct (msg_u32_found [msg_u32 "rc" (strcmp text (count_text num))] "rc" (strcmp text (count_text num))) as (a & -> & ->);
    [by split|by apply (bool_decide_unpack _); vm_compute|set_solver|].
  cbv zeta. rewrite rc_zero. by case_bool_decide.
Qed.

(** *** The client's variables *)

Definition same_count (m m' : client_state) : Prop :=
  count_to m' = count_to m /\ count_progression m' = count_progression m.

#[local] Instance same_count_preorder : PreOrder same_count.
Proof. split; [by split|]. intros m1 m2 m3 [] []. split; congruence. Qed.
#[local] Instance mem_count_preorder : PreOrder (mem_by (PM := client_mem) same_count).
Proof. apply mem_by_preorder, _. Qed.

Lemma keeps_count f : (forall m, same_count m (f m)) -> within (mem_by (PM := client_mem) same_count) (client_modify f).
Proof. intros H s a s' [= _ <-]. apply H. Qed.

#[local] Hint Resolve mem_count_preorder : within.
#[local] Hint Extern 1 (within (mem_by (PM := client_mem) same_count) (lload _)) => (apply mb_lload; apply _) : within.
#[local] Hint Extern 1 (within (mem_by (PM := client_mem) same_count) (client_modify _)) => (apply keeps_count; by split) : within.

(** No callback changes them. *)
Lemma callback_count c : within (mem_by (PM := client_mem) same_count) (client_callback c).
Proof.
  unfold client_callback, test_client_subscribe_cb, test_count_data_cb, test_client_fd_cb, test_client_complete_cb, ExClient.eprint, client_gets.
  destruct c; solve_within.
Qed.
Lemma subscribe_count p id : within (mem_by (PM := client_mem) same_count) (nested_subscribe (Program := client_program) p id).
Proof. apply wi_undefined. Qed.

(** [test_count] changes them in its first lines only. *)
Lemma test_count_next indet (K K' : @ubus_context AL client_mem) u :
  ExClient.test_count indet K = Some (u, K') ->
  next_count (count_to (ctx_mem K)) (count_progression (ctx_mem K)) = (count_progression (ctx_mem K'), count_to (ctx_mem K')).
Proof.
  unfold ExClient.test_count, client_gets, gets. unfold mbind at 1, stm_bind at 1. destruct (next_count _ _) as [p n].
  unfold mbind at 1, stm_bind at 1.
  change (client_modify ?f K) with (Some (tt, with_client f K)). cbv beta iota.
  pose proof (mb_lookup_id (PR := client_program) same_count callback_count subscribe_count) as Hl.
  pose proof (mb_invoke (PR := client_program) same_count callback_count subscribe_count) as Hi.
  match goal with |- ?m _ = _ -> _ => assert (within (mem_by (PM := client_mem) same_count) m) as Hw end.
  { unfold count_to_number, lookup_local_id, ExClient.eprint. pose proof (mb_sys_alloc (PM := client_mem) same_count).
    assert (forall x : Z, within (mem_by (PM := client_mem) same_count) (new_local x)) by (intros; apply mb_new_local; [apply _|done]).
    assert (forall q, within (mem_by (PM := client_mem) same_count) (end_local (T := Z) q)) by (intros; apply mb_end_local; [apply _|done]).
    solve_within. }
  intros [H1 H2]%Hw. cbn in H1, H2. by rewrite H1, H2.
Qed.

(** C39: The counting test of the examples.  The client starts with a multiple of
    100 from 10000 to 1000000, keeps to these whatever happens in [test_count]
    (lookup and call included) and in its callbacks, and moves on by 100, up or
    down, each time.  Asked to check a text for a number up to 357913941 (above
    it the buffer's size overflows) in a message of less than 2^24 - 64 bytes,
    the server either has no memory for the text and fails, or answers with a
    code that is 0 exactly when the text is that of the number; and the client
    reports such an answer as validated exactly in this case and as corruption
    otherwise. *)
Theorem count_validated :
  (forall obj req times, counting (client_initial obj req times)) /\
  (forall indet (K K' : @ubus_context AL client_mem) u, counting (ctx_mem K) -> ExClient.test_count indet K = Some (u, K') ->
     counting (ctx_mem K') /\
     (count_to (ctx_mem K') = count_to (ctx_mem K) + PROGRESSION \/ count_to (ctx_mem K') = count_to (ctx_mem K) - PROGRESSION)) /\
  (forall c (K K' : @ubus_context AL client_mem) r, counting (ctx_mem K) -> client_callback c K = Some (r, K') -> counting (ctx_mem K')) /\
  (forall q msg num text ok (S S' : @ubus_context AL server_mem),
     sys_alloc S = Some (ok, S') -> 0 <= num <= 357913941 -> nul_free text = true -> strlen text < 2 ^ 24 - 64 ->
     blob_data msg = blob_data (count_msg num text) ->
     if (ok : bool) then
       exists rc, (rc = 0 <-> text = count_text num) /\
         ExServer.test_count q msg S = (_ ← ubus_send_reply q (msg_at (blob_render [msg_u32 "rc" rc])); mret 0) S' /\
         forall msg' (K : @ubus_context AL client_mem), blob_data msg' = blob_data (blob_render [msg_u32 "rc" rc]) ->
           test_count_data_cb msg' K =
             Some (tt, client_printed
               ((if bool_decide (text = count_text num) then "Server validated our count up to '" else "Corruption of data with count up to '")
                +:+ pretty (count_to (ctx_mem K)) +:+ "'") K)
     else ExServer.test_count q msg S = Some (UBUS_STATUS_UNKNOWN_ERROR : Z, S')).
Proof.
  split; [|split; [|split]].
  - intros obj req times. unfold counting, COUNT_TO_MIN, COUNT_TO_MAX. simpl. split; [by exists 1000|]. split; [lia|by left].
  - intros indet K K' u (H100 & Hrange & Hprog) H%test_count_next.
    pose proof (next_counting _ _ H100 Hrange Hprog) as Hnext. rewrite H in Hnext. destruct Hnext as (H100' & Hrange' & Hp & Hn).
    split; [done|]. rewrite Hn. destruct Hp as [->| ->]; [by left|by right].
  - intros c K K' r (H100 & Hrange & Hprog) [H1 H2]%callback_count. unfold counting. by rewrite H1, H2.
  - intros q msg num text ok S S' Ha Hnum Hnul Hlen Hmsg. rewrite (server_counts q msg num text ok S S') by done. destruct ok; [|done].
    exists (strcmp text (count_text num)). split; [apply strcmp_eq|]. split; [done|]. intros msg' K. apply client_judges.
Qed.
End ExThms.

(** ** Concrete runs *)

Section Runs.
Context `{PM : ProgMem}.

(** A program before [main]: its memory, objects, types and requests; the
    library's own variables at 5, 6 and 7, the heap from 10 on *)
Definition started (mem : prog_mem) (objs : gmap ptr lib_object) (types : gmap ptr lib_object_type) (reqs : gmap ptr ubus_request) :
    ubus_context := mk_context
  (<[5%positive := request_zero]> reqs) (<[6%positive := lib_object_zero]> (<[7%positive := lib_object_zero]> objs)) types ∅ ∅ ∅ 10
  [] (avl_init ubus_cmp_id false ptr) [] (-1) false false 0 0 false 0 call_ubus_default_connection_lost None (mk_msghdr 0 0 0 0) None 0 0
  [] 7%positive None None None (fun _ => None) 6%positive 5%positive None false false
  (avl_init acl_cmp true acl_object) false false mem (mk_sock [] [] [] [] [] [] [] []).
End Runs.

(** A daemon that greets and then sends these messages *)
Definition ex_frame (type : ubus_msg_type) (seq peer : Z) (puts : list put) : bytes :=
  (encode_hdr (mk_msghdr 0 type seq peer) ++ blob_render puts)%list.
Definition ex_daemon (frames : list bytes) (path : string) : option connection :=
  Some (mk_connection 5 (ex_frame UBUS_MSG_HELLO 0 1234 [] ++ concat frames)%list
          (replicate (1 + 2 * length frames) (Chunk 4096 None)) (replicate 20 (Sent 65536)) true).

Definition server_start : @ubus_context _ server_mem :=
  started (PM := server_mem) (mk_server ∅ 2 1 [] [Some (8, 9)] [Some 100%nat; None] [])
    {[1%positive := test_object_init 3; 2%positive := test_event_init]} {[3%positive := test_object_type]} ∅.

(** The object is published with the id 100, the subscriber's with 101; then come
    calls *)
Definition server_frames (calls : list bytes) : list bytes :=
  ([ex_frame UBUS_MSG_DATA 1 0 [put_int32 UBUS_ATTR_OBJID 100; put_int32 UBUS_ATTR_OBJTYPE 50]; ex_frame UBUS_MSG_STATUS 1 0 [put_int32 UBUS_ATTR_STATUS 0];
    ex_frame UBUS_MSG_DATA 2 0 [put_int32 UBUS_ATTR_OBJID 101]; ex_frame UBUS_MSG_STATUS 2 0 [put_int32 UBUS_ATTR_STATUS 0]] ++ calls)%list.

Definition call_frame (method : string) (fields : list put) : bytes :=
  ex_frame UBUS_MSG_INVOKE 7 2000 [put_int32 UBUS_ATTR_OBJID 100; put_string UBUS_ATTR_METHOD method; put_nest UBUS_ATTR_DATA fields].

Definition server_run (calls : list bytes) (events : list (prog_event ptr)) : option (Z * @ubus_context _ server_mem) :=
  ExServer.main (ex_daemon (server_frames calls)) "/var/run/ubus/ubus.sock" 1 events [] server_start.

(** What the server has sent after what it sent to publish its objects *)
Definition sent_by (base : bytes) (r : option (Z * @ubus_context _ server_mem)) : option bytes :=
  (fun x => drop (length base) (so_out (sys x.2))) <$> r.

Definition published : bytes := Eval vm_compute in default [] (sent_by [] (server_run [] [])).

(** The frames it has sent, one by one *)
Fixpoint split_frames (fuel : nat) (out : bytes) : list (ubus_msghdr * bytes) :=
  match fuel, out with
  | S fuel, _ :: _ =>
      let body := drop 8 out in
      let len := Z.to_nat (blob_pad_len body) in
      (decode_hdr out, take len body) :: split_frames fuel (drop len body)
  | _, _ => []
  end.
Definition answers (calls : list bytes) (events : list (prog_event ptr)) : option (list (ubus_msghdr * bytes)) :=
  split_frames 10 <$> sent_by published (server_run calls events).

(** A count is answered with the return code and a status; a text that is not the
    number's with another code. *)
Example count_run :
  answers [call_frame "count" [msg_u32 "to" 3; msg_string "string" "0 1 2 "]] [Sock_readable] =
    Some [(mk_msghdr 0 UBUS_MSG_DATA 7 2000, blob_render [put_int32 UBUS_ATTR_OBJID 100; put_nest UBUS_ATTR_DATA [msg_u32 "rc" 0]]);
          (mk_msghdr 0 UBUS_MSG_STATUS 7 2000, blob_render [put_int32 UBUS_ATTR_STATUS 0; put_int32 UBUS_ATTR_OBJID 100])] /\
  answers [call_frame "count" [msg_u32 "to" 3; msg_string "string" "0 1 3 "]] [Sock_readable] =
    Some [(mk_msghdr 0 UBUS_MSG_DATA 7 2000, blob_render [put_int32 UBUS_ATTR_OBJID 100; put_nest UBUS_ATTR_DATA [msg_u32 "rc" 1]]);
          (mk_msghdr 0 UBUS_MSG_STATUS 7 2000, blob_render [put_int32 UBUS_ATTR_STATUS 0; put_int32 UBUS_ATTR_OBJID 100])].
Proof. split; vm_compute; reflexivity. Qed.

(** A deferred call: nothing is sent until the timer runs out; then come the text
    and the status, with the pipe.  A subscription is made from within a call. *)
Example hello_run :
  answers [call_frame "hello" [msg_string "msg" "blah"]] [Sock_readable] = Some [] /\
  answers [call_frame "hello" [msg_string "msg" "blah"]] [Sock_readable; Own_event 13%positive] =
    Some [(mk_msghdr 0 UBUS_MSG_DATA 7 2000,
            blob_render [put_int32 UBUS_ATTR_OBJID 100; put_nest UBUS_ATTR_DATA [msg_string "message" "test received a message: blah"]]);
          (mk_msghdr 0 UBUS_MSG_STATUS 7 2000, blob_render [put_int32 UBUS_ATTR_STATUS 0; put_int32 UBUS_ATTR_OBJID 100])] /\
  answers [call_frame "watch" [msg_u32 "id" 77]; ex_frame UBUS_MSG_STATUS 3 0 [put_int32 UBUS_ATTR_STATUS 0]] [Sock_readable] =
    Some [(mk_msghdr 0 UBUS_MSG_SUBSCRIBE 3 0, blob_render [put_int32 UBUS_ATTR_OBJID 101; put_int32 UBUS_ATTR_TARGET 77]);
          (mk_msghdr 0 UBUS_MSG_STATUS 7 2000, blob_render [put_int32 UBUS_ATTR_STATUS 0; put_int32 UBUS_ATTR_OBJID 100])].
Proof. split; [|split]; vm_compute; reflexivity. Qed.

(** When [pipe] fails the caller gets the text but never a status, and the request
    stays allocated without a timer. *)
Example hello_without_pipe :
  let r := ExServer.main (ex_daemon (server_frames [call_frame "hello" []])) "/var/run/ubus/ubus.sock" 1 [Sock_readable; Own_event 13%positive]
             [] (with_server (fun m => m <| pipes := [None] |>) server_start) in
  split_frames 10 <$> sent_by published r =
    Some [(mk_msghdr 0 UBUS_MSG_DATA 7 2000,
            blob_render [put_int32 UBUS_ATTR_OBJID 100; put_nest UBUS_ATTR_DATA [msg_string "message" "test received a message: (unknown)"]])] /\
  (fun x => hr_timer <$> hellos (ctx_mem (PM := server_mem) x.2) !! 13%positive) <$> r = Some (Some None).
Proof. split; vm_compute; reflexivity. Qed.

(** ** The theorems at concrete inputs *)

(** A stream as the characters to be read *)
#[local] Instance list_ustream : UstreamLib := {|
  ustream := list ascii;
  ustream_fd_init _ := [];
  ustream_get_read_buf st := st;
  ustream_consume st n := drop (Z.to_nat n) st;
|}.

Definition client_start : @ubus_context _ client_mem :=
  started (PM := client_mem) (client_initial 1 2 [(0, 0)]) {[1%positive := test_client_object_init]} ∅ {[2%positive := request_zero]}.

Definition count_request : bytes := count_msg 3 "0 1 2 ".

Lemma count_validated_witness :
  counting (ctx_mem client_start) /\
  (exists rc, rc = 0 /\
    ExServer.test_count 4 count_request server_start = (_ ← ubus_send_reply 4 (msg_at (blob_render [msg_u32 "rc" rc])); mret 0) server_start /\
    test_count_data_cb (blob_render [msg_u32 "rc" rc]) client_start =
      Some (tt, client_printed "Server validated our count up to '100000'" client_start)).
Proof.
  destruct (count_validated (AL := list_avl) (BL := byte_blob) (BW := byte_walk)) as (Hinit & _ & _ & Hserver).
  split; [exact (Hinit 1%positive 2%positive [(0, 0)])|].
  destruct (Hserver 4%positive count_request 3 "0 1 2 " true server_start server_start eq_refl) as (rc & Hrc & E & Hj);
    [lia|reflexivity|vm_compute; reflexivity|reflexivity|].
  assert (rc = 0) as H0 by (apply Hrc; vm_compute; reflexivity). exists rc. split; [exact H0|]. split; [exact E|].
  rewrite (Hj (blob_render [msg_u32 "rc" rc]) client_start eq_refl). vm_compute. reflexivity.
Defined.
