(* ===== verification/LuaApi.v ===== *)
(** * The interface to Lua

    The Lua interpreter is not part of the repository.  Its numbers (doubles) are
    the parameter [LuaNum] and its tables [LuaVM], with their documented
    behaviour as [LuaNumLaws] and [LuaVMLaws]; in particular the order in which
    [lua_next] enumerates a table is the interpreter's.  What is written out here
    are the stack operations of the C interface that [src/lua/ubus.c] calls, as
    the manual of Lua 5.1 describes them, for tables without metatables.

    The stack is a list with its top first, so that the index -1 is its head.  A
    call ends, raises a Lua error (which leaves the C function), or is undefined:
    an index outside the stack, or what C leaves undefined. *)

From stdpp Require Import base gmap strings list.
From Stdlib Require Import ZArith Lia Ascii.
From S2P Require Import Prelude Cstring Libubox.
Local Open Scope Z_scope.

(** ** Numbers *)

Class LuaNum := {
  lua_Number : Type;
  lua_Number_eq_dec :: EqDecision lua_Number;
  (** an integer as a double; the double with these 64 bits *)
  num_of_Z : Z -> lua_Number;
  num_of_bits : Z -> lua_Number;
  (** [(uint64_t) d], [(int) d]: undefined when the value is out of range *)
  num_to_u64 : lua_Number -> option Z;
  num_to_int : lua_Number -> option Z;
  (** the conversion of [lua_tointeger] *)
  num_to_integer : lua_Number -> Z;
  num_to_string : lua_Number -> string;
  (** a string that reads as a number *)
  num_of_string : string -> option lua_Number;
}.

(** Integers below 2^53 are exact. *)
Class LuaNumLaws (LN : LuaNum) : Prop := {
  num_to_u64_of_Z : forall z, 0 <= z < 2 ^ 53 -> num_to_u64 (num_of_Z z) = Some z;
  num_to_integer_of_Z : forall z, 0 <= z < 2 ^ 53 -> num_to_integer (num_of_Z z) = z;
}.

(** ** Values *)

(** Tables, functions and full userdata by their identity *)
Inductive lua_value `{LN : LuaNum} :=
  | LUA_NIL
  | LUA_BOOLEAN (b : bool)
  | LUA_NUMBER (x : lua_Number)
  | LUA_STRING (s : string)
  | LUA_TABLE (t : positive)
  | LUA_FUNCTION (f : positive)
  | LUA_USERDATA (p : positive)
  | LUA_LIGHTUSERDATA (p : positive).

#[export] Instance lua_value_eq_dec `{LN : LuaNum} : EqDecision lua_value.
Proof. solve_decision. Defined.

(** What [lua_type] yields *)
Inductive lua_type_t :=
  | LUA_TNONE | LUA_TNIL | LUA_TBOOLEAN | LUA_TLIGHTUSERDATA | LUA_TNUMBER | LUA_TSTRING | LUA_TTABLE | LUA_TFUNCTION | LUA_TUSERDATA.
#[export] Instance lua_type_eq_dec : EqDecision lua_type_t.
Proof. solve_decision. Defined.

Definition type_of `{LN : LuaNum} (v : lua_value) : lua_type_t :=
  match v with
  | LUA_NIL => LUA_TNIL
  | LUA_BOOLEAN _ => LUA_TBOOLEAN
  | LUA_NUMBER _ => LUA_TNUMBER
  | LUA_STRING _ => LUA_TSTRING
  | LUA_TABLE _ => LUA_TTABLE
  | LUA_FUNCTION _ => LUA_TFUNCTION
  | LUA_USERDATA _ => LUA_TUSERDATA
  | LUA_LIGHTUSERDATA _ => LUA_TLIGHTUSERDATA
  end.

(** A Lua string read as a C string ends at its first NUL. *)
Fixpoint c_prefix (s : string) : string :=
  match s with
  | EmptyString => EmptyString
  | String c s => if char_code c =? 0 then EmptyString else String c (c_prefix s)
  end.

Lemma c_prefix_nul_free s : nul_free s = true -> c_prefix s = s.
Proof.
  induction s as [|c s IH]; [done|]. cbn [nul_free c_prefix]. intros [Hc Hs]%andb_prop. apply negb_true_iff in Hc.
  by rewrite Hc, IH.
Qed.

(** ** Tables *)

Class LuaVM `{LN : LuaNum} := {
  lua_vm : Type;
  (** is this a table? *)
  table_live : lua_vm -> positive -> Prop;
  (** its entries in the order of [lua_next] *)
  table_entries : lua_vm -> positive -> list (lua_value * lua_value);
  table_new : lua_vm -> positive * lua_vm;
  (** [t[k] = v], without metamethods; a nil value removes the key *)
  table_set : positive -> lua_value -> lua_value -> lua_vm -> lua_vm;
  (** the operator [#] on it *)
  table_len : lua_vm -> positive -> Z;
  (** the table of the globals, and the registry *)
  lua_globals : positive;
  lua_registry : positive;
  (** the key that [luaL_ref] would use next in the table *)
  table_free_ref : lua_vm -> positive -> Z;
  (** full userdata *)
  userdata_new : lua_vm -> positive * lua_vm;
}.

Definition table_get `{VM : LuaVM} (m : lua_vm) (t : positive) (k : lua_value) : lua_value :=
  default LUA_NIL (snd <$> List.find (fun e => bool_decide (e.1 = k)) (table_entries m t)).

Class LuaVMLaws `{LN : LuaNum} (VM : LuaVM) : Prop := {
  entries_keys : forall m t, table_live m t -> NoDup (table_entries m t).*1;
  entries_set : forall m t k v, table_live m t ->
    table_entries (table_set t k v m) t ≡ₚ
      (if bool_decide (v = LUA_NIL) then [] else [(k, v)]) ++ filter (fun e => e.1 <> k) (table_entries m t);
  entries_set_other : forall m t t' k v, t <> t' -> table_entries (table_set t k v m) t' = table_entries m t';
  live_set : forall m t t' k v, table_live (table_set t k v m) t' <-> table_live m t';
  table_new_fresh : forall m, ~ table_live m (table_new m).1;
  entries_new : forall m, table_entries (table_new m).2 (table_new m).1 = [];
  entries_new_other : forall m t, table_live m t -> table_entries (table_new m).2 t = table_entries m t;
  live_new : forall m t, table_live (table_new m).2 t <-> t = (table_new m).1 \/ table_live m t;
  len_set_other : forall m t t' k v, t <> t' -> table_len (table_set t k v m) t' = table_len m t';
  len_new_other : forall m t, table_live m t -> table_len (table_new m).2 t = table_len m t;
  free_ref : forall m t, table_live m t -> table_get m t (LUA_NUMBER (num_of_Z (table_free_ref m t))) = LUA_NIL;
}.

(** ** Calls *)

Section LuaApi.
Context `{LN : LuaNum} `{VM : !LuaVM}.

Record lua_State := mk_lua { L_vm : lua_vm; L_stack : list lua_value }.

Inductive lua_result (A : Type) := LDone (a : A) (L : lua_State) | LRaise (msg : string) | LUndefined.

Definition luam (A : Type) : Type := lua_State -> lua_result A.
#[export] Instance luam_ret : MRet luam := fun A a L => LDone A a L.
#[export] Instance luam_bind : MBind luam := fun A B k m L =>
  match m L with LDone _ a L => k a L | LRaise _ msg => LRaise _ msg | LUndefined _ => LUndefined _ end.

Definition lua_undefined {A} : luam A := fun _ => LUndefined _.
Definition lua_raise {A} (msg : string) : luam A := fun _ => LRaise _ msg.
Definition lua_option {A} (o : option A) : luam A := match o with Some a => mret a | None => lua_undefined end.

Definition get_stack : luam (list lua_value) := fun L => LDone _ (L_stack L) L.
Definition set_stack (l : list lua_value) : luam unit := fun L => LDone _ tt (mk_lua (L_vm L) l).
Definition get_vm : luam lua_vm := fun L => LDone _ (L_vm L) L.
Definition set_vm (m : lua_vm) : luam unit := fun L => LDone _ tt (mk_lua m (L_stack L)).

(** The position of an index in the list: negative ones from the top, positive
    ones from the bottom *)
Definition stack_pos (n : nat) (idx : Z) : option nat :=
  if idx <? 0 then if - idx <=? Z.of_nat n then Some (Z.to_nat (- idx - 1)) else None
  else if (0 <? idx) && (idx <=? Z.of_nat n) then Some (Z.to_nat (Z.of_nat n - idx)) else None.

(** The value at a valid index, and replacing it *)
Definition value_at (idx : Z) : luam lua_value :=
  l ← get_stack;
  lua_option (stack_pos (length l) idx ≫= fun p => l !! p).
Definition replace_at (idx : Z) (v : lua_value) : luam unit :=
  l ← get_stack;
  match stack_pos (length l) idx with
  | Some p => set_stack (<[p := v]> l)
  | None => lua_undefined
  end.

(** *** The stack *)

Definition lua_pushvalue_of (v : lua_value) : luam unit :=
  l ← get_stack;
  set_stack (v :: l).
Definition lua_pushnil : luam unit := lua_pushvalue_of LUA_NIL.
Definition lua_pushboolean (b : Z) : luam unit := lua_pushvalue_of (LUA_BOOLEAN (negb (b =? 0))).
Definition lua_pushinteger (z : Z) : luam unit := lua_pushvalue_of (LUA_NUMBER (num_of_Z z)).
Definition lua_pushnumber (x : lua_Number) : luam unit := lua_pushvalue_of (LUA_NUMBER x).
Definition lua_pushstring (s : string) : luam unit := lua_pushvalue_of (LUA_STRING s).
Definition lua_pushlightuserdata (p : positive) : luam unit := lua_pushvalue_of (LUA_LIGHTUSERDATA p).
Definition lua_pushvalue (idx : Z) : luam unit :=
  v ← value_at idx;
  lua_pushvalue_of v.

Definition lua_pop (n : nat) : luam unit :=
  l ← get_stack;
  if (n <=? length l)%nat then set_stack (drop n l) else lua_undefined.

(** The top, taken off *)
Definition pop_value : luam lua_value :=
  l ← get_stack;
  match l with
  | v :: l => set_stack l;; mret v
  | [] => lua_undefined
  end.

Definition lua_remove (idx : Z) : luam unit :=
  l ← get_stack;
  match stack_pos (length l) idx with
  | Some p => set_stack (delete p l)
  | None => lua_undefined
  end.

Definition lua_gettop : luam Z :=
  l ← get_stack;
  mret (Z.of_nat (length l)).

(** *** Reading values *)

Definition lua_type (idx : Z) : luam lua_type_t :=
  l ← get_stack;
  if Z.of_nat (length l) <? idx then mret LUA_TNONE
  else
    v ← value_at idx;
    mret (type_of v).

Definition lua_toboolean (idx : Z) : luam Z :=
  v ← value_at idx;
  mret (match v with LUA_NIL | LUA_BOOLEAN false => 0 | _ => 1 end).

(** 0 for what is no number and does not read as one *)
Definition to_number (v : lua_value) : option lua_Number :=
  match v with
  | LUA_NUMBER x => Some x
  | LUA_STRING s => num_of_string s
  | _ => None
  end.
Definition lua_tonumber (idx : Z) : luam lua_Number :=
  v ← value_at idx;
  mret (default (num_of_Z 0) (to_number v)).
Definition lua_tointeger (idx : Z) : luam Z :=
  v ← value_at idx;
  mret (match to_number v with Some x => num_to_integer x | None => 0 end).

(** [NULL] for what is neither a string nor a number; a number on the stack
    becomes a string. *)
Definition lua_tostring (idx : Z) : luam (option string) :=
  v ← value_at idx;
  match v with
  | LUA_STRING s => mret (Some s)
  | LUA_NUMBER x => replace_at idx (LUA_STRING (num_to_string x));; mret (Some (num_to_string x))
  | _ => mret None
  end.

Definition lua_touserdata (idx : Z) : luam (option positive) :=
  v ← value_at idx;
  mret (match v with LUA_USERDATA p | LUA_LIGHTUSERDATA p => Some p | _ => None end).

(** *** Tables *)

Definition table_at (idx : Z) : luam positive :=
  v ← value_at idx;
  match v with LUA_TABLE t => mret t | _ => lua_undefined end.

(** Indexing anything else raises an error. *)
Definition index_at (idx : Z) : luam positive :=
  v ← value_at idx;
  match v with LUA_TABLE t => mret t | _ => lua_raise "attempt to index a value" end.

Definition lua_newtable : luam unit :=
  m ← get_vm;
  set_vm (table_new m).2;;
  lua_pushvalue_of (LUA_TABLE (table_new m).1).

Definition store (t : positive) (k v : lua_value) : luam unit :=
  if bool_decide (k = LUA_NIL) then lua_raise "index is nil"
  else
    m ← get_vm;
    set_vm (table_set t k v m).

Definition lua_rawset (idx : Z) : luam unit :=
  t ← table_at idx;
  v ← pop_value;
  k ← pop_value;
  store t k v.
Definition lua_rawseti (idx n : Z) : luam unit :=
  t ← table_at idx;
  v ← pop_value;
  store t (LUA_NUMBER (num_of_Z n)) v.
Definition lua_rawgeti (idx n : Z) : luam unit :=
  t ← table_at idx;
  m ← get_vm;
  lua_pushvalue_of (table_get m t (LUA_NUMBER (num_of_Z n))).

Definition lua_settable (idx : Z) : luam unit :=
  t ← index_at idx;
  v ← pop_value;
  k ← pop_value;
  store t k v.
Definition lua_gettable (idx : Z) : luam unit :=
  t ← index_at idx;
  k ← pop_value;
  m ← get_vm;
  lua_pushvalue_of (table_get m t k).
Definition lua_setfield (idx : Z) (k : string) : luam unit :=
  t ← index_at idx;
  v ← pop_value;
  store t (LUA_STRING k) v.
Definition lua_getfield (idx : Z) (k : string) : luam unit :=
  t ← index_at idx;
  m ← get_vm;
  lua_pushvalue_of (table_get m t (LUA_STRING k)).

Definition lua_getglobal (name : string) : luam unit :=
  m ← get_vm;
  lua_pushvalue_of (table_get m lua_globals (LUA_STRING name)).
Definition lua_setglobal (name : string) : luam unit :=
  v ← pop_value;
  store lua_globals (LUA_STRING name) v.

(** The length of a string, [#] of a table *)
Definition lua_objlen (idx : Z) : luam Z :=
  v ← value_at idx;
  m ← get_vm;
  mret (match v with LUA_STRING s => strlen s | LUA_TABLE t => table_len m t | _ => 0 end).

(** The entry after the key (the first one after nil); [None] when the key is not
    in the table *)
Fixpoint next_after (k : lua_value) (l : list (lua_value * lua_value)) : option (option (lua_value * lua_value)) :=
  match l with
  | [] => None
  | e :: l => if bool_decide (e.1 = k) then Some (head l) else next_after k l
  end.

Definition lua_next (idx : Z) : luam bool :=
  t ← table_at idx;
  k ← pop_value;
  m ← get_vm;
  match (if bool_decide (k = LUA_NIL) then Some (head (table_entries m t)) else next_after k (table_entries m t)) with
  | None => lua_raise "invalid key to 'next'"
  | Some None => mret false
  | Some (Some (k, v)) => lua_pushvalue_of k;; lua_pushvalue_of v;; mret true
  end.

(** Takes the value off the stack and keeps it in the table; nil has a reference
    of its own. *)
Definition luaL_ref (idx : Z) : luam Z :=
  t ← table_at idx;
  v ← pop_value;
  if bool_decide (v = LUA_NIL) then mret (-1)
  else
    m ← get_vm;
    let r := table_free_ref m t in
    store t (LUA_NUMBER (num_of_Z r)) v;;
    mret r.

(** The field of the table, made when there is none; [false] when something else is
    in its place *)
Definition luaL_findtable (t : positive) (name : string) : luam bool :=
  m ← get_vm;
  match table_get m t (LUA_STRING name) with
  | LUA_NIL =>
      lua_newtable;;
      v ← value_at (-1);
      store t (LUA_STRING name) v;;
      mret true
  | LUA_TABLE t => lua_pushvalue_of (LUA_TABLE t);; mret true
  | _ => mret false
  end.

Definition luaL_newmetatable (name : string) : luam bool :=
  m ← get_vm;
  match table_get m lua_registry (LUA_STRING name) with
  | LUA_NIL => luaL_findtable lua_registry name
  | v => lua_pushvalue_of v;; mret false
  end.

(** Functions into the table on top of the stack *)
Fixpoint register_functions (l : list (string * positive)) : luam unit :=
  match l with
  | [] => mret tt
  | (name, f) :: l =>
      lua_pushvalue_of (LUA_FUNCTION f);;
      lua_setfield (-2) name;;
      register_functions l
  end.

(** With a name, the table is that of the module: [package.loaded[name]], else the
    global of this name. *)
Definition luaL_register (libname : option string) (l : list (string * positive)) : luam unit :=
  match libname with
  | None => register_functions l
  | Some name =>
      ok ← luaL_findtable lua_registry "_LOADED";
      if negb ok then lua_undefined
      else
        lua_getfield (-1) name;;
        t ← lua_type (-1);
        (if bool_decide (t = LUA_TTABLE) then mret tt
         else
           lua_pop 1;;
           ok ← luaL_findtable lua_globals name;
           if negb ok then lua_raise "name conflict for module"
           else
             lua_pushvalue (-1);;
             lua_setfield (-3) name);;
        lua_remove (-2);;
        register_functions l
  end.

Definition lua_newuserdata : luam positive :=
  m ← get_vm;
  set_vm (userdata_new m).2;;
  lua_pushvalue_of (LUA_USERDATA (userdata_new m).1);;
  mret (userdata_new m).1.

(** *** Arguments *)

Definition luaL_checktype (idx : Z) (t : lua_type_t) : luam unit :=
  t' ← lua_type idx;
  if bool_decide (t' = t) then mret tt else lua_raise "bad argument".

Definition luaL_checkstring (idx : Z) : luam string :=
  t ← lua_type idx;
  if bool_decide (t = LUA_TNONE) then lua_raise "string expected"
  else
    s ← lua_tostring idx;
    match s with Some s => mret s | None => lua_raise "string expected" end.

Definition luaL_optstring (idx : Z) : luam (option string) :=
  t ← lua_type idx;
  if bool_decide (t = LUA_TNONE \/ t = LUA_TNIL) then mret None
  else
    s ← luaL_checkstring idx;
    mret (Some s).

Definition luaL_checkinteger (idx : Z) : luam Z :=
  t ← lua_type idx;
  if bool_decide (t = LUA_TNONE) then lua_raise "number expected"
  else
    v ← value_at idx;
    match to_number v with Some x => mret (num_to_integer x) | None => lua_raise "number expected" end.

Definition luaL_optint (idx d : Z) : luam Z :=
  t ← lua_type idx;
  if bool_decide (t = LUA_TNONE \/ t = LUA_TNIL) then mret d else luaL_checkinteger idx.
End LuaApi.

Arguments LDone {LN VM A}.
Arguments LRaise {LN VM A}.
Arguments LUndefined {LN VM A}.
