(* ===== verification/LuaConv.v ===== *)
(** * Conversion of messages in the Lua binding: the first part of [src/lua/ubus.c]

    [ubus_lua_parse_blob] turns the fields of a message into Lua values on the
    stack, [ubus_lua_format_blob] the value on top of the stack into a field of a
    buffer.  Both recurse into tables; [fuel] bounds the depth (a Lua table may
    contain itself, and then formatting overflows the C stack). *)

From stdpp Require Import base gmap strings list.
From Stdlib Require Import ZArith Lia Ascii.
From S2P Require Import Prelude Wire Cstring Libubox BlobMsg LuaApi.
Local Open Scope Z_scope.

Definition INT_MAX : Z := 2 ^ 31 - 1.

Section LuaConv.
Context `{LN : LuaNum} `{VM : !LuaVM} `{BL : BlobLib} `{BW : BlobWalk}.

(** ** From messages to values *)

(** The loop of [ubus_lua_parse_blob_array] from the index [idx] on *)
Fixpoint parse_array_loop (parse : bytes -> luam Z) (l : list bytes) (idx : Z) : luam unit :=
  match l with
  | [] => mret tt
  | pos :: l =>
      rv ← parse pos;
      if 1 <? rv then lua_rawset (-3);; parse_array_loop parse l idx
      else if 0 <? rv then lua_rawseti (-2) idx;; parse_array_loop parse l (idx + 1)
      else parse_array_loop parse l idx
  end.

Definition parse_array (parse : bytes -> bool -> luam Z) (data : bytes) (table : bool) : luam Z :=
  lua_newtable;;
  parse_array_loop (fun pos => parse pos table) (blob_walk data) 1;;
  mret 1.

(** How many values it pushes *)
Fixpoint ubus_lua_parse_blob (fuel : nat) (attr : bytes) (table : bool) : luam Z :=
  match fuel with
  | O => lua_undefined
  | S fuel =>
      if negb (blobmsg_check_attr attr false) then mret 0
      else
        off ← (if table && negb (bool_decide (blobmsg_name attr = EmptyString)) then
                 lua_pushstring (blobmsg_name attr);; mret 1
               else mret 0);
        let data := blobmsg_data attr in
        match blobmsg_type attr with
        | BLOBMSG_TYPE_INT8 => lua_pushboolean (nth 0 data 0)
        | BLOBMSG_TYPE_INT16 => lua_pushinteger (of_be16 (take 2 data))
        | BLOBMSG_TYPE_INT32 => lua_pushinteger (of_be32 (take 4 data))
        | BLOBMSG_TYPE_INT64 => lua_pushnumber (num_of_Z (of_be64 data))
        | BLOBMSG_TYPE_DOUBLE => lua_pushnumber (num_of_bits (of_be64 data))
        | BLOBMSG_TYPE_STRING => lua_pushstring (bytes_string data)
        | BLOBMSG_TYPE_ARRAY => parse_array (ubus_lua_parse_blob fuel) data false;; mret tt
        | BLOBMSG_TYPE_TABLE => parse_array (ubus_lua_parse_blob fuel) data true;; mret tt
        | BLOBMSG_TYPE_UNSPEC => lua_pushnil
        end;;
        mret (off + 1)
  end.

(** [data] and [len] are the bytes *)
Definition ubus_lua_parse_blob_array (fuel : nat) (data : bytes) (table : bool) : luam Z :=
  parse_array (ubus_lua_parse_blob fuel) data table.

(** ** From values to messages *)

(** As many turns as the table on top of the stack has entries, and the last
    call of [lua_next]: a traversal that takes more never ends. *)
Definition turns (idx : Z) : luam nat :=
  t ← table_at idx;
  m ← get_vm;
  mret (S (length (table_entries m t))).

(** The loop of [ubus_lua_format_blob_is_array] *)
Fixpoint is_array_loop (turns : nat) (prv : Z) : luam bool :=
  match turns with
  | O => lua_undefined
  | S turns =>
      more ← lua_next (-2);
      if negb more then mret true
      else
        t ← lua_type (-2);
        if negb (bool_decide (t = LUA_TNUMBER)) then lua_pop 2;; mret false
        else
          cur ← lua_tointeger (-2);
          if negb (cur - 1 =? prv) then lua_pop 2;; mret false
          else lua_pop 1;; is_array_loop turns cur
  end.

Definition ubus_lua_format_blob_is_array : luam bool :=
  n ← turns (-1);
  lua_pushnil;;
  is_array_loop n 0.

(** The loop of [ubus_lua_format_blob_array]: the result, and the calls made on the
    buffer *)
Fixpoint format_array_loop (format : luam (bool * list put)) (turns : nat) : luam (bool * list put) :=
  match turns with
  | O => lua_undefined
  | S turns =>
      more ← lua_next (-2);
      if negb more then mret (true, [])
      else
        '(ok, l) ← format;
        if negb ok then lua_pop 1;; mret (false, l)
        else
          lua_pop 1;;
          '(ok, l') ← format_array_loop format turns;
          mret (ok, l ++ l')
  end.

Definition format_array (format : bool -> luam (bool * list put)) (table : bool) : luam (bool * list put) :=
  n ← turns (-1);
  lua_pushnil;;
  format_array_loop (format table) n.

(** [(uint64_t) lua_tonumber] is undefined for negative numbers, and so is
    [blobmsg_add_string] of [NULL], which [lua_tostring] yields for userdata. *)
Fixpoint ubus_lua_format_blob (fuel : nat) (table : bool) : luam (bool * list put) :=
  match fuel with
  | O => lua_undefined
  | S fuel =>
      key ← (if table then lua_tostring (-2) else mret None);
      let key := c_prefix (default EmptyString key) in
      type ← lua_type (-1);
      match type with
      | LUA_TBOOLEAN =>
          b ← lua_toboolean (-1);
          mret (true, [msg_field BLOBMSG_TYPE_INT8 key [u8 b]])
      | LUA_TNUMBER =>
          x ← lua_tonumber (-1);
          n ← lua_option (num_to_u64 x);
          if INT_MAX <? n then mret (true, [msg_field BLOBMSG_TYPE_INT64 key (be64 n)])
          else
            z ← lua_tointeger (-1);
            mret (true, [msg_u32 key (u32 z)])
      | LUA_TSTRING | LUA_TUSERDATA | LUA_TLIGHTUSERDATA =>
          s ← lua_tostring (-1);
          match s with
          | Some s => mret (true, [msg_string key (c_prefix s)])
          | None => lua_undefined
          end
      | LUA_TTABLE =>
          array ← ubus_lua_format_blob_is_array;
          if (array : bool) then
            '(rv, l) ← format_array (ubus_lua_format_blob fuel) false;
            mret (rv, [msg_array key l])
          else
            '(rv, l) ← format_array (ubus_lua_format_blob fuel) true;
            mret (rv, [msg_table (Some key) l])
      | _ => mret (false, [])
      end
  end.

Definition ubus_lua_format_blob_array (fuel : nat) (table : bool) : luam (bool * list put) :=
  format_array (ubus_lua_format_blob fuel) table.

(** ** Counting *)

Fixpoint tablelen_loop (turns : nat) (index cnt : Z) : luam Z :=
  match turns with
  | O => lua_undefined
  | S turns =>
      more ← lua_next index;
      if negb more then mret cnt
      else lua_pop 1;; tablelen_loop turns index (cnt + 1)
  end.

Definition lua_gettablelen (index : Z) : luam Z :=
  n ← turns index;
  lua_pushnil;;
  tablelen_loop n (index - 1) 0.
End LuaConv.
