(* ===== verification/LuaData.v ===== *)
(** * Lua data and messages

    The data a Lua program can send: booleans, natural numbers below 2^53,
    strings, arrays and tables with string keys, nested.  [denotes] says what
    value of the interpreter is such data, [put_of] how it is written into a
    message.  Executing the stack operations symbolically. *)

From stdpp Require Import base gmap strings list.
From Stdlib Require Import ZArith Lia Ascii.
From S2P Require Import Prelude Wire Cstring Libubox BlobMsg LuaApi LuaConv.
Local Open Scope Z_scope.

(** ** Data *)

Inductive lua_data :=
  | DBool (b : bool)
  | DInt (z : Z)
  | DString (s : string)
  | DArray (l : list lua_data)
  | DTable (l : list (string * lua_data)).

Definition sub_data (d : lua_data) : list lua_data :=
  match d with DArray l => l | DTable l => l.*2 | _ => [] end.

Lemma data_nested_ind (P : lua_data -> Prop) : (forall d, Forall P (sub_data d) -> P d) -> forall d, P d.
Proof.
  intros H. fix IH 1. intros d. apply H. destruct d as [b|z|s|l|l]; simpl; try constructor.
  - induction l; by constructor.
  - induction l as [|[k d] l IHl]; by constructor.
Qed.

Fixpoint depth (d : lua_data) : nat :=
  match d with
  | DArray l => S (list_max (List.map depth l))
  | DTable l => S (list_max (List.map (fun e => depth (snd e)) l))
  | _ => 1
  end.

Lemma depth_sub d d' fuel : d' ∈ sub_data d -> (depth d <= S fuel)%nat -> (depth d' <= fuel)%nat.
Proof.
  assert (forall l, d' ∈ l -> depth d' <= list_max (List.map depth l))%nat as Hmax.
  { intros l Hin. induction l as [|x l IH]; [by apply not_elem_of_nil in Hin|]. simpl. apply elem_of_cons in Hin as [->|Hin]; [lia|].
    specialize (IH Hin). lia. }
  destruct d as [b|z|s|l|l]; simpl; intros Hin Hd; try (by apply not_elem_of_nil in Hin).
  - specialize (Hmax l Hin). lia.
  - specialize (Hmax l.*2 Hin). assert (List.map depth l.*2 = List.map (fun e => depth e.2) l) as E by apply List.map_map. rewrite E in Hmax. lia.
Qed.

(** The name of a field of a table: not empty, else the field would lose it *)
Definition key_ok (k : string) : bool := negb (bool_decide (k = EmptyString)) && nul_free k && (strlen k <? 2 ^ 16).

(** An empty table is an empty array. *)
Fixpoint data_ok (d : lua_data) : bool :=
  match d with
  | DBool _ => true
  | DInt z => (0 <=? z) && (z <? 2 ^ 53)
  | DString s => nul_free s
  | DArray l => (Z.of_nat (length l) <? 2 ^ 52) && forallb data_ok l
  | DTable l => negb (bool_decide (l = [])) && bool_decide (NoDup l.*1) && forallb (fun e => key_ok (fst e) && data_ok (snd e)) l
  end.

(** ** In a message *)

Fixpoint put_of (key : string) (d : lua_data) : put :=
  match d with
  | DBool b => msg_field BLOBMSG_TYPE_INT8 key [if b then 1 else 0]
  | DInt z => if INT_MAX <? z then msg_field BLOBMSG_TYPE_INT64 key (be64 z) else msg_u32 key z
  | DString s => msg_string key s
  | DArray l => msg_array key (List.map (put_of EmptyString) l)
  | DTable l => msg_table (Some key) (List.map (fun e => put_of (fst e) (snd e)) l)
  end.

Definition puts_of (l : list (string * lua_data)) : list put := List.map (fun e => put_of (fst e) (snd e)) l.

Lemma put_of_name key d : field_name (put_of key d) = Some key.
Proof. destruct d; simpl; try done. by destruct (INT_MAX <? z). Qed.

Lemma put_of_ok key d : nul_free key = true -> strlen key < 2 ^ 16 -> data_ok d = true -> field_ok (put_of key d) = true.
Proof.
  revert key. induction d as [d IH] using data_nested_ind. intros key Hn Hl Hd.
  assert (nul_free key && (strlen key <? 2 ^ 16) = true) as Hk by (rewrite Hn; by apply Z.ltb_lt).
  destruct d as [b|z|s|l|l]; cbn [put_of data_ok sub_data] in *.
  - cbn [field_ok field_name]. by rewrite Hk.
  - destruct (INT_MAX <? z); cbn [field_ok field_name]; by rewrite Hk.
  - cbn [field_ok field_name]. by rewrite Hk.
  - cbn [field_ok field_name]. rewrite Hk. apply andb_prop in Hd as [_ Hd]. cbn [andb].
    induction IH as [|d l Hd1 _ IHl]; [done|]. simpl in *. apply andb_prop in Hd as [Ho1 Ho2]. by rewrite (Hd1 EmptyString), IHl.
  - cbn [field_ok field_name from_option id]. rewrite Hk. apply andb_prop in Hd as [_ Hd]. cbn [andb].
    induction l as [|[k d] l IHl]; [done|]. cbn [List.map forallb fst snd fmap list_fmap] in *. apply Forall_cons in IH as [IH1 IH].
    apply andb_prop in Hd as [[Hkey Ho1]%andb_prop Ho2]. unfold key_ok in Hkey. apply andb_prop in Hkey as [[_ Hkn]%andb_prop Hkl%Z.ltb_lt].
    by rewrite IH1, IHl.
Qed.

Section LuaData.
Context `{LN : LuaNum} `{VM : !LuaVM}.
Implicit Types (m : lua_vm) (v k : lua_value) (es : list (lua_value * lua_value)).

(** ** In the interpreter *)

(** The keys of an array with [n] elements *)
Definition array_keys (n : nat) : list lua_value := (fun i => LUA_NUMBER (num_of_Z (Z.of_nat (S i)))) <$> seq 0 n.

(** The value is the data: the entries of a table, compared with [R] to those of
    the data; its tables are among [A]. *)
Inductive denotes (R : list (lua_value * lua_value) -> list (lua_value * lua_value) -> Prop) (A : positive -> Prop) m :
    lua_value -> lua_data -> Prop :=
  | den_bool b : denotes R A m (LUA_BOOLEAN b) (DBool b)
  | den_int z : denotes R A m (LUA_NUMBER (num_of_Z z)) (DInt z)
  | den_string s : denotes R A m (LUA_STRING s) (DString s)
  | den_array t l es :
      A t -> table_live m t -> R (table_entries m t) es -> es.*1 = array_keys (length l) ->
      Forall2 (denotes R A m) es.*2 l -> denotes R A m (LUA_TABLE t) (DArray l)
  | den_table t l es :
      A t -> table_live m t -> R (table_entries m t) es -> es.*1 = LUA_STRING <$> l.*1 ->
      Forall2 (denotes R A m) es.*2 l.*2 -> denotes R A m (LUA_TABLE t) (DTable l).

Lemma denotes_mono R (A A' : positive -> Prop) m m' v d :
  (forall t, A t -> A' t) ->
  (forall t, A t -> table_live m t -> table_live m' t /\ table_entries m' t = table_entries m t) ->
  denotes R A m v d -> denotes R A' m' v d.
Proof.
  intros HA Hm. revert v. induction d as [d IH] using data_nested_ind. intros v Hd.
  assert (forall vs ds, Forall (fun d => forall v, denotes R A m v d -> denotes R A' m' v d) ds ->
    Forall2 (denotes R A m) vs ds -> Forall2 (denotes R A' m') vs ds) as Hall.
  { intros vs ds Hds H2. induction H2; [constructor|]. apply Forall_cons in Hds as [H1 Hds]. constructor; auto. }
  inversion Hd; subst; try constructor.
  - destruct (Hm t) as [Hl He]; [done..|]. econstructor; [auto|done|by rewrite He|done|by apply Hall].
  - destruct (Hm t) as [Hl He]; [done..|]. econstructor; [auto|done|by rewrite He|done|by apply Hall].
Qed.

Lemma denotes_not_nil R A m v d : denotes R A m v d -> v <> LUA_NIL.
Proof. by inversion 1. Qed.

(** ** Executing stack operations *)

Lemma lbind_done {A B} (p : luam A) (q : A -> luam B) L a L' : p L = LDone a L' -> (p ≫= q) L = q a L'.
Proof. intros H. unfold mbind, luam_bind. by rewrite H. Qed.

Lemma stack_pos_neg {A} (l : list A) (n : nat) x : l !! n = Some x -> stack_pos (length l) (- Z.of_nat (S n)) = Some n.
Proof.
  intros Hx%lookup_lt_Some. unfold stack_pos. rewrite (proj2 (Z.ltb_lt _ _)), (proj2 (Z.leb_le _ _)) by lia. f_equal. lia.
Qed.

Lemma value_at_neg m l (n : nat) v : l !! n = Some v -> value_at (- Z.of_nat (S n)) (mk_lua m l) = LDone v (mk_lua m l).
Proof.
  intros Hv. unfold value_at, mbind, luam_bind, option_bind. cbn [get_stack L_stack]. rewrite (stack_pos_neg l n v Hv). by rewrite Hv.
Qed.

Lemma type_neg m l (n : nat) v : l !! n = Some v -> lua_type (- Z.of_nat (S n)) (mk_lua m l) = LDone (type_of v) (mk_lua m l).
Proof.
  intros Hv. unfold lua_type, mbind, luam_bind. cbn [get_stack L_stack]. rewrite (proj2 (Z.ltb_ge _ _)) by lia.
  by rewrite (value_at_neg m l n v Hv).
Qed.

Lemma value_at_1 m v l : value_at (-1) (mk_lua m (v :: l)) = LDone v (mk_lua m (v :: l)).
Proof. by apply (value_at_neg _ _ 0). Qed.
Lemma value_at_2 m v k l : value_at (-2) (mk_lua m (v :: k :: l)) = LDone k (mk_lua m (v :: k :: l)).
Proof. by apply (value_at_neg _ _ 1). Qed.
Lemma value_at_3 m v k u l : value_at (-3) (mk_lua m (v :: k :: u :: l)) = LDone u (mk_lua m (v :: k :: u :: l)).
Proof. by apply (value_at_neg _ _ 2). Qed.

Lemma type_1 m v l : lua_type (-1) (mk_lua m (v :: l)) = LDone (type_of v) (mk_lua m (v :: l)).
Proof. by apply (type_neg _ _ 0). Qed.
Lemma type_2 m v k l : lua_type (-2) (mk_lua m (v :: k :: l)) = LDone (type_of k) (mk_lua m (v :: k :: l)).
Proof. by apply (type_neg _ _ 1). Qed.

Lemma tonumber_1 m x l : lua_tonumber (-1) (mk_lua m (LUA_NUMBER x :: l)) = LDone x (mk_lua m (LUA_NUMBER x :: l)).
Proof. unfold lua_tonumber. by erewrite lbind_done by apply value_at_1. Qed.

Lemma tointeger_1 m x l : lua_tointeger (-1) (mk_lua m (LUA_NUMBER x :: l)) = LDone (num_to_integer x) (mk_lua m (LUA_NUMBER x :: l)).
Proof. unfold lua_tointeger. by erewrite lbind_done by apply value_at_1. Qed.

Lemma table_at_neg m l (n : nat) t : l !! n = Some (LUA_TABLE t) -> table_at (- Z.of_nat (S n)) (mk_lua m l) = LDone t (mk_lua m l).
Proof. intros Hv. unfold table_at. by erewrite lbind_done by (by apply value_at_neg). Qed.

Lemma table_at_1 m t l : table_at (-1) (mk_lua m (LUA_TABLE t :: l)) = LDone t (mk_lua m (LUA_TABLE t :: l)).
Proof. by apply (table_at_neg _ _ 0). Qed.
Lemma table_at_2 m v t l : table_at (-2) (mk_lua m (v :: LUA_TABLE t :: l)) = LDone t (mk_lua m (v :: LUA_TABLE t :: l)).
Proof. by apply (table_at_neg _ _ 1). Qed.
Lemma table_at_3 m v k t l : table_at (-3) (mk_lua m (v :: k :: LUA_TABLE t :: l)) = LDone t (mk_lua m (v :: k :: LUA_TABLE t :: l)).
Proof. by apply (table_at_neg _ _ 2). Qed.

Lemma turns_1 m t l : turns (-1) (mk_lua m (LUA_TABLE t :: l)) = LDone (S (length (table_entries m t))) (mk_lua m (LUA_TABLE t :: l)).
Proof. unfold turns, mbind, luam_bind. by rewrite table_at_1. Qed.

Lemma pop_run m v l : pop_value (mk_lua m (v :: l)) = LDone v (mk_lua m l).
Proof. done. Qed.

Lemma store_run m t k v l : k <> LUA_NIL -> store t k v (mk_lua m l) = LDone tt (mk_lua (table_set t k v m) l).
Proof. intros Hk. unfold store. by rewrite bool_decide_eq_false_2. Qed.

Lemma rawset_run m v k t l : k <> LUA_NIL ->
  lua_rawset (-3) (mk_lua m (v :: k :: LUA_TABLE t :: l)) = LDone tt (mk_lua (table_set t k v m) (LUA_TABLE t :: l)).
Proof.
  intros Hk. unfold lua_rawset. erewrite lbind_done by apply table_at_3. do 2 (erewrite lbind_done by apply pop_run). by apply store_run.
Qed.

Lemma rawseti_run m v n t l :
  lua_rawseti (-2) n (mk_lua m (v :: LUA_TABLE t :: l)) =
    LDone tt (mk_lua (table_set t (LUA_NUMBER (num_of_Z n)) v m) (LUA_TABLE t :: l)).
Proof. unfold lua_rawseti. erewrite lbind_done by apply table_at_2. erewrite lbind_done by apply pop_run. by apply store_run. Qed.

(** *** Traversal *)

(** The key from which [lua_next] goes on to the entries [rest] of [es] *)
Definition at_key es (k : lua_value) (rest : list (lua_value * lua_value)) : Prop :=
  (k = LUA_NIL /\ rest = es) \/ (k <> LUA_NIL /\ exists pre v, es = pre ++ (k, v) :: rest /\ k ∉ pre.*1).

Lemma at_key_first es : at_key es LUA_NIL es.
Proof. by left. Qed.

Lemma at_key_next es k k' v' rest :
  NoDup es.*1 -> k' <> LUA_NIL -> at_key es k ((k', v') :: rest) -> at_key es k' rest.
Proof.
  intros Hnd Hk' [[_ <-]|[_ (pre & v & -> & _)]]; right; (split; [done|]).
  - exists [], v'. split; [done|apply not_elem_of_nil].
  - exists (pre ++ [(k, v)]), v'. split; [by rewrite <- app_assoc|]. rewrite fmap_app, fmap_cons in Hnd. cbn in Hnd.
    rewrite fmap_app. cbn. intros Hin.
    replace (pre.*1 ++ k :: k' :: rest.*1) with ((pre.*1 ++ [k]) ++ k' :: rest.*1) in Hnd by (by rewrite <- app_assoc).
    apply NoDup_app in Hnd as (_ & Hd & _). apply (Hd k' Hin). by left.
Qed.

Lemma next_after_spec k v pre rest : k ∉ pre.*1 -> next_after k (pre ++ (k, v) :: rest) = Some (head rest).
Proof.
  induction pre as [|[k' v'] pre IH]; intros Hk; simpl.
  - by rewrite bool_decide_eq_true_2.
  - rewrite fmap_cons in Hk. apply not_elem_of_cons in Hk as [Hne Hk]. rewrite bool_decide_eq_false_2 by (simpl in *; congruence). by apply IH.
Qed.

(** [lua_next] below other values *)
Lemma next_deep m t k rest l (n : nat) : l !! n = Some (LUA_TABLE t) -> at_key (table_entries m t) k rest ->
  lua_next (- Z.of_nat (S (S n))) (mk_lua m (k :: l)) =
    match rest with
    | [] => LDone false (mk_lua m l)
    | (k', v') :: _ => LDone true (mk_lua m (v' :: k' :: l))
    end.
Proof.
  intros Ht Hk. unfold lua_next. erewrite lbind_done by (by apply (table_at_neg _ (k :: l) (S n))). erewrite lbind_done by apply pop_run.
  erewrite lbind_done by done. cbn [L_vm].
  assert ((if bool_decide (k = LUA_NIL) then Some (head (table_entries m t)) else next_after k (table_entries m t)) = Some (head rest)) as ->.
  { destruct Hk as [[-> ->]|[Hne (pre & v & -> & Hd)]]; [done|]. rewrite bool_decide_eq_false_2 by done. by apply next_after_spec. }
  destruct rest as [|[k' v'] rest]; done.
Qed.

Lemma next_run m t k rest l : at_key (table_entries m t) k rest ->
  lua_next (-2) (mk_lua m (k :: LUA_TABLE t :: l)) =
    match rest with
    | [] => LDone false (mk_lua m (LUA_TABLE t :: l))
    | (k', v') :: _ => LDone true (mk_lua m (v' :: k' :: LUA_TABLE t :: l))
    end.
Proof. by apply (next_deep _ _ _ _ (LUA_TABLE t :: l) 0). Qed.

Lemma next_end m t k l : at_key (table_entries m t) k [] ->
  lua_next (-2) (mk_lua m (k :: LUA_TABLE t :: l)) = LDone false (mk_lua m (LUA_TABLE t :: l)).
Proof. intros Hk. by rewrite (next_run m t k [] l Hk). Qed.

Lemma next_entry m t k k' v' rest l : at_key (table_entries m t) k ((k', v') :: rest) ->
  lua_next (-2) (mk_lua m (k :: LUA_TABLE t :: l)) = LDone true (mk_lua m (v' :: k' :: LUA_TABLE t :: l)).
Proof. intros Hk. by rewrite (next_run m t k _ l Hk). Qed.
End LuaData.
