(* ===== verification/LuaFormat.v ===== *)
(** * What the Lua binding writes into messages

    [ubus_lua_format_blob] of a value that is data writes exactly the field of
    that data and leaves the stack as it was. *)

From stdpp Require Import base gmap strings list.
From Stdlib Require Import ZArith Lia Ascii.
From S2P Require Import Prelude Wire Cstring Libubox BlobMsg LuaApi LuaConv LuaData.
Local Open Scope Z_scope.

Section LuaFormat.
Context `{LN : LuaNum} `{VM : !LuaVM} `{!LuaNumLaws LN} `{!LuaVMLaws VM}.
Implicit Types (m : lua_vm) (v k : lua_value) (stk : list lua_value).

(** The value is the data, with the entries of its tables in the order of the
    traversal. *)
Definition in_order m : lua_value -> lua_data -> Prop := denotes eq (fun _ => True) m.

(** ** Arrays are recognised *)

Lemma is_array_numbers m t stk turns rest k (i : nat) :
  NoDup (table_entries m t).*1 -> at_key (table_entries m t) k rest ->
  rest.*1 = (fun j => LUA_NUMBER (num_of_Z (Z.of_nat (S j)))) <$> seq i (length rest) ->
  Z.of_nat (i + length rest) < 2 ^ 53 -> (length rest < turns)%nat ->
  is_array_loop turns (Z.of_nat i) (mk_lua m (k :: LUA_TABLE t :: stk)) = LDone true (mk_lua m (LUA_TABLE t :: stk)).
Proof.
  intros Hnd. revert turns k i. induction rest as [|[k' v'] rest IH]; intros turns k i Hk Hkeys Hb Ht;
    (destruct turns as [|turns]; [simpl in Ht; lia|]); cbn [is_array_loop].
  - by erewrite lbind_done by (by apply next_end).
  - erewrite lbind_done by (by eapply next_entry). cbn [length seq] in Hkeys, Hb, Ht. rewrite !fmap_cons in Hkeys. injection Hkeys as -> Hkeys. cbn [negb].
    erewrite lbind_done by apply type_2. cbn [type_of]. rewrite bool_decide_eq_true_2 by done. cbn [negb].
    assert (lua_tointeger (-2) (mk_lua m (v' :: LUA_NUMBER (num_of_Z (Z.of_nat (S i))) :: LUA_TABLE t :: stk)) =
      LDone (Z.of_nat (S i)) (mk_lua m (v' :: LUA_NUMBER (num_of_Z (Z.of_nat (S i))) :: LUA_TABLE t :: stk))) as Hti.
    { unfold lua_tointeger. erewrite lbind_done by apply value_at_2. cbn [to_number]. by rewrite num_to_integer_of_Z by lia. }
    erewrite lbind_done by exact Hti. replace (Z.of_nat (S i) - 1 =? Z.of_nat i) with true by (symmetry; apply Z.eqb_eq; lia). cbn [negb].
    erewrite lbind_done by done. apply IH; [by eapply at_key_next|done|lia|lia].
Qed.

Lemma is_array_run m t stk l es :
  NoDup (table_entries m t).*1 -> table_entries m t = es -> es.*1 = array_keys (length l) -> Z.of_nat (length (l : list lua_data)) < 2 ^ 52 ->
  ubus_lua_format_blob_is_array (mk_lua m (LUA_TABLE t :: stk)) = LDone true (mk_lua m (LUA_TABLE t :: stk)).
Proof.
  intros Hnd <- Hkeys Hb. unfold ubus_lua_format_blob_is_array. erewrite lbind_done by apply turns_1. erewrite lbind_done by done.
  assert (length (table_entries m t) = length l) as Hlen by (rewrite <- (length_fmap fst), Hkeys; unfold array_keys; by rewrite length_fmap, length_seq).
  apply (is_array_numbers m t stk _ (table_entries m t) LUA_NIL 0); [done|apply at_key_first| |lia|lia].
  by rewrite Hkeys, Hlen.
Qed.

(** A table that starts with a string is none. *)
Lemma is_array_strings m t stk (l : list (string * lua_data)) es :
  table_entries m t = es -> es.*1 = LUA_STRING <$> l.*1 -> l <> [] ->
  ubus_lua_format_blob_is_array (mk_lua m (LUA_TABLE t :: stk)) = LDone false (mk_lua m (LUA_TABLE t :: stk)).
Proof.
  intros He Hkeys Hl. destruct l as [|[k d] l]; [done|]. destruct es as [|[k' v'] es]; [done|]. injection Hkeys as -> Hkeys.
  unfold ubus_lua_format_blob_is_array. erewrite lbind_done by apply turns_1. erewrite lbind_done by done. cbn [is_array_loop].
  assert (at_key (table_entries m t) LUA_NIL ((LUA_STRING k, v') :: es)) as Hat by (rewrite He; apply at_key_first).
  erewrite lbind_done by (eapply next_entry; exact Hat). cbn [negb]. erewrite lbind_done by apply type_2. cbn [type_of]. by rewrite bool_decide_eq_false_2.
Qed.

(** ** Entries are written in order *)

Lemma format_loop_run m t stk (format : luam (bool * list put)) turns rest ps k :
  NoDup (table_entries m t).*1 -> Forall (fun e => e.1 <> LUA_NIL) rest -> at_key (table_entries m t) k rest -> (length rest < turns)%nat ->
  Forall2 (fun e p => format (mk_lua m (e.2 :: e.1 :: LUA_TABLE t :: stk)) = LDone (true, [p]) (mk_lua m (e.2 :: e.1 :: LUA_TABLE t :: stk)))
    rest ps ->
  format_array_loop format turns (mk_lua m (k :: LUA_TABLE t :: stk)) = LDone (true, ps) (mk_lua m (LUA_TABLE t :: stk)).
Proof.
  intros Hnd. revert turns ps k. induction rest as [|[k' v'] rest IH]; intros turns ps k Hnil Hk Ht H2;
    (destruct turns as [|turns]; [simpl in Ht; lia|]); cbn [format_array_loop].
  - erewrite lbind_done by (by apply next_end). by inversion H2.
  - erewrite lbind_done by (by eapply next_entry). inversion H2 as [|e p es ps' Hf H2' E1 E2]; subst. apply Forall_cons in Hnil as [Hn Hnil]. cbn [negb].
    erewrite lbind_done by exact Hf. cbn [negb]. erewrite lbind_done by done.
    erewrite lbind_done by (apply IH; [done|by eapply at_key_next|simpl in Ht; lia|done]). done.
Qed.

Lemma format_array_run m t stk format (table : bool) ps :
  NoDup (table_entries m t).*1 -> Forall (fun e => e.1 <> LUA_NIL) (table_entries m t) ->
  Forall2 (fun e p => format table (mk_lua m (e.2 :: e.1 :: LUA_TABLE t :: stk)) =
    LDone (true, [p]) (mk_lua m (e.2 :: e.1 :: LUA_TABLE t :: stk))) (table_entries m t) ps ->
  format_array format table (mk_lua m (LUA_TABLE t :: stk)) = LDone (true, ps) (mk_lua m (LUA_TABLE t :: stk)).
Proof.
  intros Hnd Hnil H2. unfold format_array. erewrite lbind_done by apply turns_1. erewrite lbind_done by done.
  apply (format_loop_run m t stk (format table) _ (table_entries m t)); [done|done|apply at_key_first|lia|done].
Qed.

(** ** Values *)

(** The key under the value: a string, or of no interest *)
Definition key_below (table : bool) (key : string) stk : Prop :=
  nul_free key = true /\ if table then exists rest, stk = LUA_STRING key :: rest else key = EmptyString.

Lemma key_run m v table key stk : key_below table key stk ->
  exists o, (if table then lua_tostring (-2) else mret None) (mk_lua m (v :: stk)) = LDone o (mk_lua m (v :: stk)) /\
    c_prefix (default EmptyString o) = key.
Proof.
  intros [Hn Hk]. destruct table.
  - destruct Hk as [rest ->]. exists (Some key). split; [|by apply c_prefix_nul_free]. unfold lua_tostring.
    by erewrite lbind_done by apply value_at_2.
  - subst key. by exists None.
Qed.

(** The entries of a table, when each of its values is written as it should *)
Lemma entries_format m (format : luam (bool * list put)) (table : bool) t stk (nds : list (string * lua_data)) es :
  Forall (fun nd => forall v stk, in_order m v nd.2 -> key_below table nd.1 stk ->
    format (mk_lua m (v :: stk)) = LDone (true, [put_of nd.1 nd.2]) (mk_lua m (v :: stk))) nds ->
  Forall2 (in_order m) es.*2 nds.*2 ->
  Forall2 (fun e nd => key_below table nd.1 (e.1 :: LUA_TABLE t :: stk)) es nds ->
  Forall2 (fun e p => format (mk_lua m (e.2 :: e.1 :: LUA_TABLE t :: stk)) =
    LDone (true, [p]) (mk_lua m (e.2 :: e.1 :: LUA_TABLE t :: stk))) es (puts_of nds).
Proof.
  intros Hall Hv Hk. revert Hall Hv. induction Hk as [|e nd es nds Hk _ IH]; intros Hall Hv; [constructor|].
  apply Forall_cons in Hall as [Hnd Hall]. inversion Hv; subst. constructor; [by apply Hnd|by apply IH].
Qed.

Lemma array_keys_below t stk (es : list (lua_value * lua_value)) l :
  length es = length l -> Forall2 (fun e (nd : string * lua_data) => key_below false nd.1 (e.1 :: LUA_TABLE t :: stk)) es (pair EmptyString <$> l).
Proof. revert es. induction l as [|d l IH]; intros [|e es] Hl; try done. constructor; [done|]. apply IH. by injection Hl. Qed.

Lemma table_keys_below t stk (es : list (lua_value * lua_value)) (l : list (string * lua_data)) :
  es.*1 = LUA_STRING <$> l.*1 -> forallb (fun e => key_ok e.1 && data_ok e.2) l = true ->
  Forall2 (fun e nd => key_below true nd.1 (e.1 :: LUA_TABLE t :: stk)) es l.
Proof.
  revert es. induction l as [|[n d] l IH]; intros [|[k v] es] Hk; try done. injection Hk as -> Hk. simpl.
  intros [[Hn _]%andb_prop Hl]%andb_prop. constructor; [|by apply IH]. unfold key_ok in Hn. apply andb_prop in Hn as [[_ Hn]%andb_prop _].
  split; [done|]. by eexists.
Qed.

Lemma puts_of_array l : puts_of (pair EmptyString <$> l) = List.map (put_of EmptyString) l.
Proof. induction l as [|d l IH]; [done|]. exact (f_equal (cons (put_of EmptyString d)) IH). Qed.

(** Strings and numbers are no nil. *)
Lemma keys_not_nil (es : list (lua_value * lua_value)) l : es.*1 = l -> LUA_NIL ∉ l -> Forall (fun e => e.1 <> LUA_NIL) es.
Proof. intros <- Hn. apply Forall_forall. intros e He Hk. apply Hn. rewrite <- Hk. by apply list_elem_of_fmap_2. Qed.

Lemma format_ok d : data_ok d = true -> forall m fuel v table key stk,
  (depth d <= fuel)%nat -> in_order m v d -> key_below table key stk ->
  ubus_lua_format_blob fuel table (mk_lua m (v :: stk)) = LDone (true, [put_of key d]) (mk_lua m (v :: stk)).
Proof.
  induction d as [d IH] using data_nested_ind. intros Hok m fuel v table key stk Hf Hd Hk.
  destruct fuel as [|fuel]; [destruct d; simpl in Hf; lia|]. cbn [ubus_lua_format_blob].
  destruct (key_run m v table key stk Hk) as (o & Ho & Hkey). erewrite lbind_done by exact Ho. rewrite Hkey. clear o Ho Hkey.
  assert (forall (table : bool) nds, Forall (.∈ sub_data d) nds.*2 -> forallb data_ok nds.*2 = true ->
    Forall (fun nd => forall v stk, in_order m v nd.2 -> key_below table nd.1 stk ->
      ubus_lua_format_blob fuel table (mk_lua m (v :: stk)) = LDone (true, [put_of nd.1 nd.2]) (mk_lua m (v :: stk))) nds) as Hsub.
  { intros table' nds Hin Hoks. apply Forall_forall. intros nd Hnd v' stk' Hv' Hk'. apply (list_elem_of_fmap_2 snd) in Hnd.
    rewrite Forall_forall in Hin. specialize (Hin _ Hnd). rewrite Forall_forall in IH. apply IH; [done| |by eapply depth_sub|done|done].
    apply List.forallb_forall with (x := nd.2) in Hoks; [done|]. by apply list_elem_of_In. }
  erewrite lbind_done by apply type_1. inversion Hd as [b|z|s|t l es _ Hl He Hkeys Hvs|t l es _ Hl He Hkeys Hvs]; subst; cbn [type_of put_of].
  - unfold lua_toboolean, mbind, luam_bind. rewrite value_at_1. by destruct b.
  - cbn [data_ok] in Hok. apply andb_prop in Hok as [H0%Z.leb_le H1%Z.ltb_lt].
    erewrite lbind_done by apply tonumber_1. rewrite num_to_u64_of_Z by lia. erewrite lbind_done by done.
    destruct (Z.ltb_spec INT_MAX z) as [Hz|Hz]; [done|]. erewrite lbind_done by apply tointeger_1. rewrite num_to_integer_of_Z by lia.
    unfold INT_MAX in Hz. by rewrite u32_small by lia.
  - unfold lua_tostring, mbind, luam_bind. rewrite value_at_1. unfold mret, luam_ret. cbn [data_ok] in Hok. by rewrite c_prefix_nul_free.
  - cbn [data_ok] in Hok. apply andb_prop in Hok as [Hn%Z.ltb_lt Hok].
    pose proof (entries_keys m t Hl) as Hnd. erewrite lbind_done by (by eapply is_array_run). cbn iota.
    assert ((pair EmptyString <$> l).*2 = l) as H2 by (rewrite <- list_fmap_compose; apply list_fmap_id).
    assert (format_array (ubus_lua_format_blob fuel) false (mk_lua m (LUA_TABLE t :: stk)) =
      LDone (true, puts_of (pair EmptyString <$> l)) (mk_lua m (LUA_TABLE t :: stk))) as Hfa; [apply format_array_run; [done| |]|].
    + eapply keys_not_nil; [exact Hkeys|]. unfold array_keys. intros (? & ? & _)%list_elem_of_fmap. congruence.
    + apply (entries_format m _ false); [apply Hsub; rewrite H2; [by apply Forall_forall|done]|by rewrite H2|].
      apply array_keys_below. rewrite <- (length_fmap snd), (Forall2_length _ _ _ Hvs). done.
    + rewrite (lbind_done _ _ _ _ _ Hfa). by rewrite puts_of_array.
  - cbn [data_ok] in Hok. apply andb_prop in Hok as [[Hne _]%andb_prop Hok]. apply negb_true_iff, bool_decide_eq_false in Hne.
    pose proof (entries_keys m t Hl) as Hnd. erewrite lbind_done by (by eapply is_array_strings). cbn iota.
    assert (format_array (ubus_lua_format_blob fuel) true (mk_lua m (LUA_TABLE t :: stk)) =
      LDone (true, puts_of l) (mk_lua m (LUA_TABLE t :: stk))) as Hfa; [apply format_array_run; [done| |]|].
    + eapply keys_not_nil; [exact Hkeys|]. intros (? & ? & _)%list_elem_of_fmap. congruence.
    + apply (entries_format m _ true); [apply Hsub|done|by apply table_keys_below].
      * apply Forall_forall. done.
      * clear -Hok. induction l as [|[n d] l IH]; [done|]. simpl in *. apply andb_prop in Hok as [[_ Hd]%andb_prop Hl]. rewrite Hd. by apply IH.
    + by rewrite (lbind_done _ _ _ _ _ Hfa).
Qed.

(** ** Messages *)

(** The table on top of the stack as a whole message *)
Lemma format_message m t stk l fuel :
  table_live m t -> (table_entries m t).*1 = LUA_STRING <$> l.*1 ->
  Forall2 (in_order m) (table_entries m t).*2 l.*2 -> forallb (fun e => key_ok e.1 && data_ok e.2) l = true ->
  Forall (fun e => depth e.2 <= fuel)%nat l ->
  ubus_lua_format_blob_array fuel true (mk_lua m (LUA_TABLE t :: stk)) = LDone (true, puts_of l) (mk_lua m (LUA_TABLE t :: stk)).
Proof.
  intros Hl Hkeys Hvs Hok Hdepth.
  apply format_array_run; [by apply entries_keys| |].
  - eapply keys_not_nil; [exact Hkeys|]. intros (? & ? & _)%list_elem_of_fmap. congruence.
  - apply (entries_format m _ true); [|done|by apply table_keys_below]. apply Forall_forall. intros [n d] Hnd v stk' Hv Hk. simpl in *.
    rewrite Forall_forall in Hdepth. apply format_ok; [|by apply (Hdepth (n, d))|done|done].
    apply List.forallb_forall with (x := (n, d)) in Hok; [|by apply list_elem_of_In]. by apply andb_prop in Hok as [_ ?].
Qed.
End LuaFormat.
