(* ===== verification/LuaParse.v ===== *)
(** * What the Lua binding reads from messages

    [ubus_lua_parse_blob] of the field of some data pushes a value that is this
    data, made of new tables; tables that existed before stay as they were.
    Together with [LuaFormat.v]: what a Lua program sends is what a Lua program
    receives. *)

From stdpp Require Import base gmap strings list.
From Stdlib Require Import ZArith Lia Ascii.
From S2P Require Import Prelude Wire Cstring Libubox BlobMsg LuaApi LuaConv LuaData LuaFormat.
Local Open Scope Z_scope.

Section LuaParse.
Context `{LN : LuaNum} `{VM : !LuaVM} `{!LuaNumLaws LN} `{!LuaVMLaws VM}.
Context `{BL : BlobLib} `{BW : BlobWalk}.
Implicit Types (m : lua_vm) (v k : lua_value) (stk : list lua_value) (es : list (lua_value * lua_value)).

(** The value is the data, whatever the order of the traversals; its tables were
    not there in [mb]. *)
Definition made_since (mb : lua_vm) (A : positive -> Prop) m : lua_value -> lua_data -> Prop :=
  denotes (≡ₚ) (fun t => ~ table_live mb t /\ A t) m.

(** The tables of [m] stay. *)
Definition extends m m' : Prop := forall t, table_live m t -> table_live m' t /\ table_entries m' t = table_entries m t.

#[export] Instance extends_preorder : PreOrder extends.
Proof.
  split; [done|]. intros m1 m2 m3 H12 H23 t Ht. destruct (H12 t Ht) as [Hl He]. destruct (H23 t Hl) as [Hl' He']. split; [done|congruence].
Qed.

Lemma extends_new m : extends m (table_new m).2.
Proof. intros t Ht. split; [apply live_new; by right|by apply entries_new_other]. Qed.

(** ** Building a table *)

Lemma filter_absent_key es k : k ∉ es.*1 -> filter (fun e => e.1 <> k) es = es.
Proof.
  induction es as [|e es IH]; intros Hk; [done|]. rewrite fmap_cons in Hk. apply not_elem_of_cons in Hk as [Hne Hk].
  rewrite filter_cons_True by congruence. by rewrite IH.
Qed.

(** A table under construction, begun after [mb]: its keys and data so far *)
Record building (mb m : lua_vm) (t : positive) (keys : list lua_value) (ds : list lua_data) : Prop := {
  bu_old : forall t', table_live mb t' -> table_live m t';
  bu_fresh : ~ table_live mb t;
  bu_live : table_live m t;
  bu_entries : exists es, table_entries m t ≡ₚ es /\ es.*1 = keys /\ Forall2 (made_since mb (fun t' => t' <> t) m) es.*2 ds;
}.

Lemma building_new m : building m (table_new m).2 (table_new m).1 [] [].
Proof.
  split.
  - intros t Ht. apply live_new. by right.
  - apply table_new_fresh.
  - apply live_new. by left.
  - exists []. by rewrite entries_new.
Qed.

(** One more entry, made after the table was begun *)
Lemma building_set mb m m1 t keys ds k v d :
  building mb m t keys ds -> extends m m1 -> made_since m (fun _ => True) m1 v d -> k ∉ keys ->
  building mb (table_set t k v m1) t (keys ++ [k]) (ds ++ [d]).
Proof.
  intros [Hold Hfresh Hlive (es & He & Hk & Hvs)] Hext Hv Hni. destruct (Hext t Hlive) as [Hlive1 He1]. split.
  - intros t' Ht'. apply live_set. by apply Hext, Hold.
  - done.
  - by apply live_set.
  - exists (es ++ [(k, v)]). split; [|split].
    + rewrite entries_set by done. rewrite bool_decide_eq_false_2 by (by eapply denotes_not_nil). rewrite He1, He.
      rewrite filter_absent_key by (by rewrite Hk). by rewrite Permutation_app_comm.
    + by rewrite fmap_app, Hk.
    + rewrite fmap_app. apply Forall2_app.
      * eapply Forall2_impl; [exact Hvs|]. intros v' d' Hd'. eapply denotes_mono; [intros t' H; exact H| |exact Hd'].
        intros t' [_ Hne] Hl'. destruct (Hext t' Hl') as [Hl1 Ee]. split; [by apply live_set|]. by rewrite entries_set_other by congruence.
      * constructor; [|constructor]. eapply denotes_mono; [| |exact Hv].
        -- intros t' [Hn _]. split; [intros Hb; by apply Hn, Hold|]. by intros ->.
        -- intros t' [Hn _] Hl'. split; [by apply live_set|]. apply entries_set_other. by intros ->.
Qed.

Lemma building_extends mb m m1 t keys ds k v :
  building mb m t keys ds -> extends mb m -> extends m m1 -> extends mb (table_set t k v m1).
Proof.
  intros [Hold Hfresh _ _] H1 H2 t' Ht'. destruct (H1 t' Ht') as [Hl He]. destruct (H2 t' Hl) as [Hl2 He2].
  split; [by apply live_set|]. rewrite entries_set_other by (by intros ->). congruence.
Qed.

(** ** Fields *)

(** What parsing a field has to achieve *)
Definition parses (parse : bytes -> bool -> luam Z) (d : lua_data) (attr : bytes) (table : bool) (key : string) : Prop :=
  forall m stk, exists v m',
    parse attr table (mk_lua m stk) =
      (if table && negb (bool_decide (key = EmptyString)) then LDone 2 (mk_lua m' (v :: LUA_STRING key :: stk))
       else LDone 1 (mk_lua m' (v :: stk))) /\
    extends m m' /\ made_since m (fun _ => True) m' v d.

(** The loop over the fields of an array, from the [i]-th on *)
Lemma array_loop parse mb t stk l attrs :
  Forall2 (fun d a => parses parse d a false EmptyString) l attrs ->
  forall m (i : nat) ds, building mb m t (array_keys i) ds -> extends mb m -> Z.of_nat (i + length l) < 2 ^ 53 ->
  exists m', parse_array_loop (fun pos => parse pos false) attrs (Z.of_nat (S i)) (mk_lua m (LUA_TABLE t :: stk)) =
      LDone tt (mk_lua m' (LUA_TABLE t :: stk)) /\
    building mb m' t (array_keys (i + length l)) (ds ++ l) /\ extends mb m'.
Proof.
  induction 1 as [|d a l attrs Hp Hl IH]; intros m i ds Hb Hext Hlen.
  - exists m. rewrite Nat.add_0_r, app_nil_r. done.
  - destruct (Hp m (LUA_TABLE t :: stk)) as (v & m1 & E & Hx & Hv). cbn [parse_array_loop]. rewrite (lbind_done _ _ _ _ _ E).
    change (1 <? 1) with false. change (0 <? 1) with true. cbn iota. erewrite lbind_done by apply rawseti_run.
    replace (Z.of_nat (S i) + 1) with (Z.of_nat (S (S i))) by lia. cbn [length] in *.
    destruct (IH (table_set t (LUA_NUMBER (num_of_Z (Z.of_nat (S i)))) v m1) (S i) (ds ++ [d])) as (m' & E' & Hb' & Hx').
    + assert (array_keys (S i) = array_keys i ++ [LUA_NUMBER (num_of_Z (Z.of_nat (S i)))]) as ->.
      { unfold array_keys. by rewrite seq_S, fmap_app. }
      eapply building_set; [done..|]. unfold array_keys. intros (j & Hj & Hin)%list_elem_of_fmap. apply elem_of_seq in Hin.
      injection Hj as Hj. apply (f_equal num_to_integer) in Hj. rewrite !num_to_integer_of_Z in Hj by lia. lia.
    + by eapply building_extends.
    + lia.
    + exists m'. split; [done|]. rewrite <- app_assoc in Hb'. replace (i + S (length l))%nat with (S i + length l)%nat by lia. done.
Qed.

(** The loop over the fields of a table *)
Lemma table_loop parse mb t stk (l : list (string * lua_data)) attrs :
  Forall2 (fun nd a => parses parse nd.2 a true nd.1) l attrs -> Forall (fun nd => nd.1 <> EmptyString) l ->
  forall m keys ds idx, building mb m t (LUA_STRING <$> keys) ds -> extends mb m -> NoDup (keys ++ l.*1) ->
  exists m', parse_array_loop (fun pos => parse pos true) attrs idx (mk_lua m (LUA_TABLE t :: stk)) =
      LDone tt (mk_lua m' (LUA_TABLE t :: stk)) /\
    building mb m' t (LUA_STRING <$> keys ++ l.*1) (ds ++ l.*2) /\ extends mb m'.
Proof.
  induction 1 as [|[n d] a l attrs Hp Hl IH]; intros Hne m keys ds idx Hb Hext Hnd.
  - exists m. rewrite !app_nil_r. done.
  - apply Forall_cons in Hne as [Hn Hne]. destruct (Hp m (LUA_TABLE t :: stk)) as (v & m1 & E & Hx & Hv). cbn [fst snd] in *.
    cbn [parse_array_loop]. rewrite bool_decide_eq_false_2 in E by done. cbn [andb negb] in E. rewrite (lbind_done _ _ _ _ _ E).
    change (1 <? 2) with true. cbn iota. erewrite lbind_done by (by apply rawset_run). rewrite fmap_cons in Hnd. cbn [fst] in Hnd.
    destruct (IH Hne (table_set t (LUA_STRING n) v m1) (keys ++ [n]) (ds ++ [d]) idx) as (m' & E' & Hb' & Hx').
    + rewrite fmap_app. eapply building_set; [done..|]. intros (j & [= ->] & Hin)%list_elem_of_fmap.
      apply NoDup_app in Hnd as (_ & Hd & _). apply (Hd j Hin). by left.
    + by eapply building_extends.
    + by rewrite <- app_assoc.
    + exists m'. split; [done|]. rewrite <- !app_assoc in Hb'. rewrite !fmap_cons. done.
Qed.

Lemma building_done mb m t l : building mb m t (array_keys (length l)) l -> made_since mb (fun _ => True) m (LUA_TABLE t) (DArray l).
Proof.
  intros [_ Hf Hl (es & He & Hk & Hvs)]. econstructor; [done|done|exact He|exact Hk|]. eapply Forall2_impl; [exact Hvs|].
  intros v d Hd. eapply denotes_mono; [| |exact Hd]; [naive_solver|done].
Qed.

Lemma building_done_table mb m t (l : list (string * lua_data)) :
  building mb m t (LUA_STRING <$> l.*1) l.*2 -> made_since mb (fun _ => True) m (LUA_TABLE t) (DTable l).
Proof.
  intros [_ Hf Hl (es & He & Hk & Hvs)]. econstructor; [done|done|exact He|exact Hk|]. eapply Forall2_impl; [exact Hvs|].
  intros v d Hd. eapply denotes_mono; [| |exact Hd]; [naive_solver|done].
Qed.

Lemma parse_array_array parse data l m stk :
  Forall2 (fun d a => parses parse d a false EmptyString) l (blob_walk data) -> Z.of_nat (length l) < 2 ^ 53 ->
  exists v m', parse_array parse data false (mk_lua m stk) = LDone 1 (mk_lua m' (v :: stk)) /\
    extends m m' /\ made_since m (fun _ => True) m' v (DArray l).
Proof.
  intros H2 Hlen. unfold parse_array. erewrite lbind_done by done. cbn [L_vm L_stack].
  destruct (array_loop parse m (table_new m).1 stk l _ H2 (table_new m).2 0 []) as (m' & E & Hb & Hx);
    [apply building_new|apply extends_new|done|].
  rewrite (lbind_done _ _ _ _ _ E). do 2 eexists. split; [done|]. split; [done|]. by apply building_done.
Qed.

Lemma parse_array_table parse data (l : list (string * lua_data)) m stk :
  Forall2 (fun nd a => parses parse nd.2 a true nd.1) l (blob_walk data) -> Forall (fun nd => nd.1 <> EmptyString) l -> NoDup l.*1 ->
  exists v m', parse_array parse data true (mk_lua m stk) = LDone 1 (mk_lua m' (v :: stk)) /\
    extends m m' /\ made_since m (fun _ => True) m' v (DTable l).
Proof.
  intros H2 Hne Hnd. unfold parse_array. erewrite lbind_done by done. cbn [L_vm L_stack].
  destruct (table_loop parse m (table_new m).1 stk l _ H2 Hne (table_new m).2 [] [] 1) as (m' & E & Hb & Hx);
    [apply building_new|apply extends_new|done|].
  rewrite (lbind_done _ _ _ _ _ E). do 2 eexists. split; [done|]. split; [done|]. by apply building_done_table.
Qed.

(** ** Values *)

Lemma Forall2_map_impl {A B C} (Q : A -> Prop) (P : B -> C -> Prop) (R : A -> C -> Prop) (f : A -> B) l l' :
  Forall Q l -> Forall2 P (List.map f l) l' -> (forall x y, Q x -> P (f x) y -> R x y) -> Forall2 R l l'.
Proof.
  intros HQ. revert l'. induction HQ as [|x l Hx _ IH]; intros l' H2 HR; inversion H2; subst; constructor; auto.
Qed.

(** The value alone, without its name *)
Definition pushes (p : luam unit) (d : lua_data) : Prop :=
  forall m stk, exists v m', p (mk_lua m stk) = LDone tt (mk_lua m' (v :: stk)) /\ extends m m' /\ made_since m (fun _ => True) m' v d.

Lemma pushes_plain (p : luam unit) v d :
  (forall m stk, p (mk_lua m stk) = LDone tt (mk_lua m (v :: stk))) -> (forall m, made_since m (fun _ => True) m v d) -> pushes p d.
Proof. intros Hp Hv m stk. by exists v, m. Qed.

Lemma pushes_array (p : luam Z) d :
  (forall m stk, exists v m', p (mk_lua m stk) = LDone 1 (mk_lua m' (v :: stk)) /\ extends m m' /\ made_since m (fun _ => True) m' v d) ->
  pushes (p;; mret tt) d.
Proof.
  intros Hp m stk. destruct (Hp m stk) as (v & m' & E & H). exists v, m'. by rewrite (lbind_done _ _ _ _ _ E).
Qed.

(** The body of [ubus_lua_parse_blob] after its name *)
Definition parse_value (fuel : nat) (attr : bytes) : luam unit :=
  let data := blobmsg_data attr in
  match blobmsg_type attr with
  | BLOBMSG_TYPE_INT8 => lua_pushboolean (nth 0 data 0)
  | BLOBMSG_TYPE_INT16 => lua_pushinteger (of_be16 (take 2 data))
  | BLOBMSG_TYPE_INT32 => lua_pushinteger (of_be32 (take 4 data))
  | BLOBMSG_TYPE_INT64 => lua_pushnumber (num_of_Z (of_be64 data))
  | BLOBMSG_TYPE_DOUBLE => lua_pushnumber (num_of_bits (of_be64 data))
  | BLOBMSG_TYPE_STRING => lua_pushstring (bytes_string data)
  | BLOBMSG_TYPE_ARRAY => parse_array (ubus_lua_parse_blob fuel) data false;; mret tt
  | BLOBMSG_TYPE_TABLE => parse_array (ubus_lua_parse_blob fuel) data true;; mret tt
  | BLOBMSG_TYPE_UNSPEC => lua_pushnil
  end.

Lemma parses_value fuel attr table key d :
  blobmsg_check_attr attr false = true -> blobmsg_name attr = key -> pushes (parse_value fuel attr) d ->
  parses (ubus_lua_parse_blob (S fuel)) d attr table key.
Proof.
  intros Hc Hn Hp m stk. cbn [ubus_lua_parse_blob]. fold (parse_value fuel attr). rewrite Hc, Hn. cbn [negb].
  destruct (table && negb (bool_decide (key = EmptyString))).
  - destruct (Hp m (LUA_STRING key :: stk)) as (v & m' & E & H). exists v, m'. split; [|done].
    erewrite lbind_done by done. by rewrite (lbind_done _ _ _ _ _ E).
  - destruct (Hp m stk) as (v & m' & E & H). exists v, m'. split; [|done]. erewrite lbind_done by done. by rewrite (lbind_done _ _ _ _ _ E).
Qed.

Lemma keys_not_empty (l : list (string * lua_data)) :
  forallb (fun e => key_ok e.1 && data_ok e.2) l = true -> Forall (fun nd => nd.1 <> EmptyString) l.
Proof.
  intros Hok. apply Forall_forall. intros nd Hin. apply List.forallb_forall with (x := nd) in Hok; [|by apply list_elem_of_In].
  apply andb_prop in Hok as [Hk _]. unfold key_ok in Hk. apply andb_prop in Hk as [[Hk _]%andb_prop _].
  by apply negb_true_iff, bool_decide_eq_false in Hk.
Qed.

Lemma parse_ok d : data_ok d = true -> forall fuel key attr table,
  (depth d <= fuel)%nat -> field_holds (put_of key d) attr -> parses (ubus_lua_parse_blob fuel) d attr table key.
Proof.
  induction d as [d IH] using data_nested_ind. intros Hok fuel key attr table Hf Hh.
  destruct fuel as [|fuel]; [destruct d; simpl in Hf; lia|]. rewrite Forall_forall in IH.
  destruct d as [b|z|s|l|l]; cbn [put_of sub_data] in *.
  - inversion Hh as [| |a ty n pl Hc Ht Hn Hd| |]; subst. apply parses_value; [done|done|]. unfold parse_value. rewrite Ht, Hd.
    eapply pushes_plain; [done|]. intros m. destruct b; constructor.
  - cbn [data_ok] in Hok. apply andb_prop in Hok as [H0%Z.leb_le H1%Z.ltb_lt]. destruct (Z.ltb_spec INT_MAX z) as [Hz|Hz].
    + inversion Hh as [| |a ty n pl Hc Ht Hn Hd| |]; subst. apply parses_value; [done|done|]. unfold parse_value. rewrite Ht, Hd.
      rewrite of_be64_be64. unfold u64. rewrite Z.mod_small by lia. eapply pushes_plain; [done|]. intros m. constructor.
    + inversion Hh as [a n v Hc Ht Hn Hd Hu| | | |]; subst. apply parses_value; [done|done|]. unfold parse_value. rewrite Ht, Hd.
      change (take 4 (be32 z)) with (be32 z). unfold INT_MAX in Hz. rewrite of_be32_be32, u32_small by lia.
      eapply pushes_plain; [done|]. intros m. constructor.
  - inversion Hh as [|a n v Hc Ht Hn Hd Hu| | |]; subst. apply parses_value; [done|done|]. unfold parse_value. rewrite Ht, Hd.
    cbn [data_ok] in Hok. rewrite bytes_string_c by done. eapply pushes_plain; [done|]. intros m. constructor.
  - inversion Hh as [| | | |a n l' Hc Ht Hn Hl]; subst. apply parses_value; [done|done|]. unfold parse_value. rewrite Ht.
    cbn [data_ok] in Hok. apply andb_prop in Hok as [Hlen%Z.ltb_lt Hok].
    apply pushes_array. intros m stk. apply parse_array_array; [|lia].
    eapply (Forall2_map_impl (fun d => d ∈ l /\ data_ok d = true)); [|exact Hl|].
    + apply Forall_forall. intros d Hd. split; [done|]. by eapply List.forallb_forall; [|apply list_elem_of_In].
    + intros d a [Hin Hd] Ha. apply IH; [done|done| |done]. by eapply (depth_sub (DArray l)).
  - inversion Hh as [| | |a n l' Hc Ht Hn Hl|]; subst. apply parses_value; [done|done|]. unfold parse_value. rewrite Ht.
    cbn [data_ok] in Hok. apply andb_prop in Hok as [[_ Hnd%bool_decide_eq_true]%andb_prop Hok].
    assert (Forall (fun nd => nd.2 ∈ l.*2 /\ key_ok nd.1 = true /\ data_ok nd.2 = true) l) as Hall.
    { apply Forall_forall. intros nd Hin. apply List.forallb_forall with (x := nd) in Hok; [|by apply list_elem_of_In].
      apply andb_prop in Hok as [Hk Hd]. split; [by apply list_elem_of_fmap_2|done]. }
    apply pushes_array. intros m stk. apply parse_array_table; [|exact (keys_not_empty l Hok)|done].
    eapply (Forall2_map_impl _ _ _ _ _ _ Hall Hl). intros nd a (Hin & _ & Hd) Ha. apply IH; [done|done| |done].
    by eapply (depth_sub (DTable l)).
Qed.

(** A whole message: its table *)
Lemma parse_message `{!BlobMsgLaws BL BW} l fuel m stk :
  forallb (fun e => key_ok e.1 && data_ok e.2) l = true -> NoDup l.*1 -> Forall (fun e => depth e.2 <= fuel)%nat l ->
  4 + foldr Z.add 0 (List.map field_len (puts_of l)) < 2 ^ 24 ->
  exists v m', ubus_lua_parse_blob_array fuel (blob_data (blob_render (puts_of l))) true (mk_lua m stk) = LDone 1 (mk_lua m' (v :: stk)) /\
    extends m m' /\ made_since m (fun _ => True) m' v (DTable l).
Proof.
  intros Hok Hnd Hdepth Hroom. apply parse_array_table; [|exact (keys_not_empty l Hok)|done].
  assert (Forall (fun nd => (depth nd.2 <= fuel)%nat /\ key_ok nd.1 = true /\ data_ok nd.2 = true) l) as Hall.
  { apply Forall_forall. intros nd Hin. rewrite Forall_forall in Hdepth. split; [by apply Hdepth|].
    apply List.forallb_forall with (x := nd) in Hok; [|by apply list_elem_of_In]. by apply andb_prop in Hok. }
  eapply (Forall2_map_impl _ _ _ _ _ _ Hall); [apply msg_walk|].
  - split; [|done]. apply List.forallb_forall. intros p Hin. unfold puts_of in Hin. apply in_map_iff in Hin as (nd & <- & Hin).
    apply list_elem_of_In in Hin. rewrite Forall_forall in Hall. destruct (Hall nd Hin) as (_ & Hk & Hd).
    unfold key_ok in Hk. apply andb_prop in Hk as [[_ Hk1]%andb_prop Hk2%Z.ltb_lt]. by apply put_of_ok.
  - intros nd a (Hf & _ & Hd) Ha. by apply parse_ok.
Qed.
End LuaParse.

(** ** From table to table *)

Section Roundtrip.
Context `{LN : LuaNum} `{VM : !LuaVM} `{!LuaNumLaws LN} `{!LuaVMLaws VM}.
Context `{BL : BlobLib} `{BW : BlobWalk} `{!BlobMsgLaws BL BW}.

(** The entries of the table, in the order in which it is traversed, are the data
    [l]: fields of the message, nested less deep than [fuel], that fit into it. *)
Record lua_sendable (m : lua_vm) (t : positive) (l : list (string * lua_data)) (fuel : nat) : Prop := {
  se_live : table_live m t;
  se_keys : (table_entries m t).*1 = LUA_STRING <$> l.*1;
  se_values : Forall2 (in_order m) (table_entries m t).*2 l.*2;
  se_ok : forallb (fun e => key_ok e.1 && data_ok e.2) l = true;
  se_depth : Forall (fun e => depth e.2 <= fuel)%nat l;
  se_room : 4 + foldr Z.add 0 (List.map field_len (puts_of l)) < 2 ^ 24;
}.

Lemma sendable_names m t l fuel : lua_sendable m t l fuel -> NoDup l.*1.
Proof.
  intros H. pose proof (entries_keys m t (se_live _ _ _ _ H)) as Hnd. rewrite (se_keys _ _ _ _ H) in Hnd.
  by apply (NoDup_fmap_1 LUA_STRING).
Qed.

(** C22: Lua data that can be sent survives the bus.  It can be sent
    ([lua_sendable]) when it is a table with string keys whose values are
    booleans, natural numbers below 2^53, strings, arrays and such tables, nested
    to any finite depth; the keys are not empty and shorter than 2^16, keys and
    strings contain no NUL (they are cut there otherwise), the interpreter
    traverses each array in the order of its indices (otherwise it is not
    recognised as one), an empty table stands for an empty array, and all of it
    fits into a message of 2^24 bytes.  Such a table on top
    of the stack is formatted into a message without changing the stack or a
    table; the receiver, whatever its interpreter holds, parses this message into
    one new value with the same keys and data, made of tables of its own, and
    keeps its stack and the tables it had. *)
Theorem lua_roundtrip m t stk l fuel mR stkR :
  lua_sendable m t l fuel ->
  exists puts v mR',
    ubus_lua_format_blob_array fuel true (mk_lua m (LUA_TABLE t :: stk)) = LDone (true, puts) (mk_lua m (LUA_TABLE t :: stk)) /\
    ubus_lua_parse_blob_array fuel (blob_data (blob_render puts)) true (mk_lua mR stkR) = LDone 1 (mk_lua mR' (v :: stkR)) /\
    extends mR mR' /\
    made_since mR (fun _ => True) mR' v (DTable l).
Proof.
  intros H. pose proof (sendable_names _ _ _ _ H) as Hnd. destruct H as [Hl Hk Hv Hok Hd Hr].
  destruct (parse_message l fuel mR stkR Hok Hnd Hd Hr) as (v & mR' & E & Hx & Hm).
  exists (puts_of l), v, mR'. split; [by apply format_message|]. done.
Qed.
End Roundtrip.
