(* ===== verification/LuaModel.v ===== *)
(** * An instance of the interface to Lua

    Numbers that are integers and tables that keep the order of insertion: they
    satisfy the laws of [LuaApi.v]. *)

From stdpp Require Import base gmap strings list.
From Stdlib Require Import ZArith Lia Ascii DecimalString.
From S2P Require Import Prelude Cstring LuaApi.
Local Open Scope Z_scope.

#[export] Instance int_num : LuaNum := {|
  lua_Number := Z;
  num_of_Z z := z;
  num_of_bits z := z;
  num_to_u64 z := if (0 <=? z) && (Z.log2 z <? 64) then Some z else None;
  num_to_int z := if Z.log2 (Z.abs z) <? 31 then Some z else None;
  num_to_integer z := z;
  num_to_string z := NilZero.string_of_int (Z.to_int z);
  num_of_string _ := None;
|}.

#[export] Instance int_num_laws : LuaNumLaws int_num.
Proof.
  split; intros z Hz; simpl; [|done]. rewrite (proj2 (Z.leb_le _ _)), (proj2 (Z.ltb_lt _ _)); [done| |lia].
  pose proof (Z.log2_le_mono z (2 ^ 53)). change (Z.log2 (2 ^ 53)) with 53 in *. lia.
Qed.

(** ** Tables *)

#[local] Notation entries := (list (lua_value * lua_value)).
Record lua_table := mk_table { tb_entries : entries; tb_keys : bool_decide (NoDup tb_entries.*1) = true }.

Definition retable (old : lua_table) (l : entries) : lua_table :=
  match bool_dec (bool_decide (NoDup l.*1)) true with
  | left H => mk_table l H
  | right _ => old
  end.

Lemma retable_eq old l : NoDup l.*1 -> tb_entries (retable old l) = l.
Proof. intros H. unfold retable. destruct (bool_dec _ _) as [|n]; [done|]. destruct n. by apply bool_decide_eq_true. Qed.

Definition set_entry (k v : lua_value) (l : entries) : entries :=
  filter (fun e => e.1 <> k) l ++ (if bool_decide (v = LUA_NIL) then [] else [(k, v)]).

Lemma filter_key_absent k (l : entries) : k ∉ (filter (fun e => e.1 <> k) l).*1.
Proof. intros (e & -> & [Hne _]%list_elem_of_filter)%list_elem_of_fmap. done. Qed.

Lemma filter_keys_NoDup k (l : entries) : NoDup l.*1 -> NoDup (filter (fun e => e.1 <> k) l).*1.
Proof.
  induction l as [|e l IH]; [done|]. rewrite fmap_cons. intros [Hni Hnd]%NoDup_cons. rewrite filter_cons. case_decide; [|by apply IH].
  rewrite fmap_cons. apply NoDup_cons. split; [|by apply IH]. intros (e' & He & [_ Hin]%list_elem_of_filter)%list_elem_of_fmap.
  apply Hni. rewrite He. by apply list_elem_of_fmap_2.
Qed.

Lemma set_entry_NoDup k v l : NoDup l.*1 -> NoDup (set_entry k v l).*1.
Proof.
  intros Hnd. unfold set_entry. rewrite fmap_app. apply NoDup_app. split; [by apply filter_keys_NoDup|]. case_bool_decide; simpl.
  - split; [intros ? _ []%not_elem_of_nil|constructor].
  - split; [|apply NoDup_singleton]. intros x Hx ->%list_elem_of_singleton. by apply filter_key_absent in Hx.
Qed.

(** The tables, and the number of userdata made *)
Record int_vm := mk_vm { vm_tables : gmap positive lua_table; vm_userdata : positive }.

Definition no_entries : lua_table := mk_table [] (bool_decide_eq_true_2 _ NoDup_nil_2).

Definition vm_entries (m : int_vm) (t : positive) : entries :=
  match vm_tables m !! t with Some l => tb_entries l | None => [] end.

Definition vm_set (t : positive) (k v : lua_value) (m : int_vm) : int_vm :=
  match vm_tables m !! t with
  | Some l => mk_vm (<[t := retable l (set_entry k v (tb_entries l))]> (vm_tables m)) (vm_userdata m)
  | None => m
  end.

Definition int_key (k : lua_value) : Z := match k with LUA_NUMBER z => z | _ => 0 end.
Definition max_key (l : entries) : Z := foldr (fun e n => Z.max (int_key e.1) n) 0 l.

#[export] Instance list_vm : LuaVM := {|
  lua_vm := int_vm;
  table_live m t := is_Some (vm_tables m !! t);
  table_entries := vm_entries;
  table_new m := (fresh (dom (vm_tables m)), mk_vm (<[fresh (dom (vm_tables m)) := no_entries]> (vm_tables m)) (vm_userdata m));
  table_set := vm_set;
  table_len m t := max_key (vm_entries m t);
  lua_globals := 1%positive;
  lua_registry := 2%positive;
  table_free_ref m t := max_key (vm_entries m t) + 1;
  userdata_new m := (vm_userdata m, mk_vm (vm_tables m) (Pos.succ (vm_userdata m)));
|}.

Lemma fresh_table (m : int_vm) : vm_tables m !! fresh (dom (vm_tables m)) = None.
Proof. apply not_elem_of_dom. apply is_fresh. Qed.

Section Laws.
Implicit Types (m : int_vm) (k v : lua_value).

Lemma vm_keys m t : is_Some (vm_tables m !! t) -> NoDup (vm_entries m t).*1.
Proof. intros [[l H] Hl]. unfold vm_entries. rewrite Hl. exact (proj1 (bool_decide_eq_true _) H). Qed.

Lemma vm_entries_set m t k v : is_Some (vm_tables m !! t) -> vm_entries (vm_set t k v m) t = set_entry k v (vm_entries m t).
Proof.
  intros Ht. pose proof (vm_keys m t Ht) as Hnd. destruct Ht as [l Hl]. unfold vm_entries, vm_set in *. rewrite Hl in *. cbn [vm_tables].
  rewrite lookup_insert_eq. by rewrite retable_eq by (by apply set_entry_NoDup).
Qed.

Lemma vm_entries_set_other m t t' k v : t <> t' -> vm_entries (vm_set t k v m) t' = vm_entries m t'.
Proof. intros Hne. unfold vm_entries, vm_set. destruct (vm_tables m !! t); [|done]. cbn [vm_tables]. by rewrite lookup_insert_ne. Qed.

Lemma vm_live_set m t t' k v : is_Some (vm_tables (vm_set t k v m) !! t') <-> is_Some (vm_tables m !! t').
Proof.
  unfold vm_set. destruct (vm_tables m !! t) as [l|] eqn:E; [|done]. cbn [vm_tables].
  destruct (decide (t = t')) as [<-|Hne]; [rewrite lookup_insert_eq, E; split; intros _; by eexists|by rewrite lookup_insert_ne].
Qed.

Definition vm_new m : int_vm := mk_vm (<[fresh (dom (vm_tables m)) := no_entries]> (vm_tables m)) (vm_userdata m).

Lemma vm_entries_new m : vm_entries (vm_new m) (fresh (dom (vm_tables m))) = [].
Proof. unfold vm_entries, vm_new. cbn [vm_tables]. by rewrite lookup_insert_eq. Qed.

Lemma vm_entries_new_other m t : is_Some (vm_tables m !! t) -> vm_entries (vm_new m) t = vm_entries m t.
Proof.
  intros [l Hl]. unfold vm_entries, vm_new. cbn [vm_tables]. rewrite lookup_insert_ne; [done|]. intros E. rewrite <- E, fresh_table in Hl. done.
Qed.

Lemma vm_live_new m t : is_Some (vm_tables (vm_new m) !! t) <-> t = fresh (dom (vm_tables m)) \/ is_Some (vm_tables m !! t).
Proof.
  unfold vm_new. cbn [vm_tables]. destruct (decide (fresh (dom (vm_tables m)) = t)) as [<-|Hne].
  - rewrite lookup_insert_eq. split; [by left|by eexists].
  - rewrite lookup_insert_ne by done. split; [by right|]. intros [->|]; done.
Qed.

Lemma max_key_le l e : e ∈ l -> int_key e.1 <= max_key l.
Proof.
  induction l as [|e' l IH]; [by intros []%not_elem_of_nil|]. intros [<-|H]%elem_of_cons; cbn; [lia|]. specialize (IH H). unfold max_key in *. lia.
Qed.

Lemma vm_free_ref m t : table_get (VM := list_vm) m t (LUA_NUMBER (max_key (vm_entries m t) + 1)) = LUA_NIL.
Proof.
  unfold table_get. cbn [table_entries list_vm]. destruct (List.find _ (vm_entries m t)) as [e|] eqn:E; [|done].
  apply List.find_some in E as [Hin%list_elem_of_In He%bool_decide_eq_true]. apply max_key_le in Hin. rewrite He in Hin. cbn in Hin. lia.
Qed.
End Laws.

#[export] Instance list_vm_laws : LuaVMLaws list_vm.
Proof.
  split.
  - exact vm_keys.
  - intros m t k v Ht. etransitivity; [apply reflexive_eq; exact (vm_entries_set m t k v Ht)|]. apply Permutation_app_comm.
  - exact vm_entries_set_other.
  - exact vm_live_set.
  - intros m [l Hl]. pose proof (eq_trans (eq_sym (fresh_table m)) Hl). discriminate.
  - exact vm_entries_new.
  - exact vm_entries_new_other.
  - exact vm_live_new.
  - intros m t t' k v Hne. exact (f_equal max_key (vm_entries_set_other m t t' k v Hne)).
  - intros m t Ht. exact (f_equal max_key (vm_entries_new_other m t Ht)).
  - intros m t _. exact (vm_free_ref m t).
Qed.
