(* ===== verification/LuaBind.v ===== *)
(** * The Lua binding: [src/lua/ubus.c] from [ubus_lua_connect] on

    The binding is a program of the client library: its callbacks are
    [lua_callback], and its memory [lua_mem] holds the Lua state and what it
    keeps per object, event handler and subscriber.  [script] is the Lua program:
    what its functions do when they are called, which may be to call the binding
    again.  Each C function has a stack of its own, with its arguments; the
    library's callbacks work on the stack of the C function that waits.  A Lua
    error leaves a function of the binding with its message ([inl]); one that a
    callback does not catch would jump out of the library, and is not followed
    further ([undefined]).  One connection, and no coroutines: [state] is [L]. *)

From stdpp Require Import base gmap strings list fin_maps pretty.
From Stdlib Require Import ZArith Lia Ascii.
From S2P Require Import Prelude Wire Cstring Libubox BlobMsg Ids State LibState LibIo LibCalls LibReq LibObj LibMain LibConn ProgLib LuaApi LuaConv.
Local Open Scope string_scope.
Local Open Scope Z_scope.
Local Open Scope ubus_scope.

(** [struct ubus_lua_object] and [struct ubus_lua_subscriber] after the library's
    structures *)
Record lua_object_part := mk_lua_object { ob_r : Z; ob_rsubscriber : Z }.
Record lua_subscriber_part := mk_lua_subscriber { su_rnotify : Z; su_rremove : Z }.

(** The Lua state; [struct ubus_lua_connection]: the userdata, its [timeout] and
    whether it has a [ctx]; objects, [struct ubus_lua_event] (its [r]) and
    subscribers by their addresses *)
Record lua_mem `{LN : LuaNum} `{VM : !LuaVM} := mk_lua_mem {
  lm_L : lua_State;
  lm_conn : positive;
  lm_timeout : Z;
  lm_ctx : bool;
  lm_objects : gmap ptr lua_object_part;
  lm_events : gmap ptr Z;
  lm_subscribers : gmap ptr lua_subscriber_part;
}.
#[export] Instance eta_lua_mem `{LN : LuaNum} `{VM : !LuaVM} : Eta lua_mem := fun r =>
  mk_lua_mem _ _ (lm_L r) (lm_conn r) (lm_timeout r) (lm_ctx r) (lm_objects r) (lm_events r) (lm_subscribers r).

#[local] Instance lua_prog_mem `{LN : LuaNum} `{VM : !LuaVM} : ProgMem := {| prog_mem := lua_mem |}.

Section LuaBind.
Context `{AL : AvlLib} `{BL : BlobLib} `{BW : BlobWalk} `{LN : LuaNum} `{VM : !LuaVM}.
Implicit Types (s : ubus_context).

(** What the Lua functions do with their arguments: results, or an error *)
Context (script : positive -> list lua_value -> stm ubus_context (string + list lua_value)).
(** How deep messages may nest *)
Context (fuel : nat).

(** ** Functions that may raise *)

Definition luac (A : Type) : Type := stm ubus_context (string + A).
#[export] Instance luac_ret : MRet luac := fun A a => mret (M := stm ubus_context) (inr a).
#[export] Instance luac_bind : MBind luac := fun A B k m =>
  mbind (M := stm ubus_context) (fun r => match r with inl e => mret (inl e) | inr a => k a end) m.

Definition lift {A} (m : stm ubus_context A) : luac A := mbind (M := stm ubus_context) (fun a => mret (inr a)) m.
Definition raise {A} (msg : string) : luac A := mret (M := stm ubus_context) (inl msg).
Definition no_error {A} (m : luac A) : stm ubus_context A :=
  mbind (M := stm ubus_context) (fun r => match r with inl _ => undefined | inr a => mret a end) m.

Definition lua_gets {A} (f : lua_mem -> A) : luac A := lift (gets (fun s => f (ctx_mem s))).
Definition with_lua (f : lua_mem -> lua_mem) s : ubus_context := s <| ctx_mem ::= f |>.
Definition lua_modify (f : lua_mem -> lua_mem) : luac unit := lift (modify (with_lua f)).

(** A call of the Lua interface *)
Definition api {A} (m : luam A) : luac A := fun s =>
  match m (lm_L (ctx_mem s)) with
  | LDone a L => Some (inr a, with_lua (fun mem => mem <| lm_L := L |>) s)
  | LRaise msg => Some (inl msg, s)
  | LUndefined => None
  end.

(** [malloc]: is there memory? *)
Definition alloc : luac bool := lift sys_alloc.

(** [n] results: those missing are nil *)
Definition adjust (n : nat) (l : list lua_value) : list lua_value := take n (l ++ replicate n LUA_NIL).

Definition lua_call (nargs nresults : nat) : luac unit :=
  l ← api get_stack;
  match l !! nargs with
  | Some (LUA_FUNCTION f) =>
      let rest := drop (S nargs) l in
      results ← script f (rev (take nargs l));
      api (set_stack (rev (adjust nresults results) ++ rest))
  | Some _ => raise "attempt to call a value"
  | None => lift undefined
  end.

(** [luaL_checkudata(L, 1, METANAME)] and the context in it *)
Definition check_conn : luac unit :=
  t ← api (lua_type 1);
  if bool_decide (t = LUA_TNONE) then raise "ubus expected"
  else
    v ← api (value_at 1);
    conn ← lua_gets lm_conn;
    if bool_decide (v = LUA_USERDATA conn) then mret tt else raise "ubus expected".
Definition conn_ctx : luac unit :=
  ok ← lua_gets lm_ctx;
  lift (assert ok).

(** The message from the table on top of the stack; [None] when it cannot be
    converted *)
Definition format_top : luac (option bytes) :=
  '(ok, l) ← api (ubus_lua_format_blob_array fuel true);
  mret (if (ok : bool) then Some (blob_render l) else None).

(** [lua_pushnil(L); lua_pushinteger(L, rv); return 2;] *)
Definition fail_with (rv : Z) : luac Z :=
  api lua_pushnil;;
  api (lua_pushinteger rv);;
  mret 2.

(** ** Callbacks *)

(** [lua_getglobal(state, name); lua_rawgeti(state, -1, r);] *)
Definition push_registered (name : string) (r : Z) : luac unit :=
  api (lua_getglobal name);;
  api (lua_rawgeti (-1) r).

Definition is_function : luac bool :=
  t ← api (lua_type (-1));
  mret (bool_decide (t = LUA_TFUNCTION)).

Definition parse_msg (msg : bytes) : luac unit :=
  _ ← api (ubus_lua_parse_blob_array fuel (blob_data msg) true);
  mret tt.

Definition ubus_lua_objects_cb (o : ubus_object_data) : luac unit :=
  api (lua_pushstring (od_path o));;
  n ← api (lua_objlen (-2));
  api (lua_rawseti (-2) (n + 1)).

Definition ubus_lua_signatures_cb (o : ubus_object_data) : luac unit :=
  match od_signature o with
  | None => mret tt
  | Some sig => parse_msg sig
  end.

(** [msg] is not [NULL] here, in [ubus_method_handler] and in
    [ubus_sub_notify_handler]: the library calls them with the data attribute of a
    message only when there is one. *)
Definition ubus_lua_call_cb (msg : bytes) : luac unit := parse_msg msg.

(** The object's structures by their address *)
Definition object_part (obj : ptr) : luac lua_object_part :=
  l ← lua_gets lm_objects;
  match l !! obj with Some o => mret o | None => lift undefined end.

(** [rv = lua_tonumber] converts to an [int]. *)
Definition ubus_method_handler (obj req : ptr) (method : string) (msg : bytes) : luac Z :=
  o ← object_part obj;
  push_registered "__ubus_cb" (ob_r o);;
  api (lua_getfield (-1) method);;
  api (lua_remove (-2));;
  api (lua_remove (-2));;
  f ← is_function;
  rv ← (if (f : bool) then
          api (lua_pushlightuserdata req);;
          parse_msg msg;;
          lua_call 2 1;;
          v ← api (value_at (-1));
          match to_number v with
          | Some x => api (lua_option (num_to_int x))
          | None => mret 0
          end
        else mret 0);
  api (lua_pop 1);;
  mret rv.

Definition ubus_new_sub_cb (obj : ptr) : luac unit :=
  part ← object_part obj;
  push_registered "__ubus_cb_publisher" (ob_rsubscriber part);;
  api (lua_remove (-2));;
  f ← is_function;
  if (f : bool) then
    o ← lift (lload (T := lib_object) obj);
    api (lua_pushnumber (num_of_Z (if lo_has_subscribers o then 1 else 0)));;
    lua_call 1 0
  else api (lua_pop 1).

Definition ubus_event_handler_cb (ev : ptr) (msg : bytes) : luac unit :=
  l ← lua_gets lm_events;
  match l !! ev with
  | None => lift undefined
  | Some r =>
      push_registered "__ubus_cb_event" r;;
      api (lua_remove (-2));;
      f ← is_function;
      if (f : bool) then parse_msg msg;; lua_call 1 0 else api (lua_pop 1)
  end.

Definition subscriber_part_of (sub : ptr) : luac lua_subscriber_part :=
  l ← lua_gets lm_subscribers;
  match l !! sub with Some p => mret p | None => lift undefined end.

Definition ubus_sub_remove_handler (sub : ptr) : luac unit :=
  p ← subscriber_part_of sub;
  push_registered "__ubus_cb_subscribe" (su_rremove p);;
  api (lua_remove (-2));;
  f ← is_function;
  if (f : bool) then lua_call 0 0 else api (lua_pop 1).

Definition ubus_sub_notify_handler (sub : ptr) (method : string) (msg : bytes) : luac Z :=
  p ← subscriber_part_of sub;
  push_registered "__ubus_cb_subscribe" (su_rnotify p);;
  api (lua_remove (-2));;
  f ← is_function;
  (if (f : bool) then
     parse_msg msg;;
     api (lua_pushstring method);;
     lua_call 2 0
   else api (lua_pop 1));;
  mret 0.

(** The callbacks by the numbers under which they are registered *)
Definition lua_callback (c : program_call) : stm ubus_context Z :=
  match c with
  | ubus_handler 0 (Some obj) req method msg => no_error (ubus_method_handler obj req method msg)
  | ubus_handler 1 (Some obj) _ method msg => no_error (ubus_sub_notify_handler obj method msg)
  | ubus_state_handler 0 obj => no_error (ubus_new_sub_cb obj);; mret 0
  | ubus_event_handler 0 ev _ msg => no_error (ubus_event_handler_cb ev msg);; mret 0
  | ubus_remove_handler 0 obj _ => no_error (ubus_sub_remove_handler obj);; mret 0
  | ubus_lookup_handler 0 o _ => no_error (ubus_lua_objects_cb o);; mret 0
  | ubus_lookup_handler 1 o _ => no_error (ubus_lua_signatures_cb o);; mret 0
  | ubus_data_handler 0 _ _ msg => no_error (ubus_lua_call_cb msg);; mret 0
  | _ => undefined
  end.

#[local] Instance lua_program : Program := {|
  program := lua_callback;
  nested_subscribe := fun _ _ => undefined;
  flush_restarts := 0;
|}.

(** ** Functions of the module *)

Context (usock : string -> option connection) (UBUS_UNIX_SOCKET : string) (indet : Z).

Definition ubus_lua_connect : luac Z :=
  sockpath ← api (luaL_optstring 1);
  timeout ← api (luaL_optint 2 30);
  c ← api lua_newuserdata;
  ok ← lift (ubus_connect usock UBUS_UNIX_SOCKET sockpath);
  if (ok : bool) then
    lift ubus_add_uloop;;
    lua_modify (fun m => m <| lm_conn := c |> <| lm_ctx := true |> <| lm_timeout := timeout |>);;
    mret 1
  else fail_with UBUS_STATUS_UNKNOWN_ERROR.

Definition ubus_lua_objects : luac Z :=
  check_conn;;
  top ← api lua_gettop;
  path ← (if 2 <=? top then s ← api (luaL_checkstring 2); mret (Some s) else mret None);
  api lua_newtable;;
  conn_ctx;;
  rv ← lift (ubus_lookup path 0 priv_none);
  if negb (rv =? UBUS_STATUS_OK) then
    api (lua_pop 1);;
    fail_with rv
  else mret 1.

Definition ubus_lua_reply : luac Z :=
  check_conn;;
  api (luaL_checktype 3 LUA_TTABLE);;
  buf ← format_top;
  match buf with
  | None => fail_with UBUS_STATUS_INVALID_ARGUMENT
  | Some buf =>
      req ← api (lua_touserdata 2);
      conn_ctx;;
      match req with
      | Some req => _ ← lift (ubus_send_reply req (msg_at buf)); mret 0
      | None => lift undefined
      end
  end.

(** The copy lives at a new address, which the userdata stands for. *)
Definition ubus_lua_defer_request : luac Z :=
  check_conn;;
  req ← api (lua_touserdata 2);
  conn_ctx;;
  match req with
  | Some req =>
      r ← lift (ubus_defer_request req);
      p ← lift (new_local r);
      l ← api get_stack;
      api (set_stack (LUA_USERDATA p :: l));;
      mret 1
  | None => lift undefined
  end.

Definition ubus_lua_complete_deferred_request : luac Z :=
  check_conn;;
  req ← api (lua_touserdata 2);
  ret ← api (luaL_checkinteger 3);
  conn_ctx;;
  match req with
  | Some req => lift (ubus_complete_deferred_request req (i32 ret));; mret 0
  | None => lift undefined
  end.

(** *** Objects *)

(** The loop over the policy table: [pidx] entries of [p] are written. *)
Fixpoint policy_loop (turns : nat) (plen : Z) (p : list (string * Z)) : luac (list (string * Z)) :=
  match turns with
  | O => lift undefined
  | S turns =>
      more ← api (lua_next (-2));
      if negb more then mret p
      else
        val ← api (lua_tointeger (-1));
        let val := i32 val in
        tkey ← api (lua_type (-2));
        tval ← api (lua_type (-1));
        if negb (bool_decide (tkey = LUA_TSTRING)) || negb (bool_decide (tval = LUA_TNUMBER)) || (val <? 0) || (8 <? val) then
          api (lua_pop 1);;
          policy_loop turns plen p
        else
          name ← api (lua_tostring (-2));
          lift (assert (Z.of_nat (length p) <? plen));;
          ok ← alloc;
          api (lua_pop 1);;
          policy_loop turns plen (if (ok : bool) then p ++ [(c_prefix (default EmptyString name), val)] else p)
  end.

(** The method, [None] where it returns 1 *)
Definition ubus_lua_load_methods : luac (option lib_method) :=
  api (lua_pushinteger 1);;
  api (lua_gettable (-2));;
  api (lua_pushinteger 2);;
  api (lua_gettable (-3));;
  tfn ← api (lua_type (-2));
  tpol ← api (lua_type (-1));
  len ← api (lua_objlen (-1));
  if negb (bool_decide (tfn = LUA_TFUNCTION)) || negb (bool_decide (tpol = LUA_TTABLE)) || negb (len =? 0) then
    api (lua_pop 2);;
    mret None
  else
    api (lua_pushvalue (-2));;
    name ← api (lua_tostring (-5));
    match name with
    | None => lift undefined
    | Some name =>
        api (lua_setfield (-6) (c_prefix name));;
        name ← api (lua_tostring (-4));
        ok ← alloc;
        if negb ok then api (lua_pop 2);; mret None
        else
          let name := c_prefix (default EmptyString name) in
          plen ← api (lua_gettablelen (-1));
          if plen =? 0 then
            api (lua_pop 2);;
            mret (Some (mk_lib_method (Some name) (call_method 0) 0 []))
          else
            ok ← alloc;
            if negb ok then api (lua_pop 2);; mret None
            else
              n ← api (turns (-1));
              api lua_pushnil;;
              p ← policy_loop n plen [];
              api (lua_pop 2);;
              mret (Some (mk_lib_method (Some name) (call_method 0) 0 p))
    end.

(** [obj->rsubscriber] *)
Definition ubus_lua_load_newsub_cb : luac Z :=
  api (lua_getglobal "__ubus_cb_publisher");;
  api (lua_pushvalue (-2));;
  r ← api (luaL_ref (-2));
  api (lua_pop 1);;
  mret r.

(** The loop over the methods: those written to [m], and [rsubscriber] once the
    callback of the subscribers is set *)
Fixpoint methods_loop (turns : nat) (mlen : Z) (m : list lib_method) (rsub : option Z) : luac (list lib_method * option Z) :=
  match turns with
  | O => lift undefined
  | S turns =>
      more ← api (lua_next (-3));
      if negb more then mret (m, rsub)
      else
        tkey ← api (lua_type (-2));
        tval ← api (lua_type (-1));
        rsub ← (if bool_decide (tkey = LUA_TSTRING) && bool_decide (tval = LUA_TFUNCTION) then
                  name ← api (lua_tostring (-2));
                  if strcmp (c_prefix (default EmptyString name)) "__subscriber_cb" =? 0 then
                    r ← ubus_lua_load_newsub_cb;
                    mret (Some r)
                  else mret rsub
                else mret rsub);
        len ← api (lua_objlen (-1));
        if negb (bool_decide (tkey = LUA_TSTRING)) || negb (bool_decide (tval = LUA_TTABLE)) || (len =? 0) then
          api (lua_pop 1);;
          methods_loop turns mlen m rsub
        else
          lift (assert (Z.of_nat (length m) <? mlen));;
          method ← ubus_lua_load_methods;
          api (lua_pop 1);;
          methods_loop turns mlen (m ++ match method with Some x => [x] | None => [] end) rsub
  end.

(** Five allocations: the object, its name, its methods (if any), its type and the
    name of the type; the object, [None] when one fails *)
Definition ubus_lua_load_object : luac (option ptr) :=
  mlen ← api (lua_gettablelen (-1));
  ok ← alloc;
  if negb ok then mret None
  else
    name ← api (lua_tostring (-2));
    match name with
    | None => lift undefined
    | Some name =>
        ok ← alloc;
        if negb ok then mret None
        else
          ok ← (if 0 <? mlen then alloc else mret true);
          if negb ok then mret None
          else
            ok ← alloc;
            if negb ok then mret None
            else
              ok ← alloc;
              if negb ok then mret None
              else
                api lua_newtable;;
                api (lua_getglobal "__ubus_cb");;
                api (lua_pushvalue (-2));;
                r ← api (luaL_ref (-2));
                api (lua_pop 1);;
                n ← api (turns (-2));
                api lua_pushnil;;
                '(m, rsub) ← methods_loop n mlen [] None;
                type ← lift (new_local (mk_lib_type 0 m));
                obj ← lift (new_local (mk_lib_object (Some (c_prefix name)) 0 (Some type) (if has rsub then Some 0%nat else None)
                  false (methods m) None None));
                lua_modify (fun mem => mem <| lm_objects ::= insert obj (mk_lua_object r (default 0 rsub)) |>);;
                api (lua_pop 1);;
                mret (Some obj)
    end.

Fixpoint add_loop (turns : nat) : luac Z :=
  match turns with
  | O => lift undefined
  | S turns =>
      more ← api (lua_next (-2));
      if negb more then mret 0
      else
        tkey ← api (lua_type (-2));
        tval ← api (lua_type (-1));
        (if bool_decide (tkey = LUA_TSTRING) && bool_decide (tval = LUA_TTABLE) then
           obj ← ubus_lua_load_object;
           match obj with
           | None => mret tt
           | Some obj =>
               conn_ctx;;
               _ ← lift (ubus_add_object obj);
               api (lua_pushstring "__ubusobj");;
               api (lua_pushlightuserdata obj);;
               api (lua_settable (-3))
           end
         else mret tt);;
        api (lua_pop 1);;
        add_loop turns
  end.

Definition ubus_lua_add : luac Z :=
  check_conn;;
  t ← api (lua_type 2);
  if negb (bool_decide (t = LUA_TTABLE)) then
    api (lua_pushstring "you need to pass a table");;
    raise "you need to pass a table"
  else
    n ← api (turns (-1));
    api lua_pushnil;;
    add_loop n.

Definition ubus_lua_notify : luac Z :=
  check_conn;;
  method ← api (luaL_checkstring 3);
  api (luaL_checktype 4 LUA_TTABLE);;
  obj ← api (value_at 2);
  match obj with
  | LUA_LIGHTUSERDATA obj =>
      buf ← format_top;
      match buf with
      | None => raise "Invalid 4th parameter, expected table of arguments"
      | Some buf =>
          conn_ctx;;
          _ ← lift (ubus_notify obj (c_prefix method) (msg_at buf) (-1));
          mret 0
      end
  | _ => raise "Invald 2nd parameter, expected ubus obj ref"
  end.

(** *** Calls *)

Definition ubus_lua_signatures : luac Z :=
  check_conn;;
  path ← api (luaL_checkstring 2);
  conn_ctx;;
  rv ← lift (ubus_lookup (Some (c_prefix path)) 1 priv_none);
  if negb (rv =? UBUS_STATUS_OK) then
    api (lua_pop 1);;
    fail_with rv
  else mret 1.

(** [c->timeout * 1000] is undefined when it overflows an [int]. *)
Definition ubus_lua_call : luac Z :=
  check_conn;;
  path ← api (luaL_checkstring 2);
  func ← api (luaL_checkstring 3);
  api (luaL_checktype 4 LUA_TTABLE);;
  buf ← format_top;
  match buf with
  | None => fail_with UBUS_STATUS_INVALID_ARGUMENT
  | Some buf =>
      conn_ctx;;
      '(rv, id) ← lift (lookup_local_id indet (c_prefix path));
      if negb (rv =? 0) then fail_with rv
      else
        top ← api lua_gettop;
        timeout ← lua_gets lm_timeout;
        lift (assert (i32 (timeout * 1000) =? timeout * 1000));;
        rv ← lift (ubus_invoke id (c_prefix func) (msg_at buf) (Some 0%nat) (priv_user 0) (timeout * 1000));
        if negb (rv =? UBUS_STATUS_OK) then
          api (lua_pop 1);;
          fail_with rv
        else
          top' ← api lua_gettop;
          mret (top' - top)
  end.

(** *** Events and subscribers *)

Definition ubus_lua_load_event : luac (option ptr) :=
  ok ← alloc;
  if negb ok then mret None
  else
    api (lua_getglobal "__ubus_cb_event");;
    api (lua_pushvalue (-2));;
    r ← api (luaL_ref (-2));
    api (lua_pop 1);;
    ev ← lift (new_local (lib_object_zero <| lo_event_cb := Some (call_event 0) |>));
    lua_modify (fun m => m <| lm_events ::= insert ev r |>);;
    mret (Some ev).

Fixpoint lua_listen_loop (turns : nat) : luac Z :=
  match turns with
  | O => lift undefined
  | S turns =>
      more ← api (lua_next (-2));
      if negb more then mret 0
      else
        tkey ← api (lua_type (-2));
        tval ← api (lua_type (-1));
        (if bool_decide (tkey = LUA_TSTRING) && bool_decide (tval = LUA_TFUNCTION) then
           listener ← ubus_lua_load_event;
           match listener with
           | None => mret tt
           | Some ev =>
               name ← api (lua_tostring (-2));
               conn_ctx;;
               _ ← lift (ubus_register_event_handler ev (c_prefix <$> name));
               mret tt
           end
         else mret tt);;
        api (lua_pop 1);;
        lua_listen_loop turns
  end.

Definition ubus_lua_listen : luac Z :=
  check_conn;;
  api (luaL_checktype 2 LUA_TTABLE);;
  n ← api (turns (-1));
  api lua_pushnil;;
  lua_listen_loop n.

(** [luaL_ref] of the value at the index in [__ubus_cb_subscribe] *)
Definition ref_subscribe (idx : Z) : luac Z :=
  api (lua_getglobal "__ubus_cb_subscribe");;
  api (lua_pushvalue idx);;
  r ← api (luaL_ref (-2));
  api (lua_pop 1);;
  mret r.

Definition ubus_lua_do_subscribe (target : string) (idxnotify idxremove : Z) : luac Z :=
  conn_ctx;;
  '(status, id) ← lift (lookup_local_id indet target);
  if negb (status =? 0) then raise ("Unable find target, status=" +:+ pretty status)
  else
    ok ← alloc;
    if negb ok then raise "Out of memory"
    else
      rnotify ← (if negb (idxnotify =? 0) then ref_subscribe idxnotify else mret 0);
      rremove ← (if negb (idxremove =? 0) then ref_subscribe idxremove else mret 0);
      sub ← lift (new_local (lib_object_zero <| lo_subscriber := Some (mk_subscriber false
        (if negb (idxnotify =? 0) then Some 1%nat else None) (if negb (idxremove =? 0) then Some 0%nat else None) None) |>));
      lua_modify (fun m => m <| lm_subscribers ::= insert sub (mk_lua_subscriber rnotify rremove) |>);;
      status ← lift (ubus_register_subscriber sub);
      if negb (status =? 0) then raise ("Failed to register subscriber, status=" +:+ pretty status)
      else
        status ← lift (lib_subscribe sub id);
        if negb (status =? 0) then raise ("Failed to register subscriber, status=" +:+ pretty status)
        else mret 0.

(** [lua_pushstring(L, name); lua_gettable(L, 3);]: the index of a function, 0 and
    nothing on the stack for anything else *)
Definition function_field (name : string) : luac Z :=
  api (lua_pushstring name);;
  api (lua_gettable 3);;
  f ← is_function;
  if (f : bool) then api lua_gettop else api (lua_pop 1);; mret 0.

Definition ubus_lua_subscribe : luac Z :=
  stackstart ← api lua_gettop;
  check_conn;;
  target ← api (luaL_checkstring 2);
  api (luaL_checktype 3 LUA_TTABLE);;
  idxnotify ← function_field "notify";
  idxremove ← function_field "remove";
  (if negb (idxnotify =? 0) then _ ← ubus_lua_do_subscribe (c_prefix target) idxnotify idxremove; mret tt else mret tt);;
  top ← api lua_gettop;
  (if stackstart <? top then api (lua_pop (Z.to_nat (top - stackstart))) else mret tt);;
  mret 0.

Definition ubus_lua_send : luac Z :=
  check_conn;;
  event ← api (luaL_checkstring 2);
  if bool_decide (c_prefix event = EmptyString) then raise "no event name"
  else
    api (luaL_checktype 3 LUA_TTABLE);;
    buf ← format_top;
    match buf with
    | None => fail_with UBUS_STATUS_INVALID_ARGUMENT
    | Some buf =>
        conn_ctx;;
        _ ← lift (ubus_send_event (c_prefix event) buf);
        mret 0
    end.

(** *** The module *)

Definition ubus_lua__gc : luac Z :=
  check_conn;;
  ctx ← lua_gets lm_ctx;
  (if (ctx : bool) then
     lift ubus_free;;
     lua_modify (fun m => m <| lm_ctx := false |> <| lm_timeout := 0 |>)
   else mret tt);;
  mret 0.

(** The functions by their names *)
Definition ubus : list (string * luac Z) :=
  [("connect", ubus_lua_connect); ("objects", ubus_lua_objects); ("add", ubus_lua_add); ("notify", ubus_lua_notify);
   ("reply", ubus_lua_reply); ("defer_request", ubus_lua_defer_request);
   ("complete_deferred_request", ubus_lua_complete_deferred_request); ("signatures", ubus_lua_signatures); ("call", ubus_lua_call);
   ("close", ubus_lua__gc); ("listen", ubus_lua_listen); ("send", ubus_lua_send); ("subscribe", ubus_lua_subscribe);
   ("__gc", ubus_lua__gc)].

(** The functions as values of the interpreter *)
Context (cfunction : string -> positive).

Definition MODNAME : string := "ubus".
Definition METANAME : string := MODNAME +:+ ".meta".

(** [lua_pushinteger(L, value); lua_setfield(L, -2, name);] *)
Fixpoint set_enums (l : list (string * Z)) : luac unit :=
  match l with
  | [] => mret tt
  | (name, value) :: l =>
      api (lua_pushinteger value);;
      api (lua_setfield (-2) name);;
      set_enums l
  end.
Definition enum_defines : list (string * Z) :=
  [("ARRAY", 1); ("TABLE", 2); ("STRING", 3); ("INT64", 4); ("INT32", 5); ("INT16", 6); ("INT8", 7); ("DOUBLE", 8); ("BOOLEAN", 7)].

(** [lua_createtable(L, 1, 0); lua_setglobal(L, name);] *)
Definition callback_tables : list string := ["__ubus_cb"; "__ubus_cb_event"; "__ubus_cb_subscribe"; "__ubus_cb_publisher"].

Fixpoint create_tables (l : list string) : luac unit :=
  match l with
  | [] => mret tt
  | name :: l =>
      api lua_newtable;;
      api (lua_setglobal name);;
      create_tables l
  end.

Definition luaopen_ubus : luac Z :=
  let functions := List.map (fun f => (fst f, cfunction (fst f))) ubus in
  _ ← api (luaL_newmetatable METANAME);
  api (lua_pushvalue (-1));;
  api (lua_setfield (-2) "__index");;
  api (luaL_register None functions);;
  api (lua_pop 1);;
  api (luaL_register (Some MODNAME) functions);;
  set_enums enum_defines;;
  create_tables callback_tables;;
  mret 0.

(** A call of a function by a Lua program, with a stack of its own: its results *)
Definition call_function (f : luac Z) (args : list lua_value) : luac (list lua_value) :=
  caller ← api get_stack;
  api (set_stack (rev args));;
  n ← f;
  l ← api get_stack;
  api (set_stack caller);;
  mret (rev (take (Z.to_nat n) l)).
End LuaBind.
