(* ===== verification/LuaRun.v ===== *)
(** * Executing the Lua binding

    Lookups in tables, weakest preconditions for functions of the binding that
    raise no error, and calls into Lua: an invocation of a method of an object
    registered from Lua runs the function that is kept for it, on the data of the
    message. *)

From stdpp Require Import base gmap strings list fin_maps.
From Stdlib Require Import ZArith Lia Ascii.
From S2P Require Import Prelude Wire Cstring Libubox BlobMsg Ids State LibState LibIo LibCalls LibReq LibObj LibMain LibConn ProgLib LuaApi LuaConv LuaData LuaParse LuaBind.
Local Open Scope string_scope.
Local Open Scope Z_scope.
Local Open Scope ubus_scope.
#[local] Existing Instance lua_prog_mem.

(** ** Lookups *)

Section Lookups.
Context `{LN : LuaNum} `{VM : !LuaVM} `{!LuaVMLaws VM}.
Implicit Types (m : lua_vm) (k v : lua_value) (es : list (lua_value * lua_value)).

Lemma find_elem es k v : NoDup es.*1 -> (k, v) ∈ es -> List.find (fun e => bool_decide (e.1 = k)) es = Some (k, v).
Proof.
  induction es as [|[k' v'] es IH]; [by intros _ []%not_elem_of_nil|]. rewrite fmap_cons. intros [Hni Hnd]%NoDup_cons Hin. simpl in *.
  apply elem_of_cons in Hin as [[= -> ->]|Hin]; [by rewrite bool_decide_eq_true_2|].
  rewrite bool_decide_eq_false_2; [by apply IH|]. intros ->. apply Hni. by apply (list_elem_of_fmap_2 fst) in Hin.
Qed.

Lemma find_absent es k : k ∉ es.*1 -> List.find (fun e => bool_decide (e.1 = k)) es = None.
Proof.
  induction es as [|[k' v'] es IH]; [done|]. rewrite fmap_cons. intros [Hne Hk]%not_elem_of_cons. simpl in *.
  rewrite bool_decide_eq_false_2 by congruence. by apply IH.
Qed.

Lemma get_elem m t k v : table_live m t -> (k, v) ∈ table_entries m t -> table_get m t k = v.
Proof. intros Hl Hin. unfold table_get. by rewrite (find_elem _ _ _ (entries_keys m t Hl) Hin). Qed.

Lemma get_absent m t k : k ∉ (table_entries m t).*1 -> table_get m t k = LUA_NIL.
Proof. intros Hk. unfold table_get. by rewrite find_absent. Qed.

Lemma get_cases m t k : table_live m t -> (k, table_get m t k) ∈ table_entries m t \/ k ∉ (table_entries m t).*1.
Proof.
  intros Hl. destruct (decide (k ∈ (table_entries m t).*1)) as [([k' v] & -> & Hin)%list_elem_of_fmap|]; [left|by right].
  simpl. by rewrite (get_elem m t k' v).
Qed.

Lemma get_set m t k k' v : table_live m t -> table_get (table_set t k v m) t k' = if bool_decide (k' = k) then v else table_get m t k'.
Proof.
  intros Hl. assert (table_live (table_set t k v m) t) as Hl' by by apply live_set. pose proof (entries_set m t k v Hl) as He.
  destruct (decide (k' = k)) as [->|Hk]; [rewrite (bool_decide_eq_true_2 (k = k)) by done|rewrite (bool_decide_eq_false_2 (k' = k)) by done].
  - destruct (decide (v = LUA_NIL)) as [->|Hv].
    + apply get_absent. rewrite He, bool_decide_eq_true_2 by done. simpl.
      intros (e & -> & [Hne _]%list_elem_of_filter)%list_elem_of_fmap. done.
    + apply get_elem; [done|]. rewrite He, bool_decide_eq_false_2 by done. by left.
  - destruct (get_cases m t k' Hl) as [Hin|Hni].
    + apply get_elem; [done|]. rewrite He. apply elem_of_app. right. by apply list_elem_of_filter.
    + rewrite (get_absent m t k' Hni). apply get_absent. rewrite He. rewrite fmap_app. intros [Hin|Hin]%elem_of_app.
      * case_bool_decide; [by apply not_elem_of_nil in Hin|]. apply list_elem_of_singleton in Hin. done.
      * apply Hni. apply list_elem_of_fmap in Hin as (e & -> & [_ Hin]%list_elem_of_filter). by apply list_elem_of_fmap_2.
Qed.

Lemma get_set_other m t t' k k' v : t <> t' -> table_get (table_set t k v m) t' k' = table_get m t' k'.
Proof. intros Hne. unfold table_get. by rewrite entries_set_other. Qed.

Lemma get_new_other m t k : table_live m t -> table_get (table_new m).2 t k = table_get m t k.
Proof. intros Hl. unfold table_get. by rewrite entries_new_other. Qed.
End Lookups.

(** ** Functions of the binding *)

Section LuaRun.
Context `{AL : AvlLib} `{BL : BlobLib} `{BW : BlobWalk} `{LN : LuaNum} `{VM : !LuaVM} `{!LuaVMLaws VM}.
Implicit Types (s : ubus_context) (m : lua_vm) (v k : lua_value) (stk : list lua_value).

Definition lua_of s : lua_State := lm_L (ctx_mem s).
Definition with_L (L : lua_State) s : ubus_context := with_lua (fun mem => mem <| lm_L := L |>) s.

Lemma lua_of_with_L L s : lua_of (with_L L s) = L.
Proof. done. Qed.

Lemma api_run {A} (p : luam A) s a L : p (lua_of s) = LDone a L -> api p s = Some (inr a, with_L L s).
Proof. intros E. unfold api. fold (lua_of s). by rewrite E. Qed.

Lemma luac_bind_run {A B} (p : luac A) (q : A -> luac B) s a s' : p s = Some (inr a, s') -> (p ≫= q) s = q a s'.
Proof. intros E. unfold mbind, luac_bind, mbind, stm_bind. by rewrite E. Qed.

Definition lwp {A} (p : luac A) (Q : A -> ubus_context -> Prop) s : Prop :=
  wp (S := ubus_context) p (fun r s' => match r with inr a => Q a s' | inl _ => False end) s.

Lemma lwp_ret {A} (a : A) (Q : A -> ubus_context -> Prop) s : Q a s -> lwp (mret a) Q s.
Proof. done. Qed.

Lemma lwp_bind {A B} (p : luac A) (q : A -> luac B) (Q : B -> ubus_context -> Prop) s :
  lwp p (fun a => lwp (q a) Q) s -> lwp (p ≫= q) Q s.
Proof.
  unfold lwp, wp, mbind, luac_bind, mbind, stm_bind. destruct (p s) as [[[e|a] s']|]; done.
Qed.

Lemma lwp_mono {A} (p : luac A) (Q Q' : A -> ubus_context -> Prop) s :
  (forall a s', Q a s' -> Q' a s') -> lwp p Q s -> lwp p Q' s.
Proof. intros H. apply wp_mono. intros [e|a] s'; [done|apply H]. Qed.

(** What changes but the Lua state and the memory that is left *)
Definition same_binding s s' : Prop :=
  ctx_mem s' <| lm_L := lua_of s |> = ctx_mem s /\ c_brk s' = c_brk s /\ c_objs s' = c_objs s /\
  (so_alloc (sys s) = [] -> so_alloc (sys s') = []).

#[export] Instance same_binding_preorder : PreOrder same_binding.
Proof.
  split; [intros s; repeat split; try done; unfold lua_of; by destruct (ctx_mem s)|].
  intros s1 s2 s3 (A & B & C & D) (A' & B' & C' & D'). split; [|split; [|split]]; [|congruence|congruence|auto].
  etransitivity; [|exact A]. by rewrite <- A'.
Qed.

Lemma same_with_L L s : same_binding s (with_L L s).
Proof. repeat split; [|done]. unfold with_L, with_lua, lua_of. cbn. by destruct (ctx_mem s). Qed.

(** A call of the Lua interface from a known stack *)
Lemma lwp_api {A} (p : luam A) (Q : A -> ubus_context -> Prop) s L a L' :
  lua_of s = L -> p L = LDone a L' -> (forall s', lua_of s' = L' -> same_binding s s' -> Q a s') -> lwp (api p) Q s.
Proof.
  intros HL E HQ. unfold lwp, wp. rewrite (api_run p s a L') by (by rewrite HL). apply HQ; [done|apply same_with_L].
Qed.

Lemma lwp_alloc (Q : bool -> ubus_context -> Prop) s :
  (forall ok s', lua_of s' = lua_of s -> same_binding s s' -> (so_alloc (sys s) = [] -> ok = true) -> Q ok s') -> lwp alloc Q s.
Proof.
  intros HQ. unfold lwp, wp, alloc, lift, mbind, stm_bind, sys_alloc. destruct (so_alloc (sys s)) as [|ok rest] eqn:E.
  - by apply HQ.
  - apply HQ; [done| |done]. repeat split; [unfold lua_of; cbn; by destruct (ctx_mem s)|]. by rewrite E.
Qed.

Lemma lwp_assert (b : bool) (Q : unit -> ubus_context -> Prop) s : b = true -> Q tt s -> lwp (lift (assert b)) Q s.
Proof. by intros ->. Qed.

(** ** Stack operations *)

Lemma getglobal_run name m l :
  lua_getglobal name (mk_lua m l) = LDone tt (mk_lua m (table_get m lua_globals (LUA_STRING name) :: l)).
Proof. done. Qed.

Lemma pushvalue_run m l (n : nat) v : l !! n = Some v -> lua_pushvalue (- Z.of_nat (S n)) (mk_lua m l) = LDone tt (mk_lua m (v :: l)).
Proof. intros Hv. unfold lua_pushvalue. by erewrite lbind_done by (by apply value_at_neg). Qed.

Lemma pop_n_run m l n : (n <= length l)%nat -> lua_pop n (mk_lua m l) = LDone tt (mk_lua m (drop n l)).
Proof. intros Hn. unfold lua_pop, mbind, luam_bind. cbn. by rewrite (proj2 (Nat.leb_le _ _)). Qed.

Lemma remove_run m l (n : nat) v : l !! n = Some v -> lua_remove (- Z.of_nat (S n)) (mk_lua m l) = LDone tt (mk_lua m (delete n l)).
Proof. intros Hv. unfold lua_remove, mbind, luam_bind. cbn [get_stack L_stack]. by rewrite (stack_pos_neg l n v Hv). Qed.

Lemma index_at_neg m l (n : nat) t : l !! n = Some (LUA_TABLE t) -> index_at (- Z.of_nat (S n)) (mk_lua m l) = LDone t (mk_lua m l).
Proof. intros Hv. unfold index_at. by erewrite lbind_done by (by apply value_at_neg). Qed.

Lemma rawgeti_run m l (n : nat) t r : l !! n = Some (LUA_TABLE t) ->
  lua_rawgeti (- Z.of_nat (S n)) r (mk_lua m l) = LDone tt (mk_lua m (table_get m t (LUA_NUMBER (num_of_Z r)) :: l)).
Proof. intros Hv. unfold lua_rawgeti. by erewrite lbind_done by (by apply table_at_neg). Qed.

Lemma getfield_run m l (n : nat) t name : l !! n = Some (LUA_TABLE t) ->
  lua_getfield (- Z.of_nat (S n)) name (mk_lua m l) = LDone tt (mk_lua m (table_get m t (LUA_STRING name) :: l)).
Proof. intros Hv. unfold lua_getfield. by erewrite lbind_done by (by apply index_at_neg). Qed.

Lemma gettable_run m l (n : nat) t k : l !! n = Some (LUA_TABLE t) ->
  lua_gettable (- Z.of_nat (S (S n))) (mk_lua m (k :: l)) = LDone tt (mk_lua m (table_get m t k :: l)).
Proof. intros Hv. unfold lua_gettable. erewrite lbind_done by (by apply (index_at_neg _ (k :: l) (S n))). done. Qed.

Lemma setfield_run m l (n : nat) t v name : l !! n = Some (LUA_TABLE t) ->
  lua_setfield (- Z.of_nat (S (S n))) name (mk_lua m (v :: l)) = LDone tt (mk_lua (table_set t (LUA_STRING name) v m) l).
Proof.
  intros Hv. unfold lua_setfield. erewrite lbind_done by (by apply (index_at_neg _ (v :: l) (S n))).
  erewrite lbind_done by apply pop_run. by apply store_run.
Qed.

Lemma tostring_run m l (n : nat) str : l !! n = Some (LUA_STRING str) ->
  lua_tostring (- Z.of_nat (S n)) (mk_lua m l) = LDone (Some str) (mk_lua m l).
Proof. intros Hv. unfold lua_tostring. by erewrite lbind_done by (by apply value_at_neg). Qed.

Lemma objlen_run m l (n : nat) v : l !! n = Some v ->
  lua_objlen (- Z.of_nat (S n)) (mk_lua m l) =
    LDone (match v with LUA_STRING s => strlen s | LUA_TABLE t => table_len m t | _ => 0 end) (mk_lua m l).
Proof. intros Hv. unfold lua_objlen. by erewrite lbind_done by (by apply value_at_neg). Qed.

Lemma turns_run m l (n : nat) t : l !! n = Some (LUA_TABLE t) ->
  turns (- Z.of_nat (S n)) (mk_lua m l) = LDone (S (length (table_entries m t))) (mk_lua m l).
Proof. intros Hv. unfold turns. by erewrite lbind_done by (by apply table_at_neg). Qed.

(** The reference is the free one. *)
Lemma ref_run m l (n : nat) t v : l !! n = Some (LUA_TABLE t) -> v <> LUA_NIL ->
  luaL_ref (- Z.of_nat (S (S n))) (mk_lua m (v :: l)) =
    LDone (table_free_ref m t) (mk_lua (table_set t (LUA_NUMBER (num_of_Z (table_free_ref m t))) v m) l).
Proof.
  intros Hv Hnil. unfold luaL_ref. erewrite lbind_done by (by apply (table_at_neg _ (v :: l) (S n))).
  erewrite lbind_done by apply pop_run. rewrite bool_decide_eq_false_2 by done. erewrite lbind_done by done. cbn [L_vm].
  by erewrite lbind_done by (by apply store_run).
Qed.

(** [lua_gettablelen] of the table on top counts its entries. *)
Lemma tablelen_loop_run m t l turns k rest cnt :
  table_live m t -> Forall (fun e => e.1 <> LUA_NIL) rest -> at_key (table_entries m t) k rest -> (length rest < turns)%nat ->
  tablelen_loop turns (-2) cnt (mk_lua m (k :: LUA_TABLE t :: l)) = LDone (cnt + Z.of_nat (length rest)) (mk_lua m (LUA_TABLE t :: l)).
Proof.
  intros Hl. revert k rest cnt. induction turns as [|turns IH]; intros k rest cnt Hnn Hk Ht; [lia|]. cbn [tablelen_loop].
  destruct rest as [|[k' v'] rest].
  - erewrite lbind_done by (by apply next_end). simpl. by rewrite Z.add_0_r.
  - erewrite lbind_done by (by eapply next_entry). cbn [negb]. erewrite lbind_done by (apply pop_n_run; simpl; lia). cbn [drop].
    apply Forall_cons in Hnn as [Hn Hnn]. cbn [length] in *. rewrite (IH k' rest); [f_equal; lia|done|eapply at_key_next; [by apply entries_keys|exact Hn|exact Hk]|lia].
Qed.

Lemma tablelen_run m t l : table_live m t -> Forall (fun e => e.1 <> LUA_NIL) (table_entries m t) ->
  lua_gettablelen (-1) (mk_lua m (LUA_TABLE t :: l)) = LDone (Z.of_nat (length (table_entries m t))) (mk_lua m (LUA_TABLE t :: l)).
Proof.
  intros Hl Hnn. unfold lua_gettablelen. erewrite lbind_done by apply turns_1. erewrite lbind_done by done. change (-1 - 1) with (-2).
  rewrite (tablelen_loop_run m t l _ LUA_NIL (table_entries m t)); [done|done|done|apply at_key_first|lia].
Qed.
End LuaRun.

(** ** Calls into Lua *)

Section LuaDispatch.
Context `{AL : AvlLib} `{BL : BlobLib} `{BW : BlobWalk} `{LN : LuaNum} `{VM : !LuaVM}.
Context `{!LuaNumLaws LN} `{!LuaVMLaws VM} `{!BlobMsgLaws BL BW}.
Implicit Types (s : ubus_context) (m : lua_vm) (stk : list lua_value).

(** [__ubus_cb[r][name]] is the function. *)
Definition callable m (r : Z) (name : string) (f : positive) : Prop := exists tcb cb,
  table_get m lua_globals (LUA_STRING "__ubus_cb") = LUA_TABLE tcb /\
  table_get m tcb (LUA_NUMBER (num_of_Z r)) = LUA_TABLE cb /\
  table_get m cb (LUA_STRING name) = LUA_FUNCTION f.

(** The status of a method: the number it returns, as an [int] *)
Definition status_of (results : list lua_value) : option Z :=
  match to_number (default LUA_NIL (head results)) with
  | Some x => num_to_int x
  | None => Some 0
  end.

Lemma is_function_run s m v stk : lua_of s = mk_lua m (v :: stk) ->
  is_function s = Some (inr (bool_decide (type_of v = LUA_TFUNCTION)), with_L (mk_lua m (v :: stk)) s).
Proof. intros HL. unfold is_function. erewrite luac_bind_run by (apply api_run; rewrite HL; apply type_1). done. Qed.

Context (script : positive -> list lua_value -> stm ubus_context (string + list lua_value)) (fuel : nat).

(** What [lua_call] does with a function below its [n] arguments *)
Lemma call_run (n nresults : nat) s m args f stk : lua_of s = mk_lua m (rev args ++ LUA_FUNCTION f :: stk) -> n = length args ->
  lua_call script n nresults s =
    match script f args (with_L (mk_lua m (rev args ++ LUA_FUNCTION f :: stk)) s) with
    | Some (inr results, s') => Some (inr tt, with_L (mk_lua (L_vm (lua_of s')) (rev (adjust nresults results) ++ stk)) s')
    | Some (inl e, s') => Some (inl e, s')
    | None => None
    end.
Proof.
  intros HL ->. unfold lua_call. erewrite luac_bind_run by (apply api_run; rewrite HL; done). cbn [L_stack].
  rewrite <- (length_rev args), list_lookup_middle by done. rewrite take_app_length, rev_involutive.
  assert (drop (S (length (rev args))) (rev args ++ LUA_FUNCTION f :: stk) = stk) as ->.
  { rewrite cons_middle, app_assoc. apply drop_app_length'. rewrite length_app. simpl. lia. }
  unfold mbind, luac_bind, mbind, stm_bind.
  destruct (script f args _) as [[[e|results] s']|]; [done| |done]. done.
Qed.

Lemma adjust_one (l : list lua_value) : adjust 1 l = [default LUA_NIL (head l)].
Proof. by destruct l. Qed.

(** A message whose fields are the data [l] *)
Record receivable (l : list (string * lua_data)) : Prop := {
  rc_ok : forallb (fun e => key_ok e.1 && data_ok e.2) l = true;
  rc_names : NoDup l.*1;
  rc_depth : Forall (fun e => depth e.2 <= fuel)%nat l;
  rc_room : 4 + foldr Z.add 0 (List.map field_len (puts_of l)) < 2 ^ 24;
}.

(** [parse_msg] pushes the data. *)
Lemma parse_msg_run s m stk l : lua_of s = mk_lua m stk -> receivable l ->
  exists v m', parse_msg fuel (blob_render (puts_of l)) s = Some (inr tt, with_L (mk_lua m' (v :: stk)) s) /\
    extends m m' /\ made_since m (fun _ => True) m' v (DTable l).
Proof.
  intros HL [Hok Hnd Hd Hr]. destruct (parse_message l fuel m stk Hok Hnd Hd Hr) as (v & m' & E & H). exists v, m'. split; [|done].
  unfold parse_msg. by erewrite luac_bind_run by (apply api_run; rewrite HL; exact E).
Qed.

(** C21: A method invocation reaches its Lua function.  For an object registered
    from Lua, with a function kept under the method's name, the handler calls
    this function with the request and a new value that is the data of the
    message; its first result, as an [int], is the status (0 when it is no
    number), the stack is as before, and an error of the function is passed on. *)
Theorem lua_method_dispatch s m stk obj part req method f l :
  lm_objects (ctx_mem s) !! obj = Some part -> lua_of s = mk_lua m stk -> callable m (ob_r part) method f -> receivable l ->
  exists v m', extends m m' /\ made_since m (fun _ => True) m' v (DTable l) /\
    ubus_method_handler script fuel obj req method (blob_render (puts_of l)) s =
      match script f [LUA_LIGHTUSERDATA req; v] (with_L (mk_lua m' (v :: LUA_LIGHTUSERDATA req :: LUA_FUNCTION f :: stk)) s) with
      | Some (inr results, s') => (fun rv => (inr rv, with_L (mk_lua (L_vm (lua_of s')) stk) s')) <$> status_of results
      | Some (inl e, s') => Some (inl e, s')
      | None => None
      end.
Proof.
  intros Ho HL (tcb & cb & H1 & H2 & H3) Hl.
  destruct (parse_msg_run (with_L (mk_lua m (LUA_LIGHTUSERDATA req :: LUA_FUNCTION f :: stk)) s) m
    (LUA_LIGHTUSERDATA req :: LUA_FUNCTION f :: stk) l eq_refl Hl) as (v & m' & E & Hx & Hv).
  exists v, m'. split; [done|]. split; [done|]. unfold ubus_method_handler, push_registered.
  assert (object_part obj s = Some (inr part, s)) as Hpart.
  { unfold object_part, mbind, luac_bind, mbind, stm_bind. unfold lua_gets, lift, gets, mbind, stm_bind, mret, stm_ret. rewrite Ho. done. }
  erewrite luac_bind_run by exact Hpart.
  erewrite luac_bind_run; [|erewrite luac_bind_run by (apply api_run; rewrite HL; apply getglobal_run); apply api_run; apply (rawgeti_run _ _ 0 tcb); by rewrite H1].
  rewrite H1, H2.
  erewrite luac_bind_run by (apply api_run; by apply (getfield_run _ _ 0 cb)). rewrite H3.
  erewrite luac_bind_run by (apply api_run; by apply (remove_run _ _ 1 (LUA_TABLE cb))). cbn [delete list_delete].
  erewrite luac_bind_run by (apply api_run; by apply (remove_run _ _ 1 (LUA_TABLE tcb))). cbn [delete list_delete].
  erewrite luac_bind_run by (by apply is_function_run). rewrite bool_decide_eq_true_2 by done. cbn iota.
  unfold mbind at 1, luac_bind at 1, mbind at 1, stm_bind at 1.
  erewrite luac_bind_run by (by apply api_run).
  erewrite luac_bind_run by exact E.
  unfold mbind at 1, luac_bind at 1, mbind at 1, stm_bind at 1.
  rewrite (call_run 2 1 _ m' [LUA_LIGHTUSERDATA req; v] f stk) by done. cbn [rev app].
  change (with_L _ (with_L _ (with_L _ s))) with (with_L (mk_lua m' (v :: LUA_LIGHTUSERDATA req :: LUA_FUNCTION f :: stk)) s).
  destruct (script f _ _) as [[[e|results] s']|]; [done| |done].
  rewrite adjust_one. cbn [rev app].
  erewrite luac_bind_run by (apply api_run; apply value_at_1). unfold status_of. 
  destruct (to_number _) as [x|]; [|done]. unfold api, lua_option. destruct (num_to_int x); done.
Qed.
End LuaDispatch.
