(* ===== verification/LuaLoad.v ===== *)
(** * Objects from Lua

    What [ubus_lua_load_object] makes of a table of methods: an object with these
    methods, and for each of them the function that a call of it will run. *)

From stdpp Require Import base gmap strings list fin_maps.
From Stdlib Require Import ZArith Lia Ascii.
From S2P Require Import Prelude Wire Cstring Libubox BlobMsg Ids State LibState LibIo LibCalls LibReq LibObj LibMain LibConn ProgLib LuaApi LuaConv LuaData LuaBind LuaRun.
Local Open Scope string_scope.
Local Open Scope Z_scope.
Local Open Scope ubus_scope.
#[local] Existing Instance lua_prog_mem.

(** The next call of the Lua interface, on a known stack *)
Tactic Notation "lua_step" hyp(HL) "by" tactic3(run) "as" ident(s) ident(HL') ident(Hs) :=
  apply lwp_bind; eapply lwp_api; [exact HL|run|]; intros s HL' Hs; cbn [drop L_vm L_stack] in HL'.
Ltac same_state := first [reflexivity|eassumption|etransitivity; [eassumption|same_state]].

Section LuaLoad.
Context `{AL : AvlLib} `{BL : BlobLib} `{BW : BlobWalk} `{LN : LuaNum} `{VM : !LuaVM} `{!LuaVMLaws VM}.
Implicit Types (s : ubus_context) (m : lua_vm) (k v : lua_value) (stk : list lua_value).

Definition keys_ok m (t : positive) : Prop := table_live m t /\ Forall (fun e => e.1 <> LUA_NIL) (table_entries m t).

Lemma tointeger_top m v l : exists z, lua_tointeger (-1) (mk_lua m (v :: l)) = LDone z (mk_lua m (v :: l)).
Proof. eexists. unfold lua_tointeger. by erewrite lbind_done by apply value_at_1. Qed.

(** The policies never run over the end of their array. *)
Lemma policy_loop_ok turns plen : forall s m p stk k rest pl,
  lua_of s = mk_lua m (k :: LUA_TABLE p :: stk) -> keys_ok m p -> at_key (table_entries m p) k rest -> 
  Forall (fun e => e.1 <> LUA_NIL) rest -> (length rest < turns)%nat -> Z.of_nat (length pl + length rest) <= plen ->
  lwp (policy_loop turns plen pl) (fun _ s' => same_binding s s' /\ lua_of s' = mk_lua m (LUA_TABLE p :: stk)) s.
Proof.
  induction turns as [|turns IH]; intros s m p stk k rest pl HL Hp Hk Hnn Ht Hlen; [lia|]. cbn [policy_loop].
  destruct rest as [|[k' v'] rest].
  - lua_step HL by (by apply next_end) as s1 HL1 Hs1. by apply lwp_ret.
  - apply Forall_cons in Hnn as [Hn Hnn]. cbn [fst] in Hn. cbn [length] in *.
    assert (at_key (table_entries m p) k' rest) as Hk'.
    { eapply at_key_next; [apply entries_keys, Hp|exact Hn|exact Hk]. }
    assert (forall pl' s', lua_of s' = mk_lua m (v' :: k' :: LUA_TABLE p :: stk) -> same_binding s s' ->
      Z.of_nat (length pl' + length rest) <= plen ->
      lwp (api (lua_pop 1);; policy_loop turns plen pl') (fun _ s' => same_binding s s' /\ lua_of s' = mk_lua m (LUA_TABLE p :: stk)) s') as Hgo.
    { intros pl' s' HL' Hs' Hl'. apply lwp_bind. eapply lwp_api; [exact HL'|apply pop_n_run; simpl; lia|]. intros s2 HL2 Hs2.
      eapply lwp_mono; [|eapply (IH s2 m p stk k' rest pl'); [exact HL2|done|done|done|lia|done]]. intros _ s3 [Hs3 HL3].
      split; [same_state|done]. }
    lua_step HL by (by eapply next_entry) as s1 HL1 Hs1. cbn [negb].
    destruct (tointeger_top m v' (k' :: LUA_TABLE p :: stk)) as [z Hz].
    lua_step HL1 by (exact Hz) as s2 HL2 Hs2.
    lua_step HL2 by (apply type_2) as s3 HL3 Hs3.
    lua_step HL3 by (apply type_1) as s4 HL4 Hs4.
    destruct (_ || _ || _ || _) eqn:Ec; [apply Hgo; [done|same_state|lia]|].
    destruct (bool_decide_reflect (type_of k' = LUA_TSTRING)) as [Hty|]; [|done]. destruct k' as [| | |str| | | |]; try done.
    lua_step HL4 by (by apply (tostring_run _ _ 1)) as s5 HL5 Hs5.
    apply lwp_bind, lwp_assert; [apply Z.ltb_lt; lia|].
    apply lwp_bind, lwp_alloc. intros ok s6 HL6 Hs6 _. rewrite HL5 in HL6.
    apply Hgo; [done|same_state|]. destruct ok; [rewrite length_app; simpl|]; lia.
Qed.

Definition num_key (n : Z) : lua_value := LUA_NUMBER (num_of_Z n).

(** The table of a method: its function and its policy, which has string keys only *)
Definition method_table_of m (mt f : positive) : Prop :=
  table_get m mt (num_key 1) = LUA_FUNCTION f /\
  exists p, table_get m mt (num_key 2) = LUA_TABLE p /\ table_len m p = 0.

(** The method of the name, with some policy *)
Definition method_named (n : string) (x : lib_method) : Prop := exists pol, x = mk_lib_method (Some n) (call_method 0) 0 pol.

(** What loading a method comes to: nothing, for what is no method; else its function
    is stored, and there is a method unless memory ran out. *)
Definition loaded_method s m mt n cb stk (o : option lib_method) s' : Prop :=
  same_binding s s' /\
  exists m', lua_of s' = mk_lua m' (LUA_TABLE mt :: LUA_STRING n :: LUA_TABLE cb :: stk) /\
    ((o = None /\ m' = m /\ forall f, ~ method_table_of m mt f) \/
     exists f, method_table_of m mt f /\ m' = table_set cb (LUA_STRING n) (LUA_FUNCTION f) m /\
       (so_alloc (sys s) = [] -> is_Some o) /\ forall x, o = Some x -> method_named n x).

Lemma load_methods_ok s m mt n cb stk :
  lua_of s = mk_lua m (LUA_TABLE mt :: LUA_STRING n :: LUA_TABLE cb :: stk) -> nul_free n = true -> table_live m cb ->
  (forall p, table_get m mt (num_key 2) = LUA_TABLE p -> keys_ok m p /\ p <> cb) ->
  lwp ubus_lua_load_methods (loaded_method s m mt n cb stk) s.
Proof.
  unfold num_key. intros HL Hn Hcb Hpol. unfold ubus_lua_load_methods.
  lua_step HL by done as s1 HL1 Hs1.
  lua_step HL1 by (by apply (gettable_run _ _ 0 mt)) as s2 HL2 Hs2.
  lua_step HL2 by done as s3 HL3 Hs3.
  lua_step HL3 by (by apply (gettable_run _ _ 1 mt)) as s4 HL4 Hs4.
  lua_step HL4 by (apply type_2) as s5 HL5 Hs5.
  lua_step HL5 by (apply type_1) as s6 HL6 Hs6.
  lua_step HL6 by (by apply (objlen_run _ _ 0)) as s7 HL7 Hs7.
  destruct (_ || _ || _) eqn:Ec.
  - lua_step HL7 by (apply pop_n_run; simpl; lia) as s8 HL8 Hs8. apply lwp_ret. split; [same_state|]. exists m. split; [done|]. left.
    split; [done|]. split; [done|]. intros f (Hf & p & Hp & Hl). unfold num_key in *. rewrite Hf, Hp, Hl in Ec. done.
  - apply orb_false_iff in Ec as [[Hf Ht]%orb_false_iff Hlen].
    destruct (table_get m mt (LUA_NUMBER (num_of_Z 1))) as [| | | | |f| |] eqn:Ef; try done.
    destruct (table_get m mt (LUA_NUMBER (num_of_Z 2))) as [| | | |p| | |] eqn:Ep; try done.
    apply negb_false_iff, Z.eqb_eq in Hlen. destruct (Hpol p eq_refl) as [[Hpl Hpk] Hne].
    set (m' := table_set cb (LUA_STRING n) (LUA_FUNCTION f) m).
    assert (forall o s', lua_of s' = mk_lua m' (LUA_TABLE p :: LUA_FUNCTION f :: LUA_TABLE mt :: LUA_STRING n :: LUA_TABLE cb :: stk) ->
      same_binding s s' -> (so_alloc (sys s) = [] -> is_Some o) -> (forall x, o = Some x -> method_named n x) ->
      lwp (api (lua_pop 2);; mret o) (loaded_method s m mt n cb stk) s') as Hend.
    { intros o s' HL' Hs' Ho Hx. lua_step HL' by (apply pop_n_run; simpl; lia) as s8 HL8 Hs8. apply lwp_ret. split; [same_state|].
      exists m'. split; [done|]. right. exists f. split; [|done]. split; [done|]. by exists p. }
    lua_step HL7 by (by apply (pushvalue_run _ _ 1)) as s8 HL8 Hs8.
    lua_step HL8 by (by apply (tostring_run _ _ 4)) as s9 HL9 Hs9. cbn beta iota. rewrite c_prefix_nul_free by done.
    lua_step HL9 by (by apply (setfield_run _ _ 4 cb)) as s10 HL10 Hs10.
    lua_step HL10 by (by apply (tostring_run _ _ 3)) as s11 HL11 Hs11. cbn beta iota zeta delta [default from_option id]. rewrite c_prefix_nul_free by done.
    assert (so_alloc (sys s) = [] -> so_alloc (sys s11) = []) as Hal.
    { assert (same_binding s s11) as (_ & _ & _ & H) by same_state. exact H. }
    fold m' in HL11. apply lwp_bind, lwp_alloc. intros ok s12 HL12 Hs12 Hok. rewrite HL11 in HL12. destruct ok; cbn [negb]; cycle 1.
    { apply Hend; [done|same_state| |done]. intros Ha%Hal%Hok. done. }
    assert (table_entries m' p = table_entries m p) as Hpe by (by apply entries_set_other).
    assert (keys_ok m' p) as Hp' by (split; [by apply live_set|by rewrite Hpe]).
    lua_step HL12 by (apply tablelen_run; [apply Hp'|apply Hp']) as s13 HL13 Hs13.
    destruct (Z.of_nat (length (table_entries m' p)) =? 0); [apply Hend; [done|same_state|done|]; intros x [= <-]; by eexists|].
    assert (so_alloc (sys s) = [] -> so_alloc (sys s13) = []) as Hal'.
    { assert (same_binding s s13) as (_ & _ & _ & H) by same_state. exact H. }
    apply lwp_bind, lwp_alloc. intros ok' s14 HL14 Hs14 Hok'. rewrite HL13 in HL14. destruct ok'; cbn [negb]; cycle 1.
    { apply Hend; [done|same_state| |done]. intros Ha%Hal'%Hok'. done. }
    lua_step HL14 by (apply turns_1) as s15 HL15 Hs15. lua_step HL15 by done as s16 HL16 Hs16.
    apply lwp_bind. eapply lwp_mono; [|eapply policy_loop_ok; [exact HL16|exact Hp'|apply at_key_first|apply Hp'|lia|simpl; lia]].
    intros pol s17 [Hs17 HL17]. apply Hend; [done|same_state|done|]. intros x [= <-]. by eexists.
Qed.

(** ** The methods of an object *)

(** Tables stay, and those outside of [W] as they are. *)
Definition kept (W : list positive) m m' : Prop := forall t, table_live m t ->
  table_live m' t /\ (t ∉ W -> table_entries m' t = table_entries m t /\ table_len m' t = table_len m t).

#[export] Instance kept_preorder W : PreOrder (kept W).
Proof.
  split; [done|]. intros m1 m2 m3 H12 H23 t Ht. destruct (H12 t Ht) as [Hl H]. destruct (H23 t Hl) as [Hl' H']. split; [done|].
  intros Hn. destruct (H Hn), (H' Hn). split; congruence.
Qed.

Lemma kept_set W m t k v : t ∈ W -> kept W m (table_set t k v m).
Proof.
  intros Ht t' Hl. split; [by apply live_set|]. intros Hn. assert (t <> t') by congruence. split; [by apply entries_set_other|by apply len_set_other].
Qed.

Lemma kept_get W m m' t k : kept W m m' -> table_live m t -> t ∉ W -> table_get m' t k = table_get m t k.
Proof. intros Hk Hl Hn. destruct (Hk t Hl) as [_ H]. unfold table_get. by rewrite (proj1 (H Hn)). Qed.

(** The tables of a method, none of them among [W] *)
Record method_apart (W : list positive) m (n : string) (mt : positive) : Prop := {
  ma_name : nul_free n = true;
  ma_live : table_live m mt;
  ma_table : mt ∉ W;
  ma_policy : forall p, table_get m mt (num_key 2) = LUA_TABLE p -> keys_ok m p /\ p ∉ W;
}.

Lemma kept_method W m m' n mt f : kept W m m' -> method_apart W m n mt -> method_table_of m' mt f <-> method_table_of m mt f.
Proof.
  intros Hk [_ Hl Ht Hp]. unfold method_table_of. rewrite !(kept_get W m m') by done.
  split; intros [Hf (p & E & Hlen)]; (split; [done|]); exists p; (split; [done|]); destruct (Hp p E) as [[Hpl _] Hpn];
    destruct (Hk p Hpl) as [_ H]; destruct (H Hpn); congruence.
Qed.

Lemma kept_apart W m m' n mt : kept W m m' -> method_apart W m n mt -> method_apart W m' n mt.
Proof.
  intros Hk [Hn Hl Ht Hp]. split; [done|by apply Hk|done|]. intros p. rewrite (kept_get W m m') by done. intros E.
  destruct (Hp p E) as [[Hpl Hpk] Hpn]. destruct (Hk p Hpl) as [Hl' H]. destruct (H Hpn) as [He _]. split; [|done]. split; [done|by rewrite He].
Qed.

Section Methods.
Context (m1 : lua_vm) (t cb pub : positive).
Context (Hcb : table_live m1 cb) (Hne : cb <> pub).
Context (Ht : keys_ok m1 t) (Htn : t ∉ [cb; pub]) (Hg : table_live m1 lua_globals) (Hgn : lua_globals ∉ [cb; pub]).
Context (Hpubg : table_get m1 lua_globals (LUA_STRING "__ubus_cb_publisher") = LUA_TABLE pub).
Context (Hmethods : forall n mt, (LUA_STRING n, LUA_TABLE mt) ∈ table_entries m1 t -> method_apart [cb; pub] m1 n mt).

(** The methods made of the entries [visited] *)
Record methods_made (quiet : Prop) visited m (ms : list lib_method) : Prop := {
  mm_kept : kept [cb; pub] m1 m;
  mm_len : (length ms <= length visited)%nat;
  mm_sound : Forall (fun x => exists n mt f, (LUA_STRING n, LUA_TABLE mt) ∈ visited /\ method_named n x /\ method_table_of m1 mt f /\
    table_get m cb (LUA_STRING n) = LUA_FUNCTION f) ms;
  mm_complete : quiet -> forall n mt f, (LUA_STRING n, LUA_TABLE mt) ∈ visited -> table_len m1 mt <> 0 -> method_table_of m1 mt f ->
    Exists (method_named n) ms;
}.

(** Tables other than that of the callbacks may change. *)
Lemma made_moved quiet visited m m' ms :
  kept [cb; pub] m m' -> table_entries m' cb = table_entries m cb -> methods_made quiet visited m ms -> methods_made quiet visited m' ms.
Proof.
  intros Hk' He [Hk Hl Hs Hc]. split; [by etransitivity|done| |done]. eapply Forall_impl; [exact Hs|].
  intros x (n & mt & f & Hin & Hx & Hf & Hget). exists n, mt, f. repeat (split; [done|]). unfold table_get. by rewrite He.
Qed.

(** An entry that is no method *)
Lemma made_skip quiet visited m ms k v :
  methods_made quiet visited m ms ->
  (quiet -> forall n mt f, k = LUA_STRING n -> v = LUA_TABLE mt -> table_len m1 mt <> 0 -> ~ method_table_of m1 mt f) ->
  methods_made quiet (visited ++ [(k, v)]) m ms.
Proof.
  intros [Hk Hl Hs Hc] Hno. split; [done| | |].
  - rewrite length_app. simpl. lia.
  - eapply Forall_impl; [exact Hs|]. intros x (n & mt & f & Hin & H). exists n, mt, f. split; [apply elem_of_app; by left|done].
  - intros Hq n mt f [Hin|Hin]%elem_of_app Hlen Hf; [by eapply Hc|]. apply list_elem_of_singleton in Hin as [= <- <-].
    by destruct (Hno Hq n mt f).
Qed.

(** A method, whose function has been stored under its name *)
Lemma made_method quiet visited m ms n mt f o :
  methods_made quiet visited m ms -> LUA_STRING n ∉ visited.*1 -> method_table_of m1 mt f ->
  (quiet -> is_Some o) -> (forall x, o = Some x -> method_named n x) ->
  methods_made quiet (visited ++ [(LUA_STRING n, LUA_TABLE mt)]) (table_set cb (LUA_STRING n) (LUA_FUNCTION f) m)
    (ms ++ match o with Some x => [x] | None => [] end).
Proof.
  intros [Hk Hl Hs Hc] Hnew Hf Hq Ho. assert (table_live m cb) as Hcbm by by apply Hk. split.
  - etransitivity; [exact Hk|]. apply kept_set. by left.
  - rewrite !length_app. destruct o; simpl; lia.
  - apply Forall_app. split.
    + eapply Forall_impl; [exact Hs|]. intros x (n' & mt' & f' & Hin & Hx & Hf' & Hget). exists n', mt', f'.
      split; [apply elem_of_app; by left|]. split; [done|]. split; [done|]. rewrite get_set by done.
      rewrite bool_decide_eq_false_2; [done|]. intros [= ->]. apply Hnew. by apply (list_elem_of_fmap_2 fst) in Hin.
    + destruct o as [x|]; [|constructor]. constructor; [|constructor]. exists n, mt, f. split; [apply elem_of_app; right; by left|].
      split; [by apply Ho|]. split; [done|]. rewrite get_set by done. by rewrite bool_decide_eq_true_2.
  - intros Hqq n' mt' f' [Hin|Hin]%elem_of_app Hlen Hf'; apply Exists_app; [left; by eapply Hc|].
    apply list_elem_of_singleton in Hin as [= -> ->]. right. destruct (Hq Hqq) as [x ->]. constructor. by apply Ho.
Qed.

Lemma newsub_ok s m v k stk : lua_of s = mk_lua m (v :: k :: LUA_TABLE cb :: stk) -> kept [cb; pub] m1 m -> v <> LUA_NIL ->
  lwp ubus_lua_load_newsub_cb (fun _ s' => same_binding s s' /\ exists m', lua_of s' = mk_lua m' (v :: k :: LUA_TABLE cb :: stk) /\
    kept [cb; pub] m m' /\ table_entries m' cb = table_entries m cb) s.
Proof.
  intros HL Hk Hv. unfold ubus_lua_load_newsub_cb. pose proof (kept_get _ _ _ _ (LUA_STRING "__ubus_cb_publisher") Hk Hg Hgn) as E.
  lua_step HL by (apply getglobal_run) as s1 HL1 Hs1. rewrite E, Hpubg in HL1.
  lua_step HL1 by (by apply (pushvalue_run _ _ 1)) as s2 HL2 Hs2.
  lua_step HL2 by (by apply (ref_run _ _ 0 pub)) as s3 HL3 Hs3.
  lua_step HL3 by (apply pop_n_run; simpl; lia) as s4 HL4 Hs4.
  apply lwp_ret. split; [same_state|]. eexists. split; [done|]. split; [apply kept_set; right; by left|]. apply entries_set_other. congruence.
Qed.

(** The callback of the subscribers, if this entry is it *)
Lemma subscriber_ok s m v k stk rsub : lua_of s = mk_lua m (v :: k :: LUA_TABLE cb :: stk) -> kept [cb; pub] m1 m ->
  lwp (if bool_decide (type_of k = LUA_TSTRING) && bool_decide (type_of v = LUA_TFUNCTION) then
         name ← api (lua_tostring (-2));
         if strcmp (c_prefix (default EmptyString name)) "__subscriber_cb" =? 0 then r ← ubus_lua_load_newsub_cb; mret (Some r) else mret rsub
       else mret rsub)
    (fun _ s' => same_binding s s' /\ exists m', lua_of s' = mk_lua m' (v :: k :: LUA_TABLE cb :: stk) /\
      kept [cb; pub] m m' /\ table_entries m' cb = table_entries m cb) s.
Proof.
  intros HL Hk. destruct (_ && _) eqn:Ec; [|apply lwp_ret; split; [done|by exists m]].
  apply andb_prop in Ec as [Hty%bool_decide_eq_true Hv%bool_decide_eq_true]. destruct k as [| | |str| | | |]; try done.
  lua_step HL by (by apply (tostring_run _ _ 1)) as s1 HL1 Hs1. cbn beta iota zeta delta [default from_option id].
  destruct (strcmp _ _ =? 0); [|apply lwp_ret; split; [same_state|by exists m]].
  apply lwp_bind. eapply lwp_mono; [|eapply newsub_ok; [exact HL1|done|by destruct v]]. intros r s2 [Hs2 H]. apply lwp_ret. split; [same_state|done].
Qed.

Lemma methods_loop_ok (quiet : Prop) turns mlen : forall s m k visited rest ms rsub stk,
  lua_of s = mk_lua m (k :: LUA_TABLE cb :: LUA_TABLE t :: stk) -> table_entries m1 t = (visited ++ rest)%list -> at_key (table_entries m1 t) k rest ->
  (length rest < turns)%nat -> mlen = Z.of_nat (length (table_entries m1 t)) ->
  (quiet -> so_alloc (sys s) = []) -> methods_made quiet visited m ms ->
  lwp (methods_loop turns mlen ms rsub) (fun r s' => same_binding s s' /\ exists m',
    lua_of s' = mk_lua m' (LUA_TABLE cb :: LUA_TABLE t :: stk) /\ methods_made quiet (table_entries m1 t) m' r.1) s.
Proof.
  induction turns as [|turns IH]; intros s m k visited rest ms rsub stk HL Hes Hk Hturns Hmlen Hquiet Hmade; [lia|]. cbn [methods_loop].
  destruct (mm_kept _ _ _ _ Hmade t (proj1 Ht)) as [_ Hte]. destruct (Hte Htn) as [Het _].
  rewrite <- Het in Hk. destruct rest as [|[k' v'] rest].
  - lua_step HL by (by apply (next_deep _ t _ [] _ 1)) as s1 HL1 Hs1. apply lwp_ret. split; [done|]. exists m. split; [done|].
    by rewrite Hes, app_nil_r.
  - lua_step HL by (by apply (next_deep _ t _ ((k', v') :: rest) _ 1)) as s1 HL1 Hs1. cbn [negb].
    assert (k' <> LUA_NIL) as Hk'n.
    { destruct Ht as [_ Hnn]. rewrite Hes in Hnn. apply Forall_app in Hnn as [_ Hnn]. apply Forall_cons in Hnn as [Hnn _]. done. }
    assert (at_key (table_entries m1 t) k' rest) as Hk'.
    { rewrite <- Het. eapply at_key_next; [rewrite Het; apply entries_keys, Ht|exact Hk'n|exact Hk]. }
    assert (table_entries m1 t = (visited ++ [(k', v')]) ++ rest)%list as Hes' by (by rewrite <- app_assoc).
    assert (k' ∉ visited.*1) as Hnew.
    { pose proof (entries_keys m1 t (proj1 Ht)) as Hnd. rewrite Hes, fmap_app in Hnd. apply NoDup_app in Hnd as (_ & Hd & _).
      intros Hin. apply (Hd k' Hin). by left. }
    lua_step HL1 by (apply type_2) as s2 HL2 Hs2. lua_step HL2 by (apply type_1) as s3 HL3 Hs3.
    apply lwp_bind. eapply lwp_mono; [|eapply (subscriber_ok s3 m v' k' _ rsub); [exact HL3|exact (mm_kept _ _ _ _ Hmade)]].
    intros rsub' s4 (Hs4 & m4 & HL4 & Hk4 & He4). lua_step HL4 by (by apply (objlen_run _ _ 0)) as s5 HL5 Hs5.
    assert (quiet -> so_alloc (sys s5) = []) as Hal.
    { assert (same_binding s s5) as (_ & _ & _ & H) by same_state. auto. }
    assert (forall m' ms' s', lua_of s' = mk_lua m' (v' :: k' :: LUA_TABLE cb :: LUA_TABLE t :: stk) -> same_binding s s' ->
      methods_made quiet (visited ++ [(k', v')])%list m' ms' ->
      lwp (api (lua_pop 1);; methods_loop turns mlen ms' rsub') (fun r s' => same_binding s s' /\ exists m',
        lua_of s' = mk_lua m' (LUA_TABLE cb :: LUA_TABLE t :: stk) /\ methods_made quiet (table_entries m1 t) m' r.1) s') as Hgo.
    { intros m' ms' s' HL' Hs' Hm'. lua_step HL' by (apply pop_n_run; simpl; lia) as s8 HL8 Hs8.
      assert (same_binding s s8) as Hss by same_state.
      eapply lwp_mono; [|eapply (IH s8 m' k' _ rest ms' rsub' stk HL8 Hes' Hk'); [simpl in Hturns; lia|done| |exact Hm']].
      - intros r s9 [Hs9 H]. split; [by etransitivity|done].
      - destruct Hss as (_ & _ & _ & H). auto. }
    apply (made_moved _ _ _ _ _ Hk4 He4) in Hmade. pose proof (mm_kept _ _ _ _ Hmade) as Hk14.
    destruct (_ || _ || _) eqn:Ec.
    + apply (Hgo m4); [done|same_state|]. apply made_skip; [done|]. intros _ n mt f -> -> Hlen _.
      assert (method_apart [cb; pub] m1 n mt) as [_ Hl Hn _] by (apply Hmethods; rewrite Hes; apply elem_of_app; right; by left).
      destruct (Hk14 mt Hl) as [_ H]. destruct (H Hn) as [_ Hlm]. rewrite Hlm in Ec. simpl in Ec. by apply Z.eqb_eq in Ec.
    + apply orb_false_iff in Ec as [[Hty Htv]%orb_false_iff _].
      destruct k' as [| | |n| | | |]; try done. destruct v' as [| | | |mt| | |]; try done.
      assert (method_apart [cb; pub] m1 n mt) as Hma by (apply Hmethods; rewrite Hes; apply elem_of_app; right; by left).
      apply lwp_bind, lwp_assert.
      { apply Z.ltb_lt. pose proof (mm_len _ _ _ _ Hmade). rewrite Hmlen, Hes, length_app. simpl. lia. }
      apply lwp_bind. eapply lwp_mono; [|eapply load_methods_ok; [exact HL5|apply Hma|by apply Hk14|]].
      * intros o s6 (Hs6 & m6 & HL6 & [(-> & -> & Hno)|(f & Hf & -> & Hal' & Ho)]).
        -- apply (Hgo m4); [done|same_state|]. rewrite app_nil_r. apply made_skip; [done|].
           intros _ n' mt' f [= <-] [= <-] _ Hf. by apply (Hno f), (kept_method _ _ _ _ _ _ Hk14 Hma).
        -- eapply Hgo; [done|same_state|]. apply made_method; [done|done|by apply (kept_method _ _ _ _ _ _ Hk14 Hma)|auto|done].
      * intros p Hp. destruct (kept_apart _ _ _ _ _ Hk14 Hma) as [_ _ _ H]. destruct (H p Hp) as [Hpk Hpn]. split; [done|]. intros ->. apply Hpn. by left.
Qed.
End Methods.

(** ** Objects *)

(** The table of an object, apart from the binding's tables for callbacks *)
Record object_apart m (t tcb pub : positive) : Prop := {
  oa_table : keys_ok m t;
  oa_globals : table_live m lua_globals;
  oa_cb : table_get m lua_globals (LUA_STRING "__ubus_cb") = LUA_TABLE tcb;
  oa_cb_live : table_live m tcb;
  oa_pub : table_get m lua_globals (LUA_STRING "__ubus_cb_publisher") = LUA_TABLE pub;
  oa_pub_live : table_live m pub;
  oa_distinct : NoDup [lua_globals; tcb; pub];
  oa_outside : t ∉ [tcb; pub];
  oa_methods : forall n mt, (LUA_STRING n, LUA_TABLE mt) ∈ table_entries m t -> method_apart [tcb; pub] m n mt;
}.

(** The interpreter once the table for the object's functions is registered *)
Definition registered m (tcb : positive) : lua_vm :=
  table_set tcb (num_key (table_free_ref (table_new m).2 tcb)) (LUA_TABLE (table_new m).1) (table_new m).2.

Lemma kept_new W m : kept W m (table_new m).2.
Proof.
  intros t Ht. split; [apply live_new; by right|]. intros _. split; [by apply entries_new_other|by apply len_new_other].
Qed.

Lemma kept_registered m t tcb pub : object_apart m t tcb pub -> kept [tcb; pub] m (registered m tcb).
Proof. intros H. etransitivity; [apply kept_new|]. apply kept_set. by left. Qed.

(** New tables are none of the old ones. *)
Lemma live_not_new m t : table_live m t -> t <> (table_new m).1.
Proof. intros Hl ->. by apply table_new_fresh in Hl. Qed.

(** What has to hold for [methods_loop_ok] *)
Lemma registered_ready m t tcb pub : object_apart m t tcb pub ->
  let m1 := registered m tcb in let cb := (table_new m).1 in
  table_entries m1 t = table_entries m t /\ keys_ok m1 t /\ table_live m1 cb /\ table_live m1 pub /\ cb <> pub /\ t ∉ [cb; pub] /\
  table_live m1 lua_globals /\ lua_globals ∉ [cb; pub] /\ tcb ∉ [cb; pub] /\
  table_get m1 lua_globals (LUA_STRING "__ubus_cb_publisher") = LUA_TABLE pub /\
  table_get m1 lua_globals (LUA_STRING "__ubus_cb") = LUA_TABLE tcb /\
  (forall n mt, (LUA_STRING n, LUA_TABLE mt) ∈ table_entries m t -> method_apart [cb; pub] m1 n mt) /\
  forall n mt f, (LUA_STRING n, LUA_TABLE mt) ∈ table_entries m t ->
    table_len m1 mt = table_len m mt /\ (method_table_of m1 mt f <-> method_table_of m mt f).
Proof.
  intros Ha. pose proof (kept_registered _ _ _ _ Ha) as Hk. destruct Ha as [[Hl Hnn] Hg Hcb Hcbl Hpub Hpubl Hd Ho Hm].
  assert (lua_globals ∉ [tcb; pub]) as Hgn by (by apply NoDup_cons in Hd as [? _]).
  assert (tcb <> pub) as Hcp by (apply NoDup_cons in Hd as [_ [Hd _]%NoDup_cons]; by rewrite list_elem_of_singleton in Hd).
  pose proof (live_not_new m) as Hnew. cbv zeta. destruct (Hk t Hl) as [Hl1 He]. destruct (He Ho) as [He1 _].
  split; [done|]. split; [split; [done|by rewrite He1]|]. split; [apply live_set, live_new; by left|]. split; [by apply Hk|].
  split; [intros E; by apply (Hnew pub)|].
  assert (forall t', table_live m t' -> t' <> pub -> t' ∉ [(table_new m).1; pub]) as Hout.
  { intros t' Hl' Hne [E|E%list_elem_of_singleton]%elem_of_cons; [by apply (Hnew t')|done]. }
  split; [apply Hout; [done|]; intros ->; apply Ho; right; by left|]. split; [by apply Hk|].
  split; [apply Hout; [done|]; intros E; apply Hgn; rewrite E; right; by left|]. split; [by apply Hout|].
  split; [by rewrite (kept_get _ _ _ _ _ Hk)|]. split; [by rewrite (kept_get _ _ _ _ _ Hk)|]. split.
  - intros n mt Hin. specialize (Hm n mt Hin). split.
    + apply Hm.
    + apply Hk, Hm.
    + apply Hout; [apply Hm|]. intros ->. apply (ma_table _ _ _ _ Hm). right. by left.
    + intros p. rewrite (kept_get _ _ _ _ _ Hk); [|apply Hm..]. intros E. destruct (ma_policy _ _ _ _ Hm p E) as [[Hpl Hpk] Hpn].
      destruct (Hk p Hpl) as [Hpl1 Hpe]. destruct (Hpe Hpn) as [Hpe1 _]. split; [split; [done|by rewrite Hpe1]|].
      apply Hout; [done|]. intros ->. apply Hpn. right. by left.
  - intros n mt f Hin. specialize (Hm n mt Hin). split; [|by apply (kept_method _ _ _ n _ _ Hk)].
    destruct (Hk mt (ma_live _ _ _ _ Hm)) as [_ H]. by destruct (H (ma_table _ _ _ _ Hm)).
Qed.

Lemma lwp_new {T} `{!LHeap T} (x : T) (Q : ptr -> ubus_context -> Prop) s :
  Q (c_brk s) (set_lheap (insert (c_brk s) x) (s <| c_brk ::= Pos.succ |>)) -> lwp (lift (new_local x)) Q s.
Proof. done. Qed.

(** What [ubus_lua_load_object] has to achieve, from the state [s] with the
    interpreter [m] *)
Definition object_loaded s m (t tcb pub : positive) (name : string) stk (o : option ptr) s' : Prop := exists m',
  lua_of s' = mk_lua m' (LUA_TABLE t :: LUA_STRING name :: stk) /\ kept [tcb; pub] m m' /\
  (forall k, table_get m tcb k <> LUA_NIL -> table_get m' tcb k = table_get m tcb k) /\
  match o with
  | None => so_alloc (sys s) <> []
  | Some obj => exists ms r rsub lo,
      lm_objects (ctx_mem s') = <[obj := mk_lua_object r rsub]> (lm_objects (ctx_mem s)) /\
      c_objs s' !! obj = Some lo /\ lo_name lo = Some (c_prefix name) /\ lo_methods lo = methods ms /\
      Forall (fun x => exists n mt f, (LUA_STRING n, LUA_TABLE mt) ∈ table_entries m t /\ method_named n x /\
        method_table_of m mt f /\ callable m' r n f) ms /\
      (so_alloc (sys s) = [] -> forall n mt f, (LUA_STRING n, LUA_TABLE mt) ∈ table_entries m t -> table_len m mt <> 0 ->
        method_table_of m mt f -> Exists (method_named n) ms)
  end.

(** [if (!ptr) return NULL;], before anything has been done with the interpreter *)
Lemma lwp_alloc_object (q : luac (option ptr)) s s1 m t tcb pub name stk :
  lua_of s1 = mk_lua m (LUA_TABLE t :: LUA_STRING name :: stk) -> same_binding s s1 ->
  (forall s2, lua_of s2 = mk_lua m (LUA_TABLE t :: LUA_STRING name :: stk) -> same_binding s s2 ->
    lwp q (object_loaded s m t tcb pub name stk) s2) ->
  lwp (ok ← alloc; if negb ok then mret None else q) (object_loaded s m t tcb pub name stk) s1.
Proof.
  intros HL Hs Hq. apply lwp_bind, lwp_alloc. intros ok s2 HL2 Hs2 Hok. rewrite HL in HL2. destruct ok; cbn [negb].
  - apply Hq; [done|same_state].
  - apply lwp_ret. exists m. split; [done|]. split; [done|]. split; [done|]. intros Ha. destruct Hs as (_ & _ & _ & H). by specialize (Hok (H Ha)).
Qed.

(** The object is made of the methods, once they are loaded. *)
Lemma object_made s s' m t tcb pub name stk m' ms rsub (lo : lib_object) (obj : ptr) :
  object_apart m t tcb pub ->
  methods_made (registered m tcb) (table_new m).1 pub (so_alloc (sys s) = []) (table_entries m t) m' ms ->
  lua_of s' = mk_lua m' (LUA_TABLE t :: LUA_STRING name :: stk) ->
  lm_objects (ctx_mem s') = <[obj := mk_lua_object (table_free_ref (table_new m).2 tcb) rsub]> (lm_objects (ctx_mem s)) ->
  c_objs s' !! obj = Some lo -> lo_name lo = Some (c_prefix name) -> lo_methods lo = methods ms ->
  object_loaded s m t tcb pub name stk (Some obj) s'.
Proof.
  intros Ha [Hk _ Hs Hc] HL Ho Hlo Hn Hms. pose proof (kept_registered _ _ _ _ Ha) as Hk1.
  destruct (registered_ready _ _ _ _ Ha) as (He & _ & Hcb & _ & _ & _ & Hg & Hgn & Htcb & _ & Hglob & _ & Hsame).
  set (cb := (table_new m).1) in *. set (m1 := registered m tcb) in *. set (r := table_free_ref (table_new m).2 tcb) in *.
  assert (table_live (table_new m).2 tcb) as Htl by (apply live_new; right; apply Ha).
  assert (forall k, table_get m' tcb k = if bool_decide (k = num_key r) then LUA_TABLE cb else table_get m tcb k) as Hget.
  { intros k. rewrite (kept_get _ _ _ _ _ Hk) by (done || by apply live_set). unfold m1, registered. rewrite get_set by done. fold r cb.
    case_bool_decide; [done|]. apply get_new_other, Ha. }
  exists m'. split; [done|]. split; [|split].
  - intros t' Hl'. destruct (Hk1 t' Hl') as [Hl1 H1]. destruct (Hk t' Hl1) as [Hlk H2]. split; [done|]. intros Hn'. destruct (H1 Hn') as [E1 E1'].
    destruct H2 as [E2 E2'].
    + intros [E|E]%elem_of_cons; [by apply (live_not_new m t')|]. apply Hn'. by right.
    + split; congruence.
  - intros k Hnil. rewrite Hget. rewrite bool_decide_eq_false_2; [done|]. intros ->. apply Hnil. unfold num_key, r.
    rewrite <- (get_new_other m tcb) by apply Ha. by apply free_ref.
  - exists ms, r, rsub, lo. repeat (split; [done|]). split.
    + eapply Forall_impl; [exact Hs|]. intros x (n & mt & f & Hin & Hx & Hf & Hgf). exists n, mt, f. split; [done|]. split; [done|].
      split; [by apply (Hsame n mt f Hin)|]. exists tcb, cb. split; [by rewrite (kept_get _ _ _ _ _ Hk)|]. split; [|done].
      fold (num_key r). rewrite Hget. by rewrite bool_decide_eq_true_2.
    + intros Hq n mt f Hin Hlen Hf. destruct (Hsame n mt f Hin) as [Hl Hm]. apply (Hc Hq n mt f Hin); [by rewrite Hl|by apply Hm].
Qed.

Lemma load_object_ok s m t tcb pub name stk :
  lua_of s = mk_lua m (LUA_TABLE t :: LUA_STRING name :: stk) -> object_apart m t tcb pub ->
  lwp ubus_lua_load_object (object_loaded s m t tcb pub name stk) s.
Proof.
  intros HL Ha. destruct (oa_table _ _ _ _ Ha) as [Hl Hnn]. unfold ubus_lua_load_object.
  lua_step HL by (by apply tablelen_run) as s1 HL1 Hs1.
  apply (lwp_alloc_object _ s); [done|same_state|]. intros s2 HL2 Hs2.
  lua_step HL2 by (by apply (tostring_run _ _ 1)) as s3 HL3 Hs3. cbn beta iota.
  apply (lwp_alloc_object _ s); [done|same_state|]. intros s4 HL4 Hs4.
  match goal with |- lwp (_ ≫= fun ok => if negb ok then _ else ?q) _ _ =>
    assert (forall s5, lua_of s5 = mk_lua m (LUA_TABLE t :: LUA_STRING name :: stk) -> same_binding s s5 ->
      lwp q (object_loaded s m t tcb pub name stk) s5) as Hrest end.
  2:{ destruct (0 <? _); [by apply (lwp_alloc_object _ s)|]. apply lwp_bind, lwp_ret. by apply Hrest. }
  clear s1 HL1 Hs1 s2 HL2 Hs2 s3 HL3 Hs3 s4 HL4 Hs4. intros s5 HL5 Hs5.
  apply (lwp_alloc_object _ s); [done|same_state|]. intros s6 HL6 Hs6.
  apply (lwp_alloc_object _ s); [done|same_state|]. clear s5 HL5 Hs5 s6 HL6 Hs6. intros s7 HL7 Hs7.
  destruct (registered_ready _ _ _ _ Ha) as (He & Ht1 & Hcb & Hpub & Hne & Htn & Hg & Hgn & _ & Hpubg & Hcbg & Hms & _).
  assert (table_get (table_new m).2 lua_globals (LUA_STRING "__ubus_cb") = LUA_TABLE tcb) as Hcbn.
  { rewrite get_new_other by apply Ha. apply Ha. }
  lua_step HL7 by done as s8 HL8 Hs8.
  lua_step HL8 by (apply getglobal_run) as s9 HL9 Hs9. rewrite Hcbn in HL9.
  lua_step HL9 by (by apply (pushvalue_run _ _ 1)) as s10 HL10 Hs10.
  lua_step HL10 by (by apply (ref_run _ _ 0 tcb)) as s11 HL11 Hs11. fold (num_key (table_free_ref (table_new m).2 tcb)) in HL11. fold (registered m tcb) in HL11.
  lua_step HL11 by (apply pop_n_run; simpl; lia) as s12 HL12 Hs12.
  lua_step HL12 by (by apply (turns_run _ _ 1 t)) as s13 HL13 Hs13.
  lua_step HL13 by done as s14 HL14 Hs14.
  rewrite <- He in Hms. apply lwp_bind.
  eapply lwp_mono; [|eapply (methods_loop_ok (registered m tcb) t (table_new m).1 pub Hcb Hne Ht1 Htn Hg Hgn Hpubg Hms
    (so_alloc (sys s) = []) _ _ _ _ _ [] (table_entries (registered m tcb) t)); [exact HL14|done|apply at_key_first|lia|by rewrite He| |]].
  - intros [ms rsub] s15 (Hs15 & m' & HL15 & Hmade). cbn [fst] in Hmade. rewrite He in Hmade.
    assert (same_binding s s15) as (Hmem & _ & _ & _) by same_state.
    apply lwp_bind, lwp_new. apply lwp_bind, lwp_new. apply lwp_bind. unfold lua_modify, lift. apply wp_bind, wp_modify.
    apply lwp_bind. eapply (lwp_api _ _ _ (mk_lua m' (LUA_TABLE (table_new m).1 :: LUA_TABLE t :: LUA_STRING name :: stk)));
      [exact HL15|apply pop_n_run; simpl; lia|]. intros s16 HL16 (Hmem' & _ & Hobjs & _). cbn [drop] in HL16. apply lwp_ret.
    eapply object_made; [done|exact Hmade|exact HL16| | | |].
    + pose proof (f_equal lm_objects Hmem') as E. pose proof (f_equal lm_objects Hmem) as E'. cbn in E, E'. rewrite E, E'. reflexivity.
    + rewrite Hobjs. apply lookup_insert_eq.
    + done.
    + done.
  - intros Hq. assert (same_binding s s14) as (_ & _ & _ & H) by same_state. auto.
  - split; [done|done|constructor|]. intros _ n mt f []%not_elem_of_nil.
Qed.

(** C20: Objects registered from Lua.  [ubus_lua_load_object] of a table, whatever its
    entries are and whichever allocation fails, never leaves the arrays it
    allocates for methods and policies, raises no error, leaves the stack as it
    was, the tables of the program untouched and earlier registrations in place;
    without an object it returns only when memory ran out.  Each method of the
    object is an entry of the table with a function and a policy, and
    [__ubus_cb[r]], with the object's [r], has this function under its name; if
    memory does not run out, every such entry is a method. *)
Theorem lua_object_methods s m t tcb pub name stk :
  lua_of s = mk_lua m (LUA_TABLE t :: LUA_STRING name :: stk) -> object_apart m t tcb pub ->
  exists o s', ubus_lua_load_object s = Some (inr o, s') /\ object_loaded s m t tcb pub name stk o s'.
Proof.
  intros HL Ha. destruct (wp_run _ _ _ (load_object_ok s m t tcb pub name stk HL Ha)) as ([e|o] & s' & E & H); [done|]. by exists o, s'.
Qed.
End LuaLoad.
