(* ===== verification/LuaDemo.v ===== *)
(** * The Lua binding at work

    A Lua program that registers an object, against a daemon that calls a method
    of it: the binding's functions run on the interpreter of [LuaModel.v]. *)

From stdpp Require Import base gmap strings list fin_maps.
From Stdlib Require Import ZArith Lia Ascii.
From S2P Require Import Prelude Wire Cstring Libubox LibuboxModel BlobMsg BlobMsgModel Ids State LibState LibIo LibCalls LibReq LibObj LibMain LibConn ProgLib ExThms LuaApi LuaConv LuaData LuaParse LuaModel LuaFormat LuaBind LuaRun LuaLoad.
Local Open Scope string_scope.
Local Open Scope Z_scope.
Local Open Scope ubus_scope.
#[local] Existing Instance lua_prog_mem.

(** ** The program *)

(** [{ test = { hello = { f5, { id = ubus.INT32, msg = ubus.STRING } }, __subscriber_cb = f6 } }], with the
    globals at 1 and the registry at 2 *)
Definition demo_tables : gmap positive lua_table :=
  <[13%positive := retable no_entries [(LUA_STRING "test", LUA_TABLE 10)]]>
  (<[12%positive := retable no_entries [(LUA_STRING "id", LUA_NUMBER 5); (LUA_STRING "msg", LUA_NUMBER 3)]]>
  (<[11%positive := retable no_entries [(LUA_NUMBER 1, LUA_FUNCTION 5); (LUA_NUMBER 2, LUA_TABLE 12)]]>
  (<[10%positive := retable no_entries [(LUA_STRING "hello", LUA_TABLE 11); (LUA_STRING "__subscriber_cb", LUA_FUNCTION 6)]]>
  (<[2%positive := no_entries]> {[1%positive := no_entries]})))).
Definition demo_vm : lua_vm := mk_vm demo_tables 1.

Definition demo_start : @ubus_context _ lua_prog_mem :=
  started (PM := lua_prog_mem) (mk_lua_mem _ _ (mk_lua demo_vm []) 1 0 false ∅ ∅ ∅) ∅ ∅ ∅.

Definition conn : lua_value := LUA_USERDATA 1.

(** [function(req, msg) conn:reply(req, msg); return 0 end], and a function that
    does nothing *)
Definition demo_script (f : positive) (args : list lua_value) : stm ubus_context (string + list lua_value) :=
  match f, args with
  | 5%positive, [req; msg] =>
      r ← call_function (ubus_lua_reply 3) [conn; req; msg];
      match r with
      | inl e => mret (inl e)
      | inr _ => mret (inr [LUA_NUMBER 0])
      end
  | _, _ => mret (inr [])
  end.

Definition demo_usock : string -> option connection :=
  ex_daemon [ex_frame UBUS_MSG_DATA 1 0 [put_int32 UBUS_ATTR_OBJID 100; put_int32 UBUS_ATTR_OBJTYPE 50];
             ex_frame UBUS_MSG_STATUS 1 0 [put_int32 UBUS_ATTR_STATUS 0];
             call_frame "hello" [msg_u32 "id" 42; msg_string "msg" "hi"]].

Definition cfunctions (name : string) : positive := 100.

(** [ubus = require "ubus"; conn = ubus.connect(); conn:add(objects)], and a turn of
    the main loop *)
Definition demo_main : luac unit :=
  _ ← luaopen_ubus demo_script 3 demo_usock "/var/run/ubus/ubus.sock" 0 cfunctions;
  api (lua_pop 1);;
  _ ← call_function (ubus_lua_connect demo_script 3 demo_usock "/var/run/ubus/ubus.sock") [];
  _ ← call_function (ubus_lua_add demo_script 3) [conn; LUA_TABLE 13];
  lift (prog_run (PR := lua_program demo_script 3) (fun _ : ptr => undefined) [Sock_readable]).

(** The object is registered with its method and its policy; the call is answered
    with the data that came with it and a status.  The stack is empty at the end. *)
Example demo_run :
  match demo_main demo_start with
  | Some (inr _, s) => Some (split_frames 10 (so_out (sys s)), L_stack (lua_of s))
  | _ => None
  end = Some ([
    (mk_msghdr 0 UBUS_MSG_ADD_OBJECT 1 0, blob_render [put_string UBUS_ATTR_OBJPATH "test"; put_nest UBUS_ATTR_SIGNATURE
      [msg_table (Some "hello") [msg_u32 "id" 5; msg_u32 "msg" 3]]]);
    (mk_msghdr 0 UBUS_MSG_DATA 7 2000, blob_render [put_int32 UBUS_ATTR_OBJID 100;
      put_nest UBUS_ATTR_DATA [msg_u32 "id" 42; msg_string "msg" "hi"]]);
    (mk_msghdr 0 UBUS_MSG_STATUS 7 2000, blob_render [put_int32 UBUS_ATTR_STATUS 0; put_int32 UBUS_ATTR_OBJID 100])], []).
Proof. vm_compute. reflexivity. Qed.

(** ** The theorems at concrete inputs *)

(** The interpreter with the binding loaded: the tables for callbacks are 17 to 20 *)
Definition after_open : ubus_context :=
  match luaopen_ubus demo_script 3 demo_usock "/var/run/ubus/ubus.sock" 0 cfunctions demo_start with
  | Some (_, s) => s
  | None => demo_start
  end.
Definition opened_vm : lua_vm := L_vm (lua_of after_open).
Definition demo_opened : ubus_context := with_L (mk_lua opened_vm [LUA_TABLE 10; LUA_STRING "test"]) after_open.

Lemma live_decide (m : int_vm) t : bool_decide (is_Some (vm_tables m !! t)) = true -> table_live (LuaVM := list_vm) m t.
Proof. exact (bool_decide_eq_true_1 _). Qed.

Lemma opened_entries : vm_entries opened_vm 10 = [(LUA_STRING "hello", LUA_TABLE 11); (LUA_STRING "__subscriber_cb", LUA_FUNCTION 6)].
Proof. vm_compute. reflexivity. Qed.

Lemma keys_decide (m : int_vm) t : bool_decide (is_Some (vm_tables m !! t)) = true ->
  forallb (fun e => negb (bool_decide (e.1 = LUA_NIL))) (vm_entries m t) = true -> keys_ok (VM := list_vm) m t.
Proof.
  intros Hl Hk. split; [by apply live_decide|]. apply Forall_forall. intros e Hin.
  apply List.forallb_forall with (x := e) in Hk; [|by apply list_elem_of_In]. by apply negb_true_iff, bool_decide_eq_false in Hk.
Qed.

Lemma opened_apart : object_apart opened_vm 10 17 20.
Proof.
  split.
  - apply keys_decide; vm_compute; reflexivity.
  - apply live_decide. vm_compute. reflexivity.
  - vm_compute. reflexivity.
  - apply live_decide. vm_compute. reflexivity.
  - vm_compute. reflexivity.
  - apply live_decide. vm_compute. reflexivity.
  - apply (bool_decide_eq_true_1 _). vm_compute. reflexivity.
  - apply (bool_decide_eq_true_1 _). vm_compute. reflexivity.
  - intros n mt Hin. change (table_entries opened_vm 10) with (vm_entries opened_vm 10) in Hin. rewrite opened_entries in Hin.
    apply elem_of_cons in Hin as [[= -> ->]|[[=]|[]%not_elem_of_nil]%elem_of_cons]. split.
    + reflexivity.
    + apply live_decide. vm_compute. reflexivity.
    + apply (bool_decide_eq_true_1 _). vm_compute. reflexivity.
    + intros p Hp. assert (table_get opened_vm 11 (num_key 2) = LUA_TABLE 12) as E by (vm_compute; reflexivity). rewrite E in Hp.
      injection Hp as <-. split; [apply keys_decide; vm_compute; reflexivity|]. apply (bool_decide_eq_true_1 _). vm_compute. reflexivity.
Qed.

Lemma lua_object_methods_witness :
  exists o s', ubus_lua_load_object demo_opened = Some (inr o, s') /\ object_loaded demo_opened opened_vm 10 17 20 "test" [] o s'.
Proof. apply (lua_object_methods demo_opened opened_vm 10 17 20 "test" []); [apply lua_of_with_L|exact opened_apart]. Defined.

(** An object at 9 with a function for its method [hello] *)
Definition call_vm : lua_vm := mk_vm
  (<[1%positive := retable no_entries [(LUA_STRING "__ubus_cb", LUA_TABLE 3)]]>
  (<[3%positive := retable no_entries [(LUA_NUMBER 1, LUA_TABLE 4)]]>
  {[4%positive := retable no_entries [(LUA_STRING "hello", LUA_FUNCTION 5)]]})) 1.
Definition call_start : @ubus_context _ lua_prog_mem :=
  started (PM := lua_prog_mem) (mk_lua_mem _ _ (mk_lua call_vm [LUA_NIL]) 1 30 true {[9%positive := mk_lua_object 1 0]} ∅ ∅) ∅ ∅ ∅.
Definition call_data : list (string * lua_data) := [("id", DInt 42); ("names", DArray [DString "a"])].

Lemma call_callable : callable call_vm 1 "hello" 5.
Proof. exists 3%positive, 4%positive. split; [|split]; vm_compute; reflexivity. Qed.

Lemma call_receivable : receivable 3 call_data.
Proof.
  split; [vm_compute; reflexivity| |repeat constructor|vm_compute; reflexivity].
  apply (bool_decide_eq_true_1 _). vm_compute. reflexivity.
Qed.

Definition seven (f : positive) (args : list lua_value) : stm (@ubus_context _ lua_prog_mem) (string + list lua_value) :=
  mret (inr [LUA_NUMBER 7]).

Lemma lua_method_dispatch_witness :
  exists v m', extends call_vm m' /\ made_since call_vm (fun _ => True) m' v (DTable call_data) /\
    ubus_method_handler seven 3 9 8 "hello" (blob_render (puts_of call_data)) call_start =
      Some (inr 7, with_L (mk_lua m' [LUA_NIL]) call_start).
Proof.
  destruct (lua_method_dispatch seven 3 call_start call_vm [LUA_NIL] 9 (mk_lua_object 1 0) 8 "hello" 5 call_data)
    as (v & m' & Hx & Hv & E); [reflexivity|reflexivity|exact call_callable|exact call_receivable|].
  exists v, m'. split; [exact Hx|]. split; [exact Hv|]. exact E.
Defined.

(** ** A table with nested data *)

Definition sent_tables : gmap positive lua_table :=
  <[1%positive := no_entries]> (<[3%positive := retable no_entries [(LUA_NUMBER 1, LUA_STRING "a"); (LUA_NUMBER 2, LUA_BOOLEAN true)]]>
    {[2%positive := retable no_entries [(LUA_STRING "list", LUA_TABLE 3); (LUA_STRING "big", LUA_NUMBER (2 ^ 40)); (LUA_STRING "n", LUA_NUMBER 7)]]}).
Definition sent_vm : lua_vm := mk_vm sent_tables 1.
Definition sent_data : list (string * lua_data) :=
  [("list", DArray [DString "a"; DBool true]); ("big", DInt (2 ^ 40)); ("n", DInt 7)].
Definition empty_vm : lua_vm := mk_vm {[1%positive := no_entries]} 1.

Lemma sent_live t : t = 2%positive \/ t = 3%positive -> table_live sent_vm t.
Proof.
  change (table_live sent_vm t) with (is_Some (sent_tables !! t)). unfold sent_tables.
  intros [-> | ->]; rewrite lookup_insert_ne by done; [rewrite lookup_insert_ne, lookup_singleton_eq by done|rewrite lookup_insert_eq]; eexists; reflexivity.
Qed.

Lemma sent_sendable : lua_sendable sent_vm 2%positive sent_data 3.
Proof.
  split.
  - apply sent_live. by left.
  - vm_compute. reflexivity.
  - apply Forall2_cons. split; [|constructor; [exact (den_int _ _ _ (2 ^ 40))|constructor; [exact (den_int _ _ _ 7)|constructor]]].
    eapply den_array; [done|apply sent_live; by right|reflexivity|vm_compute; reflexivity|]. repeat constructor.
  - vm_compute. reflexivity.
  - repeat constructor.
  - vm_compute. reflexivity.
Qed.

Lemma lua_roundtrip_witness :
  exists puts v mR',
    ubus_lua_format_blob_array 3 true (mk_lua sent_vm [LUA_TABLE 2]) = LDone (true, puts) (mk_lua sent_vm [LUA_TABLE 2]) /\
    ubus_lua_parse_blob_array 3 (blob_data (blob_render puts)) true (mk_lua empty_vm [LUA_NIL]) = LDone 1 (mk_lua mR' [v; LUA_NIL]) /\
    extends empty_vm mR' /\
    made_since empty_vm (fun _ => True) mR' v (DTable sent_data).
Proof. exact (lua_roundtrip sent_vm 2%positive [] sent_data 3 empty_vm [LUA_NIL] sent_sendable). Defined.

(** What it computes *)
Example sent_received :
  match ubus_lua_parse_blob_array 3 (blob_data (blob_render (puts_of sent_data))) true (mk_lua empty_vm []) with
  | LDone n (mk_lua m [LUA_TABLE t]) => Some (n, vm_entries m t, vm_entries m 3)
  | _ => None
  end = Some (1, [(LUA_STRING "list", LUA_TABLE 3); (LUA_STRING "big", LUA_NUMBER (2 ^ 40)); (LUA_STRING "n", LUA_NUMBER 7)],
    [(LUA_NUMBER 1, LUA_STRING "a"); (LUA_NUMBER 2, LUA_BOOLEAN true)]).
Proof. vm_compute. reflexivity. Qed.

(** ** What the conversion does not survive *)

Definition odd_vm (entries : list (lua_value * lua_value)) : lua_vm := mk_vm {[1%positive := no_entries; 2%positive := retable no_entries entries]} 1.
(** The error, [None] when it is undefined *)
Definition format_odd (entries : list (lua_value * lua_value)) : option string :=
  match ubus_lua_format_blob_array 3 true (mk_lua (odd_vm entries) [LUA_TABLE 2]) with
  | LDone _ _ => Some "no error"
  | LRaise msg => Some msg
  | LUndefined => None
  end.

(** A number among the keys becomes a string on the stack, which the traversal does
    not find; negative numbers and userdata have no message. *)
Example odd_tables :
  format_odd [(LUA_NUMBER 5, LUA_BOOLEAN true); (LUA_STRING "a", LUA_BOOLEAN false)] = Some "invalid key to 'next'" /\
  format_odd [(LUA_STRING "a", LUA_NUMBER (-1))] = None /\
  format_odd [(LUA_STRING "a", LUA_USERDATA 1)] = None.
Proof. split; [|split]; vm_compute; reflexivity. Qed.

(** A connection that has been closed is still accepted, and its context is not
    there. *)
Example closed_connection :
  match (_ ← luaopen_ubus demo_script 3 demo_usock "/var/run/ubus/ubus.sock" 0 cfunctions;
         _ ← call_function (ubus_lua_connect demo_script 3 demo_usock "/var/run/ubus/ubus.sock") [];
         call_function ubus_lua__gc [conn]) demo_start with
  | Some (inr results, s) =>
      Some (length results, has (call_function (ubus_lua_send demo_script 3) [conn; LUA_STRING "e"; LUA_TABLE 12] s))
  | _ => None
  end = Some (0%nat, false).
Proof. vm_compute. reflexivity. Qed.
