(* ===== verification/Findings.v ===== *)
(** * Behaviour worth knowing

    Concrete runs of the model that show where the code does something other
    than its author probably had in mind. *)

From stdpp Require Import base gmap strings list fin_maps sets.
From Stdlib Require Import ZArith Lia.
From S2P Require Import Prelude Wire Cstring Libubox LibuboxModel Ids State MsgBuf Frame SendSpec Wf Registry Acl.
From S2P Require Import Reply Event Obj AclLoad Proto Main Daemon Demo EventThms.
Local Open Scope Z_scope.
Local Open Scope ubus_scope.
Local Open Scope string_scope.

(** ** A rule for one event name admits a pattern

    [ubusd_alloc_event_pattern] cuts the star off a pattern before it asks for
    permission.  The file says {"user": "joe", "listen": ["foo"]}; joe registers
    "foo*". *)

Definition listen_dir : list dir_entry :=
  [mk_dir_entry "/l.json" (Some root_file) (Some [msg_string "user" "joe"; msg_array "listen" [msg_string "" "foo"]])].

Definition listen_events : list event :=
  [EvAclLoad demo_db (Some listen_dir);
   EvServer [Accepted 10 joe];
   EvKernel (demo_os 3000 10 (request UBUS_MSG_ADD_OBJECT 1 []));
   EvClient 6 false;
   EvKernel (demo_os 5000 10 (request UBUS_MSG_INVOKE 3
     [put_int32 UBUS_ATTR_OBJID UBUS_SYSTEM_OBJECT_EVENT; put_string UBUS_ATTR_METHOD "register";
      put_nest UBUS_ATTR_DATA [msg_u32 "object" 3000; msg_string "pattern" "foo*"]]));
   EvClient 6 false].

Definition run_from (evs : list event) (s : option ubusd) : option ubusd := s ≫= run_events evs.

Definition listen_end : option ubusd :=
  run_from listen_events (snd <$> ubusd_init (ubusd_globals (demo_os 2000 0 []))).

(** ** A descriptor sent along with an ACL query is closed twice *)

Definition query_events : list event :=
  [EvKernel (demo_os 8000 10 (request UBUS_MSG_INVOKE 5
     [put_int32 UBUS_ATTR_OBJID UBUS_SYSTEM_OBJECT_ACL; put_string UBUS_ATTR_METHOD "query"])
     <| os_recv := [Got 65536 [mk_cmsg SOL_SOCKET SCM_RIGHTS CMSG_LEN_INT 33]; Got 65536 []] |>);
   EvClient cl_joe false].

Definition query_end : option ubusd := run_from query_events (Some st10).

(** A rule that lets a user listen to one event name lets him register the
    pattern of all names that start with it: joe's object is to receive
    "foobar", a name the rules do not let joe listen to. *)
Theorem listen_rule_admits_pattern :
  exists s obj, listen_end = Some s /\ recipients None "foobar" s = [obj] /\
    fst <$> ubusd_acl_check (Some 6%positive) (Some "foobar") None UBUS_ACL_LISTEN s = Some (-1).
Proof.
  assert ((fun s => (length (recipients None "foobar" s),
    fst <$> ubusd_acl_check (Some 6%positive) (Some "foobar") None UBUS_ACL_LISTEN s)) <$> listen_end = Some (1%nat, Some (-1))) as H.
  { vm_compute. reflexivity. }
  destruct listen_end as [s|]; [|discriminate]. injection H as H1 H2. exists s.
  destruct (recipients None "foobar" s) as [|obj [|? ?]]; [discriminate| |discriminate].
  exists obj. split; [reflexivity|]. split; [reflexivity|exact H2].
Qed.

(** A descriptor sent along with a query of the access rules is closed
    twice: the daemon passes descriptor 33 on with its reply and closes it with
    the reply and again with the request. *)
Theorem query_closes_twice :
  exists s, query_end = Some s /\ os_passed (os s) = [(10, 33)] /\ os_closed (os s) = [33; 33].
Proof.
  assert ((fun s => (os_passed (os s), os_closed (os s))) <$> query_end = Some ([(10, 33)], [33; 33])) as H by (vm_compute; reflexivity).
  destruct query_end as [s|]; [|discriminate]. injection H as H1 H2. exists s. split; [reflexivity|]. exact (conj H1 H2).
Qed.
